(* ===== verification/_CoqProject ===== *)
-Q . S2P
Prelude.v
Pystr.v
Json.v
JsonText.v
Phones.v
SipRouting.v
SipBootstrap.v
Passkey.v
Url.v
Banking.v
BankMachine.v
Speech.v
Memory.v
Engagement.v
ToolSchema.v
Usage.v
CallIdentity.v
ConversationStore.v
DirectoryLocations.v
ProviderDirectory.v
DirectoryEmail.v
ActionTools.v
Bytes.v
RoomNames.v
Participants.v
Billing.v
Agentic.v
Phrases.v
Coroutines.v
Turns.v
TurnRuns.v
TurnSafety.v
SpokenText.v
LlmStream.v
CallBootstrap.v
LabConfig.v
Outbound.v
Worker.v
WorkerRuns.v
WorkerSafety.v
OpsApi.v
VoiceOutput.v
ConversationApi.v
SalonAgent.v
Timeline.v
DynamicTools.v
Recording.v
