(* ===== verification/Prelude.v ===== *)
(** * Verification development of the SalesGirl voice agent

    The program (src/, Python) answers telephone and web calls with a language model: it
    finds out for whom a call is and on whose behalf, loads that agent's configuration,
    listens, speaks, looks things up, performs actions for the caller (bank transactions,
    tickets, e-mails), and keeps a record.  This development models the decisions in it that
    money, privacy and the caller's trust depend on, and proves what they promise.

    ** How the parts meet

    A call enters by SIP or from a browser, whose signed token [CallBootstrap] checks.
    [SipRouting] and [SipBootstrap] find the tenant of a dialled number; [RoomNames] and [Participants] find the identity that a room's name
    or a participant carries; [CallIdentity] turns it into the address and channel under
    which the call is stored.  [Agentic] loads the agent of that business, and its tools
    become definitions for the model through [Banking], [ProviderDirectory],
    [DirectoryEmail], [ActionTools] and (made acceptable to the provider) [ToolSchema].
    During the call [Turns] is at the centre: it takes the caller's audio and transcripts,
    prepares and commits answers, asks for confirmations and executes confirmed actions,
    releases and interrupts speech, and calls the other components.  [LlmStream] reads the
    model's answer off the network, [SpokenText] keeps its private parts from being spoken,
    [Phrases] cuts it for the synthesiser, [Memory] bounds what the model sees, [Speech] chooses
    the voice and cuts text and audio, [Engagement] decides when the agent may speak and runs slow tools,
    [BankMachine] executes bank tools under voice verification, [Passkey] confirms an
    operation on the caller's device, [DirectoryEmail] mails a list, [ActionTools] creates a
    ticket or a mail.  [ConversationStore] records the messages and the recording, [Usage]
    counts and reports, and [Billing] permits the call, beats while it lasts and ends it.
    [Worker] is the job that runs a pipeline for a room: it reads the configuration with
    [LabConfig], admits or refuses the call, hands the pipeline its inputs, transfers the
    call, and tells [Outbound] how a call that the agent placed has ended.

    The telephony agent (main.py, agent/) is an older assistant on LiveKit's own framework.
    Its tools are [SalonAgent], each a request of [OpsApi] to the operations service, and
    those of the tenant's configuration, [DynamicTools]; what its model says passes through
    [VoiceOutput]; [Timeline] records the session through [ConversationApi] and settles what
    the agent claims about tickets; [Recording] starts and finishes the recording.

    ** The files

    - [Prelude]: strings, exceptions ([exn], [do!]), machines ([run], [reach]) with their
      induction principles, lists, the [case_goal] tactic and the hints shared by all;
    - [Pystr], [Json], [JsonText], [Bytes], [Url]: what the program uses of Python's [str],
      of dictionaries and JSON values, of [json.loads] and [json.dumps], of UTF-8,
      hexadecimal and base64, and of [urlsplit];
    - [Phones]: the five normalisers of telephone numbers (latency_lab/sip_routing.py,
      sip_bootstrap.py, conversation_persist.py, directory_email.py,
      agent/conversation_memory.py), and the interface [Normaliser] through which the
      contacts' theorem uses one;
    - [SipRouting] (latency_lab/sip_routing.py), [SipBootstrap] (sip_bootstrap.py);
    - [RoomNames], [Participants] (main.py 1564-2090, and the room names of
      latency_lab/agentic.py), [CallIdentity] (the pure part of conversation_persist.py);
    - [Agentic] (latency_lab/agentic.py): configuration, prompts, knowledge client;
    - [Banking], [BankMachine] (latency_lab/banking_tools.py): configuration and arguments,
      and the session of a call; [Passkey] (latency_lab/passkey.py);
    - [ActionTools] (latency_lab/action_tools.py);
    - [DirectoryLocations], [ProviderDirectory], [DirectoryEmail] (the modules of the same
      names in latency_lab/);
    - [Speech] (latency_lab/speech_languages.py, pidgin.py), [Memory] (memory.py),
      [Engagement] (engagement.py, and _play_engagement of pipeline.py);
    - [Phrases] (PhraseTokenizer of pipeline.py), [Coroutines] (tasks, awaits, cancellation
      and [gather] of an event loop, with the logic in which programs on it are verified),
      [Turns] (ConversationPipeline of pipeline.py), [TurnRuns] (schedules of it, evaluated),
      [TurnSafety] (its invariant and theorems);
    - [SpokenText] (latency_lab/llm_output.py), [LlmStream] (RLLMClient of providers.py, from
      the bytes of the body to the texts and tool calls of an answer);
    - [CallBootstrap] (latency_lab/session_identity.py, resolve_dispatch of
      livekit_worker.py);
    - [LabConfig] (latency_lab/config.py), [Outbound] (agent/outbound_call_api.py,
      call_capacity_api.py; latency_lab/outbound.py, sip_headers.py, aicc_transfer.py), [Worker] (latency_lab/livekit_worker.py),
      [WorkerRuns] (schedules of it, evaluated), [WorkerSafety] (its invariant and theorems);
    - [OpsApi] (agent/ops_api.py), [SalonAgent] (agent/salon_agent.py), [DynamicTools]
      (agent/dynamic_tools.py), [VoiceOutput] (the voice filter and llm_node of
      agent/salon_agent.py), [ConversationApi] (agent/conversation_service_api.py), [Timeline] (main.py 202-510 and
      2320-2672), [Recording] (agent/livekit_recording.py);
    - [ToolSchema] (agent/tool_schema_compat.py), [Usage] (latency_lab/usage.py),
      [ConversationStore] (conversation_persist.py), [Billing] (main.py 523-792 and
      agent/billing_hooks.py).

    ** How code is modelled

    A function is a Gallina function with its branches in the source's order.  One that may
    raise returns [exn]; the constructors of [pyexc] are the classes that the handlers tell
    apart.  Values from JSON are [json], dictionaries are association lists in insertion
    order.  A stateful object is a record; a coroutine is cut at its [await]s into steps, and
    what it waits for is a frame of the state, so that a list of events is one interleaving
    of the coroutines.  An event that the state does not enable makes [step] return [None];
    a theorem about [run .. = Some ..] speaks of every interleaving that can happen.  What
    comes from outside (a response, a clock, a random identifier, a failing database) is
    part of the event; the turn pipeline, whose tasks are many, is written as it stands in
    the source, on [Coroutines].  A library that the program calls (SHA-256, a JSON-Schema validator,
    NFKD) is a parameter, as is the environment.

    Fuel: [JsonText.parse_value] gets twice the length of its text, and each level consumes
    a character or follows one that did; [Speech.split_text] one more than the length, and
    [split_text_lossless] shows that nothing is left over; [DirectoryLocations.matched] one
    more than the length of the first text, each round removing a matched block;
    [Phrases.push] one more than the length of the buffer, and [push_spec] shows that it
    never runs out; [SpokenText.push] too, each round taking a character from the buffer;
    [DynamicTools.client_requests] as many as the HTTP client follows redirections.

    ** What the theorems show

    - Turns: whatever the order of the callbacks and the answers, the caller hears only
      answers to committed transcripts and the application's own words, never a cancelled
      answer and nothing while the speech gate is closed; an answer is committed to the record
      once; an action runs only after a reply that the classifier, given its call and its prompt,
      took for a confirmation; nothing is answered after the end of the call was authorised;
      every word of an answer reaches the synthesiser, whole and in order, and no text inside
      a hidden element does.  However the network cuts the model's stream, it is read alike; a
      request is repeated a bounded number of times for each reason, and never once something
      was spoken.
    - Safety of actions: a passkey operation and a bank execution happen at most once and
      only when proved, previewed, confirmed and, if required, matched by voice; a tool's
      unknown outcome is never retried; a list is mailed once and only where the caller may
      send it; an action reports what happened; billing ends a call once and with cause.
    - A call: the pipeline runs only for a call that the services admitted (their answers are
      effects of [Worker] beside the requests), is given its inputs one after the other, text
      of the served caller only, and is never left behind; a transfer goes to the configured
      number and is reported as what it became; an outbound call is reported once, refused or
      over, under its reference.
    - Tenancy and identity: a call's token is accepted only if it is signed, in force and for
      its own room, and once by a process (each job process has nonces of its own); both readers
      of a room's name agree, whoever joins, and an identifier is read back from its spellings;
      the configuration never changes the tenant; routes are sound; the program puts service
      tokens on requests to the operator's services only (a redirection by such a service takes
      one along, see [DynamicTools]), and a session's overrides stay within their bounds.
    - The telephony agent: a tool that is not enabled sends nothing, a success is reported
      only if it was accepted; tickets are made once in a turn where tools and claims run one
      after the other, which they need not (see [Timeline]); what is voiced does not depend on how the model's text was cut; a local recording stays
      below its directory and its tenant.
    - Speech: nothing decided before an interruption is heard after it, gaps are respected,
      silence is bounded; text and audio are cut without loss.
    - Data: the context stays within its budget and keeps exchanges whole, compaction drops
      only what was summarised; the store sends an append-only log and one session; schemas
      become acceptable; counts are those of the history.
    - Errors: where a source function raises on unusual input or reports a wrong cause, a
      lemma states it; the manifest lists these as findings.

    ** Not modelled, and why

    Of pipeline.py: the prompts, the passkey and directory branches of a generation, the inner
    rounds of the bank tools and the background tools.  Of main.py: the prompts, the detection
    of the use case, the choice of the engines, the fallback models and the entry point, which
    put LiveKit's own classes together.  Clients of speech and voice-recognition services,
    audio signal processing, telemetry, demos, scripts, deployment, prompts and the
    implementations in other languages are input and output, numerical code or text.  Times
    only appear where a decision compares them; floats are the text they came as. *)
From stdpp Require Import base list gmap strings.
From Stdlib Require Import ZArith Lia.

#[global] Open Scope Z_scope.

(** ** Strings

    A Python [str] is its list of Unicode code points. *)
Abbreviation str := (list Z) (only parsing).

(** ** Exceptions

    A Python operation that may raise returns an [exn]; the constructor is the
    class the source's [except] clauses tell apart. *)
Inductive pyexc : Type :=
| ValueError (msg : str)
| RuntimeError (msg : str)
| KeyError (key : str)
| TypeError
| AttributeError
| HttpError (** a transport failure: [aiohttp.ClientError], [httpx.HTTPError] *)
| TimeoutError
| CancelledError
| SqliteError
| OtherError.

#[export] Instance pyexc_eq_dec : EqDecision pyexc.
Proof. solve_decision. Defined.

Inductive exn (A : Type) : Type :=
| Ok (a : A)
| Raise (e : pyexc).
Arguments Ok {A} a.
Arguments Raise {A} e.

#[export] Instance exn_eq_dec {A} `{EqDecision A} : EqDecision (exn A).
Proof. solve_decision. Defined.

(** Injectivity without evaluating the sides, as [injection] would. *)
Lemma Ok_inj {A} (a b : A) : Ok a = Ok b → a = b.
Proof. by intros [= ->]. Qed.

Definition exn_bind {A B} (m : exn A) (k : A → exn B) : exn B :=
  match m with
  | Ok a => k a
  | Raise e => Raise e
  end.

Definition exn_map {A B} (f : A → B) (m : exn A) : exn B :=
  exn_bind m (λ a, Ok (f a)).

(** [try m except: h]. *)
Definition exn_catch {A} (m : exn A) (h : pyexc → exn A) : exn A :=
  match m with
  | Ok a => Ok a
  | Raise e => h e
  end.

(** [try m except Exception: d]; a cancellation is not an [Exception]. *)
Definition exn_default {A} (d : A) (m : exn A) : exn A :=
  match m with
  | Raise CancelledError => Raise CancelledError
  | Raise _ => Ok d
  | Ok a => Ok a
  end.

Declare Scope py_scope.
Delimit Scope py_scope with py.
Notation "'do!' x := m 'in' k" := (exn_bind m (λ x, k))
  (at level 10, x pattern, m at level 100, k at level 200)
  : py_scope.
#[global] Open Scope py_scope.

Lemma exn_bind_Ok {A B} (m : exn A) (k : A → exn B) b :
  exn_bind m k = Ok b ↔ ∃ a, m = Ok a ∧ k a = Ok b.
Proof. destruct m; simpl; naive_solver. Qed.

Lemma Ok_pair_inj {A B} (a c : A) (b d : B) : Ok (a, b) = Ok (c, d) → a = c ∧ b = d.
Proof. intros H. by injection H. Qed.

Lemma exn_bind_Raise {A B} (m : exn A) (k : A → exn B) e :
  exn_bind m k = Raise e ↔ m = Raise e ∨ ∃ a, m = Ok a ∧ k a = Raise e.
Proof. destruct m; simpl; naive_solver. Qed.

(** ** Automation *)

(** Boolean tests of the code become the facts they decide. *)
Create Rewrite HintDb py_bool.
#[export] Hint Rewrite andb_true_iff andb_false_iff orb_true_iff orb_false_iff
  negb_true_iff negb_false_iff bool_decide_eq_true bool_decide_eq_false
  Z.ltb_lt Z.ltb_ge Z.leb_le Z.leb_gt Z.eqb_eq Z.eqb_neq : py_bool.

Ltac reflect_bool := autorewrite with py_bool in *.

(** Case on the scrutinee of the first [if] or [match] in the goal. *)
Ltac case_goal :=
  match goal with
  | |- context [match ?x with _ => _ end] => destruct x eqn:?
  end.

(** Case on a [match] in a hypothesis, then clean up. *)
Ltac case_in H :=
  match type of H with
  | context [match ?x with _ => _ end] => destruct x eqn:?
  end; simplify_eq/=.

(** Case on the outermost [if] of a hypothesis, leaving it as it is. *)
Ltac if_in H :=
  match type of H with
  | (if ?b then _ else _) = _ => destruct b eqn:?
  end.

Ltac cases_in H := repeat case_in H.

(** Close goals that a case analysis made contradictory or immediate. *)
Ltac crush :=
  simplify_eq/=; try done; try congruence; try lia; eauto.

#[global] Arguments bool_decide : simpl never.
#[global] Arguments decide : simpl never.

(** ** Lists *)

Section lists.
Context {A : Type}.
Implicit Types (l : list A) (x : A).

(** [l[-n:]] of Python, for [n > 0]. *)
Definition last_n (n : nat) l : list A := drop (length l - n) l.

Lemma length_last_n n l : length (last_n n l) = (length l `min` n)%nat.
Proof. unfold last_n. rewrite length_drop. lia. Qed.

Lemma last_n_le n l : (length (last_n n l) ≤ n)%nat.
Proof. rewrite length_last_n. lia. Qed.

Lemma last_n_all n l : (length l ≤ n)%nat → last_n n l = l.
Proof. intros. unfold last_n. by replace (length l - n)%nat with 0%nat by lia. Qed.

Lemma last_n_app_ge n l k : (n ≤ length k)%nat → last_n n (l ++ k) = last_n n k.
Proof.
  intros. unfold last_n. rewrite length_app, drop_app_ge by lia.
  f_equal. lia.
Qed.

(** Trimming to the last [n] after each append is trimming once at the end. *)
Lemma last_n_app_trim n l k : last_n n (last_n n l ++ k) = last_n n (l ++ k).
Proof.
  unfold last_n at 1 3. rewrite !length_app, length_last_n.
  destruct (decide (n ≤ length l)%nat) as [Hle|Hgt].
  - rewrite Nat.min_r by lia. unfold last_n.
    destruct (decide (n ≤ length k)%nat).
    + rewrite !drop_app_ge by (rewrite ?length_drop; lia).
      f_equal. rewrite length_drop. lia.
    + rewrite !drop_app_le by (rewrite ?length_drop; lia).
      rewrite drop_drop. f_equal. f_equal. lia.
  - rewrite Nat.min_l by lia. rewrite last_n_all by lia. done.
Qed.

Lemma last_n_suffix n l : last_n n l `suffix_of` l.
Proof. exists (take (length l - n) l). unfold last_n. by rewrite take_drop. Qed.

(** Appending one element to a list kept at most [n] long. *)
Lemma last_n_snoc_length n l x :
  (0 < n)%nat → (length (last_n n (l ++ [x])) ≤ n)%nat.
Proof. intros. apply last_n_le. Qed.
End lists.
Arguments last_n : simpl never.

Lemma existsb_elem_of {A} (f : A → bool) l :
  existsb f l = true ↔ ∃ x, x ∈ l ∧ f x = true.
Proof. rewrite existsb_exists. setoid_rewrite list_elem_of_In. done. Qed.

Lemma existsb_elem_of_false {A} (f : A → bool) l :
  existsb f l = false ↔ ∀ x, x ∈ l → f x = false.
Proof.
  rewrite <-not_true_iff_false, existsb_elem_of. split.
  - intros H x Hx. destruct (f x) eqn:E; [exfalso; eauto|done].
  - intros H (x & Hx & Hf). by rewrite (H x Hx) in Hf.
Qed.

Lemma forallb_elem_of {A} (f : A → bool) l :
  forallb f l = true ↔ ∀ x, x ∈ l → f x = true.
Proof. rewrite forallb_forall. by setoid_rewrite list_elem_of_In. Qed.

Lemma find_elem_of {A} (f : A → bool) l x :
  List.find f l = Some x → x ∈ l ∧ f x = true.
Proof. intros H%List.find_some. by rewrite list_elem_of_In. Qed.

(** The first element that makes [f] return a value:
    [for x in l: if (y := f(x)): return y]. *)
Fixpoint first_some {A B} (f : A → option B) (l : list A) : option B :=
  match l with
  | [] => None
  | x :: l => match f x with Some y => Some y | None => first_some f l end
  end.

Lemma first_some_Some {A B} (f : A → option B) l y :
  first_some f l = Some y → ∃ x, x ∈ l ∧ f x = Some y.
Proof.
  induction l as [|x l IH]; simpl; [done|].
  destruct (f x) eqn:E.
  - intros [= ->]. exists x. by split; [left|].
  - intros (z & Hz & Hf)%IH. exists z. by split; [right|].
Qed.

Lemma first_some_None {A B} (f : A → option B) l :
  first_some f l = None ↔ ∀ x, x ∈ l → f x = None.
Proof.
  induction l as [|x l IH]; simpl.
  - split; [|done]. intros _ x Hx. by apply not_elem_of_nil in Hx.
  - destruct (f x) eqn:E.
    + split; [done|]. intros H. by rewrite (H x (list_elem_of_here _ _)) in E.
    + rewrite IH. split.
      * intros H z [->|Hz]%elem_of_cons; [done|by apply H].
      * intros H z Hz. apply H. by right.
Qed.

(** The number of elements with a property. *)
Definition count {A} (f : A → bool) (l : list A) : nat := length (List.filter f l).

Lemma count_app {A} (f : A → bool) l k : count f (l ++ k) = (count f l + count f k)%nat.
Proof. unfold count. by rewrite List.filter_app, length_app. Qed.

Lemma count_cons {A} (f : A → bool) x l :
  count f (x :: l) = ((if f x then 1 else 0) + count f l)%nat.
Proof. unfold count. simpl. by destruct (f x). Qed.

Lemma count_zero {A} (f : A → bool) l : Forall (λ x, f x = false) l → count f l = 0%nat.
Proof. unfold count. induction 1 as [|x l Hx _ IH]; simpl; [done|]. by rewrite Hx. Qed.

Lemma count_elem {A} (f : A → bool) x l : x ∈ l → f x = true → (0 < count f l)%nat.
Proof.
  intros Hx Hf. unfold count. assert (In x (List.filter f l)) as H
    by (apply List.filter_In; split; [by apply list_elem_of_In|done]).
  destruct (List.filter f l); [done|simpl; lia].
Qed.

#[export] Hint Resolve last_n_le last_n_suffix : core.

(** ** Event-driven machines

    The program's concurrent objects are modelled as machines: each event is one
    run of the source between two suspension points ([await]s), so a list of
    events is one interleaving of the coroutines.  [step s e] is [None] when the
    event is not enabled in [s]; otherwise it gives the next state and the
    effects the code performs. *)
Section machine.
Context {S E O : Type} (step : S → E → option (S * list O)).

Fixpoint run (s : S) (es : list E) : option (S * list O) :=
  match es with
  | [] => Some (s, [])
  | e :: es =>
      match step s e with
      | None => None
      | Some (s1, o1) =>
          match run s1 es with
          | None => None
          | Some (s2, o2) => Some (s2, o1 ++ o2)
          end
      end
  end.

Lemma run_cons s e es :
  run s (e :: es) =
  match step s e with
  | None => None
  | Some (s1, o1) => match run s1 es with None => None | Some (s2, o2) => Some (s2, o1 ++ o2) end
  end.
Proof. done. Qed.

(** The states and effect histories an execution can reach. *)
Inductive reach (s0 : S) : S → list O → Prop :=
| reach_init : reach s0 s0 []
| reach_step s outs e s' o :
    reach s0 s outs → step s e = Some (s', o) → reach s0 s' (outs ++ o).

Lemma reach_run s0 s outs es s' o :
  reach s0 s outs → run s es = Some (s', o) → reach s0 s' (outs ++ o).
Proof.
  revert s outs o. induction es as [|e es IH]; intros s outs o Hr Hrun; simpl in *.
  - simplify_eq. by rewrite app_nil_r.
  - destruct (step s e) as [[s1 o1]|] eqn:Hs; [|done].
    destruct (run s1 es) as [[s2 o2]|] eqn:Hr2; simplify_eq.
    rewrite app_assoc. eapply IH; [|done]. by eapply reach_step.
Qed.

Lemma run_reach s0 es s outs : run s0 es = Some (s, outs) → reach s0 s outs.
Proof. intros H. apply (reach_run s0 s0 [] es). constructor. done. Qed.

Lemma run_snoc s0 es s outs e s' o :
  run s0 es = Some (s, outs) → step s e = Some (s', o) →
  run s0 (es ++ [e]) = Some (s', outs ++ o).
Proof.
  revert s0 outs. induction es as [|e' es IH]; intros s0 outs H Hs; simpl in *.
  - simplify_eq. rewrite Hs. by rewrite app_nil_r.
  - destruct (step s0 e') as [[s1 o1]|]; [|done].
    destruct (run s1 es) as [[s2 o2]|] eqn:Hr; simplify_eq.
    rewrite (IH _ _ Hr Hs). by rewrite app_assoc.
Qed.

Lemma reach_runs s0 s outs : reach s0 s outs → ∃ es, run s0 es = Some (s, outs).
Proof.
  induction 1 as [|s outs e s' o _ [es IH] Hs]; [by exists []|].
  exists (es ++ [e]). by eapply run_snoc.
Qed.

(** Rule induction over executions, for an invariant of the state and history. *)
Lemma reach_inv (I : S → list O → Prop) s0 :
  I s0 [] →
  (∀ s outs e s' o, I s outs → step s e = Some (s', o) → I s' (outs ++ o)) →
  ∀ s outs, reach s0 s outs → I s outs.
Proof. intros H0 Hstep s outs. induction 1; eauto. Qed.

Lemma run_inv (I : S → list O → Prop) s0 :
  I s0 [] →
  (∀ s outs e s' o, I s outs → step s e = Some (s', o) → I s' (outs ++ o)) →
  ∀ es s outs, run s0 es = Some (s, outs) → I s outs.
Proof. intros H0 Hstep es s outs Hr. eapply reach_inv; eauto using run_reach. Qed.

(** The same for an invariant that also speaks of the events so far. *)
Lemma run_hist_inv (I : list E → S → list O → Prop) s0 :
  I [] s0 [] →
  (∀ es s outs e s' o, I es s outs → step s e = Some (s', o) → I (es ++ [e]) s' (outs ++ o)) →
  ∀ es s outs, run s0 es = Some (s, outs) → I es s outs.
Proof.
  intros H0 Hstep.
  assert (∀ es es0 s outs0 s' o, I es0 s outs0 → run s es = Some (s', o) →
            I (es0 ++ es) s' (outs0 ++ o)) as Hgen.
  { induction es as [|e es IH]; intros es0 s outs0 s' o Hi Hr; simpl in Hr.
    - simplify_eq. by rewrite !app_nil_r.
    - destruct (step s e) as [[s1 o1]|] eqn:Hs; [|done].
      destruct (run s1 es) as [[s2 o2]|] eqn:Hr2; simplify_eq.
      change (e :: es) with ([e] ++ es). rewrite !(app_assoc _ _ es), !(app_assoc outs0).
      eapply IH; [|done]. by eapply Hstep. }
  intros es s outs. apply (Hgen es [] s0 []). done.
Qed.

(** The same for executions whose events satisfy a side condition. *)
Lemma run_guard_inv (P : E → Prop) (I : S → list O → Prop) s0 :
  I s0 [] →
  (∀ s outs e s' o, P e → I s outs → step s e = Some (s', o) → I s' (outs ++ o)) →
  ∀ es s outs, Forall P es → run s0 es = Some (s, outs) → I s outs.
Proof.
  intros H0 Hstep es s outs Hp Hr.
  refine (run_hist_inv (λ es s o, Forall P es → I s o) s0 _ _ es s outs Hr Hp); [done|].
  intros es' s' outs' e s2 o IH Hs [Hes He]%Forall_app.
  apply Forall_cons in He as [He _]. by eapply Hstep; [exact He|apply IH|exact Hs].
Qed.

(** The same for an invariant of the state alone, from any state. *)
Lemma run_events_inv (P : E → Prop) (I : S → Prop) :
  (∀ s e s' o, P e → I s → step s e = Some (s', o) → I s') →
  ∀ es s s' outs, Forall P es → I s → run s es = Some (s', outs) → I s'.
Proof.
  intros Hstep es. induction es as [|e es IH]; intros s s' outs Hp Hi Hr; simpl in Hr.
  - by simplify_eq.
  - apply Forall_cons in Hp as [He Hp].
    destruct (step s e) as [[s1 o1]|] eqn:Hs; [|done].
    destruct (run s1 es) as [[s2 o2]|] eqn:Hr2; simplify_eq. eauto.
Qed.
End machine.
Arguments run {S E O} step s es : simpl nomatch.
