(* ===== verification/Pystr.v ===== *)
(** * Python strings

    The operations of [str] that the program uses, on code-point lists.  The
    character tables are those of the Python 3.11 [unicodedata] (Unicode 14):
    white space ([str.isspace]), digits ([str.isdigit]) and the one-to-one lower
    case map.  The only context-sensitive rule of [str.lower], the final form of
    the Greek capital sigma, is not modelled: U+03A3 always maps to U+03C3. *)
From stdpp Require Import base list strings.
From Stdlib Require Import ZArith Lia Ascii.
From S2P Require Import Prelude.

#[local] Set Warnings "-abstract-large-number".

(** ** Literals *)

(** UTF-8 decoding of the bytes of a literal (well-formed by construction). *)
Fixpoint utf8_decode (bs : list Z) : str :=
  match bs with
  | [] => []
  | b :: bs =>
      if b <? 128 then b :: utf8_decode bs
      else if b <? 224 then
        match bs with
        | b1 :: bs => (b - 192) * 64 + (b1 - 128) :: utf8_decode bs
        | _ => []
        end
      else if b <? 240 then
        match bs with
        | b1 :: b2 :: bs => (b - 224) * 4096 + (b1 - 128) * 64 + (b2 - 128) :: utf8_decode bs
        | _ => []
        end
      else
        match bs with
        | b1 :: b2 :: b3 :: bs =>
            (b - 240) * 262144 + (b1 - 128) * 4096 + (b2 - 128) * 64 + (b3 - 128)
            :: utf8_decode bs
        | _ => []
        end
  end.

(** [lit "text"] is the Python literal "text". *)
Definition lit (s : string) : str :=
  utf8_decode (map (λ a, Z.of_N (N_of_ascii a)) (String.list_ascii_of_string s)).
Arguments lit s : simpl never.

(** The number of bytes of the UTF-8 encoding of a code point. *)
Definition utf8_width (c : Z) : Z :=
  if c <? 128 then 1 else if c <? 2048 then 2 else if c <? 65536 then 3 else 4.

(** [len(s.encode("utf-8"))] *)
Fixpoint utf8_len (s : str) : Z :=
  match s with
  | [] => 0
  | c :: s => utf8_width c + utf8_len s
  end.

Definition str_eqb (s t : str) : bool := bool_decide (s = t).
Infix "=s" := str_eqb (at level 70) : py_scope.

Definition in_strs (s : str) (l : list str) : bool := existsb (str_eqb s) l.

(** ** Character classes *)

Definition whitespace : list Z :=
  [9; 10; 11; 12; 13; 28; 29; 30; 31; 32; 133; 160; 5760; 8192; 8193; 8194; 8195; 8196;
   8197; 8198; 8199; 8200; 8201; 8202; 8232; 8233; 8239; 8287; 12288].

Definition is_space (c : Z) : bool := existsb (Z.eqb c) whitespace.

Definition digit_ranges : list (Z * Z) :=
  [
    (48,57); (178,179); (185,185); (1632,1641); (1776,1785); (1984,1993); (2406,2415);
    (2534,2543); (2662,2671); (2790,2799); (2918,2927); (3046,3055); (3174,3183);
    (3302,3311); (3430,3439); (3558,3567); (3664,3673); (3792,3801); (3872,3881);
    (4160,4169); (4240,4249); (4969,4977); (6112,6121); (6160,6169); (6470,6479);
    (6608,6618); (6784,6793); (6800,6809); (6992,7001); (7088,7097); (7232,7241);
    (7248,7257); (8304,8304); (8308,8313); (8320,8329); (9312,9320); (9332,9340);
    (9352,9360); (9450,9450); (9461,9469); (9471,9471); (10102,10110); (10112,10120);
    (10122,10130); (42528,42537); (43216,43225); (43264,43273); (43472,43481);
    (43504,43513); (43600,43609); (44016,44025); (65296,65305); (66720,66729);
    (68160,68163); (68912,68921); (69216,69224); (69714,69722); (69734,69743);
    (69872,69881); (69942,69951); (70096,70105); (70384,70393); (70736,70745);
    (70864,70873); (71248,71257); (71360,71369); (71472,71481); (71904,71913);
    (72016,72025); (72784,72793); (73040,73049); (73120,73129); (92768,92777);
    (92864,92873); (93008,93017); (120782,120831); (123200,123209); (123632,123641);
    (125264,125273); (127232,127242); (130032,130041)].

Definition is_digit (c : Z) : bool :=
  existsb (λ r, (r.1 <=? c) && (c <=? r.2)) digit_ranges.

Definition decimal_ranges : list (Z * Z) :=
  [
    (48,57); (1632,1641); (1776,1785); (1984,1993); (2406,2415); (2534,2543);
    (2662,2671); (2790,2799); (2918,2927); (3046,3055); (3174,3183); (3302,3311);
    (3430,3439); (3558,3567); (3664,3673); (3792,3801); (3872,3881); (4160,4169);
    (4240,4249); (6112,6121); (6160,6169); (6470,6479); (6608,6617); (6784,6793);
    (6800,6809); (6992,7001); (7088,7097); (7232,7241); (7248,7257); (42528,42537);
    (43216,43225); (43264,43273); (43472,43481); (43504,43513); (43600,43609);
    (44016,44025); (65296,65305); (66720,66729); (68912,68921); (69734,69743);
    (69872,69881); (69942,69951); (70096,70105); (70384,70393); (70736,70745);
    (70864,70873); (71248,71257); (71360,71369); (71472,71481); (71904,71913);
    (72016,72025); (72784,72793); (73040,73049); (73120,73129); (92768,92777);
    (92864,92873); (93008,93017); (120782,120831); (123200,123209); (123632,123641);
    (125264,125273); (130032,130041)].

(** [str.isdecimal], which is also the class [\d] of a [str] pattern. *)
Definition is_decimal (c : Z) : bool :=
  existsb (λ r, (r.1 <=? c) && (c <=? r.2)) decimal_ranges.

(** [(first, last, step, delta)]: each [first], [first + step], .., [last] maps to
    itself plus [delta].  (The final form of the Greek sigma is left out: no text the
    program compares ends in one.) *)
Definition lower_ranges : list (Z * Z * Z * Z) :=
  [
    (65,90,1,32); (192,214,1,32); (216,222,1,32); (256,302,2,1); (306,310,2,1);
    (313,327,2,1); (330,374,2,1); (376,376,1,-121); (377,381,2,1); (385,385,1,210);
    (386,388,2,1); (390,390,1,206); (391,391,1,1); (393,394,1,205); (395,395,1,1);
    (398,398,1,79); (399,399,1,202); (400,400,1,203); (401,401,1,1); (403,403,1,205);
    (404,404,1,207); (406,406,1,211); (407,407,1,209); (408,408,1,1); (412,412,1,211);
    (413,413,1,213); (415,415,1,214); (416,420,2,1); (422,422,1,218); (423,423,1,1);
    (425,425,1,218); (428,428,1,1); (430,430,1,218); (431,431,1,1); (433,434,1,217);
    (435,437,2,1); (439,439,1,219); (440,440,1,1); (444,444,1,1); (452,452,1,2);
    (453,453,1,1); (455,455,1,2); (456,456,1,1); (458,458,1,2); (459,475,2,1);
    (478,494,2,1); (497,497,1,2); (498,500,2,1); (502,502,1,-97); (503,503,1,-56);
    (504,542,2,1); (544,544,1,-130); (546,562,2,1); (570,570,1,10795); (571,571,1,1);
    (573,573,1,-163); (574,574,1,10792); (577,577,1,1); (579,579,1,-195); (580,580,1,69);
    (581,581,1,71); (582,590,2,1); (880,882,2,1); (886,886,1,1); (895,895,1,116);
    (902,902,1,38); (904,906,1,37); (908,908,1,64); (910,911,1,63); (913,929,1,32);
    (931,939,1,32); (975,975,1,8); (984,1006,2,1); (1012,1012,1,-60); (1015,1015,1,1);
    (1017,1017,1,-7); (1018,1018,1,1); (1021,1023,1,-130); (1024,1039,1,80);
    (1040,1071,1,32); (1120,1152,2,1); (1162,1214,2,1); (1216,1216,1,15);
    (1217,1229,2,1); (1232,1326,2,1); (1329,1366,1,48); (4256,4293,1,7264);
    (4295,4295,1,7264); (4301,4301,1,7264); (5024,5103,1,38864); (5104,5109,1,8);
    (7312,7354,1,-3008); (7357,7359,1,-3008); (7680,7828,2,1); (7838,7838,1,-7615);
    (7840,7934,2,1); (7944,7951,1,-8); (7960,7965,1,-8); (7976,7983,1,-8);
    (7992,7999,1,-8); (8008,8013,1,-8); (8025,8031,2,-8); (8040,8047,1,-8);
    (8072,8079,1,-8); (8088,8095,1,-8); (8104,8111,1,-8); (8120,8121,1,-8);
    (8122,8123,1,-74); (8124,8124,1,-9); (8136,8139,1,-86); (8140,8140,1,-9);
    (8152,8153,1,-8); (8154,8155,1,-100); (8168,8169,1,-8); (8170,8171,1,-112);
    (8172,8172,1,-7); (8184,8185,1,-128); (8186,8187,1,-126); (8188,8188,1,-9);
    (8486,8486,1,-7517); (8490,8490,1,-8383); (8491,8491,1,-8262); (8498,8498,1,28);
    (8544,8559,1,16); (8579,8579,1,1); (9398,9423,1,26); (11264,11311,1,48);
    (11360,11360,1,1); (11362,11362,1,-10743); (11363,11363,1,-3814);
    (11364,11364,1,-10727); (11367,11371,2,1); (11373,11373,1,-10780);
    (11374,11374,1,-10749); (11375,11375,1,-10783); (11376,11376,1,-10782);
    (11378,11378,1,1); (11381,11381,1,1); (11390,11391,1,-10815); (11392,11490,2,1);
    (11499,11501,2,1); (11506,11506,1,1); (42560,42604,2,1); (42624,42650,2,1);
    (42786,42798,2,1); (42802,42862,2,1); (42873,42875,2,1); (42877,42877,1,-35332);
    (42878,42886,2,1); (42891,42891,1,1); (42893,42893,1,-42280); (42896,42898,2,1);
    (42902,42920,2,1); (42922,42922,1,-42308); (42923,42923,1,-42319);
    (42924,42924,1,-42315); (42925,42925,1,-42305); (42926,42926,1,-42308);
    (42928,42928,1,-42258); (42929,42929,1,-42282); (42930,42930,1,-42261);
    (42931,42931,1,928); (42932,42946,2,1); (42948,42948,1,-48); (42949,42949,1,-42307);
    (42950,42950,1,-35384); (42951,42953,2,1); (42960,42960,1,1); (42966,42968,2,1);
    (42997,42997,1,1); (65313,65338,1,32); (66560,66599,1,40); (66736,66771,1,40);
    (66928,66938,1,39); (66940,66954,1,39); (66956,66962,1,39); (66964,66965,1,39);
    (68736,68786,1,64); (71840,71871,1,32); (93760,93791,1,32); (125184,125217,1,34)].

Definition lower_char (c : Z) : str :=
  if c =? 304 then [105; 775]
  else
    match List.find (λ '(lo, hi, st, _), (lo <=? c) && (c <=? hi) && ((c - lo) mod st =? 0))
            lower_ranges with
    | Some (_, _, _, d) => [c + d]
    | None => [c]
    end.

Definition py_lower (s : str) : str := s ≫= lower_char.

(** ** Stripping and splitting *)

Fixpoint lstrip_by (p : Z → bool) (s : str) : str :=
  match s with
  | [] => []
  | c :: s' => if p c then lstrip_by p s' else s
  end.

Definition rstrip_by (p : Z → bool) (s : str) : str := List.rev (lstrip_by p (List.rev s)).

Definition strip_by (p : Z → bool) (s : str) : str := rstrip_by p (lstrip_by p s).

(** [s.strip()] *)
Definition py_strip : str → str := strip_by is_space.

(** [s.rstrip("/")] and the like. *)
Definition py_rstrip_char (c : Z) : str → str := rstrip_by (Z.eqb c).

(** The maximal runs of characters not satisfying [p]; [cur] is the current run,
    reversed. *)
Fixpoint words_by (p : Z → bool) (cur : str) (s : str) : list str :=
  match s with
  | [] => match cur with [] => [] | _ => [List.rev cur] end
  | c :: s =>
      if p c then
        match cur with
        | [] => words_by p [] s
        | _ => List.rev cur :: words_by p [] s
        end
      else words_by p (c :: cur) s
  end.

(** [s.split()] *)
Definition py_split (s : str) : list str := words_by is_space [] s.

(** [s.split(c)] for a one-character separator: empty fields are kept. *)
Fixpoint split_char_from (c : Z) (cur : str) (s : str) : list str :=
  match s with
  | [] => [List.rev cur]
  | d :: s => if d =? c then List.rev cur :: split_char_from c [] s
              else split_char_from c (d :: cur) s
  end.
Definition py_split_char (c : Z) (s : str) : list str := split_char_from c [] s.

(** [sep.join(parts)] *)
Fixpoint py_join (sep : str) (parts : list str) : str :=
  match parts with
  | [] => []
  | [p] => p
  | p :: parts => p ++ sep ++ py_join sep parts
  end.

(** [" ".join(s.split())] *)
Definition collapse_ws (s : str) : str := py_join (lit " ") (py_split s).

(** ** Searching *)

Fixpoint starts_with (p s : str) : bool :=
  match p, s with
  | [], _ => true
  | a :: p, b :: s => (a =? b) && starts_with p s
  | _, [] => false
  end.

(** [s.endswith(p)] *)
Definition ends_with (p s : str) : bool := starts_with (List.rev p) (List.rev s).

(** [sub in s] *)
Fixpoint contains (sub s : str) : bool :=
  starts_with sub s || match s with [] => false | _ :: s' => contains sub s' end.

Definition has_char (c : Z) (s : str) : bool := existsb (Z.eqb c) s.

(** [s.find(sub)], [-1] when absent; [i] is the position of [s] in the whole string. *)
Fixpoint find_from (sub s : str) (i : Z) : Z :=
  if starts_with sub s then i
  else match s with [] => -1 | _ :: s' => find_from sub s' (i + 1) end.
Definition py_find (sub s : str) : Z := find_from sub s 0.

(** [s.rfind(sub)] *)
Fixpoint rfind_from (sub s : str) (i : Z) (best : Z) : Z :=
  let best := if starts_with sub s then i else best in
  match s with [] => best | _ :: s' => rfind_from sub s' (i + 1) best end.
Definition py_rfind (sub s : str) : Z := rfind_from sub s 0 (-1).

(** [s.replace(c, by)] for a one-character pattern. *)
Definition replace_char (c : Z) (by_ : str) (s : str) : str :=
  s ≫= λ d, if d =? c then by_ else [d].

(** [s[:n]] *)
Definition slice_to (n : nat) (s : str) : str := take n s.

Definition slen (s : str) : Z := Z.of_nat (length s).

(** Decimal digits of an integer, [str(n)]. *)
Fixpoint digits_fuel (fuel : nat) (n : Z) (acc : str) : str :=
  match fuel with
  | O => acc
  | S fuel =>
      let acc := (48 + n mod 10) :: acc in
      if n <? 10 then acc else digits_fuel fuel (n / 10) acc
  end.
Definition str_of_Z (n : Z) : str :=
  let m := Z.abs n in
  let ds := digits_fuel (S (Z.to_nat (Z.log2 m))) m [] in
  if n <? 0 then 45 :: ds else ds.

(** ** Order *)

(** [s <= t]: code points compared lexicographically. *)
Fixpoint str_leb (s t : str) : bool :=
  match s, t with
  | [], _ => true
  | _, [] => false
  | a :: s, b :: t => (a <? b) || ((a =? b) && str_leb s t)
  end.

Fixpoint insert_sorted (x : str) (l : list str) : list str :=
  match l with
  | [] => [x]
  | y :: l' => if str_leb x y then x :: l else y :: insert_sorted x l'
  end.

(** [sorted(l)] (the sort is stable, and equal strings are identical). *)
Definition py_sorted (l : list str) : list str := foldr insert_sorted [] l.

#[global] Arguments str_eqb : simpl never.
#[global] Arguments in_strs : simpl never.
#[global] Arguments is_space : simpl never.
#[global] Arguments is_digit : simpl never.
#[global] Arguments is_decimal : simpl never.
#[global] Arguments lower_char : simpl never.
#[global] Arguments py_lower : simpl never.
#[global] Arguments py_strip : simpl never.
#[global] Arguments py_split : simpl never.
#[global] Arguments str_of_Z : simpl never.

(** ** Lemmas *)

Lemma str_eqb_true s t : (s =s t) = true ↔ s = t.
Proof. apply bool_decide_eq_true. Qed.
Lemma str_eqb_false s t : (s =s t) = false ↔ s ≠ t.
Proof. apply bool_decide_eq_false. Qed.
Lemma str_eqb_refl s : (s =s s) = true.
Proof. by apply str_eqb_true. Qed.
#[export] Hint Rewrite str_eqb_true str_eqb_false : py_bool.

Lemma in_strs_true s l : in_strs s l = true ↔ s ∈ l.
Proof.
  unfold in_strs. rewrite existsb_elem_of. setoid_rewrite str_eqb_true. naive_solver.
Qed.
Lemma in_strs_false s l : in_strs s l = false ↔ s ∉ l.
Proof. rewrite <-not_true_iff_false, in_strs_true. done. Qed.
#[export] Hint Rewrite in_strs_true in_strs_false : py_bool.

Lemma starts_with_true p s : starts_with p s = true ↔ p `prefix_of` s.
Proof.
  revert s. induction p as [|a p IH]; intros [|b s]; simpl.
  - split; [|done]. intros _. by exists [].
  - split; [|done]. intros _. by exists (b :: s).
  - split; [done|]. intros [k Hk]. done.
  - rewrite andb_true_iff, IH, Z.eqb_eq. split.
    + intros [-> [k ->]]. by exists k.
    + intros [k Hk]. simplify_eq/=. split; [done|]. by exists k.
Qed.

Lemma starts_with_app p s : starts_with p (p ++ s) = true.
Proof. apply starts_with_true. by exists s. Qed.

Lemma contains_true sub s : contains sub s = true ↔ ∃ a b, s = a ++ sub ++ b.
Proof.
  induction s as [|c s IH]; simpl; rewrite orb_true_iff, starts_with_true.
  - split.
    + intros [[k Hk]|]; [|done]. by exists [], k.
    + intros (a & b & Hab). left. exists b.
      symmetry in Hab. apply app_nil in Hab as [-> Hab]. by rewrite Hab.
  - rewrite IH. split.
    + intros [[k Hk]|(a & b & ->)]; [by exists [], k|by exists (c :: a), b].
    + intros (a & b & Hab). destruct a as [|d a]; simplify_eq/=.
      * left. exists b. by rewrite <-Hab.
      * right. eauto.
Qed.

Section strip.
Context (p : Z → bool).

(** [s] does not begin with a character of [p]. *)
Definition no_head (s : str) : Prop :=
  match s with [] => True | c :: _ => p c = false end.

Lemma lstrip_no_head s : no_head (lstrip_by p s).
Proof. induction s as [|c s IH]; simpl; [done|]. by destruct (p c) eqn:E. Qed.

Lemma lstrip_id s : no_head s → lstrip_by p s = s.
Proof. destruct s as [|c s]; simpl; [done|]. by intros ->. Qed.

Lemma lstrip_suffix s : ∃ k, s = k ++ lstrip_by p s ∧ Forall (λ c, p c = true) k.
Proof.
  induction s as [|c s (k & Hk & Hp)]; simpl; [by exists []|].
  destruct (p c) eqn:E.
  - exists (c :: k). split; [by rewrite Hk at 1|by constructor].
  - by exists [].
Qed.

Lemma no_head_app_l s t : no_head (s ++ t) → no_head s.
Proof. by destruct s. Qed.

Lemma rstrip_prefix s : ∃ k, s = rstrip_by p s ++ k ∧ Forall (λ c, p c = true) k.
Proof.
  unfold rstrip_by. destruct (lstrip_suffix (List.rev s)) as (k & Hk & Hp).
  exists (List.rev k). split.
  - rewrite <-List.rev_app_distr, <-Hk. by rewrite List.rev_involutive.
  - apply Forall_forall. intros x Hx. rewrite Forall_forall in Hp. apply Hp.
    by apply list_elem_of_In, List.in_rev, list_elem_of_In.
Qed.

Lemma rstrip_no_head s : no_head s → no_head (rstrip_by p s).
Proof.
  destruct (rstrip_prefix s) as (k & Hk & _). rewrite Hk at 1. apply no_head_app_l.
Qed.

Lemma rstrip_idem s : rstrip_by p (rstrip_by p s) = rstrip_by p s.
Proof.
  unfold rstrip_by. rewrite List.rev_involutive. f_equal.
  apply lstrip_id, lstrip_no_head.
Qed.

Lemma strip_by_idem s : strip_by p (strip_by p s) = strip_by p s.
Proof.
  unfold strip_by. rewrite (lstrip_id (rstrip_by _ _)); [apply rstrip_idem|].
  apply rstrip_no_head, lstrip_no_head.
Qed.

Lemma strip_by_id s : no_head s → no_head (List.rev s) → strip_by p s = s.
Proof.
  intros H1 H2. unfold strip_by, rstrip_by. rewrite (lstrip_id s), (lstrip_id (List.rev s)) by done.
  apply List.rev_involutive.

Qed.

(** A string none of whose characters are stripped. *)
Lemma strip_by_free s : Forall (λ c, p c = false) s → strip_by p s = s.
Proof.
  intros H. apply strip_by_id.
  - destruct s; [done|]. by inversion H.
  - assert (Forall (λ c, p c = false) (List.rev s)) as H'.
    { apply Forall_forall. intros x Hx. rewrite Forall_forall in H. apply H.
      by apply list_elem_of_In, List.in_rev, list_elem_of_In. }
    destruct (List.rev s); [done|]. by inversion H'.
Qed.

Lemma strip_by_infix s : ∃ a b, s = a ++ strip_by p s ++ b.
Proof.
  destruct (lstrip_suffix s) as (a & Ha & _).
  destruct (rstrip_prefix (lstrip_by p s)) as (b & Hb & _).
  exists a, b. unfold strip_by. by rewrite <-Hb.
Qed.

Lemma strip_by_nil_space s : strip_by p s = [] → Forall (λ c, p c = true) s.
Proof.
  unfold strip_by. intros H.
  destruct (rstrip_prefix (lstrip_by p s)) as (b & Hb & Hpb).
  rewrite H in Hb. simpl in Hb.
  destruct (lstrip_suffix s) as (a & Ha & Hpa). rewrite Ha, Hb. by apply Forall_app.
Qed.
End strip.

Lemma py_strip_idem s : py_strip (py_strip s) = py_strip s.
Proof. apply strip_by_idem. Qed.
Create Rewrite HintDb py_str.
#[export] Hint Rewrite py_strip_idem : py_str.

Lemma elem_of_strip c s : c ∈ py_strip s → c ∈ s.
Proof.
  intros H. destruct (strip_by_infix is_space s) as (a & b & ->).
  rewrite !elem_of_app. by right; left.
Qed.

(** *** Words *)

Lemma words_by_clean p cur s w :
  w ∈ words_by p cur s → Forall (λ c, p c = false) cur →
  w ≠ [] ∧ Forall (λ c, p c = false) w.
Proof.
  assert (∀ l, Forall (λ c, p c = false) l → Forall (λ c, p c = false) (List.rev l)) as Hrev.
  { intros l Hl. apply Forall_forall. intros x Hx. rewrite Forall_forall in Hl. apply Hl.
    by apply list_elem_of_In, List.in_rev, list_elem_of_In. }
  assert (∀ c l, List.rev (c :: l) ≠ ([] : str)) as Hne.
  { intros c l H. apply (f_equal length) in H. simpl in H.
    rewrite length_app in H. simpl in H. lia. }
  revert cur. induction s as [|c s IH]; intros cur Hw Hc; simpl in Hw.
  - destruct cur as [|d cur]; [by apply not_elem_of_nil in Hw|].
    apply list_elem_of_singleton in Hw as ->. split; [apply Hne|by apply Hrev].
  - destruct (p c) eqn:E.
    + destruct cur as [|d cur]; [by eapply IH|].
      apply elem_of_cons in Hw as [->|Hw]; [split; [apply Hne|by apply Hrev]|].
      by eapply IH.
    + eapply IH; [done|by constructor].
Qed.

Lemma py_split_clean s w :
  w ∈ py_split s → w ≠ [] ∧ Forall (λ c, is_space c = false) w.
Proof. intros H. by eapply words_by_clean. Qed.

(** A word of the list is a word of the joined text. *)
Lemma py_join_word w ws :
  w ∈ ws → contains (lit " " ++ w ++ lit " ") (lit " " ++ py_join (lit " ") ws ++ lit " ") = true.
Proof.
  intros Hw. apply contains_true. change (lit " ") with [32].
  induction ws as [|x ws IH]; [by apply not_elem_of_nil in Hw|].
  destruct ws as [|y ws].
  { apply list_elem_of_singleton in Hw as ->. exists [], []. by rewrite app_nil_r. }
  change (py_join [32] (x :: y :: ws)) with (x ++ [32] ++ py_join [32] (y :: ws)).
  apply elem_of_cons in Hw as [->|Hw].
  - exists [], (py_join [32] (y :: ws) ++ [32]). simpl. by rewrite <-!app_assoc.
  - destruct (IH Hw) as (a & b & Hab). exists ([32] ++ x ++ a), b.
    trans ([32] ++ x ++ a ++ ([32] ++ w ++ [32]) ++ b); [|by rewrite <-!app_assoc].
    rewrite <-Hab. by rewrite <-!app_assoc.
Qed.

(** *** Lower case *)

(** Over the whole table: a mapped character is neither blank nor mapped again. *)
Definition lower_entry_ok (e : Z * Z * Z * Z) : bool :=
  let '(lo, hi, st, d) := e in
  forallb (λ c, negb ((c - lo) mod st =? 0) ||
                (negb (is_space (c + d)) && bool_decide (lower_char (c + d) = [c + d])))
    (seqZ lo (hi - lo + 1)).

Lemma lower_table_checked : forallb lower_entry_ok lower_ranges = true.
Proof. vm_compute. reflexivity. Qed.

Lemma lower_entry_spec lo hi st d c :
  (lo, hi, st, d) ∈ lower_ranges → (lo <=? c) && (c <=? hi) && ((c - lo) mod st =? 0) = true →
  is_space (c + d) = false ∧ lower_char (c + d) = [c + d].
Proof.
  intros Hin Hc. rewrite !andb_true_iff in Hc. destruct Hc as [[Hlo%Z.leb_le Hhi%Z.leb_le] Hst].
  pose proof (proj1 (forallb_elem_of _ _) lower_table_checked _ Hin) as Ht.
  unfold lower_entry_ok in Ht. rewrite forallb_elem_of in Ht. specialize (Ht c).
  rewrite Hst in Ht. destruct (andb_prop _ _ (Ht ltac:(apply elem_of_seqZ; lia))) as [H1 H2].
  apply negb_true_iff in H1. by apply bool_decide_eq_true in H2.
Qed.

Lemma lower_char_spec c :
  lower_char c ≠ [] ∧
  ∀ d, d ∈ lower_char c → lower_char d = [d] ∧ (is_space c = false → is_space d = false).
Proof.
  unfold lower_char at 1 2. destruct (c =? 304) eqn:E.
  { split; [done|]. intros d [->|[->|[]%not_elem_of_nil]%elem_of_cons]%elem_of_cons;
      vm_compute; done. }
  destruct (List.find _ lower_ranges) as [[[[lo hi] st] dl]|] eqn:Hf.
  - split; [done|]. intros d ->%list_elem_of_singleton.
    apply find_elem_of in Hf as [Hin Hc].
    by destruct (lower_entry_spec lo hi st dl c Hin Hc).
  - split; [done|]. intros d ->%list_elem_of_singleton. split; [|done].
    unfold lower_char. by rewrite E, Hf.
Qed.

Lemma py_lower_app s t : py_lower (s ++ t) = py_lower s ++ py_lower t.
Proof. apply bind_app. Qed.

Lemma py_lower_idem s : py_lower (py_lower s) = py_lower s.
Proof.
  assert (∀ l, Forall (λ d, lower_char d = [d]) l → py_lower l = l) as Hfix.
  { induction 1 as [|d l Hd _ IH]; [done|]. unfold py_lower in *. cbn [mbind list_bind].
    by rewrite Hd, IH. }
  apply Hfix, Forall_forall. intros d (c & Hd & Hc)%list_elem_of_bind.
  by apply lower_char_spec in Hd as [].
Qed.

Lemma py_lower_no_head s : no_head is_space s → no_head is_space (py_lower s).
Proof.
  destruct s as [|c s]; [done|]. intros Hc. unfold py_lower. cbn [mbind list_bind].
  destruct (lower_char_spec c) as [Hne Hl]. destruct (lower_char c) as [|d l]; [done|].
  simpl. apply Hl; [by left|done].
Qed.

Lemma py_lower_no_tail s : no_head is_space (List.rev s) → no_head is_space (List.rev (py_lower s)).
Proof.
  destruct s as [|c s _] using rev_ind; [done|].
  rewrite List.rev_app_distr, py_lower_app, List.rev_app_distr. simpl. intros Hc.
  unfold py_lower at 1. cbn [mbind list_bind]. rewrite app_nil_r.
  destruct (lower_char_spec c) as [Hne Hl].
  destruct (lower_char c) as [|d l _] using rev_ind; [done|].
  rewrite List.rev_app_distr. simpl. apply Hl; [apply elem_of_app; right; by left|done].
Qed.

Lemma py_strip_no_head s : no_head is_space (py_strip s) ∧ no_head is_space (List.rev (py_strip s)).
Proof.
  unfold py_strip, strip_by. split.
  - apply rstrip_no_head, lstrip_no_head.
  - unfold rstrip_by. rewrite List.rev_involutive. apply lstrip_no_head.
Qed.

(** [s.strip().lower()] is stable. *)
Lemma strip_lower_idem s :
  py_lower (py_strip (py_lower (py_strip s))) = py_lower (py_strip s).
Proof.
  destruct (py_strip_no_head s) as [H1 H2].
  unfold py_strip at 1. rewrite strip_by_id.
  - apply py_lower_idem.
  - by apply py_lower_no_head.
  - by apply py_lower_no_tail.
Qed.

(** *** Positions *)

Lemma rfind_from_spec sub s i best :
  rfind_from sub s i best = best ∨
  ∃ k, (k ≤ length s)%nat ∧ rfind_from sub s i best = i + Z.of_nat k ∧
       sub `prefix_of` drop k s.
Proof.
  revert i best. induction s as [|c s IH]; intros i best; simpl.
  - destruct (starts_with sub []) eqn:E; [right|by left].
    exists 0%nat. split; [lia|]. split; [lia|]. by apply starts_with_true.
  - destruct (IH (i + 1) (if starts_with sub (c :: s) then i else best))
      as [->|(k & Hk & -> & Hp)].
    + destruct (starts_with sub (c :: s)) eqn:E; [right|by left].
      exists 0%nat. split; [lia|]. split; [lia|]. by apply starts_with_true.
    + right. exists (S k). split; [lia|]. split; [lia|]. done.
Qed.

(** [s.rfind(sub)] is [-1] or the position of an occurrence inside [s]. *)
Lemma py_rfind_spec sub s :
  py_rfind sub s = -1 ∨
  (0 ≤ py_rfind sub s ∧ py_rfind sub s + Z.of_nat (length sub) ≤ Z.of_nat (length s)).
Proof.
  destruct (rfind_from_spec sub s 0 (-1)) as [H|(k & Hk & H & [r Hr])]; [by left|right].
  unfold py_rfind. rewrite H. apply (f_equal length) in Hr.
  rewrite length_app, length_drop in Hr. lia.
Qed.

Lemma py_rfind_occurs sub s :
  py_rfind sub s = -1 ∨ ∃ k, py_rfind sub s = Z.of_nat k ∧ sub `prefix_of` drop k s.
Proof.
  destruct (rfind_from_spec sub s 0 (-1)) as [H|(k & Hk & H & Hp)]; [by left|right].
  exists k. split; [|done]. unfold py_rfind. lia.
Qed.

Lemma rfind_from_char c s i best :
  0 ≤ i → rfind_from [c] s i best = -1 → best = -1 ∧ c ∉ s.
Proof.
  revert i best. induction s as [|d s IH]; intros i best Hi; simpl.
  - intros ->. split; [done|apply not_elem_of_nil].
  - intros H. apply IH in H as [Hb Hs]; [|lia].
    destruct (c =? d) eqn:E; simpl in Hb; [lia|]. apply Z.eqb_neq in E.
    split; [done|]. by apply not_elem_of_cons.
Qed.

Lemma py_rfind_char_absent c s : py_rfind [c] s = -1 → c ∉ s.
Proof. intros H. by apply (rfind_from_char c s 0 (-1)) in H as [_ H]. Qed.

(** [str.isdigit] on the ASCII digits and on the other ASCII characters. *)
Lemma is_digit_ascii c : c < 128 → is_digit c = (48 <=? c) && (c <=? 57).
Proof.
  intros Hc. unfold is_digit, digit_ranges. cbn [existsb fst snd].
  repeat match goal with
  | |- context [(?a <=? c) && (c <=? ?b)] =>
      lazymatch a with
      | 48 => fail
      | _ => replace (a <=? c) with false by (symmetry; apply Z.leb_gt; lia)
      end
  end.
  by rewrite !andb_false_l, !orb_false_r.
Qed.

Lemma is_space_elem c : is_space c = true ↔ c ∈ whitespace.
Proof.
  unfold is_space. rewrite existsb_elem_of. setoid_rewrite Z.eqb_eq. naive_solver.
Qed.

(** No white space character is a digit: by inspection of the tables. *)
Lemma is_digit_not_space c : is_digit c = true → is_space c = false.
Proof.
  intros Hd. apply not_true_iff_false. rewrite is_space_elem. intros Hs.
  assert (forallb (λ c, negb (is_digit c)) whitespace = true) as Hall by (vm_compute; done).
  rewrite forallb_elem_of in Hall. specialize (Hall c Hs). by rewrite Hd in Hall.
Qed.

Lemma is_decimal_not_space c : is_decimal c = true → is_space c = false.
Proof.
  intros Hd. apply not_true_iff_false. rewrite is_space_elem. intros Hs.
  assert (forallb (λ c, negb (is_decimal c)) whitespace = true) as Hall by (vm_compute; done).
  rewrite forallb_elem_of in Hall. specialize (Hall c Hs). by rewrite Hd in Hall.
Qed.

Lemma is_decimal_ascii c : c < 128 → is_decimal c = (48 <=? c) && (c <=? 57).
Proof.
  intros Hc. unfold is_decimal, decimal_ranges. cbn [existsb fst snd].
  repeat match goal with
  | |- context [(?a <=? c) && (c <=? ?b)] =>
      lazymatch a with
      | 48 => fail
      | _ => replace (a <=? c) with false by (symmetry; apply Z.leb_gt; lia)
      end
  end.
  by rewrite !andb_false_l, !orb_false_r.
Qed.

(** ** Splitting at a character *)

Lemma split_char_from_last c cur s : split_char_from c cur s ≠ [].
Proof. revert cur. induction s as [|x s IH]; intros cur; simpl; [done|]. case_match; [done|apply IH]. Qed.

Lemma split_char_word c w cur y :
  Forall (λ x, x ≠ c) w → split_char_from c cur (w ++ y) = split_char_from c (List.rev w ++ cur) y.
Proof.
  intros Hw. revert cur. induction Hw as [|x w Hx _ IH]; intros cur; [done|]. simpl.
  rewrite (proj2 (Z.eqb_neq _ _) Hx), IH. by rewrite <-app_assoc.
Qed.

Lemma split_char_app c x y cur :
  Forall (λ x, x ≠ c) cur →
  let l := split_char_from c cur x in
  split_char_from c cur (x ++ y) = removelast l ++ split_char_from c [] (List.last l [] ++ y).
Proof.
  revert cur. induction x as [|d x IH]; intros cur Hc; simpl.
  - rewrite split_char_word by by apply Forall_rev. by rewrite List.rev_involutive, app_nil_r.
  - destruct (d =? c) eqn:E.
    + rewrite (IH []) by constructor. pose proof (split_char_from_last c [] x) as Hn.
      by destruct (split_char_from c [] x).
    + apply IH. constructor; [by apply Z.eqb_neq|done].
Qed.

#[export] Hint Resolve py_split_clean str_eqb_refl : core.

(** ** The process environment *)

Abbreviation environ := (str → option str) (only parsing).

(** [os.getenv(k, d)] *)
Definition getenv (env : environ) (k d : str) : str := default d (env k).
