(* ===== verification/Json.v ===== *)
(** * Python values that came from JSON

    [json.loads] results, dictionaries the program builds, and the operations on
    them: truthiness, [str()], [dict] lookup and update in insertion order, and
    [json.dumps(.., ensure_ascii=False)].  A float is represented by its [repr]. *)
From stdpp Require Import base list strings.
From Stdlib Require Import ZArith Lia.
From S2P Require Import Prelude Pystr.

#[local] Set Warnings "-register-all".

Inductive json : Type :=
| JNull
| JBool (b : bool)
| JInt (n : Z)
| JFloat (repr : str)
| JStr (s : str)
| JArr (l : list json)
| JObj (kvs : list (str * json)).

Abbreviation dict := (list (str * json)) (only parsing).

(** The induction principle that reaches the elements of arrays and objects. *)
Section json_ind.
Context (P : json → Prop)
  (Hnull : P JNull) (Hbool : ∀ b, P (JBool b)) (Hint : ∀ n, P (JInt n))
  (Hfloat : ∀ r, P (JFloat r)) (Hstr : ∀ s, P (JStr s))
  (Harr : ∀ l, Forall P l → P (JArr l))
  (Hobj : ∀ kvs, Forall (λ kv, P kv.2) kvs → P (JObj kvs)).

Fixpoint json_nested_ind (j : json) : P j :=
  match j with
  | JNull => Hnull
  | JBool b => Hbool b
  | JInt n => Hint n
  | JFloat r => Hfloat r
  | JStr s => Hstr s
  | JArr l =>
      Harr l ((fix go l : Forall P l :=
        match l with
        | [] => Forall_nil_2 _
        | x :: l => Forall_cons_2 _ _ _ (json_nested_ind x) (go l)
        end) l)
  | JObj kvs =>
      Hobj kvs ((fix go kvs : Forall (λ kv, P kv.2) kvs :=
        match kvs with
        | [] => Forall_nil_2 _
        | kv :: kvs => Forall_cons_2 (λ kv, P kv.2) kv kvs (json_nested_ind kv.2) (go kvs)
        end) kvs)
  end.
End json_ind.

#[export] Instance json_eq_dec : EqDecision json.
Proof.
  unfold EqDecision. fix go 1. intros x y.
  destruct x, y; try (right; discriminate).
  - left; reflexivity.
  - destruct (decide (b = b0)); [left|right]; congruence.
  - destruct (decide (n = n0)); [left|right]; congruence.
  - destruct (decide (repr = repr0)); [left|right]; congruence.
  - destruct (decide (s = s0)); [left|right]; congruence.
  - destruct (list_eq_dec (dec:=go) l l0); [left|right]; congruence.
  - assert (EqDecision (str * json)) as Hp.
    { intros [k v] [k' v']. destruct (decide (k = k')); [|right; congruence].
      destruct (go v v'); [left|right]; congruence. }
    destruct (list_eq_dec (dec:=Hp) kvs kvs0); [left|right]; congruence.
Defined.

(** ** Truth and [str] *)

(** [bool(v)] *)
Definition truthy (v : json) : bool :=
  match v with
  | JNull => false
  | JBool b => b
  | JInt n => negb (n =? 0)
  | JFloat r => negb ((r =s lit "0.0") || (r =s lit "-0.0"))
  | JStr s => match s with [] => false | _ => true end
  | JArr l => match l with [] => false | _ => true end
  | JObj kvs => match kvs with [] => false | _ => true end
  end.

(** [repr] of a string: single quotes unless it has one and no double quote;
    control characters are escaped, other characters are kept. *)
Definition hex_digit (n : Z) : Z := if n <? 10 then 48 + n else 87 + n.
Definition repr_char (q c : Z) : str :=
  if (c =? q) || (c =? 92) then [92; c]
  else if c =? 10 then lit "\n" else if c =? 13 then lit "\r"
  else if c =? 9 then lit "\t"
  else if (c <? 32) || (c =? 127) then lit "\x" ++ [hex_digit (c / 16); hex_digit (c mod 16)]
  else [c].
Definition repr_str (s : str) : str :=
  let q := if has_char 39 s && negb (has_char 34 s) then 34 else 39 in
  [q] ++ (s ≫= repr_char q) ++ [q].

Fixpoint py_repr (v : json) : str :=
  match v with
  | JNull => lit "None"
  | JBool b => if b then lit "True" else lit "False"
  | JInt n => str_of_Z n
  | JFloat r => r
  | JStr s => repr_str s
  | JArr l => lit "[" ++ py_join (lit ", ") (map py_repr l) ++ lit "]"
  | JObj kvs =>
      lit "{" ++ py_join (lit ", ") (map (λ kv, repr_str kv.1 ++ lit ": " ++ py_repr kv.2) kvs)
      ++ lit "}"
  end.

(** [str(v)] *)
Definition py_str (v : json) : str :=
  match v with JStr s => s | _ => py_repr v end.

(** ** Dictionaries *)

Section alist.
Context {V : Type}.
Implicit Types (d : list (str * V)) (k : str) (v : V).

Fixpoint dget k d : option V :=
  match d with
  | [] => None
  | (k', v) :: d => if k =s k' then Some v else dget k d
  end.

(** [d[k] = v]: in place for a present key, at the end for a new one. *)
Fixpoint dset k v d : list (str * V) :=
  match d with
  | [] => [(k, v)]
  | (k', v') :: d => if k =s k' then (k', v) :: d else (k', v') :: dset k v d
  end.

(** [d.pop(k, None)] *)
Definition dpop k d : list (str * V) := List.filter (λ kv, negb (k =s kv.1)) d.

(** [{**d, **e}] and [d.update(e)] *)
Definition dupdate d (e : list (str * V)) : list (str * V) :=
  foldl (λ d kv, dset kv.1 kv.2 d) d e.

Definition dkeys d : list str := map fst d.

Definition dhas k d : bool := in_strs k (dkeys d).
End alist.

(** [v.get(k)]: [None] for a missing key, [AttributeError] on a non-dictionary. *)
Definition jget (k : str) (v : json) : exn json :=
  match v with
  | JObj d => Ok (default JNull (dget k d))
  | _ => Raise AttributeError
  end.

(** [d.get(k)] on a dictionary. *)
Definition dget_or_none (k : str) (d : dict) : json := default JNull (dget k d).
Notation "d .[ k ]" := (dget_or_none k d) (at level 1, left associativity, format "d .[ k ]") : py_scope.

(** [a or b] *)
Definition jor (a b : json) : json := if truthy a then a else b.

(** [str(v or '')] *)
Definition str_or_empty (v : json) : str := if truthy v then py_str v else [].

(** [str(v or '').strip()] *)
Definition str_strip (v : json) : str := py_strip (str_or_empty v).

Definition is_dict (v : json) : bool := match v with JObj _ => true | _ => false end.
Definition is_str (v : json) : bool := match v with JStr _ => true | _ => false end.
Definition is_list (v : json) : bool := match v with JArr _ => true | _ => false end.

(** [v if isinstance(v, dict) else {}] *)
Definition dict_or_empty (v : json) : dict := match v with JObj d => d | _ => [] end.

(** [v is True], [v is False] *)
Definition is_true (v : json) : bool := match v with JBool true => true | _ => false end.
Definition is_false (v : json) : bool := match v with JBool false => true | _ => false end.

(** [v == s] for a string [s]. *)
Definition jeq_str (v : json) (s : str) : bool :=
  match v with JStr t => t =s s | _ => false end.

(** [d[k]] *)
Definition jindex (k : str) (d : dict) : exn json :=
  match dget k d with Some v => Ok v | None => Raise (KeyError k) end.

(** [a == b] on decoded values: [True] is [1] and [False] is [0]; floats are compared
    by their text, and a float is taken to differ from every integer. *)
Fixpoint py_eq (a b : json) : bool :=
  match a, b with
  | JNull, JNull => true
  | JBool x, JBool y => Bool.eqb x y
  | JInt x, JInt y => x =? y
  | JBool x, JInt y | JInt y, JBool x => y =? (if x then 1 else 0)
  | JFloat x, JFloat y => x =s y
  | JStr x, JStr y => x =s y
  | JArr l, JArr k =>
      (fix go l k := match l, k with
                     | [], [] => true
                     | x :: l, y :: k => py_eq x y && go l k
                     | _, _ => false
                     end) l k
  | JObj d, JObj e =>
      (length d =? length e)%nat &&
      (fix go d := match d with
                   | [] => true
                   | (k, x) :: d =>
                       match dget k e with Some y => py_eq x y | None => false end && go d
                   end) d
  | _, _ => false
  end.

(** [x in c] for a decoded container. *)
Definition py_in (x c : json) : exn bool :=
  match c, x with
  | JArr l, _ => Ok (existsb (py_eq x) l)
  | JStr t, JStr s => Ok (contains s t)
  | JObj d, JStr s => Ok (dhas s d)
  | JObj d, (JArr _ | JObj _) => Raise TypeError
  | JObj d, _ => Ok false
  | _, _ => Raise TypeError
  end.

(** Every dictionary inside has distinct keys, as a Python value does. *)
Fixpoint wf_json (v : json) : Prop :=
  match v with
  | JArr l => (fix go l := match l with [] => True | x :: l => wf_json x ∧ go l end) l
  | JObj kvs =>
      NoDup (map fst kvs) ∧
      (fix go kvs := match kvs with [] => True | kv :: kvs => wf_json kv.2 ∧ go kvs end) kvs
  | _ => True
  end.

(** ** [int(v)] *)

(** The value of a decimal digit of any script: the ranges are blocks of ten. *)
Definition decimal_value (c : Z) : option Z :=
  match List.find (λ r, (r.1 <=? c) && (c <=? r.2)) decimal_ranges with
  | Some (lo, _) => Some ((c - lo) mod 10)
  | None => None
  end.

(** Digits with single underscores between them; [prev] tells a digit precedes. *)
Fixpoint int_digits (prev : bool) (acc : Z) (s : str) : option Z :=
  match s with
  | [] => if prev then Some acc else None
  | c :: s =>
      if (c =? 95) && prev then
        match s with [] => None | _ => int_digits false acc s end
      else match decimal_value c with
           | Some d => int_digits true (acc * 10 + d) s
           | None => None
           end
  end.

Definition int_of_str (s : str) : option Z :=
  match py_strip s with
  | 45 :: r => option_map Z.opp (int_digits false 0 r)
  | 43 :: r => int_digits false 0 r
  | r => int_digits false 0 r
  end.

(** Truncation of the decimal text of a float: mantissa digits, the number of them
    after the point, and the exponent. *)
Fixpoint float_parts (s : str) (mant frac : Z) (point : bool) : option (Z * Z * str) :=
  match s with
  | [] => Some (mant, frac, [])
  | c :: s' =>
      if (48 <=? c) && (c <=? 57)
      then float_parts s' (mant * 10 + (c - 48)) (if point then frac + 1 else frac) point
      else if (c =? 46) && negb point then float_parts s' mant frac true
      else if (c =? 101) || (c =? 69) then Some (mant, frac, s')
      else None
  end.

Definition trunc_float (r : str) : option Z :=
  let '(neg, body) := match r with 45 :: b => (true, b) | _ => (false, r) end in
  match float_parts body 0 0 false with
  | None => None
  | Some (m, f, ex) =>
      match (if bool_decide (ex = []) then Some 0 else int_of_str ex) with
      | None => None
      | Some e =>
          let v := if f <=? e then m * 10 ^ (e - f) else m / 10 ^ (f - e) in
          Some (if neg then - v else v)
      end
  end.

(** [int(v)]; an infinite float is an [OverflowError]. *)
Definition py_int (v : json) : exn Z :=
  match v with
  | JInt n => Ok n
  | JBool b => Ok (if b then 1 else 0)
  | JFloat r => if in_strs r [lit "inf"; lit "-inf"] then Raise OtherError else
                match trunc_float r with
                | Some n => Ok n
                | None => Raise (ValueError (lit "cannot convert float to integer"))
                end
  | JStr s => match int_of_str s with
              | Some n => Ok n
              | None => Raise (ValueError (lit "invalid literal for int()"))
              end
  | _ => Raise TypeError
  end.

(** [type(v).__name__] *)
Definition type_name (v : json) : str :=
  match v with
  | JNull => lit "NoneType" | JBool _ => lit "bool" | JInt _ => lit "int"
  | JFloat _ => lit "float" | JStr _ => lit "str" | JArr _ => lit "list" | JObj _ => lit "dict"
  end.

(** [isinstance(v, (str, int, float, bool))] *)
Definition is_scalar (v : json) : bool :=
  match v with JBool _ | JInt _ | JFloat _ | JStr _ => true | _ => false end.

(** [v in {"..", ..}] for a set of strings: a list or dictionary is unhashable. *)
Definition in_str_set (v : json) (l : list str) : exn bool :=
  match v with
  | JStr s => Ok (in_strs s l)
  | JArr _ | JObj _ => Raise TypeError
  | _ => Ok false
  end.

(** The values a [for] loop over [v] visits. *)
Definition py_iter (v : json) : exn (list json) :=
  match v with
  | JArr l => Ok l
  | JObj d => Ok (map JStr (dkeys d))
  | JStr s => Ok (map (λ c, JStr [c]) s)
  | _ => Raise TypeError
  end.

(** [[x for x in l if x not in {"..", ..}]] *)
Fixpoint filter_not_in (keys : list str) (l : list json) : exn (list json) :=
  match l with
  | [] => Ok []
  | x :: l =>
      do! hit := in_str_set x keys in
      do! rest := filter_not_in keys l in
      Ok (if hit then rest else x :: rest)
  end.

(** ** [json.dumps(v, ensure_ascii=False)] *)

Definition json_char (c : Z) : str :=
  if c =? 34 then [92; 34] else if c =? 92 then lit "\\"
  else if c =? 10 then lit "\n" else if c =? 13 then lit "\r"
  else if c =? 9 then lit "\t" else if c =? 12 then lit "\f"
  else if c =? 8 then lit "\b"
  else if c <? 32 then lit "\u00" ++ [hex_digit (c / 16); hex_digit (c mod 16)]
  else [c].

Definition json_quote (s : str) : str := [34] ++ (s ≫= json_char) ++ [34].

Fixpoint dumps (v : json) : str :=
  match v with
  | JNull => lit "null"
  | JBool b => if b then lit "true" else lit "false"
  | JInt n => str_of_Z n
  | JFloat r => r
  | JStr s => json_quote s
  | JArr l => lit "[" ++ py_join (lit ", ") (map dumps l) ++ lit "]"
  | JObj kvs =>
      lit "{" ++ py_join (lit ", ") (map (λ kv, json_quote kv.1 ++ lit ": " ++ dumps kv.2) kvs)
      ++ lit "}"
  end.

(** [json.dumps(v, separators=(",", ":"))]: ASCII output, surrogate pairs for the
    characters beyond the basic plane. *)
Definition hex4_str (n : Z) : str :=
  [hex_digit (n / 4096); hex_digit (n / 256 mod 16); hex_digit (n / 16 mod 16); hex_digit (n mod 16)].
Definition ascii_char (c : Z) : str :=
  if c <? 127 then json_char c
  else if c <? 65536 then lit "\u" ++ hex4_str c
  else lit "\u" ++ hex4_str (55296 + (c - 65536) / 1024)
       ++ lit "\u" ++ hex4_str (56320 + (c - 65536) mod 1024).
Definition ascii_quote (s : str) : str := [34] ++ (s ≫= ascii_char) ++ [34].
Fixpoint dumps_compact (v : json) : str :=
  match v with
  | JStr s => ascii_quote s
  | JArr l => lit "[" ++ py_join (lit ",") (map dumps_compact l) ++ lit "]"
  | JObj kvs =>
      lit "{" ++ py_join (lit ",") (map (λ kv, ascii_quote kv.1 ++ lit ":" ++ dumps_compact kv.2) kvs)
      ++ lit "}"
  | v => dumps v
  end.

(** [json.dumps(v)]: ASCII output. *)
Fixpoint dumps_ascii (v : json) : str :=
  match v with
  | JStr s => ascii_quote s
  | JArr l => lit "[" ++ py_join (lit ", ") (map dumps_ascii l) ++ lit "]"
  | JObj kvs =>
      lit "{" ++ py_join (lit ", ") (map (λ kv, ascii_quote kv.1 ++ lit ": " ++ dumps_ascii kv.2) kvs) ++ lit "}"
  | v => dumps v
  end.

#[global] Arguments dumps_compact : simpl never.
#[global] Arguments dget_or_none : simpl never.
#[global] Arguments str_strip : simpl never.
#[global] Arguments str_or_empty : simpl never.
#[global] Arguments py_str : simpl never.
#[global] Arguments py_repr : simpl never.
#[global] Arguments dumps : simpl never.

(** ** Lemmas on dictionaries *)

Section dict_lemmas.
Context {V : Type}.
Implicit Types (d : list (str * V)) (k : str) (v : V).

Lemma dget_dset_eq k v d : dget k (dset k v d) = Some v.
Proof.
  induction d as [|[k' v'] d IH]; simpl; [by rewrite str_eqb_refl|].
  destruct (k =s k') eqn:E; simpl; by rewrite E.
Qed.

Lemma dget_dset_ne k k' v d : k ≠ k' → dget k (dset k' v d) = dget k d.
Proof.
  intros Hne. induction d as [|[k1 v1] d IH]; simpl.
  - by apply str_eqb_false in Hne as ->.
  - destruct (k' =s k1) eqn:E1; simpl; [|by rewrite IH].
    apply str_eqb_true in E1 as <-. by apply str_eqb_false in Hne as ->.
Qed.

Lemma dget_dpop_eq k d : dget k (dpop k d) = None.
Proof.
  induction d as [|[k' v'] d IH]; simpl; [done|].
  destruct (k =s k') eqn:E; simpl; [done|by rewrite E].
Qed.

Lemma dget_dpop_ne k k' d : k ≠ k' → dget k (dpop k' d) = dget k d.
Proof.
  intros Hne. induction d as [|[k1 v1] d IH]; simpl; [done|].
  destruct (k' =s k1) eqn:E1; simpl; [|by rewrite IH].
  apply str_eqb_true in E1 as <-. by apply str_eqb_false in Hne as ->.
Qed.

Lemma dget_Some_elem k v d : dget k d = Some v → (k, v) ∈ d.
Proof.
  induction d as [|[k' v'] d IH]; simpl; [done|].
  destruct (k =s k') eqn:E.
  - apply str_eqb_true in E as <-. intros [= ->]. by left.
  - intros. right. auto.
Qed.

Lemma dget_is_Some k d : is_Some (dget k d) ↔ k ∈ dkeys d.
Proof.
  induction d as [|[k' v'] d IH]; simpl.
  - split; [by intros [? ?]|]. by intros ?%not_elem_of_nil.
  - rewrite elem_of_cons. destruct (k =s k') eqn:E.
    + apply str_eqb_true in E as <-. by split; [left|eexists].
    + rewrite IH. apply str_eqb_false in E. naive_solver.
Qed.

Lemma dget_None k d : dget k d = None ↔ k ∉ dkeys d.
Proof. rewrite <-dget_is_Some. apply eq_None_not_Some. Qed.

Lemma dhas_true k d : dhas k d = true ↔ k ∈ dkeys d.
Proof. apply in_strs_true. Qed.

Lemma dkeys_dset k v d : k ∈ dkeys d → dkeys (dset k v d) = dkeys d.
Proof.
  induction d as [|[k' v'] d IH]; simpl; [by intros ?%not_elem_of_nil|].
  destruct (k =s k') eqn:E; simpl; [done|]. apply str_eqb_false in E.
  intros [->|H]%elem_of_cons; [done|]. by rewrite IH.
Qed.

Lemma dkeys_dset_new k v d : k ∉ dkeys d → dkeys (dset k v d) = dkeys d ++ [k].
Proof.
  induction d as [|[k' v'] d IH]; simpl; [done|]. intros H.
  rewrite not_elem_of_cons in H. destruct H as [H1 H2].
  apply str_eqb_false in H1. rewrite H1. simpl. by rewrite IH.
Qed.

Lemma elem_of_dkeys_dset k k' v d : k ∈ dkeys (dset k' v d) ↔ k = k' ∨ k ∈ dkeys d.
Proof.
  rewrite <-!dget_is_Some. destruct (decide (k = k')) as [->|Hne].
  - rewrite dget_dset_eq. naive_solver.
  - rewrite dget_dset_ne by done. naive_solver.
Qed.

Lemma elem_of_dkeys_dpop k k' d : k ∈ dkeys (dpop k' d) ↔ k ≠ k' ∧ k ∈ dkeys d.
Proof.
  rewrite <-!dget_is_Some. destruct (decide (k = k')) as [->|Hne].
  - rewrite dget_dpop_eq. split; [by intros [? ?]|naive_solver].
  - rewrite dget_dpop_ne by done. naive_solver.
Qed.

Lemma dset_NoDup k v d : NoDup (dkeys d) → NoDup (dkeys (dset k v d)).
Proof.
  intros H. destruct (decide (k ∈ dkeys d)).
  - by rewrite dkeys_dset.
  - rewrite dkeys_dset_new by done. apply NoDup_app. split; [done|].
    split; [|apply NoDup_singleton]. by intros x Hx ->%list_elem_of_singleton.
Qed.

Lemma elem_of_dset k v d k' v' :
  (k', v') ∈ dset k v d → (k' = k ∧ v' = v) ∨ (k', v') ∈ d.
Proof.
  induction d as [|[k1 v1] d IH]; simpl.
  - intros H%list_elem_of_singleton. naive_solver.
  - destruct (k =s k1) eqn:E; rewrite !elem_of_cons.
    + apply str_eqb_true in E as <-. naive_solver.
    + naive_solver.
Qed.

Lemma dset_id k v d : dget k d = Some v → dset k v d = d.
Proof.
  induction d as [|[k' v'] d IH]; simpl; [done|].
  destruct (k =s k') eqn:E; [by intros [= ->]|]. intros H. by rewrite IH.
Qed.
End dict_lemmas.

Lemma dpop_notin {V} k (d : list (str * V)) : k ∉ dkeys d → dpop k d = d.
Proof.
  induction d as [|[k' v'] d IH]; simpl; [done|]. rewrite not_elem_of_cons.
  intros [H1 H2]. apply str_eqb_false in H1. rewrite H1. simpl. by rewrite IH.
Qed.

Lemma dget_or_none_dset_eq k v d : (dset k v d).[k] = v.
Proof. unfold dget_or_none. by rewrite dget_dset_eq. Qed.
Lemma dget_or_none_dset_ne k k' v d : k ≠ k' → (dset k' v d).[k] = d.[k].
Proof. intros. unfold dget_or_none. by rewrite dget_dset_ne. Qed.

Create Rewrite HintDb py_dict.
#[export] Hint Rewrite @dget_dset_eq @dget_dpop_eq dget_or_none_dset_eq : py_dict.
#[export] Hint Rewrite @dget_dset_ne @dget_dpop_ne dget_or_none_dset_ne using done : py_dict.
Ltac simplify_dict := autorewrite with py_dict; simpl.

Lemma truthy_jor a b : truthy (jor a b) = truthy a || truthy b.
Proof. unfold jor. by destruct (truthy a) eqn:E; rewrite ?E. Qed.

(** ** The length of [dumps] *)

(** [len(json.dumps(v, ensure_ascii=False).encode("utf-8"))] *)
Definition dumps_bytes (v : json) : Z := utf8_len (dumps v).

Lemma utf8_len_app s t : utf8_len (s ++ t) = utf8_len s + utf8_len t.
Proof. induction s as [|c s IH]; simpl; [done|]. rewrite IH. lia. Qed.

Lemma utf8_width_pos c : 0 < utf8_width c.
Proof. unfold utf8_width. repeat case_goal; lia. Qed.

Lemma utf8_len_nonneg s : 0 ≤ utf8_len s.
Proof. induction s as [|c s IH]; simpl; [done|]. pose proof (utf8_width_pos c). lia. Qed.

(** The bytes between the brackets of an array: items and [", "] separators. *)
Fixpoint items_bytes (l : list json) : Z :=
  match l with
  | [] => 0
  | [x] => dumps_bytes x
  | x :: l => dumps_bytes x + 2 + items_bytes l
  end.

Lemma items_bytes_cons x l :
  l ≠ [] → items_bytes (x :: l) = dumps_bytes x + 2 + items_bytes l.
Proof. by destruct l. Qed.

Lemma items_bytes_app l k :
  l ≠ [] → k ≠ [] → items_bytes (l ++ k) = items_bytes l + 2 + items_bytes k.
Proof.
  intros Hl Hk. induction l as [|x l IH]; [done|]. destruct l as [|y l].
  - simpl ([x] ++ k). by rewrite items_bytes_cons.
  - simpl ((x :: y :: l) ++ k). rewrite (items_bytes_cons x (y :: l ++ k)), (items_bytes_cons x (y :: l)) by done.
    change (y :: l ++ k) with ((y :: l) ++ k). rewrite IH by done. lia.
Qed.

Lemma dumps_bytes_arr l : dumps_bytes (JArr l) = 2 + items_bytes l.
Proof.
  unfold dumps_bytes.
  change (dumps (JArr l)) with (lit "[" ++ py_join (lit ", ") (map dumps l) ++ lit "]").
  rewrite !utf8_len_app.
  assert (utf8_len (py_join (lit ", ") (map dumps l)) = items_bytes l) as ->.
  { induction l as [|x l IH]; [done|]. destruct l as [|y l]; [done|].
    rewrite items_bytes_cons by done. rewrite <-IH.
    change (py_join ?s (map dumps (x :: y :: l)))
      with (dumps x ++ s ++ py_join s (map dumps (y :: l))).
    rewrite !utf8_len_app. change (utf8_len (lit ", ")) with 2. unfold dumps_bytes. lia. }
  change (utf8_len (lit "[")) with 1. change (utf8_len (lit "]")) with 1. lia.
Qed.

(** Concatenating non-empty arrays adds their sizes exactly: the two brackets of
    one pay for the separator. *)
Lemma dumps_bytes_arr_app l k :
  l ≠ [] → k ≠ [] →
  dumps_bytes (JArr (l ++ k)) = dumps_bytes (JArr l) + dumps_bytes (JArr k).
Proof. intros. rewrite !dumps_bytes_arr, items_bytes_app by done. lia. Qed.
