(* ===== verification/JsonText.v ===== *)
(** * [json.loads]

    The decoder of Python's [json] module on [str] input: strict strings, the
    [NaN]/[Infinity] extensions, surrogate pairs, the last of duplicate keys.  A
    number with a fraction or an exponent becomes a [JFloat] holding its text.
    Each nested call consumes a character or
    follows one that did, so a fuel of twice the length of the text is enough. *)
From stdpp Require Import base list strings.
From Stdlib Require Import ZArith Lia.
From S2P Require Import Prelude Pystr Json.

Definition json_ws (c : Z) : bool := (c =? 32) || (c =? 9) || (c =? 10) || (c =? 13).

Fixpoint skip_ws (s : str) : str :=
  match s with
  | c :: s' => if json_ws c then skip_ws s' else s
  | [] => []
  end.

Definition ascii_digit (c : Z) : bool := (48 <=? c) && (c <=? 57).

Definition hex_val (c : Z) : option Z :=
  if ascii_digit c then Some (c - 48)
  else if (97 <=? c) && (c <=? 102) then Some (c - 87)
  else if (65 <=? c) && (c <=? 70) then Some (c - 55)
  else None.

Definition hex4 (a b c d : Z) : option Z :=
  match hex_val a, hex_val b, hex_val c, hex_val d with
  | Some a, Some b, Some c, Some d => Some (((a * 16 + b) * 16 + c) * 16 + d)
  | _, _, _, _ => None
  end.

Definition is_high (u : Z) : bool := (55296 <=? u) && (u <=? 56319).
Definition is_low (u : Z) : bool := (56320 <=? u) && (u <=? 57343).

Definition simple_escape (c : Z) : option Z :=
  if c =? 34 then Some 34 else if c =? 92 then Some 92 else if c =? 47 then Some 47
  else if c =? 98 then Some 8 else if c =? 102 then Some 12 else if c =? 110 then Some 10
  else if c =? 114 then Some 13 else if c =? 116 then Some 9 else None.

(** The rest of a string literal after its opening quote; [acc] is reversed. *)
Fixpoint parse_string (s acc : str) : option (str * str) :=
  match s with
  | [] => None
  | c :: s =>
      if c =? 34 then Some (List.rev acc, s)
      else if c <? 32 then None
      else if negb (c =? 92) then parse_string s (c :: acc)
      else
        match s with
        | [] => None
        | e :: s =>
            if negb (e =? 117) then
              match simple_escape e with
              | Some x => parse_string s (x :: acc)
              | None => None
              end
            else
              match s with
              | h1 :: h2 :: h3 :: h4 :: s =>
                  match hex4 h1 h2 h3 h4 with
                  | None => None
                  | Some u =>
                      match s with
                      | 92 :: 117 :: l1 :: l2 :: l3 :: l4 :: s' =>
                          match hex4 l1 l2 l3 l4 with
                          | Some v =>
                              if is_high u && is_low v
                              then parse_string s'
                                     (65536 + (u - 55296) * 1024 + (v - 56320) :: acc)
                              else parse_string s (u :: acc)
                          | None => parse_string s (u :: acc)
                          end
                      | _ => parse_string s (u :: acc)
                      end
                  end
              | _ => None
              end
        end
  end.

Fixpoint span_digits (s : str) : str * str :=
  match s with
  | c :: s' => if ascii_digit c then let '(d, r) := span_digits s' in (c :: d, r) else ([], s)
  | [] => ([], [])
  end.

Definition Z_of_digits (ds : str) : Z := foldl (λ n c, n * 10 + (c - 48)) 0 ds.

Definition parse_fraction (s : str) : str * str :=
  match s with
  | 46 :: s' => match span_digits s' with ([], _) => ([], s) | (d, r) => (46 :: d, r) end
  | _ => ([], s)
  end.

Definition parse_exponent (s : str) : str * str :=
  match s with
  | e :: s' =>
      if (e =? 101) || (e =? 69) then
        let '(sg, s'') := match s' with
                          | c :: t => if (c =? 43) || (c =? 45) then ([c], t) else ([], s')
                          | [] => ([], [])
                          end in
        match span_digits s'' with ([], _) => ([], s) | (d, r) => (e :: sg ++ d, r) end
      else ([], s)
  | [] => ([], [])
  end.

Definition parse_number (s : str) : option (json * str) :=
  let '(neg, s1) := match s with 45 :: t => (true, t) | _ => (false, s) end in
  let int_part := match s1 with
                  | 48 :: t => Some ([48], t)
                  | _ => match span_digits s1 with ([], _) => None | p => Some p end
                  end in
  match int_part with
  | None => None
  | Some (ds, r) =>
      let '(frac, r) := parse_fraction r in
      let '(ex, r) := parse_exponent r in
      match frac, ex with
      | [], [] => Some (JInt (if neg then - Z_of_digits ds else Z_of_digits ds), r)
      | _, _ => Some (JFloat ((if neg then [45] else []) ++ ds ++ frac ++ ex), r)
      end
  end.

Definition parse_word (w : str) (v : json) (s : str) : option (json * str) :=
  if starts_with w s then Some (v, drop (length w) s) else None.

Definition parse_atom (s : str) : option (json * str) :=
  match parse_word (lit "null") JNull s with
  | Some r => Some r
  | None =>
  match parse_word (lit "true") (JBool true) s with
  | Some r => Some r
  | None =>
  match parse_word (lit "false") (JBool false) s with
  | Some r => Some r
  | None =>
  match parse_word (lit "NaN") (JFloat (lit "nan")) s with
  | Some r => Some r
  | None =>
  match parse_word (lit "Infinity") (JFloat (lit "inf")) s with
  | Some r => Some r
  | None =>
  match parse_word (lit "-Infinity") (JFloat (lit "-inf")) s with
  | Some r => Some r
  | None => parse_number s
  end end end end end end.

Fixpoint parse_value (fuel : nat) (s : str) : option (json * str) :=
  match fuel with
  | O => None
  | S fuel =>
      match s with
      | 34 :: s => match parse_string s [] with
                   | Some (t, r) => Some (JStr t, r)
                   | None => None
                   end
      | 91 :: s =>
          match skip_ws s with
          | 93 :: r => Some (JArr [], r)
          | s => match parse_items fuel s with
                 | Some (l, r) => Some (JArr l, r)
                 | None => None
                 end
          end
      | 123 :: s =>
          match skip_ws s with
          | 125 :: r => Some (JObj [], r)
          | s => match parse_members fuel s [] with
                 | Some (d, r) => Some (JObj d, r)
                 | None => None
                 end
          end
      | s => parse_atom s
      end
  end
with parse_items (fuel : nat) (s : str) : option (list json * str) :=
  match fuel with
  | O => None
  | S fuel =>
      match parse_value fuel s with
      | None => None
      | Some (v, r) =>
          match skip_ws r with
          | 93 :: r => Some ([v], r)
          | 44 :: r => match parse_items fuel (skip_ws r) with
                       | Some (l, r) => Some (v :: l, r)
                       | None => None
                       end
          | _ => None
          end
      end
  end
with parse_members (fuel : nat) (s : str) (acc : dict) : option (dict * str) :=
  match fuel with
  | O => None
  | S fuel =>
      match s with
      | 34 :: s =>
          match parse_string s [] with
          | None => None
          | Some (k, r) =>
              match skip_ws r with
              | 58 :: r =>
                  match parse_value fuel (skip_ws r) with
                  | None => None
                  | Some (v, r) =>
                      let acc := dset k v acc in
                      match skip_ws r with
                      | 125 :: r => Some (acc, r)
                      | 44 :: r => parse_members fuel (skip_ws r) acc
                      | _ => None
                      end
                  end
              | _ => None
              end
          end
      | _ => None
      end
  end.

(** [json.loads(s)]: a [JSONDecodeError] is a [ValueError]. *)
Definition loads (s : str) : exn json :=
  match parse_value (2 + 2 * length s) (skip_ws s) with
  | Some (v, r) => match skip_ws r with [] => Ok v | _ => Raise (ValueError (lit "Extra data")) end
  | None => Raise (ValueError (lit "Expecting value"))
  end.

(** JSON text written with apostrophes for its double quotes. *)
Definition jtext (s : String.string) : str :=
  map (λ c, if c =? 39 then 34 else c) (lit s).

Example loads_object :
  loads (jtext " {'a': [1, -2.50, true, null], 'b': {'x': 'q\u00e9'}, 'a': 7} ") =
  Ok (JObj [(lit "a", JInt 7); (lit "b", JObj [(lit "x", JStr (lit "qé"))])]).
Proof. vm_compute. reflexivity. Qed.
