(* ===== verification/Phones.v ===== *)
(** * Phone-number normalisation

    The five normalisers of the program, each modelled as it is written:
    [normalize_phone] of sip_routing.py, [normalize_number] of sip_bootstrap.py,
    [to_e164] of conversation_persist.py and [normalize_phone] of
    directory_email.py and of agent/conversation_memory.py. *)
From stdpp Require Import base list strings.
From Stdlib Require Import ZArith Lia.
From S2P Require Import Prelude Pystr Json.

(** ** Pieces shared by the SIP normalisers *)

(** The names of a withheld number. *)
Definition withheld_names : list str :=
  [lit "anonymous"; lit "restricted"; lit "unavailable"; lit "unknown"; lit "private"].

(** The characters [[^;>\s@]] of the user part of a SIP address. *)
Definition uri_char (c : Z) : bool :=
  negb ((c =? 59) || (c =? 62) || (c =? 64) || is_space c).

(** The characters a letter of the pattern matches under [(?i)] on [str]. *)
Definition ci_s (c : Z) : bool := (c =? 115) || (c =? 83) || (c =? 383).
Definition ci_i (c : Z) : bool := (c =? 105) || (c =? 73) || (c =? 304) || (c =? 305).
Definition ci_p (c : Z) : bool := (c =? 112) || (c =? 80).
Definition ci_t (c : Z) : bool := (c =? 116) || (c =? 84).
Definition ci_e (c : Z) : bool := (c =? 101) || (c =? 69).
Definition ci_l (c : Z) : bool := (c =? 108) || (c =? 76).

Definition uri_scheme (s : str) : option str :=
  match s with
  | a :: b :: c :: 58 :: r =>
      if (ci_s a && ci_i b && ci_p c) || (ci_t a && ci_e b && ci_l c) then Some r else None
  | _ => None
  end.

Fixpoint span_uri (s : str) : str * str :=
  match s with
  | c :: s' => if uri_char c then let '(u, r) := span_uri s' in (c :: u, r) else ([], s)
  | [] => ([], [])
  end.

(** [([^;>\s@]+)@] at the start of [s]: the class excludes [@], so the greedy run
    is the only candidate. *)
Definition user_at (s : str) : option str :=
  match span_uri s with
  | (c :: u, 64 :: _) => Some (c :: u)
  | _ => None
  end.

(** [re.search(r"(?i)(?:sip:|tel:)?([^;>\s@]+)@", s)], the group of the leftmost
    match; the scheme is tried first at each position. *)
Fixpoint search_user (s : str) : option str :=
  match match uri_scheme s with
        | Some r => match user_at r with Some u => Some u | None => user_at s end
        | None => user_at s
        end with
  | Some u => Some u
  | None => match s with [] => None | _ :: s' => search_user s' end
  end.

Definition digits_of (s : str) : str := List.filter is_digit s.

(** [while digits.startswith("00") and len(digits) > 2: digits = digits[2:]] *)
Fixpoint strip_00 (ds : str) : str :=
  match ds with
  | a :: b :: ((_ :: _) as r) => if (a =? 48) && (b =? 48) then strip_00 r else ds
  | _ => ds
  end.

(** The digits of a phone value, without display names, host and [00] prefixes. *)
Definition significant_digits (raw : str) : str :=
  let raw := if has_char 64 raw then default [] (search_user raw) else raw in
  strip_00 (digits_of raw).

(** ** sip_routing.py: [normalize_phone] *)

Definition country_234 (ds : str) : str :=
  if starts_with (lit "0") ds && ((slen ds =? 10) || (slen ds =? 11))
  then lit "234" ++ drop 1 ds
  else if (slen ds =? 10) && in_strs (take 1 ds) [lit "7"; lit "8"; lit "9"]
  then lit "234" ++ ds
  else ds.

Definition normalize_phone (value : json) : str :=
  let raw := str_strip value in
  if bool_decide (raw = []) || in_strs (py_lower raw) withheld_names then []
  else
    let ds := country_234 (significant_digits raw) in
    if 7 <=? slen ds then lit "+" ++ ds else [].

(** ** sip_bootstrap.py: [normalize_number] *)

Definition normalize_number (value : json) : str :=
  let raw := str_strip value in
  if bool_decide (raw = []) || in_strs (py_lower raw) withheld_names then []
  else significant_digits raw.

(** ** conversation_persist.py: [to_e164] *)

(** [re.fullmatch(r"\+?[0-9 ()\-.]+", raw)] *)
Definition phone_like (raw : str) : bool :=
  let body := match raw with 43 :: r => r | _ => raw end in
  bool_decide (body ≠ []) &&
  forallb (λ c, (48 <=? c) && (c <=? 57) || in_strs [c] [lit " "; lit "("; lit ")"; lit "-"; lit "."])
          body.

(** [re.fullmatch(r"[1-9]\d{7,14}", digits)] *)
Definition e164_digits (ds : str) : bool :=
  match ds with
  | c :: r => (49 <=? c) && (c <=? 57) && forallb is_decimal r
              && (7 <=? slen r) && (slen r <=? 14)
  | [] => false
  end.

Definition drop_00 (ds : str) : str := if starts_with (lit "00") ds then drop 2 ds else ds.

Definition to_e164 (value : json) : str :=
  let raw := str_strip value in
  if negb (phone_like raw) then raw
  else
    let ds := drop_00 (List.filter is_decimal raw) in
    let ds := if (slen ds =? 11) && starts_with (lit "0") ds then lit "234" ++ drop 1 ds else ds in
    let ds := if (slen ds =? 10) && starts_with (lit "8") ds then lit "234" ++ ds else ds in
    if e164_digits ds then lit "+" ++ ds else raw.

(** ** directory_email.py: [normalize_phone] *)

(** [re.fullmatch(r"\+?[\d ()-]+", raw)] *)
Definition contact_phone_like (raw : str) : bool :=
  let body := match raw with 43 :: r => r | _ => raw end in
  bool_decide (body ≠ []) &&
  forallb (λ c, is_decimal c || in_strs [c] [lit " "; lit "("; lit ")"; lit "-"]) body.

Definition contact_phone (value : json) : str :=
  let raw := str_strip value in
  if negb (contact_phone_like raw) then []
  else
    let ds := drop_00 (List.filter is_decimal raw) in
    let ds := if (slen ds =? 11) && starts_with (lit "0") ds then lit "234" ++ drop 1 ds else ds in
    if negb ((10 <=? slen ds) && (slen ds <=? 15)) || starts_with (lit "0") ds then []
    else lit "+" ++ ds.

(** ** agent/conversation_memory.py: [normalize_phone] *)

Definition memory_phone (phone : json) : str :=
  let raw := str_strip phone in
  let ds := digits_of raw in
  if bool_decide (ds = []) then [] else lit "+" ++ ds.

#[global] Arguments normalize_phone : simpl never.
#[global] Arguments normalize_number : simpl never.
#[global] Arguments significant_digits : simpl never.
#[global] Arguments to_e164 : simpl never.
#[global] Arguments contact_phone : simpl never.

(** ** Properties *)

Definition all_digits (ds : str) : Prop := Forall (λ c, is_digit c = true) ds.

Lemma digits_of_all s : all_digits (digits_of s).
Proof.
  apply Forall_forall. intros c Hc. apply list_elem_of_In, List.filter_In in Hc. tauto.
Qed.

Lemma digits_of_id ds : all_digits ds → digits_of ds = ds.
Proof.
  unfold digits_of. induction 1 as [|c ds Hc _ IH]; simpl; [done|]. by rewrite Hc, IH.
Qed.

(** Induction along the loop: strings it leaves alone, and one iteration. *)
Lemma strip_00_ind (P : str → Prop) :
  (∀ ds, strip_00 ds = ds → P ds) →
  (∀ r, r ≠ [] → P r → P (48 :: 48 :: r)) → ∀ ds, P ds.
Proof.
  intros Hbase Hstep ds. induction ds as [ds IH] using (Wf_nat.induction_ltof1 _ length).
  destruct ds as [|a [|b [|c r]]]; [by apply Hbase..|].
  destruct ((a =? 48) && (b =? 48)) eqn:E.
  - apply andb_true_iff in E as [->%Z.eqb_eq ->%Z.eqb_eq].
    apply Hstep; [done|]. apply IH. unfold Wf_nat.ltof. simpl. lia.
  - apply Hbase. simpl. by rewrite E.
Qed.

Lemma strip_00_step r : r ≠ [] → strip_00 (48 :: 48 :: r) = strip_00 r.
Proof. by destruct r. Qed.

Lemma strip_00_idem ds : strip_00 (strip_00 ds) = strip_00 ds.
Proof.
  induction ds as [ds H|r Hr IH] using strip_00_ind; [by rewrite !H|].
  by rewrite strip_00_step.
Qed.

Lemma strip_00_digits ds : all_digits ds → all_digits (strip_00 ds).
Proof.
  induction ds as [ds H|r Hr IH] using strip_00_ind; [by rewrite H|].
  rewrite strip_00_step by done. intros Hd. inversion Hd; subst. inversion H2; subst. auto.
Qed.

Lemma significant_digits_digits raw : all_digits (significant_digits raw).
Proof. apply strip_00_digits, digits_of_all. Qed.

Lemma has_char_digits c ds :
  all_digits ds → is_digit c = false → has_char c ds = false.
Proof.
  intros Hds Hc. apply existsb_elem_of_false. intros x Hx. apply Z.eqb_neq. intros <-.
  unfold all_digits in Hds. rewrite Forall_forall in Hds. by rewrite (Hds c Hx) in Hc.
Qed.

Lemma all_digits_no_space ds : all_digits ds → Forall (λ c, is_space c = false) ds.
Proof. intros H. eapply Forall_impl; [exact H|]. intros c. apply is_digit_not_space. Qed.

(** A string of digits is its own number, up to leading [00]s. *)
Lemma significant_digits_id p ds :
  all_digits ds → is_digit p = false → p ≠ 64 →
  significant_digits (p :: ds) = strip_00 ds.
Proof.
  intros Hds Hp H64. unfold significant_digits.
  replace (has_char 64 (p :: ds)) with false.
  - unfold digits_of. simpl. rewrite Hp. f_equal. by apply digits_of_id.
  - symmetry. unfold has_char. cbn [existsb]. apply orb_false_iff.
    split; [by apply Z.eqb_neq|]. by apply has_char_digits.
Qed.

(** The digit strings [country_234] returns are those it no longer changes. *)
Definition national (ds : str) : bool :=
  starts_with (lit "0") ds && ((slen ds =? 10) || (slen ds =? 11)) ||
  (slen ds =? 10) && in_strs (take 1 ds) [lit "7"; lit "8"; lit "9"].

Lemma country_234_id ds : national ds = false → country_234 ds = ds.
Proof.
  unfold national, country_234. intros [H1 H2]%orb_false_iff. by rewrite H1, H2.
Qed.

Lemma slen_app s t : slen (s ++ t) = slen s + slen t.
Proof. unfold slen. rewrite length_app. lia. Qed.

Lemma country_234_national ds : strip_00 ds = ds →
  national (country_234 ds) = false ∧ strip_00 (country_234 ds) = country_234 ds.
Proof.
  intros Hs. unfold country_234.
  destruct (starts_with (lit "0") ds && ((slen ds =? 10) || (slen ds =? 11))) eqn:E1.
  - split.
    + reflect_bool. destruct E1 as [Hz Hl]. unfold national.
      replace (slen (lit "234" ++ drop 1 ds) =? 10) with false; [done|].
      symmetry. apply Z.eqb_neq. rewrite slen_app. change (slen (lit "234")) with 3.
      unfold slen in *. rewrite length_drop. lia.
    + by destruct (drop 1 ds).
  - destruct ((slen ds =? 10) && in_strs (take 1 ds) [lit "7"; lit "8"; lit "9"]) eqn:E2.
    + split; [|by destruct ds]. unfold national.
      replace (slen (lit "234" ++ ds) =? 10) with false; [done|].
      symmetry. apply Z.eqb_neq. rewrite slen_app. change (slen (lit "234")) with 3.
      reflect_bool. lia.
    + split; [|done]. unfold national. by rewrite E1, E2.
Qed.

Lemma country_234_digits ds : all_digits ds → all_digits (country_234 ds).
Proof.
  intros H. unfold country_234.
  assert (all_digits (lit "234")) as H234 by (change (lit "234") with [50; 51; 52]; by repeat constructor).
  repeat case_goal; [|by apply Forall_app|done].
  apply Forall_app. split; [done|]. by apply Forall_drop.
Qed.

(** *** Canonical numbers *)

(** What [normalize_phone] returns: nothing, or [+] and at least seven digits in
    international form. *)
Definition canonical (s : str) : Prop :=
  s = [] ∨ ∃ ds, s = 43 :: ds ∧ all_digits ds ∧ (7 ≤ slen ds) ∧
                 strip_00 ds = ds ∧ national ds = false.

Lemma normalize_phone_result v : canonical (normalize_phone v).
Proof.
  unfold normalize_phone. case_goal; [by left|]. case_goal; [right|by left].
  apply Z.leb_le in Heqb0. eexists. split; [done|].
  destruct (country_234_national (significant_digits (str_strip v))) as [H1 H2].
  { apply strip_00_idem. }
  repeat split; [|done..]. apply country_234_digits, significant_digits_digits.
Qed.

Lemma str_strip_plus_digits ds :
  all_digits ds → str_strip (JStr (43 :: ds)) = 43 :: ds.
Proof.
  intros H. unfold str_strip, str_or_empty. simpl. apply strip_by_free.
  constructor; [done|]. by apply all_digits_no_space.
Qed.

Lemma withheld_plus ds : in_strs (py_lower (43 :: ds)) withheld_names = false.
Proof.
  apply in_strs_false. change (py_lower (43 :: ds)) with (43 :: py_lower ds). intros H.
  assert (forallb (λ n, negb (starts_with (lit "+") n)) withheld_names = true) as Hall
    by (vm_compute; done).
  rewrite forallb_elem_of in Hall. specialize (Hall _ H). by apply negb_true_iff in Hall.
Qed.

Lemma normalize_phone_canonical s : canonical s → normalize_phone (JStr s) = s.
Proof.
  intros [->|(ds & -> & Hd & Hl & Hs & Hn)]; [done|].
  unfold normalize_phone. rewrite str_strip_plus_digits, withheld_plus by done. simpl.
  rewrite significant_digits_id, Hs, country_234_id by done.
  by apply Z.leb_le in Hl as ->.
Qed.

Lemma normalize_number_digits v : all_digits (normalize_number v).
Proof.
  unfold normalize_number. case_goal; [constructor|]. apply significant_digits_digits.
Qed.

(** ** Property *)

(** [normalize_phone] returns the empty string or [+] followed by at least
    seven digits in international form, and is idempotent: normalising a number
    that was stored or compared after normalisation changes nothing, so map keys
    and dialled numbers meet in one canonical form. *)
Theorem normalize_phone_idempotent (v : json) :
  canonical (normalize_phone v) ∧
  normalize_phone (JStr (normalize_phone v)) = normalize_phone v.
Proof.
  split; [apply normalize_phone_result|].
  apply normalize_phone_canonical, normalize_phone_result.
Qed.

(** ** The interface of a normaliser

    What the tables keyed by a number rely on: the key of a number in any spelling, and the
    key itself spelled again, are the same. *)
Class Normaliser (f : json → str) : Prop := {
  normal_again : ∀ v, f (JStr (f v)) = f v;
}.

#[export] Instance normalize_phone_normaliser : Normaliser normalize_phone.
Proof. split. intros v. apply normalize_phone_canonical, normalize_phone_result. Qed.

Lemma str_strip_plus ds :
  Forall (λ c, is_space c = false) ds → str_strip (JStr (43 :: ds)) = 43 :: ds.
Proof. intros H. unfold str_strip, str_or_empty. simpl. apply strip_by_free. by constructor. Qed.

#[export] Instance memory_phone_normaliser : Normaliser memory_phone.
Proof.
  split. intros v. unfold memory_phone at 2 3. pose proof (digits_of_all (str_strip v)) as Hd.
  case_bool_decide as E; [done|]. change (lit "+" ++ ?ds) with (43 :: ds). unfold memory_phone.
  rewrite str_strip_plus_digits by done.
  change (digits_of (43 :: ?ds)) with (digits_of ds). rewrite digits_of_id by done.
  by rewrite bool_decide_false.
Qed.

Lemma filter_decimal_all s : Forall (λ c, is_decimal c = true) (List.filter is_decimal s).
Proof. apply Forall_forall. intros c Hc%list_elem_of_In. by apply List.filter_In in Hc as [_ ?]. Qed.

Lemma filter_decimal_id ds : Forall (λ c, is_decimal c = true) ds → List.filter is_decimal ds = ds.
Proof. induction 1 as [|c ds Hc _ IH]; [done|]. simpl. by rewrite Hc, IH. Qed.

Lemma drop_00_decimal ds : Forall (λ c, is_decimal c = true) ds → Forall (λ c, is_decimal c = true) (drop_00 ds).
Proof. intros H. unfold drop_00. destruct (starts_with _ _); [by apply Forall_drop|done]. Qed.

(** A number [contact_phone] accepted is its own key. *)
Lemma contact_phone_id ds :
  Forall (λ c, is_decimal c = true) ds → 10 ≤ slen ds ≤ 15 → starts_with (lit "0") ds = false →
  contact_phone (JStr (43 :: ds)) = 43 :: ds.
Proof.
  intros Hd [Hl1 Hl2] H0. unfold contact_phone.
  rewrite str_strip_plus by (eapply Forall_impl; [exact Hd|]; intros c; apply is_decimal_not_space).
  assert (ds ≠ []) as Hne by (intros ->; by unfold slen in Hl1; simpl in Hl1).
  assert (contact_phone_like (43 :: ds) = true) as ->.
  { unfold contact_phone_like. rewrite bool_decide_true by done. apply List.forallb_forall.
    intros c Hc%list_elem_of_In. rewrite Forall_forall in Hd. by rewrite (Hd c Hc). }
  cbn [negb]. change (List.filter is_decimal (43 :: ds)) with (List.filter is_decimal ds).
  rewrite filter_decimal_id by done.
  assert (drop_00 ds = ds) as ->.
  { unfold drop_00. destruct (starts_with (lit "00") ds) eqn:E; [|done]. destruct ds as [|c ds]; [done|].
    change (lit "00") with [48; 48] in E. change (lit "0") with [48] in H0. cbn [starts_with] in E, H0.
    rewrite andb_true_r in H0. by rewrite H0 in E. }
  cbv zeta. rewrite H0, andb_false_r. cbn iota. rewrite H0, orb_false_r.
  by rewrite (proj2 (Z.leb_le 10 (slen ds))), (proj2 (Z.leb_le (slen ds) 15)).
Qed.

#[export] Instance contact_phone_normaliser : Normaliser contact_phone.
Proof.
  split. intros v. unfold contact_phone at 2 3. destruct (negb (contact_phone_like _)); [done|].
  set (d0 := drop_00 _). set (ds := if (slen d0 =? 11) && starts_with (lit "0") d0 then _ else d0).
  destruct (negb _ || starts_with (lit "0") ds) eqn:E; [done|].
  apply orb_false_iff in E as [Hl%negb_false_iff H0]. apply andb_true_iff in Hl as [Hl1%Z.leb_le Hl2%Z.leb_le].
  apply contact_phone_id; [|lia|done].
  assert (Forall (λ c, is_decimal c = true) d0) as Hd by apply drop_00_decimal, filter_decimal_all.
  unfold ds. case_goal; [|done]. apply Forall_app. split; [by repeat constructor|by apply Forall_drop].
Qed.
