(* ===== verification/SipRouting.v ===== *)
(** * Static SIP routes: latency_lab/sip_routing.py

    The operator's map from called numbers to agents ([load_number_agent_map]),
    the extraction of the dialled number from a participant and the choice of the
    route ([resolve_sip_agent_route]).  Python's insertion-ordered [dict] is the
    association list of Json.v, since the fallback scan depends on the order. *)
From stdpp Require Import base list strings.
From Stdlib Require Import ZArith Lia.
From S2P Require Import Prelude Pystr Json JsonText Phones.

Definition _CALLEE_KEYS : list str :=
  [lit "sip.h.x-callee-number"; lit "sip.h.x-odion-callee-number";
   lit "sip.x_callee_number"; lit "sip.calleenumber"; lit "sip.callee_number"].

Definition _FALLBACK_KEYS : list str :=
  [lit "sip.phonenumber"; lit "sip.phone_number"; lit "sip.fromuser"; lit "sip.from_user";
   lit "sip.from"; lit "phonenumber"; lit "fromnumber"; lit "callernumber"].

Record SipAgentRoute := mkRoute {
  party_number : str;
  business_id : str;
  agent_id : str;
  configured_name : str;
}.

(** The attributes the program reads of a LiveKit participant; a missing attribute
    is [JNull] ([getattr(participant, .., None)]). *)
Record participant := mkParticipant {
  p_identity : json;
  p_attributes : json;
}.

Definition parse_route (default_business_id party_number : str) (value : json)
    : option SipAgentRoute :=
  let mk agent_id business_id name :=
    if bool_decide (agent_id ≠ []) && bool_decide (business_id ≠ [])
    then Some (mkRoute party_number business_id agent_id name) else None in
  match value with
  | JStr s => mk (py_strip s) default_business_id []
  | JObj d =>
      mk (str_strip (jor d.[lit "config_agent_id"] (jor d.[lit "configAgentId"]
                    (jor d.[lit "agent_id"] d.[lit "agentId"]))))
         (py_strip (py_str (jor d.[lit "business_id"] (jor d.[lit "businessId"]
                    (JStr default_business_id)))))
         (str_strip (jor d.[lit "configured_agent_name"]
                    (jor d.[lit "configuredAgentName"] d.[lit "name"])))
  | _ => None
  end.

Definition add_route (default_business_id : str) (routes : list (str * SipAgentRoute))
    (item : str * json) : list (str * SipAgentRoute) :=
  let number := normalize_phone (JStr item.1) in
  if bool_decide (number = []) then routes
  else
    match parse_route default_business_id number item.2 with
    | Some r => dset number r routes
    | None => routes
    end.

Definition load_number_agent_map (env : environ) (raw : option str)
    : list (str * SipAgentRoute) :=
  let text := py_strip (default (getenv env (lit "POC_OUTBOUND_NUMBER_AGENT_MAP") []) raw) in
  if bool_decide (text = []) then []
  else
    match loads text with
    | Ok (JObj payload) =>
        let default_business_id :=
          py_strip (getenv env (lit "POC_OUTBOUND_BUSINESS_ID") []) in
        foldl (add_route default_business_id) [] payload
    | _ => []
    end.

Definition is_sip_participant (p : participant) : bool :=
  starts_with (lit "sip_") (py_lower (str_or_empty (p_identity p))) ||
  match p_attributes p with
  | JObj attributes => existsb (λ kv, starts_with (lit "sip.") (py_lower kv.1)) attributes
  | _ => false
  end.

(** [{str(key).lower(): value for key, value in attributes.items()}] *)
Definition lowered (attributes : dict) : dict :=
  foldl (λ d kv, dset (py_lower kv.1) kv.2 d) [] attributes.

Definition non_empty (s : str) : option str := if bool_decide (s = []) then None else Some s.

Definition extract_sip_party_number (p : participant) : str :=
  let attrs := lowered (dict_or_empty (p_attributes p)) in
  match first_some (λ key, non_empty (normalize_phone attrs.[key]))
          (_CALLEE_KEYS ++ _FALLBACK_KEYS) with
  | Some candidate => candidate
  | None =>
      let identity := str_or_empty (p_identity p) in
      if starts_with (lit "sip_") (py_lower identity)
      then normalize_phone (JStr (drop 4 identity)) else []
  end.

(** The test of the fallback scan. *)
Definition same_number (party_number mapped_number : str) : bool :=
  let digits := digits_of party_number in
  let mapped_digits := digits_of mapped_number in
  (digits =s mapped_digits) ||
  ((10 <=? slen digits) && (10 <=? slen mapped_digits)
   && (last_n 10 digits =s last_n 10 mapped_digits)).

Definition resolve_sip_agent_route (env : environ) (p : participant)
    (number_map : option (list (str * SipAgentRoute))) : option SipAgentRoute :=
  if negb (is_sip_participant p) then None
  else
    let routes := default (load_number_agent_map env None) number_map in
    let party := extract_sip_party_number p in
    if bool_decide (party = []) then None
    else
      match dget party routes with
      | Some direct => Some direct
      | None =>
          first_some (λ kv, if same_number party kv.1 then Some kv.2 else None) routes
      end.

#[global] Arguments is_sip_participant : simpl never.
#[global] Arguments extract_sip_party_number : simpl never.
#[global] Arguments same_number : simpl never.
#[global] Arguments load_number_agent_map : simpl never.

(** ** The loaded map *)

(** What every entry of a loaded map satisfies. *)
Definition route_ok (kv : str * SipAgentRoute) : Prop :=
  kv.1 ≠ [] ∧ canonical kv.1 ∧ party_number kv.2 = kv.1 ∧
  agent_id kv.2 ≠ [] ∧ business_id kv.2 ≠ [].

Lemma parse_route_ok def number value r :
  parse_route def number value = Some r →
  party_number r = number ∧ agent_id r ≠ [] ∧ business_id r ≠ [].
Proof.
  unfold parse_route. intros H. destruct value; try done; case_in H;
    match goal with E : _ && _ = true |- _ =>
      apply andb_true_iff in E as [?%bool_decide_eq_true ?%bool_decide_eq_true] end;
    by simplify_eq.
Qed.

Lemma add_route_ok def routes item :
  Forall route_ok routes → Forall route_ok (add_route def routes item).
Proof.
  intros Hr. unfold add_route. case_bool_decide as Hn; [done|].
  destruct (parse_route _ _ _) as [r|] eqn:Hp; [|done].
  apply parse_route_ok in Hp as (Hk & Ha & Hb).
  apply Forall_forall. intros [k v] [[-> ->]|Hin]%elem_of_dset.
  - repeat split; [done| |done..]. apply normalize_phone_result.
  - rewrite Forall_forall in Hr. by apply Hr.
Qed.

Lemma load_number_agent_map_ok env raw : Forall route_ok (load_number_agent_map env raw).
Proof.
  unfold load_number_agent_map. repeat case_goal; try constructor.
  generalize (py_strip (getenv env (lit "POC_OUTBOUND_BUSINESS_ID") [])) as def. intros def.
  assert (Forall route_ok []) as Hacc by constructor. revert Hacc.
  generalize (@nil (str * SipAgentRoute)) as acc.
  match goal with |- context [foldl _ _ ?l] => generalize l as items end.
  intros items. induction items as [|item items IH]; intros acc Hacc; simpl; [done|].
  apply IH, add_route_ok, Hacc.
Qed.

(** ** Resolution *)

Section resolve.
Context (env : environ) (p : participant) (routes : list (str * SipAgentRoute)).
Let party := extract_sip_party_number p.

Lemma resolve_sound r :
  resolve_sip_agent_route env p (Some routes) = Some r →
  is_sip_participant p = true ∧ party ≠ [] ∧
  ∃ k, (k, r) ∈ routes ∧ (k = party ∨ same_number party k = true).
Proof.
  unfold resolve_sip_agent_route. cbn [default from_option id]. fold party.
  destruct (is_sip_participant p); cbn [negb]; [|done].
  case_bool_decide as Hp; [done|]. intros H. do 2 (split; [done|]).
  destruct (dget party routes) as [d|] eqn:Hd; simplify_eq.
  - exists party. split; [by apply dget_Some_elem|by left].
  - apply first_some_Some in H as ([k r'] & Hin & H). case_in H.
    exists k. split; [done|by right].
Qed.

Lemma resolve_complete k r :
  is_sip_participant p = true → party ≠ [] → (k, r) ∈ routes →
  same_number party k = true → is_Some (resolve_sip_agent_route env p (Some routes)).
Proof.
  intros Hs Hp Hin Hm. unfold resolve_sip_agent_route. rewrite Hs.
  cbn [default from_option id negb]. fold party. rewrite bool_decide_eq_false_2 by done. destruct (dget party routes); [done|].
  apply not_eq_None_Some. rewrite first_some_None. intros Hall.
  specialize (Hall _ Hin). cbn [fst snd] in Hall. by rewrite Hm in Hall.
Qed.
End resolve.

(** An exact entry for the dialled number takes precedence over every other entry. *)
Lemma resolve_direct env p routes r :
  is_sip_participant p = true → extract_sip_party_number p ≠ [] →
  dget (extract_sip_party_number p) routes = Some r →
  resolve_sip_agent_route env p (Some routes) = Some r.
Proof.
  intros Hs Hp Hr. unfold resolve_sip_agent_route. rewrite Hs. cbn [default from_option id negb].
  rewrite bool_decide_eq_false_2 by done. by rewrite Hr.
Qed.

Lemma extract_canonical p : canonical (extract_sip_party_number p).
Proof.
  unfold extract_sip_party_number. destruct (first_some _ _) as [c|] eqn:E.
  - apply first_some_Some in E as (k & _ & H). unfold non_empty in H.
    case_in H. apply normalize_phone_result.
  - case_goal; [apply normalize_phone_result|by left].
Qed.

(** ** Properties *)

(** End to end, a route chosen from the operator's configuration belongs to a
    SIP participant, names a non-empty business and agent, and its own number is
    the dialled one or agrees with it on all digits or on the last ten; nothing
    else is ever routed.  Conversely, when some configured number agrees with the
    dialled one, a route is found. *)
Theorem resolve_configured_route (env : environ) (raw : option str) (p : participant) :
  let routes := load_number_agent_map env raw in
  let party := extract_sip_party_number p in
  (∀ r, resolve_sip_agent_route env p (Some routes) = Some r →
     is_sip_participant p = true ∧ agent_id r ≠ [] ∧ business_id r ≠ [] ∧
     (party_number r = party ∨ same_number party (party_number r) = true)) ∧
  (is_sip_participant p = true → party ≠ [] →
   (∃ k r, (k, r) ∈ routes ∧ same_number party k = true) →
   is_Some (resolve_sip_agent_route env p (Some routes))).
Proof.
  intros routes party. split.
  - intros r (Hs & Hp & k & Hin & Hm)%resolve_sound.
    pose proof (load_number_agent_map_ok env raw) as Hok.
    rewrite Forall_forall in Hok. destruct (Hok _ Hin) as (_ & _ & Hn & Ha & Hb).
    simpl in *. subst k. naive_solver.
  - intros Hs Hp (k & r & Hin & Hm). by eapply resolve_complete.
Qed.

(** A SIP call to a mapped number whose country prefix differs in form. *)
Example resolve_example :
  let env := λ k, if k =s lit "POC_OUTBOUND_BUSINESS_ID" then Some (lit "biz") else None in
  resolve_sip_agent_route env
    (mkParticipant (JStr (lit "sip_x")) (JObj [(lit "sip.CalleeNumber", JStr (lit "sip:08031234567@host"))]))
    (Some (load_number_agent_map env (Some (jtext "{'2348031234567': 'agent-7'}")))) =
  Some (mkRoute (lit "+2348031234567") (lit "biz") (lit "agent-7") []).
Proof. vm_compute. reflexivity. Qed.
