(* ===== verification/SipBootstrap.v ===== *)
(** * SIP call scope: latency_lab/sip_bootstrap.py

    [resolve_route] turns the dispatch metadata into the operator's route;
    [participant_identity] checks the caller's trunk and picks the business and
    agent among the caller-specific, dashboard, called-number and default routes.
    Route tables are decoded JSON, so a route is a [json]: [JNull] when there is
    none, and the empty dictionary is as false as in the source. *)
From stdpp Require Import base list strings.
From Stdlib Require Import ZArith Lia.
From S2P Require Import Prelude Pystr Json JsonText Phones SipRouting.

Definition CALLEE_KEYS : list str :=
  [lit "sip.to"; lit "sip.h.to"; lit "sip.h.x-to"; lit "sip.trunkphonenumber";
   lit "sip.trunk_phone_number"; lit "sip.h.x-callee-number";
   lit "sip.h.x-odion-callee-number"; lit "sip.x_callee_number"; lit "sip.calleenumber";
   lit "sip.callee_number"; lit "sip.called"].

Definition CALLER_KEYS : list str :=
  [lit "sip.phonenumber"; lit "sip.phone_number"; lit "sip.fromuser"; lit "sip.from_user";
   lit "sip.from"].

(** Exact digits, or the same last ten. *)
Definition lookup_match (target candidate : str) : bool :=
  (target =s candidate) ||
  ((10 <=? slen target) && (10 <=? slen candidate)
   && (last_n 10 target =s last_n 10 candidate)).

Definition _lookup (number_map value : json) : json :=
  let target := normalize_number value in
  match number_map with
  | JObj entries =>
      if bool_decide (target = []) then JNull
      else
        default JNull
          (first_some
             (λ kv,
                let candidate := normalize_number (JStr kv.1) in
                if bool_decide (candidate = []) || negb (is_dict kv.2) then None
                else if lookup_match target candidate then Some kv.2 else None)
             entries)
  | _ => JNull
  end.

Fixpoint _lookup_any (number_map : json) (values : list json) : json :=
  match values with
  | [] => JNull
  | value :: values =>
      let route := _lookup number_map value in
      if truthy route then route else _lookup_any number_map values
  end.

Definition resolve_route (env : environ) (metadata room_name : str) : exn (option dict) :=
  do! payload := loads (if bool_decide (metadata = []) then lit "{}" else metadata) in
  do! surface := jget (lit "entry_surface") payload in
  if negb (jeq_str surface (lit "aicc_inbound")) then Ok None
  else
    do! route := loads (getenv env (lit "RVC_AICC_SIP_ROUTE") (lit "{}")) in
    do! trunk := jget (lit "sip_trunk_id") payload in
    let refused := Raise (ValueError (lit "Unconfigured SIP dispatch scope.")) in
    match route with
    | JObj d =>
        do! known := py_in trunk (default (JArr []) (dget (lit "trunk_ids") d)) in
        if negb known || negb (truthy d.[lit "room_prefix"]) then refused
        else
          match d.[lit "room_prefix"] with
          | JStr prefix =>
              if negb (starts_with prefix room_name)
                 || negb (truthy d.[lit "business_id"])
                 || negb (truthy d.[lit "config_agent_id"])
              then refused
              else Ok (Some (dset (lit "expected_trunk_id") trunk d))
          | _ => Raise TypeError
          end
    | _ => refused
    end.

(** ** participant_identity *)

(** The participant of [participant_identity]: its attributes are a dictionary. *)
Record sip_participant := mkSip {
  sp_kind : Z;
  sp_identity : str;
  sp_attributes : dict;
}.

(** [next((lowered.get(key) for key in keys if lowered.get(key)), '')] *)
Definition first_attr (keys : list str) (attrs : dict) : json :=
  default (JStr []) (first_some (λ k, if truthy attrs.[k] then Some attrs.[k] else None) keys).

Definition is_caller_key (k : str) : bool := in_strs k CALLER_KEYS.

(** [str(value) for key, value in lowered.items() if ..] *)
Definition other_callee_values (low : dict) : list json :=
  map (λ kv, JStr (py_str kv.2))
    (List.filter (λ kv, negb (is_caller_key kv.1) && negb (kv.1 =s lit "sip.trunkid")) low).

Definition called_number (called_override : str) (low : dict) : json :=
  jor (JStr called_override) (first_attr CALLEE_KEYS low).

Definition caller_number (p : sip_participant) (low : dict) : json :=
  let caller := first_attr CALLER_KEYS low in
  if truthy caller then caller
  else jor (sp_attributes p).[lit "sip.phoneNumber"] (JStr (sp_identity p)).

Definition did_route (route : dict) (called : json) (low : dict) : json :=
  let did_map := jor route.[lit "did_routes"] (JObj []) in
  jor (_lookup did_map called)
      (if truthy called then JNull else _lookup_any did_map (other_callee_values low)).

Definition caller_route (route : dict) (caller : json) (identity room_name : str) : json :=
  let caller_map := jor route.[lit "caller_routes"] (JObj []) in
  jor (_lookup caller_map caller) (_lookup_any caller_map [JStr identity; JStr room_name]).

(** The fields of a route value that is a dictionary, as the table lookups return. *)
Definition overrides_did (caller_route : json) : bool :=
  truthy caller_route && is_true (dict_or_empty caller_route).[lit "override_did_routes"].

Definition chosen_route (caller_route dynamic_did_route did_route : json) : json :=
  if overrides_did caller_route then caller_route
  else jor dynamic_did_route (jor did_route (jor caller_route (JObj []))).

Definition participant_identity (route : dict) (p : sip_participant) (room_name : str)
    (sip_kind : Z) (called_override : str) (dynamic_did_route : json) : exn dict :=
  let attrs := sp_attributes p in
  let low := lowered attrs in
  do! expected := (if negb (sp_kind p =? sip_kind) then Ok (JBool false)
                   else jindex (lit "expected_trunk_id") route) in
  if negb (sp_kind p =? sip_kind) || negb (py_eq low.[lit "sip.trunkid"] expected)
  then Raise (ValueError (lit "Caller is not a SIP participant on the configured trunk."))
  else
    let called := called_number called_override low in
    let caller := caller_number p low in
    let caller_r := caller_route route caller (sp_identity p) room_name in
    let did_r := did_route route called low in
    do! chosen := match chosen_route caller_r dynamic_did_route did_r with
                  | JObj d => Ok d
                  | _ => Raise AttributeError
                  end in
    let pick k := if truthy chosen.[k] then Ok chosen.[k] else jindex k route in
    do! business := pick (lit "business_id") in
    do! agent := pick (lit "config_agent_id") in
    do! trunk := jindex (lit "sip.trunkID") attrs in
    Ok [(lit "business_id", business);
        (lit "config_agent_id", agent);
        (lit "configured_agent_name",
          jor chosen.[lit "configured_agent_name"]
              (default (JStr []) (dget (lit "configured_agent_name") route)));
        (lit "end_user_id", jor attrs.[lit "sip.phoneNumber"] (JStr (sp_identity p)));
        (lit "participant_identity", JStr (sp_identity p));
        (lit "room_name", JStr room_name);
        (lit "entry_surface", JStr (lit "aicc_inbound"));
        (lit "language", JStr (lit "en"));
        (lit "caller_phone", default (JStr []) (dget (lit "sip.phoneNumber") attrs));
        (lit "caller_number", caller);
        (lit "called_phone", called);
        (lit "outbound_required",
          JBool (is_true chosen.[lit "outbound_required"]
                 || is_true (dict_or_empty did_r).[lit "outbound_required"]));
        (lit "sip_attribute_keys", JArr (map JStr (py_sorted (dkeys attrs))));
        (lit "sip_trunk_id", trunk);
        (lit "sip_caller_verified", JBool true);
        (lit "voice_auth_required",
          default (default (JBool true) (dget (lit "voice_auth_required") route))
                  (dget (lit "voice_auth_required") chosen))].

#[global] Arguments _lookup : simpl never.
#[global] Arguments lookup_match : simpl never.
#[global] Arguments is_caller_key : simpl never.
#[global] Arguments did_route : simpl never.
#[global] Arguments caller_route : simpl never.
#[global] Arguments called_number : simpl never.
#[global] Arguments caller_number : simpl never.
#[global] Arguments overrides_did : simpl never.

(** ** Lookups only return configured routes *)

(** [r] is the route of an entry of [number_map] whose number agrees with [value]. *)
Definition configured_match (number_map value r : json) : Prop :=
  ∃ entries k, number_map = JObj entries ∧ (k, r) ∈ entries ∧ is_dict r = true ∧
    normalize_number (JStr k) ≠ [] ∧
    lookup_match (normalize_number value) (normalize_number (JStr k)) = true.

Lemma lookup_configured m v : truthy (_lookup m v) = true → configured_match m v (_lookup m v).
Proof.
  unfold _lookup. destruct m; try done. case_bool_decide as Hv; [done|].
  destruct (first_some _ kvs) as [r|] eqn:E; [|done]. intros _. cbn [default from_option id].
  apply first_some_Some in E as ([k r'] & Hin & H). cbn [fst snd] in H.
  case_bool_decide as Hk; [done|]. destruct (is_dict r') eqn:Hd; [|done].
  destruct (lookup_match _ _) eqn:Hm; simplify_eq/=.
  exists kvs, k. done.
Qed.

Lemma lookup_any_configured m vs :
  truthy (_lookup_any m vs) = true →
  ∃ v, v ∈ vs ∧ configured_match m v (_lookup_any m vs).
Proof.
  induction vs as [|v vs IH]; cbn [_lookup_any]; [done|].
  destruct (truthy (_lookup m v)) eqn:E.
  - intros _. exists v. split; [by left|]. by apply lookup_configured.
  - intros (w & Hw & H)%IH. exists w. split; [by right|done].
Qed.

(** ** The called-number route does not depend on the caller *)

Definition hide_caller (low : dict) : dict :=
  List.filter (λ kv, negb (is_caller_key kv.1)) low.

Lemma dget_hide_caller k low :
  is_caller_key k = false → dget k (hide_caller low) = dget k low.
Proof.
  intros Hk. induction low as [|[k' v] low IH]; [done|]. unfold hide_caller. cbn [List.filter fst].
  destruct (is_caller_key k') eqn:E; cbn [negb dget]; fold (hide_caller low); rewrite IH.
  - destruct (k =s k') eqn:Ek; [|done]. apply str_eqb_true in Ek. congruence.
  - done.
Qed.

Lemma get_hide_caller k low : is_caller_key k = false → (hide_caller low).[k] = low.[k].
Proof. intros. unfold dget_or_none. by rewrite dget_hide_caller. Qed.

Lemma first_attr_hide keys low :
  Forall (λ k, is_caller_key k = false) keys →
  first_attr keys (hide_caller low) = first_attr keys low.
Proof.
  intros H. unfold first_attr. f_equal. induction H as [|k keys Hk _ IH]; [done|].
  cbn [first_some]. by rewrite get_hide_caller, IH.
Qed.

Lemma callee_keys_not_caller : Forall (λ k, is_caller_key k = false) CALLEE_KEYS.
Proof. repeat constructor. Qed.

Lemma other_callee_values_hide low :
  other_callee_values (hide_caller low) = other_callee_values low.
Proof.
  unfold other_callee_values, hide_caller. f_equal.
  induction low as [|[k v] low IH]; [done|]. cbn [List.filter fst].
  destruct (is_caller_key k) eqn:E; cbn [negb andb List.filter fst]; [apply IH|].
  rewrite E. cbn [negb andb]. by rewrite IH.
Qed.

(** ** The order of precedence *)

(** Caller override, dashboard route, called-number route, caller route, default. *)
Inductive route_priority (caller dynamic did : json) : json → Prop :=
| prio_override :
    overrides_did caller = true → route_priority caller dynamic did caller
| prio_dynamic :
    overrides_did caller = false → truthy dynamic = true →
    route_priority caller dynamic did dynamic
| prio_did :
    overrides_did caller = false → truthy dynamic = false → truthy did = true →
    route_priority caller dynamic did did
| prio_caller :
    overrides_did caller = false → truthy dynamic = false → truthy did = false →
    truthy caller = true → route_priority caller dynamic did caller
| prio_default :
    overrides_did caller = false → truthy dynamic = false → truthy did = false →
    truthy caller = false → route_priority caller dynamic did (JObj []).

Lemma chosen_route_priority caller dynamic did :
  route_priority caller dynamic did (chosen_route caller dynamic did).
Proof.
  unfold chosen_route, jor.
  destruct (overrides_did caller) eqn:E1; [by constructor|].
  destruct (truthy dynamic) eqn:E2; [by constructor|].
  destruct (truthy did) eqn:E3; [by constructor|].
  destruct (truthy caller) eqn:E4; by constructor.
Qed.

Lemma pick_jor k chosen route (v : json) :
  (if truthy (dget_or_none k chosen) then Ok chosen.[k] else jindex k route) = Ok v →
  v = jor chosen.[k] route.[k].
Proof.
  unfold jor. destruct (truthy _); [congruence|]. unfold jindex, dget_or_none.
  destruct (dget k route); [|done]. by intros [= ->].
Qed.

(** ** Properties *)

(** An identity is produced only for a SIP participant on the dispatched
    trunk, and its business and agent are those of the route that comes first in
    the order caller override, dashboard route, called number, caller, with the
    operator's top-level values filling the fields that route leaves empty. *)
Theorem participant_identity_scope (route : dict) (p : sip_participant) (room_name : str)
    (sip_kind : Z) (override : str) (dynamic : json) (id : dict)
    (Hok : participant_identity route p room_name sip_kind override dynamic = Ok id) :
  let low := lowered (sp_attributes p) in
  let called := called_number override low in
  let caller_r := caller_route route (caller_number p low) (sp_identity p) room_name in
  let did_r := did_route route called low in
  sp_kind p = sip_kind ∧
  py_eq low.[lit "sip.trunkid"] route.[lit "expected_trunk_id"] = true ∧
  ∃ chosen, route_priority caller_r dynamic did_r (JObj chosen) ∧
    id.[lit "business_id"] = jor chosen.[lit "business_id"] route.[lit "business_id"] ∧
    id.[lit "config_agent_id"]
      = jor chosen.[lit "config_agent_id"] route.[lit "config_agent_id"] ∧
    (truthy caller_r = true →
     ∃ v, v ∈ [caller_number p low; JStr (sp_identity p); JStr room_name] ∧
          configured_match (jor route.[lit "caller_routes"] (JObj [])) v caller_r).
Proof.
  intros low called caller_r did_r. unfold participant_identity in Hok.
  fold low called caller_r did_r in Hok.
  apply exn_bind_Ok in Hok as (expected & He & Hok).
  destruct (sp_kind p =? sip_kind) eqn:Hk; cbn [negb orb] in *; [|done].
  destruct (py_eq low.[lit "sip.trunkid"] expected) eqn:Ht; cbn [negb] in Hok; [|done].
  apply exn_bind_Ok in Hok as (chosen & Hc & Hok).
  apply exn_bind_Ok in Hok as (business & Hb & Hok).
  apply exn_bind_Ok in Hok as (agent & Ha & Hok).
  apply exn_bind_Ok in Hok as (trunk & Htr & [= <-]).
  apply pick_jor in Hb as ->. apply pick_jor in Ha as ->.
  split; [by apply Z.eqb_eq|]. split.
  { unfold jindex in He. unfold dget_or_none at 2.
    by destruct (dget _ route); simplify_eq/=. }
  exists chosen. split.
  { pose proof (chosen_route_priority caller_r dynamic did_r) as Hp.
    by destruct (chosen_route caller_r dynamic did_r); simplify_eq. }
  split; [reflexivity|]. split; [reflexivity|].
  unfold caller_r, caller_route. set (cm := jor route.[_] _). unfold jor.
  destruct (truthy (_lookup cm _)) eqn:E.
  - intros _. eexists. split; [by left|]. by apply lookup_configured.
  - intros (v & Hv & H)%lookup_any_configured. exists v. split; [by right|done].
Qed.

(** The route of the witnesses: one called number, one overriding caller. *)
Definition example_route : dict :=
  [(lit "business_id", JStr (lit "biz")); (lit "config_agent_id", JStr (lit "agent"));
   (lit "expected_trunk_id", JStr (lit "trunk"));
   (lit "did_routes", JObj [(lit "0301051", JObj [(lit "config_agent_id", JStr (lit "momo"))])]);
   (lit "caller_routes",
     JObj [(lit "+2349040760651", JObj [(lit "config_agent_id", JStr (lit "leadway"));
                                        (lit "override_did_routes", JBool true)])])].

Definition example_attrs (from : String.string) : dict :=
  [(lit "sip.trunkID", JStr (lit "trunk")); (lit "sip.phoneNumber", JStr (lit from));
   (lit "sip.h.to", JStr (lit "<sip:0301051@aicc>"))].

Lemma participant_identity_scope_witness :
  ∃ id, participant_identity example_route
          (mkSip 3 (lit "sip_1") (example_attrs "09040760651")) (lit "room") 3 [] JNull = Ok id ∧
        id.[lit "config_agent_id"] = JStr (lit "leadway") ∧
        sp_kind (mkSip 3 (lit "sip_1") (example_attrs "09040760651")) = 3.
Proof.
  eexists. split; [vm_compute; reflexivity|]. split; [vm_compute; reflexivity|].
  eapply (participant_identity_scope example_route
    (mkSip 3 (lit "sip_1") (example_attrs "09040760651")) (lit "room") 3 [] JNull).
  vm_compute. reflexivity.
Defined.

(** The caller's own number can never select a called-number route: two calls
    whose attributes agree except on the caller ([From]) attributes get the same
    called-number route, whatever those attributes say. *)
Theorem did_route_ignores_caller (route : dict) (override : str) (low1 low2 : dict)
    (Hsame : hide_caller low1 = hide_caller low2) :
  did_route route (called_number override low1) low1 =
  did_route route (called_number override low2) low2 ∧
  (truthy (did_route route (called_number override low1) low1) = true →
   ∃ v, configured_match (jor route.[lit "did_routes"] (JObj [])) v
          (did_route route (called_number override low1) low1)).
Proof.
  assert (∀ low, called_number override low = called_number override (hide_caller low)) as Hc.
  { intros low. unfold called_number. rewrite first_attr_hide; [done|].
    apply callee_keys_not_caller. }
  assert (∀ low c, did_route route c low = did_route route c (hide_caller low)) as Hd.
  { intros low c. unfold did_route. by rewrite other_callee_values_hide. }
  split; [by rewrite (Hc low1), (Hc low2), (Hd low1), (Hd low2), Hsame|].
  unfold did_route. set (dm := jor route.[_] _). unfold jor.
  destruct (truthy (_lookup dm _)) eqn:E.
  - intros _. eexists. by apply lookup_configured.
  - destruct (truthy (called_number _ _)); [done|].
    intros (v & _ & H)%lookup_any_configured. by exists v.
Qed.

Lemma did_route_ignores_caller_witness :
  hide_caller (lowered (example_attrs "0301051")) = hide_caller (lowered (example_attrs "123")) ∧
  did_route example_route (called_number [] (lowered (example_attrs "0301051")))
    (lowered (example_attrs "0301051")) =
  did_route example_route (called_number [] (lowered (example_attrs "123")))
    (lowered (example_attrs "123")).
Proof.
  split; [vm_compute; reflexivity|].
  apply (did_route_ignores_caller example_route [] (lowered (example_attrs "0301051"))
           (lowered (example_attrs "123"))).
  vm_compute. reflexivity.
Defined.
