(* ===== verification/Passkey.v ===== *)
(** * Device-passkey confirmation: latency_lab/passkey.py

    [PasskeyFlow] is a machine (Prelude.v) whose events are the runs of its
    coroutines between two [await]s.  A suspended [start] or [receive] is a frame;
    [Pending] objects live in a heap because a suspended [receive] keeps its
    reference while [self.pending] is replaced, so the aliasing of the source is
    kept.  Environment inputs (the clock, the random correlation id, the decoded
    frame, the outcome of an awaited call) are arguments of the events. *)
From stdpp Require Import base list gmap strings.
From Stdlib Require Import ZArith Lia.
From S2P Require Import Prelude Pystr Json.

(** ** Options *)

Definition MAX_BYTES : Z := 14000.

Definition _OPTION_KEYS : list str :=
  [lit "challenge"; lit "rp"; lit "rpId"; lit "user"; lit "pubKeyCredParams";
   lit "excludeCredentials"; lit "allowCredentials"; lit "authenticatorSelection";
   lit "attestation"; lit "timeout"; lit "authenticatorAttachment"; lit "userVerification"].

Definition _AUTHENTICATOR_SELECTION_KEYS : list str :=
  [lit "residentKey"; lit "requireResidentKey"; lit "userVerification";
   lit "authenticatorAttachment"].

Definition FEATURE_BY_WORKFLOW : list (str * str) :=
  [(lit "transfer", lit "Transfer"); (lit "airtime", lit "Airtime")].

Definition keep_keys (keys : list str) (d : dict) : dict :=
  List.filter (λ kv, in_strs kv.1 keys) d.

Definition clean_selection (selection : dict) : dict :=
  let cleaned := keep_keys _AUTHENTICATOR_SELECTION_KEYS selection in
  let cleaned := dpop (lit "requireResidentKey") cleaned in
  let cleaned := dpop (lit "authenticatorAttachment") cleaned in
  let cleaned := dset (lit "residentKey") (JStr (lit "required")) cleaned in
  dset (lit "userVerification") (JStr (lit "required")) cleaned.

Definition trim_disabled (env : environ) : bool :=
  in_strs (py_lower (py_strip (getenv env (lit "ATTENTIVE_PASSKEY_TRIM_OPTIONS") (lit "1"))))
          [lit "0"; lit "false"; lit "no"; lit "off"].

Definition supported_options (env : environ) (options : json) : dict :=
  match options with
  | JObj d =>
      if trim_disabled env then d
      else
        let trimmed := keep_keys _OPTION_KEYS d in
        match trimmed.[lit "authenticatorSelection"] with
        | JObj selection =>
            dset (lit "authenticatorSelection") (JObj (clean_selection selection)) trimmed
        | _ => trimmed
        end
  | _ => []
  end.

(** ** Who may start a ceremony *)

(** [_canon] *)
Definition _canon (value : json) : str :=
  List.filter (λ c, negb (c =? 45)) (py_lower (py_strip (str_or_empty value))).

Definition canon_set (text : str) : list str :=
  map (λ x, _canon (JStr x))
      (List.filter (λ x, bool_decide (py_strip x ≠ [])) (py_split_char 44 text)).

Definition enabled (env : environ) (identity : dict) : bool :=
  in_strs (_canon identity.[lit "business_id"])
          (canon_set (getenv env (lit "ATTENTIVE_PASSKEY_REAL_BUSINESS_IDS") []))
  && in_strs (_canon identity.[lit "config_agent_id"])
          (canon_set (getenv env (lit "ATTENTIVE_PASSKEY_REAL_AGENT_IDS") [])).

Definition letter_or_space (c : Z) : Z := if (97 <=? c) && (c <=? 122) then c else 32.

Definition agreement_words (text : json) : list str :=
  py_split (map letter_or_space (py_lower (str_or_empty text))).

(** [re.search(r"\bw\b", s)] for a pattern and a text of lower-case words separated
    by single spaces. *)
Definition word_search (s w : str) : bool :=
  contains (lit " " ++ w ++ lit " ") (lit " " ++ s ++ lit " ").

Definition refusal_words : list str :=
  [lit "no"; lit "nope"; lit "not"; lit "dont"; lit "stop"; lit "wait"; lit "hold";
   lit "cancel"; lit "later"].

Definition agreement_phrases : list str :=
  [lit "yes"; lit "yeah"; lit "yep"; lit "sure"; lit "okay"; lit "ok"; lit "alright";
   lit "go ahead"; lit "start"; lit "begin"; lit "do it"; lit "run it"; lit "passkey";
   lit "pass key"; lit "continue"; lit "proceed"].

Definition start_requested (text : json) : bool :=
  let normalized := py_join (lit " ") (agreement_words text) in
  if bool_decide (normalized = []) then false
  else if existsb (word_search normalized) refusal_words then false
  else existsb (word_search normalized) agreement_phrases.

(** ** What the trace keeps of an app message *)

Definition nested_keys : list str :=
  [lit "reason"; lit "diagnostics"; lit "systemError"; lit "failure"; lit "error"; lit "fields"].

Definition named_scalar_keys : list str :=
  [lit "error"; lit "errorCode"; lit "code"; lit "message"; lit "domain"; lit "name";
   lit "status"; lit "debugDescription"; lit "userCancelled"; lit "cancelled"].

Definition add_nested (value detail : dict) (key : str) : dict :=
  match dget key value with
  | Some v => dset (if key =s lit "reason" then lit "app_reason" else key)
                   (JStr (take 1200 (dumps_compact v))) detail
  | None => detail
  end.

Definition add_named (value detail : dict) (key : str) : dict :=
  match dget key value with
  | Some v => if negb (dhas key detail) && is_scalar v
              then dset key (JStr (take 300 (py_str v))) detail else detail
  | None => detail
  end.

Definition add_other (detail : dict) (item : str * json) : dict :=
  if negb (item.1 =s lit "type") && negb (dhas item.1 detail) && is_scalar item.2
  then dset item.1 (JStr (take 200 (py_str item.2))) detail else detail.

(** ** State *)

Record Pending := mkPending {
  authentication_id : str;
  correlation_id : str;
  operation_id : str;
  workflow : str;
  feature : str;
  expires : Z;
  consumed : bool;
}.

Definition consume (p : Pending) : Pending :=
  mkPending (authentication_id p) (correlation_id p) (operation_id p) (workflow p)
    (feature p) (expires p) true.

Definition app_message_detail (kind : str) (pending : option Pending) (value : dict) : dict :=
  let matches key f :=
    JBool match pending with Some p => jeq_str value.[key] (f p) | None => false end in
  let detail :=
    [(lit "kind", JStr kind);
     (lit "authentication_id_match", matches (lit "authenticationId") authentication_id);
     (lit "correlation_id_match", matches (lit "correlationId") correlation_id);
     (lit "all_keys", JArr (map JStr (py_sorted (dkeys value))));
     (lit "types", JObj (map (λ kv, (kv.1, JStr (type_name kv.2))) value))] in
  let detail := foldl (add_nested value) detail nested_keys in
  let detail := foldl (add_named value) detail named_scalar_keys in
  foldl add_other detail value.

(** The suspension points: [start] awaiting the begin request or the ceremony's
    delivery, [receive] awaiting the execute request or the result's delivery. *)
Inductive frame : Type :=
| AwaitBegin (workflow operation_id feature : str)
| AwaitCeremonySent (authentication_id : str)
| AwaitExecute (ref : nat)
| AwaitResultSent (ref : nat) (accepted : bool) (reply : json).

Record flow := mkFlow {
  device_id : option str;
  heap : gmap nat Pending;
  pending : option nat;
  closed : bool;
  frames : gmap nat frame;
  next_ref : nat;
  next_frame : nat;
}.

Definition init : flow := mkFlow None ∅ None false ∅ 0 0.

Definition current (s : flow) : option Pending := pending s ≫= λ r, heap s !! r.

Definition set_device (d : option str) (s : flow) : flow :=
  mkFlow d (heap s) (pending s) (closed s) (frames s) (next_ref s) (next_frame s).
Definition set_pending (r : option nat) (s : flow) : flow :=
  mkFlow (device_id s) (heap s) r (closed s) (frames s) (next_ref s) (next_frame s).
Definition set_heap (h : gmap nat Pending) (s : flow) : flow :=
  mkFlow (device_id s) h (pending s) (closed s) (frames s) (next_ref s) (next_frame s).
Definition push_frame (f : frame) (s : flow) : flow :=
  mkFlow (device_id s) (heap s) (pending s) (closed s) (<[next_frame s := f]> (frames s))
    (next_ref s) (S (next_frame s)).
Definition drop_frame (i : nat) (s : flow) : flow :=
  mkFlow (device_id s) (heap s) (pending s) (closed s) (delete i (frames s))
    (next_ref s) (next_frame s).
Definition set_closed (s : flow) : flow :=
  mkFlow (device_id s) (heap s) None true (frames s) (next_ref s) (next_frame s).
(** [self.pending = Pending(..)] *)
Definition new_pending (p : Pending) (s : flow) : flow :=
  mkFlow (device_id s) (<[next_ref s := p]> (heap s)) (Some (next_ref s)) (closed s)
    (frames s) (S (next_ref s)) (next_frame s).
(** [pending.consumed = True] through the reference [r]. *)
Definition consume_ref (r : nat) (s : flow) : flow :=
  set_heap (alter consume r (heap s)) s.

(** The calls out of the flow.  The reference of the ceremony is recorded with the
    calls of phase B; it is not part of what is sent. *)
Inductive effect : Type :=
| PostBegin (feature device_imei display_name : str)
| SendCeremony (ref : nat) (authentication_id correlation_id : str) (action : Z)
    (feature mode : str) (expires_at : Z) (options : dict)
| PostExecute (ref : nat) (operation_id authentication_id : str) (proof : dict)
| SendResult (ref : nat) (authentication_id correlation_id : str) (accepted : bool)
| Outcome (ref : nat) (status text : str) (reply : json)
| Returned (result : dict)
| Recorded (event : str) (data : dict)
| Uncaught (e : pyexc).

Inductive event : Type :=
| Start (workflow operation_id customer_id display_name : str)
| BeginReply (frame : nat) (reply : exn json) (now wall : Z) (uuid : str)
| Sent (frame : nat) (result : exn unit)
| Receive (len : Z) (value : exn json) (now : Z)
| ExecuteReply (frame : nat) (reply : exn json)
| Close.

Definition status_message (status message : str) : dict :=
  [(lit "status", JStr status); (lit "message", JStr message)].

Definition could_not_start : dict :=
  status_message (lit "failed") (lit "I could not start the passkey confirmation right now.").

(** [_finish]: the ceremony's outcome, announced when a listener is configured. *)
Definition outcome_text (status message : str) : str :=
  if status =s lit "cancelled" then
    lit "No problem — nothing was approved, and we can keep talking."
  else if status =s lit "failed" then
    lit "The passkey confirmation did not go through. Nothing was approved."
  else if status =s lit "expired" then
    lit "That approval timed out, so nothing went through. Ask me to try again when you're ready."
  else if status =s lit "rejected" then
    (if bool_decide (message = []) then
       lit "The bank did not accept the approval, so nothing was sent." else message)
  else if status =s lit "verified" then
    (if bool_decide (message = []) then lit "Approved and sent." else message)
  else [].

Section flow.
Context (env : environ) (timeout : Z) (has_outcome has_trace : bool).

Definition record (event : str) (data : dict) : list effect :=
  if has_trace then [Recorded event data] else [].

Definition finish (ref : nat) (status : str) (reply : json) (s : flow) : flow * list effect :=
  let message := match reply with JObj d => str_or_empty d.[lit "message"] | _ => [] end in
  let text := outcome_text status message in
  (set_pending None s,
   record (lit "passkey_outcome")
     [(lit "status", JStr status); (lit "reply_message", JStr (take 200 message))] ++
   (if has_outcome && bool_decide (text ≠ [])
    then [Outcome ref status text (jor reply (JObj []))] else [])).

(** *** Phase A *)

Definition start (workflow operation_id customer_id display_name : str) (s : flow)
    : flow * list effect :=
  match dget workflow FEATURE_BY_WORKFLOW with
  | None =>
      (s, [Returned (status_message (lit "blocked")
                       (lit "That action cannot be confirmed with a passkey."))])
  | Some feature =>
      if closed s then
        (s, [Returned (status_message (lit "failed")
                         (lit "This call can no longer confirm actions."))])
      else if match current s with Some p => negb (consumed p) | None => false end then
        (s, [Returned (status_message (lit "busy")
                         (lit "A passkey confirmation is already waiting."))])
      else
        (push_frame (AwaitBegin workflow operation_id feature) s,
         [PostBegin feature (default (lit "unknown-device") (device_id s))
            (if bool_decide (display_name = []) then customer_id else display_name)])
  end.

(** The continuation of [start] after the begin request. *)
Definition begin_reply (workflow operation_id feature : str) (reply : exn json)
    (now wall : Z) (uuid : str) (s : flow) : flow * list effect :=
  match reply with
  | Raise CancelledError => (s, [Uncaught CancelledError])
  | Raise _ => (s, [Returned could_not_start])
  | Ok (JObj d) =>
      if negb (jeq_str d.[lit "status"] (lit "ok")) then (s, [Returned could_not_start])
      else
        match jor d.[lit "data"] (JObj []) with
        | JObj data =>
            let authentication_id := str_strip data.[lit "authentication_id"] in
            let options := data.[lit "options"] in
            if bool_decide (authentication_id = []) || negb (is_dict options)
            then (s, [Returned could_not_start])
            else
              let ref := next_ref s in
              let p := mkPending authentication_id (lit "ceremony-" ++ uuid) operation_id
                         workflow feature (now + timeout) false in
              let s := new_pending p s in
              match py_int (jor data.[lit "action"] (JInt 0)) with
              | Raise e => (s, [Uncaught e])
              | Ok action =>
                  (push_frame (AwaitCeremonySent authentication_id) s,
                   [SendCeremony ref authentication_id (correlation_id p) action feature
                      (py_str (jor data.[lit "ceremony_mode"] (JStr (lit "authenticate"))))
                      (wall + timeout) (supported_options env options)])
              end
        | _ => (s, [Uncaught AttributeError])
        end
  | Ok _ => (s, [Returned could_not_start])
  end.

Definition awaiting (now : Z) (s : flow) : bool :=
  match current s with Some p => negb (consumed p) && (now <? expires p) | None => false end.

(** *** Phase B *)

(** The part of [receive] from the comparison of the identifiers on. *)
Definition receive_ceremony (value : dict) (now : Z) (s : flow) : flow * list effect :=
  match pending s, current s with
  | Some r, Some p =>
      if consumed p
         || negb (jeq_str value.[lit "authenticationId"] (authentication_id p))
         || negb (jeq_str value.[lit "correlationId"] (correlation_id p))
      then (s, [])
      else
        match in_str_set value.[lit "type"] [lit "fido2_cancelled"; lit "fido2_failed"] with
        | Raise e => (s, [Uncaught e])
        | Ok true =>
            finish r (if jeq_str value.[lit "type"] (lit "fido2_cancelled")
                      then lit "cancelled" else lit "failed") JNull (consume_ref r s)
        | Ok false =>
            if negb (jeq_str value.[lit "type"] (lit "fido2_proof")) then (s, [])
            else
              match value.[lit "proof"] with
              | JObj ((_ :: _) as proof) =>
                  let s := consume_ref r s in
                  if expires p <=? now then finish r (lit "expired") JNull s
                  else
                    (push_frame (AwaitExecute r) s,
                     [PostExecute r (operation_id p) (authentication_id p) proof])
              | _ => (s, [])
              end
        end
  | _, _ => (s, [])
  end.

Definition receive (len : Z) (value : exn json) (now : Z) (s : flow) : flow * list effect :=
  if closed s || (MAX_BYTES <? len) then (s, [])
  else
    match value with
    | Ok (JObj value) =>
        if jeq_str value.[lit "type"] (lit "session_context") then
          let device := match value.[lit "deviceImei"] with
                        | JStr d => if bool_decide (py_strip d = []) then None else Some d
                        | _ => None
                        end in
          (set_device device s,
           record (lit "passkey_session_context")
             [(lit "device_present", JBool (bool_decide (is_Some device)))])
        else
          match value.[lit "type"] with
          | JStr kind =>
              if starts_with (lit "fido2_") kind then
                let detail := app_message_detail kind (current s) value in
                (* the keyword arguments of [_record(self, event, **data)] *)
                if dhas (lit "event") detail || dhas (lit "self") detail
                then (s, [Uncaught TypeError])
                else
                  let '(s', o) := receive_ceremony value now s in
                  (s', record (lit "passkey_app_message") detail ++ o)
              else receive_ceremony value now s
          | _ => receive_ceremony value now s
          end
    | _ => (s, [])
    end.

Definition accepted_statuses : list str :=
  [lit "ok"; lit "success"; lit "completed"; lit "pending"; lit "unknown"].

(** The continuation of [receive] after the execute request. *)
Definition execute_reply (ref : nat) (reply : exn json) (s : flow) : flow * list effect :=
  match reply with
  | Raise CancelledError => (s, [Uncaught CancelledError])
  | _ =>
      let reply := match reply with Ok v => v | Raise _ => JNull end in
      let accepted := match reply with
                      | JObj d => in_str_set d.[lit "status"] accepted_statuses
                      | _ => Ok false
                      end in
      match accepted, heap s !! ref with
      | Raise e, _ => (s, [Uncaught e])
      | Ok accepted, Some p =>
          (push_frame (AwaitResultSent ref accepted reply) s,
           [SendResult ref (authentication_id p) (correlation_id p) accepted])
      | Ok _, None => (s, [])
      end
  end.

Definition sent (f : frame) (result : exn unit) (s : flow) : option (flow * list effect) :=
  match f, result with
  | AwaitCeremonySent _, Raise e | AwaitResultSent _ _ _, Raise e => Some (s, [Uncaught e])
  | AwaitCeremonySent authentication_id, Ok _ =>
      Some (s, [Returned
        [(lit "status", JStr (lit "ceremony_started"));
         (lit "authentication_id", JStr authentication_id);
         (lit "message", JStr (lit "I've sent the approval to your app. Please confirm it with your Face ID, then I'll finish it."))]])
  | AwaitResultSent ref accepted reply, Ok _ =>
      Some (finish ref (if accepted then lit "verified" else lit "rejected") reply s)
  | _, _ => None
  end.

Definition step (s : flow) (e : event) : option (flow * list effect) :=
  match e with
  | Start workflow operation_id customer_id display_name =>
      Some (start workflow operation_id customer_id display_name s)
  | BeginReply i reply now wall uuid =>
      match frames s !! i with
      | Some (AwaitBegin workflow operation_id feature) =>
          Some (begin_reply workflow operation_id feature reply now wall uuid (drop_frame i s))
      | _ => None
      end
  | Sent i result =>
      match frames s !! i with
      | Some f => sent f result (drop_frame i s)
      | None => None
      end
  | Receive len value now => Some (receive len value now s)
  | ExecuteReply i reply =>
      match frames s !! i with
      | Some (AwaitExecute ref) => Some (execute_reply ref reply (drop_frame i s))
      | _ => None
      end
  | Close => Some (set_closed s, [])
  end.
End flow.

#[global] Arguments app_message_detail : simpl never.
#[global] Arguments outcome_text : simpl never.
#[global] Arguments jeq_str : simpl never.
#[global] Arguments in_str_set : simpl never.
#[global] Arguments supported_options : simpl never.

(** ** The heap only grows, and a consumed ceremony stays consumed *)

Definition same_ceremony (p q : Pending) : Prop :=
  authentication_id q = authentication_id p ∧ correlation_id q = correlation_id p ∧
  operation_id q = operation_id p ∧ expires q = expires p ∧
  (consumed p = true → consumed q = true).

Definition heap_le (h h' : gmap nat Pending) : Prop :=
  ∀ r p, h !! r = Some p → ∃ q, h' !! r = Some q ∧ same_ceremony p q.

#[export] Instance same_ceremony_preorder : PreOrder same_ceremony.
Proof. split; [done|]. intros p q r. unfold same_ceremony. intuition congruence. Qed.

#[export] Instance heap_le_preorder : PreOrder heap_le.
Proof.
  split.
  - intros h r p Hp. by exists p.
  - intros h1 h2 h3 H12 H23 r p (q & Hq & Hpq)%H12.
    apply H23 in Hq as (q' & Hq' & Hqq'). exists q'. split; [done|]. by transitivity q.
Qed.

Lemma heap_le_insert h r p : h !! r = None → heap_le h (<[r:=p]> h).
Proof.
  intros Hr r' p' Hp'. exists p'. split; [|done].
  rewrite lookup_insert_ne; [done|]. by intros ->; rewrite Hr in Hp'.
Qed.

Lemma heap_le_consume h r : heap_le h (alter consume r h).
Proof.
  intros r' p' Hp'. destruct (decide (r = r')) as [->|Hne].
  - exists (consume p'). rewrite lookup_alter_eq, Hp'. done.
  - exists p'. by rewrite lookup_alter_ne.
Qed.

#[export] Hint Resolve heap_le_insert heap_le_consume : core.

(** ** Invariant of executions *)

Definition exec_refs (outs : list effect) : list nat :=
  omap (λ o, match o with PostExecute r _ _ _ => Some r | _ => None end) outs.

Definition executed (outs : list effect) (r : nat) : Prop := r ∈ exec_refs outs.

Definition accepted_reply (reply : json) : Prop :=
  ∃ d st, reply = JObj d ∧ d.[lit "status"] = JStr st ∧ st ∈ accepted_statuses.

Lemma exec_refs_app o1 o2 : exec_refs (o1 ++ o2) = exec_refs o1 ++ exec_refs o2.
Proof. apply omap_app. Qed.

Lemma executed_app o1 o2 r : executed (o1 ++ o2) r ↔ executed o1 r ∨ executed o2 r.
Proof. unfold executed. rewrite exec_refs_app. apply elem_of_app. Qed.

Lemma exec_refs_elem outs r op auth proof :
  PostExecute r op auth proof ∈ outs → r ∈ exec_refs outs.
Proof. intros H. apply list_elem_of_omap. by exists (PostExecute r op auth proof). Qed.

(** A suspended frame of phase B belongs to an executed ceremony. *)
Definition frame_ok (outs : list effect) (f : frame) : Prop :=
  match f with
  | AwaitBegin _ _ _ | AwaitCeremonySent _ => True
  | AwaitExecute r => executed outs r
  | AwaitResultSent r acc reply => executed outs r ∧ (acc = true → accepted_reply reply)
  end.

(** The effects a history may contain, given the heap. *)
Definition effect_ok (h : gmap nat Pending) (outs : list effect) (o : effect) : Prop :=
  match o with
  | PostExecute r op auth _ =>
      ∃ p, h !! r = Some p ∧ consumed p = true ∧ operation_id p = op ∧ authentication_id p = auth
  | Outcome r status _ reply =>
      status = lit "verified" → executed outs r ∧ accepted_reply reply
  | _ => True
  end.

Record inv (s : flow) (outs : list effect) : Prop := {
  inv_fresh : ∀ r, (next_ref s ≤ r)%nat → heap s !! r = None;
  inv_frames : ∀ i f, frames s !! i = Some f → frame_ok outs f;
  inv_effects : ∀ o, o ∈ outs → effect_ok (heap s) outs o;
  inv_nodup : NoDup (exec_refs outs);
}.

Lemma frame_ok_mono outs o f : frame_ok outs f → frame_ok (outs ++ o) f.
Proof. destruct f; simpl; try done; rewrite executed_app; tauto. Qed.

Lemma effect_ok_mono h h' outs o x :
  heap_le h h' → effect_ok h outs x → effect_ok h' (outs ++ o) x.
Proof.
  intros Hle. destruct x; simpl; try done.
  - intros (p & Hp & Hc & <- & <-). apply Hle in Hp as (q & Hq & Hs).
    exists q. unfold same_ceremony in Hs. intuition.
  - rewrite executed_app. naive_solver.
Qed.

(** Preservation, from what one step contributes. *)
Lemma inv_extend s outs s' o :
  inv s outs →
  heap_le (heap s) (heap s') →
  (∀ r, (next_ref s' ≤ r)%nat → heap s' !! r = None) →
  (∀ i f, frames s' !! i = Some f → frames s !! i = Some f ∨ frame_ok (outs ++ o) f) →
  (∀ x, x ∈ o → effect_ok (heap s') (outs ++ o) x) →
  NoDup (exec_refs o) → (∀ r, r ∈ exec_refs o → r ∉ exec_refs outs) →
  inv s' (outs ++ o).
Proof.
  intros [Hf Hfr He Hn] Hle Hf' Hfr' He' Hn' Hdis. split.
  - done.
  - intros i f [Hi|Hok]%Hfr'; [|done]. by eapply frame_ok_mono, Hfr.
  - intros x [Hx|Hx]%elem_of_app; [|by apply He']. by eapply effect_ok_mono, He.
  - rewrite exec_refs_app. apply NoDup_app. naive_solver.
Qed.

(** Steps without an execute call or a verified outcome. *)
Definition quiet_effect (o : effect) : Prop :=
  match o with
  | PostExecute _ _ _ _ => False
  | Outcome _ status _ _ => status ≠ lit "verified"
  | _ => True
  end.

Lemma quiet_exec_refs o : Forall quiet_effect o → exec_refs o = [].
Proof.
  induction 1 as [|x o Hx _ IH]; [done|]. unfold exec_refs in *. simpl.
  destruct x; simpl in *; done.
Qed.

Lemma inv_quiet s outs s' o :
  inv s outs →
  heap_le (heap s) (heap s') →
  (∀ r, (next_ref s' ≤ r)%nat → heap s' !! r = None) →
  (∀ i f, frames s' !! i = Some f → frames s !! i = Some f ∨ frame_ok outs f) →
  Forall quiet_effect o →
  inv s' (outs ++ o).
Proof.
  intros Hi Hle Hf Hfr Hq. eapply inv_extend; eauto.
  - intros i f [?|?]%Hfr; [by left|right; by apply frame_ok_mono].
  - intros x Hx. rewrite Forall_forall in Hq. specialize (Hq x Hx).
    by destruct x; simpl in *.
  - rewrite quiet_exec_refs by done. constructor.
  - rewrite quiet_exec_refs by done. intros r Hr. by apply not_elem_of_nil in Hr.
Qed.

Lemma push_frame_lookup f s i g :
  frames (push_frame f s) !! i = Some g → frames s !! i = Some g ∨ g = f.
Proof.
  simpl. destruct (decide (i = next_frame s)) as [->|Hne].
  - rewrite lookup_insert_eq. intros [= ->]. by right.
  - rewrite lookup_insert_ne by done. by left.
Qed.

Lemma drop_frame_lookup j s i g :
  frames (drop_frame j s) !! i = Some g → frames s !! i = Some g.
Proof. simpl. by intros [_ ?]%lookup_delete_Some. Qed.

Lemma inv_drop_frame i s outs : inv s outs → inv (drop_frame i s) outs.
Proof.
  intros [H1 H2 H3 H4]. split; try done. intros j f Hj%drop_frame_lookup. by eapply H2.
Qed.

(** Same heap and frames: nothing but quiet effects. *)
Lemma inv_same s outs s' o :
  inv s outs → heap s' = heap s → next_ref s' = next_ref s → frames s' = frames s →
  Forall quiet_effect o → inv s' (outs ++ o).
Proof.
  intros Hi Hh Hn Hf Ho. apply (inv_quiet s); try done.
  - by rewrite Hh.
  - rewrite Hh, Hn. apply Hi.
  - rewrite Hf. by left.
Qed.

Lemma inv_nil s outs : inv s outs → inv s (outs ++ []).
Proof. by rewrite app_nil_r. Qed.

Ltac quiet := solve [repeat constructor; simpl; auto].

Section inv.
Context (env : environ) (timeout : Z) (has_outcome has_trace : bool).

Lemma record_quiet ev d : Forall quiet_effect (record has_trace ev d).
Proof. unfold record. destruct has_trace; quiet. Qed.

Lemma finish_quiet r status reply s s' o :
  finish has_outcome has_trace r status reply s = (s', o) → status ≠ lit "verified" →
  Forall quiet_effect o.
Proof.
  unfold finish. intros [= <- <-] Hs. apply Forall_app. split; [apply record_quiet|].
  case_goal; quiet.
Qed.

Lemma finish_state r status reply s s' o :
  finish has_outcome has_trace r status reply s = (s', o) → s' = set_pending None s.
Proof. unfold finish. congruence. Qed.

Lemma inv_finish s outs r status reply s' o :
  inv s outs → finish has_outcome has_trace r status reply s = (s', o) →
  (status = lit "verified" → executed outs r ∧ accepted_reply (jor reply (JObj []))) →
  inv s' (outs ++ o).
Proof.
  intros Hi Hf Hv. destruct (decide (status = lit "verified")) as [Heq|Hne].
  - apply (inv_extend s); try done.
    + rewrite (finish_state _ _ _ _ _ _ Hf). reflexivity.
    + rewrite (finish_state _ _ _ _ _ _ Hf). apply Hi.
    + rewrite (finish_state _ _ _ _ _ _ Hf). by left.
    + unfold finish in Hf. simplify_eq. intros x [Hx|Hx]%elem_of_app.
      * unfold record in Hx. destruct has_trace; [|by apply not_elem_of_nil in Hx].
        by apply list_elem_of_singleton in Hx as ->.
      * case_in Hx; [|by apply not_elem_of_nil in Hx].
        apply list_elem_of_singleton in Hx as ->. intros _.
        rewrite executed_app. naive_solver.
    + unfold finish in Hf. simplify_eq. rewrite exec_refs_app. unfold record.
      destruct has_trace, (has_outcome && _); constructor.
    + unfold finish in Hf. simplify_eq. rewrite exec_refs_app. unfold record.
      intros x Hx. destruct has_trace, (has_outcome && _); by apply not_elem_of_nil in Hx.
  - pose proof (finish_quiet _ _ _ _ _ _ Hf Hne). apply finish_state in Hf as ->.
    by apply (inv_same s).
Qed.

Lemma inv_start wf op c d s outs s' o :
  inv s outs → start wf op c d s = (s', o) → inv s' (outs ++ o).
Proof.
  intros Hi. unfold start. repeat case_goal; intros [= <- <-];
    try (apply (inv_same s); [done..|quiet]).
  all: apply (inv_quiet s); [done|done|apply Hi| |quiet].
  all: intros i g [?| ->]%push_frame_lookup; [by left|by right].
Qed.

Lemma inv_begin_reply wf op ft reply now wall uuid s outs s' o :
  inv s outs → begin_reply env timeout wf op ft reply now wall uuid s = (s', o) →
  inv s' (outs ++ o).
Proof.
  intros Hi. unfold begin_reply. repeat case_goal; intros [= <- <-];
    try (apply (inv_same s); [done..|quiet]).
  all: apply (inv_quiet s); [done| | | |quiet]; simpl.
  all: try (apply heap_le_insert, Hi; done).
  all: try (intros r Hr; rewrite lookup_insert_ne by lia; apply Hi; lia).
  - intros i g Hg. destruct (decide (i = next_frame s)) as [->|Hne].
    + rewrite lookup_insert_eq in Hg. simplify_eq. by right.
    + rewrite lookup_insert_ne in Hg by done. by left.
  - by left.
Qed.

Lemma inv_consume r s outs : inv s outs → inv (consume_ref r s) outs.
Proof.
  intros Hi. rewrite <-(app_nil_r outs). apply (inv_quiet s); [done| | |by left|constructor].
  - apply heap_le_consume.
  - intros k Hk. simpl. apply lookup_alter_None. by apply Hi.
Qed.

Lemma inv_receive_ceremony value now s outs s' o :
  inv s outs → receive_ceremony has_outcome has_trace value now s = (s', o) →
  inv s' (outs ++ o).
Proof.
  intros Hi. unfold receive_ceremony, current.
  destruct (pending s) as [r|]; [|intros [= <- <-]; by apply inv_nil]. simpl.
  destruct (heap s !! r) as [p|] eqn:Hp; [|intros [= <- <-]; by apply inv_nil].
  destruct (consumed p) eqn:Hc; simpl; [intros [= <- <-]; by apply inv_nil|].
  case_goal; [intros [= <- <-]; by apply inv_nil|].
  destruct (in_str_set _ _) as [[]|e]; [| |intros [= <- <-]; apply (inv_same s); [done..|quiet]].
  { intros Hf. eapply inv_finish; [by apply (inv_consume r)|done|]. case_goal; done. }
  destruct (jeq_str value.[lit "type"] (lit "fido2_proof")); cbn [negb];
    [|intros [= <- <-]; by apply inv_nil].
  destruct (value.[lit "proof"]) as [| | | | | |[|kv proof]];
    try (intros [= <- <-]; by apply inv_nil).
  destruct (expires p <=? now).
  { intros Hf. eapply inv_finish; [by apply (inv_consume r)|done|done]. }
  intros [= <- <-].
  assert (heap (consume_ref r s) !! r = Some (consume p)) as Hr.
  { simpl. by rewrite lookup_alter_eq, Hp. }
  assert (r ∉ exec_refs outs) as Hno.
  { intros (x & Hx & Hr')%list_elem_of_omap. destruct x; simplify_eq.
    apply (inv_effects _ _ Hi) in Hx as (q & Hq & Hcq & _). congruence. }
  apply (inv_extend s); [done|apply heap_le_consume| | | | |].
  - intros k Hk. simpl. apply lookup_alter_None. by apply Hi.
  - intros i g [?| ->]%push_frame_lookup; [by left|right]. simpl.
    rewrite executed_app. right. by left.
  - intros x ->%list_elem_of_singleton. by exists (consume p).
  - apply NoDup_singleton.
  - by intros k ->%list_elem_of_singleton.
Qed.

Lemma inv_prepend s outs s' o q :
  inv s' (outs ++ o) → Forall quiet_effect q → inv s outs → inv s' (outs ++ q ++ o).
Proof.
  intros [H1 H2 H3 H4] Hq Hi.
  assert (exec_refs (outs ++ q ++ o) = exec_refs (outs ++ o)) as He.
  { rewrite !exec_refs_app, (quiet_exec_refs q) by done. done. }
  assert (∀ r, executed (outs ++ q ++ o) r ↔ executed (outs ++ o) r) as Hex.
  { intros r. unfold executed. by rewrite He. }
  split; [done| | |by rewrite He].
  - intros i f Hf. specialize (H2 i f Hf). destruct f; simpl in *; rewrite ?Hex; done.
  - intros x Hx. rewrite !elem_of_app in Hx.
    assert (x ∈ q ∨ x ∈ outs ++ o) as [Hx'|Hx'] by (rewrite elem_of_app; tauto).
    + rewrite Forall_forall in Hq. specialize (Hq x Hx'). by destruct x; simpl in *.
    + specialize (H3 x Hx'). destruct x; simpl in *; rewrite ?Hex; done.
Qed.

Lemma inv_receive len value now s outs s' o :
  inv s outs → receive has_outcome has_trace len value now s = (s', o) → inv s' (outs ++ o).
Proof.
  intros Hi. unfold receive.
  destruct (closed s || _); [intros [= <- <-]; by apply inv_nil|].
  destruct value as [[| | | | | |d]|]; try (intros [= <- <-]; by apply inv_nil).
  destruct (jeq_str d.[lit "type"] (lit "session_context")).
  { intros [= <- <-]. apply (inv_same s); [done..|apply record_quiet]. }
  destruct (d.[lit "type"]) as [| | | |kind| |]; try by apply inv_receive_ceremony.
  destruct (starts_with (lit "fido2_") kind); [|by apply inv_receive_ceremony].
  set (detail := app_message_detail _ _ _). clearbody detail.
  destruct (dhas (lit "event") detail || dhas (lit "self") detail).
  { intros [= <- <-]. apply (inv_same s); [done..|quiet]. }
  destruct (receive_ceremony _ _ _ _ _) as [s1 o1] eqn:Hr. intros [= <- <-].
  apply inv_prepend with (s := s); [by eapply inv_receive_ceremony|apply record_quiet|done].
Qed.

Lemma in_str_set_true v l : in_str_set v l = Ok true → ∃ s, v = JStr s ∧ s ∈ l.
Proof.
  unfold in_str_set. destruct v; try done. intros [= H]. exists s.
  by apply in_strs_true in H.
Qed.

Lemma inv_execute_reply r reply s outs s' o :
  inv s outs → executed outs r → execute_reply r reply s = (s', o) → inv s' (outs ++ o).
Proof.
  intros Hi He. unfold execute_reply.
  set (v := match reply with Ok v => v | Raise _ => JNull end).
  set (acc := match v with JObj d => _ | _ => _ end).
  assert (acc = Ok true → accepted_reply v) as Hacc.
  { unfold acc. destruct v; try done. intros (st & Hst & Hin)%in_str_set_true.
    by exists kvs, st. }
  clearbody acc.
  assert (∀ s' o,
    match acc, heap s !! r with
    | Raise e, _ => (s, [Uncaught e])
    | Ok accepted, Some p =>
        (push_frame (AwaitResultSent r accepted v) s,
         [SendResult r (authentication_id p) (correlation_id p) accepted])
    | Ok _, None => (s, [])
    end = (s', o) → inv s' (outs ++ o)) as Hmain.
  { intros s1 o1. destruct acc as [a|e]; [destruct (heap s !! r)|]; intros [= <- <-].
    - apply (inv_quiet s); [done|done|apply Hi| |quiet].
      intros i g [?| ->]%push_frame_lookup; [by left|right]. simpl. split; [done|].
      intros ->. auto.
    - by apply inv_nil.
    - apply (inv_same s); [done..|quiet]. }
  destruct reply as [j|[]]; try apply Hmain.
  intros [= <- <-]. apply (inv_same s); [done..|quiet].
Qed.

Lemma accepted_reply_jor reply : accepted_reply reply → accepted_reply (jor reply (JObj [])).
Proof. intros (d & st & -> & Hd & Hst). destruct d; [done|]. by exists (p :: d), st. Qed.

Lemma inv_sent f result s outs s' o :
  inv s outs → frame_ok outs f → sent has_outcome has_trace f result s = Some (s', o) →
  inv s' (outs ++ o).
Proof.
  intros Hi Hf. unfold sent.
  destruct f, result; try done;
    try (intros [= <- <-]; apply (inv_same s); [done..|quiet]).
  intros Hfin%(inj Some). eapply inv_finish; [done|exact Hfin|].
  destruct accepted; [|done]. intros _. destruct Hf as [He Ha].
  split; [done|]. by apply accepted_reply_jor, Ha.
Qed.

Lemma step_inv s outs e s' o :
  inv s outs → step env timeout has_outcome has_trace s e = Some (s', o) →
  inv s' (outs ++ o).
Proof.
  intros Hi. destruct e; simpl; intros Hs.
  - simplify_eq. by eapply inv_start.
  - destruct (frames s !! frame0) as [[]|] eqn:Hf; simplify_eq.
    eapply inv_begin_reply; [by apply inv_drop_frame|done].
  - destruct (frames s !! frame0) as [f|] eqn:Hf; [|done].
    eapply inv_sent; [by apply inv_drop_frame| |done]. by eapply inv_frames.
  - simplify_eq. by eapply inv_receive.
  - destruct (frames s !! frame0) as [[]|] eqn:Hf; simplify_eq.
    eapply inv_execute_reply; [by apply inv_drop_frame| |done].
    by apply (inv_frames _ _ Hi) in Hf.
  - simplify_eq. apply (inv_same s); [done..|constructor].
Qed.

Lemma inv_init : inv init [].
Proof.
  split; [done|done| |constructor]. intros o Ho. by apply not_elem_of_nil in Ho.
Qed.

Lemma run_flow_inv es s outs :
  run (step env timeout has_outcome has_trace) init es = Some (s, outs) → inv s outs.
Proof.
  apply (run_inv _ inv); [apply inv_init|]. intros s1 o1 e s2 o2. apply step_inv.
Qed.
End inv.

(** ** Properties *)

(** C3: over every interleaving of the flow's coroutines, the execute endpoint is
    called at most once for each ceremony, and only with the operation and
    authentication ids of that ceremony, which is consumed from then on. *)
Theorem execute_at_most_once (env : environ) (timeout : Z) (has_outcome has_trace : bool)
    (es : list event) (s : flow) (outs : list effect)
    (Hrun : run (step env timeout has_outcome has_trace) init es = Some (s, outs)) :
  NoDup (exec_refs outs) ∧
  (∀ r op auth proof, PostExecute r op auth proof ∈ outs →
     ∃ p, heap s !! r = Some p ∧ consumed p = true ∧
          operation_id p = op ∧ authentication_id p = auth).
Proof.
  apply run_flow_inv in Hrun as [_ _ He Hn]. split; [done|].
  intros r op auth proof Hin. apply (He _ Hin).
Qed.

(** C24: a ceremony is reported as verified only after the execute endpoint was
    called for it and answered with an accepting status: neither the caller's
    words, nor the model, nor the device alone can approve a payment. *)
Theorem verified_only_after_accepted_execute (env : environ) (timeout : Z)
    (has_outcome has_trace : bool) (es : list event) (s : flow) (outs : list effect)
    (Hrun : run (step env timeout has_outcome has_trace) init es = Some (s, outs)) :
  ∀ r text reply, Outcome r (lit "verified") text reply ∈ outs →
    (∃ op auth proof, PostExecute r op auth proof ∈ outs) ∧ accepted_reply reply.
Proof.
  apply run_flow_inv in Hrun as [_ _ He _]. intros r text reply Hin.
  destruct (He _ Hin eq_refl) as [(x & Hx & Hr)%list_elem_of_omap Ha].
  split; [|done]. destruct x; simplify_eq. eauto.
Qed.

Section guards.
Context (env : environ) (timeout : Z) (has_outcome has_trace : bool).

Lemma no_execute_in_finish ref status reply s s' o r op auth proof :
  finish has_outcome has_trace ref status reply s = (s', o) → PostExecute r op auth proof ∉ o.
Proof.
  unfold finish, record. intros [= <- <-].
  destruct has_trace, (has_outcome && _); simpl; rewrite ?not_elem_of_cons;
    split_and?; try done; apply not_elem_of_nil.
Qed.

Lemma execute_guard_ceremony value now s s' o r op auth proof :
  receive_ceremony has_outcome has_trace value now s = (s', o) →
  PostExecute r op auth proof ∈ o →
  ∃ p, pending s = Some r ∧ heap s !! r = Some p ∧ consumed p = false ∧ now < expires p ∧
    value.[lit "authenticationId"] = JStr (authentication_id p) ∧
    value.[lit "correlationId"] = JStr (correlation_id p) ∧
    value.[lit "type"] = JStr (lit "fido2_proof") ∧ value.[lit "proof"] = JObj proof ∧
    op = operation_id p ∧ auth = authentication_id p.
Proof.
  assert (∀ v t, jeq_str v t = true → v = JStr t) as Hj.
  { intros v t. unfold jeq_str. destruct v; try done. by intros ->%str_eqb_true. }
  intros Hr Hin. unfold receive_ceremony, current in Hr.
  destruct (pending s) as [r'|] eqn:Hpend; [|by simplify_eq; apply not_elem_of_nil in Hin].
  simpl in Hr.
  destruct (heap s !! r') as [p|] eqn:Hp; [|by simplify_eq; apply not_elem_of_nil in Hin].
  destruct (consumed p || _ || _) eqn:Hm; [by simplify_eq; apply not_elem_of_nil in Hin|].
  rewrite !orb_false_iff, !negb_false_iff in Hm. destruct Hm as [[Hc Ha] Hco].
  destruct (in_str_set _ _) as [[]|e].
  { by apply (no_execute_in_finish _ _ _ _ _ _ _ _ _ _ Hr) in Hin. }
  2: { simplify_eq. by apply list_elem_of_singleton in Hin. }
  destruct (jeq_str value.[lit "type"] (lit "fido2_proof")) eqn:Ht; cbn [negb] in Hr;
    [|by simplify_eq; apply not_elem_of_nil in Hin].
  destruct (value.[lit "proof"]) as [| | | | | |[|kv pr]] eqn:Hpr;
    try (by simplify_eq; apply not_elem_of_nil in Hin).
  destruct (expires p <=? now) eqn:Hexp.
  { by apply (no_execute_in_finish _ _ _ _ _ _ _ _ _ _ Hr) in Hin. }
  simplify_eq. apply list_elem_of_singleton in Hin. simplify_eq.
  exists p. apply Z.leb_gt in Hexp. auto 12.
Qed.

Lemma receive_decompose len value now s s' o r op auth proof :
  receive has_outcome has_trace len value now s = (s', o) → PostExecute r op auth proof ∈ o →
  closed s = false ∧ len ≤ MAX_BYTES ∧
  ∃ d s1 o1, value = Ok (JObj d) ∧ receive_ceremony has_outcome has_trace d now s = (s1, o1) ∧
    PostExecute r op auth proof ∈ o1.
Proof.
  assert (∀ ev d, PostExecute r op auth proof ∉ record has_trace ev d) as Hrec.
  { intros ev d. unfold record. destruct has_trace; [|apply not_elem_of_nil].
    by intros H%list_elem_of_singleton. }
  unfold receive. intros Hr Hin.
  destruct (closed s || _) eqn:Hc; [by simplify_eq; apply not_elem_of_nil in Hin|].
  apply orb_false_iff in Hc as [Hc Hlen%Z.ltb_ge]. do 2 (split; [done|]).
  destruct value as [[| | | | | |d]|]; try (by simplify_eq; apply not_elem_of_nil in Hin).
  exists d. destruct (jeq_str d.[lit "type"] (lit "session_context")).
  { simplify_eq. by apply Hrec in Hin. }
  destruct (d.[lit "type"]) as [| | | |kind| |]; try by exists s', o.
  destruct (starts_with (lit "fido2_") kind); [|by exists s', o].
  set (detail := app_message_detail _ _ _) in *. clearbody detail.
  destruct (dhas (lit "event") detail || dhas (lit "self") detail).
  { simplify_eq. by apply list_elem_of_singleton in Hin. }
  destruct (receive_ceremony _ _ _ _ _) as [s1 o1] eqn:Hcer. simplify_eq.
  apply elem_of_app in Hin as [Hin|Hin]; [by apply Hrec in Hin|]. by exists s', o1.
Qed.
End guards.

(** The step that calls the execute endpoint is the receipt of a proof message
    within the size bound, on an open flow, for the current ceremony: not yet
    consumed, not expired, with both of its identifiers, carrying the non-empty
    proof that is forwarded; no other event of the flow calls it. *)
Theorem execute_only_on_fresh_proof (env : environ) (timeout : Z) (has_outcome has_trace : bool)
    (s s' : flow) (e : event) (o : list effect) (r : nat) (op auth : str) (proof : dict)
    (Hstep : step env timeout has_outcome has_trace s e = Some (s', o))
    (Hexec : PostExecute r op auth proof ∈ o) :
  ∃ len value now p, e = Receive len (Ok (JObj value)) now ∧
    closed s = false ∧ len ≤ MAX_BYTES ∧
    pending s = Some r ∧ heap s !! r = Some p ∧ consumed p = false ∧ now < expires p ∧
    value.[lit "authenticationId"] = JStr (authentication_id p) ∧
    value.[lit "correlationId"] = JStr (correlation_id p) ∧
    value.[lit "type"] = JStr (lit "fido2_proof") ∧ value.[lit "proof"] = JObj proof ∧
    op = operation_id p ∧ auth = authentication_id p.
Proof.
  destruct e; simpl in Hstep.
  - exfalso. simplify_eq. unfold start in Hstep.
    repeat case_in Hstep; rewrite ?list_elem_of_singleton in Hexec; done.
  - exfalso. destruct (frames s !! _) as [[]|]; simplify_eq.
    unfold begin_reply in Hstep.
    repeat case_in Hstep; rewrite ?list_elem_of_singleton in Hexec; done.
  - exfalso. destruct (frames s !! _) as [f|]; [|done]. unfold sent in Hstep.
    destruct f, result; simplify_eq; try (by apply list_elem_of_singleton in Hexec).
    revert Hexec. eapply no_execute_in_finish. done.
  - simplify_eq. apply (receive_decompose _ _ _ _ _ _ _ _ _ _ _ _ Hstep) in Hexec
      as (Hc & Hl & d & s1 & o1 & -> & Hcer & Hin).
    destruct (execute_guard_ceremony _ _ _ _ _ _ _ _ _ _ _ Hcer Hin) as (p & Hp).
    by exists len, d, now, p.
  - exfalso. destruct (frames s !! _) as [[]|]; simplify_eq. unfold execute_reply in Hstep.
    repeat case_in Hstep; rewrite ?list_elem_of_singleton in Hexec;
      try done; by apply not_elem_of_nil in Hexec.
  - simplify_eq. by apply not_elem_of_nil in Hexec.
Qed.

(** ** Options sent to the device *)

Lemma keep_keys_elem keys d k v : (k, v) ∈ keep_keys keys d ↔ (k, v) ∈ d ∧ k ∈ keys.
Proof.
  unfold keep_keys. rewrite list_elem_of_In, List.filter_In, <-list_elem_of_In.
  by rewrite in_strs_true.
Qed.

Lemma keep_keys_dkeys keys d k : k ∈ dkeys (keep_keys keys d) → k ∈ dkeys d ∧ k ∈ keys.
Proof.
  intros ([k' v] & -> & [H1 H2]%keep_keys_elem)%list_elem_of_fmap.
  split; [|done]. apply list_elem_of_fmap. by exists (k', v).
Qed.

Lemma keep_keys_id keys d : (∀ k, k ∈ dkeys d → k ∈ keys) → keep_keys keys d = d.
Proof.
  induction d as [|[k v] d IH]; intros H; [done|]. unfold keep_keys. simpl.
  replace (in_strs k keys) with true.
  - f_equal. apply IH. intros k' Hk'. apply H. by right.
  - symmetry. apply in_strs_true, H. by left.
Qed.

Lemma dget_keep_keys keys d k : k ∈ keys → dget k (keep_keys keys d) = dget k d.
Proof.
  intros Hk. induction d as [|[k' v] d IH]; [done|]. unfold keep_keys. simpl.
  destruct (in_strs k' keys) eqn:E; simpl; fold (keep_keys keys d); rewrite IH; [done|].
  destruct (k =s k') eqn:Ek; [|done]. apply str_eqb_true in Ek as ->.
  by apply in_strs_false in E.
Qed.

Lemma clean_selection_keys sel k :
  k ∈ dkeys (clean_selection sel) → k = lit "residentKey" ∨ k = lit "userVerification".
Proof.
  unfold clean_selection. rewrite !elem_of_dkeys_dset, !elem_of_dkeys_dpop.
  intros [->|[->|(H1 & H2 & [_ H3]%keep_keys_dkeys)]]; [by right|by left|].
  unfold _AUTHENTICATOR_SELECTION_KEYS in H3.
  rewrite !elem_of_cons in H3.
  destruct H3 as [H3|[H3|[H3|[H3|H3%not_elem_of_nil]]]]; [by left|done|by right|done|done].
Qed.

Lemma clean_selection_required sel :
  (clean_selection sel).[lit "residentKey"] = JStr (lit "required") ∧
  (clean_selection sel).[lit "userVerification"] = JStr (lit "required").
Proof.
  unfold clean_selection. split.
  - rewrite dget_or_none_dset_ne by done. by rewrite dget_or_none_dset_eq.
  - by rewrite dget_or_none_dset_eq.
Qed.

Lemma dget_of_or_none k d v : d.[k] = v → v ≠ JNull → dget k d = Some v.
Proof. unfold dget_or_none. destruct (dget k d); simpl; congruence. Qed.

Lemma clean_selection_idem sel : clean_selection (clean_selection sel) = clean_selection sel.
Proof.
  pose proof (clean_selection_keys sel) as Hk.
  destruct (clean_selection_required sel) as [Hr Hv].
  apply dget_of_or_none in Hr, Hv; [|done..].
  revert Hk Hr Hv. generalize (clean_selection sel) as c. intros c Hk Hr Hv.
  unfold clean_selection.
  rewrite keep_keys_id by (intros k [-> | ->]%Hk; vm_compute; repeat constructor).
  rewrite (dpop_notin (lit "requireResidentKey")) by (by intros [?|?]%Hk).
  rewrite (dpop_notin (lit "authenticatorAttachment")) by (by intros [?|?]%Hk).
  by rewrite (dset_id _ _ _ Hr), (dset_id _ _ _ Hv).
Qed.

(** With trimming on, the options sent to the device have only the fields the
    SDK models, every modelled field other than the selection is forwarded
    unchanged, a selection always requires user verification and a resident key
    and has no other field, and trimming twice is trimming once. *)
Theorem supported_options_spec (env : environ) (d : dict)
    (Htrim : trim_disabled env = false) :
  let r := supported_options env (JObj d) in
  (∀ k, k ∈ dkeys r → k ∈ _OPTION_KEYS) ∧
  (∀ k, k ∈ _OPTION_KEYS → k ≠ lit "authenticatorSelection" → r.[k] = d.[k]) ∧
  (∀ sel, r.[lit "authenticatorSelection"] = JObj sel →
     sel.[lit "userVerification"] = JStr (lit "required") ∧
     sel.[lit "residentKey"] = JStr (lit "required") ∧
     ∀ k, k ∈ dkeys sel → k = lit "residentKey" ∨ k = lit "userVerification") ∧
  supported_options env (JObj r) = r.
Proof.
  intros r. unfold r, supported_options. rewrite Htrim. clear r.
  assert (lit "authenticatorSelection" ∈ _OPTION_KEYS) as Has
    by (apply in_strs_true; vm_compute; done).
  set (t := keep_keys _OPTION_KEYS d).
  assert (∀ k, k ∈ dkeys t → k ∈ _OPTION_KEYS) as Hsub by (intros k Hk%keep_keys_dkeys; tauto).
  assert (∀ k, k ∈ _OPTION_KEYS → t.[k] = d.[k]) as Hget.
  { intros k Hk. unfold dget_or_none, t. by rewrite dget_keep_keys. }
  assert (∀ c, (∀ k, k ∈ dkeys c → k ∈ _OPTION_KEYS) → keep_keys _OPTION_KEYS c = c) as Hid
    by (intros c Hc; by apply keep_keys_id).
  destruct (t.[lit "authenticatorSelection"]) eqn:Hsel;
    try (split_and!; [done|by eauto|by intros ? H; pose proof (eq_trans (eq_sym Hsel) H)|by rewrite (Hid t Hsub), Hsel]).
  rename kvs into sel.
  set (c := dset (lit "authenticatorSelection") (JObj (clean_selection sel)) t).
  assert (∀ k, k ∈ dkeys c → k ∈ _OPTION_KEYS) as Hsubc.
  { intros k [->|Hk]%elem_of_dkeys_dset; [done|by apply Hsub]. }
  assert (c.[lit "authenticatorSelection"] = JObj (clean_selection sel)) as Hc
    by apply dget_or_none_dset_eq.
  split_and!; [done| | |].
  - intros k Hk Hne. unfold c. rewrite dget_or_none_dset_ne by done. by apply Hget.
  - rewrite Hc. intros s' [= <-]. destruct (clean_selection_required sel) as [-> ->].
    split_and!; [done..|]. apply clean_selection_keys.
  - rewrite (Hid c Hsubc), Hc, clean_selection_idem. apply dset_id.
    by apply dget_of_or_none.
Qed.

(** The caller's reply starts a ceremony only if it has no refusing word:
    whenever one of the words no, not, stop, wait, .. occurs, whatever else was
    said, [start_requested] is false; and it needs one of the agreeing phrases. *)
Theorem start_requested_respects_refusal (text : json) :
  (∀ w, w ∈ refusal_words → w ∈ agreement_words text → start_requested text = false) ∧
  (start_requested text = true →
   ∃ p, p ∈ agreement_phrases ∧
        word_search (py_join (lit " ") (agreement_words text)) p = true).
Proof.
  unfold start_requested. split.
  - intros w Hw Hin. case_bool_decide; [done|].
    replace (existsb _ refusal_words) with true; [done|]. symmetry.
    apply existsb_elem_of. exists w. split; [done|]. by apply py_join_word.
  - case_bool_decide; [done|]. destruct (existsb _ refusal_words); [done|].
    by intros Hp%existsb_elem_of.
Qed.

(** ** Executions *)

Definition example_begin : json :=
  JObj [(lit "status", JStr (lit "ok"));
        (lit "data", JObj [(lit "authentication_id", JStr (lit "auth-1"));
                           (lit "options", JObj [(lit "challenge", JStr (lit "c"))])])].

Definition example_message (type_ correlation : string) : dict :=
  [(lit "type", JStr (lit type_)); (lit "authenticationId", JStr (lit "auth-1"));
   (lit "correlationId", JStr (lit correlation));
   (lit "proof", JObj [(lit "sig", JStr (lit "s"))])].

Definition example_start : list event :=
  [Start (lit "transfer") (lit "op-1") (lit "cust") (lit "Ada");
   BeginReply 0 (Ok example_begin) 100 1000 (lit "u1"); Sent 1 (Ok ())].

Definition example_proof : event :=
  Receive 300 (Ok (JObj (example_message "fido2_proof" "ceremony-u1"))) 150.

Definition example_ok : exn json := Ok (JObj [(lit "status", JStr (lit "ok"))]).

(** One accepted payment, with the proof delivered twice. *)
Definition example_events : list event :=
  example_start ++
  [example_proof; example_proof; ExecuteReply 2 example_ok; Sent 3 (Ok ())].

Definition example_run : option (flow * list effect) :=
  run (step (λ _, None) 90 true false) init example_events.

Lemma execute_at_most_once_witness :
  ∃ s outs, example_run = Some (s, outs) ∧ exec_refs outs = [0%nat] ∧ NoDup (exec_refs outs).
Proof.
  do 2 eexists. split; [vm_compute; reflexivity|]. split; [vm_compute; reflexivity|].
  eapply (execute_at_most_once (λ _, None) 90 true false example_events).
  vm_compute. reflexivity.
Defined.

Lemma verified_only_after_accepted_execute_witness :
  ∃ s outs, example_run = Some (s, outs) ∧
    ∃ reply, Outcome 0 (lit "verified") (lit "Approved and sent.") reply ∈ outs ∧
      accepted_reply reply.
Proof.
  do 2 eexists. split; [vm_compute; reflexivity|]. eexists.
  match goal with |- ?P ∧ _ => assert P as Hin; [vm_compute; do 5 right; left|] end.
  split; [exact Hin|].
  eapply (verified_only_after_accepted_execute (λ _, None) 90 true false example_events);
    [vm_compute; reflexivity|exact Hin].
Defined.

Definition example_awaiting : flow :=
  default init (fst <$> run (step (λ _, None) 90 true false) init example_start).

Definition example_execute : effect :=
  PostExecute 0 (lit "op-1") (lit "auth-1") [(lit "sig", JStr (lit "s"))].

Lemma execute_only_on_fresh_proof_witness :
  ∃ s' o, step (λ _, None) 90 true false example_awaiting example_proof = Some (s', o) ∧
    example_execute ∈ o ∧ closed example_awaiting = false ∧ pending example_awaiting = Some 0%nat.
Proof.
  assert (snd <$> step (λ _, None) 90 true false example_awaiting example_proof =
          Some [example_execute]) as Ho by (vm_compute; reflexivity).
  destruct (step (λ _, None) 90 true false example_awaiting example_proof) as [[s' o]|] eqn:Hs;
    [|discriminate Ho].
  assert (example_execute ∈ o) as Hin by (injection Ho as ->; by left).
  exists s', o. split; [reflexivity|]. split; [exact Hin|].
  destruct (execute_only_on_fresh_proof _ _ _ _ _ _ _ _ _ _ _ _ Hs Hin)
    as (l & v & now & p & _ & Hc & _ & Hp & _).
  split; assumption.
Defined.

Definition example_options : dict :=
  [(lit "challenge", JStr (lit "c")); (lit "hints", JArr []);
   (lit "authenticatorSelection",
     JObj [(lit "userVerification", JStr (lit "discouraged"));
           (lit "requireResidentKey", JBool false)])].

Lemma supported_options_spec_witness :
  trim_disabled (λ _, None) = false ∧
  dkeys (supported_options (λ _, None) (JObj example_options)) =
    [lit "challenge"; lit "authenticatorSelection"] ∧
  supported_options (λ _, None) (JObj (supported_options (λ _, None) (JObj example_options))) =
    supported_options (λ _, None) (JObj example_options).
Proof.
  split; [vm_compute; reflexivity|]. split; [vm_compute; reflexivity|].
  apply (supported_options_spec (λ _, None) example_options). vm_compute. reflexivity.
Defined.

(** While the execute call of one ceremony is awaited a new one may begin ([start]
    refuses only an unconsumed one); [_finish] of the first then clears
    [self.pending], and the proof of the second ceremony, still within its time,
    is dropped without a word to the caller. *)
Definition overlap_events : list event :=
  example_start ++
  [example_proof; Start (lit "airtime") (lit "op-2") (lit "cust") (lit "Ada");
   BeginReply 3 (Ok example_begin) 160 1060 (lit "u2"); Sent 4 (Ok ());
   ExecuteReply 2 example_ok; Sent 5 (Ok ())].

Lemma late_finish_drops_new_ceremony :
  ∃ s outs, run (step (λ _, None) 90 true false) init overlap_events = Some (s, outs) ∧
    (∃ p, heap s !! 1%nat = Some p ∧ consumed p = false ∧ 170 < expires p ∧
          operation_id p = lit "op-2") ∧
    step (λ _, None) 90 true false s
      (Receive 300 (Ok (JObj (example_message "fido2_proof" "ceremony-u2"))) 170) =
      Some (s, []).
Proof.
  do 2 eexists. split; [vm_compute; reflexivity|]. split; [|vm_compute; reflexivity].
  eexists. split_and!; vm_compute; reflexivity.
Qed.

(** A proof whose message has a scalar top-level key named [event] is lost: it is
    passed as a second [event] argument of [_record]. *)
Lemma event_key_drops_proof s len now v d :
  closed s = false → len ≤ MAX_BYTES →
  d = (lit "event", JStr v) :: example_message "fido2_proof" "ceremony-u1" →
  receive true true len (Ok (JObj d)) now s = (s, [Uncaught TypeError]).
Proof.
  intros Hc Hl ->. unfold receive. rewrite Hc.
  replace (MAX_BYTES <? len) with false by (symmetry; by apply Z.ltb_ge).
  cbn [orb].
  match goal with |- (if ?b then _ else _) = _ => replace b with false by reflexivity end.
  match goal with |- match ?b with _ => _ end = _ => replace b with (JStr (lit "fido2_proof"))
    by reflexivity end.
  replace (starts_with (lit "fido2_") (lit "fido2_proof")) with true by reflexivity.
  set (det := app_message_detail _ _ _).
  replace (dhas (lit "event") det) with true; [done|]. symmetry.
  unfold det, app_message_detail. reflexivity.
Qed.

(** An unanswered ceremony blocks every later one, even long after it expired. *)
Lemma expired_ceremony_still_busy s p workflow feature op c d :
  closed s = false → current s = Some p → consumed p = false →
  dget workflow FEATURE_BY_WORKFLOW = Some feature →
  start workflow op c d s =
    (s, [Returned (status_message (lit "busy") (lit "A passkey confirmation is already waiting."))]).
Proof. intros Hc Hp Hu Hf. unfold start. by rewrite Hf, Hc, Hp, Hu. Qed.
