(* ===== verification/Url.v ===== *)
(** * URLs: what the program uses of urllib.parse

    [urlsplit] follows CPython 3.11: leading control characters and blanks are
    dropped, tabs and line breaks are removed, the scheme is recognised and the
    authority cut out.  The checks of a bracketed host (an IPv6 address) and of a
    non-ASCII authority (NFKC) are the parameter [netloc_ok]. *)
From stdpp Require Import base list strings.
From Stdlib Require Import ZArith Lia.
From S2P Require Import Prelude Pystr.

Record split_url := mkUrl {
  url_scheme : str;
  url_netloc : str;
}.

Definition is_alpha (c : Z) : bool :=
  ((65 <=? c) && (c <=? 90)) || ((97 <=? c) && (c <=? 122)).

Definition scheme_char (c : Z) : bool :=
  is_alpha c || ((48 <=? c) && (c <=? 57)) || (c =? 43) || (c =? 45) || (c =? 46).

Definition clean_url (url : str) : str :=
  List.filter (λ c, negb ((c =? 9) || (c =? 10) || (c =? 13))) (lstrip_by (λ c, c <=? 32) url).

(** [url.split(c)] at the first [c]: the part before it, and after it if it occurs. *)
Fixpoint cut_at (p : Z → bool) (s : str) : str * option str :=
  match s with
  | [] => ([], None)
  | c :: s => if p c then ([], Some s) else let '(a, b) := cut_at p s in (c :: a, b)
  end.

Definition split_scheme (url : str) : str * str :=
  match cut_at (Z.eqb 58) url with
  | ((c :: _) as head, Some rest) =>
      if is_alpha c && forallb scheme_char head then (py_lower head, rest) else ([], url)
  | _ => ([], url)
  end.

Section urlsplit.
Context (netloc_ok : str → bool).

Definition urlsplit (url : str) : exn split_url :=
  let '(scheme, rest) := split_scheme (clean_url url) in
  match rest with
  | 47 :: 47 :: rest =>
      let netloc := fst (cut_at (λ c, (c =? 47) || (c =? 63) || (c =? 35)) rest) in
      if xorb (has_char 91 netloc) (has_char 93 netloc)
      then Raise (ValueError (lit "Invalid IPv6 URL"))
      else if (has_char 91 netloc || existsb (λ c, 128 <=? c) netloc) && negb (netloc_ok netloc)
      then Raise (ValueError (lit "invalid netloc"))
      else Ok (mkUrl scheme netloc)
  | _ => Ok (mkUrl scheme [])
  end.
End urlsplit.

(** [netloc.rpartition("@")[0]]: the user information, if there is an [@]. *)
Definition userinfo (netloc : str) : option str :=
  let i := py_rfind (lit "@") netloc in
  if i <? 0 then None else Some (take (Z.to_nat i) netloc).

(** [url.username]: [None] (here the empty string) without user information. *)
Definition username (u : split_url) : str :=
  match userinfo (url_netloc u) with
  | Some info => fst (cut_at (Z.eqb 58) info)
  | None => []
  end.

Example urlsplit_bank :
  urlsplit (λ _, true) (lit "  HTTPS://bank.example:8443/v1?x=a:b#f") =
    Ok (mkUrl (lit "https") (lit "bank.example:8443")).
Proof. vm_compute. reflexivity. Qed.

Example urlsplit_user :
  username <$> match urlsplit (λ _, true) (lit "http://u:p@h/") with Ok u => Some u | _ => None end
  = Some (lit "u").
Proof. vm_compute. reflexivity. Qed.
