(* ===== verification/Banking.v ===== *)
(** * Banking tools: latency_lab/banking_tools.py, the configuration and arguments

    The configured connector tools ([bank_records]), what the model is shown of
    them ([bank_tool_definitions]), the voice policy of a call and the arguments of
    a tool call ([arguments]).  The concurrent part of [BankingTools] is in
    BankMachine.v.  The JSON-Schema validator (package jsonschema) is a parameter:
    [check_schema] tells whether a schema is itself valid, [schema_errors] lists the
    messages of the violations of a schema. *)
From stdpp Require Import base list strings.
From Stdlib Require Import ZArith Lia.
From S2P Require Import Prelude Pystr Json Url.

Definition BANK_TOOLS : list str :=
  [lit "wema_get_balance"; lit "wema_get_transactions"; lit "wema_list_data_plans";
   lit "wema_list_transfer_banks"; lit "wema_prepare_data_purchase";
   lit "wema_prepare_airtime_purchase"; lit "wema_prepare_transfer";
   lit "wema_execute_prepared"].

Definition AUTH_FIELDS : list str :=
  [lit "authenticated"; lit "auth_status"; lit "skip_auth"; lit "voice_auth_authorized"].

Record agent_context := mkContext {
  tools : list dict;
  agent_id : str;
  business_id : str;
  end_user_id : str;
}.

Record tool_call := mkCall {
  call_id : str;
  call_name : str;
  call_arguments : dict;
}.

(** The message-free error of [failed], and [failed] itself. *)
Definition failed (message : str) (extra : dict) : dict :=
  dupdate [(lit "status", JStr (lit "failed")); (lit "message", JStr message);
           (lit "data", JObj [])] extra.

(** [s.upper() == "POST"]: the characters whose upper case is made of the letters of
    POST are those below. *)
Definition upper_post_char (c : Z) : str :=
  if (97 <=? c) && (c <=? 122) then [c - 32]
  else if c =? 383 then [83]
  else if (c =? 64261) || (c =? 64262) then [83; 84]
  else [c].

Definition upper_is_post (s : str) : bool := (s ≫= upper_post_char) =s lit "POST".

(** ** The policy and profile of a call: [BankingTools.__init__] *)

Record bank_config := mkConfig {
  context : agent_context;
  session_id : str;
  identity : dict;
  env : environ;
}.

Definition switch_on (v : str) : bool :=
  in_strs (py_lower (py_strip v)) [lit "1"; lit "true"; lit "yes"; lit "on"].

Definition voice_auth_required (c : bank_config) : bool :=
  let auth_disabled := switch_on (getenv (env c) (lit "VOICE_AUTH_DISABLED") []) in
  negb (is_false (identity c).[lit "voice_auth_required"]) && negb auth_disabled.

Definition profile (c : bank_config) : dict := dict_or_empty (identity c).[lit "wema_context"].

Definition owner (c : bank_config) : str := str_strip (identity c).[lit "voice_auth_owner"].

Definition customer_id (c : bank_config) : str := str_strip (profile c).[lit "customer_id"].

Definition sidecar (c : bank_config) : str :=
  py_rstrip_char 47 (getenv (env c) (lit "VOICE_AUTH_SIDECAR_URL") []).

Section config.
Context (netloc_ok : str → bool) (check_schema : json → bool)
  (schema_errors : json → json → list str).

(** ** The configured tools *)

(** The body of the loop of [bank_records]: a usable tool, under its name. *)
Definition bank_record (tool : dict) : exn (option (str * dict)) :=
  let name := str_or_empty tool.[lit "name"] in
  if negb (in_strs name BANK_TOOLS) || is_false tool.[lit "is_active"] then Ok None
  else
    do! url := urlsplit netloc_ok (str_or_empty tool.[lit "url"]) in
    let schema := tool.[lit "request_schema"] in
    if negb (in_strs (url_scheme url) [lit "http"; lit "https"])
       || bool_decide (url_netloc url = []) || bool_decide (username url ≠ [])
    then Ok None
    else if negb (upper_is_post (str_or_empty tool.[lit "method"])) || negb (is_dict schema)
    then Ok None
    else if check_schema schema then Ok (Some (name, tool)) else Ok None.

Fixpoint add_records (records : list (str * dict)) (l : list dict) : exn (list (str * dict)) :=
  match l with
  | [] => Ok records
  | tool :: l =>
      do! r := bank_record tool in
      add_records (match r with Some (name, t) => dset name t records | None => records end) l
  end.

Definition bank_records (ctx : agent_context) : exn (list (str * dict)) :=
  add_records [] (tools ctx).

(** ** What the model is shown *)

Definition recipient_scope_schema : json :=
  JObj [(lit "type", JStr (lit "string"));
        (lit "enum", JArr [JStr (lit "self"); JStr (lit "other")]);
        (lit "description", JStr (lit "Use self for the caller's own line, other for another person. Other requires their phone_number."))].

Definition hidden_required : list str :=
  AUTH_FIELDS ++ [lit "source_account"; lit "phone_number"].

(** [props] after the edits of the loop body. *)
Definition model_props (props : dict) : dict :=
  let props := foldl (λ p key, dpop key p) props AUTH_FIELDS in
  if dhas (lit "phone_number") props
  then dset (lit "recipient_scope") recipient_scope_schema props else props.

Definition bank_tool_definition (name : str) (tool : dict) : exn json :=
  let schema := dict_or_empty tool.[lit "request_schema"] in
  match default (JObj []) (dget (lit "properties") schema) with
  | JObj props =>
      do! required := py_iter (default (JArr []) (dget (lit "required") schema)) in
      do! required := filter_not_in hidden_required required in
      let schema := dset (lit "properties") (JObj (model_props props)) schema in
      let schema := dset (lit "required") (JArr required) schema in
      Ok (JObj [(lit "type", JStr (lit "function"));
                (lit "function", JObj [(lit "name", JStr name);
                   (lit "description", jor tool.[lit "description"] (JStr name));
                   (lit "parameters", JObj schema)])])
  | JArr _ => Raise TypeError
  | _ => Raise AttributeError
  end.

Fixpoint define_all (records : list (str * dict)) : exn (list json) :=
  match records with
  | [] => Ok []
  | (name, tool) :: records =>
      do! d := bank_tool_definition name tool in
      do! ds := define_all records in
      Ok (d :: ds)
  end.

Definition bank_tool_definitions (ctx : agent_context) : exn (list json) :=
  do! records := bank_records ctx in define_all records.

(** ** The arguments of a call *)

Definition fill_argument (scope props : json) (prof : dict) (args : dict) (keys : str * str)
    : exn dict :=
  let '(key, profile_key) := keys in
  do! present := py_in (JStr key) props in
  if present && negb (truthy args.[key]) then
    if (key =s lit "phone_number") && jeq_str scope (lit "other")
    then Raise (ValueError (lit "Ask for the other person's phone number."))
    else if truthy prof.[profile_key] then Ok (dset key prof.[profile_key] args) else Ok args
  else Ok args.

Definition arguments (c : bank_config) (records : list (str * dict)) (call : tool_call)
    : exn dict :=
  let args := call_arguments call in
  if existsb (λ k, dhas k args) AUTH_FIELDS
  then Raise (ValueError (lit "Authentication flags cannot be supplied by a tool call."))
  else
    let scope := default (JStr (lit "self")) (dget (lit "recipient_scope") args) in
    let args := dpop (lit "recipient_scope") args in
    match dget (call_name call) records with
    | None => Raise (KeyError (call_name call))
    | Some record =>
        let schema := dict_or_empty record.[lit "request_schema"] in
        let props := default (JObj []) (dget (lit "properties") schema) in
        do! known := in_str_set scope [lit "self"; lit "other"] in
        if negb known
        then Raise (ValueError (lit "Choose self or other for the recipient."))
        else
          do! args := fill_argument scope props (profile c) args
                        (lit "source_account", lit "account_number") in
          do! args := fill_argument scope props (profile c) args
                        (lit "phone_number", lit "phone_number") in
          match schema_errors (JObj schema) (JObj args) with
          | [] => Ok args
          | e :: _ => Raise (ValueError e)
          end
    end.
End config.

#[global] Arguments upper_is_post : simpl never.

(** ** Lemmas *)

(** What [bank_records] demands of a tool it keeps. *)
Record usable_tool (netloc_ok : str → bool) (check_schema : json → bool)
    (name : str) (tool : dict) : Prop := {
  usable_name : name ∈ BANK_TOOLS ∧ str_or_empty tool.[lit "name"] = name;
  usable_active : tool.[lit "is_active"] ≠ JBool false;
  usable_url : ∃ url, urlsplit netloc_ok (str_or_empty tool.[lit "url"]) = Ok url ∧
    url_scheme url ∈ [lit "http"; lit "https"] ∧ url_netloc url ≠ [] ∧ username url = [];
  usable_method : upper_is_post (str_or_empty tool.[lit "method"]) = true;
  usable_schema : ∃ schema, tool.[lit "request_schema"] = JObj schema ∧
    check_schema (JObj schema) = true;
}.

Section config_lemmas.
Context (netloc_ok : str → bool) (check_schema : json → bool)
  (schema_errors : json → json → list str).

Lemma bank_record_Some tool name t :
  bank_record netloc_ok check_schema tool = Ok (Some (name, t)) →
  t = tool ∧ usable_tool netloc_ok check_schema name tool.
Proof.
  unfold bank_record.
  destruct (in_strs _ BANK_TOOLS) eqn:Hn; [|done].
  destruct (is_false _) eqn:Ha; [done|]. cbn [negb orb].
  intros (url & Hu & H)%exn_bind_Ok.
  destruct (in_strs (url_scheme url) _) eqn:Hs; [|done].
  do 2 (case_bool_decide; [done|]). cbn [negb orb] in H.
  destruct (upper_is_post _) eqn:Hp; [|done]. cbn [negb orb] in H.
  destruct (tool.[lit "request_schema"]) eqn:Hsch; try done. cbn [negb is_dict] in H.
  destruct (check_schema _) eqn:Hc; [|done].
  simplify_eq. split; [done|]. apply in_strs_true in Hn, Hs. split; [done|..].
  - intros E. by rewrite E in Ha.
  - exists url. split_and!; [done..|].
    by destruct (decide (username url = [])).
  - done.
  - by exists kvs.
Qed.

Lemma add_records_usable records l rs :
  add_records netloc_ok check_schema records l = Ok rs →
  (∀ n t, (n, t) ∈ records → usable_tool netloc_ok check_schema n t) →
  ∀ n t, (n, t) ∈ rs → usable_tool netloc_ok check_schema n t.
Proof.
  revert records. induction l as [|tool l IH]; intros records; simpl.
  - intros [= <-] H. done.
  - intros (r & Hr & Hrec)%exn_bind_Ok H. eapply IH; [exact Hrec|].
    destruct r as [[name t']|]; [|done].
    apply bank_record_Some in Hr as [-> Hu].
    intros n t Hin. apply elem_of_dset in Hin as [[-> ->]|Hin]; [done|by apply H].
Qed.

Lemma bank_records_usable ctx rs n t :
  bank_records netloc_ok check_schema ctx = Ok rs → (n, t) ∈ rs →
  usable_tool netloc_ok check_schema n t.
Proof.
  intros H. apply (add_records_usable _ _ _ H). by intros ? ? ?%not_elem_of_nil.
Qed.

End config_lemmas.

Lemma foldl_dpop_keys keys (d : dict) k :
  k ∈ dkeys (foldl (λ p key, dpop key p) d keys) ↔ (k ∈ dkeys d ∧ k ∉ keys).
Proof.
  revert d. induction keys as [|x keys IH]; intros d; simpl.
  - split; [|tauto]. intros H. split; [done|apply not_elem_of_nil].
  - rewrite IH, elem_of_dkeys_dpop, not_elem_of_cons. tauto.
Qed.

Lemma foldl_dpop_get keys (d : dict) k :
  k ∉ keys → dget k (foldl (λ p key, dpop key p) d keys) = dget k d.
Proof.
  revert d. induction keys as [|x keys IH]; intros d; simpl; [done|].
  intros [Hne Hk]%not_elem_of_cons. by rewrite IH, dget_dpop_ne.
Qed.

Lemma filter_not_in_strs keys l :
  filter_not_in keys (map JStr l) = Ok (map JStr (List.filter (λ s, negb (in_strs s keys)) l)).
Proof.
  induction l as [|s l IH]; [done|]. cbn [map filter_not_in in_str_set exn_bind].
  rewrite IH. simpl. by destruct (in_strs s keys).
Qed.

Lemma model_props_auth props k : k ∈ AUTH_FIELDS → k ∉ dkeys (model_props props).
Proof.
  intros Hk. unfold model_props. set (p := foldl _ _ _).
  assert (k ∉ dkeys p) by (unfold p; rewrite foldl_dpop_keys; tauto).
  destruct (dhas _ p); [|done]. rewrite elem_of_dkeys_dset. intros [->|?]; [|done].
  apply in_strs_true in Hk. by vm_compute in Hk.
Qed.

Lemma model_props_get props k :
  k ∉ AUTH_FIELDS → k ≠ lit "recipient_scope" → dget k (model_props props) = dget k props.
Proof.
  intros Hk Hne. unfold model_props. set (p := foldl _ _ _).
  assert (dget k p = dget k props) by (by apply foldl_dpop_get).
  destruct (dhas _ p); [|done]. by rewrite dget_dset_ne.
Qed.

Lemma model_props_scope props :
  lit "phone_number" ∈ dkeys props →
  dget (lit "recipient_scope") (model_props props) = Some recipient_scope_schema.
Proof.
  intros H. unfold model_props. set (p := foldl _ _ _).
  replace (dhas (lit "phone_number") p) with true; [by rewrite dget_dset_eq|].
  symmetry. apply dhas_true. unfold p. rewrite foldl_dpop_keys. split; [done|].
  apply in_strs_false. vm_compute. reflexivity.
Qed.
(** The parts of a definition shown to the model. *)
Definition def_function (d : json) : dict := dict_or_empty (dict_or_empty d).[lit "function"].
Definition def_parameters (d : json) : dict :=
  dict_or_empty (def_function d).[lit "parameters"].
Definition schema_props (schema : dict) : dict := dict_or_empty schema.[lit "properties"].

(** A definition hides the authentication and account fields of a tool's schema. *)
Definition hides_auth (r : str * dict) (d : json) : Prop :=
  let schema := dict_or_empty (r.2).[lit "request_schema"] in
  let props := schema_props (def_parameters d) in
  (def_function d).[lit "name"] = JStr r.1 ∧
  (∀ k, k ∈ AUTH_FIELDS → k ∉ dkeys props) ∧
  (∀ k, k ∉ AUTH_FIELDS → k ≠ lit "recipient_scope" →
     dget k props = dget k (schema_props schema)) ∧
  (lit "phone_number" ∈ dkeys (schema_props schema) →
     dget (lit "recipient_scope") props = Some recipient_scope_schema) ∧
  ∃ required, (def_parameters d).[lit "required"] = JArr (map JStr required) ∧
    ∀ k, k ∈ required → k ∉ hidden_required.

(** The part of the JSON-Schema metaschema the program relies on: [properties] is an
    object and [required] a list of strings. *)
Definition metaschema_sound (check_schema : json → bool) : Prop :=
  ∀ d, check_schema (JObj d) = true →
    (∀ v, dget (lit "properties") d = Some v → is_dict v = true) ∧
    (∀ v, dget (lit "required") d = Some v → ∃ l, v = JArr (map JStr l)).

Lemma def_function_eq n d p :
  def_function (JObj [(lit "type", JStr (lit "function"));
    (lit "function", JObj [(lit "name", n); (lit "description", d); (lit "parameters", p)])]) =
  [(lit "name", n); (lit "description", d); (lit "parameters", p)].
Proof. reflexivity. Qed.

Lemma def_parameters_eq n d p :
  def_parameters (JObj [(lit "type", JStr (lit "function"));
    (lit "function", JObj [(lit "name", n); (lit "description", d); (lit "parameters", p)])]) =
  dict_or_empty p.
Proof. reflexivity. Qed.

Section definitions_lemmas.
Context (netloc_ok : str → bool) (check_schema : json → bool).

Lemma bank_tool_definition_hides name tool
    (Hmeta : metaschema_sound check_schema) :
  usable_tool netloc_ok check_schema name tool →
  ∃ d, bank_tool_definition name tool = Ok d ∧ hides_auth (name, tool) d.
Proof.
  intros [_ _ _ _ (schema & Hs & Hc)]. unfold bank_tool_definition.
  unfold hides_auth. cbn [fst snd]. rewrite Hs. cbn [dict_or_empty].
  destruct (Hmeta _ Hc) as [Hprops Hreq].
  assert (default (JObj []) (dget (lit "properties") schema) = JObj (schema_props schema)) as ->.
  { unfold schema_props, dget_or_none.
    destruct (dget (lit "properties") schema) as [v|]; simpl; [|done].
    specialize (Hprops v eq_refl). by destruct v. }
  assert (∃ l, default (JArr []) (dget (lit "required") schema) = JArr (map JStr l)) as [l ->].
  { destruct (dget (lit "required") schema) as [v|]; simpl; [|by exists []].
    destruct (Hreq v eq_refl) as [l ->]. by exists l. }
  cbn [py_iter exn_bind]. rewrite filter_not_in_strs. cbn [exn_bind].
  eexists. split; [reflexivity|]. rewrite def_function_eq, def_parameters_eq.
  cbn [dict_or_empty].
  set (params := dset (lit "required") _ _).
  assert (schema_props params = model_props (schema_props schema)) as ->.
  { unfold schema_props at 1. unfold params.
    by rewrite dget_or_none_dset_ne, dget_or_none_dset_eq. }
  split; [done|]. split; [intros k; apply model_props_auth|].
  split; [intros k; apply model_props_get|]. split; [apply model_props_scope|].
  eexists. split; [unfold params; by rewrite dget_or_none_dset_eq|].
  intros k [_ Hk]%list_elem_of_In%List.filter_In.
  by apply negb_true_iff, in_strs_false in Hk.
Qed.

Lemma define_all_hides rs
    (Hmeta : metaschema_sound check_schema) :
  (∀ n t, (n, t) ∈ rs → usable_tool netloc_ok check_schema n t) →
  ∃ defs, define_all rs = Ok defs ∧ Forall2 hides_auth rs defs.
Proof.
  induction rs as [|[name tool] rs IH]; intros H; simpl; [by exists []|].
  destruct (bank_tool_definition_hides name tool Hmeta) as (d & -> & Hd).
  { apply H. by left. }
  destruct IH as (ds & -> & Hds). { intros n t Ht. apply H. by right. }
  exists (d :: ds). split; [done|]. by constructor.
Qed.
End definitions_lemmas.

(** Every tool offered to the model is a configured, active wema_* tool with an
    absolute http(s) POST endpoint without credentials, and what the model sees of
    it never includes an authentication field, nor demands an authentication field,
    the source account or a phone number; the other properties are the tool's own.
    Given the JSON-Schema metaschema, the construction cannot fail. *)
Theorem bank_tool_definitions_hide_auth (netloc_ok : str → bool) (check_schema : json → bool)
    (ctx : agent_context) (rs : list (str * dict))
    (Hmeta : metaschema_sound check_schema)
    (Hrs : bank_records netloc_ok check_schema ctx = Ok rs) :
  (∀ n t, (n, t) ∈ rs → usable_tool netloc_ok check_schema n t) ∧
  ∃ defs, bank_tool_definitions netloc_ok check_schema ctx = Ok defs ∧ Forall2 hides_auth rs defs.
Proof.
  assert (∀ n t, (n, t) ∈ rs → usable_tool netloc_ok check_schema n t) as Hu
    by (intros n t; by apply (bank_records_usable _ _ ctx)).
  split; [done|]. unfold bank_tool_definitions. rewrite Hrs. cbn [exn_bind].
  by apply (define_all_hides netloc_ok check_schema).
Qed.

(** ** The arguments of a call *)

Definition call_scope (call : tool_call) : json :=
  default (JStr (lit "self")) (dget (lit "recipient_scope") (call_arguments call)).

Lemma fill_argument_spec scope props prof args key pk args' :
  fill_argument scope props prof args (key, pk) = Ok args' →
  args' = args ∨
  (truthy args.[key] = false ∧ args' = dset key prof.[pk] args ∧
   ¬ (key = lit "phone_number" ∧ scope = JStr (lit "other"))).
Proof.
  unfold fill_argument. intros (present & _ & H)%exn_bind_Ok.
  destruct (present && _) eqn:Hm; [|simplify_eq; by left].
  apply andb_true_iff in Hm as [_ Hm%negb_true_iff].
  destruct ((key =s _) && jeq_str _ _) eqn:Hs; [done|].
  destruct (truthy prof.[pk]); simplify_eq; [right|by left].
  split_and!; [done..|]. intros [-> ->]. by vm_compute in Hs.
Qed.

Definition filled_keys : list str := [lit "source_account"; lit "phone_number"].

(** What filling the two fields may change. *)
Definition fill_le (scope : json) (prof args args' : dict) : Prop :=
  (∀ k, k ∉ filled_keys → dget k args' = dget k args) ∧
  (∀ k, truthy args.[k] = true → args'.[k] = args.[k]) ∧
  (scope = JStr (lit "other") → args'.[lit "phone_number"] = args.[lit "phone_number"]).

#[export] Instance fill_le_preorder scope prof : PreOrder (fill_le scope prof).
Proof.
  split.
  - by intros args.
  - intros a b c (H1 & H2 & H3) (H4 & H5 & H6). split_and!.
    + intros k Hk. by rewrite H4, H1.
    + intros k Hk. rewrite H5; [by apply H2|]. by rewrite H2.
    + intros Hs. by rewrite H6, H3.
Qed.

Lemma fill_argument_le scope props prof args key pk args' :
  key ∈ filled_keys →
  fill_argument scope props prof args (key, pk) = Ok args' → fill_le scope prof args args'.
Proof.
  intros Hk [->|(Ht & -> & Hn)]%fill_argument_spec; [reflexivity|]. split_and!.
  - intros k Hk'. apply dget_dset_ne. by intros ->.
  - intros k Htk. apply dget_or_none_dset_ne. intros ->. congruence.
  - intros Hs. apply dget_or_none_dset_ne. intros <-. by apply Hn.
Qed.

Lemma dget_same_keys k (d e : dict) : dget k d = dget k e → (k ∈ dkeys d ↔ k ∈ dkeys e).
Proof. intros H. by rewrite <-!dget_is_Some, H. Qed.

(** The arguments sent to the bank never contain an authentication flag (a call
    that brings one is refused) nor the scope pseudo-argument, satisfy the tool's
    schema, and are the model's own arguments except that a missing source account
    or phone number is taken from the profile; the phone number of another person is
    never taken from the profile. *)
Theorem arguments_spec (schema_errors : json → json → list str) (c : bank_config)
    (records : list (str * dict)) (call : tool_call) :
  ((∃ k, k ∈ AUTH_FIELDS ∧ k ∈ dkeys (call_arguments call)) →
     arguments schema_errors c records call =
     Raise (ValueError (lit "Authentication flags cannot be supplied by a tool call."))) ∧
  (∀ args, arguments schema_errors c records call = Ok args →
     ∃ record, dget (call_name call) records = Some record ∧
       (∀ k, k ∈ AUTH_FIELDS → k ∉ dkeys args) ∧
       (lit "recipient_scope" ∉ dkeys args) ∧
       schema_errors (JObj (dict_or_empty record.[lit "request_schema"])) (JObj args) = [] ∧
       fill_le (call_scope call) (profile c) (dpop (lit "recipient_scope") (call_arguments call)) args).
Proof.
  unfold arguments. split.
  - intros (k & Hk & Hin). replace (existsb _ AUTH_FIELDS) with true; [done|].
    symmetry. apply existsb_elem_of. exists k. split; [done|]. by apply dhas_true.
  - intros args. destruct (existsb _ AUTH_FIELDS) eqn:Hauth; [done|].
    destruct (dget (call_name call) records) as [record|]; [|done].
    intros (known & _ & H)%exn_bind_Ok. destruct known; [|done]. cbn [negb] in H.
    apply exn_bind_Ok in H as (a1 & H1 & H). apply exn_bind_Ok in H as (a2 & H2 & H).
    destruct (schema_errors _ _) eqn:Herr; [|done]. simplify_eq.
    exists record. split; [done|].
    assert (fill_le (call_scope call) (profile c)
              (dpop (lit "recipient_scope") (call_arguments call)) args) as Hle.
    { transitivity a1.
      - eapply fill_argument_le; [|exact H1]. by left.
      - eapply fill_argument_le; [|exact H2]. right. by left. }
    assert (∀ k, k ∉ filled_keys → k ∈ dkeys args →
              k ≠ lit "recipient_scope" ∧ k ∈ dkeys (call_arguments call)) as Hkeys.
    { intros k Hk Hin. apply elem_of_dkeys_dpop.
      by rewrite <-(dget_same_keys k args); [|apply Hle]. }
    split_and!; [| |done|done].
    + intros k Hk Hin. rewrite existsb_elem_of_false in Hauth. specialize (Hauth k Hk).
      apply Hkeys in Hin as [_ Hin].
      * by apply dhas_true in Hin; rewrite Hin in Hauth.
      * intros Hf. apply in_strs_true in Hk, Hf.
        revert Hk. unfold filled_keys in Hf. apply in_strs_true in Hf.
        rewrite !elem_of_cons, elem_of_nil in Hf.
        destruct Hf as [->|[->|[]]]; by vm_compute.
    + intros [Hne _]%Hkeys; [done|]. apply in_strs_false. vm_compute. reflexivity.
Qed.

(** ** Witnesses *)

(** A fragment of the metaschema, enough for [metaschema_sound]. *)
Definition example_metaschema (s : json) : bool :=
  match s with
  | JObj d =>
      is_dict (default (JObj []) (dget (lit "properties") d)) &&
      match default (JArr []) (dget (lit "required") d) with
      | JArr l => forallb is_str l
      | _ => false
      end
  | _ => false
  end.

Lemma all_strings l : forallb is_str l = true → ∃ k, l = map JStr k.
Proof.
  induction l as [|v l IH]; simpl; [by exists []|].
  intros [Hv [k ->]%IH]%andb_true_iff. destruct v; try done. by exists (s :: k).
Qed.

Lemma example_metaschema_sound : metaschema_sound example_metaschema.
Proof.
  intros d. unfold example_metaschema. intros [Hp Hr]%andb_true_iff. split.
  - intros v Hv. by rewrite Hv in Hp.
  - intros v Hv. rewrite Hv in Hr. simpl in Hr. destruct v; try done.
    apply all_strings in Hr as [k ->]. by exists k.
Qed.

Definition example_tool : dict :=
  [(lit "name", JStr (lit "wema_prepare_airtime_purchase"));
   (lit "url", JStr (lit "https://bank.example/airtime")); (lit "method", JStr (lit "post"));
   (lit "request_schema", JObj
      [(lit "properties", JObj [(lit "phone_number", JObj []); (lit "skip_auth", JObj []);
                                (lit "amount", JObj [])]);
       (lit "required", JArr [JStr (lit "amount"); JStr (lit "phone_number")])])].

Definition example_context : agent_context :=
  mkContext [example_tool] (lit "agent") (lit "business") (lit "user").

Lemma bank_tool_definitions_hide_auth_witness :
  ∃ defs, bank_tool_definitions (λ _, true) example_metaschema example_context = Ok defs ∧
    map (λ d, dkeys (schema_props (def_parameters d))) defs =
      [[lit "phone_number"; lit "amount"; lit "recipient_scope"]] ∧
    Forall2 hides_auth [(lit "wema_prepare_airtime_purchase", example_tool)] defs.
Proof.
  destruct (bank_tool_definitions_hide_auth (λ _, true) example_metaschema example_context
    [(lit "wema_prepare_airtime_purchase", example_tool)]) as [_ (defs & Hd & Hf)].
  - apply example_metaschema_sound.
  - vm_compute. reflexivity.
  - exists defs. split; [exact Hd|]. split; [|exact Hf].
    assert (match bank_tool_definitions (λ _, true) example_metaschema example_context with
            | Ok defs => map (λ d, dkeys (schema_props (def_parameters d))) defs
            | Raise _ => []
            end = [[lit "phone_number"; lit "amount"; lit "recipient_scope"]]) as Hk
      by (vm_compute; reflexivity).
    rewrite Hd in Hk. exact Hk.
Defined.
