(* ===== verification/BankMachine.v ===== *)
(** * Banking tools: latency_lab/banking_tools.py, the session of a call

    The stateful part of [BankingTools] as a machine (Prelude.v): voice checks,
    authorisation and the execution of tool calls, interleaved at every [await].
    A suspended coroutine is a frame; [check_lock] is the frame that holds it.
    Taking the lock is always a step of its own, so the machine allows at least the
    schedules of the asyncio lock.  Time (the monitor's sleep) is the event [Tick]. *)
From stdpp Require Import base list gmap strings.
From Stdlib Require Import ZArith Lia.
From S2P Require Import Prelude Pystr Json Url Banking.

(** ** State *)

(** A run of [execute]: its call, the confirmed operation, and whether a callback
    receives the result. *)
Record exec := mkExec {
  call : tool_call;
  confirmed_operation : str;
  has_on_result : bool;
}.

(** An execution that reached [authorize]: the validated arguments, and the
    generation and clip [authorize] read. *)
Record ready := mkReady {
  ready_exec : exec;
  ready_args : dict;
  ready_generation : Z;
  ready_clip : list Z;
}.

(** The suspension points.  In [Check*] the continuation is [Some r] when
    [check_session] was called by [authorize], [None] for the task of [utterance]. *)
Inductive frame : Type :=
| Started (e : exec)
| CheckLock (generation : Z) (clip : list Z) (k : option ready)
| CheckCompare (generation : Z) (k : option ready)
| CheckEmit (k : option ready)
| AuthCompare (r : ready)
| AuthEmit (r : ready) (passed : bool)
| Posting (r : ready)
| Completing (e : exec) (result : dict) (cancelled : bool)
| ActionEmit (result : dict)
| PeriodicCompare
| PeriodicLock (result : dict)
| PeriodicEmit.

Inductive monitor : Type := NotRunning | Sleeping | Checking.

Record bank := mkBank {
  session_status : str;
  generation : Z;
  checked_generation : Z;
  clip : list Z;
  audio_buffer : list Z;
  check_lock : bool;
  prepared : option dict;
  auth_monitor : monitor;
  last_reason : str;
  frames : gmap nat frame;
  next_frame : nat;
}.

Definition init : bank :=
  mkBank (lit "pending") 0 0 [] [] false None NotRunning [] ∅ 0.

Definition set_status (st reason : str) (s : bank) : bank :=
  mkBank st (generation s) (checked_generation s) (clip s) (audio_buffer s) (check_lock s)
    (prepared s) (auth_monitor s) reason (frames s) (next_frame s).
Definition set_checked (g : Z) (s : bank) : bank :=
  mkBank (session_status s) (generation s) g (clip s) (audio_buffer s) (check_lock s)
    (prepared s) (auth_monitor s) (last_reason s) (frames s) (next_frame s).
Definition set_buffer (b : list Z) (s : bank) : bank :=
  mkBank (session_status s) (generation s) (checked_generation s) (clip s) b (check_lock s)
    (prepared s) (auth_monitor s) (last_reason s) (frames s) (next_frame s).
Definition new_utterance (c : list Z) (s : bank) : bank :=
  mkBank (session_status s) (generation s + 1) (checked_generation s) c (audio_buffer s)
    (check_lock s) (prepared s) (auth_monitor s) (last_reason s) (frames s) (next_frame s).
Definition set_prepared (p : option dict) (s : bank) : bank :=
  mkBank (session_status s) (generation s) (checked_generation s) (clip s) (audio_buffer s)
    (check_lock s) p (auth_monitor s) (last_reason s) (frames s) (next_frame s).
Definition set_monitor (b : monitor) (s : bank) : bank :=
  mkBank (session_status s) (generation s) (checked_generation s) (clip s) (audio_buffer s)
    (check_lock s) (prepared s) b (last_reason s) (frames s) (next_frame s).
Definition push (f : frame) (s : bank) : bank :=
  mkBank (session_status s) (generation s) (checked_generation s) (clip s) (audio_buffer s)
    (check_lock s) (prepared s) (auth_monitor s) (last_reason s)
    (<[next_frame s := f]> (frames s)) (S (next_frame s)).
Definition pop (i : nat) (s : bank) : bank :=
  mkBank (session_status s) (generation s) (checked_generation s) (clip s) (audio_buffer s)
    (check_lock s) (prepared s) (auth_monitor s) (last_reason s)
    (delete i (frames s)) (next_frame s).
Definition set_lock (b : bool) (s : bank) : bank :=
  mkBank (session_status s) (generation s) (checked_generation s) (clip s) (audio_buffer s)
    b (prepared s) (auth_monitor s) (last_reason s) (frames s) (next_frame s).

(** ** Events and effects *)

(** How a suspended frame resumes: a message was sent, the lock was granted, the
    voice sidecar replied, the bank replied with a status and a decoded body.  A
    cancellation is [Raise CancelledError]. *)
Inductive resume : Type :=
| Sent (r : exn unit)
| Acquired (r : exn unit)
| Replied (r : exn json)
| Posted (r : exn (Z * json)).

Inductive event : Type :=
| Ingest (pcm : list Z)
| Utterance (pcm : list Z)
| Tick
| Execute (c : tool_call) (confirmed_operation : str) (on_result : bool)
| ClearPrepared (** [banking.prepared = None] in latency_lab/pipeline.py *)
| Resume (i : nat) (r : resume).

(** [request] is the frame that awaits the reply and [purpose] the execution a clip is
    compared for ([None] for the checks of the session); they are not sent. *)
Inductive effect : Type :=
| Activity (id name event : str) (arguments : dict) (result : option dict) (status : json)
| VerifyPost (request : nat) (purpose : option exec) (email customer_id : option str) (clip : list Z)
| AuthStatus (status : str) (authenticated : bool) (reason : str) (source : option str)
| ActionStatus (passed : bool) (score reason : json)
| AuthAction (completed authorized : bool) (reason : json)
| PostTool (request : nat) (name : str) (url : json) (args : dict) (headers : list (str * str))
| OnResult (result : dict)
| Returned (result : dict)
| Uncaught (e : pyexc).

Definition EXECUTE : str := lit "wema_execute_prepared".

Definition activity_arguments (c : tool_call) : dict :=
  let arguments := List.filter (λ kv, negb (in_strs kv.1 AUTH_FIELDS)) (call_arguments c) in
  if (call_name c =s lit "email_provider_results") && dhas (lit "recipient_email") arguments
  then dset (lit "recipient_email") (JStr (lit "[redacted]")) arguments else arguments.

Definition activity (c : tool_call) (event : str) (result : option dict) : effect :=
  Activity (call_id c) (call_name c) event (activity_arguments c) result
    match result with
    | Some (_ :: _ as r) => default (JStr (lit "failed")) (dget (lit "status") r)
    | _ => JStr (lit "running")
    end.

Definition no_match (reason : string) : dict :=
  [(lit "matched", JBool false); (lit "reason", JStr (lit reason))].

(** [compare] after the request to the sidecar. *)
Definition compare_result (reply : exn json) : exn dict :=
  match reply with
  | Ok (JObj d) => Ok d
  | Ok _ => Ok (no_match "invalid_verification_response")
  | Raise (HttpError | TimeoutError | ValueError _) =>
      Ok (no_match "voice_verification_unavailable")
  | Raise e => Raise e
  end.

Definition too_short : dict := no_match "audio_too_short_or_not_enrolled".

(** The rolling window: eight seconds of 16 kHz 16-bit audio. *)
Definition WINDOW : nat := Z.to_nat (8 * 16000 * 2).
(** [1.2 * 16000 * 2] bytes. *)
Definition MIN_CLIP : Z := 38400.

Definition customer_char (c : Z) : bool :=
  is_alpha c || ((48 <=? c) && (c <=? 57)) || (c =? 95) || (c =? 45).

(** [re.fullmatch(r"[A-Za-z0-9_-]{1,120}", customer)] *)
Definition customer_ok (s : str) : bool :=
  forallb customer_char s && (1 <=? slen s) && (slen s <=? 120).

Section machine.
Context (schema_errors : json → json → list str) (c : bank_config)
  (records : list (str * dict)).

(** [compare] goes to the sidecar only for an enrolled caller and a long enough clip. *)
Definition compare_ready (clip : list Z) : bool :=
  negb (bool_decide (owner c = []) && bool_decide (customer_id c = []))
  && negb (bool_decide (sidecar c = [])) && (MIN_CLIP <=? Z.of_nat (length clip)).

Definition verify (s : bank) (purpose : option exec) (clip : list Z) : effect :=
  VerifyPost (next_frame s) purpose (if has_char 64 (owner c) then Some (owner c) else None)
    (if bool_decide (customer_id c = []) then None else Some (customer_id c)) clip.

Definition matched (result : dict) : bool := is_true result.[lit "matched"].

(** *** The end of [execute] *)

Definition complete (e : exec) (result : dict) (cancelled : bool) (s : bank)
    : bank * list effect :=
  (push (Completing e result cancelled) s,
   (if has_on_result e then [OnResult result] else []) ++
   [activity (call e) (lit "completed") (Some result)]).

(** An exception out of [_execute]. *)
Definition abort (e : exec) (ex : pyexc) (s : bank) : bank * list effect :=
  match ex with
  | CancelledError =>
      complete e (failed (lit "Request interrupted; its outcome is not confirmed.") []) true s
  | HttpError | TimeoutError | ValueError _ | KeyError _ =>
      complete e (failed (lit "The configured banking service could not complete this request.")
                    []) false s
  | _ => (s, [Uncaught ex])
  end.

Definition completed (e : exec) (result : dict) (s : bank) : bank * list effect :=
  if (call_name (call e) =s EXECUTE) && voice_auth_required c then
    match in_str_set result.[lit "status"] [lit "ok"; lit "success"; lit "completed"] with
    | Raise ex => (s, [Uncaught ex])
    | Ok done_ =>
        (push (ActionEmit result) s,
         [AuthAction done_ (jeq_str result.[lit "auth_status"] (lit "verified"))
            (if done_ then JStr []
             else default (JStr (lit "Request blocked.")) (dget (lit "message") result))])
    end
  else (s, [Returned result]).

(** *** The request to the bank *)

Definition request_headers (customer : str) (name : str) (record : dict)
    : exn (list (str * str)) :=
  match jor record.[lit "headers"] (JObj []) with
  | JObj h =>
      Ok (dupdate (map (λ kv, (kv.1, py_str kv.2)) h)
        [(lit "X-Tool-Name", name); (lit "X-Client-Id", lit "sales-girl-voice-agent");
         (lit "X-Agent-Id", agent_id (context c)); (lit "X-Business-Id", business_id (context c));
         (lit "X-Session-Id", session_id c); (lit "X-Conversation-Id", session_id c);
         (lit "X-End-User-Id", end_user_id (context c)); (lit "X-Wema-Customer-Id", customer)])
  | _ => Raise AttributeError
  end.

Definition raw_customer : str := str_or_empty (profile c).[lit "customer_id"].

Definition post_tool (r : ready) (s : bank) : bank * list effect :=
  let e := ready_exec r in
  let name := call_name (call e) in
  let record := default [] (dget name records) in
  match request_headers raw_customer name record with
  | Raise ex => abort e ex s
  | Ok headers =>
      let s := if name =s EXECUTE then set_prepared None s else s in
      match jindex (lit "url") record with
      | Raise ex => abort e ex s
      | Ok url => (push (Posting r) s, [PostTool (next_frame s) name url (ready_args r) headers])
      end
  end.

Definition is_prepare (name : str) : bool := starts_with (lit "wema_prepare_") name.

(** The continuation of the request. *)
Definition posted (r : ready) (reply : exn (Z * json)) (s : bank) : bank * list effect :=
  let e := ready_exec r in
  let name := call_name (call e) in
  match reply with
  | Raise ex => abort e ex s
  | Ok (status, JObj body) =>
      if 300 <=? status then
        complete e (failed (lit "The banking service returned HTTP " ++ str_of_Z status ++ lit ".")
                      [(lit "http_status", JInt status)]) false s
      else
        let auth_status := if voice_auth_required c then lit "verified" else lit "not_required" in
        let result := dupdate body [(lit "tool_name", JStr name);
                                    (lit "auth_status", JStr auth_status);
                                    (lit "action_status", JStr auth_status)] in
        if is_prepare name && jeq_str body.[lit "status"] (lit "prepared") then
          match default (JObj []) (dget (lit "data") body) with
          | JObj data =>
              let s := if truthy data.[lit "operation_id"] && is_dict data.[lit "preview"]
                       then set_prepared (Some data) s else s in
              complete e result false s
          | _ => abort e AttributeError s
          end
        else complete e result false s
  | Ok (_, _) => complete e (failed (lit "The banking service returned an invalid response.") [])
                   false s
  end.

(** *** Authorisation *)

Definition authorized (r : ready) (ok : bool) (s : bank) : bank * list effect :=
  if ok then post_tool r s
  else
    complete (ready_exec r)
      (failed (lit "Voice verification has not passed, so this transaction cannot be authorised on this call.")
        [(lit "auth_required", JBool true); (lit "auth_status", JStr (session_status s));
         (lit "auth_reason", JStr (last_reason s))]) false s.

Definition auth_compared (r : ready) (result : dict) (s : bank) : bank * list effect :=
  let passed := matched result && (ready_generation r =? generation s) in
  (push (AuthEmit r passed) s,
   [ActionStatus passed result.[lit "score"] (default (JStr []) (dget (lit "reason") result))]).

Definition verified (s : bank) : bool := session_status s =s lit "verified".

(** [check_session] returned. *)
Definition check_done (k : option ready) (s : bank) : bank * list effect :=
  match k with
  | None => (s, [])
  | Some r =>
      if compare_ready (ready_clip r) then (push (AuthCompare r) s, [verify s (Some (ready_exec r)) (ready_clip r)])
      else auth_compared r too_short s
  end.

(** [check_session] raised. *)
Definition check_raised (k : option ready) (ex : pyexc) (s : bank) : bank * list effect :=
  match k with
  | None => (s, [Uncaught ex])
  | Some r => abort (ready_exec r) ex s
  end.

Definition status_of (result : dict) : str :=
  if matched result then lit "verified" else lit "failed".

Definition check_compared (g : Z) (k : option ready) (result : dict) (s : bank)
    : bank * list effect :=
  let s := set_status (status_of result) (str_or_empty result.[lit "reason"]) (set_checked g s) in
  (push (CheckEmit k) s,
   [AuthStatus (session_status s) (verified s) (last_reason s) None]).

(** [check_session] with the lock just granted. *)
Definition check_locked (g : Z) (clip : list Z) (k : option ready) (s : bank)
    : bank * list effect :=
  if verified s || (g <=? checked_generation s) then check_done k s
  else
    let s := set_lock true s in
    if compare_ready clip then (push (CheckCompare g k) s, [verify s None clip])
    else check_compared g k too_short s.

(** [authorize] up to its first suspension. *)
Definition authorize (r : ready) (s : bank) : bank * list effect :=
  if bool_decide (identity c = []) then authorized r false s
  else if negb (voice_auth_required c) then authorized r true s
  else if ready_generation r =? 0 then authorized r false s
  else (push (CheckLock (ready_generation r) (ready_clip r) (Some r)) s, []).

(** *** [_execute] up to [authorize] *)

Definition needs_input (message : str) : dict :=
  [(lit "status", JStr (lit "needs_input")); (lit "message", JStr message); (lit "data", JObj [])].

(** The guard of an execution: [Ok true] when the latest preview is the confirmed one. *)
Definition preview_confirmed (e : exec) (args : dict) (s : bank) : exn bool :=
  match prepared s with
  | None => Ok false
  | Some p =>
      do! op := jindex (lit "operation_id") args in
      do! previewed := jindex (lit "operation_id") p in
      Ok (py_eq op previewed && jeq_str op (confirmed_operation e))
  end.

Definition execute_body (e : exec) (s : bank) : bank * list effect :=
  let name := call_name (call e) in
  if negb (dhas name records) || bool_decide (identity c = []) then
    complete e (failed (lit "That tool is not enabled for this call.") []) false s
  else if negb (customer_ok raw_customer) then
    complete e (failed (lit "The caller profile is missing its customer ID.") []) false s
  else
    let s := if is_prepare name then set_prepared None s else s in
    match arguments schema_errors c records (call e) with
    | Raise (ValueError m) => complete e (needs_input m) false s
    | Raise ex => abort e ex s
    | Ok args =>
        let r := mkReady e args (generation s) (clip s) in
        if name =s EXECUTE then
          match preview_confirmed e args s with
          | Raise ex => abort e ex s
          | Ok false =>
              complete e (failed (lit "The latest preview must be confirmed in a separate caller turn.")
                            []) false s
          | Ok true => authorize r s
          end
        else authorize r s
    end.

(** *** Voice audio *)

Definition ensure_monitor (s : bank) : bank :=
  if negb (voice_auth_required c) || bool_decide (records = []) || bool_decide (identity c = [])
  then s
  else match auth_monitor s with NotRunning => set_monitor Sleeping s | _ => s end.

Definition ingest_pcm (pcm : list Z) (s : bank) : bank :=
  if voice_auth_required c
  then ensure_monitor (set_buffer (last_n WINDOW (audio_buffer s ++ pcm)) s)
  else s.

Definition utterance (pcm : list Z) (s : bank) : bank :=
  if voice_auth_required c then
    let s := new_utterance (match audio_buffer s with
                            | [] => last_n WINDOW pcm
                            | buffer => buffer
                            end) s in
    if negb (bool_decide (records = [])) && negb (bool_decide (identity c = []))
       && negb (verified s)
    then push (CheckLock (generation s) (clip s) None) s else s
  else s.

(** One turn of the monitor's loop, after its sleep. *)
Definition tick (s : bank) : bank * list effect :=
  let clip := audio_buffer s in
  if Z.of_nat (length clip) <? MIN_CLIP then (s, [])
  else
    let s := set_monitor Checking s in
    if compare_ready clip then (push PeriodicCompare s, [verify s None clip])
    else (push (PeriodicLock too_short) s, []).

Definition periodic_locked (result : dict) (s : bank) : bank * list effect :=
  let previous := session_status s in
  let s := set_status (status_of result) (str_or_empty result.[lit "reason"]) s in
  if bool_decide (session_status s ≠ previous) || negb (matched result)
  then (push PeriodicEmit s,
        [AuthStatus (session_status s) (verified s) (last_reason s) (Some (lit "interval"))])
  else (set_monitor Sleeping s, []).

Definition monitor_raised (ex : pyexc) (s : bank) : bank * list effect :=
  (set_monitor NotRunning s, [Uncaught ex]).

(** *** Resumption *)

(** [s] is the state without the frame [f]. *)
Definition resume_frame (f : frame) (r : resume) (s : bank) : option (bank * list effect) :=
  match f, r with
  | Started e, Sent (Ok _) => Some (execute_body e s)
  | CheckLock g clip k, Acquired (Ok _) =>
      if check_lock s then None else Some (check_locked g clip k s)
  | CheckLock _ _ k, Acquired (Raise ex) => Some (check_raised k ex s)
  | CheckCompare g k, Replied reply =>
      Some match compare_result reply with
           | Ok result => check_compared g k result s
           | Raise ex => check_raised k ex (set_lock false s)
           end
  | CheckEmit k, Sent (Ok _) => Some (check_done k (set_lock false s))
  | CheckEmit k, Sent (Raise ex) => Some (check_raised k ex (set_lock false s))
  | AuthCompare r, Replied reply =>
      Some match compare_result reply with
           | Ok result => auth_compared r result s
           | Raise ex => abort (ready_exec r) ex s
           end
  | AuthEmit r passed, Sent (Ok _) => Some (authorized r (verified s && passed) s)
  | AuthEmit r _, Sent (Raise ex) => Some (abort (ready_exec r) ex s)
  | Posting r, Posted reply => Some (posted r reply s)
  | Completing e result cancelled, Sent (Ok _) =>
      Some (if cancelled then (s, [Uncaught CancelledError]) else completed e result s)
  | ActionEmit result, Sent (Ok _) => Some (s, [Returned result])
  | Started _, Sent (Raise ex) | Completing _ _ _, Sent (Raise ex)
  | ActionEmit _, Sent (Raise ex) => Some (s, [Uncaught ex])
  | PeriodicCompare, Replied reply =>
      Some match compare_result reply with
           | Ok result => (push (PeriodicLock result) s, [])
           | Raise ex => monitor_raised ex s
           end
  | PeriodicLock result, Acquired (Ok _) =>
      if check_lock s then None else Some (periodic_locked result s)
  | PeriodicEmit, Sent (Ok _) => Some (set_monitor Sleeping s, [])
  | PeriodicLock _, Acquired (Raise ex) | PeriodicEmit, Sent (Raise ex) =>
      Some (monitor_raised ex s)
  | _, _ => None
  end.

Definition step (s : bank) (e : event) : option (bank * list effect) :=
  match e with
  | Ingest pcm => Some (ingest_pcm pcm s, [])
  | Utterance pcm => Some (utterance pcm s, [])
  | Tick => match auth_monitor s with Sleeping => Some (tick s) | _ => None end
  | Execute cl confirmed cb =>
      Some (push (Started (mkExec cl confirmed cb)) s, [activity cl (lit "started") None])
  | ClearPrepared => Some (set_prepared None s, [])
  | Resume i r =>
      match frames s !! i with
      | Some f => resume_frame f r (pop i s)
      | None => None
      end
  end.
End machine.

#[global] Arguments failed : simpl never.
#[global] Arguments activity : simpl never.
#[global] Arguments MIN_CLIP : simpl never.
#[global] Arguments WINDOW : simpl never.

(** ** What a history witnesses *)

(** The sidecar answered [matched: true] to a request about [clip], asked
    for the session or for an execution. *)
Definition matched_by (es : list event) (outs : list effect) (purpose : option exec)
    (clip : list Z) : Prop :=
  ∃ i email cid d, VerifyPost i purpose email cid clip ∈ outs ∧
    Resume i (Replied (Ok (JObj d))) ∈ es ∧ matched d = true.

(** The bank answered a preparation request with the preview [p]. *)
Definition previewed (es : list event) (outs : list effect) (p : dict) : Prop :=
  ∃ i name url args hdr status body,
    PostTool i name url args hdr ∈ outs ∧ is_prepare name = true ∧
    Resume i (Posted (Ok (status, JObj body))) ∈ es ∧ status < 300 ∧
    body.[lit "status"] = JStr (lit "prepared") ∧ body.[lit "data"] = JObj p ∧
    truthy p.[lit "operation_id"] = true ∧ is_dict p.[lit "preview"] = true.

(** [op] is the operation of such a preview, and its confirmation was passed in. *)
Definition confirmed_preview (es : list event) (outs : list effect) (args : dict)
    (op : str) : Prop :=
  args.[lit "operation_id"] = JStr op ∧
  ∃ p, previewed es outs p ∧ p.[lit "operation_id"] = JStr op.

Lemma matched_by_mono es es' outs outs' purpose clip :
  es ⊆ es' → outs ⊆ outs' → matched_by es outs purpose clip → matched_by es' outs' purpose clip.
Proof. intros He Ho (i & e & cid & d & H1 & H2 & H3). exists i, e, cid, d. eauto. Qed.

Lemma previewed_mono es es' outs outs' p :
  es ⊆ es' → outs ⊆ outs' → previewed es outs p → previewed es' outs' p.
Proof.
  intros He Ho (i & n & u & a & h & st & b & H1 & H2 & H3 & H).
  exists i, n, u, a, h, st, b. split; [by apply Ho|]. split; [done|].
  split; [by apply He|done].
Qed.

Lemma confirmed_preview_mono es es' outs outs' args op :
  es ⊆ es' → outs ⊆ outs' → confirmed_preview es outs args op → confirmed_preview es' outs' args op.
Proof. intros He Ho [H (p & Hp & Hop)]. split; [done|]. eauto using previewed_mono. Qed.

Section invariant.
Context (schema_errors : json → json → list str) (c : bank_config)
  (records : list (str * dict)).

(** An execution of the history with validated arguments; an execution of a prepared
    operation is of a confirmed preview. *)
Definition ready_ok (es : list event) (outs : list effect) (r : ready) : Prop :=
  let e := ready_exec r in
  Execute (call e) (confirmed_operation e) (has_on_result e) ∈ es ∧
  arguments schema_errors c records (call e) = Ok (ready_args r) ∧
  (call_name (call e) = EXECUTE →
     confirmed_preview es outs (ready_args r) (confirmed_operation e)).

Definition verify_sent (outs : list effect) (i : nat) (purpose : option exec)
    (clip : list Z) : Prop :=
  ∃ email cid, VerifyPost i purpose email cid clip ∈ outs.

Definition frame_inv (es : list event) (outs : list effect) (i : nat) (f : frame) : Prop :=
  match f with
  | Started e => Execute (call e) (confirmed_operation e) (has_on_result e) ∈ es
  | CheckLock _ _ (Some r) | CheckEmit (Some r) => ready_ok es outs r
  | CheckCompare _ (Some r) => ready_ok es outs r ∧ ∃ clip, verify_sent outs i None clip
  | CheckCompare _ None | PeriodicCompare => ∃ clip, verify_sent outs i None clip
  | AuthCompare r => ready_ok es outs r ∧ verify_sent outs i (Some (ready_exec r)) (ready_clip r)
  | AuthEmit r passed =>
      ready_ok es outs r ∧ (passed = true → matched_by es outs (Some (ready_exec r)) (ready_clip r))
  | Posting r =>
      ready_ok es outs r ∧
      ∃ url args hdr, PostTool i (call_name (call (ready_exec r))) url args hdr ∈ outs
  | PeriodicLock result => matched result = true → ∃ clip, matched_by es outs None clip
  | _ => True
  end.

(** What a request to the bank in the history stands on. *)
Definition post_ok (es : list event) (outs : list effect) (x : effect) : Prop :=
  match x with
  | PostTool _ name _ args _ =>
      ∃ r, ready_ok es outs r ∧ call_name (call (ready_exec r)) = name ∧ ready_args r = args ∧
        (voice_auth_required c = true →
           (∃ clip, matched_by es outs None clip) ∧ matched_by es outs (Some (ready_exec r)) (ready_clip r))
  | _ => True
  end.

Record inv (es : list event) (s : bank) (outs : list effect) : Prop := {
  inv_frames : ∀ i f, frames s !! i = Some f → frame_inv es outs i f;
  inv_prepared : ∀ p, prepared s = Some p → previewed es outs p;
  inv_verified : verified s = true → ∃ clip, matched_by es outs None clip;
  inv_posts : ∀ x, x ∈ outs → post_ok es outs x;
}.

Lemma ready_ok_mono es es' outs outs' r :
  es ⊆ es' → outs ⊆ outs' → ready_ok es outs r → ready_ok es' outs' r.
Proof.
  intros He Ho (H1 & H2 & H3). split_and!; [by apply He|done|].
  intros Hn. eauto using confirmed_preview_mono.
Qed.

Lemma frame_inv_mono es es' outs outs' i f :
  es ⊆ es' → outs ⊆ outs' → frame_inv es outs i f → frame_inv es' outs' i f.
Proof.
  intros He Ho. unfold frame_inv, verify_sent.
  pose proof (ready_ok_mono es es' outs outs') as Hr.
  pose proof (matched_by_mono es es' outs outs') as Hm.
  destruct f as [|? ? []|? []|[]| | | | | | | |]; naive_solver.
Qed.

Lemma post_ok_mono es es' outs outs' x :
  es ⊆ es' → outs ⊆ outs' → post_ok es outs x → post_ok es' outs' x.
Proof.
  intros He Ho. unfold post_ok. destruct x; try done.
  intros (r & Hr & Hn & Ha & Hv). exists r. split; [by eapply ready_ok_mono|].
  split; [done|]. split; [done|]. intros [[clip Hc] Hm]%Hv.
  split; [exists clip|]; by eapply matched_by_mono.
Qed.

(** A later history with the same state, apart from the frames. *)
Lemma inv_mono es es' s outs o :
  inv es s outs → es ⊆ es' → (∀ x, x ∈ o → post_ok es' (outs ++ o) x) → inv es' s (outs ++ o).
Proof.
  intros [Hf Hp Hv Hx] He Ho.
  assert (outs ⊆ outs ++ o) as Hsub by (intros x Hin; apply elem_of_app; by left).
  split.
  - intros i f Hi. eapply frame_inv_mono; eauto.
  - intros p Hpp. eapply previewed_mono; eauto.
  - intros [clip Hc]%Hv. exists clip. eapply matched_by_mono; eauto.
  - intros x [Hin|Hin]%elem_of_app; [|by apply Ho]. eapply post_ok_mono; eauto.
Qed.

Lemma inv_pop es i s outs : inv es s outs → inv es (pop i s) outs.
Proof.
  intros [Hf Hp Hv Hx]. split; [|done..].
  intros j f Hj. simpl in Hj. apply lookup_delete_Some in Hj as [_ Hj]. by apply Hf.
Qed.

Lemma inv_put es f s outs :
  inv es s outs → frame_inv es outs (next_frame s) f → inv es (push f s) outs.
Proof.
  intros [Hf Hp Hv Hx] Hok. split; [|done..].
  intros i g. simpl. destruct (decide (i = next_frame s)) as [->|Hne].
  - rewrite lookup_insert_eq. by intros [= <-].
  - rewrite lookup_insert_ne by done. apply Hf.
Qed.

(** The state changes only in fields the invariant does not read. *)
Lemma inv_state es s s' outs :
  inv es s outs → frames s' = frames s → prepared s' = prepared s →
  session_status s' = session_status s → inv es s' outs.
Proof.
  intros [Hf Hp Hv Hx] H1 H2 H3. split; rewrite ?H1, ?H2; try done.
  unfold verified. rewrite H3. done.
Qed.

(** Effects that are not requests to the bank. *)
Definition plain (x : effect) : Prop := match x with PostTool _ _ _ _ _ => False | _ => True end.

Lemma inv_plain es s outs o : inv es s outs → Forall plain o → inv es s (outs ++ o).
Proof.
  intros Hi Ho. eapply inv_mono; [done|done|]. intros x Hx.
  rewrite Forall_forall in Ho. specialize (Ho x Hx). by destruct x.
Qed.

Lemma elem_of_outs {A} (outs o : list A) x : x ∈ o → x ∈ outs ++ o.
Proof. intros H. apply elem_of_app. by right. Qed.

Lemma complete_inv es e result cancelled s outs s' o :
  inv es s outs → complete e result cancelled s = (s', o) → inv es s' (outs ++ o).
Proof.
  intros Hi. unfold complete. intros [= <- <-]. apply inv_put; [|done].
  apply inv_plain; [done|]. apply Forall_app. split; [|by repeat constructor].
  destruct (has_on_result e); by repeat constructor.
Qed.

Lemma abort_inv es e ex s outs s' o :
  inv es s outs → abort e ex s = (s', o) → inv es s' (outs ++ o).
Proof.
  intros Hi. unfold abort.
  destruct ex; try (by apply complete_inv); intros [= <- <-];
    by apply inv_plain; [|repeat constructor].
Qed.

Lemma completed_inv es e result s outs s' o :
  inv es s outs → completed c e result s = (s', o) → inv es s' (outs ++ o).
Proof.
  intros Hi. unfold completed. destruct (_ && _).
  - destruct (in_str_set _ _); intros [= <- <-].
    + apply inv_put; [|done]. by apply inv_plain; [|repeat constructor].
    + by apply inv_plain; [|repeat constructor].
  - intros [= <- <-]. by apply inv_plain; [|repeat constructor].
Qed.

Lemma inv_set_prepared es s outs p :
  inv es s outs → (∀ q, p = Some q → previewed es outs q) → inv es (set_prepared p s) outs.
Proof. intros [Hf _ Hv Hx] Hp. by split. Qed.

Lemma inv_clear_prepared es s outs : inv es s outs → inv es (set_prepared None s) outs.
Proof. intros Hi. by apply inv_set_prepared. Qed.

Lemma inv_maybe_clear es (b : bool) s outs :
  inv es s outs → inv es (if b then set_prepared None s else s) outs.
Proof. destruct b; [apply inv_clear_prepared|done]. Qed.

Lemma post_tool_inv es r s outs s' o :
  inv es s outs → ready_ok es outs r →
  (voice_auth_required c = true →
     (∃ clip, matched_by es outs None clip) ∧ matched_by es outs (Some (ready_exec r)) (ready_clip r)) →
  post_tool c records r s = (s', o) → inv es s' (outs ++ o).
Proof.
  intros Hi Hr Hv. unfold post_tool.
  destruct (request_headers _ _ _ _) as [hdr|ex]; [|by apply abort_inv].
  set (s1 := if _ =s _ then _ else s).
  assert (inv es s1 outs) as Hi1 by (by apply inv_maybe_clear).
  destruct (jindex _ _) as [url|ex]; [|by apply abort_inv].
  intros [= <- <-]. apply inv_put.
  - eapply inv_mono; [done|done|]. intros x ->%list_elem_of_singleton. simpl.
    exists r. split; [eapply ready_ok_mono; [done| |done]; intros y; rewrite elem_of_app; tauto|].
    do 2 (split; [done|]). intros [[clip Hc] Hm]%Hv.
    assert (outs ⊆ outs ++ [PostTool (next_frame s1) (call_name (call (ready_exec r))) url
                              (ready_args r) hdr]) as Hsub
      by (intros y; rewrite elem_of_app; tauto).
    split; [exists clip|]; by eapply matched_by_mono.
  - simpl. split.
    + eapply ready_ok_mono; [done| |done]. intros y. rewrite elem_of_app. tauto.
    + exists url, (ready_args r), hdr. apply elem_of_outs. by left.
Qed.

Lemma posted_inv es r i reply s outs s' o :
  inv es s outs →
  (∃ url args hdr, PostTool i (call_name (call (ready_exec r))) url args hdr ∈ outs) →
  Resume i (Posted reply) ∈ es →
  posted c r reply s = (s', o) → inv es s' (outs ++ o).
Proof.
  intros Hi (url & args & hdr & Hp) He. unfold posted.
  destruct reply as [[status body]|ex]; [|by apply abort_inv].
  destruct body as [| | | | | |body]; try by apply complete_inv.
  destruct (300 <=? status) eqn:Hst; [by apply complete_inv|].
  destruct (is_prepare _ && _) eqn:Hprep; [|by apply complete_inv].
  apply andb_true_iff in Hprep as [Hprep Hstatus].
  destruct (default _ _) as [| | | | | |data] eqn:Hdata; try by apply abort_inv.
  apply complete_inv.
  destruct (truthy data.[lit "operation_id"] && _) eqn:Hok; [|done].
  apply andb_true_iff in Hok as [Hop Hpv].
  apply inv_set_prepared; [done|]. intros p [= <-].
  exists i, (call_name (call (ready_exec r))), url, args, hdr, status, body.
  split_and!; try done; [lia| |].
  - unfold jeq_str in Hstatus. destruct (body.[lit "status"]); try done.
    by apply str_eqb_true in Hstatus as ->.
  - unfold dget_or_none. destruct (dget (lit "data") body) as [v|]; simpl in *; [congruence|].
    by simplify_eq.
Qed.

Lemma authorized_inv es r ok s outs s' o :
  inv es s outs → ready_ok es outs r →
  (ok = true → voice_auth_required c = true →
     (∃ clip, matched_by es outs None clip) ∧ matched_by es outs (Some (ready_exec r)) (ready_clip r)) →
  authorized c records r ok s = (s', o) → inv es s' (outs ++ o).
Proof.
  intros Hi Hr Hv. unfold authorized. destruct ok.
  - apply post_tool_inv; [done|done|by apply Hv].
  - by apply complete_inv.
Qed.

Lemma auth_compared_inv es r result s outs s' o :
  inv es s outs → ready_ok es outs r →
  (matched result = true → matched_by es outs (Some (ready_exec r)) (ready_clip r)) →
  auth_compared r result s = (s', o) → inv es s' (outs ++ o).
Proof.
  intros Hi Hr Hm. unfold auth_compared. intros [= <- <-].
  assert (outs ⊆ outs ++ [ActionStatus (matched result && (ready_generation r =? generation s))
            result.[lit "score"] (default (JStr []) (dget (lit "reason") result))]) as Hsub
    by (intros y; rewrite elem_of_app; tauto).
  apply inv_put; [by apply inv_plain; [|repeat constructor]|]. split.
  - by eapply ready_ok_mono.
  - intros [Hma _]%andb_true_iff. eapply matched_by_mono; [done|done|by apply Hm].
Qed.

Lemma check_done_inv es k s outs s' o :
  inv es s outs → (∀ r, k = Some r → ready_ok es outs r) →
  check_done c k s = (s', o) → inv es s' (outs ++ o).
Proof.
  intros Hi Hk. unfold check_done. destruct k as [r|].
  - destruct (compare_ready c _).
    + intros [= <- <-]. apply inv_put; [by apply inv_plain; [|repeat constructor]|]. split.
      * eapply ready_ok_mono; [done| |by apply Hk]. intros y. rewrite elem_of_app. tauto.
      * unfold verify_sent. do 2 eexists. apply elem_of_outs. by left.
    + apply auth_compared_inv; [done|by apply Hk|]. by vm_compute.
  - intros [= <- <-]. by apply inv_plain.
Qed.

Lemma check_raised_inv es k ex s outs s' o :
  inv es s outs → check_raised k ex s = (s', o) → inv es s' (outs ++ o).
Proof.
  intros Hi. unfold check_raised. destruct k; [by apply abort_inv|].
  intros [= <- <-]. by apply inv_plain; [|repeat constructor].
Qed.

Lemma inv_set_status es st reason s outs :
  inv es s outs → (st = lit "verified" → ∃ clip, matched_by es outs None clip) →
  inv es (set_status st reason s) outs.
Proof. intros [Hf Hp _ Hx] Hv. split; try done. intros H%str_eqb_true. by apply Hv. Qed.

Lemma status_of_verified result : status_of result = lit "verified" → matched result = true.
Proof. unfold status_of. by destruct (matched result). Qed.

Lemma check_compared_inv es g k result s outs s' o :
  inv es s outs → (∀ r, k = Some r → ready_ok es outs r) →
  (matched result = true → ∃ clip, matched_by es outs None clip) →
  check_compared g k result s = (s', o) → inv es s' (outs ++ o).
Proof.
  intros Hi Hk Hm. unfold check_compared. intros [= <- <-]. apply inv_put.
  - apply inv_plain; [|by repeat constructor]. apply inv_set_status.
    + by eapply inv_state.
    + intros H. by apply Hm, status_of_verified.
  - destruct k as [r|]; [|done]. simpl. eapply ready_ok_mono; [done| |by apply Hk].
    intros y. rewrite elem_of_app. tauto.
Qed.

Lemma check_locked_inv es g cl k s outs s' o :
  inv es s outs → (∀ r, k = Some r → ready_ok es outs r) →
  check_locked c g cl k s = (s', o) → inv es s' (outs ++ o).
Proof.
  intros Hi Hk. unfold check_locked. destruct (_ || _); [by apply check_done_inv|].
  assert (inv es (set_lock true s) outs) as Hi' by (by eapply inv_state).
  destruct (compare_ready c cl).
  - intros [= <- <-]. apply inv_put; [by apply inv_plain; [|repeat constructor]|].
    set (x := verify c _ None cl).
    assert (∃ clip, verify_sent (outs ++ [x]) (next_frame s) None clip) as Hv.
    { exists cl. unfold verify_sent. do 2 eexists. apply elem_of_outs. by left. }
    destruct k as [r|]; simpl; [|done]. split; [|done].
    eapply ready_ok_mono; [done| |by apply Hk]. intros y. rewrite elem_of_app. tauto.
  - apply check_compared_inv; [done|done|]. by vm_compute.
Qed.

Lemma authorize_inv es r s outs s' o :
  inv es s outs → ready_ok es outs r →
  authorize c records r s = (s', o) → inv es s' (outs ++ o).
Proof.
  intros Hi Hr. unfold authorize.
  case_bool_decide; [by apply authorized_inv|].
  destruct (voice_auth_required c) eqn:Hreq; cbn [negb].
  - destruct (_ =? 0); [by apply authorized_inv|]. intros [= <- <-].
    rewrite app_nil_r. by apply inv_put.
  - apply authorized_inv; [done|done|]. congruence.
Qed.

Lemma jeq_str_true v t : jeq_str v t = true → v = JStr t.
Proof. unfold jeq_str. destruct v; try done. by intros ->%str_eqb_true. Qed.

Lemma py_eq_str t v : py_eq (JStr t) v = true → v = JStr t.
Proof. destruct v; try done. simpl. by intros ->%str_eqb_true. Qed.

Lemma jindex_get k (d : dict) v : jindex k d = Ok v → d.[k] = v.
Proof. unfold jindex, dget_or_none. destruct (dget k d); simpl; congruence. Qed.

Lemma preview_confirmed_inv es e args s outs :
  inv es s outs → preview_confirmed e args s = Ok true →
  confirmed_preview es outs args (confirmed_operation e).
Proof.
  intros Hi. unfold preview_confirmed.
  destruct (prepared s) as [p|] eqn:Hp; [|done].
  intros (op & Hop & (pop & Hpop & H)%exn_bind_Ok)%exn_bind_Ok.
  injection H as H. apply andb_true_iff in H as [Heq ->%jeq_str_true].
  apply py_eq_str in Heq as ->. apply jindex_get in Hop, Hpop.
  split; [done|]. exists p. split; [|done]. by eapply inv_prepared.
Qed.

Lemma execute_body_inv es e s outs s' o :
  inv es s outs →
  Execute (call e) (confirmed_operation e) (has_on_result e) ∈ es →
  execute_body schema_errors c records e s = (s', o) → inv es s' (outs ++ o).
Proof.
  intros Hi0 He. unfold execute_body.
  destruct (negb (dhas _ _) || _); [by apply complete_inv|].
  destruct (negb (customer_ok _)); [by apply complete_inv|].
  set (s1 := if is_prepare _ then _ else s).
  assert (inv es s1 outs) as Hi by (by apply inv_maybe_clear). clearbody s1.
  destruct (arguments _ _ _ _) as [args|[]] eqn:Hargs;
    try (by apply abort_inv); try (by apply complete_inv).
  set (r := mkReady _ _ _ _).
  destruct (call_name (call e) =s EXECUTE) eqn:Hname.
  - destruct (preview_confirmed _ _ _) as [[]|] eqn:Hc;
      [|by apply complete_inv|by apply abort_inv].
    apply authorize_inv; [done|]. split_and!; [done|done|]. intros _.
    by eapply preview_confirmed_inv.
  - apply str_eqb_false in Hname. by apply authorize_inv.
Qed.

Lemma compare_result_matched reply result :
  compare_result reply = Ok result → matched result = true → reply = Ok (JObj result).
Proof.
  unfold compare_result. destruct reply as [[]|[]]; intros [= <-]; try done; by vm_compute.
Qed.

Lemma matched_reply es outs i reply result purpose clip :
  Resume i (Replied reply) ∈ es → verify_sent outs i purpose clip →
  compare_result reply = Ok result → matched result = true → matched_by es outs purpose clip.
Proof.
  intros He (email & cid & Hv) Hr Hm. apply (compare_result_matched _ _ Hr) in Hm as Heq.
  subst. by exists i, email, cid, result.
Qed.

Lemma verify_of_k es outs i clip0 k :
  frame_inv es outs i (CheckCompare clip0 k) →
  (∃ clip, verify_sent outs i None clip) ∧ (∀ r, k = Some r → ready_ok es outs r).
Proof. destruct k as [r|]; simpl; naive_solver. Qed.

Lemma resume_frame_inv es i f r s outs s' o :
  inv es s outs → frame_inv es outs i f → Resume i r ∈ es →
  resume_frame schema_errors c records f r s = Some (s', o) → inv es s' (outs ++ o).
Proof.
  intros Hi Hf He. unfold resume_frame.
  destruct f as [e|g cl k|g k|k|ra|ra passed|ra|e result cancelled|result| |result|];
    destruct r as [[[]|ex]|[[]|ex]|reply|reply]; try discriminate; intros Hs.
  - apply (inj Some) in Hs. by eapply execute_body_inv.
  - simplify_eq. by apply inv_plain; [|repeat constructor].
  - destruct (check_lock s); [done|]. apply (inj Some) in Hs.
    eapply check_locked_inv; [done| |done]. by intros r ->.
  - apply (inj Some) in Hs. by eapply check_raised_inv.
  - apply (inj Some) in Hs. apply verify_of_k in Hf as [[clip Hv] Hk].
    destruct (compare_result reply) as [result|ex] eqn:Hr.
    + eapply check_compared_inv; [done|done| |done]. intros Hm. exists clip.
      by eapply matched_reply.
    + eapply check_raised_inv; [|done]. by eapply inv_state.
  - apply (inj Some) in Hs. eapply check_done_inv; [| |done].
    + by eapply inv_state.
    + by intros r ->.
  - apply (inj Some) in Hs. eapply check_raised_inv; [|done]. by eapply inv_state.
  - apply (inj Some) in Hs. destruct Hf as [Hra Hv].
    destruct (compare_result reply) as [result|ex] eqn:Hr.
    + eapply auth_compared_inv; [done|done| |done]. intros Hm. by eapply matched_reply.
    + by eapply abort_inv.
  - apply (inj Some) in Hs. destruct Hf as [Hra Hm].
    eapply authorized_inv; [done|done| |done].
    intros [Hver Hp]%andb_true_iff _. split; [by eapply inv_verified|by apply Hm].
  - apply (inj Some) in Hs. by eapply abort_inv.
  - apply (inj Some) in Hs. destruct Hf as [_ Hp]. by eapply posted_inv.
  - apply (inj Some) in Hs. destruct cancelled; [|by eapply completed_inv].
    simplify_eq. by apply inv_plain; [|repeat constructor].
  - simplify_eq. by apply inv_plain; [|repeat constructor].
  - simplify_eq. by apply inv_plain; [|repeat constructor].
  - simplify_eq. by apply inv_plain; [|repeat constructor].
  - apply (inj Some) in Hs. destruct Hf as [clip Hv].
    destruct (compare_result reply) as [result|ex] eqn:Hr.
    + simplify_eq. rewrite app_nil_r. apply inv_put; [done|]. intros Hm. exists clip.
      by eapply matched_reply.
    + unfold monitor_raised in Hs. simplify_eq.
      apply inv_plain; [by eapply inv_state|by repeat constructor].
  - destruct (check_lock s); [done|]. apply (inj Some) in Hs.
    unfold periodic_locked in Hs.
    set (s1 := set_status _ _ _) in Hs.
    assert (inv es s1 outs) as Hi1.
    { apply inv_set_status; [done|]. intros H. by apply Hf, status_of_verified. }
    destruct (_ || _); simplify_eq.
    + apply inv_put; [|done]. by apply inv_plain; [|repeat constructor].
    + rewrite app_nil_r. by eapply inv_state.
  - unfold monitor_raised in Hs. simplify_eq.
    apply inv_plain; [by eapply inv_state|by repeat constructor].
  - simplify_eq. rewrite app_nil_r. by eapply inv_state.
  - unfold monitor_raised in Hs. simplify_eq.
    apply inv_plain; [by eapply inv_state|by repeat constructor].
Qed.

Lemma tick_inv es s outs s' o : inv es s outs → tick c s = (s', o) → inv es s' (outs ++ o).
Proof.
  intros Hi. unfold tick. destruct (_ <? _).
  { intros [= <- <-]. by apply inv_plain. }
  assert (inv es (set_monitor Checking s) outs) as Hi' by (by eapply inv_state).
  destruct (compare_ready _ _); intros [= <- <-].
  - apply inv_put; [by apply inv_plain; [|repeat constructor]|]. eexists.
    unfold verify_sent. do 2 eexists. apply elem_of_outs. by left.
  - rewrite app_nil_r. apply inv_put; [done|]. by vm_compute.
Qed.

Lemma bank_step_inv es s outs ev s' o :
  inv es s outs → step schema_errors c records s ev = Some (s', o) →
  inv (es ++ [ev]) s' (outs ++ o).
Proof.
  intros Hi0.
  assert (inv (es ++ [ev]) s outs) as Hi.
  { rewrite <-(app_nil_r outs). eapply inv_mono; [done| |by intros ? ?%not_elem_of_nil].
    intros x. rewrite elem_of_app. tauto. }
  assert (ev ∈ es ++ [ev]) as Hev by (apply elem_of_outs; by left).
  destruct ev as [pcm|pcm| |cl conf cb| |i r]; simpl.
  - intros [= <- <-]. rewrite app_nil_r. unfold ingest_pcm, ensure_monitor.
    destruct (voice_auth_required c); [|done]. destruct (_ || _); [by eapply inv_state|].
    destruct (auth_monitor _); by eapply inv_state.
  - intros [= <- <-]. rewrite app_nil_r. unfold utterance.
    destruct (voice_auth_required c); [|done]. destruct (_ && _); [|by eapply inv_state].
    apply inv_put; [by eapply inv_state|done].
  - destruct (auth_monitor s); try done. intros H%(inj Some). by eapply tick_inv.
  - intros [= <- <-]. apply inv_put; [|done]. by apply inv_plain; [|repeat constructor].
  - intros [= <- <-]. rewrite app_nil_r. by apply inv_clear_prepared.
  - destruct (frames s !! i) as [f|] eqn:Hf; [|done].
    apply resume_frame_inv with (i := i); [by apply inv_pop| |done].
    by eapply inv_frames.
Qed.

Lemma bank_inv_init : inv [] init [].
Proof.
  split; [done|done| |by intros ? ?%not_elem_of_nil]. intros H. by vm_compute in H.
Qed.

Lemma run_bank_inv es s outs :
  run (step schema_errors c records) init es = Some (s, outs) → inv es s outs.
Proof. apply (run_hist_inv _ inv); [apply bank_inv_init|]. intros. by eapply bank_step_inv. Qed.
End invariant.

(** ** Properties *)

(** C4: the bank is asked to execute an operation only if its id was passed as the
    confirmed operation of an [execute] call of this session, and the bank itself
    answered a preparation request of this session with a preview of that operation;
    over every interleaving of tool calls, voice checks and resets. *)
Theorem execute_needs_confirmed_preview (schema_errors : json → json → list str)
    (c : bank_config) (records : list (str * dict)) (es : list event) (s : bank)
    (outs : list effect)
    (Hrun : run (step schema_errors c records) init es = Some (s, outs)) :
  ∀ i url args hdr, PostTool i EXECUTE url args hdr ∈ outs →
    ∃ cl op cb, Execute cl op cb ∈ es ∧ call_name cl = EXECUTE ∧
      args.[lit "operation_id"] = JStr op ∧
      ∃ p, previewed es outs p ∧ p.[lit "operation_id"] = JStr op.
Proof.
  apply run_bank_inv in Hrun as [_ _ _ Hx]. intros i url args hdr Hin.
  destruct (Hx _ Hin) as (r & (He & _ & Hc) & Hn & <- & _).
  destruct (Hc Hn) as [Hop Hp].
  exists (call (ready_exec r)), (confirmed_operation (ready_exec r)), (has_on_result (ready_exec r)).
  done.
Qed.

(** C5: while voice verification is required no request of any kind reaches the bank
    unless the sidecar literally answered [matched: true] to a check of the session
    and to a comparison made for that very execution; and the arguments sent are
    always the validated ones of that [execute] call. *)
Theorem bank_requests_need_voice_match (schema_errors : json → json → list str)
    (c : bank_config) (records : list (str * dict)) (es : list event) (s : bank)
    (outs : list effect)
    (Hrun : run (step schema_errors c records) init es = Some (s, outs)) :
  ∀ i name url args hdr, PostTool i name url args hdr ∈ outs →
    ∃ e, Execute (call e) (confirmed_operation e) (has_on_result e) ∈ es ∧
      call_name (call e) = name ∧ arguments schema_errors c records (call e) = Ok args ∧
      (voice_auth_required c = true →
         (∃ clip, matched_by es outs None clip) ∧ (∃ clip, matched_by es outs (Some e) clip)).
Proof.
  apply run_bank_inv in Hrun as [_ _ _ Hx]. intros i name url args hdr Hin.
  destruct (Hx _ Hin) as (r & (He & Ha & _) & Hn & <- & Hv).
  exists (ready_exec r). split_and!; [done..|]. intros [Hs Hm]%Hv. eauto.
Qed.

(** ** Frames: at most one is pushed by a step *)

(** [s'] has the frames of [s] and at most one more, which satisfies [F]. *)
Definition pushes (F : frame → Prop) (s s' : bank) : Prop :=
  (frames s' = frames s ∧ next_frame s' = next_frame s) ∨
  ∃ f, F f ∧ frames s' = <[next_frame s := f]> (frames s) ∧ next_frame s' = S (next_frame s).

Definition fresh (s : bank) : Prop :=
  ∀ i f, frames s !! i = Some f → (i < next_frame s)%nat.

Lemma fresh_pop i s : fresh s → fresh (pop i s).
Proof. intros H j f Hj. simpl in Hj. apply lookup_delete_Some in Hj as [_ Hj]. by eapply H. Qed.

Lemma pushes_fresh F s s' : fresh s → pushes F s s' → fresh s'.
Proof.
  intros Hf [[Hfr Hn]|(f & _ & Hfr & Hn)] i g; rewrite Hfr, Hn.
  - apply Hf.
  - intros [[<- _]|[_ Hi%Hf]]%lookup_insert_Some; lia.
Qed.

Lemma pushes_lookup F s s' i f :
  pushes F s s' → frames s' !! i = Some f →
  frames s !! i = Some f ∨ (i = next_frame s ∧ F f).
Proof.
  intros [[Hfr Hn]|(g & Hg & Hfr & Hn)]; rewrite Hfr; [by left|].
  intros [[<- <-]|[_ Hi]]%lookup_insert_Some; [by right|by left].
Qed.

Lemma pushes_keeps F s s' i f :
  fresh s → pushes F s s' → frames s !! i = Some f → frames s' !! i = Some f.
Proof.
  intros Hf [[-> _]|(g & _ & -> & _)] Hi; [done|].
  rewrite lookup_insert_ne; [done|]. apply Hf in Hi. lia.
Qed.

(** The frames that run inside [async with self.check_lock]. *)
Definition holds_lock (f : frame) : bool :=
  match f with CheckCompare _ _ | CheckEmit _ => true | _ => false end.

Definition waits_lock (f : frame) : bool :=
  match f with CheckLock _ _ _ | PeriodicLock _ => true | _ => false end.

(** A function that leaves the lock alone. *)
Definition lock_free (s s' : bank) : Prop :=
  check_lock s' = check_lock s ∧ pushes (λ f, holds_lock f = false) s s'.

Lemma lock_free_refl s : lock_free s s.
Proof. split; [done|]. by left. Qed.

Lemma lock_free_push f s : holds_lock f = false → lock_free s (push f s).
Proof. intros H. split; [done|]. right. by exists f. Qed.

Lemma lock_free_eq s s1 s2 :
  check_lock s1 = check_lock s → frames s1 = frames s → next_frame s1 = next_frame s →
  lock_free s1 s2 → lock_free s s2.
Proof. unfold lock_free, pushes. intros -> -> ->. done. Qed.

(** A state that differs in neither lock nor frames. *)
Lemma lock_free_state s s' :
  check_lock s' = check_lock s → frames s' = frames s → next_frame s' = next_frame s →
  lock_free s s'.
Proof. intros H1 H2 H3. split; [done|]. by left. Qed.

Create HintDb lock.
#[export] Hint Resolve lock_free_refl lock_free_push : lock.
#[export] Hint Extern 1 (holds_lock _ = false) => reflexivity : lock.

Section lock.
Context (schema_errors : json → json → list str) (c : bank_config)
  (records : list (str * dict)).

Lemma complete_lock e result b s : lock_free s (complete e result b s).1.
Proof. by apply lock_free_push. Qed.

Lemma abort_lock e ex s : lock_free s (abort e ex s).1.
Proof. unfold abort. destruct ex; try apply complete_lock; apply lock_free_refl. Qed.

Lemma completed_lock e result s : lock_free s (completed c e result s).1.
Proof.
  unfold completed. destruct (_ && _); [|apply lock_free_refl].
  destruct (in_str_set _ _); [by apply lock_free_push|apply lock_free_refl].
Qed.

Lemma post_tool_lock r s : lock_free s (post_tool c records r s).1.
Proof.
  unfold post_tool. destruct (request_headers _ _ _ _); [|apply abort_lock].
  set (s1 := if _ =s _ then _ else s).
  apply (lock_free_eq s s1); [unfold s1; by destruct (_ =s _)..|].
  destruct (jindex _ _); [by apply lock_free_push|apply abort_lock].
Qed.

Lemma posted_lock r reply s : lock_free s (posted c r reply s).1.
Proof.
  unfold posted. destruct reply as [[status []]|]; auto using complete_lock, abort_lock.
  destruct (300 <=? status); [apply complete_lock|].
  destruct (_ && _); [|apply complete_lock].
  destruct (default _ _); try apply abort_lock.
  set (s1 := if _ && _ then _ else s).
  apply (lock_free_eq s s1); [unfold s1; by destruct (_ && _)..|apply complete_lock].
Qed.

Lemma authorized_lock r ok s : lock_free s (authorized c records r ok s).1.
Proof. unfold authorized. destruct ok; [apply post_tool_lock|apply complete_lock]. Qed.

Lemma check_done_lock k s : lock_free s (check_done c k s).1.
Proof.
  unfold check_done, auth_compared. destruct k; [|apply lock_free_refl].
  destruct (compare_ready _ _); by apply lock_free_push.
Qed.

Lemma check_raised_lock k ex s : lock_free s (check_raised k ex s).1.
Proof. unfold check_raised. destruct k; [apply abort_lock|apply lock_free_refl]. Qed.

Lemma authorize_lock r s : lock_free s (authorize c records r s).1.
Proof.
  unfold authorize. case_bool_decide; [apply authorized_lock|].
  destruct (negb _); [apply authorized_lock|].
  destruct (_ =? 0); [apply authorized_lock|by apply lock_free_push].
Qed.

Lemma execute_body_lock e s : lock_free s (execute_body schema_errors c records e s).1.
Proof.
  unfold execute_body.
  destruct (negb (dhas _ _) || _); [apply complete_lock|].
  destruct (negb (customer_ok _)); [apply complete_lock|].
  set (s1 := if is_prepare _ then _ else s).
  apply (lock_free_eq s s1); [unfold s1; by destruct (is_prepare _)..|].
  destruct (arguments _ _ _ _) as [args|[]]; auto using complete_lock, abort_lock.
  destruct (_ =s EXECUTE); [|apply authorize_lock].
  destruct (preview_confirmed _ _ _) as [[]|];
    auto using complete_lock, abort_lock, authorize_lock.
Qed.

Lemma tick_lock s : lock_free s (tick c s).1.
Proof.
  unfold tick. destruct (_ <? _); [apply lock_free_refl|].
  destruct (compare_ready _ _); by apply (lock_free_eq s (set_monitor Checking s)), lock_free_push.
Qed.
End lock.

(** The lock is held exactly when one suspended frame holds it. *)
Record lock_inv (s : bank) : Prop := {
  lock_fresh : fresh s;
  lock_held : ∀ i f, frames s !! i = Some f → holds_lock f = true → check_lock s = true;
  lock_holder : check_lock s = true → ∃ i f, frames s !! i = Some f ∧ holds_lock f = true;
  lock_unique : ∀ i j f g, frames s !! i = Some f → frames s !! j = Some g →
    holds_lock f = true → holds_lock g = true → i = j;
}.

Lemma lock_free_inv s s' : lock_inv s → lock_free s s' → lock_inv s'.
Proof.
  intros [Hf Hh Hr Hu] [Hl Hp]. split.
  - by eapply pushes_fresh.
  - intros i f Hi Hff. rewrite Hl. eapply (pushes_lookup _ _ _ _ _ Hp) in Hi as [Hi|[_ Hn]];
      [by eapply Hh|congruence].
  - rewrite Hl. intros (i & f & Hi & Hff)%Hr. exists i, f. split; [|done].
    by eapply pushes_keeps.
  - intros i j f g Hi Hj Hff Hgg.
    eapply (pushes_lookup _ _ _ _ _ Hp) in Hi as [Hi|[_ ?]]; [|congruence].
    eapply (pushes_lookup _ _ _ _ _ Hp) in Hj as [Hj|[_ ?]]; [|congruence].
    by eapply Hu.
Qed.

Lemma lock_inv_pop i f s :
  lock_inv s → frames s !! i = Some f → holds_lock f = false → lock_inv (pop i s).
Proof.
  intros [Hf Hh Hr Hu] Hi Hn. split.
  - by apply fresh_pop.
  - intros j g Hj. simpl in Hj. apply lookup_delete_Some in Hj as [_ Hj]. by apply (Hh j g).
  - simpl. intros (j & g & Hj & Hg)%Hr. exists j, g. split; [|done].
    rewrite lookup_delete_ne; [done|]. intros ->. congruence.
  - intros j k g h Hj Hk. simpl in Hj, Hk.
    apply lookup_delete_Some in Hj as [_ Hj], Hk as [_ Hk]. by apply Hu.
Qed.

(** Without the frame that held it, no frame holds the lock. *)
Lemma lock_pop_holder i f s :
  lock_inv s → frames s !! i = Some f → holds_lock f = true →
  ∀ j g, frames (pop i s) !! j = Some g → holds_lock g = false.
Proof.
  intros [Hf Hh Hr Hu] Hi Hn j g Hj. simpl in Hj. apply lookup_delete_Some in Hj as [Hne Hj].
  apply not_true_iff_false. intros Hg. by apply Hne, (Hu i j f g).
Qed.

Lemma lock_inv_none s :
  fresh s → (∀ j g, frames s !! j = Some g → holds_lock g = false) → check_lock s = false →
  lock_inv s.
Proof.
  intros Hf Hn Hl. split; [done| |congruence|].
  - intros i f Hi%Hn. congruence.
  - intros i j f g Hi%Hn. congruence.
Qed.

Lemma lock_inv_take f s s' :
  fresh s → (∀ j g, frames s !! j = Some g → holds_lock g = false) →
  holds_lock f = true → check_lock s' = true →
  frames s' = <[next_frame s := f]> (frames s) → next_frame s' = S (next_frame s) →
  lock_inv s'.
Proof.
  intros Hf Hn Hh Hl Hfr Hnx.
  assert (∀ i g, frames s' !! i = Some g → holds_lock g = true → i = next_frame s) as Honly.
  { intros i g. rewrite Hfr. intros [[<- _]|[_ Hi%Hn]]%lookup_insert_Some; [done|congruence]. }
  split.
  - eapply (pushes_fresh (λ _, True)); [done|]. right. by exists f.
  - done.
  - intros _. exists (next_frame s), f. rewrite Hfr. by rewrite lookup_insert_eq.
  - intros i j g h Hi Hj Hg Hk. by rewrite (Honly i g), (Honly j h).
Qed.

Section lock_steps.
Context (schema_errors : json → json → list str) (c : bank_config)
  (records : list (str * dict)).

Lemma free_fst (r : bank * list effect) s s' o :
  lock_inv s → r = (s', o) → lock_free s r.1 → lock_inv s'.
Proof. intros Hi -> Hf. by eapply lock_free_inv. Qed.

Lemma check_compared_lock g k result s s' o :
  fresh s → (∀ j h, frames s !! j = Some h → holds_lock h = false) → check_lock s = true →
  check_compared g k result s = (s', o) → lock_inv s'.
Proof.
  intros Hf Hn Hl. unfold check_compared. intros [= <- _].
  by apply (lock_inv_take (CheckEmit k) s).
Qed.

Lemma no_holder s : lock_inv s → check_lock s = false →
  ∀ j h, frames s !! j = Some h → holds_lock h = false.
Proof.
  intros [_ Hh _ _] Hl j h Hj. apply not_true_iff_false. intros Hk.
  specialize (Hh j h Hj Hk). congruence.
Qed.

Lemma check_locked_lock g cl k s s' o :
  lock_inv s → check_lock s = false → check_locked c g cl k s = (s', o) → lock_inv s'.
Proof.
  intros Hi Hl. unfold check_locked. destruct (_ || _).
  - intros H. eapply free_fst; [done|exact H|apply check_done_lock].
  - destruct (compare_ready c cl).
    + intros [= <- _]. apply (lock_inv_take (CheckCompare g k) s); [apply Hi|by apply no_holder|done..].
    + apply (check_compared_lock g k too_short (set_lock true s));
        [apply Hi|exact (no_holder s Hi Hl)|done].
Qed.

Lemma resume_free_lock f r s s' o :
  lock_inv s → holds_lock f = false →
  resume_frame schema_errors c records f r s = Some (s', o) → lock_inv s'.
Proof.
  intros Hi Hf. unfold resume_frame.
  destruct f as [e|g cl k|g k|k|ra|ra passed|ra|e result cancelled|result| |result|];
    try discriminate Hf;
    destruct r as [[[]|ex]|[[]|ex]|reply|reply]; try discriminate; intros Hs.
  - apply (inj Some) in Hs. eapply free_fst; [done|exact Hs|apply execute_body_lock].
  - by simplify_eq.
  - destruct (check_lock s) eqn:Hl; [done|]. apply (inj Some) in Hs. by eapply check_locked_lock.
  - apply (inj Some) in Hs. eapply free_fst; [done|exact Hs|apply check_raised_lock].
  - apply (inj Some) in Hs. eapply free_fst; [done|exact Hs|].
    destruct (compare_result reply); [by apply lock_free_push|apply abort_lock].
  - apply (inj Some) in Hs. eapply free_fst; [done|exact Hs|apply authorized_lock].
  - apply (inj Some) in Hs. eapply free_fst; [done|exact Hs|apply abort_lock].
  - apply (inj Some) in Hs. eapply free_fst; [done|exact Hs|apply posted_lock].
  - apply (inj Some) in Hs. eapply free_fst; [done|exact Hs|].
    destruct cancelled; [apply lock_free_refl|apply completed_lock].
  - by simplify_eq.
  - by simplify_eq.
  - by simplify_eq.
  - apply (inj Some) in Hs. eapply free_fst; [done|exact Hs|].
    destruct (compare_result reply); [by apply lock_free_push|].
    by apply lock_free_state.
  - destruct (check_lock s); [done|]. apply (inj Some) in Hs.
    eapply free_fst; [done|exact Hs|]. unfold periodic_locked.
    set (s1 := set_status _ _ s). apply (lock_free_eq s s1); [done..|].
    destruct (_ || _); [by apply lock_free_push|by apply lock_free_state].
  - try unfold monitor_raised in Hs; simplify_eq. eapply lock_free_inv; [done|]. by apply lock_free_state.
  - try unfold monitor_raised in Hs; simplify_eq. eapply lock_free_inv; [done|]. by apply lock_free_state.
  - try unfold monitor_raised in Hs; simplify_eq. eapply lock_free_inv; [done|]. by apply lock_free_state.
Qed.

Lemma resume_held_lock f r s s' o :
  fresh s → (∀ j g, frames s !! j = Some g → holds_lock g = false) → check_lock s = true →
  holds_lock f = true →
  resume_frame schema_errors c records f r s = Some (s', o) → lock_inv s'.
Proof.
  intros Hfr Hn Hl Hf. assert (lock_inv (set_lock false s)) as Hi by (by apply lock_inv_none).
  unfold resume_frame. destruct f as [|? ? ?|g k|k| | | | | | | |]; try discriminate Hf;
    destruct r as [[[]|ex]|[[]|ex]|reply|reply]; try discriminate; intros Hs;
    apply (inj Some) in Hs.
  - destruct (compare_result reply); [by eapply check_compared_lock|].
    eapply free_fst; [exact Hi|exact Hs|apply check_raised_lock].
  - eapply free_fst; [exact Hi|exact Hs|apply check_done_lock].
  - eapply free_fst; [exact Hi|exact Hs|apply check_raised_lock].
Qed.

Lemma step_lock s ev s' o :
  lock_inv s → step schema_errors c records s ev = Some (s', o) → lock_inv s'.
Proof.
  intros Hi. destruct ev as [pcm|pcm| |cl conf cb| |i r]; simpl.
  - intros [= <- _]. eapply lock_free_inv; [done|]. unfold ingest_pcm, ensure_monitor.
    destruct (voice_auth_required c); [|apply lock_free_refl].
    destruct (_ || _); [by apply lock_free_state|].
    destruct (auth_monitor _); by apply lock_free_state.
  - intros [= <- _]. eapply lock_free_inv; [done|]. unfold utterance.
    destruct (voice_auth_required c); [|apply lock_free_refl].
    set (s1 := new_utterance _ s). apply (lock_free_eq s s1); [done..|].
    destruct (_ && _); [by apply lock_free_push|apply lock_free_refl].
  - destruct (auth_monitor s); try done. intros H%(inj Some).
    eapply free_fst; [done|exact H|apply tick_lock].
  - intros [= <- _]. eapply lock_free_inv; [done|]. by apply lock_free_push.
  - intros [= <- _]. eapply lock_free_inv; [done|].
    by apply lock_free_state.
  - destruct (frames s !! i) as [f|] eqn:Hf; [|done].
    destruct (holds_lock f) eqn:Hh.
    + apply resume_held_lock; [apply fresh_pop, Hi|by eapply lock_pop_holder| |done].
      exact (lock_held s Hi i f Hf Hh).
    + by apply resume_free_lock; [eapply lock_inv_pop|].
Qed.

Lemma run_lock es s outs :
  run (step schema_errors c records) init es = Some (s, outs) → lock_inv s.
Proof.
  apply (run_inv _ (λ s _, lock_inv s)); [|intros; by eapply step_lock].
  by apply lock_inv_none.
Qed.

Lemma resume_enabled f s :
  waits_lock f = false ∨ check_lock s = false →
  ∃ r, is_Some (resume_frame schema_errors c records f r s).
Proof.
  assert (is_Some (Some (s, [] : list effect))) as _ by done.
  intros [Hw|Hl]; destruct f; try discriminate Hw;
    first [ exists (Sent (Ok ())); by eexists
          | exists (Replied (Ok JNull)); by eexists
          | exists (Posted (Ok (0, JNull))); by eexists
          | exists (Acquired (Ok ())); simpl; rewrite Hl; by eexists ].
Qed.
End lock_steps.

(** C40: [check_lock] is held exactly when one coroutine runs inside it, two never
    do, and no voice check can deadlock: every suspended coroutine can go on when
    its reply comes, or waits for the lock while the holder can go on. *)
Theorem check_lock_progress (schema_errors : json → json → list str) (c : bank_config)
    (records : list (str * dict)) (es : list event) (s : bank) (outs : list effect)
    (Hrun : run (step schema_errors c records) init es = Some (s, outs)) :
  (check_lock s = true ↔ ∃ i f, frames s !! i = Some f ∧ holds_lock f = true) ∧
  (∀ i j f g, frames s !! i = Some f → frames s !! j = Some g →
     holds_lock f = true → holds_lock g = true → i = j) ∧
  (∀ i f, frames s !! i = Some f →
     ∃ j r, is_Some (step schema_errors c records s (Resume j r)) ∧
       (j = i ∨ (waits_lock f = true ∧ ∃ g, frames s !! j = Some g ∧ holds_lock g = true))).
Proof.
  apply run_lock in Hrun as Hi. destruct Hi as [_ Hh Hr Hu]. split_and!.
  - split; [done|]. intros (i & f & Hi & Hf). by eapply Hh.
  - done.
  - intros i f Hi. destruct (check_lock s) eqn:Hl, (waits_lock f) eqn:Hw.
    + destruct (Hr eq_refl) as (j & g & Hj & Hg).
      destruct (resume_enabled schema_errors c records g (pop j s)) as [r Hen].
      { left. by destruct g. }
      exists j, r. split; [simpl; by rewrite Hj|]. eauto.
    + destruct (resume_enabled schema_errors c records f (pop i s)) as [r Hen]; [by left|].
      exists i, r. split; [simpl; by rewrite Hi|by left].
    + destruct (resume_enabled schema_errors c records f (pop i s)) as [r Hen]; [by right|].
      exists i, r. split; [simpl; by rewrite Hi|by left].
    + destruct (resume_enabled schema_errors c records f (pop i s)) as [r Hen]; [by left|].
      exists i, r. split; [simpl; by rewrite Hi|by left].
Qed.

(** ** Executions per preview, when tool calls do not overlap *)

(** The frames of a run of [execute]. *)
Definition exec_frame (f : frame) : bool :=
  match f with
  | Started _ | CheckLock _ _ (Some _) | CheckCompare _ (Some _) | CheckEmit (Some _)
  | AuthCompare _ | AuthEmit _ _ | Posting _ | Completing _ _ _ | ActionEmit _ => true
  | _ => false
  end.

(** The execution a frame carries, until its request to the bank. *)
Definition unposted (f : frame) : option ready :=
  match f with
  | CheckLock _ _ k | CheckCompare _ k | CheckEmit k => k
  | AuthCompare r | AuthEmit r _ => Some r
  | _ => None
  end.

Definition of_operation (op : str) (name : str) (args : dict) : bool :=
  (name =s EXECUTE) && jeq_str args.[lit "operation_id"] op.

Definition pending_ready (op : str) (r : ready) : nat :=
  if of_operation op (call_name (call (ready_exec r))) (ready_args r) then 1 else 0.

Definition pending (op : str) (f : frame) : nat :=
  match unposted f with Some r => pending_ready op r | None => 0 end.

(** The requests that execute [op]. *)
Definition posts (op : str) (outs : list effect) : nat :=
  count (λ x, match x with PostTool _ name _ args _ => of_operation op name args | _ => false end)
    outs.

Definition held (op : str) (s : bank) : nat :=
  match prepared s with
  | Some p => if jeq_str p.[lit "operation_id"] op then 1 else 0
  | None => 0
  end.

(** The replies of the bank with a preview of [op]. *)
Definition preview_reply (op : str) (ev : event) : bool :=
  match ev with
  | Resume _ (Posted (Ok (_, JObj body))) =>
      jeq_str body.[lit "status"] (lit "prepared") &&
      jeq_str (dict_or_empty body.[lit "data"]).[lit "operation_id"] op
  | _ => false
  end.

Definition previews (op : str) (es : list event) : nat := count (preview_reply op) es.

(** Of the budget [N] for [op], the requests made, the preview held and the execution
    suspended use at most [N]. *)
Definition spends (op : str) (N : nat) (s : bank) (r : bank * list effect) : Prop :=
  ∃ m, pushes (λ f, (pending op f ≤ m)%nat) s r.1 ∧
    (posts op r.2 + m ≤ N)%nat ∧ (posts op r.2 + held op r.1 ≤ N)%nat.

Lemma spends_push op N s f o :
  posts op o = 0%nat → (pending op f ≤ N)%nat → (held op s ≤ N)%nat → spends op N s (push f s, o).
Proof. intros Ho Hf Hh. exists (pending op f). simpl. rewrite Ho. split; [|split; done]. right. by exists f. Qed.

Lemma spends_push_done op N s f o :
  posts op o = 0%nat → unposted f = None → (held op s ≤ N)%nat → spends op N s (push f s, o).
Proof. intros Ho Hf Hh. apply spends_push; [done| |done]. unfold pending. rewrite Hf. lia. Qed.

Lemma spends_same op N s o :
  posts op o = 0%nat → (held op s ≤ N)%nat → spends op N s (s, o).
Proof. intros Ho Hh. exists 0%nat. simpl. rewrite Ho. split; [by left|]. split; [lia|done]. Qed.

Lemma spends_eq op N s s1 r :
  frames s1 = frames s → next_frame s1 = next_frame s → spends op N s1 r → spends op N s r.
Proof. unfold spends, pushes. intros -> ->. done. Qed.

Section serial.
Context (schema_errors : json → json → list str) (c : bank_config)
  (records : list (str * dict)).

Lemma complete_spends op N e result b s :
  (held op s ≤ N)%nat → spends op N s (complete e result b s).
Proof.
  intros Hh. apply spends_push_done; [|done|done].
  unfold posts. rewrite count_app. by destruct (has_on_result e).
Qed.

Lemma abort_spends op N e ex s : (held op s ≤ N)%nat → spends op N s (abort e ex s).
Proof. intros Hh. unfold abort. destruct ex; first [by apply complete_spends|by apply spends_same]. Qed.

Lemma completed_spends op N e result s :
  (held op s ≤ N)%nat → spends op N s (completed c e result s).
Proof.
  intros Hh. unfold completed. destruct (_ && _); [|by apply spends_same].
  destruct (in_str_set _ _); [by apply spends_push_done|by apply spends_same].
Qed.

Lemma held_clear op b s : (held op (if b : bool then set_prepared None s else s) ≤ held op s)%nat.
Proof. destruct b; simpl; unfold held; simpl; lia. Qed.

Lemma post_tool_spends op N r s :
  (held op s ≤ N)%nat → (pending_ready op r ≤ N)%nat → spends op N s (post_tool c records r s).
Proof.
  intros Hh Hp. unfold post_tool. destruct (request_headers _ _ _ _); [|by apply abort_spends].
  set (s1 := if _ =s _ then _ else s).
  assert (held op s1 ≤ N)%nat as Hh1 by (etrans; [apply held_clear|done]).
  apply (spends_eq op N s s1); [unfold s1; by destruct (_ =s _)..|].
  destruct (jindex _ _) as [url|]; [|by apply abort_spends].
  assert (∀ hdr, posts op [PostTool (next_frame s1) (call_name (call (ready_exec r))) url
            (ready_args r) hdr] = pending_ready op r) as Hpost.
  { intros hdr. unfold posts, pending_ready. rewrite count_cons. by destruct (of_operation _ _ _). }
  exists 0%nat. cbn [fst snd]. rewrite Hpost. split.
  { right. exists (Posting r). split; [unfold pending; simpl; lia|done]. }
  split; [lia|].
  change (held op (push (Posting r) s1)) with (held op s1).
  unfold s1, pending_ready, of_operation in *.
  destruct (_ =s EXECUTE); simpl in *; [|lia]. unfold held. simpl.
  destruct (jeq_str _ _); simpl in *; lia.
Qed.

Lemma posted_spends op N r i reply s :
  (held op s ≤ N)%nat → (previews op [Resume i (Posted reply)] ≤ N)%nat →
  spends op N s (posted c r reply s).
Proof.
  intros Hh Hr. unfold posted. destruct reply as [[status body]|]; [|by apply abort_spends].
  destruct body as [| | | | | |body]; try by apply complete_spends.
  destruct (300 <=? status); [by apply complete_spends|].
  destruct (is_prepare _ && _) eqn:Hprep; [|by apply complete_spends].
  apply andb_true_iff in Hprep as [_ Hst].
  destruct (default _ _) as [| | | | | |data] eqn:Hdata; try by apply abort_spends.
  set (s1 := if _ && _ then _ else s).
  apply (spends_eq op N s s1); [unfold s1; by destruct (_ && _)..|]. apply complete_spends.
  unfold s1. destruct (_ && _) eqn:Hok; [|done]. apply andb_true_iff in Hok as [Hop _].
  unfold held. simpl. destruct (jeq_str data.[_] op) eqn:Hj; [|lia].
  unfold previews in Hr. rewrite count_cons in Hr. simpl in Hr. rewrite Hst in Hr.
  assert (dict_or_empty body.[lit "data"] = data) as Hd.
  { unfold dget_or_none. destruct (dget (lit "data") body); simpl in *; simplify_eq; done. }
  rewrite Hd, Hj in Hr. simpl in Hr. lia.
Qed.

Lemma authorized_spends op N r ok s :
  (held op s ≤ N)%nat → (pending_ready op r ≤ N)%nat → spends op N s (authorized c records r ok s).
Proof. intros. unfold authorized. destruct ok; [by apply post_tool_spends|by apply complete_spends]. Qed.

Lemma auth_compared_spends op N r result s :
  (held op s ≤ N)%nat → (pending_ready op r ≤ N)%nat → spends op N s (auth_compared r result s).
Proof. intros. by apply spends_push. Qed.

Lemma check_done_spends op N r s :
  (held op s ≤ N)%nat → (pending_ready op r ≤ N)%nat → spends op N s (check_done c (Some r) s).
Proof.
  intros. simpl. destruct (compare_ready _ _); [by apply spends_push|by apply auth_compared_spends].
Qed.

Lemma check_compared_spends op N g r result s :
  (held op s ≤ N)%nat → (pending_ready op r ≤ N)%nat →
  spends op N s (check_compared g (Some r) result s).
Proof.
  intros. unfold check_compared. set (s1 := set_status _ _ _).
  apply (spends_eq op N s s1); [done..|]. by apply spends_push.
Qed.

Lemma check_locked_spends op N g cl r s :
  (held op s ≤ N)%nat → (pending_ready op r ≤ N)%nat →
  spends op N s (check_locked c g cl (Some r) s).
Proof.
  intros. unfold check_locked. destruct (_ || _); [by apply check_done_spends|].
  apply (spends_eq op N s (set_lock true s)); [done..|].
  destruct (compare_ready c cl); [by apply spends_push|by apply check_compared_spends].
Qed.

Lemma authorize_spends op N r s :
  (held op s ≤ N)%nat → (pending_ready op r ≤ N)%nat → spends op N s (authorize c records r s).
Proof.
  intros. unfold authorize. case_bool_decide; [by apply authorized_spends|].
  destruct (negb _); [by apply authorized_spends|].
  destruct (_ =? 0); [by apply authorized_spends|by apply spends_push].
Qed.

Lemma execute_body_spends op N e s :
  (held op s ≤ N)%nat → spends op N s (execute_body schema_errors c records e s).
Proof.
  intros Hh0. unfold execute_body.
  destruct (negb (dhas _ _) || _); [by apply complete_spends|].
  destruct (negb (customer_ok _)); [by apply complete_spends|].
  set (s1 := if is_prepare _ then _ else s).
  assert (held op s1 ≤ N)%nat as Hh by (etrans; [apply held_clear|done]).
  apply (spends_eq op N s s1); [unfold s1; by destruct (is_prepare _)..|]. clearbody s1.
  destruct (arguments _ _ _ _) as [args|[]];
    try (by apply abort_spends); try (by apply complete_spends).
  set (r := mkReady _ _ _ _).
  destruct (call_name (call e) =s EXECUTE) eqn:Hname.
  - destruct (preview_confirmed e args s1) as [[]|] eqn:Hc;
      [|by apply complete_spends|by apply abort_spends].
    apply authorize_spends; [done|]. etrans; [|exact Hh].
    unfold pending_ready, of_operation, held, preview_confirmed in *.
    destruct (prepared s1) as [p|]; [|done].
    apply exn_bind_Ok in Hc as (x & Hx & (y & Hy & Hc)%exn_bind_Ok).
    apply jindex_get in Hx, Hy. injection Hc as [Heq ->%jeq_str_true]%andb_true_iff.
    apply py_eq_str in Heq as ->. subst r. simpl. rewrite Hx, Hy.
    destruct (_ =s EXECUTE); simpl; lia.
  - apply authorize_spends; [done|]. unfold pending_ready, of_operation. simpl.
    rewrite Hname. simpl. lia.
Qed.

Lemma resume_spends op N i f r s s' o :
  exec_frame f = true → (held op s ≤ N)%nat → (pending op f ≤ N)%nat →
  (previews op [Resume i r] ≤ N)%nat →
  resume_frame schema_errors c records f r s = Some (s', o) → spends op N s (s', o).
Proof.
  intros Hf Hh Hp Hr. unfold resume_frame.
  destruct f as [e|g cl [k|]|g [k|]|[k|]|ra|ra passed|ra|e result cancelled|result| |result|];
    try discriminate Hf; clear Hf; unfold pending in Hp; cbn [unposted] in Hp;
    destruct r as [[[]|ex]|[[]|ex]|reply|reply]; try discriminate; intros Hs;
    try (destruct (check_lock s); [discriminate Hs|]);
    apply (inj Some) in Hs; rewrite <-Hs; clear Hs.
  - by apply execute_body_spends.
  - by apply spends_same.
  - by apply check_locked_spends.
  - by apply abort_spends.
  - destruct (compare_result reply); [by apply check_compared_spends|].
    apply (spends_eq op N s (set_lock false s)); [done..|]. by apply abort_spends.
  - apply (spends_eq op N s (set_lock false s)); [done..|]. by apply check_done_spends.
  - apply (spends_eq op N s (set_lock false s)); [done..|]. by apply abort_spends.
  - destruct (compare_result reply); [by apply auth_compared_spends|by apply abort_spends].
  - by apply authorized_spends.
  - by apply abort_spends.
  - by eapply posted_spends.
  - destruct cancelled; [by apply spends_same|by apply completed_spends].
  - by apply spends_same.
  - by apply spends_same.
  - by apply spends_same.
Qed.

(** A step of another coroutine: no request, the preview kept, no execution started. *)
Definition calm (s s' : bank) (o : list effect) : Prop :=
  prepared s' = prepared s ∧ (∀ op, posts op o = 0%nat) ∧
  pushes (λ f, exec_frame f = false) s s'.

Lemma calm_same s s' o :
  prepared s' = prepared s → (∀ op, posts op o = 0%nat) → frames s' = frames s →
  next_frame s' = next_frame s → calm s s' o.
Proof. intros. split_and!; [done..|by left]. Qed.

Lemma calm_push f s s1 o :
  exec_frame f = false → (∀ op, posts op o = 0%nat) → prepared s1 = prepared s →
  frames s1 = frames s → next_frame s1 = next_frame s → calm s (push f s1) o.
Proof. intros Hf Ho Hp H1 H2. split_and!; [done..|]. right. exists f. simpl. by rewrite H1, H2. Qed.

Lemma check_compared_calm g result s s1 s' o :
  prepared s1 = prepared s → frames s1 = frames s → next_frame s1 = next_frame s →
  check_compared g None result s1 = (s', o) → calm s s' o.
Proof. intros H1 H2 H3. unfold check_compared. intros [= <- <-]. by apply calm_push. Qed.

Lemma resume_calm f r s s' o :
  exec_frame f = false → resume_frame schema_errors c records f r s = Some (s', o) → calm s s' o.
Proof.
  intros Hf. unfold resume_frame, monitor_raised.
  destruct f as [e|g cl [k|]|g [k|]|[k|]|ra|ra passed|ra|e result cancelled|result| |result|];
    try discriminate Hf; clear Hf;
    destruct r as [[[]|ex]|[[]|ex]|reply|reply]; try discriminate; intros Hs;
    try (destruct (check_lock s); [discriminate Hs|]);
    apply (inj Some) in Hs.
  - unfold check_locked in Hs. destruct (_ || _); [by simplify_eq/=; apply calm_same|].
    destruct (compare_ready c cl).
    + simplify_eq. by apply calm_push.
    + by eapply check_compared_calm; [..|exact Hs].
  - by simplify_eq/=; apply calm_same.
  - destruct (compare_result reply); [by eapply check_compared_calm|].
    by simplify_eq/=; apply calm_same.
  - by simplify_eq/=; apply calm_same.
  - by simplify_eq/=; apply calm_same.
  - destruct (compare_result reply); simplify_eq; [by apply calm_push|by apply calm_same].
  - unfold periodic_locked in Hs. destruct (_ || _); simplify_eq;
      [by apply calm_push|by apply calm_same].
  - by simplify_eq/=; apply calm_same.
  - by simplify_eq/=; apply calm_same.
  - by simplify_eq/=; apply calm_same.
Qed.

Definition idle (s : bank) : bool :=
  bool_decide (map_Forall (λ _ f, exec_frame f = false) (frames s)).

(** The machine of a caller that awaits each [execute] before the next. *)
Definition serial_step (s : bank) (e : event) : option (bank * list effect) :=
  match e with
  | Execute _ _ _ => if idle s then step schema_errors c records s e else None
  | _ => step schema_errors c records s e
  end.

Record serial_inv (es : list event) (s : bank) (outs : list effect) : Prop := {
  serial_fresh : fresh s;
  serial_one : ∀ i j f g, frames s !! i = Some f → frames s !! j = Some g →
    exec_frame f = true → exec_frame g = true → i = j;
  serial_held : ∀ op, (posts op outs + held op s ≤ previews op es)%nat;
  serial_pending : ∀ op i f, frames s !! i = Some f →
    (posts op outs + pending op f ≤ previews op es)%nat;
}.

Lemma posts_app op o1 o2 : posts op (o1 ++ o2) = (posts op o1 + posts op o2)%nat.
Proof. apply count_app. Qed.

Lemma previews_app op e1 e2 : previews op (e1 ++ e2) = (previews op e1 + previews op e2)%nat.
Proof. apply count_app. Qed.

Lemma pending_calm op f : exec_frame f = false → pending op f = 0%nat.
Proof. unfold pending. by destruct f as [| ? ? []| ? []|[]| | | | | | | |]. Qed.

(** Preservation by a calm step; the execution's frame is still there. *)
Lemma serial_calm es ev s s' outs o :
  serial_inv es s outs → calm s s' o → serial_inv (es ++ [ev]) s' (outs ++ o).
Proof.
  intros [Hf H1 Hh Hp] (Hpr & Ho & Hpush). split.
  - by eapply pushes_fresh.
  - intros i j f g Hi Hj Hff Hgg.
    eapply (pushes_lookup _ _ _ _ _ Hpush) in Hi as [Hi|[_ ?]]; [|congruence].
    eapply (pushes_lookup _ _ _ _ _ Hpush) in Hj as [Hj|[_ ?]]; [|congruence].
    by eapply H1.
  - intros op. rewrite posts_app, previews_app, Ho. specialize (Hh op).
    unfold held in *. rewrite Hpr. lia.
  - intros op i f Hi. rewrite posts_app, previews_app, Ho.
    eapply (pushes_lookup _ _ _ _ _ Hpush) in Hi as [Hi|[_ Hn]].
    + specialize (Hp op i f Hi). lia.
    + specialize (Hh op). rewrite (pending_calm _ _ Hn). lia.
Qed.

(** Preservation by a step of the execution, whose frame was [f]. *)
Lemma serial_exec es ev s s' outs o i f :
  serial_inv es s outs → frames s !! i = Some f → exec_frame f = true →
  (∀ op N, (held op s ≤ N)%nat → (pending op f ≤ N)%nat → (previews op [ev] ≤ N)%nat →
     spends op N (pop i s) (s', o)) →
  serial_inv (es ++ [ev]) s' (outs ++ o).
Proof.
  intros [Hf H1 Hh Hp] Hi Hex Hsp.
  assert (∀ op, spends op (previews op (es ++ [ev]) - posts op outs) (pop i s) (s', o)) as Hs.
  { intros op. specialize (Hh op). specialize (Hp op i f Hi).
    rewrite previews_app. apply Hsp; lia. }
  assert (∀ op, (posts op outs ≤ previews op (es ++ [ev]))%nat) as Hle.
  { intros op. specialize (Hh op). rewrite previews_app. lia. }
  assert (∀ j g, frames (pop i s) !! j = Some g → exec_frame g = false) as Hothers.
  { intros j g Hj. simpl in Hj. apply lookup_delete_Some in Hj as [Hne Hj].
    apply not_true_iff_false. intros Hg. by apply Hne, (H1 i j f g). }
  split.
  - destruct (Hs []) as (m & Hpush & _). eapply pushes_fresh; [|exact Hpush]. by apply fresh_pop.
  - destruct (Hs []) as (m & Hpush & _). intros j k g h Hj Hk Hg Hh'.
    eapply (pushes_lookup _ _ _ _ _ Hpush) in Hj as [Hj%Hothers|[-> _]]; [congruence|].
    by eapply (pushes_lookup _ _ _ _ _ Hpush) in Hk as [Hk%Hothers|[-> _]]; [congruence|].
  - intros op. destruct (Hs op) as (m & _ & _ & Hb). simpl in Hb. rewrite posts_app.
    specialize (Hle op). lia.
  - intros op j g Hj. destruct (Hs op) as (m & Hpush & Ha & Hb). simpl in Ha, Hb.
    rewrite posts_app. specialize (Hle op).
    eapply (pushes_lookup _ _ _ _ _ Hpush) in Hj as [Hj%Hothers|[_ Hm]]; [|lia].
    rewrite (pending_calm _ _ Hj). lia.
Qed.

Lemma serial_step_inv es s outs ev s' o :
  serial_inv es s outs → serial_step s ev = Some (s', o) →
  serial_inv (es ++ [ev]) s' (outs ++ o).
Proof.
  intros Hi. destruct ev as [pcm|pcm| |cl conf cb| |i r]; unfold serial_step; simpl.
  - intros [= <- <-]. apply (serial_calm es _ s); [done|]. unfold ingest_pcm, ensure_monitor.
    destruct (voice_auth_required c); [|by apply calm_same].
    destruct (_ || _); [by apply calm_same|]. destruct (auth_monitor _); by apply calm_same.
  - intros [= <- <-]. apply (serial_calm es _ s); [done|]. unfold utterance.
    destruct (voice_auth_required c); [|by apply calm_same].
    destruct (_ && _); [by apply calm_push|by apply calm_same].
  - destruct (auth_monitor s); try done. intros H%(inj Some).
    apply (serial_calm es _ s); [done|]. unfold tick in H.
    destruct (_ <? _); [by simplify_eq; apply calm_same|].
    destruct (compare_ready _ _); simplify_eq; by apply calm_push.
  - destruct (idle s) eqn:Hidle; [|done]. intros [= <- <-].
    unfold idle in Hidle. apply bool_decide_eq_true in Hidle.
    destruct Hi as [Hf H1 Hh Hp].
    assert (pushes (λ f, f = Started (mkExec cl conf cb)) s (push (Started (mkExec cl conf cb)) s))
      as Hpush by (right; by eexists).
    assert (∀ op, posts op [activity cl (lit "started") None] = 0%nat) as Ho by done.
    split.
    + by eapply pushes_fresh.
    + intros i j f g Hi Hj Hff Hgg.
      eapply (pushes_lookup _ _ _ _ _ Hpush) in Hi as [Hi%Hidle|[-> _]]; [congruence|].
      by eapply (pushes_lookup _ _ _ _ _ Hpush) in Hj as [Hj%Hidle|[-> _]]; [congruence|].
    + intros op. rewrite posts_app, previews_app, Ho. specialize (Hh op).
      unfold held in *. simpl. lia.
    + intros op i f Hi. rewrite posts_app, previews_app, Ho.
      eapply (pushes_lookup _ _ _ _ _ Hpush) in Hi as [Hi|[_ ->]].
      * specialize (Hp op i f Hi). lia.
      * specialize (Hh op). unfold pending. simpl. lia.
  - intros [= <- <-]. destruct Hi as [Hf H1 Hh Hp]. rewrite app_nil_r. split; [done|done| |].
    + intros op. specialize (Hh op). rewrite previews_app. unfold held at 1. simpl. lia.
    + intros op i f Hi. specialize (Hp op i f Hi). rewrite previews_app. lia.
  - destruct (frames s !! i) as [f|] eqn:Hf; [|done]. intros Hs.
    destruct (exec_frame f) eqn:Hex.
    + eapply serial_exec; [done|done|done|]. intros op N Hh Hp Hr.
      by apply (resume_spends op N i f r).
    + apply resume_calm in Hs; [|done]. destruct Hs as (Hpr & Ho & Hpush).
      assert (serial_inv es (pop i s) outs) as Hi'.
      { destruct Hi as [Hfr H1 Hh Hp]. split; [by apply fresh_pop| |done|].
        - intros j k g h Hj Hk. simpl in Hj, Hk.
          apply lookup_delete_Some in Hj as [_ Hj], Hk as [_ Hk]. by apply H1.
        - intros op j g Hj. simpl in Hj. apply lookup_delete_Some in Hj as [_ Hj]. by eapply Hp. }
      by apply (serial_calm es _ (pop i s)).
Qed.
End serial.

(** When tool calls are awaited one after the other, the bank is asked to execute
    an operation at most as often as it returned a preview of it: one preview, one
    execution, whatever the order of voice checks, replies, cancellations and resets.
    (Two overlapping executions can both post, see [overlapping_executions_post_twice].) *)
Theorem one_execution_per_preview (schema_errors : json → json → list str) (c : bank_config)
    (records : list (str * dict)) (es : list event) (s : bank) (outs : list effect)
    (Hrun : run (serial_step schema_errors c records) init es = Some (s, outs)) :
  ∀ op, (posts op outs ≤ previews op es)%nat.
Proof.
  assert (serial_inv es s outs) as [_ _ Hh _].
  { revert Hrun. apply (run_hist_inv _ serial_inv).
    - split; by intros *.
    - intros. by eapply serial_step_inv. }
  intros op. specialize (Hh op). lia.
Qed.

(** ** Executions *)

Definition example_config : bank_config :=
  mkConfig (mkContext [] (lit "agent") (lit "business") (lit "user")) (lit "call-1")
    [(lit "wema_context", JObj [(lit "customer_id", JStr (lit "cust-1"))])]
    (λ k, if k =s lit "VOICE_AUTH_SIDECAR_URL" then Some (lit "http://sidecar/") else None).

Definition example_records : list (str * dict) :=
  map (λ name, (lit name, [(lit "name", JStr (lit name)); (lit "url", JStr (lit "https://bank/tool"));
                           (lit "request_schema", JObj [])]))
    ["wema_prepare_transfer"; "wema_execute_prepared"]%string.

Definition example_step := serial_step (λ _ _, []) example_config example_records.

Definition example_prepare : event :=
  Execute (mkCall (lit "c1") (lit "wema_prepare_transfer") []) [] true.

Definition example_execute : event :=
  Execute (mkCall (lit "c2") EXECUTE [(lit "operation_id", JStr (lit "op-1"))]) (lit "op-1") true.

Definition example_match : resume := Replied (Ok (JObj [(lit "matched", JBool true)])).

Definition example_preview : resume :=
  Posted (Ok (200, JObj [(lit "status", JStr (lit "prepared"));
    (lit "data", JObj [(lit "operation_id", JStr (lit "op-1"));
                       (lit "preview", JObj [(lit "amount", JInt 5000)])])])).

(** The session check, then a prepared transfer. *)
Definition example_setup : list event :=
  [Ingest (replicate (Z.to_nat 38400) 0); Utterance [];
   Resume 0 (Acquired (Ok ())); Resume 1 example_match; Resume 2 (Sent (Ok ()));
   example_prepare; Resume 3 (Sent (Ok ())); Resume 4 (Acquired (Ok ()));
   Resume 5 example_match; Resume 6 (Sent (Ok ())); Resume 7 example_preview;
   Resume 8 (Sent (Ok ()))].

(** The confirmed execution that follows. *)
Definition example_events : list event :=
  example_setup ++
  [example_execute; Resume 9 (Sent (Ok ())); Resume 10 (Acquired (Ok ()));
   Resume 11 example_match; Resume 12 (Sent (Ok ()))].

Definition op1_posts (r : option (bank * list effect)) : option nat :=
  option_map (λ r, posts (lit "op-1") r.2) r.

Lemma op1_run (r : option (bank * list effect)) n :
  op1_posts r = Some n → ∃ s outs, r = Some (s, outs) ∧ posts (lit "op-1") outs = n.
Proof. destruct r as [[s outs]|]; [|done]. intros [= <-]. by exists s, outs. Qed.

Lemma posts_elem op outs :
  (0 < posts op outs)%nat → ∃ i url args hdr, PostTool i EXECUTE url args hdr ∈ outs.
Proof.
  unfold posts, count. destruct (List.filter _ outs) as [|x l] eqn:Hf; simpl; [lia|].
  intros _. assert (In x (x :: l)) as Hx by (by left). rewrite <-Hf in Hx.
  apply List.filter_In in Hx as [Hx%list_elem_of_In Ho]. destruct x; try done.
  apply andb_true_iff in Ho as [->%str_eqb_true _]. eauto.
Qed.

Lemma execute_needs_confirmed_preview_witness :
  ∃ s outs, run (step (λ _ _, []) example_config example_records) init example_events =
              Some (s, outs) ∧
    ∃ i url args hdr, PostTool i EXECUTE url args hdr ∈ outs ∧
      ∃ p, previewed example_events outs p.
Proof.
  destruct (op1_run (run (step (λ _ _, []) example_config example_records) init example_events) 1)
    as (s & outs & Hrun & Hp); [vm_compute; reflexivity|].
  exists s, outs. split; [exact Hrun|].
  destruct (posts_elem (lit "op-1") outs) as (i & url & args & hdr & Hin); [rewrite Hp; lia|].
  exists i, url, args, hdr. split; [exact Hin|].
  destruct (execute_needs_confirmed_preview _ _ _ _ _ _ Hrun i url args hdr Hin)
    as (cl & op & cb & _ & _ & _ & p & Hpv & _).
  exists p. exact Hpv.
Defined.

Lemma bank_requests_need_voice_match_witness :
  voice_auth_required example_config = true ∧
  ∃ s outs, run (step (λ _ _, []) example_config example_records) init example_events =
              Some (s, outs) ∧
    ∃ e clip, call_name (call e) = EXECUTE ∧ matched_by example_events outs (Some e) clip.
Proof.
  split; [vm_compute; reflexivity|].
  destruct (op1_run (run (step (λ _ _, []) example_config example_records) init example_events) 1)
    as (s & outs & Hrun & Hp); [vm_compute; reflexivity|].
  exists s, outs. split; [exact Hrun|].
  destruct (posts_elem (lit "op-1") outs) as (i & url & args & hdr & Hin); [rewrite Hp; lia|].
  destruct (bank_requests_need_voice_match _ _ _ _ _ _ Hrun i EXECUTE url args hdr Hin)
    as (e & _ & Hn & _ & Hv).
  destruct Hv as [_ [clip Hc]]; [vm_compute; reflexivity|].
  exists e, clip. split; [exact Hn|exact Hc].
Defined.

Lemma check_lock_progress_witness :
  ∃ s outs, run (step (λ _ _, []) example_config example_records) init
              (take 3 example_events) = Some (s, outs) ∧
    check_lock s = true ∧ ∃ i f, frames s !! i = Some f ∧ holds_lock f = true.
Proof.
  assert (option_map (λ r, check_lock r.1) (run (step (λ _ _, []) example_config example_records)
            init (take 3 example_events)) = Some true) as Hl by (vm_compute; reflexivity).
  destruct (run _ init (take 3 example_events)) as [[s outs]|] eqn:Hrun; [|discriminate Hl].
  injection Hl as Hl. exists s, outs. split; [reflexivity|]. split; [exact Hl|].
  apply (check_lock_progress _ _ _ _ _ _ Hrun). exact Hl.
Defined.

Lemma one_execution_per_preview_witness :
  ∃ s outs, run example_step init example_events = Some (s, outs) ∧
    posts (lit "op-1") outs = 1%nat ∧ (1 ≤ previews (lit "op-1") example_events)%nat.
Proof.
  destruct (op1_run (run example_step init example_events) 1) as (s & outs & Hrun & Hp);
    [vm_compute; reflexivity|].
  exists s, outs. split; [exact Hrun|]. split; [exact Hp|]. rewrite <-Hp.
  exact (one_execution_per_preview _ _ _ _ _ _ Hrun (lit "op-1")).
Defined.

(** The preview is checked before [authorize] is awaited and not again before the
    request: two overlapping executions of one preview both reach the bank. *)
Definition overlapping_events : list event :=
  example_setup ++
  [example_execute; example_execute; Resume 9 (Sent (Ok ())); Resume 10 (Sent (Ok ()));
   Resume 11 (Acquired (Ok ())); Resume 12 (Acquired (Ok ()));
   Resume 13 example_match; Resume 14 example_match;
   Resume 15 (Sent (Ok ())); Resume 16 (Sent (Ok ()))].

Lemma overlapping_executions_post_twice :
  op1_posts (run (step (λ _ _, []) example_config example_records) init overlapping_events) =
    Some 2%nat ∧ previews (lit "op-1") overlapping_events = 1%nat.
Proof. split; vm_compute; reflexivity. Qed.

(** For the same reason a preview withdrawn while the voice check is awaited (the
    pipeline sets [banking.prepared = None]) is executed all the same. *)
Definition withdrawn_events : list event :=
  example_setup ++
  [example_execute; Resume 9 (Sent (Ok ())); ClearPrepared; Resume 10 (Acquired (Ok ()));
   Resume 11 example_match; Resume 12 (Sent (Ok ()))].

Lemma withdrawn_preview_is_executed :
  op1_posts (run example_step init withdrawn_events) = Some 1%nat.
Proof. vm_compute. reflexivity. Qed.

(** A preview reply whose [data] is [null] raises [AttributeError], which [execute]
    does not catch: no result and no completion notice are given. *)
Lemma null_data_escapes r s :
  is_prepare (call_name (call (ready_exec r))) = true →
  posted example_config r
    (Ok (200, JObj [(lit "status", JStr (lit "prepared")); (lit "data", JNull)])) s =
  (s, [Uncaught AttributeError]).
Proof. intros Hp. unfold posted. rewrite Hp. reflexivity. Qed.
