(* ===== verification/Speech.v ===== *)
(** * Native-language speech: latency_lab/pidgin.py and speech_languages.py

    Which language a call speaks and with which model and voice
    ([apply_language_stack]), how a text is cut for the synthesiser ([split_text],
    [ejiro_spoken_text]) and how streamed PCM is re-framed ([pcm_stream]).  The
    synthesiser is the parameter [post]; the audio resampler of the Favour voice
    (package livekit) is not modelled, its input frames are. *)
From stdpp Require Import base list strings.
From Stdlib Require Import ZArith Lia.
From S2P Require Import Prelude Pystr Json.

(** ** Languages *)

Record language_profile := mkProfile {
  lang_name : str;
  lang_model : str;
  lang_voice : str;
  lang_url : str;
  request_language : str;
  request_timeout_seconds : Z;
  opening : str;
  goodbye : str;
  acknowledgement : str;
  inactivity_checkin : str;
  inactivity_goodbye : str;
}.

Definition LANGUAGES : list (str * language_profile) :=
  [(lit "yo", mkProfile (lit "Yoruba") (lit "coqui-yoruba-vits") (lit "balogun")
      (lit "http://102.88.137.124:8080/tts-yoruba/v1/audio/speech") [] 60
      (lit "Ẹ káàbọ̀. Báwo ni mo ṣe lè ràn yín lọ́wọ́ lónìí?") (lit "Ẹ ṣé gan-an. Ó dàbọ̀.")
      (lit "Ẹ jọ̀ọ́, ẹ fún mi ní àkókò díẹ̀ láti ṣàyẹ̀wò rẹ̀.")
      (lit "Ṣé ẹ ṣì wà níbẹ̀? Ṣé mo tún lè ràn yín lọ́wọ́?")
      (lit "Mi ò gbọ́ ìdáhùn yín, nítorí náà màá parí ìpè yìí báyìí. Ó dàbọ̀."));
   (lit "ha", mkProfile (lit "Hausa") (lit "coqui-hausa-vits") (lit "hausa")
      (lit "http://102.88.137.124:8080/tts-hausa/v1/audio/speech") [] 60
      (lit "Sannu da zuwa. Ta yaya zan iya taimaka muku yau?") (lit "Na gode sosai. Sai an jima.")
      (lit "Don Allah, ku ba ni ɗan lokaci in duba muku.")
      (lit "Kuna nan kuwa? Akwai wani abu da zan taimaka muku?")
      (lit "Ban ji amsarku ba, zan kawo ƙarshen kiran yanzu. Sai an jima."));
   (lit "ig", mkProfile (lit "Igbo") (lit "igbo-sorotts-three-voices-v1") (lit "chinedu")
      (lit "http://102.88.137.124:8080/tts-igbo/v1/audio/speech") (lit "ig") 1800
      (lit "Ndeewo. Kedu ka m ga-esi nyere gị aka taa?") (lit "Daalụ nke ukwuu. Ka ọ dị.")
      (lit "Biko, chere obere oge ka m lelee ya.")
      (lit "Ị ka nọ ebe ahụ? Ọ dị ihe ọzọ m nwere ike inyere gị aka?")
      (lit "Anụghị m azịza gị, ya mere m ga-akwụsị oku a ugbu a. Ka ọ dị."))].

(** [str(v or "").strip().lower()] *)
Definition tidy (v : json) : str := py_lower (str_strip v).

Definition is_pidgin (language : json) : bool :=
  in_strs (tidy language) [lit "pcm"; lit "pd"; lit "pidgin"; lit "nigerian pidgin"].

Definition language_code (value : json) : str :=
  let language := tidy value in
  if is_pidgin (JStr language) then lit "pcm"
  else if in_strs language [lit "yo"; lit "yor"; lit "yoruba"; lit "yorùbá"] then lit "yo"
  else if in_strs language [lit "ha"; lit "hau"; lit "hausa"] then lit "ha"
  else if in_strs language [lit "ig"; lit "ibo"; lit "igbo"] then lit "ig"
  else [].

Definition uses_sbpn (language : json) : bool := negb (bool_decide (language_code language = [])).

Definition HAUSA_TWB_VOICES : list (str * str) :=
  [(lit "haisha", lit "spk_f_1"); (lit "adamu", lit "spk_m_1"); (lit "muhammad", lit "spk_m_2")].
Definition HAUSA_LEGACY_VOICES : list str :=
  [[]; lit "default"; lit "hausa"; lit "musa"; lit "coqui-hausa-vits"; lit "hausa-twb-voice-1.0"].
Definition IGBO_VOICES : list (str * str) :=
  [(lit "chinedu", lit "ibo1"); (lit "eze", lit "ibo2"); (lit "ada", lit "ibo3")].
Definition IGBO_LEGACY_VOICES : list str :=
  [[]; lit "default"; lit "igbo"; lit "igbo-sorotts-three-voices-v1";
   lit "qwen-igbo-cleaned5h-epoch20"; lit "qwen-igbo-epoch20"].
Definition ABDUL_MODEL : str := lit "hausa-ljspeech-vits-epoch271".
Definition ABDUL_CHECKPOINT : str :=
  lit "a92c761456510945bd1a556987c673bc7768546f97436eb840bf6e06b4f64dc4".

(** The voice of a table whose name or speaker id is [selected]. *)
Definition find_voice (voices : list (str * str)) (selected : str) : option str :=
  first_some (λ v, if in_strs selected [v.1; v.2] then Some v.1 else None) voices.

Definition igbo_voice (value : json) : exn str :=
  let selected := tidy value in
  if in_strs selected IGBO_LEGACY_VOICES then Ok (lit "chinedu")
  else match find_voice IGBO_VOICES selected with
       | Some name => Ok name
       | None => Raise (ValueError (lit "Unknown Igbo voice selection"))
       end.

Definition hausa_voice (value : json) : exn str :=
  let selected := tidy value in
  if in_strs selected HAUSA_LEGACY_VOICES then Ok (lit "haisha")
  else match find_voice HAUSA_TWB_VOICES selected with
       | Some name => Ok name
       | None => Raise (ValueError (lit "Unknown Hausa voice selection"))
       end.

(** ** The speech stack of a call *)

Definition EJIRO_MODEL : str := lit "qwen-pidgin-f1-cleaned-epoch5".
Definition PIDGIN_VOICE : str := lit "favour".
Definition EJIRO_URL : str := lit "http://102.88.137.124:8080/tts-ejiro/v1/audio/speech".
Definition DYNAMIC_PIDGIN_MODEL : str := lit "dynamic-accent-pidgin-flash".
Definition DYNAMIC_PIDGIN_CHECKPOINT : str :=
  lit "f59a6fc0dacc331844cf8b513ec99e4d5c75f2583115037c8d38ba9ff7e3a307".
Definition DYNAMIC_PIDGIN_URL : str :=
  lit "http://102.88.137.124:8080/tts-pidgin-dynamic/v1/audio/speech".
Definition DYNAMIC_PIDGIN_VOICES : list str := [lit "maro"; lit "rukky"].
Definition SBPN_MODEL : str := lit "ogunlao/SBPN_multilingual_base".
Definition SBPN_URL : str := lit "http://102.88.137.124:8080/asr-sbpn/v1/audio/transcriptions".
Definition SBPN_WS_URL : str := lit "ws://102.88.137.124:8080/asr-sbpn/v1/realtime".

(** The fields of [LabConfig] the stack reads or replaces. *)
Record speech_config := mkSpeech {
  tts_language : str;
  tts_model : str;
  tts_voice : str;
  tts_url : str;
  tts_ref_audio : str;
  tts_ref_text : str;
  tts_seed : str;
  stt_model : str;
  stt_ws_url : str;
  stt_batch_url : str;
  stt_batch_timeout_seconds : Z;
  speech_language_override : str;
  hausa_twb_voices_enabled : bool;
}.

(** The saved agent's speech settings; [None] is empty for both. *)
Record voice_context := mkVoices {
  tts_language_hint : str;
  tts_voice_id : str;
}.

Definition strs_or (l : list str) : str := default [] (List.find (λ s, negb (bool_decide (s = []))) l).

(** [overrides.get(..) or config.speech_language_override or
    getattr(context, "tts_language_hint", "") or config.tts_language] *)
Definition selected_language (cfg : speech_config) (ctx : voice_context) (overrides : dict) : json :=
  jor overrides.[lit "tts_language_hint"]
    (JStr (strs_or [speech_language_override cfg; tts_language_hint ctx; tts_language cfg])).

(** [overrides.get("tts_voice_id") or overrides.get("tts_voice") or saved or configured] *)
Definition requested_voice (overrides : dict) (saved configured : str) : json :=
  jor overrides.[lit "tts_voice_id"]
    (jor overrides.[lit "tts_voice"] (JStr (strs_or [saved; configured]))).

Definition runtime_overrides (identity : dict) : exn dict :=
  match jor identity.[lit "runtime_overrides"] (JObj []) with
  | JObj o => Ok o
  | _ => Raise AttributeError
  end.

Definition pidgin_stack (cfg : speech_config) (requested : str) : speech_config :=
  let dynamic := in_strs requested DYNAMIC_PIDGIN_VOICES in
  mkSpeech (lit "Nigerian Pidgin")
    (if dynamic then DYNAMIC_PIDGIN_MODEL else EJIRO_MODEL)
    (if dynamic then requested else PIDGIN_VOICE)
    (if dynamic then DYNAMIC_PIDGIN_URL else EJIRO_URL)
    [] (tts_ref_text cfg) (if dynamic then lit "0" else lit "17")
    SBPN_MODEL SBPN_WS_URL SBPN_URL 120
    (speech_language_override cfg) (hausa_twb_voices_enabled cfg).

Definition apply_pidgin_stack (cfg : speech_config) (ctx : voice_context) (identity : dict)
    : exn speech_config :=
  do! overrides := runtime_overrides identity in
  if negb (is_pidgin (selected_language cfg ctx overrides)) then Ok cfg
  else
    let saved := if is_pidgin (JStr (tts_language_hint ctx)) then tts_voice_id ctx else [] in
    let configured := py_lower (py_strip (tts_voice cfg)) in
    let configured := if in_strs configured DYNAMIC_PIDGIN_VOICES then configured else [] in
    Ok (pidgin_stack cfg
          (py_lower (py_strip (py_str (requested_voice overrides saved configured))))).

Definition native_stack (cfg : speech_config) (p : language_profile) (model voice : str)
    : speech_config :=
  mkSpeech (lang_name p) model voice (lang_url p) [] (tts_ref_text cfg) (tts_seed cfg)
    SBPN_MODEL SBPN_WS_URL SBPN_URL 120
    (speech_language_override cfg) (hausa_twb_voices_enabled cfg).

Definition in_voices (voices : list (str * str)) (v : str) : bool :=
  in_strs v (map fst voices) || in_strs v (map snd voices).

Definition saved_for (code : str) (ctx : voice_context) : str :=
  if language_code (JStr (tts_language_hint ctx)) =s code then tts_voice_id ctx else [].

(** The model and voice of a native language. *)
Definition native_voice (cfg : speech_config) (ctx : voice_context) (overrides : dict)
    (code : str) (p : language_profile) : exn (str * str) :=
  let configured := py_lower (py_strip (tts_voice cfg)) in
  if code =s lit "ig" then
    let configured := if in_voices IGBO_VOICES configured then configured else [] in
    do! voice := igbo_voice (requested_voice overrides (saved_for code ctx) configured) in
    Ok (lang_model p, voice)
  else if code =s lit "ha" then
    let configured := if in_voices HAUSA_TWB_VOICES configured || (configured =s lit "abdul")
                      then configured else [] in
    let requested := requested_voice overrides (saved_for code ctx) configured in
    if tidy requested =s lit "abdul" then Ok (ABDUL_MODEL, lit "abdul")
    else
      do! chosen := hausa_voice requested in
      if hausa_twb_voices_enabled cfg then Ok (lit "hausa", chosen)
      else if negb (in_strs (tidy requested) HAUSA_LEGACY_VOICES)
      then Raise (ValueError (lit "Hausa research voices are not enabled"))
      else Ok (lang_model p, lang_voice p)
  else Ok (lang_model p, lang_voice p).

(** The languages in which a call keeps a saved voice of the bank. *)
Definition english_names : list str :=
  [[]; lit "en"; lit "english"; lit "american english"; lit "nigerian english"].

Definition WEMA_VOICES : list str :=
  [lit "wema-en-ng-female"; lit "wema-en-ng-male"; lit "wema-en-us-female";
   lit "wema-en-us-male"; lit "wema-en-ng-female-short"; lit "wema-en-ng-male-short";
   lit "wema-en-us-female-short"; lit "wema-en-us-male-short"].

Definition is_wema_voice (voice : str) : bool := in_strs (py_lower (py_strip voice)) WEMA_VOICES.

Definition apply_language_stack (cfg : speech_config) (ctx : voice_context) (identity : dict)
    : exn speech_config :=
  do! overrides := runtime_overrides identity in
  let selected := selected_language cfg ctx overrides in
  let code := language_code selected in
  match dget code LANGUAGES with
  | None =>
      do! cfg := apply_pidgin_stack cfg ctx identity in
      let selected_language := replace_char 95 (lit " ") (tidy selected) in
      let has_runtime_voice := truthy overrides.[lit "tts_voice_id"]
                               || truthy overrides.[lit "tts_voice"] in
      let saved_voice := py_strip (tts_voice_id ctx) in
      if negb has_runtime_voice && in_strs selected_language english_names
         && is_wema_voice saved_voice
      then Ok (mkSpeech (tts_language cfg) (tts_model cfg) saved_voice (tts_url cfg) [] []
                 (tts_seed cfg) (stt_model cfg) (stt_ws_url cfg) (stt_batch_url cfg)
                 (stt_batch_timeout_seconds cfg) (speech_language_override cfg)
                 (hausa_twb_voices_enabled cfg))
      else Ok cfg
  | Some p =>
      do! mv := native_voice cfg ctx overrides code p in
      Ok (native_stack cfg p mv.1 mv.2)
  end.

(** ** Cutting a text for the synthesiser *)

Definition sentence_marks : list str := [lit ". "; lit "? "; lit "! "; lit "; "].

(** [max(window.rfind(mark) + len(mark) for mark in ..)] *)
Definition sentence_end (window : str) : Z :=
  foldr Z.max (-1) (map (λ mark, py_rfind mark window + slen mark) sentence_marks).

Definition boundary (limit : Z) (window : str) : Z :=
  let sentence := sentence_end window in
  let b := if limit / 2 <? sentence then sentence else py_rfind (lit " ") window + 1 in
  if b =? 0 then limit else b.

(** The loop; each round removes at least one character (see [boundary_bounds]), so the
    length of the text is enough fuel. *)
Fixpoint split_loop (fuel : nat) (limit : Z) (text : str) : list str :=
  match fuel with
  | O => []
  | S fuel =>
      if limit <? slen text then
        let b := Z.to_nat (boundary limit (take (Z.to_nat limit) text)) in
        take b text :: split_loop fuel limit (drop b text)
      else if bool_decide (text = []) then [] else [text]
  end.

Definition split_text (text : str) (limit : Z) : exn (list str) :=
  if limit <? 1 then Raise (ValueError (lit "Text limit must be positive"))
  else Ok (split_loop (S (length text)) limit text).

(** *** Spoken digits *)

Definition digit_words : list str :=
  [lit "zero"; lit "one"; lit "two"; lit "three"; lit "four"; lit "five"; lit "six";
   lit "seven"; lit "eight"; lit "nine"].

(** [re.sub(r"(?<=\d)\.(?=\d)", " point ", text)]; [prev] tells a digit precedes. *)
Fixpoint speak_points (prev : bool) (s : str) : str :=
  match s with
  | [] => []
  | c :: s' =>
      if (c =? 46) && prev && match s' with d :: _ => is_decimal d | [] => false end
      then lit " point " ++ speak_points false s'
      else c :: speak_points (is_decimal c) s'
  end.

Definition digit_word (c : Z) : str :=
  default [] (decimal_value c ≫= λ d, digit_words !! Z.to_nat d).

(** [re.sub(r"\d+", .., text)]; [run] tells that a run of digits is open. *)
Fixpoint speak_digits (run : bool) (s : str) : str :=
  match s with
  | [] => if run then lit " " else []
  | c :: s' =>
      if is_decimal c then lit " " ++ digit_word c ++ speak_digits true s'
      else (if run then lit " " else []) ++ c :: speak_digits false s'
  end.

Definition ejiro_spoken_text (text : str) : str :=
  let text := replace_char 8358 (lit " naira ") text in
  let text := replace_char 37 (lit " percent ") text in
  speak_digits false (speak_points false text).

Example spoken_amount :
  ejiro_spoken_text ([8358] ++ lit "20.5%") =
  lit " naira  two zero  point  five  percent ".
Proof. vm_compute. reflexivity. Qed.

(** ** Streamed audio *)

(** The framing loop: whole 16-bit samples are passed on, an odd byte waits.  The
    chunks passed on so far, and whether the response was complete.  (The two messages
    are given without the client's name, which the three clients put in front.) *)
Fixpoint pcm_stream (budget received : Z) (pending : list Z) (blocks : list (list Z))
    : list (list Z) * exn unit :=
  match blocks with
  | [] =>
      if (received =? 0) || negb (bool_decide (pending = []))
      then ([], Raise (ValueError (lit "empty or truncated PCM16")))
      else ([], Ok ())
  | block :: blocks =>
      let received := received + Z.of_nat (length block) in
      if budget <? received
      then ([], Raise (ValueError (lit "audio exceeds the 30-second segment budget")))
      else
        let pending := pending ++ block in
        let n := (length pending / 2 * 2)%nat in
        let '(out, r) := pcm_stream budget received (drop n pending) blocks in
        (if (n =? 0)%nat then out else take n pending :: out, r)
  end.

Record response := mkResponse {
  content_type : str;
  header : str → option str;
  blocks : list (list Z);
}.

Definition header_is (r : response) (kv : str * str) : bool :=
  bool_decide (header r kv.1 = Some kv.2).

Definition CALL_BUDGET : Z := 30 * 24000 * 2.

Section clients.
(** [session.post] with [raise_for_status], for the payload sent and its time limit. *)
Context (post : str → dict → Z → exn response).

(** The loop over the parts: blank ones are skipped, the others requested in order; the
    chunks passed on, the parts counted as spoken, and how it ended. *)
Fixpoint speak_parts (payload : str → dict) (url : str) (timeout : Z)
    (accepts : response → exn unit) (parts : list str)
    : list (list Z) * list str * exn unit :=
  match parts with
  | [] => ([], [], Ok ())
  | part :: parts =>
      if bool_decide (py_strip part = []) then
        speak_parts payload url timeout accepts parts
      else
        match post url (payload part) timeout with
        | Raise e => ([], [], Raise e)
        | Ok r =>
            match accepts r with
            | Raise e => ([], [], Raise e)
            | Ok _ =>
                match pcm_stream CALL_BUDGET 0 [] (blocks r) with
                | (out, Raise e) => (out, [], Raise e)
                | (out, Ok _) =>
                    let '(out', said, res) := speak_parts payload url timeout accepts parts in
                    (out ++ out', part :: said, res)
                end
            end
        end
  end.

Definition dynamic_payload (voice part : str) : dict :=
  [(lit "model", JStr DYNAMIC_PIDGIN_MODEL); (lit "voice", JStr voice);
   (lit "language", JStr (lit "pcm")); (lit "input", JStr part);
   (lit "response_format", JStr (lit "pcm")); (lit "stream", JBool true);
   (lit "stream_format", JStr (lit "audio")); (lit "seed", JInt 0); (lit "speed", JInt 1)].

Definition dynamic_accepts (voice : str) (r : response) : exn unit :=
  if (content_type r =s lit "audio/pcm") &&
  forallb (header_is r)
    [(lit "X-Audio-Sample-Rate", lit "24000"); (lit "X-Audio-Channels", lit "1");
     (lit "X-Model", DYNAMIC_PIDGIN_MODEL); (lit "X-Voice", voice); (lit "X-Speaker-ID", voice);
     (lit "X-Checkpoint-SHA256", DYNAMIC_PIDGIN_CHECKPOINT);
     (lit "X-Voice-Profile", voice ++ lit "-flash-v1"); (lit "X-Seed", lit "0");
     (lit "X-Speed", lit "1")]
  then Ok ()
  else Raise (ValueError (lit "Dynamic Pidgin TTS returned an unexpected voice, model or PCM format")).

(** [EjiroTTSClient._dynamic_chunks] *)
Definition dynamic_chunks (cfg : speech_config) (text : str)
    : list (list Z) * list str * exn unit :=
  match split_text text 140 with
  | Raise e => ([], [], Raise e)
  | Ok parts =>
      speak_parts (dynamic_payload (tts_voice cfg)) (tts_url cfg) 180
        (dynamic_accepts (tts_voice cfg)) parts
  end.

Definition is_abdul (cfg : speech_config) : bool :=
  (language_code (JStr (tts_language cfg)) =s lit "ha") && (tts_voice cfg =s lit "abdul").

(** The payload of [NativeLanguageTTSClient.stream]; [hausa_voice] may raise. *)
Definition native_payload (cfg : speech_config) (part : str) : exn dict :=
  let payload :=
    [(lit "model", JStr (tts_model cfg)); (lit "voice", JStr (tts_voice cfg));
     (lit "input", JStr part); (lit "response_format", JStr (lit "pcm"));
     (lit "stream", JBool true)] in
  let code := language_code (JStr (tts_language cfg)) in
  do! payload :=
    if is_abdul cfg then
      Ok (dupdate payload
        [(lit "model", JStr ABDUL_MODEL); (lit "voice", JStr (lit "abdul"));
         (lit "speaker_id", JStr (lit "abdul")); (lit "language", JStr (lit "ha"));
         (lit "stream_format", JStr (lit "audio")); (lit "speed", JInt 1); (lit "seed", JInt 17)])
    else if (code =s lit "ha") && hausa_twb_voices_enabled cfg then
      do! selected := hausa_voice (JStr (tts_voice cfg)) in
      match dget selected HAUSA_TWB_VOICES with
      | None => Raise (KeyError selected)
      | Some speaker =>
          Ok (dupdate payload
            [(lit "model", JStr (lit "hausa")); (lit "voice", JStr selected);
             (lit "speaker_id", JStr speaker); (lit "stream_format", JStr (lit "audio"));
             (lit "speed", JInt 1); (lit "seed", JInt 17)])
      end
    else Ok payload in
  let language := default [] (option_map request_language (dget code LANGUAGES)) in
  Ok (if bool_decide (language = []) then payload
      else dset (lit "language") (JStr language) payload).

Definition native_accepts (cfg : speech_config) (r : response) : exn unit :=
  if negb ((content_type r =s lit "audio/pcm") &&
           forallb (header_is r) [(lit "X-Audio-Sample-Rate", lit "24000");
                                  (lit "X-Audio-Channels", lit "1")])
  then Raise (ValueError (lit "Native-language TTS must stream 24 kHz mono PCM16"))
  else if is_abdul cfg &&
          negb (forallb (header_is r)
            [(lit "X-Model", ABDUL_MODEL); (lit "X-Voice", lit "abdul");
             (lit "X-Speaker-ID", lit "abdul"); (lit "X-Checkpoint-SHA256", ABDUL_CHECKPOINT)])
  then Raise (ValueError (lit "Abdul TTS returned an unexpected voice or checkpoint"))
  else Ok ().

(** [NativeLanguageTTSClient.stream]: the payload differs in [input] only, so its
    exception is that of the first part spoken. *)
Definition native_chunks (cfg : speech_config) (text : str)
    : list (list Z) * list str * exn unit :=
  match split_text text 140 with
  | Raise e => ([], [], Raise e)
  | Ok parts =>
      match List.filter (λ p, negb (bool_decide (py_strip p = []))) parts with
      | [] => ([], [], Ok ())
      | first :: _ =>
          match native_payload cfg first with
          | Raise e => ([], [], Raise e)
          | Ok _ =>
              speak_parts (λ part, match native_payload cfg part with Ok d => d | Raise _ => [] end)
                (tts_url cfg)
                (default 60 (option_map request_timeout_seconds
                               (dget (language_code (JStr (tts_language cfg))) LANGUAGES)))
                (native_accepts cfg) parts
          end
      end
  end.
End clients.

(** ** Cutting is lossless *)

Lemma sentence_end_bounds w :
  1 ≤ slen w → 1 ≤ sentence_end w ≤ slen w.
Proof.
  intros Hw. unfold sentence_end, sentence_marks. cbn [map foldr].
  assert (∀ m, slen m = 2 → 1 ≤ py_rfind m w + slen m ≤ slen w) as Hm.
  { intros m Hl. unfold slen in *. destruct (py_rfind_spec m w) as [->|[H0 H1]]; lia. }
  pose proof (Hm (lit ". ") eq_refl). pose proof (Hm (lit "? ") eq_refl).
  pose proof (Hm (lit "! ") eq_refl). pose proof (Hm (lit "; ") eq_refl). lia.
Qed.

Lemma boundary_bounds limit w :
  1 ≤ limit → slen w = limit → 1 ≤ boundary limit w ≤ limit.
Proof.
  intros Hl Hw. pose proof (sentence_end_bounds w ltac:(lia)). unfold boundary.
  destruct (limit / 2 <? sentence_end w).
  - replace (sentence_end w =? 0) with false by (symmetry; apply Z.eqb_neq; lia). lia.
  - destruct (py_rfind_spec (lit " ") w) as [->|[H0 H1]]; simpl; [lia|].
    unfold slen in *. change (length (lit " ")) with 1%nat in H1.
    replace (_ + 1 =? 0) with false by (symmetry; apply Z.eqb_neq; lia). lia.
Qed.

(** A cut falls after a blank, unless the window has none. *)
Definition cut_ok (limit : Z) (part : str) : Prop :=
  last part = Some 32 ∨ (slen part = limit ∧ 32 ∉ part).

Lemma last_take_prefix (m : str) k w :
  m `prefix_of` drop k w → m ≠ [] → last (take (k + length m) w) = last m.
Proof.
  intros [r Hr] Hm. rewrite <-(take_drop k w) at 1. rewrite Hr.
  assert (length (take k w) ≤ k)%nat by (rewrite length_take; lia).
  destruct (decide (k ≤ length w)%nat).
  - rewrite take_app_ge by lia. rewrite length_take_le by lia.
    replace (k + length m - k)%nat with (length m) by lia. rewrite take_app_length.
    destruct m as [|c m] using rev_ind; [done|]. by rewrite app_assoc, !last_snoc.
  - rewrite drop_ge in Hr by lia. destruct m; [done|discriminate Hr].
Qed.

Lemma sentence_end_blank w :
  sentence_end w = 1 ∨ last (take (Z.to_nat (sentence_end w)) w) = Some 32.
Proof.
  assert (∀ m c, m = [c; 32] → py_rfind m w + slen m = 1 ∨
            last (take (Z.to_nat (py_rfind m w + slen m)) w) = Some 32) as Hm.
  { intros m c ->. destruct (py_rfind_occurs [c; 32] w) as [->|(k & -> & Hp)]; [by left|right].
    unfold slen. rewrite <-Nat2Z.inj_add, Nat2Z.id. by rewrite (last_take_prefix [c; 32]). }
  unfold sentence_end, sentence_marks. cbn [map foldr].
  pose proof (Hm (lit ". ") 46 eq_refl). pose proof (Hm (lit "? ") 63 eq_refl).
  pose proof (Hm (lit "! ") 33 eq_refl). pose proof (Hm (lit "; ") 59 eq_refl).
  assert (∀ m, slen m = 2 → 1 ≤ py_rfind m w + slen m) as Hpos.
  { intros m Hl. destruct (py_rfind_spec m w) as [->|[H0' _]]; lia. }
  pose proof (Hpos (lit ". ") eq_refl). pose proof (Hpos (lit "? ") eq_refl).
  pose proof (Hpos (lit "! ") eq_refl). pose proof (Hpos (lit "; ") eq_refl).
  set (a := py_rfind (lit ". ") w + _) in *. set (b := py_rfind (lit "? ") w + _) in *.
  set (d := py_rfind (lit "! ") w + _) in *. set (e := py_rfind (lit "; ") w + _) in *.
  clearbody a b d e. clear Hm Hpos.
  destruct (Z.max_spec a (Z.max b (Z.max d (Z.max e (-1))))) as [[_ ->]|[_ ->]]; [|done].
  destruct (Z.max_spec b (Z.max d (Z.max e (-1)))) as [[_ ->]|[_ ->]]; [|done].
  destruct (Z.max_spec d (Z.max e (-1))) as [[_ ->]|[_ ->]]; [|done].
  destruct (Z.max_spec e (-1)) as [[? _]|[_ ->]]; [lia|done].
Qed.

Lemma boundary_cut limit w :
  1 ≤ limit → slen w = limit → cut_ok limit (take (Z.to_nat (boundary limit w)) w).
Proof.
  intros Hl Hw. pose proof (sentence_end_bounds w ltac:(lia)) as Hs. unfold boundary.
  assert (take (Z.to_nat limit) w = w) as Hall.
  { apply take_ge. unfold slen in Hw. lia. }
  destruct (limit / 2 <? sentence_end w) eqn:Hlt.
  - replace (sentence_end w =? 0) with false by (symmetry; apply Z.eqb_neq; lia).
    destruct (sentence_end_blank w) as [H1|H1]; [|by left].
    rewrite H1 in *. apply Z.ltb_lt in Hlt.
    assert (limit = 1) as -> by (pose proof (Z.div_mod limit 2 ltac:(lia));
      pose proof (Z.mod_pos_bound limit 2 ltac:(lia)); lia).
    rewrite Hall. destruct w as [|c [|? w]]; unfold slen in Hw; simpl in Hw; try lia.
    destruct (decide (c = 32)) as [->|Hc]; [by left|right].
    split; [done|]. rewrite list_elem_of_singleton. congruence.
  - change (lit " ") with [32].
    destruct (py_rfind_occurs [32] w) as [H|(k & -> & Hp)].
    + rewrite H. simpl. rewrite Hall. right. split; [done|]. by apply py_rfind_char_absent.
    + replace (Z.of_nat k + 1 =? 0) with false by (symmetry; apply Z.eqb_neq; lia).
      left. replace (Z.to_nat (Z.of_nat k + 1)) with (k + length [32])%nat by (simpl; lia).
      by rewrite (last_take_prefix [32]).
Qed.

Definition parts_ok (limit : Z) (text : str) (parts : list str) : Prop :=
  concat parts = text ∧
  Forall (λ p, p ≠ [] ∧ slen p ≤ limit) parts ∧
  ∀ a p b, parts = a ++ p :: b → b ≠ [] → cut_ok limit p.

Lemma split_loop_ok fuel limit text :
  1 ≤ limit → (length text < fuel)%nat → parts_ok limit text (split_loop fuel limit text).
Proof.
  intros Hl. revert text. induction fuel as [|fuel IH]; intros text Hf; [lia|]. simpl.
  destruct (limit <? slen text) eqn:Hlt.
  - apply Z.ltb_lt in Hlt. set (w := take (Z.to_nat limit) text).
    assert (slen w = limit) as Hw.
    { unfold slen, w in *. rewrite length_take. lia. }
    pose proof (boundary_bounds limit w Hl Hw) as Hb. pose proof (boundary_cut limit w Hl Hw) as Hc.
    set (n := Z.to_nat (boundary limit w)) in *.
    assert (take n w = take n text) as Ht.
    { unfold w. rewrite take_take. f_equal. unfold n. lia. }
    destruct (IH (drop n text)) as (H1 & H2 & H3).
    { rewrite length_drop. unfold slen in Hlt. unfold n. lia. }
    split_and!.
    + simpl. rewrite H1. apply take_drop.
    + constructor; [|done]. unfold slen in *. rewrite <-Ht.
      assert (length (take n w) = n) as Hn by (rewrite length_take; unfold n; lia).
      split; [|rewrite Hn; unfold n; lia].
      intros E. apply (f_equal length) in E. rewrite Hn in E. simpl in E. unfold n in E. lia.
    + intros a p b Hab Hne. destruct a as [|x a]; simpl in Hab; simplify_eq.
      * by rewrite <-Ht.
      * by eapply H3.
  - apply Z.ltb_ge in Hlt. case_bool_decide as He.
    + subst. split_and!; [done|constructor|]. intros [|? a] p b Hab; discriminate.
    + split_and!; [simpl; by rewrite app_nil_r|by repeat constructor|].
      intros [|? [|? a]] p b Hab Hb; by simplify_eq/=.
Qed.

(** For a positive limit the text is cut losslessly: the parts joined are the
    text, each is non-empty and within the limit, and a cut falls after a blank
    unless the window has no blank at all; a limit below one is refused.  The loop
    ends for every text. *)
Theorem split_text_lossless (text : str) (limit : Z) :
  (limit < 1 → split_text text limit = Raise (ValueError (lit "Text limit must be positive"))) ∧
  (1 ≤ limit → ∃ parts, split_text text limit = Ok parts ∧ parts_ok limit text parts).
Proof.
  unfold split_text. split; intros Hl.
  - by rewrite (proj2 (Z.ltb_lt _ _) Hl).
  - replace (limit <? 1) with false by (symmetry; apply Z.ltb_ge; lia).
    eexists. split; [done|]. apply split_loop_ok; [done|lia].
Qed.

(** ** Framing of streamed audio *)

Definition even_chunk (c : list Z) : Prop := c ≠ [] ∧ Nat.Even (length c).

Lemma framed_length n : (n / 2 * 2 ≤ n ∧ n - n / 2 * 2 < 2)%nat.
Proof.
  pose proof (Nat.div_mod n 2 ltac:(lia)). pose proof (Nat.mod_upper_bound n 2 ltac:(lia)). lia.
Qed.

(** From any point of the loop, [taken] bytes having been passed on before. *)
Lemma pcm_stream_spec budget bs : ∀ taken pending,
  Nat.Even taken → (length pending < 2)%nat → Z.of_nat (taken + length pending) ≤ budget →
  let '(out, r) := pcm_stream budget (Z.of_nat (taken + length pending)) pending bs in
  let total := pending ++ concat bs in
  Forall even_chunk out ∧ concat out `prefix_of` total ∧
  Z.of_nat (taken + length (concat out)) ≤ budget ∧
  (r = Ok () ↔ (taken + length total ≠ 0)%nat ∧ Nat.Even (length total) ∧
                Z.of_nat (taken + length total) ≤ budget) ∧
  (r = Ok () → concat out = total).
Proof.
  induction bs as [|block bs IH]; intros taken pending He Hp Hb.
  - cbn [pcm_stream concat]. rewrite app_nil_r.
    destruct (_ =? 0) eqn:Hz; [apply Z.eqb_eq in Hz|apply Z.eqb_neq in Hz]; simpl.
    + split_and!; [constructor|apply prefix_nil|lia| |done]. split; [done|]. intros (H & _). lia.
    + case_bool_decide as Hpe; subst; simpl in *.
      * split_and!; [constructor|done|lia| |done]. split; [|done]. intros _.
        split; [lia|]. split; [by exists 0%nat|lia].
      * split_and!; [constructor|apply prefix_nil|lia| |done]. split; [done|].
        intros (_ & [k Hk] & _). destruct pending as [|x [|y pending]]; simpl in *; try done; lia.
  - cbn [pcm_stream].
    replace (Z.of_nat (taken + length pending) + Z.of_nat (length block))
      with (Z.of_nat (taken + length (pending ++ block))) by (rewrite length_app; lia).
    assert (pending ++ concat (block :: bs) = (pending ++ block) ++ concat bs) as Htot
      by (simpl; by rewrite app_assoc).
    destruct (budget <? _) eqn:Hlt; [apply Z.ltb_lt in Hlt|apply Z.ltb_ge in Hlt].
    + split_and!; [constructor|apply prefix_nil|simpl; lia| |done]. split; [done|].
      intros (_ & _ & H). rewrite Htot, length_app in H. lia.
    + set (q := pending ++ block) in *. set (n := (length q / 2 * 2)%nat).
      pose proof (framed_length (length q)) as [Hn1 Hn2]. fold n in Hn1, Hn2.
      specialize (IH (taken + n)%nat (drop n q)). rewrite length_drop in IH.
      replace (taken + n + (length q - n))%nat with (taken + length q)%nat in IH by lia.
      destruct (pcm_stream _ _ _ bs) as [out r]. destruct IH as (H1 & H2 & H3 & H4 & H5).
      { destruct He as [k ->]. exists (k + length q / 2)%nat. unfold n. lia. }
      { lia. }
      { done. }
      assert (q = take n q ++ drop n q) as Hq by (by rewrite take_drop).
      assert (concat (if (n =? 0)%nat then out else take n q :: out) = take n q ++ concat out) as Hc.
      { destruct (n =? 0)%nat eqn:E; [|done]. apply Nat.eqb_eq in E. by rewrite E, take_0. }
      rewrite Hc, Htot. split_and!.
      * destruct (n =? 0)%nat eqn:E; [done|]. apply Nat.eqb_neq in E. constructor; [|done].
        split; [intros E'; apply (f_equal length) in E'; rewrite length_take in E'; simpl in E'; lia|].
        rewrite length_take, Nat.min_l by lia. exists (length q / 2)%nat. unfold n. lia.
      * rewrite Hq at 2. rewrite <-app_assoc. by apply prefix_app.
      * rewrite length_app, length_take. lia.
      * rewrite H4. rewrite !length_app, length_drop.
        assert (Nat.Even n) as Hen by (exists (length q / 2)%nat; unfold n; lia).
        assert (Nat.Even (length q - n + length (concat bs)) ↔
                Nat.Even (length q + length (concat bs))) as Hev.
        { replace (length q + length (concat bs))%nat
            with (n + (length q - n + length (concat bs)))%nat by lia.
          split; intros H.
          - by apply Nat.Even_Even_add.
          - by apply (Nat.Even_add_Even_inv_r n) in H. }
        rewrite Hev. intuition lia.
      * intros Hr. rewrite (H5 Hr). by rewrite app_assoc, <-Hq.
Qed.

(** However the network splits a response into blocks, the audio passed on is made
    of non-empty chunks of whole 16-bit samples, is a prefix of the response, and
    stays within the byte budget; the response is accepted exactly when it is
    non-empty, of even length and within the budget, and then all of it was passed on. *)
Theorem pcm_stream_framing (budget : Z) (bs : list (list Z)) (Hbudget : 0 ≤ budget) :
  let '(out, r) := pcm_stream budget 0 [] bs in
  Forall even_chunk out ∧ concat out `prefix_of` concat bs ∧
  Z.of_nat (length (concat out)) ≤ budget ∧
  (r = Ok () ↔ concat bs ≠ [] ∧ Nat.Even (length (concat bs)) ∧
                Z.of_nat (length (concat bs)) ≤ budget) ∧
  (r = Ok () → concat out = concat bs).
Proof.
  pose proof (pcm_stream_spec budget bs 0 [] ltac:(by exists 0%nat) ltac:(simpl; lia) Hbudget) as H.
  change (Z.of_nat (0 + length [])) with 0 in H. destruct (pcm_stream budget 0 [] bs) as [out r].
  cbn [app] in H. destruct H as (H1 & H2 & H3 & H4 & H5). split_and!; try done.
  rewrite H4. simpl.
  assert (length (concat bs) ≠ 0%nat ↔ concat bs ≠ []) as ->; [|done].
  by destruct (concat bs).
Qed.

Lemma pcm_stream_framing_witness :
  pcm_stream 8 0 [] [[1; 2; 3]; []; [4]] = ([[1; 2]; [3; 4]], Ok ()) ∧
  (Ok () = Ok () → concat [[1; 2]; [3; 4]] = concat [[1; 2; 3]; []; [4]]).
Proof.
  split; [vm_compute; reflexivity|]. intros _.
  assert (0 ≤ 8) as H by lia.
  apply (pcm_stream_framing 8 [[1; 2; 3]; []; [4]] H). vm_compute. reflexivity.
Defined.

(** ** The stack of a call *)

#[global] Arguments tidy : simpl never.
#[global] Arguments language_code : simpl never.
#[global] Arguments is_pidgin : simpl never.

Lemma tidy_str s : tidy (JStr s) = py_lower (py_strip s).
Proof. unfold tidy, str_strip, str_or_empty. by destruct s. Qed.

Lemma tidy_idem v : tidy (JStr (tidy v)) = tidy v.
Proof. rewrite tidy_str. apply strip_lower_idem. Qed.

Lemma is_pidgin_tidy v : is_pidgin (JStr (tidy v)) = is_pidgin v.
Proof. unfold is_pidgin. by rewrite tidy_idem. Qed.

Lemma language_code_pcm v : language_code v = lit "pcm" ↔ is_pidgin v = true.
Proof.
  unfold language_code. rewrite is_pidgin_tidy. destruct (is_pidgin v); [done|].
  split; [|done]. repeat (destruct (in_strs _ _); [done|]). done.
Qed.

Inductive code_case : str → Prop :=
| code_pcm : code_case (lit "pcm") | code_yo : code_case (lit "yo")
| code_ha : code_case (lit "ha") | code_ig : code_case (lit "ig") | code_none : code_case [].

Lemma language_code_cases v : code_case (language_code v).
Proof.
  unfold language_code. destruct (is_pidgin _); [apply code_pcm|].
  destruct (in_strs _ _); [apply code_yo|]. destruct (in_strs _ _); [apply code_ha|].
  destruct (in_strs _ _); [apply code_ig|apply code_none].
Qed.

(** The model and voice a language may be spoken with. *)
Inductive voice_of (twb : bool) : str → str → str → Prop :=
| voice_yo : voice_of twb (lit "yo") (lit "coqui-yoruba-vits") (lit "balogun")
| voice_ha : voice_of twb (lit "ha") (lit "coqui-hausa-vits") (lit "hausa")
| voice_abdul : voice_of twb (lit "ha") ABDUL_MODEL (lit "abdul")
| voice_twb v : twb = true → v ∈ map fst HAUSA_TWB_VOICES → voice_of twb (lit "ha") (lit "hausa") v
| voice_ig v : v ∈ map fst IGBO_VOICES →
    voice_of twb (lit "ig") (lit "igbo-sorotts-three-voices-v1") v
| voice_dynamic v : v ∈ DYNAMIC_PIDGIN_VOICES → voice_of twb (lit "pcm") DYNAMIC_PIDGIN_MODEL v
| voice_favour : voice_of twb (lit "pcm") EJIRO_MODEL PIDGIN_VOICE.

Lemma find_voice_elem voices v name : find_voice voices v = Some name → name ∈ map fst voices.
Proof.
  intros ([n s] & Hin & H)%first_some_Some. simpl in H.
  destruct (in_strs _ _); simplify_eq. apply list_elem_of_fmap. by exists (name, s).
Qed.

Lemma igbo_voice_elem v name : igbo_voice v = Ok name → name ∈ map fst IGBO_VOICES.
Proof.
  unfold igbo_voice. destruct (in_strs _ _).
  - intros [= <-]. by left.
  - destruct (find_voice _ _) eqn:H; intros [= <-]. by apply find_voice_elem in H.
Qed.

Lemma hausa_voice_elem v name : hausa_voice v = Ok name → name ∈ map fst HAUSA_TWB_VOICES.
Proof.
  unfold hausa_voice. destruct (in_strs _ _).
  - intros [= <-]. by left.
  - destruct (find_voice _ _) eqn:H; intros [= <-]. by apply find_voice_elem in H.
Qed.

Lemma native_voice_of cfg ctx o code p model voice :
  dget code LANGUAGES = Some p → native_voice cfg ctx o code p = Ok (model, voice) →
  voice_of (hausa_twb_voices_enabled cfg) code model voice ∧
  language_code (JStr (lang_name p)) = code.
Proof.
  unfold LANGUAGES, native_voice. cbn [dget].
  destruct (code =s lit "yo") eqn:Ey.
  { apply str_eqb_true in Ey as ->. intros [= <-].
    change (lit "yo" =s lit "ig") with false. change (lit "yo" =s lit "ha") with false. cbn iota.
    intros [<- <-]%Ok_pair_inj. split; [exact (voice_yo _)|by vm_compute]. }
  destruct (code =s lit "ha") eqn:Eh.
  { apply str_eqb_true in Eh as ->. intros [= <-].
    change (lit "ha" =s lit "ig") with false. cbn iota.
    set (req := requested_voice _ _ _). destruct (tidy req =s lit "abdul").
    { intros [<- <-]%Ok_pair_inj. split; [exact (voice_abdul _)|by vm_compute]. }
    intros (chosen & Hc & H)%exn_bind_Ok.
    destruct (hausa_twb_voices_enabled cfg) eqn:Htwb.
    { apply Ok_pair_inj in H as [<- <-]. split; [|by vm_compute]. apply voice_twb; [done|]. exact (hausa_voice_elem _ _ Hc). }
    destruct (in_strs _ _); [|discriminate H]. cbn [negb] in H. apply Ok_pair_inj in H as [<- <-].
    split; [exact (voice_ha _)|by vm_compute]. }
  destruct (code =s lit "ig") eqn:Ei; [|done].
  apply str_eqb_true in Ei as ->. intros [= <-].
  change (lit "ig" =s lit "ig") with true. cbn iota.
  intros (v & Hv & [<- <-]%Ok_pair_inj)%exn_bind_Ok.
  split; [|by vm_compute]. exact (voice_ig _ v (igbo_voice_elem _ _ Hv)).
Qed.

Lemma pidgin_stack_voice cfg req :
  voice_of (hausa_twb_voices_enabled cfg) (lit "pcm") (tts_model (pidgin_stack cfg req))
    (tts_voice (pidgin_stack cfg req)).
Proof.
  unfold pidgin_stack. cbn [tts_model tts_voice].
  destruct (in_strs req _) eqn:E; [|exact (voice_favour _)].
  apply in_strs_true in E. exact (voice_dynamic _ _ E).
Qed.

(** *** Applying the stack to its own result *)

Lemma strs_or_cons a l : strs_or (a :: l) = if bool_decide (a = []) then strs_or l else a.
Proof. unfold strs_or. simpl. by case_bool_decide. Qed.

Lemma strs_or_one a : strs_or [a] = a.
Proof. rewrite strs_or_cons. case_bool_decide; by subst. Qed.

(** The same override, the same hint, another configured language. *)
Lemma selected_again cfg cfg' ctx o code :
  speech_language_override cfg' = speech_language_override cfg →
  language_code (JStr (tts_language cfg')) = code →
  language_code (selected_language cfg ctx o) = code →
  language_code (selected_language cfg' ctx o) = code.
Proof.
  intros Ho Hc Hs. unfold selected_language in *. rewrite Ho. unfold jor in *.
  destruct (truthy _); [done|]. revert Hs. rewrite !(strs_or_cons _ (_ :: _)), !strs_or_one.
  case_bool_decide; [|done]. by case_bool_decide.
Qed.

(** A voice request is either the same for every configured voice, or is that voice. *)
Lemma requested_voice_cases o saved :
  (∀ v w, requested_voice o saved v = requested_voice o saved w) ∨
  (∀ v, requested_voice o saved v = JStr v).
Proof.
  unfold requested_voice, jor. destruct (truthy _); [by left|]. destruct (truthy _); [by left|].
  destruct (bool_decide (saved = [])) eqn:E.
  - right. intros v. by rewrite strs_or_cons, E, strs_or_one.
  - left. intros v w. by rewrite !strs_or_cons, E.
Qed.

(** A listed voice asked for by its own name is itself. *)
Lemma igbo_voice_self v :
  v ∈ map fst IGBO_VOICES →
  igbo_voice (JStr v) = Ok v ∧ in_voices IGBO_VOICES (py_lower (py_strip v)) = true ∧
  py_lower (py_strip v) = v.
Proof.
  intros [->|[->|[->|[]%not_elem_of_nil]%elem_of_cons]%elem_of_cons]%elem_of_cons;
    vm_compute; done.
Qed.

Lemma hausa_voice_self v :
  v ∈ map fst HAUSA_TWB_VOICES →
  hausa_voice (JStr v) = Ok v ∧ in_voices HAUSA_TWB_VOICES (py_lower (py_strip v)) = true ∧
  py_lower (py_strip v) = v ∧ (tidy (JStr v) =s lit "abdul") = false.
Proof.
  intros [->|[->|[->|[]%not_elem_of_nil]%elem_of_cons]%elem_of_cons]%elem_of_cons;
    vm_compute; done.
Qed.

Lemma native_igbo_again cfg cfg' ctx o p model voice :
  native_voice cfg ctx o (lit "ig") p = Ok (model, voice) → tts_voice cfg' = voice →
  native_voice cfg' ctx o (lit "ig") p = Ok (model, voice).
Proof.
  unfold native_voice. change (lit "ig" =s lit "ig") with true. cbn iota.
  intros (v & Hv & [<- <-]%Ok_pair_inj)%exn_bind_Ok Hvoice.
  destruct (igbo_voice_self v (igbo_voice_elem _ _ Hv)) as (H1 & H2 & H3).
  rewrite Hvoice, H2, H3.
  destruct (requested_voice_cases o (saved_for (lit "ig") ctx)) as [Hs|Hs].
  - rewrite (Hs _ (if in_voices IGBO_VOICES (py_lower (py_strip (tts_voice cfg)))
                   then py_lower (py_strip (tts_voice cfg)) else [])).
    rewrite Hv. done.
  - rewrite Hs, H1. done.
Qed.

Lemma native_hausa_again cfg cfg' ctx o p model voice :
  lang_voice p = lit "hausa" →
  hausa_twb_voices_enabled cfg' = hausa_twb_voices_enabled cfg →
  native_voice cfg ctx o (lit "ha") p = Ok (model, voice) → tts_voice cfg' = voice →
  native_voice cfg' ctx o (lit "ha") p = Ok (model, voice).
Proof.
  intros Hp Htwb. unfold native_voice. change (lit "ha" =s lit "ig") with false.
  change (lit "ha" =s lit "ha") with true. cbn iota. rewrite Htwb. intros H Hvoice.
  destruct (requested_voice_cases o (saved_for (lit "ha") ctx)) as [Hs|Hs].
  { match type of H with context [requested_voice o _ ?x] => rewrite (Hs _ x) end. exact H. }
  rewrite Hs in *. rewrite Hvoice. clear Hvoice.
  destruct (tidy _ =s lit "abdul") in H.
  { apply Ok_pair_inj in H as [<- <-]. reflexivity. }
  apply exn_bind_Ok in H as (chosen & Hc & H).
  destruct (hausa_twb_voices_enabled cfg).
  - apply Ok_pair_inj in H as [<- <-].
    destruct (hausa_voice_self chosen (hausa_voice_elem _ _ Hc)) as (H1 & H2 & H3 & H4).
    rewrite H2. cbn [orb]. rewrite H3, H4, H1. done.
  - destruct (in_strs _ _) in H; [|discriminate H]. cbn [negb] in H.
    apply Ok_pair_inj in H as [<- <-]. rewrite Hp. reflexivity.
Qed.

Lemma native_again cfg ctx o code p model voice :
  dget code LANGUAGES = Some p → native_voice cfg ctx o code p = Ok (model, voice) →
  native_voice (native_stack cfg p model voice) ctx o code p = Ok (model, voice).
Proof.
  intros Hp Hv. destruct (decide (code = lit "ig")) as [->|Hi]; [by eapply native_igbo_again|].
  destruct (decide (code = lit "ha")) as [->|Hh].
  { assert (lang_voice p = lit "hausa") as Hl.
    { assert (lang_voice <$> dget (lit "ha") LANGUAGES = Some (lit "hausa")) as H
        by (vm_compute; reflexivity).
      rewrite Hp in H. by apply (inj Some) in H. }
    by apply (native_hausa_again cfg _ ctx o p model voice Hl). }
  unfold native_voice in *. apply str_eqb_false in Hi, Hh. by rewrite Hi, Hh in *.
Qed.

Definition pidgin_request (cfg : speech_config) (ctx : voice_context) (overrides : dict) : str :=
  let saved := if is_pidgin (JStr (tts_language_hint ctx)) then tts_voice_id ctx else [] in
  let configured := py_lower (py_strip (tts_voice cfg)) in
  let configured := if in_strs configured DYNAMIC_PIDGIN_VOICES then configured else [] in
  py_lower (py_strip (py_str (requested_voice overrides saved configured))).

Lemma dynamic_voice_self v :
  v ∈ DYNAMIC_PIDGIN_VOICES → py_lower (py_strip v) = v.
Proof.
  intros [->|[->|[]%not_elem_of_nil]%elem_of_cons]%elem_of_cons; vm_compute; done.
Qed.

Lemma pidgin_again cfg ctx o :
  let r := pidgin_stack cfg (pidgin_request cfg ctx o) in
  pidgin_stack r (pidgin_request r ctx o) = r.
Proof.
  cbv zeta. set (req := pidgin_request cfg ctx o).
  assert (in_strs (pidgin_request (pidgin_stack cfg req) ctx o) DYNAMIC_PIDGIN_VOICES =
          in_strs req DYNAMIC_PIDGIN_VOICES ∧
          (in_strs req DYNAMIC_PIDGIN_VOICES = true →
           pidgin_request (pidgin_stack cfg req) ctx o = req)) as [H1 H2].
  { unfold pidgin_request at 1 2. cbn [tts_voice pidgin_stack].
    set (saved := if is_pidgin _ then _ else _).
    destruct (requested_voice_cases o saved) as [Hs|Hs].
    - rewrite (Hs _ (if in_strs (py_lower (py_strip (tts_voice cfg))) DYNAMIC_PIDGIN_VOICES
                     then py_lower (py_strip (tts_voice cfg)) else [])). done.
    - rewrite Hs. cbn [py_str]. destruct (in_strs req DYNAMIC_PIDGIN_VOICES) eqn:E.
      + apply in_strs_true in E as Hin.
        rewrite !(dynamic_voice_self req Hin), !E. change (py_str (JStr req)) with req.
        rewrite !(dynamic_voice_self req Hin), E. done.
      + split; [|done]. vm_compute. reflexivity. }
  unfold pidgin_stack at 1. rewrite H1.
  destruct (in_strs req DYNAMIC_PIDGIN_VOICES) eqn:E;
    [rewrite (H2 eq_refl)|]; unfold pidgin_stack; by rewrite E.
Qed.

Lemma pidgin_not_english v :
  is_pidgin v = true → in_strs (replace_char 95 (lit " ") (tidy v)) english_names = false.
Proof.
  unfold is_pidgin. intros H%in_strs_true. rewrite !elem_of_cons in H.
  destruct H as [->|[->|[->|[->|[]%not_elem_of_nil]]]]; vm_compute; done.
Qed.

Lemma no_profile code : code_case code → dget code LANGUAGES = None → code = lit "pcm" ∨ code = [].
Proof. destruct 1; intros H; first [by left|by right|by vm_compute in H]. Qed.

(** A call whose language the native recognizer covers is spoken with one of that
    language's own model and voice pairs (the research voices only when enabled) and
    heard by the shared recognizer; any other call keeps its model, and its voice
    unless the saved voice is one of the bank's; and applying the stack to its own
    result changes nothing. *)
Theorem language_stack_sound (cfg r : speech_config) (ctx : voice_context) (identity : dict)
    (overrides : dict)
    (Ho : runtime_overrides identity = Ok overrides)
    (Hok : apply_language_stack cfg ctx identity = Ok r) :
  let code := language_code (selected_language cfg ctx overrides) in
  (code ≠ [] →
     voice_of (hausa_twb_voices_enabled cfg) code (tts_model r) (tts_voice r) ∧
     language_code (JStr (tts_language r)) = code ∧ stt_model r = SBPN_MODEL) ∧
  (code = [] →
     tts_model r = tts_model cfg ∧ stt_model r = stt_model cfg ∧
     (r = cfg ∨ is_wema_voice (tts_voice r) = true)) ∧
  apply_language_stack r ctx identity = Ok r.
Proof.
  intros code. unfold apply_language_stack, apply_pidgin_stack in *. rewrite Ho in *.
  cbn [exn_bind] in *. fold code in Hok.
  destruct (dget code LANGUAGES) as [p|] eqn:Hp.
  - apply exn_bind_Ok in Hok as ([model voice] & Hv & Hr). injection Hr as <-.
    destruct (native_voice_of _ _ _ _ _ _ _ Hp Hv) as [Hvo Hlc].
    split_and!; [done|by intros Hn; rewrite Hn in Hp|].
    rewrite (selected_again cfg _ ctx overrides code) by done.
    rewrite Hp, (native_again _ _ _ _ _ _ _ Hp Hv). done.
  - destruct (no_profile code (language_code_cases _) Hp) as [Hc|Hc].
    + assert (is_pidgin (selected_language cfg ctx overrides) = true) as Hpid
        by (by apply language_code_pcm).
      rewrite Hpid, (pidgin_not_english _ Hpid) in Hok. cbn [negb exn_bind] in Hok.
      rewrite andb_false_r in Hok. injection Hok as <-. fold (pidgin_request cfg ctx overrides).
      set (r := pidgin_stack cfg _).
      assert (language_code (JStr (tts_language r)) = code) as Hlc by (rewrite Hc; by vm_compute).
      split_and!; [|by rewrite Hc|].
      * intros _. split; [|done]. rewrite Hc. apply pidgin_stack_voice.
      * assert (language_code (selected_language r ctx overrides) = code) as Hsel
          by (by apply (selected_again cfg)).
        assert (is_pidgin (selected_language r ctx overrides) = true) as Hpid'
          by (apply language_code_pcm; by rewrite Hsel).
        rewrite Hsel, Hp, Hpid', (pidgin_not_english _ Hpid'). cbn [negb exn_bind].
        rewrite andb_false_r. fold (pidgin_request r ctx overrides). f_equal. apply pidgin_again.
    + assert (is_pidgin (selected_language cfg ctx overrides) = false) as Hpid.
      { apply not_true_iff_false. rewrite <-language_code_pcm. fold code. by rewrite Hc. }
      rewrite Hpid in Hok. cbn [negb exn_bind] in Hok.
      destruct (_ && is_wema_voice _) eqn:Hw; injection Hok as <-.
      * split_and!; [done| |].
        -- intros _. split; [done|]. split; [done|]. right. by apply andb_true_iff in Hw as [_ Hw].
        -- unfold selected_language in *. cbn [speech_language_override tts_language].
           fold code. rewrite Hp, Hpid. cbn [negb exn_bind]. by rewrite Hw.
      * split_and!; [done|by auto|]. fold code. rewrite Hp, Hpid. cbn [negb exn_bind]. by rewrite Hw.
Qed.

Definition example_speech : speech_config :=
  mkSpeech (lit "English") (lit "m") (lit "helen") (lit "u") [] [] [] (lit "s") [] [] 60 [] false.

Lemma language_stack_sound_witness :
  ∃ r, apply_language_stack example_speech (mkVoices (lit "Igbo") (lit "ibo2")) [] = Ok r ∧
    tts_voice r = lit "eze" ∧
    apply_language_stack r (mkVoices (lit "Igbo") (lit "ibo2")) [] = Ok r.
Proof.
  eexists. split; [vm_compute; reflexivity|]. split; [vm_compute; reflexivity|].
  apply (language_stack_sound example_speech _ (mkVoices (lit "Igbo") (lit "ibo2")) [] []);
    vm_compute; reflexivity.
Defined.
