(* ===== verification/Memory.v ===== *)
(** * Conversation memory: latency_lab/memory.py

    The turns of a call, the bounded context given to the model ([context]) and the
    interruptible compaction ([compact_start], [compact_finish]: the two halves of
    [compact] around the awaited summary, between which any operation may run).
    Messages are decoded dictionaries; every message has a role, as all those the
    pipeline stores have.  The Unicode encoder's refusal of lone surrogates is not
    modelled. *)
From stdpp Require Import base list strings.
From Stdlib Require Import ZArith Lia.
From S2P Require Import Prelude Pystr Json JsonText.

(** [(len(json.dumps(v).encode()) + 2) // 3] *)
Definition estimated_tokens (v : json) : Z := (dumps_bytes v + 2) / 3.

Definition messages_json (l : list dict) : json := JArr (map JObj l).

Definition tokens (l : list dict) : Z := estimated_tokens (messages_json l).

#[global] Arguments tokens : simpl never.

(** ** State *)

Record MemoryTurn := mkTurn {
  id : str;
  messages : list dict;
  closed : bool;
  answered : bool;
  interrupted : bool;
  listening_only : bool;
}.

Definition new_turn (i : str) : MemoryTurn := mkTurn i [] false false false false.

Record memory := mkMemory {
  turns : list MemoryTurn;
  summary : dict;
  epoch : Z;
}.

Definition init : memory := mkMemory [] [] 0.

Definition set_turns (l : list MemoryTurn) (m : memory) : memory :=
  mkMemory l (summary m) (epoch m).

(** ** Operations *)

(** Apply [f] to the last turn named [i]; [None] if there is none. *)
Fixpoint update_last (i : str) (f : MemoryTurn → MemoryTurn) (l : list MemoryTurn)
    : option (list MemoryTurn) :=
  match l with
  | [] => None
  | t :: l =>
      match update_last i f l with
      | Some l => Some (t :: l)
      | None => if id t =s i then Some (f t :: l) else None
      end
  end.

(** [turn = self.turn(i)], then the changes [f] to it. *)
Definition with_turn (i : str) (f : MemoryTurn → MemoryTurn) (m : memory) : memory :=
  set_turns (match update_last i f (turns m) with
             | Some l => l
             | None => turns m ++ [f (new_turn i)]
             end) m.

Definition has_role (role : string) (m : dict) : bool := jeq_str m.[lit "role"] (lit role).

Definition user_message (text : str) : dict :=
  [(lit "role", JStr (lit "user")); (lit "content", JStr text)].

Definition user (i text : str) (listening : bool) (m : memory) : memory :=
  with_turn i (λ t,
    if existsb (has_role "user") (messages t) then t
    else mkTurn (id t) (user_message text :: messages t) (closed t) (answered t)
           (interrupted t) listening) m.

(** [reply] has a call id; a missing one is the source's [KeyError]. *)
Definition tool (i : str) (request reply : dict) (m : memory) : exn memory :=
  do! call := jindex (lit "tool_call_id") reply in
  Ok (with_turn i (λ t,
    if existsb (λ x, py_eq x.[lit "tool_call_id"] call) (messages t) then t
    else mkTurn (id t) (messages t ++ [request; reply]) (closed t) (answered t)
           (interrupted t) (listening_only t)) m).

Definition answer_message (text reasoning : str) : dict :=
  [(lit "role", JStr (lit "assistant")); (lit "content", JStr text)] ++
  (if bool_decide (reasoning = []) then [] else [(lit "reasoning_content", JStr reasoning)]).

Definition answer (i text reasoning : str) (m : memory) : memory :=
  with_turn i (λ t,
    if answered t then t
    else mkTurn (id t) (messages t ++ [answer_message text reasoning]) (closed t) true
           (interrupted t) (listening_only t)) m.

Definition interrupted_note : str :=
  [10] ++ lit "[Response interrupted; the caller may not have heard it in full.]".

(** [message["content"] += note] *)
Definition append_content (note : str) (x : dict) : dict :=
  match x.[lit "content"] with
  | JStr c => dset (lit "content") (JStr (c ++ note)) x
  | _ => x
  end.

Fixpoint change_last {A} (f : A → A) (l : list A) : list A :=
  match l with
  | [] => []
  | [x] => [f x]
  | x :: l => x :: change_last f l
  end.

Definition finish_turn (was_interrupted : bool) (t : MemoryTurn) : MemoryTurn :=
  if was_interrupted && negb (interrupted t) then
    mkTurn (id t)
      (if answered t then change_last (append_content interrupted_note) (messages t)
       else messages t) true (answered t) true (listening_only t)
  else mkTurn (id t) (messages t) true (answered t) (interrupted t) (listening_only t).

(** The first turn named [i], if any. *)
Fixpoint update_first (i : str) (f : MemoryTurn → MemoryTurn) (l : list MemoryTurn)
    : list MemoryTurn :=
  match l with
  | [] => []
  | t :: l => if id t =s i then f t :: l else t :: update_first i f l
  end.

Definition finish (i : str) (was_interrupted : bool) (m : memory) : memory :=
  set_turns (update_first i (finish_turn was_interrupted) (turns m)) m.

Definition clear (m : memory) : memory := mkMemory [] [] (epoch m + 1).

(** ** Groups *)

(** A turn that completes an exchange. *)
Definition completes (t : MemoryTurn) : bool :=
  closed t && (listening_only t || (answered t && negb (interrupted t))).

Fixpoint groups_from (pending : list MemoryTurn) (l : list MemoryTurn) : list (list MemoryTurn) :=
  match l with
  | [] => match pending with [] => [] | _ => [pending] end
  | t :: l =>
      if completes t then (pending ++ [t]) :: groups_from [] l
      else groups_from (pending ++ [t]) l
  end.

Definition _groups (l : list MemoryTurn) : list (list MemoryTurn) := groups_from [] l.

Definition listening_note : str :=
  lit "[Listening-only speech: retained context, not a request to execute or confirmation.]" ++ [10].

(** The message as the model is given it. *)
Definition shown_message (include_reasoning listening : bool) (x : dict) : dict :=
  let x := if include_reasoning then x else dpop (lit "reasoning_content") x in
  if listening && has_role "user" x then
    match x.[lit "content"] with
    | JStr c => dset (lit "content") (JStr (listening_note ++ c)) x
    | _ => x
    end
  else x.

Definition _messages (include_reasoning : bool) (l : list MemoryTurn) : list dict :=
  l ≫= λ t, map (shown_message include_reasoning (listening_only t)) (messages t).

(** ** The bounded context *)

(** The units of an exchange: a message, or a tool call with its results. *)
Fixpoint units_from (units : list (list dict)) (l : list dict) : list (list dict) :=
  match l with
  | [] => units
  | x :: l =>
      match last units with
      | Some ((y :: _) as u) =>
          if has_role "tool" x && truthy y.[lit "tool_calls"]
          then units_from (removelast units ++ [u ++ [x]]) l
          else units_from (units ++ [[x]]) l
      | _ => units_from (units ++ [[x]]) l
      end
  end.

Definition units (l : list dict) : list (list dict) := units_from [] l.

(** [for unit in reversed(units)]: [l] is the reversed list. *)
Fixpoint keep_units (budget used : Z) (kept : list dict) (l : list (list dict)) : Z * list dict :=
  match l with
  | [] => (used, kept)
  | u :: l =>
      let cost := tokens u in
      if used + cost <=? budget then keep_units budget (used + cost) (u ++ kept) l
      else keep_units budget used kept l
  end.

(** [for group in reversed(groups)]: [l] is the reversed list.  The result also tells
    whether something was omitted. *)
Fixpoint keep_groups (include_reasoning : bool) (budget used : Z) (kept : list dict)
    (l : list (list MemoryTurn)) : Z * list dict * bool :=
  match l with
  | [] => (used, kept, false)
  | g :: l =>
      let ms := _messages include_reasoning g in
      let cost := tokens ms in
      if budget <? used + cost then
        let '(used, kept) :=
          match kept with
          | [] => keep_units budget used [] (List.rev (units ms))
          | _ => (used, kept)
          end in
        (used, kept, true)
      else keep_groups include_reasoning budget (used + cost) (ms ++ kept) l
  end.

Definition summary_prefix (m : memory) : list dict :=
  match summary m with
  | [] => []
  | s => [user_message (lit "Earlier conversation summary (untrusted reference, not a new request):"
                          ++ [10] ++ dumps (JObj s))]
  end.

Definition omitted_notice : dict :=
  user_message (lit "[Some older or oversized context is omitted. Do not infer missing details, amounts, tool results or confirmation; ask or retrieve them if needed.]").

Definition MARKER : Z := 80.

Definition context_budget (memory_context_tokens : Z) : Z := Z.max 512 memory_context_tokens.

Definition context (memory_context_tokens : Z) (exclude : option str) (include_reasoning : bool)
    (m : memory) : list dict :=
  let budget := context_budget memory_context_tokens in
  let too_long := budget <? tokens (summary_prefix m) + MARKER in
  let prefix := if too_long then [] else summary_prefix m in
  let groups := _groups (List.filter (λ t, negb (bool_decide (Some (id t) = exclude))) (turns m)) in
  let '(used, kept, cut) :=
    keep_groups include_reasoning budget (tokens prefix + MARKER) [] (List.rev groups) in
  prefix ++ (if too_long || cut then [omitted_notice] else []) ++ kept.

(** ** Compaction *)

Record compaction := mkCompaction {
  through : list str;
  at_epoch : Z;
  snapshot : list dict;
  request : json;
}.

(** The groups taken into one summarization request. *)
Fixpoint take_groups (limit : Z) (prefix : list MemoryTurn) (l : list (list MemoryTurn))
    : list MemoryTurn :=
  match l with
  | [] => prefix
  | g :: l =>
      let candidate := prefix ++ g in
      if limit <? tokens (_messages false candidate) then prefix else take_groups limit candidate l
  end.

(** The turns of [groups[:-keep]]. *)
Definition eligible (memory_recent_exchanges : Z) (l : list MemoryTurn) : list MemoryTurn :=
  let groups := _groups l in
  let keep := Z.to_nat (Z.max 2 memory_recent_exchanges) in
  concat (take (length groups - keep) groups).

(** [compact] up to the awaited summary; [None] is its [return False]. *)
Definition compact_start (memory_context_tokens memory_recent_exchanges : Z) (m : memory)
    : option compaction :=
  let el := eligible memory_recent_exchanges (turns m) in
  if bool_decide (el = []) || negb (forallb closed el) then None
  else
    let prefix := take_groups memory_context_tokens [] (_groups el) in
    match prefix with
    | [] => None
    | _ =>
        let snapshot := _messages false prefix in
        Some (mkCompaction (map id prefix) (epoch m) snapshot
          (JObj [(lit "previous_summary", JObj (summary m));
                 (lit "older_exchanges", messages_json snapshot)]))
    end.

Definition summary_fields : list str :=
  [lit "topics"; lit "facts"; lit "corrections"; lit "open_questions"].

Definition summary_items_ok (v : json) : bool :=
  match v with
  | JArr items =>
      (length items <=? 12)%nat &&
      forallb (λ x, match x with JStr s => slen s <=? 600 | _ => false end) items
  | _ => false
  end.

(** [set(d) == {..}] *)
Definition same_keys (d : dict) (keys : list str) : bool :=
  forallb (λ k, in_strs k keys) (dkeys d) && forallb (λ k, dhas k d) keys.

Definition valid_summary (v : json) : bool :=
  match v with
  | JObj d =>
      same_keys d summary_fields && existsb truthy (map snd d) &&
      forallb summary_items_ok (map snd d) && (estimated_tokens v <=? 1200)
  | _ => false
  end.

(** [compact] after the model's text; a failed stream is [Raise]. *)
Definition compact_finish (c : compaction) (text : exn str) (m : memory) : memory * exn bool :=
  match text with
  | Raise CancelledError => (m, Raise CancelledError)
  | Raise _ => (m, Ok false)
  | Ok text =>
      match loads text with
      | Raise _ => (m, Ok false)
      | Ok v =>
          if negb (valid_summary v) then (m, Ok false)
          else
            let n := length (through c) in
            let current := take n (turns m) in
            if negb (epoch m =? at_epoch c)
               || negb (bool_decide (map id current = through c))
               || negb (py_eq (messages_json (_messages false current)) (messages_json (snapshot c)))
            then (m, Ok false)
            else (mkMemory (drop n (turns m)) (dict_or_empty v) (epoch m), Ok true)
      end
  end.

(** ** Machine *)

Inductive op : Type :=
| User (i text : str) (listening : bool)
| Tool (i : str) (request reply : dict)
| Answer (i text reasoning : str)
| Finish (i : str) (was_interrupted : bool)
| Clear
| Compacted (c : compaction) (text : exn str).

(** One operation; the output of a compaction tells whether it was applied. *)
Definition step (m : memory) (o : op) : option (memory * list (exn bool)) :=
  match o with
  | User i text listening => Some (user i text listening m, [])
  | Tool i request reply =>
      match tool i request reply m with
      | Ok m' => Some (m', [])
      | Raise _ => Some (m, [])
      end
  | Answer i text reasoning => Some (answer i text reasoning m, [])
  | Finish i was_interrupted => Some (finish i was_interrupted m, [])
  | Clear => Some (clear m, [])
  | Compacted c text => let '(m', r) := compact_finish c text m in Some (m', [r])
  end.

(** ** Sizes *)

Lemma tokens_nonneg l : 0 ≤ tokens l.
Proof.
  unfold tokens, estimated_tokens. apply Z.div_pos; [|lia].
  pose proof (utf8_len_nonneg (dumps (messages_json l))). unfold dumps_bytes. lia.
Qed.

(** The cost of a possibly empty list inside a larger one. *)
Definition weight (l : list dict) : Z := match l with [] => 0 | _ => tokens l end.

Lemma weight_tokens l : 0 ≤ weight l ≤ tokens l.
Proof. pose proof (tokens_nonneg l). destruct l; simpl; lia. Qed.

Lemma tokens_weight l : l ≠ [] → tokens l = weight l.
Proof. by destruct l. Qed.

Lemma ceil3_add a b : (a + b + 2) / 3 ≤ (a + 2) / 3 + (b + 2) / 3.
Proof.
  pose proof (Z.div_mod (a + b + 2) 3 ltac:(lia)). pose proof (Z.div_mod (a + 2) 3 ltac:(lia)).
  pose proof (Z.div_mod (b + 2) 3 ltac:(lia)).
  pose proof (Z.mod_pos_bound (a + b + 2) 3 ltac:(lia)).
  pose proof (Z.mod_pos_bound (a + 2) 3 ltac:(lia)).
  pose proof (Z.mod_pos_bound (b + 2) 3 ltac:(lia)). lia.
Qed.

Lemma weight_app l k : weight (l ++ k) ≤ weight l + weight k.
Proof.
  destruct l as [|x l]; [change (weight []) with 0; simpl app; lia|].
  destruct k as [|y k]; [rewrite app_nil_r; change (weight []) with 0; lia|].
  change (tokens ((x :: l) ++ y :: k) ≤ tokens (x :: l) + tokens (y :: k)).
  unfold tokens, estimated_tokens, messages_json. rewrite map_app, dumps_bytes_arr_app by done.
  apply ceil3_add.
Qed.

Lemma keep_units_used budget us : ∀ used kept used' kept',
  keep_units budget used kept us = (used', kept') → used ≤ budget →
  used' ≤ budget ∧ weight kept' - weight kept ≤ used' - used.
Proof.
  induction us as [|u us IH]; intros used kept used' kept'; simpl.
  - intros [= <- <-]. lia.
  - destruct (used + tokens u <=? budget) eqn:E.
    + intros H Hu. apply Z.leb_le in E. apply IH in H as [H1 H2]; [|lia].
      pose proof (weight_app u kept). pose proof (weight_tokens u). lia.
    + intros H Hu. by apply IH in H.
Qed.

Lemma keep_groups_used ir budget gs : ∀ used kept used' kept' cut,
  keep_groups ir budget used kept gs = (used', kept', cut) → used ≤ budget →
  used' ≤ budget ∧ weight kept' - weight kept ≤ used' - used.
Proof.
  induction gs as [|g gs IH]; intros used kept used' kept' cut; simpl.
  - intros [= <- <- _]. lia.
  - set (ms := _messages ir g). destruct (budget <? used + tokens ms) eqn:E.
    + destruct kept as [|x kept]; simpl.
      * destruct (keep_units _ _ _ _) as [u k] eqn:Hk. intros [= <- <- _] Hu.
        apply keep_units_used in Hk; [|done]. exact Hk.
      * intros [= <- <- _] Hu. split; [done|]. by rewrite !Z.sub_diag.
    + intros H Hu. apply Z.ltb_ge in E. apply IH in H as [H1 H2]; [|lia].
      pose proof (weight_app ms kept). pose proof (weight_tokens ms). lia.
Qed.

Lemma notice_tokens : weight [omitted_notice] ≤ MARKER.
Proof. vm_compute. discriminate. Qed.

(** Whatever was said in the call, the context handed to the model stays within
    the token budget by the program's own estimate, the marker of omitted parts
    included. *)
Theorem context_within_budget (memory_context_tokens : Z) (exclude : option str)
    (include_reasoning : bool) (m : memory) :
  tokens (context memory_context_tokens exclude include_reasoning m) ≤
  context_budget memory_context_tokens.
Proof.
  unfold context. set (budget := context_budget _).
  assert (512 ≤ budget) as Hb by (unfold budget, context_budget; lia).
  set (too_long := budget <? _). set (prefix := if too_long then [] else _).
  assert (tokens prefix + MARKER ≤ budget) as Hp.
  { unfold prefix, too_long. destruct (budget <? _) eqn:E; [|by apply Z.ltb_ge in E].
    change (tokens [] + MARKER) with 81. lia. }
  destruct (keep_groups _ _ _ _ _) as [[used kept] cut] eqn:Hk.
  apply keep_groups_used in Hk as [H1 H2]; [|done]. change (weight []) with 0 in H2.
  set (notice := if too_long || cut then _ else _).
  assert (weight notice ≤ MARKER) as Hn.
  { unfold notice. destruct (too_long || cut); [apply notice_tokens|done]. }
  pose proof (weight_app prefix (notice ++ kept)). pose proof (weight_app notice kept).
  pose proof (weight_tokens prefix). pose proof (weight_tokens kept).
  destruct (decide (prefix ++ notice ++ kept = [])) as [->|Hne].
  - change (tokens []) with 1. lia.
  - rewrite tokens_weight by done. lia.
Qed.

(** ** Groups lose nothing *)

Lemma groups_from_concat pending l : concat (groups_from pending l) = pending ++ l.
Proof.
  revert pending. induction l as [|t l IH]; intros pending; simpl.
  - destruct pending; [done|]. simpl. by rewrite !app_nil_r.
  - destruct (completes t); simpl; rewrite IH; by rewrite <-app_assoc.
Qed.

Lemma groups_concat l : concat (_groups l) = l.
Proof. apply groups_from_concat. Qed.

(** A group that ends an exchange: its last turn completes it, the others do not. *)
Definition complete_group (g : list MemoryTurn) : Prop :=
  ∃ a t, g = a ++ [t] ∧ completes t = true ∧ Forall (λ u, completes u = false) a.

Lemma groups_from_complete a t pending l :
  completes t = true → Forall (λ u, completes u = false) a →
  groups_from pending (a ++ t :: l) = (pending ++ a ++ [t]) :: groups_from [] l.
Proof.
  intros Ht Ha. revert pending. induction Ha as [|u a Hu _ IH]; intros pending; simpl.
  - by rewrite Ht.
  - rewrite Hu, IH. by rewrite <-app_assoc.
Qed.

Lemma groups_complete gs l :
  Forall complete_group gs → _groups (concat gs ++ l) = gs ++ _groups l.
Proof.
  induction 1 as [|g gs (a & t & -> & Ht & Ha) _ IH]; [done|]. simpl.
  unfold _groups in *. rewrite <-!app_assoc. simpl.
  rewrite groups_from_complete by done. simpl. by rewrite IH.
Qed.

Lemma groups_shape pending l :
  Forall (λ u, completes u = false) pending →
  ∃ gs tail, groups_from pending l = gs ++ tail ∧ Forall complete_group gs ∧ (length tail ≤ 1)%nat.
Proof.
  revert pending. induction l as [|t l IH]; intros pending Hp; simpl.
  - exists [], (match pending with [] => [] | _ => [pending] end).
    split; [done|]. split; [done|]. destruct pending; simpl; lia.
  - destruct (completes t) eqn:Ht.
    + destruct (IH []) as (gs & tail & -> & Hg & Hl); [done|].
      exists ((pending ++ [t]) :: gs), tail. split; [done|]. split; [|done].
      constructor; [|done]. by exists pending, t.
    + apply IH. apply Forall_app. split; [done|by repeat constructor].
Qed.

(** The groups but for the last one are complete. *)
Lemma groups_take_complete l n :
  (n < length (_groups l))%nat → Forall complete_group (take n (_groups l)).
Proof.
  intros Hn. destruct (groups_shape [] l) as (gs & tail & Hg & Hc & Hl); [done|].
  unfold _groups in *. rewrite Hg in *. rewrite length_app in Hn.
  rewrite take_app_le by lia. by apply Forall_take.
Qed.

(** ** Tool results stay with their calls *)

(** Every tool result follows, with only results between, a message with tool calls;
    [open] tells that such a message precedes. *)
Fixpoint paired_from (open : bool) (l : list dict) : bool :=
  match l with
  | [] => true
  | x :: l =>
      if has_role "tool" x then open && paired_from open l
      else paired_from (truthy x.[lit "tool_calls"]) l
  end.

Definition paired (l : list dict) : bool := paired_from false l.

Lemma paired_from_open b l : paired l = true → paired_from b l = true.
Proof. unfold paired. destruct l as [|x l]; [done|]. simpl. by destruct (has_role _ x). Qed.

Lemma paired_from_app b l k :
  paired_from b l = true → paired k = true → paired_from b (l ++ k) = true.
Proof.
  revert b. induction l as [|x l IH]; intros b; simpl; [intros _; apply paired_from_open|].
  destruct (has_role _ x).
  - intros [-> H]%andb_true_iff Hk. by apply IH.
  - intros H Hk. by apply IH.
Qed.

Lemma paired_concat ls : Forall (λ l, paired l = true) ls → paired (concat ls) = true.
Proof. induction 1 as [|l ls Hl _ IH]; [done|]. simpl. by apply paired_from_app. Qed.

(** A unit: a message that is not a result, and results if it has tool calls. *)
Definition unit_ok (u : list dict) : Prop :=
  ∃ x ts, u = x :: ts ∧ has_role "tool" x = false ∧ Forall (λ y, has_role "tool" y = true) ts ∧
    (ts ≠ [] → truthy x.[lit "tool_calls"] = true).

Lemma unit_paired u : unit_ok u → paired u = true.
Proof.
  intros (x & ts & -> & Hx & Hts & Hc). unfold paired. simpl. rewrite Hx.
  destruct ts as [|y ts]; [done|]. rewrite Hc by done. clear Hc. revert Hts.
  generalize (y :: ts). induction 1 as [|z zs Hz _ IH]; [done|]. simpl. by rewrite Hz.
Qed.

Lemma removelast_app_last {A} (l : list A) x : last l = Some x → l = removelast l ++ [x].
Proof.
  intros H. destruct l as [|y l _] using rev_ind; [done|].
  rewrite last_snoc in H. simplify_eq. by rewrite List.removelast_last.
Qed.

(** Splitting paired messages: [b] tells whether the open unit has tool calls. *)
Lemma units_from_ok us l b :
  Forall unit_ok us →
  (b = true → ∃ y ts, last us = Some (y :: ts) ∧ truthy y.[lit "tool_calls"] = true) →
  paired_from b l = true →
  Forall unit_ok (units_from us l) ∧ concat (units_from us l) = concat us ++ l.
Proof.
  revert us b. induction l as [|x l IH]; intros us b Hus Hb Hp; simpl in *.
  { by rewrite app_nil_r. }
  assert (Forall unit_ok (us ++ [[x]]) ∨ has_role "tool" x = true) as Hnew.
  { destruct (has_role _ x) eqn:E; [by right|left]. apply Forall_app. split; [done|].
    constructor; [|done]. by exists x, []. }
  destruct (has_role _ x) eqn:Hx.
  - apply andb_true_iff in Hp as [-> Hp]. destruct (Hb eq_refl) as (y & ts & Hl & Hy).
    rewrite Hl, Hy. simpl. pose proof (removelast_app_last _ _ Hl) as Hus'.
    rewrite Hus' in Hus. apply Forall_app in Hus as [Hr Hu].
    apply Forall_cons in Hu as [(x0 & ts0 & [= <- <-] & Hx0 & Hts & _) _].
    destruct (IH (removelast us ++ [y :: ts ++ [x]]) true) as [H1 H2].
    + apply Forall_app. split; [done|]. constructor; [|done]. exists y, (ts ++ [x]).
      split; [done|]. split; [done|]. split; [|done]. apply Forall_app. by split; [|constructor].
    + intros _. exists y, (ts ++ [x]). by rewrite last_snoc.
    + done.
    + split; [done|]. rewrite H2. rewrite Hus' at 2. rewrite !concat_app. simpl.
      rewrite !app_nil_r, <-!app_assoc. simpl. by rewrite <-app_assoc.
  - destruct Hnew as [Hnew|?]; [|done].
    replace (match last us with
             | Some ((y :: _) as u) =>
                 if false && truthy y.[lit "tool_calls"]
                 then units_from (removelast us ++ [u ++ [x]]) l
                 else units_from (us ++ [[x]]) l
             | _ => units_from (us ++ [[x]]) l
             end) with (units_from (us ++ [[x]]) l) by (by destruct (last us) as [[]|]).
    destruct (IH (us ++ [[x]]) (truthy x.[lit "tool_calls"])) as [H1 H2].
    + done.
    + intros Hc. exists x, []. by rewrite last_snoc.
    + done.
    + split; [done|]. rewrite H2, concat_app. simpl. by rewrite <-app_assoc.
Qed.

Lemma units_ok l : paired l = true → Forall unit_ok (units l) ∧ concat (units l) = l.
Proof. intros H. by apply (units_from_ok [] l false). Qed.

(** [keep_units] keeps some of the units, in order. *)
Lemma keep_units_sublist budget us : ∀ used kept,
  ∃ ks, (keep_units budget used kept us).2 = concat ks ++ kept ∧ ks `sublist_of` List.rev us.
Proof.
  induction us as [|u us IH]; intros used kept; simpl.
  { by exists []. }
  destruct (used + tokens u <=? budget).
  - destruct (IH (used + tokens u) (u ++ kept)) as (ks & -> & Hs). exists (ks ++ [u]).
    rewrite concat_app. simpl. rewrite app_nil_r, <-app_assoc. split; [done|].
    by apply sublist_app.
  - destruct (IH used kept) as (ks & -> & Hs). exists ks. split; [done|].
    by apply sublist_inserts_r.
Qed.

Lemma sublist_Forall {A} (P : A → Prop) l k : l `sublist_of` k → Forall P k → Forall P l.
Proof. induction 1; intros Hk; [done|..]; apply Forall_cons in Hk as [? ?]; [constructor|]; auto. Qed.

Lemma sublist_concat {A} (ls ks : list (list A)) :
  ls `sublist_of` ks → concat ls `sublist_of` concat ks.
Proof.
  induction 1 as [|x l k _ IH|x l k _ IH]; simpl; [done|by apply sublist_app|].
  by apply sublist_inserts_l.
Qed.

Lemma shown_get k ir b x :
  k ≠ lit "reasoning_content" → k ≠ lit "content" → (shown_message ir b x).[k] = x.[k].
Proof.
  intros Hr Hc. unfold shown_message. set (y := if ir then x else _).
  assert (y.[k] = x.[k]) as <-.
  { unfold y. destruct ir; [done|]. unfold dget_or_none. by rewrite dget_dpop_ne. }
  destruct (b && has_role "user" y); [|done].
  destruct (y.[lit "content"]); by rewrite ?dget_or_none_dset_ne.
Qed.

Lemma shown_role r ir b x : has_role r (shown_message ir b x) = has_role r x.
Proof. unfold has_role. by rewrite shown_get. Qed.

Lemma shown_paired ir b l o : paired_from o (map (shown_message ir b) l) = paired_from o l.
Proof.
  revert o. induction l as [|x l IH]; intros o; [done|]. simpl.
  rewrite shown_role, (shown_get (lit "tool_calls")), !IH by done. done.
Qed.

Lemma _messages_app ir l k : _messages ir (l ++ k) = _messages ir l ++ _messages ir k.
Proof. apply bind_app. Qed.

Definition turns_paired (l : list MemoryTurn) : Prop := Forall (λ t, paired (messages t) = true) l.

Lemma _messages_paired ir l : turns_paired l → paired (_messages ir l) = true.
Proof.
  induction 1 as [|t l Ht _ IH]; [done|]. unfold _messages in *. cbn [mbind list_bind].
  apply paired_from_app; [|done]. by rewrite shown_paired.
Qed.

(** What is kept of some groups: all of it when nothing was cut, else a part in order
    with whole units. *)
Lemma keep_groups_spec ir budget gs : ∀ used kept used' kept' cut,
  keep_groups ir budget used kept gs = (used', kept', cut) →
  turns_paired (concat gs) → paired kept = true →
  kept' `sublist_of` _messages ir (concat (List.rev gs)) ++ kept ∧ paired kept' = true ∧
  (cut = false → kept' = _messages ir (concat (List.rev gs)) ++ kept).
Proof.
  induction gs as [|g gs IH]; intros used kept used' kept' cut; simpl.
  - by intros [= <- <- <-].
  - set (ms := _messages ir g). intros H Hpg Hk. apply Forall_app in Hpg as [Hg Hgs].
    assert (paired ms = true) as Hms by (by apply _messages_paired).
    assert (_messages ir (concat (List.rev gs ++ [g])) = _messages ir (concat (List.rev gs)) ++ ms) as ->.
    { rewrite concat_app, _messages_app. simpl. by rewrite app_nil_r. }
    destruct (budget <? used + tokens ms).
    + destruct kept as [|x kept].
      * destruct (units_ok ms Hms) as [Hu Hc].
        destruct (keep_units_sublist budget (List.rev (units ms)) used []) as (ks & Hks & Hsub).
        destruct (keep_units budget used [] (List.rev (units ms))) as [u k]. simpl in Hks.
        injection H as <- <- <-. rewrite app_nil_r in Hks. subst k.
        rewrite List.rev_involutive in Hsub. rewrite app_nil_r. split_and!; [|..|done].
        -- apply sublist_inserts_l. rewrite <-Hc. by apply sublist_concat.
        -- apply paired_concat. apply (sublist_Forall _ _ (units ms)); [done|].
           apply (Forall_impl _ _ _ Hu). intros v. apply unit_paired.
      * injection H as <- <- <-. split_and!; [|done..]. by apply sublist_inserts_l.
    + apply IH in H as (H1 & H2 & H3); [|done|by apply paired_from_app].
      rewrite <-app_assoc. by auto.
Qed.

(** ** Invariant of the turns *)

#[global] Arguments append_content : simpl never.

(** The caller's words come first in a turn, and once. *)
Definition user_first (t : MemoryTurn) : Prop :=
  Forall (λ x, has_role "user" x = false) (drop 1 (messages t)).

Definition turn_ok (t : MemoryTurn) : Prop := paired (messages t) = true ∧ user_first t.

Record mem_inv (m : memory) : Prop := {
  inv_ids : NoDup (map id (turns m));
  inv_turns : Forall turn_ok (turns m);
}.

(** The pipeline records a tool call with its result. *)
Definition op_ok (o : op) : Prop :=
  match o with
  | Tool _ request reply =>
      has_role "tool" request = false ∧ has_role "user" request = false ∧
      truthy request.[lit "tool_calls"] = true ∧ has_role "tool" reply = true
  | _ => True
  end.

Lemma update_last_ids i f l l' :
  (∀ t, id (f t) = id t) → update_last i f l = Some l' → map id l' = map id l.
Proof.
  intros Hf. revert l'. induction l as [|t l IH]; intros l'; simpl; [done|].
  destruct (update_last i f l) as [k|].
  - intros [= <-]. simpl. by rewrite (IH k).
  - destruct (id t =s i); [|done]. intros [= <-]. simpl. by rewrite Hf.
Qed.

Lemma update_last_None i f l : update_last i f l = None → i ∉ map id l.
Proof.
  induction l as [|t l IH]; simpl; [intros _; apply not_elem_of_nil|].
  destruct (update_last i f l); [done|]. destruct (id t =s i) eqn:E; [done|].
  intros _. apply str_eqb_false in E. apply not_elem_of_cons. split; [congruence|by apply IH].
Qed.

Lemma update_last_Forall (P : MemoryTurn → Prop) i f l l' :
  (∀ t, P t → P (f t)) → update_last i f l = Some l' → Forall P l → Forall P l'.
Proof.
  intros Hf. revert l'. induction l as [|t l IH]; intros l'; simpl; [done|].
  destruct (update_last i f l) as [k|].
  - intros [= <-] [Ht Hl]%Forall_cons. constructor; [done|by apply IH].
  - destruct (id t =s i); [|done]. intros [= <-] [Ht Hl]%Forall_cons. constructor; auto.
Qed.

Lemma with_turn_inv i f m :
  (∀ t, id (f t) = id t) → (∀ t, turn_ok t → turn_ok (f t)) → mem_inv m → mem_inv (with_turn i f m).
Proof.
  intros Hid Hok [Hn Hf]. unfold with_turn.
  assert (turn_ok (new_turn i)) as Hnew by (split; [done|constructor]).
  destruct (update_last i f (turns m)) as [l|] eqn:E; split; simpl.
  - by rewrite (update_last_ids _ _ _ _ Hid E).
  - by eapply update_last_Forall.
  - apply update_last_None in E. rewrite map_app. apply NoDup_app. split; [done|].
    simpl. rewrite Hid. split; [|apply NoDup_singleton]. intros x Hx.
    rewrite list_elem_of_singleton. intros ->. done.
  - apply Forall_app. split; [done|]. constructor; [by apply Hok|done].
Qed.

Lemma drop1_app {A} (P : A → Prop) (l k : list A) :
  Forall P (drop 1 l) → Forall P k → Forall P (drop 1 (l ++ k)).
Proof.
  intros Hl Hk. destruct l as [|x l]; simpl.
  - by apply Forall_drop.
  - rewrite drop_0 in *. by apply Forall_app.
Qed.

Lemma user_ok text b t :
  turn_ok t →
  turn_ok (if existsb (has_role "user") (messages t) then t
           else mkTurn (id t) (user_message text :: messages t) (closed t) (answered t)
                  (interrupted t) b).
Proof.
  intros [Hp Hu]. destruct (existsb _ _) eqn:E; [done|]. split; [done|].
  unfold user_first. simpl. rewrite drop_0. apply Forall_forall. intros x Hx.
  rewrite existsb_elem_of_false in E. by apply E.
Qed.

Lemma tool_ok (b : bool) request reply t :
  op_ok (Tool (id t) request reply) → turn_ok t →
  turn_ok (if b then t
           else mkTurn (id t) (messages t ++ [request; reply]) (closed t) (answered t)
                  (interrupted t) (listening_only t)).
Proof.
  intros (Hr & Hru & Hc & Hy) [Hp Hu]. destruct b; [done|].
  assert (has_role "user" reply = false) as Hyu.
  { unfold has_role, jeq_str in *. destruct (reply.[lit "role"]); try done.
    by apply str_eqb_true in Hy as ->. }
  split; simpl.
  - apply paired_from_app; [done|]. unfold paired. simpl. by rewrite Hr, Hy, Hc.
  - apply drop1_app; [done|by repeat constructor].
Qed.

Lemma answer_ok text reasoning t :
  turn_ok t →
  turn_ok (if answered t then t
           else mkTurn (id t) (messages t ++ [answer_message text reasoning]) (closed t) true
                  (interrupted t) (listening_only t)).
Proof.
  intros [Hp Hu]. destruct (answered t); [done|]. split; simpl.
  - apply paired_from_app; [done|]. unfold paired. simpl.
    by destruct (has_role "tool" (answer_message text reasoning)) eqn:E.
  - apply drop1_app; [done|by repeat constructor].
Qed.

Lemma append_content_get note k x :
  k ≠ lit "content" → (append_content note x).[k] = x.[k].
Proof.
  intros Hk. unfold append_content. destruct (x.[lit "content"]); try done.
  by rewrite dget_or_none_dset_ne.
Qed.

Lemma change_last_paired f o l :
  (∀ x, has_role "tool" (f x) = has_role "tool" x) →
  paired_from o (change_last f l) = paired_from o l.
Proof.
  intros Hf. revert o. induction l as [|x l IH]; intros o; [done|].
  destruct l as [|y l]; [simpl; by rewrite Hf|].
  change (change_last f (x :: y :: l)) with (x :: change_last f (y :: l)).
  cbn [paired_from]. fold (paired_from o (change_last f (y :: l))).
  by rewrite !IH.
Qed.

Lemma change_last_Forall (P : dict → Prop) f l :
  (∀ x, P x → P (f x)) → Forall P l → Forall P (change_last f l).
Proof.
  intros Hf. induction 1 as [|x l Hx Hl IH]; [done|].
  destruct l; [constructor; [by apply Hf|done]|by constructor].
Qed.

Lemma finish_turn_ok b t : turn_ok t → turn_ok (finish_turn b t).
Proof.
  intros [Hp Hu]. unfold finish_turn. destruct (b && _); [|done].
  destruct (answered t); [|done].
  assert (∀ r x, has_role r (append_content interrupted_note x) = has_role r x) as Hr
    by (intros r x; unfold has_role; by rewrite append_content_get).
  split; simpl.
  - unfold paired. by rewrite change_last_paired.
  - unfold user_first in *. simpl. destruct (messages t) as [|x [|y l]]; [done..|].
    apply (change_last_Forall _ _ (y :: l)); [|exact Hu]. intros z. by rewrite Hr.
Qed.

Lemma update_first_ids i f l : (∀ t, id (f t) = id t) → map id (update_first i f l) = map id l.
Proof. intros Hf. induction l as [|t l IH]; simpl; [done|]. destruct (_ =s _); simpl; congruence. Qed.

Lemma update_first_Forall (P : MemoryTurn → Prop) i f l :
  (∀ t, P t → P (f t)) → Forall P l → Forall P (update_first i f l).
Proof. intros Hf. induction 1; simpl; [done|]. destruct (_ =s _); constructor; auto. Qed.

Lemma compact_finish_state c text m m' r :
  compact_finish c text m = (m', r) →
  m' = m ∨ (r = Ok true ∧ turns m' = drop (length (through c)) (turns m)).
Proof.
  unfold compact_finish. destruct text as [t|[]]; try (by intros [= <- _]; left).
  destruct (loads t); [|by intros [= <- _]; left].
  destruct (negb (valid_summary a)); [by intros [= <- _]; left|].
  destruct (_ || _ || _); [by intros [= <- _]; left|]. intros [= <- <-]. by right.
Qed.

Lemma step_mem_inv m o m' r : op_ok o → mem_inv m → step m o = Some (m', r) → mem_inv m'.
Proof.
  intros Ho Hi. destruct o as [i text b|i request reply|i text reasoning|i b| |c text]; simpl.
  - intros [= <- _]. apply with_turn_inv; [|intros t; by apply user_ok|done].
    intros t. by destruct (existsb _ _).
  - unfold tool. destruct (jindex _ _) as [call|]; simpl; [|by intros [= <- _]].
    intros [= <- _]. apply with_turn_inv; [|intros t; by apply tool_ok|done].
    intros t. by destruct (existsb _ _).
  - intros [= <- _]. apply with_turn_inv; [|intros t; by apply answer_ok|done].
    intros t. by destruct (answered t).
  - intros [= <- _]. destruct Hi as [Hn Hf]. split; simpl.
    + rewrite update_first_ids; [done|]. intros t. unfold finish_turn. by destruct (b && _).
    + apply update_first_Forall; [|done]. intros t. apply finish_turn_ok.
  - intros [= <- _]. split; [constructor|constructor].
  - destruct (compact_finish c text m) as [m1 r1] eqn:E. intros [= <- _].
    apply compact_finish_state in E as [->|[_ Ht]]; [done|]. destruct Hi as [Hn Hf]. split; rewrite Ht.
    + rewrite <-(take_drop (length (through c)) (turns m)), map_app in Hn.
      by apply NoDup_app in Hn as (_ & _ & Hn).
    + by apply Forall_drop.
Qed.

Lemma run_mem_inv ops m0 m outs :
  Forall op_ok ops → mem_inv m0 → run step m0 ops = Some (m, outs) → mem_inv m.
Proof. apply (run_events_inv step op_ok mem_inv). intros. by eapply step_mem_inv. Qed.

Lemma mem_inv_init : mem_inv init.
Proof. split; constructor. Qed.

Lemma turns_ok_paired l : Forall turn_ok l → turns_paired l.
Proof. intros H. apply (Forall_impl _ _ _ H). by intros t []. Qed.

Lemma concat_rev_perm {A} (gs : list (list A)) (P : A → Prop) :
  Forall P (concat gs) → Forall P (concat (List.rev gs)).
Proof.
  intros H. induction gs as [|g gs IH]; simpl in *; [done|].
  apply Forall_app in H as [Hg Hgs]. rewrite concat_app. simpl. rewrite app_nil_r.
  apply Forall_app. auto.
Qed.

Definition considered (exclude : option str) (m : memory) : list MemoryTurn :=
  List.filter (λ t, negb (bool_decide (Some (id t) = exclude))) (turns m).

(** In every state a call can reach, the context is at most a summary and a notice
    followed by messages of the call in their order, with every tool result still
    behind its call; without the notice nothing at all was left out. *)
Theorem context_keeps_exchanges (memory_context_tokens : Z) (exclude : option str)
    (include_reasoning : bool) (ops : list op) (m : memory) (outs : list (exn bool))
    (Hops : Forall op_ok ops) (Hrun : run step init ops = Some (m, outs)) :
  let all := _messages include_reasoning (considered exclude m) in
  ∃ prefix kept, context memory_context_tokens exclude include_reasoning m = prefix ++ kept ∧
    (∀ x, x ∈ prefix → x ∈ summary_prefix m ∨ x = omitted_notice) ∧
    kept `sublist_of` all ∧ paired kept = true ∧
    (omitted_notice ∉ prefix → prefix = summary_prefix m ∧ kept = all).
Proof.
  pose proof (run_mem_inv _ _ _ _ Hops mem_inv_init Hrun) as [_ Hok].
  assert (turns_paired (considered exclude m)) as Hp.
  { apply turns_ok_paired. apply Forall_forall. intros t [Ht _]%list_elem_of_In%List.filter_In.
    rewrite Forall_forall in Hok. by apply Hok, list_elem_of_In. }
  intros all. unfold context. fold (considered exclude m).
  set (too_long := _ <? _). set (prefix := if too_long then [] else _).
  destruct (keep_groups _ _ _ _ _) as [[used kept] cut] eqn:Hk.
  apply keep_groups_spec in Hk as (H1 & H2 & H3); [| |done].
  2:{ apply concat_rev_perm. by rewrite groups_concat. }
  rewrite List.rev_involutive, groups_concat, app_nil_r in *. fold all in H1, H3.
  exists (prefix ++ (if too_long || cut then [omitted_notice] else [])), kept.
  split; [by rewrite <-app_assoc|]. split_and!; [|done|done|].
  - intros x [Hx|Hx]%elem_of_app.
    + unfold prefix in Hx. destruct too_long; [by apply not_elem_of_nil in Hx|by left].
    + destruct (_ || _); [|by apply not_elem_of_nil in Hx].
      apply list_elem_of_singleton in Hx. by right.
  - rewrite not_elem_of_app. intros [_ Hn]. unfold prefix.
    destruct too_long, cut; simpl in *; try (by exfalso; apply Hn; left).
    rewrite app_nil_r. auto.
Qed.

(** Whatever the operations and compactions, every turn id occurs once, the
    caller's words come first in their turn and once, and each tool result follows
    its call. *)
Theorem memory_turns_well_formed (ops : list op) (m : memory) (outs : list (exn bool))
    (Hops : Forall op_ok ops) (Hrun : run step init ops = Some (m, outs)) :
  NoDup (map id (turns m)) ∧
  ∀ t, t ∈ turns m → paired (messages t) = true ∧
    (∀ a x b, messages t = a ++ x :: b → has_role "user" x = true → a = []).
Proof.
  destruct (run_mem_inv _ _ _ _ Hops mem_inv_init Hrun) as [Hn Hf]. split; [done|].
  intros t Ht. rewrite Forall_forall in Hf. destruct (Hf t Ht) as [Hp Hu]. split; [done|].
  intros a x b Hm Hx. unfold user_first in Hu. rewrite Hm in Hu.
  destruct a as [|y a]; [done|]. simpl in Hu. rewrite drop_0 in Hu.
  apply Forall_app in Hu as [_ Hu]. apply Forall_cons in Hu as [Hu _]. congruence.
Qed.

(** ** Compaction *)

Lemma take_groups_spec limit gs prefix :
  ∃ k, take_groups limit prefix gs = prefix ++ concat (take k gs) ∧
    (k = 0%nat ∨
     tokens (_messages false (take_groups limit prefix gs)) ≤ limit).
Proof.
  revert prefix. induction gs as [|g gs IH]; intros prefix; simpl.
  - exists 0%nat. rewrite app_nil_r. by auto.
  - destruct (limit <? _) eqn:E.
    + exists 0%nat. simpl. rewrite app_nil_r. by auto.
    + apply Z.ltb_ge in E. destruct (IH (prefix ++ g)) as (k & Hk & _). exists (S k).
      simpl. rewrite Hk, <-app_assoc. split; [done|]. right.
      rewrite app_assoc, <-Hk. clear Hk IH k.
      revert g prefix E. induction gs as [|h gs IH]; intros g prefix E; simpl; [done|].
      destruct (limit <? _) eqn:E'; [done|]. apply Z.ltb_ge in E'.
      by apply (IH h (prefix ++ g)).
Qed.

(** What a request covers: the oldest exchanges, all closed, leaving at least two
    (or the configured number of) exchanges, within the token limit. *)
Record covers (memory_context_tokens recent : Z) (m : memory) (c : compaction)
    (covered later : list MemoryTurn) : Prop := {
  covers_split : turns m = covered ++ later;
  covers_some : covered ≠ [];
  covers_ids : map id covered = through c;
  covers_closed : Forall (λ t, closed t = true) covered;
  covers_snapshot : snapshot c = _messages false covered;
  covers_later : Z.max 2 recent ≤ Z.of_nat (length (_groups later));
  covers_limit : tokens (snapshot c) ≤ memory_context_tokens;
  covers_epoch : at_epoch c = epoch m;
}.

Lemma compact_start_covers limit recent m c :
  compact_start limit recent m = Some c → ∃ covered later, covers limit recent m c covered later.
Proof.
  unfold compact_start, eligible. set (gs := _groups (turns m)).
  set (keep := Z.to_nat (Z.max 2 recent)). set (n := (length gs - keep)%nat).
  case_bool_decide as Hne; [done|]. destruct (forallb closed _) eqn:Hclosed; [|done].
  cbn [negb orb].
  assert (n < length gs)%nat as Hn.
  { destruct (decide (length gs ≤ keep)%nat); [|unfold n, keep; lia].
    exfalso. apply Hne. by replace n with 0%nat by (unfold n; lia). }
  assert (Forall complete_group (take n gs)) as Hcomp by (by apply groups_take_complete).
  assert (_groups (concat (take n gs)) = take n gs) as Hgs.
  { pose proof (groups_complete (take n gs) [] Hcomp) as H. by rewrite !app_nil_r in H. }
  rewrite Hgs.
  destruct (take_groups_spec limit (take n gs) []) as (k & Hk & Hlim).
  set (prefix := take_groups limit [] (take n gs)) in *. clearbody prefix. simpl in Hk.
  destruct (decide (prefix = [])) as [->|Hpne]; [done|]. intros Hc.
  assert (c = mkCompaction (map id prefix) (epoch m) (_messages false prefix)
    (JObj [(lit "previous_summary", JObj (summary m));
           (lit "older_exchanges", messages_json (_messages false prefix))])) as ->
    by (destruct prefix; congruence).
  assert (concat (take n gs) = prefix ++ concat (drop k (take n gs))) as Hsplit.
  { rewrite Hk, <-concat_app. by rewrite take_drop. }
  assert (turns m = concat (take n gs) ++ concat (drop n gs)) as Hturns.
  { rewrite <-concat_app, take_drop. symmetry. apply groups_concat. }
  exists prefix, (concat (drop k (take n gs)) ++ concat (drop n gs)).
  split; cbn [snapshot through at_epoch]; try done.
  - by rewrite app_assoc, <-Hsplit.
  - apply Forall_forall. intros t Ht. rewrite forallb_elem_of in Hclosed. apply Hclosed.
    rewrite Hsplit. apply elem_of_app. by left.
  - rewrite groups_complete by (by apply Forall_drop).
    assert (_groups (concat (drop n gs)) = drop n gs) as ->.
    { apply (app_inv_head (take n gs)). rewrite <-groups_complete by done.
      by rewrite <-Hturns, take_drop. }
    rewrite length_app, !length_drop.
    assert (n ≠ 0%nat) by (intros E; apply Hne; by rewrite E).
    unfold n, keep in *. lia.
  - destruct Hlim as [->|Hlim]; [|done]. by rewrite take_0 in Hk.
Qed.

(** C16: a summary request covers a run of the oldest exchanges, all closed, leaving
    the most recent ones out; and whatever happens to the memory while the model
    summarises, the turns are dropped only if they are still the same turns with the
    same messages, exactly they are dropped, and the accepted summary has the four
    bounded lists; in every other case the memory is left as it is. *)
Theorem compaction_sound (memory_context_tokens recent : Z) (m0 m1 m2 : memory) (c : compaction)
    (ops : list op) (outs : list (exn bool)) (text : exn str) (r : exn bool)
    (Hstart : compact_start memory_context_tokens recent m0 = Some c)
    (Hrun : run step m0 ops = Some (m1, outs))
    (Hfinish : compact_finish c text m1 = (m2, r)) :
  (∃ covered later, covers memory_context_tokens recent m0 c covered later) ∧
  (r ≠ Ok true → m2 = m1) ∧
  (r = Ok true → ∃ covered t v,
     turns m1 = covered ++ turns m2 ∧ map id covered = through c ∧ epoch m1 = epoch m0 ∧
     py_eq (messages_json (_messages false covered)) (messages_json (snapshot c)) = true ∧
     text = Ok t ∧ loads t = Ok v ∧ valid_summary v = true ∧ v = JObj (summary m2)).
Proof.
  apply compact_start_covers in Hstart as (covered & later & Hcov).
  split; [by exists covered, later|]. split.
  - intros Hr. apply compact_finish_state in Hfinish as [->|[? _]]; [done|congruence].
  - intros ->. unfold compact_finish in Hfinish. destruct text as [t|[]]; try discriminate Hfinish.
    destruct (loads t) as [v|] eqn:Hv; [|discriminate Hfinish].
    destruct (valid_summary v) eqn:Hval; [|discriminate Hfinish]. cbn [negb] in Hfinish.
    destruct (_ || _ || _) eqn:Hg; [discriminate Hfinish|].
    rewrite !orb_false_iff, !negb_false_iff in Hg. destruct Hg as [[He Hids] Hm].
    injection Hfinish as <-. exists (take (length (through c)) (turns m1)), t, v.
    apply Z.eqb_eq in He. apply bool_decide_eq_true in Hids.
    split_and!; [simpl; by rewrite take_drop|done| |done|done|done|done|].
    + rewrite He. apply Hcov.
    + by destruct v.
Qed.

(** ** Executions *)

Definition example_exchange (i : string) : list op :=
  [User (lit i) (lit "hello") false; Answer (lit i) (lit "hi") []; Finish (lit i) false].

Definition example_tool : op :=
  Tool (lit "4")
    [(lit "role", JStr (lit "assistant")); (lit "tool_calls", JArr [JStr (lit "c1")])]
    [(lit "role", JStr (lit "tool")); (lit "tool_call_id", JStr (lit "c1"));
     (lit "content", JStr (lit "5000"))].

Definition example_ops : list op :=
  example_exchange "1" ++ example_exchange "2" ++ example_exchange "3" ++
  [User (lit "4") (lit "my balance?") false; example_tool].

Definition example_memory : memory :=
  match run step init example_ops with Some (m, _) => m | None => init end.

Lemma example_ops_ok : Forall op_ok example_ops.
Proof. unfold example_ops, example_exchange. repeat constructor. Qed.

Lemma example_run : run step init example_ops = Some (example_memory, []).
Proof. vm_compute. reflexivity. Qed.

Lemma context_keeps_exchanges_witness :
  Forall op_ok example_ops ∧
  ∃ prefix kept, context 4000 None false example_memory = prefix ++ kept ∧
    paired kept = true ∧ length kept = 9%nat.
Proof.
  split; [exact example_ops_ok|].
  destruct (context_keeps_exchanges 4000 None false example_ops example_memory [])
    as (prefix & kept & Hc & _ & _ & Hp & Hall); [exact example_ops_ok|exact example_run|].
  exists prefix, kept. split; [exact Hc|]. split; [exact Hp|].
  assert (length (context 4000 None false example_memory) = 9%nat) as Hl by (vm_compute; reflexivity).
  assert (existsb (λ x, bool_decide (x = omitted_notice))
            (context 4000 None false example_memory) = false) as Hn by (vm_compute; reflexivity).
  destruct Hall as [Hpre Hkept].
  { intros Hin. rewrite existsb_elem_of_false in Hn. specialize (Hn omitted_notice).
    rewrite Hc in Hn. rewrite bool_decide_eq_true_2 in Hn by reflexivity.
    discriminate Hn. apply elem_of_app. by left. }
  rewrite Hc, Hpre, length_app in Hl. exact Hl.
Defined.

Lemma memory_turns_well_formed_witness :
  run step init example_ops = Some (example_memory, []) ∧ NoDup (map id (turns example_memory)).
Proof.
  split; [exact example_run|].
  exact (proj1 (memory_turns_well_formed example_ops example_memory [] example_ops_ok example_run)).
Defined.

Definition example_summary : str :=
  jtext "{'topics': ['greeting'], 'facts': [], 'corrections': [], 'open_questions': []}".

Lemma compaction_sound_witness :
  ∃ c m2, compact_start 4000 2 example_memory = Some c ∧
    compact_finish c (Ok example_summary) example_memory = (m2, Ok true) ∧
    ∃ covered, turns example_memory = covered ++ turns m2 ∧ map id covered = through c.
Proof.
  assert (option_map (λ c, snd (compact_finish c (Ok example_summary) example_memory))
            (compact_start 4000 2 example_memory) = Some (Ok true)) as Hr
    by (vm_compute; reflexivity).
  destruct (compact_start 4000 2 example_memory) as [c|] eqn:Hc; [|discriminate Hr].
  cbn [option_map] in Hr. destruct (compact_finish c (Ok example_summary) example_memory) as [m2 r] eqn:Hf.
  cbn [snd] in Hr. apply (inj Some) in Hr as ->. exists c, m2. split; [reflexivity|]. split; [exact Hf|].
  destruct (compaction_sound 4000 2 example_memory example_memory m2 c [] [] _ _ Hc eq_refl Hf)
    as (_ & _ & H).
  destruct (H eq_refl) as (covered & t & v & Hs & Hids & _).
  exists covered. split; [exact Hs|exact Hids].
Defined.

(** When the last exchange is larger than the budget, an older message that fits is
    kept while a more recent one that does not is left out. *)
Definition oversized_memory : memory :=
  mkMemory [mkTurn (lit "1") [user_message (lit "first part")] true false false false;
            mkTurn (lit "2") [user_message (replicate (Z.to_nat 3000) 120)] false false false false]
    [] 0.

Lemma context_keeps_older_over_newer :
  context 512 None false oversized_memory = [omitted_notice; user_message (lit "first part")].
Proof. vm_compute. reflexivity. Qed.
