(* ===== verification/Engagement.v ===== *)
(** * Contextual speech: latency_lab/engagement.py

    [Engagement] decides when the agent may speak in a gap, checks in on a silent
    caller, ends a call nobody answers, and runs slow tools without ever sending one
    twice.  It is a machine (Prelude.v) whose events are its methods and the runs of
    its tasks between two [await]s; [_play_engagement] of latency_lab/pipeline.py,
    which releases the audio, is part of it.  The rest of the pipeline is [view], which
    the event [SetView] changes at will.  Times are integers of one clock unit,
    [second] of which make a second; trace records are not modelled. *)
From stdpp Require Import base list gmap strings.
From Stdlib Require Import ZArith Lia.
From S2P Require Import Prelude Pystr Json JsonText Banking Speech.

(** ** Data *)

Record engagement_config := mkEngagementConfig {
  engagement_enabled : bool;
  engagement_ack_seconds : Z;
  engagement_tool_seconds : Z;
  engagement_idle_seconds : Z;
  engagement_max_tool_updates : Z;
  engagement_max_idle_updates : Z;
  inactivity_pilot_enabled : bool;
  inactivity_pilot_close_seconds : Z;
}.

(** A tool's outcome: a decoded reply, or a [ToolResult] with its fields. *)
Inductive tool_result : Type :=
| DictResult (d : dict)
| DataResult (d : dict).

Inductive task_state : Type :=
| Running
| Finished (outcome : exn tool_result).

Record Operation := mkOperation {
  op_call : tool_call;
  op_attempt : nat;
  op_task : task_state;
  op_result : option tool_result;
  op_delivered : bool;
  op_considered : option Z;
  op_cancelled : bool; (** the task's cancellation is requested *)
  op_external : bool; (** the task is the pipeline's own *)
}.

Inductive quiet_preference : Type := QNone | QUntilUser | QUntilResult.

#[export] Instance quiet_eq_dec : EqDecision quiet_preference.
Proof. solve_decision. Defined.

Inductive speech_reason : Type := ToolStarted | ToolWait | ToolCompleted | Idle | IdleClose.

#[export] Instance reason_eq_dec : EqDecision speech_reason.
Proof. solve_decision. Defined.

(** [reason.startswith("tool_")] *)
Definition tool_reason (r : speech_reason) : bool :=
  match r with ToolStarted | ToolWait | ToolCompleted => true | _ => false end.

Record attempt_flags := mkAttempt {
  authorized : bool;
  cancelled : bool;
}.

(** What the engagement reads of the pipeline. *)
Record view := mkView {
  attempt : option nat;
  attempts : nat → attempt_flags;
  pstate : str;
  speech_candidate_active : bool;
  speech_lock : bool;
  pending_action : bool;
  prepared : bool;
  inflight_tools : bool;
  call_ending : bool;
  has_turns : bool;
  agent_language : str;
}.

(** What follows [_play_engagement]. *)
Inductive after_play : Type := AfterDecision | AfterFallback | AfterClose.

Record play := mkPlay {
  play_reason : speech_reason;
  play_asked : option nat;
  play_revision : Z;
  play_text : str;
  play_rate : Z;
  play_after : after_play;
  play_attempt : nat;
  play_sent : bool;
}.

(** The suspension points of the decision task, and its end. *)
Inductive decision_frame : Type :=
| DecisionDone
| Created (r : speech_reason) (a : option nat)
| Thinking (r : speech_reason) (a : option nat) (rev : Z) (msgs : nat)
| Speaking (r : speech_reason) (a : option nat) (rev : Z) (text : str)
| FallingBack (r : speech_reason) (rev : Z) (text : str)
| CloseCreated
| CloseSpeaking (rev : Z) (text : str)
| HangingUp (rev : Z)
| PlayLock (p : play) (chunks : list (list Z))
| PlaySend (p : play) (sent : list Z) (chunks : list (list Z))
| PlayTail (p : play).

(** The suspension points of [run_tool] and of its task. *)
Inductive run_frame : Type :=
| Direct (call : tool_call)
| TaskCreated (ref : nat)
| TaskInvoked (ref : nat)
| Waiting (ref : nat) (a : nat)
| Gathering (ref : nat) (a : nat) (r : tool_result).

Record engagement := mkEngagement {
  closed : bool;
  revision : Z;
  quiet : quiet_preference;
  new_messages : list str;
  operation : option nat;
  ops : gmap nat Operation;
  decision : option decision_frame;
  decision_cancelled : bool;
  playing : bool;
  emitting : bool;
  audio_until : Z;
  next_check : Z;
  tool_checks : Z;
  idle_checks : Z;
  idle_close_at : option Z;
  last_updates : list str;
  now : Z;
  pipe : view;
  runs : gmap nat run_frame;
  next_ref : nat;
  next_run : nat;
  next_attempt : nat;
}.

(** Assignments to single fields. *)
Definition set_closed (v : bool) (s : engagement) : engagement :=
  mkEngagement v (revision s) (quiet s) (new_messages s) (operation s) (ops s) (decision s)
    (decision_cancelled s) (playing s) (emitting s) (audio_until s) (next_check s)
    (tool_checks s) (idle_checks s) (idle_close_at s) (last_updates s) (now s) (pipe s)
    (runs s) (next_ref s) (next_run s) (next_attempt s).
Definition set_revision (v : Z) (s : engagement) : engagement :=
  mkEngagement (closed s) v (quiet s) (new_messages s) (operation s) (ops s) (decision s)
    (decision_cancelled s) (playing s) (emitting s) (audio_until s) (next_check s)
    (tool_checks s) (idle_checks s) (idle_close_at s) (last_updates s) (now s) (pipe s)
    (runs s) (next_ref s) (next_run s) (next_attempt s).
Definition set_quiet (v : quiet_preference) (s : engagement) : engagement :=
  mkEngagement (closed s) (revision s) v (new_messages s) (operation s) (ops s) (decision s)
    (decision_cancelled s) (playing s) (emitting s) (audio_until s) (next_check s)
    (tool_checks s) (idle_checks s) (idle_close_at s) (last_updates s) (now s) (pipe s)
    (runs s) (next_ref s) (next_run s) (next_attempt s).
Definition set_new_messages (v : list str) (s : engagement) : engagement :=
  mkEngagement (closed s) (revision s) (quiet s) v (operation s) (ops s) (decision s)
    (decision_cancelled s) (playing s) (emitting s) (audio_until s) (next_check s)
    (tool_checks s) (idle_checks s) (idle_close_at s) (last_updates s) (now s) (pipe s)
    (runs s) (next_ref s) (next_run s) (next_attempt s).
Definition set_operation (v : option nat) (s : engagement) : engagement :=
  mkEngagement (closed s) (revision s) (quiet s) (new_messages s) v (ops s) (decision s)
    (decision_cancelled s) (playing s) (emitting s) (audio_until s) (next_check s)
    (tool_checks s) (idle_checks s) (idle_close_at s) (last_updates s) (now s) (pipe s)
    (runs s) (next_ref s) (next_run s) (next_attempt s).
Definition set_ops (v : gmap nat Operation) (s : engagement) : engagement :=
  mkEngagement (closed s) (revision s) (quiet s) (new_messages s) (operation s) v (decision s) (decision_cancelled s) (playing s) (emitting s) (audio_until s) (next_check s)
    (tool_checks s) (idle_checks s) (idle_close_at s) (last_updates s) (now s) (pipe s)
    (runs s) (next_ref s) (next_run s) (next_attempt s).
Definition set_decision (v : option decision_frame) (s : engagement) : engagement :=
  mkEngagement (closed s) (revision s) (quiet s) (new_messages s) (operation s) (ops s) v
    (decision_cancelled s) (playing s) (emitting s) (audio_until s) (next_check s)
    (tool_checks s) (idle_checks s) (idle_close_at s) (last_updates s) (now s) (pipe s)
    (runs s) (next_ref s) (next_run s) (next_attempt s).
Definition set_decision_cancelled (v : bool) (s : engagement) : engagement :=
  mkEngagement (closed s) (revision s) (quiet s) (new_messages s) (operation s) (ops s)
    (decision s) v (playing s) (emitting s) (audio_until s) (next_check s) (tool_checks s)
    (idle_checks s) (idle_close_at s) (last_updates s) (now s) (pipe s) (runs s) (next_ref s) (next_run s) (next_attempt s).
Definition set_playing (v : bool) (s : engagement) : engagement :=
  mkEngagement (closed s) (revision s) (quiet s) (new_messages s) (operation s) (ops s)
    (decision s) (decision_cancelled s) v (emitting s) (audio_until s) (next_check s)
    (tool_checks s) (idle_checks s) (idle_close_at s) (last_updates s) (now s) (pipe s)
    (runs s) (next_ref s) (next_run s) (next_attempt s).
Definition set_emitting (v : bool) (s : engagement) : engagement :=
  mkEngagement (closed s) (revision s) (quiet s) (new_messages s) (operation s) (ops s)
    (decision s) (decision_cancelled s) (playing s) v (audio_until s) (next_check s)
    (tool_checks s) (idle_checks s) (idle_close_at s) (last_updates s) (now s) (pipe s)
    (runs s) (next_ref s) (next_run s) (next_attempt s).
Definition set_audio_until (v : Z) (s : engagement) : engagement :=
  mkEngagement (closed s) (revision s) (quiet s) (new_messages s) (operation s) (ops s)
    (decision s) (decision_cancelled s) (playing s) (emitting s) v (next_check s)
    (tool_checks s) (idle_checks s) (idle_close_at s) (last_updates s) (now s) (pipe s)
    (runs s) (next_ref s) (next_run s) (next_attempt s).
Definition set_next_check (v : Z) (s : engagement) : engagement :=
  mkEngagement (closed s) (revision s) (quiet s) (new_messages s) (operation s) (ops s)
    (decision s) (decision_cancelled s) (playing s) (emitting s) (audio_until s) v
    (tool_checks s) (idle_checks s) (idle_close_at s) (last_updates s) (now s) (pipe s)
    (runs s) (next_ref s) (next_run s) (next_attempt s).
Definition set_tool_checks (v : Z) (s : engagement) : engagement :=
  mkEngagement (closed s) (revision s) (quiet s) (new_messages s) (operation s) (ops s)
    (decision s) (decision_cancelled s) (playing s) (emitting s) (audio_until s) (next_check s) v (idle_checks s) (idle_close_at s) (last_updates s) (now s) (pipe s) (runs s)
    (next_ref s) (next_run s) (next_attempt s).
Definition set_idle_checks (v : Z) (s : engagement) : engagement :=
  mkEngagement (closed s) (revision s) (quiet s) (new_messages s) (operation s) (ops s)
    (decision s) (decision_cancelled s) (playing s) (emitting s) (audio_until s) (next_check s) (tool_checks s) v (idle_close_at s) (last_updates s) (now s) (pipe s) (runs s)
    (next_ref s) (next_run s) (next_attempt s).
Definition set_idle_close_at (v : option Z) (s : engagement) : engagement :=
  mkEngagement (closed s) (revision s) (quiet s) (new_messages s) (operation s) (ops s)
    (decision s) (decision_cancelled s) (playing s) (emitting s) (audio_until s) (next_check s) (tool_checks s) (idle_checks s) v (last_updates s) (now s) (pipe s) (runs s)
    (next_ref s) (next_run s) (next_attempt s).
Definition set_last_updates (v : list str) (s : engagement) : engagement :=
  mkEngagement (closed s) (revision s) (quiet s) (new_messages s) (operation s) (ops s)
    (decision s) (decision_cancelled s) (playing s) (emitting s) (audio_until s) (next_check s) (tool_checks s) (idle_checks s) (idle_close_at s) v (now s) (pipe s) (runs s)
    (next_ref s) (next_run s) (next_attempt s).
Definition set_now (v : Z) (s : engagement) : engagement :=
  mkEngagement (closed s) (revision s) (quiet s) (new_messages s) (operation s) (ops s)
    (decision s) (decision_cancelled s) (playing s) (emitting s) (audio_until s) (next_check s) (tool_checks s) (idle_checks s) (idle_close_at s) (last_updates s) v (pipe s) (runs s) (next_ref s) (next_run s) (next_attempt s).
Definition set_pipe (v : view) (s : engagement) : engagement :=
  mkEngagement (closed s) (revision s) (quiet s) (new_messages s) (operation s) (ops s)
    (decision s) (decision_cancelled s) (playing s) (emitting s) (audio_until s) (next_check s) (tool_checks s) (idle_checks s) (idle_close_at s) (last_updates s) (now s) v (runs s)
    (next_ref s) (next_run s) (next_attempt s).
Definition set_runs (v : gmap nat run_frame) (s : engagement) : engagement :=
  mkEngagement (closed s) (revision s) (quiet s) (new_messages s) (operation s) (ops s)
    (decision s) (decision_cancelled s) (playing s) (emitting s) (audio_until s) (next_check s) (tool_checks s) (idle_checks s) (idle_close_at s) (last_updates s) (now s) (pipe s) v
    (next_ref s) (next_run s) (next_attempt s).
Definition set_next_ref (v : nat) (s : engagement) : engagement :=
  mkEngagement (closed s) (revision s) (quiet s) (new_messages s) (operation s) (ops s)
    (decision s) (decision_cancelled s) (playing s) (emitting s) (audio_until s) (next_check s) (tool_checks s) (idle_checks s) (idle_close_at s) (last_updates s) (now s) (pipe s)
    (runs s) v (next_run s) (next_attempt s).
Definition set_next_run (v : nat) (s : engagement) : engagement :=
  mkEngagement (closed s) (revision s) (quiet s) (new_messages s) (operation s) (ops s)
    (decision s) (decision_cancelled s) (playing s) (emitting s) (audio_until s) (next_check s) (tool_checks s) (idle_checks s) (idle_close_at s) (last_updates s) (now s) (pipe s)
    (runs s) (next_ref s) v (next_attempt s).
Definition set_next_attempt (v : nat) (s : engagement) : engagement :=
  mkEngagement (closed s) (revision s) (quiet s) (new_messages s) (operation s) (ops s)
    (decision s) (decision_cancelled s) (playing s) (emitting s) (audio_until s) (next_check s) (tool_checks s) (idle_checks s) (idle_close_at s) (last_updates s) (now s) (pipe s)
    (runs s) (next_ref s) (next_run s) v.

(** ** Effects and events *)

(** What the engagement makes the pipeline, the model, the synthesiser and the tool
    provider do; a phrase carries the revision it was decided at. *)
Inductive effect : Type :=
| Ask (rev : Z) (r : speech_reason)
| Synthesize (rev : Z) (text : str)
| Chunk (rev : Z) (r : speech_reason) (text : str) (audio : list Z)
| Spoken (rev : Z) (r : speech_reason) (text : str)
| EndCall
| Invoke (ref : nat)
| InvokeDirect (call : tool_call)
| RetainUnknown (ref : nat)
| Return (n : nat) (outcome : exn tool_result).

(** What an [await] of the decision task gives. *)
Inductive decision_reply : Type :=
| Output (text : str)
| Audio (rate : Z) (chunks : list (list Z))
| Sent
| Failed.

Inductive event : Type :=
| Advance (dt : Z)
| SetView (v : view)
| Invalidate
| CallerStarted
| CallerFinal (text : str)
| SetSpeech (enabled : bool)
| AudioSent (seconds : Z)
| PlaybackStopped
| Register (a : nat) (call : tool_call)
| FinishOperation (ref : nat)
| ExternalDone (ref : nat) (outcome : exn tool_result)
| RunTool (a : nat) (call : tool_call)
| LoopTick
| ResumeDecision (reply : decision_reply)
| ResumeRun (n : nat) (reply : exn tool_result)
| AbandonRun (n : nat)
| Close.

(** ** Operations *)

Section engagement.
Context (enabled : bool) (config : engagement_config).
Context (second : Z) (audio_time : Z → Z → Z).

Definition init (v : view) (t : Z) : engagement :=
  mkEngagement false 0 QNone [] None ∅ None false false false t
    (t + engagement_idle_seconds config) 0 0 None [] t v ∅ 0 0 0.

(** [task and not task.done()], for the operation's task and the decision's. *)
Definition op_running (op : Operation) : bool :=
  match op_task op with Running => true | Finished _ => false end.

Definition current (s : engagement) : option Operation := operation s ≫= λ r, ops s !! r.

Definition pending (s : engagement) : bool :=
  match current s with Some op => op_running op | None => false end.

Definition deciding (s : engagement) : bool :=
  match decision s with None | Some DecisionDone => false | Some _ => true end.

Definition locked (s : engagement) : bool := speech_lock (pipe s) || playing s.

Definition update_op (r : nat) (f : Operation → Operation) (s : engagement) : engagement :=
  set_ops (alter f r (ops s)) s.

Definition invalidate (s : engagement) : engagement :=
  set_decision_cancelled (decision_cancelled s || deciding s) (set_revision (revision s + 1) s).

Definition idle_after (s : engagement) : engagement :=
  set_next_check (now s + engagement_idle_seconds config) s.

Definition caller_final (text : str) (s : engagement) : engagement :=
  if enabled then
    let s := set_idle_close_at None (invalidate s) in
    let s := set_new_messages (last_n 8 (new_messages s ++ [text])) s in
    idle_after (set_idle_checks 0 s)
  else s.

Definition caller_started (s : engagement) : engagement :=
  if enabled then
    idle_after (set_idle_checks 0 (set_idle_close_at None (invalidate s)))
  else s.

Definition speech_enabled (s : engagement) : bool :=
  negb enabled || negb (bool_decide (quiet s = QUntilUser)).

Definition set_speech_enabled (b : bool) (s : engagement) : engagement :=
  invalidate (set_quiet (if b then QNone else QUntilUser) s).

Definition audio_sent (seconds : Z) (s : engagement) : engagement :=
  set_audio_until (Z.max (now s) (audio_until s) + seconds) s.

Definition playback_stopped (s : engagement) : engagement :=
  let s := set_audio_until (now s) s in
  set_next_check (now s + (if pending s then engagement_tool_seconds config
                           else engagement_idle_seconds config)) s.

(** [None] is silence: no phrase in a language the caller may not understand. *)
Definition _inactivity_phrase (goodbye : bool) (s : engagement) : option str :=
  let language := py_lower (py_strip (agent_language (pipe s))) in
  let code := language_code (JStr language) in
  match dget code LANGUAGES with
  | Some p => Some (if goodbye then inactivity_goodbye p else inactivity_checkin p)
  | None =>
      if code =s lit "pcm" then
        Some (if goodbye then lit "I no hear from you, so I go end the call now. Bye."
              else lit "You still dey there? You need any other help from me?")
      else if in_strs language [lit "fr"; lit "fra"; lit "fre"; lit "french"; lit "français";
                                lit "francais"] then
        Some (if goodbye
              then lit "Je n’ai pas eu de réponse. Je vais terminer l’appel pour le moment. Au revoir."
              else lit "Êtes-vous toujours là ? Puis-je encore vous aider ?")
      else if in_strs language [[]; lit "en"; lit "eng"; lit "english"] then
        Some (if goodbye
              then lit "I haven't heard back, so I'll end the call for now. Goodbye."
              else lit "Are you still there? Is there anything else I can help you with?")
      else None
  end.

Definition new_op (call : tool_call) (a : nat) (external : bool) : Operation :=
  mkOperation call a Running None false None false external.

Definition add_op (op : Operation) (s : engagement) : engagement :=
  set_next_ref (S (next_ref s)) (set_ops (<[next_ref s := op]> (ops s)) s).

Definition register_operation (call : tool_call) (a : nat) (s : engagement) : engagement :=
  let ref := next_ref s in
  let s := add_op (new_op call a true) s in
  if enabled then
    let s := set_tool_checks 0 (set_idle_close_at None (set_operation (Some ref) s)) in
    set_next_check (now s + engagement_ack_seconds config) s
  else s.

Definition finish_operation (ref : nat) (s : engagement) : engagement :=
  let s := if bool_decide (operation s = Some ref) then set_operation None s else s in
  idle_after (invalidate s).

(** *** run_tool *)

(** [isinstance(r, dict) and r.get("status") == "unknown"] *)
Definition unknown_result (r : option tool_result) : bool :=
  match r with
  | Some (DictResult d) => jeq_str (dget_or_none (lit "status") d) (lit "unknown")
  | _ => false
  end.

Definition unknown_outcome : dict :=
  [(lit "status", JStr (lit "unknown"));
   (lit "message", JStr (lit "The request outcome is unknown. Do not retry or claim success; it needs verification before sending another request."));
   (lit "data", JObj [])].

Definition still_pending : dict :=
  [(lit "status", JStr (lit "pending"));
   (lit "message", JStr (lit "The previous request is still pending; no new request was sent."));
   (lit "data", JObj [])].

Definition same_call (c d : tool_call) : bool :=
  (call_name c =s call_name d) && py_eq (JObj (call_arguments c)) (JObj (call_arguments d)).

Definition push_run (f : run_frame) (s : engagement) : engagement :=
  set_next_run (S (next_run s)) (set_runs (<[next_run s := f]> (runs s)) s).

Definition set_run (n : nat) (f : run_frame) (s : engagement) : engagement :=
  set_runs (<[n := f]> (runs s)) s.

Definition drop_run (n : nat) (s : engagement) : engagement := set_runs (delete n (runs s)) s.

Definition start_op (a : nat) (call : tool_call) (s : engagement) : engagement :=
  let ref := next_ref s in
  let s := set_operation (Some ref) (add_op (new_op call a false) s) in
  let s := set_next_check (now s + engagement_ack_seconds config) (set_tool_checks 0 s) in
  push_run (Waiting ref a) (push_run (TaskCreated ref) s).

(** A call that never suspends is numbered too. *)
Definition run_tool (a : nat) (call : tool_call) (s : engagement) : engagement * list effect :=
  if negb enabled then (push_run (Direct call) s, [InvokeDirect call])
  else
    match operation s, current s with
    | Some ref, Some previous =>
        if unknown_result (op_result previous) then
          (set_next_run (S (next_run s)) s,
           [Return (next_run s) (Ok (default (DictResult []) (op_result previous)))])
        else if op_running previous then
          if same_call (op_call previous) call then (push_run (Waiting ref a) s, [])
          else (set_next_run (S (next_run s)) s, [Return (next_run s) (Ok (DictResult still_pending))])
        else (start_op a call s, [])
    | _, _ => (start_op a call s, [])
    end.

(** The [finally] of [execute]. *)
Definition tool_finished (s : engagement) : engagement :=
  let s := if emitting s then s else invalidate s in
  set_next_check (now s + engagement_ack_seconds config) s.

Definition end_op (ref : nat) (result : option tool_result) (outcome : exn tool_result)
    (s : engagement) : engagement :=
  update_op ref (λ op, mkOperation (op_call op) (op_attempt op) (Finished outcome)
    (match result with Some r => Some r | None => op_result op end)
    (op_delivered op) (op_considered op) (op_cancelled op) (op_external op)) s.

(** The task [execute] after [invoke()]. *)
Definition execute_reply (ref : nat) (cancelled_ : bool) (reply : exn tool_result)
    (s : engagement) : engagement * list effect :=
  match (if cancelled_ then Raise CancelledError else reply) with
  | Ok r => (tool_finished (end_op ref (Some r) (Ok r) s), [])
  | Raise CancelledError => (tool_finished (end_op ref None (Raise CancelledError) s), [])
  | Raise _ =>
      let r := DictResult unknown_outcome in
      (tool_finished (end_op ref (Some r) (Ok r) s), [RetainUnknown ref])
  end.

Definition deliver (ref a : nat) (s : engagement) : engagement :=
  if bool_decide (attempt (pipe s) = Some a) && negb (cancelled (attempts (pipe s) a)) then
    update_op ref (λ op, mkOperation (op_call op) (op_attempt op) (op_task op) (op_result op)
      true (op_considered op) (op_cancelled op) (op_external op)) s
  else s.

Definition resume_run (n : nat) (reply : exn tool_result) (s : engagement)
    : option (engagement * list effect) :=
  match runs s !! n with
  | None => None
  | Some (Direct _) => Some (drop_run n s, [Return n reply])
  | Some (TaskCreated ref) =>
      match ops s !! ref with
      | None => None
      | Some op =>
          if op_cancelled op then
            Some (end_op ref None (Raise CancelledError) (drop_run n s), [])
          else Some (set_run n (TaskInvoked ref) s, [Invoke ref])
      end
  | Some (TaskInvoked ref) =>
      match ops s !! ref with
      | None => None
      | Some op => Some (execute_reply ref (op_cancelled op) reply (drop_run n s))
      end
  | Some (Waiting ref a) =>
      match ops s !! ref with
      | None => None
      | Some op =>
          match op_task op with
          | Running => None
          | Finished (Raise e) => Some (drop_run n s, [Return n (Raise e)])
          | Finished (Ok r) =>
              match decision s with
              | None => Some (deliver ref a (drop_run n s), [Return n (Ok r)])
              | Some _ => Some (set_run n (Gathering ref a r) s, [])
              end
          end
      end
  | Some (Gathering ref a r) =>
      if deciding s then None
      else Some (deliver ref a (drop_run n s), [Return n (Ok r)])
  end.

(** The caller of [run_tool] is cancelled.  [shield] keeps the tool's task; a
    cancelled [gather] cancels the decision it waits for. *)
Definition abandon_run (n : nat) (s : engagement) : option (engagement * list effect) :=
  match runs s !! n with
  | Some (Direct _) | Some (Waiting _ _) => Some (drop_run n s, [Return n (Raise CancelledError)])
  | Some (Gathering _ _ _) =>
      Some (set_decision_cancelled (decision_cancelled s || deciding s) (drop_run n s),
            [Return n (Raise CancelledError)])
  | _ => None
  end.

(** *** Opportunities *)


(** The branch of [opportunity] with no running tool. *)
Definition quiet_opportunity (op : option Operation) (s : engagement)
    : option (speech_reason * option nat) :=
  let p := pipe s in
  if bool_decide (attempt p ≠ None) || negb (pstate p =s lit "idle")
     || ((pending_action p || prepared p) && negb (inactivity_pilot_enabled config)) then None
  else if match op with
          | Some op => bool_decide (op_result op ≠ None) && negb (op_delivered op)
                       && negb (bool_decide (op_considered op = Some (revision s)))
          | None => false
          end
  then Some (ToolCompleted, None)
  else if negb (has_turns p) || (engagement_max_idle_updates config <=? idle_checks s) then None
  else Some (Idle, None).

(** The branch with one. *)
Definition wait_opportunity (op : Operation) (s : engagement)
    : option (speech_reason * option nat) :=
  let p := pipe s in
  let r := if tool_checks s =? 0 then ToolStarted else ToolWait in
  if engagement_max_tool_updates config <=? tool_checks s then None
  else match attempt p with
       | Some a => if negb (Nat.eqb a (op_attempt op)) || cancelled (attempts p a)
                      || negb (authorized (attempts p a)) then None
                   else Some (r, Some a)
       | None => Some (r, None)
       end.

Definition opportunity (s : engagement) : option (speech_reason * option nat) :=
  let p := pipe s in
  if closed s || speech_candidate_active p
     || in_strs (pstate p) [lit "speaking"; lit "speculating"; lit "awaiting_final";
                            lit "recovering_stt"; lit "generating"]
     || locked s || (now s <? audio_until s) then None
  else if bool_decide (quiet s = QUntilUser) then None
  else match current s with
       | Some op => if op_running op then wait_opportunity op s
                    else quiet_opportunity (Some op) s
       | None => quiet_opportunity None s
       end.

Definition _can_close_idle (rev : Z) (s : engagement) : bool :=
  let p := pipe s in
  inactivity_pilot_enabled config && (revision s =? rev) && negb (closed s)
  && bool_decide (quiet s = QNone) && negb (call_ending p) && (pstate p =s lit "idle")
  && bool_decide (attempt p = None) && negb (speech_candidate_active p)
  && negb (inflight_tools p) && negb (pending s) && negb (locked s).

Definition safe (rev : Z) (a : option nat) (r : speech_reason) (s : engagement) : bool :=
  let p := pipe s in
  negb (closed s) && (revision s =? rev) && speech_enabled s
  && (negb (bool_decide (quiet s = QUntilResult)) || bool_decide (r = ToolCompleted))
  && bool_decide (attempt p = a) && negb (speech_candidate_active p)
  && match a with
     | None => true
     | Some a => authorized (attempts p a) && negb (cancelled (attempts p a))
     end
  && in_strs (pstate p) [lit "idle"; lit "playing"; lit "releasing"]
  && (emitting s
      || ((audio_until s <=? now s)
          && (negb (bool_decide (r = ToolStarted) || bool_decide (r = ToolWait)) || pending s))).

(** One wake-up of [_loop]. *)
Definition _loop (s : engagement) : engagement :=
  let create f := set_decision_cancelled false (set_decision (Some f) s) in
  if match idle_close_at s with Some t => t <=? now s | None => false end
     && negb (deciding s)
  then create CloseCreated
  else if (now s <? next_check s) || deciding s then s
  else match opportunity s with
       | Some (r, a) => create (Created r a)
       | None => s
       end.

(** *** Speaking *)

Definition reason_seconds (r : speech_reason) : Z :=
  if tool_reason r then engagement_tool_seconds config else engagement_idle_seconds config.

Definition end_decision (s : engagement) : engagement :=
  set_decision_cancelled false (set_decision (Some DecisionDone) s).

Definition goto (f : decision_frame) (s : engagement) : engagement := set_decision (Some f) s.

(** The [finally] of [reconsider]. *)
Definition finally_reconsider (r : speech_reason) (s : engagement) : engagement :=
  let s := set_emitting false s in
  end_decision (set_next_check (Z.max (next_check s) (audio_until s + reason_seconds r)) s).

Definition arm_close (s : engagement) : engagement :=
  set_idle_close_at (Some (now s + inactivity_pilot_close_seconds config)) s.

Definition pilot_idle (rev : Z) (r : speech_reason) (s : engagement) : bool :=
  bool_decide (r = Idle) && inactivity_pilot_enabled config && safe rev None r s.

(** [except Exception] of [reconsider]. *)
Definition skip_decision (rev : Z) (r : speech_reason) (s : engagement)
    : engagement * list effect :=
  if pilot_idle rev r s then
    match _inactivity_phrase false s with
    | Some text =>
        if text =s [] then (finally_reconsider r (arm_close s), [])
        else (goto (FallingBack r rev text) s, [Synthesize rev text])
    | None => (finally_reconsider r (arm_close s), [])
    end
  else (finally_reconsider r s, []).

(** [except Exception] inside that handler. *)
Definition fallback_failed (rev : Z) (r : speech_reason) (s : engagement) : engagement :=
  finally_reconsider r (if safe rev None r s then arm_close s else s).

Definition _hangup_idle (rev : Z) (s : engagement) : engagement * list effect :=
  if negb (_can_close_idle rev s) then (end_decision s, [])
  else
    let p := pipe s in
    let p := mkView (attempt p) (attempts p) (pstate p) (speech_candidate_active p)
      (speech_lock p) (pending_action p) (prepared p) (inflight_tools p) true (has_turns p)
      (agent_language p) in
    (goto (HangingUp rev) (set_pipe p (set_idle_close_at None s)), [EndCall]).

(** What follows [_play_engagement] when it returns [played]. *)
Definition after_playing (p : play) (played : bool) (s : engagement)
    : engagement * list effect :=
  let r := play_reason p in
  let rev := play_revision p in
  match play_after p with
  | AfterDecision =>
      if played then
        let s := set_last_updates (last_n 3 (last_updates s ++ [play_text p])) s in
        let s := if pilot_idle rev r s then arm_close s else s in
        let s := if bool_decide (r = ToolCompleted) then
                   match operation s with
                   | Some ref => update_op ref (λ op, mkOperation (op_call op) (op_attempt op)
                       (op_task op) (op_result op) true (op_considered op) (op_cancelled op) (op_external op)) s
                   | None => s
                   end
                 else s in
        (finally_reconsider r s, [])
      else (finally_reconsider r s, [])
  | AfterFallback =>
      (finally_reconsider r (if played && safe rev None r s then arm_close s else s), [])
  | AfterClose => if played then _hangup_idle rev s else (end_decision s, [])
  end.

(** What follows when it raises, and when the task is cancelled in it. *)
Definition playing_failed (p : play) (s : engagement) : engagement * list effect :=
  match play_after p with
  | AfterDecision => skip_decision (play_revision p) (play_reason p) s
  | AfterFallback => (fallback_failed (play_revision p) (play_reason p) s, [])
  | AfterClose => _hangup_idle (play_revision p) s
  end.

Definition playing_cancelled (p : play) (s : engagement) : engagement :=
  match play_after p with
  | AfterClose => end_decision s
  | _ => finally_reconsider (play_reason p) s
  end.

(** The [finally] of [_play_engagement], and the release of the lock. *)
Definition finally_play (p : play) (s : engagement) : engagement :=
  let v := pipe s in
  let v := if bool_decide (play_asked p = None) && bool_decide (attempt v = Some (play_attempt p))
              && negb (play_sent p)
           then mkView None (attempts v) (lit "idle") (speech_candidate_active v) (speech_lock v)
             (pending_action v) (prepared v) (inflight_tools v) (call_ending v) (has_turns v)
             (agent_language v)
           else v in
  set_playing false (set_pipe v s).

(** The loop over the chunks, up to its next [await]. *)
Fixpoint play_chunks (p : play) (chunks : list (list Z)) (s : engagement)
    : engagement * list effect :=
  match chunks with
  | [] => (goto (PlayTail p) s, [Spoken (play_revision p) (play_reason p) (play_text p)])
  | chunk :: rest =>
      if negb (safe (play_revision p) (Some (play_attempt p)) (play_reason p) s) then
        after_playing p false (finally_play p s)
      else if cancelled (attempts (pipe s) (play_attempt p)) || negb (speech_enabled s) then
        play_chunks p rest s
      else
        let p := mkPlay (play_reason p) (play_asked p) (play_revision p) (play_text p)
          (play_rate p) (play_after p) (play_attempt p) true in
        (goto (PlaySend p chunk rest) s,
         [Chunk (play_revision p) (play_reason p) (play_text p) chunk])
  end.

(** From the acquisition of the lock. *)
Definition play_begin (p : play) (chunks : list (list Z)) (s : engagement)
    : engagement * list effect :=
  if negb (safe (play_revision p) (play_asked p) (play_reason p) s) then after_playing p false s
  else
    match play_asked p with
    | Some a =>
        let p := mkPlay (play_reason p) (play_asked p) (play_revision p) (play_text p)
          (play_rate p) (play_after p) a false in
        play_chunks p chunks (set_emitting true (set_playing true s))
    | None =>
        let a := next_attempt s in
        let v := pipe s in
        let v := mkView (Some a)
          (λ b, if Nat.eqb b a then mkAttempt true false else attempts v b)
          (lit "releasing") (speech_candidate_active v) (speech_lock v) (pending_action v)
          (prepared v) (inflight_tools v) (call_ending v) (has_turns v) (agent_language v) in
        let p := mkPlay (play_reason p) None (play_revision p) (play_text p) (play_rate p)
          (play_after p) a false in
        play_chunks p chunks
          (set_emitting true (set_playing true (set_pipe v (set_next_attempt (S a) s))))
    end.

(** [_play_engagement]: the lock is taken at once when it is free. *)
Definition _play_engagement (p : play) (chunks : list (list Z)) (s : engagement)
    : engagement * list effect :=
  if locked s then (goto (PlayLock p chunks) s, []) else play_begin p chunks s.

(** *** The decision task *)

(** [reconsider] up to the request to the model. *)
Definition reconsider_start (r : speech_reason) (a : option nat) (s : engagement)
    : engagement * list effect :=
  let rev := revision s in
  let s := if bool_decide (r = ToolCompleted) then
             match operation s with
             | Some ref => update_op ref (λ op, mkOperation (op_call op) (op_attempt op)
                 (op_task op) (op_result op) (op_delivered op) (Some rev) (op_cancelled op) (op_external op)) s
             | None => s
             end
           else s in
  let s := if tool_reason r then set_tool_checks (tool_checks s + 1) s
           else set_idle_checks (idle_checks s + 1) s in
  let s := set_next_check (now s + reason_seconds r) s in
  (goto (Thinking r a rev (length (new_messages s))) s, [Ask rev r]).

(** The checks on the decision; the fields [speak] and [text] when they pass. *)
Definition read_decision (output : str) : option (bool * str) :=
  match loads output with
  | Ok (JObj d) =>
      if negb (forallb (λ k, in_strs k [lit "speak"; lit "text"; lit "quiet"]) (dkeys d)) then None
      else
        match dget (lit "speak") d, dget (lit "text") d, dget (lit "quiet") d with
        | Some (JBool speak), Some (JStr text), Some (JStr q) =>
            if in_strs q [lit "none"; lit "until_user"; lit "until_result"]
               && (Z.of_nat (length (py_split text)) <=? 24) && (slen text <=? 240)
            then Some (speak, text) else None
        | _, _, _ => None
        end
  | _ => None
  end.

(** [reconsider] from the decision to the request for audio. *)
Definition decided (r : speech_reason) (a : option nat) (rev : Z) (msgs : nat) (speak : bool)
    (text : str) (s : engagement) : engagement * list effect :=
  if negb (revision s =? rev) || closed s then (finally_reconsider r s, [])
  else
    let s := set_new_messages (drop msgs (new_messages s)) s in
    let text := py_strip text in
    let '(speak, text) :=
      if inactivity_pilot_enabled config && bool_decide (r = Idle) && bool_decide (quiet s = QNone)
         && (negb speak || (text =s [])) then
        let text := default [] (_inactivity_phrase false s) in (negb (text =s []), text)
      else (speak, text) in
    if negb speak || (text =s []) || bool_decide (quiet s = QUntilUser)
       || (bool_decide (quiet s = QUntilResult) && negb (bool_decide (r = ToolCompleted))) then
      (finally_reconsider r (if pilot_idle rev r s then arm_close s else s), [])
    else (goto (Speaking r a rev text) s, [Synthesize rev text]).

Definition audio_size (chunks : list (list Z)) : Z := Z.of_nat (length (concat chunks)).

(** [_close_idle_call] up to its first [await]. *)
Definition close_idle_start (s : engagement) : engagement * list effect :=
  let rev := revision s in
  if match idle_close_at s with Some t => now s <? t | None => true end then (end_decision s, [])
  else if negb (_can_close_idle rev s) then
    (end_decision (set_idle_close_at (Some (now s + second)) s), [])
  else
    match _inactivity_phrase true s with
    | Some text =>
        if text =s [] then _hangup_idle rev s
        else (goto (CloseSpeaking rev text) s, [Synthesize rev text])
    | None => _hangup_idle rev s
    end.

(** A requested cancellation reaches the task where it is suspended. *)
Definition cancel_frame (f : decision_frame) (s : engagement) : engagement :=
  match f with
  | DecisionDone => s
  | Created _ _ | CloseCreated | CloseSpeaking _ _ | HangingUp _ => end_decision s
  | Thinking r _ _ _ | Speaking r _ _ _ | FallingBack r _ _ => finally_reconsider r s
  | PlayLock p _ => playing_cancelled p s
  | PlaySend p _ _ | PlayTail p => playing_cancelled p (finally_play p s)
  end.

Definition resume_frame (f : decision_frame) (reply : decision_reply) (s : engagement)
    : option (engagement * list effect) :=
  match f, reply with
  | Created r a, _ => Some (reconsider_start r a s)
  | CloseCreated, _ => Some (close_idle_start s)
  | Thinking r a rev msgs, Output output =>
      match read_decision output with
      | Some (speak, text) => Some (decided r a rev msgs speak text s)
      | None => Some (skip_decision rev r s)
      end
  | Thinking r _ rev _, Failed => Some (skip_decision rev r s)
  | Speaking r a rev text, Audio rate chunks =>
      if rate * 2 * 12 <? audio_size chunks then Some (skip_decision rev r s)
      else if bool_decide (chunks = []) || negb (safe rev a r s) then
        Some (finally_reconsider r s, [])
      else Some (_play_engagement (mkPlay r a rev text rate AfterDecision 0 false) chunks s)
  | Speaking r _ rev _, Failed => Some (skip_decision rev r s)
  | FallingBack r rev text, Audio rate chunks =>
      if negb (bool_decide (chunks = [])) && safe rev None r s then
        Some (_play_engagement (mkPlay r None rev text rate AfterFallback 0 false) chunks s)
      else Some (finally_reconsider r (if safe rev None r s then arm_close s else s), [])
  | FallingBack r rev _, Failed => Some (fallback_failed rev r s, [])
  | CloseSpeaking rev text, Audio rate chunks =>
      if negb (_can_close_idle rev s) then Some (end_decision s, [])
      else if bool_decide (chunks = []) then Some (_hangup_idle rev s)
      else Some (_play_engagement (mkPlay IdleClose None rev text rate AfterClose 0 false) chunks s)
  | CloseSpeaking rev _, Failed => Some (_hangup_idle rev s)
  | HangingUp _, Sent => Some (end_decision s, [])
  | HangingUp _, Failed =>
      let p := pipe s in
      let p := mkView (attempt p) (attempts p) (pstate p) (speech_candidate_active p)
        (speech_lock p) (pending_action p) (prepared p) (inflight_tools p) false (has_turns p)
        (agent_language p) in
      Some (end_decision (set_idle_close_at (Some (now s + 5 * second)) (set_pipe p s)), [])
  | PlayLock p chunks, Sent => if locked s then None else Some (play_begin p chunks s)
  | PlaySend p sent chunks, Sent =>
      Some (play_chunks p chunks
        (audio_sent (audio_time (Z.of_nat (length sent)) (play_rate p)) s))
  | PlaySend p _ _, Failed | PlayTail p, Failed => Some (playing_failed p (finally_play p s))
  | PlayTail p, Sent => Some (after_playing p true (finally_play p s))
  | _, _ => None
  end.

Definition resume_decision (reply : decision_reply) (s : engagement)
    : option (engagement * list effect) :=
  match decision s with
  | None | Some DecisionDone => None
  | Some f => if decision_cancelled s then Some (cancel_frame f s, []) else resume_frame f reply s
  end.

(** [close] up to its [gather]: what it cancels ends at its next resumption. *)
Definition close (s : engagement) : engagement :=
  let s := invalidate (set_closed true s) in
  match operation s with
  | Some ref => update_op ref (λ op, mkOperation (op_call op) (op_attempt op) (op_task op)
      (op_result op) (op_delivered op) (op_considered op) true (op_external op)) s
  | None => s
  end.

Definition step (s : engagement) (e : event) : option (engagement * list effect) :=
  match e with
  | Advance dt => if 0 <=? dt then Some (set_now (now s + dt) s, []) else None
  | SetView v => Some (set_pipe v s, [])
  | Invalidate => Some (invalidate s, [])
  | CallerStarted => Some (caller_started s, [])
  | CallerFinal text => Some (caller_final text s, [])
  | SetSpeech b => Some (set_speech_enabled b s, [])
  | AudioSent t => Some (audio_sent t s, [])
  | PlaybackStopped => Some (playback_stopped s, [])
  | Register a call => Some (register_operation call a s, [])
  | FinishOperation ref => Some (finish_operation ref s, [])
  | ExternalDone ref outcome =>
      match ops s !! ref with
      | Some op => if op_external op && op_running op
                   then Some (end_op ref None outcome s, []) else None
      | None => None
      end
  | RunTool a call => Some (run_tool a call s)
  | LoopTick => if enabled && negb (closed s) then Some (_loop s, []) else None
  | ResumeDecision reply => resume_decision reply s
  | ResumeRun n reply => resume_run n reply s
  | AbandonRun n => abandon_run n s
  | Close => Some (close s, [])
  end.

(** ** What the caller hears was decided after they last spoke *)

Definition ripe (T : option Z) (o : list effect) (t : Z) : Prop :=
  match T with
  | Some T => T + inactivity_pilot_close_seconds config ≤ t ∧ ∃ rev, Ask rev Idle ∈ o
  | None => True
  end.

Definition begun (T : option Z) (t : Z) : Prop :=
  match T with Some T => T ≤ t | None => True end.

(** A phrase that was asked for, where the model chose it, and synthesised in [o]. *)
Definition phrase_ok (o : list effect) (rev : Z) (r : speech_reason) (text : str) : Prop :=
  Synthesize rev text ∈ o ∧ (r ≠ IdleClose → Ask rev r ∈ o).

Definition play_ok (T : option Z) (o : list effect) (t : Z) (p : play) : Prop :=
  phrase_ok o (play_revision p) (play_reason p) (play_text p)
  ∧ (play_after p = AfterClose → ripe T o t)
  ∧ (play_after p = AfterDecision → play_reason p ≠ IdleClose)
  ∧ (play_after p = AfterFallback → play_reason p = Idle).

Definition stage_ok (T : option Z) (o : list effect) (t : Z) (f : decision_frame) : Prop :=
  match f with
  | DecisionDone | CloseCreated => True
  | Created r _ => r ≠ IdleClose
  | Thinking r _ rev _ => r ≠ IdleClose ∧ Ask rev r ∈ o
  | Speaking r _ rev text => r ≠ IdleClose ∧ phrase_ok o rev r text
  | FallingBack r rev text => r = Idle ∧ phrase_ok o rev r text
  | CloseSpeaking rev text => Synthesize rev text ∈ o ∧ ripe T o t
  | HangingUp _ => ripe T o t
  | PlayLock p _ | PlaySend p _ _ | PlayTail p => play_ok T o t p
  end.

Definition heard_ok (T : option Z) (o : list effect) (t : Z) (x : effect) : Prop :=
  match x with
  | Chunk rev r text _ | Spoken rev r text => phrase_ok o rev r text
  | EndCall => ripe T o t
  | _ => True
  end.

Record since (T : option Z) (o : list effect) (s : engagement) : Prop := {
  since_stage : decision_cancelled s = true ∨
    ∀ f, decision s = Some f → stage_ok T o (now s) f;
  since_armed : ∀ t, idle_close_at s = Some t → ripe T o t;
  since_heard : Forall (heard_ok T o (now s)) o;
  since_begun : begun T (now s);
}.

Lemma begun_ripe T o t rev :
  begun T t → Ask rev Idle ∈ o → ripe T o (t + inactivity_pilot_close_seconds config).
Proof. destruct T; simpl; [|done]. intros H Ha. split; [lia|]. by exists rev. Qed.

Lemma ripe_mono T o o' t t' : ripe T o t → o ⊆ o' → t ≤ t' → ripe T o' t'.
Proof.
  destruct T as [T|]; simpl; [|done]. intros [H [rev Hr]] Ho Ht.
  split; [lia|]. exists rev. by apply Ho.
Qed.

Lemma phrase_ok_mono o o' rev r text : phrase_ok o rev r text → o ⊆ o' → phrase_ok o' rev r text.
Proof. intros [H1 H2] Ho. split; [by apply Ho|]. intros Hr. by apply Ho, H2. Qed.

Lemma play_ok_mono T o o' t t' p : play_ok T o t p → o ⊆ o' → t ≤ t' → play_ok T o' t' p.
Proof.
  intros (H1 & H2 & H3 & H4) Ho Ht. split; [by eapply phrase_ok_mono|].
  split; [|done]. intros Ha. by eapply ripe_mono; [apply H2| |].
Qed.

Lemma stage_ok_mono T o o' t t' f : stage_ok T o t f → o ⊆ o' → t ≤ t' → stage_ok T o' t' f.
Proof.
  destruct f; simpl; intros H Ho Ht; try done;
    try (destruct H as [H1 H2]; split); eauto using phrase_ok_mono, play_ok_mono, ripe_mono.
  all: by eapply play_ok_mono.
Qed.

Lemma heard_ok_mono T o o' t t' x : heard_ok T o t x → o ⊆ o' → t ≤ t' → heard_ok T o' t' x.
Proof. destruct x; simpl; eauto using phrase_ok_mono, ripe_mono. Qed.

(** A step that reaches [s'] with the new effects [x]. *)
Lemma since_step T o x s s' :
  since T o s → now s ≤ now s' →
  (decision_cancelled s' = true ∨ ∀ f, decision s' = Some f → stage_ok T (o ++ x) (now s') f) →
  (∀ t, idle_close_at s' = Some t → idle_close_at s = Some t ∨ ripe T (o ++ x) t) →
  Forall (heard_ok T (o ++ x) (now s')) x →
  since T (o ++ x) s'.
Proof.
  intros [H1 H2 H3 H4] Hn Hd Hi Hx. split; [done| | |].
  - intros t Ht. destruct (Hi t Ht) as [Hs|]; [|done].
    eapply ripe_mono; [by apply H2|by apply list_subseteq_app_l|lia].
  - apply Forall_app. split; [|done]. eapply Forall_impl; [exact H3|].
    intros y Hy. eapply heard_ok_mono; [done|by apply list_subseteq_app_l|done].
  - destruct T; simpl in *; [lia|done].
Qed.

(** A step that leaves the decision task alone. *)
Lemma since_frame T o x s s' :
  since T o s → now s ≤ now s' →
  (decision_cancelled s = true → decision_cancelled s' = true) →
  decision s' = decision s →
  (idle_close_at s' = idle_close_at s ∨ idle_close_at s' = None) →
  Forall (heard_ok T (o ++ x) (now s')) x →
  since T (o ++ x) s'.
Proof.
  intros H Hn Hc Hd Hi Hx. eapply since_step; [done|done| | |done].
  - destruct (since_stage _ _ _ H) as [Hk|Hk]; [by left; apply Hc|right].
    rewrite Hd. intros f Hf. eapply stage_ok_mono; [by apply Hk|by apply list_subseteq_app_l|done].
  - intros t Ht. destruct Hi as [Hi|Hi]; rewrite Hi in Ht; [by left|done].
Qed.

(** The tools: the decision task changes nothing of them but what was said of them. *)
Definition op_core (op : Operation) : task_state * option tool_result :=
  (op_task op, op_result op).

Definition tools_of (s : engagement)
    : option nat * gmap nat run_frame * nat * nat * gmap nat (task_state * option tool_result) :=
  (operation s, runs s, next_ref s, next_run s, op_core <$> ops s).

Lemma tools_update r f s :
  (∀ op, op_core (f op) = op_core op) → tools_of (update_op r f s) = tools_of s.
Proof.
  intros Hf. unfold tools_of. simpl. f_equal. apply map_eq. intros r'.
  rewrite !lookup_fmap. destruct (decide (r = r')) as [->|Hne].
  - rewrite lookup_alter_eq. destruct (ops s !! r'); [|done]. simpl. by rewrite Hf.
  - by rewrite lookup_alter_ne.
Qed.

(** The outcome of a piece of the decision task, run from [s0]. *)
Definition keeps (T : option Z) (o : list effect) (s0 s : engagement) : Prop :=
  now s = now s0 ∧ (idle_checks s = idle_checks s0 ∧ tools_of s = tools_of s0)
  ∧ ∀ t, idle_close_at s = Some t → idle_close_at s0 = Some t ∨ ripe T o t.

Definition checkin (x : effect) : bool := match x with Ask _ Idle => true | _ => false end.

Definition created (f : decision_frame) : bool :=
  match f with Created _ _ => true | _ => false end.

(** What every piece but the request to the model keeps. *)
Definition tame (s0 : engagement) (r : engagement * list effect) : Prop :=
  idle_checks r.1 = idle_checks s0 ∧ count checkin r.2 = 0%nat
  ∧ ∀ f, decision r.1 = Some f → created f = false.

Definition out_weak (T : option Z) (o : list effect) (s0 : engagement)
    (r : engagement * list effect) : Prop :=
  now r.1 = now s0 ∧ tools_of r.1 = tools_of s0
  ∧ (∀ t, idle_close_at r.1 = Some t → idle_close_at s0 = Some t ∨ ripe T (o ++ r.2) t)
  ∧ (∀ f, decision r.1 = Some f → stage_ok T (o ++ r.2) (now r.1) f)
  ∧ Forall (heard_ok T (o ++ r.2) (now r.1)) r.2.

Definition out_ok (T : option Z) (o : list effect) (s0 : engagement)
    (r : engagement * list effect) : Prop :=
  out_weak T o s0 r ∧ tame s0 r.

Lemma out_since T o s r : since T o s → out_weak T o s r → since T (o ++ r.2) r.1.
Proof.
  intros H (Hn & _ & Hi & Hd & Hx). eapply since_step; [done|by rewrite Hn|by right|done|done].
Qed.

Section pieces.
Context (T : option Z) (o : list effect) (s0 : engagement).
Context (Hbegun : begun T (now s0)).

Lemma keeps_refl : keeps T o s0 s0.
Proof. split; [done|]. split; [done|]. intros t Ht. by left. Qed.

Lemma keeps_eq s s' :
  keeps T o s0 s → now s' = now s → idle_close_at s' = idle_close_at s →
  idle_checks s' = idle_checks s → tools_of s' = tools_of s → keeps T o s0 s'.
Proof.
  intros (H1 & H2 & H3) Hn Hi Hc Ht. split; [by rewrite Hn|]. split; [by rewrite Hc, Ht|].
  by rewrite Hi.
Qed.

Lemma keeps_arm s t :
  keeps T o s0 s → ripe T o t → keeps T o s0 (set_idle_close_at (Some t) s).
Proof. intros (H1 & H2 & H3) Hr. split; [done|]. split; [done|]. simpl. intros t' [= <-]. by right. Qed.

Lemma keeps_app s x : keeps T o s0 s → keeps T (o ++ x) s0 s.
Proof.
  intros (H1 & H2 & H3). split; [done|]. split; [done|]. intros t Ht.
  destruct (H3 t Ht) as [|Hr]; [by left|right].
  eapply ripe_mono; [done|by apply list_subseteq_app_l|done].
Qed.

Lemma out_done s : keeps T o s0 s → decision s = Some DecisionDone → out_ok T o s0 (s, []).
Proof.
  intros (H1 & [H2 H4] & H3) Hd.
  split; [split; [done|]; split; [done|]|split; [done|split; [done|]]]; simpl.
  - rewrite app_nil_r. split; [done|]. split; [|done]. rewrite Hd. by intros f [= <-].
  - rewrite Hd. by intros f [= <-].
Qed.

Lemma out_end s : keeps T o s0 s → out_ok T o s0 (end_decision s, []).
Proof. intros H. apply out_done; [by eapply keeps_eq|done]. Qed.

Lemma out_finally r s : keeps T o s0 s → out_ok T o s0 (finally_reconsider r s, []).
Proof. intros H. apply out_done; [by eapply keeps_eq|done]. Qed.

Lemma ripe_arm s rev : keeps T o s0 s → Ask rev Idle ∈ o →
  ripe T o (now s + inactivity_pilot_close_seconds config).
Proof.
  intros (H & _) Ha. rewrite H. by eapply begun_ripe.
Qed.

Lemma keeps_arm_close s rev : keeps T o s0 s → Ask rev Idle ∈ o → keeps T o s0 (arm_close s).
Proof. intros H Ha. apply keeps_arm; [done|by eapply ripe_arm]. Qed.

Lemma keeps_pilot s rev r b :
  keeps T o s0 s → Ask rev r ∈ o →
  keeps T o s0 (if b && pilot_idle rev r s then arm_close s else s).
Proof.
  intros H Ha. destruct (b && pilot_idle rev r s) eqn:E; [|done].
  unfold pilot_idle in E. reflect_bool. destruct_and!. subst. by eapply keeps_arm_close.
Qed.

(** A phrase is on its way to the synthesiser. *)
Lemma out_goto s f x :
  keeps T o s0 s → stage_ok T (o ++ x) (now s) f → Forall (heard_ok T (o ++ x) (now s)) x →
  created f = false → count checkin x = 0%nat → out_ok T o s0 (goto f s, x).
Proof.
  intros H Hf Hx Hc Hk. pose proof (keeps_app s x H) as (H1 & [H2 H4] & H3).
  split; split; simpl; try done.
  - split; [done|]. split; [done|]. split; [|done]. by intros f' [= <-].
  - split; [done|]. by intros f' [= <-].
Qed.

Lemma elem_last (x : effect) : x ∈ o ++ [x].
Proof. apply elem_of_app. right. by left. Qed.

Lemma elem_old (x : effect) y : x ∈ o → x ∈ o ++ y.
Proof. intros. apply elem_of_app. by left. Qed.

Lemma out_skip rev r s :
  keeps T o s0 s → r ≠ IdleClose → Ask rev r ∈ o → out_ok T o s0 (skip_decision rev r s).
Proof.
  intros H Hr Ha. unfold skip_decision.
  pose proof (keeps_pilot s rev r true H Ha) as Hk. simpl in Hk.
  destruct (pilot_idle rev r s) eqn:E; [|by apply out_finally].
  unfold pilot_idle in E. reflect_bool. destruct_and!.
  destruct (_inactivity_phrase false s) as [text|]; [|by apply out_finally].
  case_goal; [by apply out_finally|]. apply out_goto; [done| |by repeat constructor|done|done].
  split; [done|]. split; [apply elem_last|]. intros _. by apply elem_old.
Qed.

Lemma out_hangup rev s :
  keeps T o s0 s → ripe T o (now s) → out_ok T o s0 (_hangup_idle rev s).
Proof.
  intros H Hr. unfold _hangup_idle. case_goal; [by apply out_end|].
  assert (ripe T (o ++ [EndCall]) (now s)) as Hr'
    by (eapply ripe_mono; [done|by apply list_subseteq_app_l|done]).
  apply out_goto; [|done|by repeat constructor|done|done].
  destruct H as (H1 & H2 & H3). split; [done|]. split; [done|]. by intros t [=].
Qed.

Lemma out_fallback_failed rev r s :
  keeps T o s0 s → r = Idle → Ask rev r ∈ o → out_ok T o s0 (fallback_failed rev r s, []).
Proof.
  intros H -> Ha. unfold fallback_failed. apply out_finally.
  destruct (safe rev None Idle s); [by eapply keeps_arm_close|done].
Qed.

Lemma keeps_play p s : keeps T o s0 s → keeps T o s0 (finally_play p s).
Proof. intros H. by eapply keeps_eq. Qed.

Lemma keeps_update r f s :
  (∀ op, op_core (f op) = op_core op) → keeps T o s0 s → keeps T o s0 (update_op r f s).
Proof. intros Hf H. eapply keeps_eq; [done..|]. by apply tools_update. Qed.

Lemma play_asked_ok p s :
  play_ok T o (now s) p → play_after p ≠ AfterClose → Ask (play_revision p) (play_reason p) ∈ o.
Proof.
  intros ([_ H] & _ & H1 & H2) Ha. apply H. destruct (play_after p) eqn:E; [by apply H1| |done].
  by rewrite H2.
Qed.

Lemma out_after_playing p b s :
  keeps T o s0 s → play_ok T o (now s) p → out_ok T o s0 (after_playing p b s).
Proof.
  intros H Hp. unfold after_playing. pose proof Hp as (_ & Hr & _ & Hi).
  destruct (play_after p) eqn:E.
  - destruct b; [|by apply out_finally]. apply out_finally.
    assert (Ask (play_revision p) (play_reason p) ∈ o) as Ha
      by (eapply play_asked_ok; [exact Hp|by rewrite E]).
    set (s1 := set_last_updates _ s). assert (keeps T o s0 s1) as H1 by (by eapply keeps_eq).
    pose proof (keeps_pilot s1 _ _ true H1 Ha) as H2. cbn [andb] in H2.
    set (s2 := if pilot_idle _ _ s1 then _ else _) in *. clearbody s1 s2.
    case_bool_decide; [|done]. destruct (operation s2); [by apply keeps_update|done].
  - apply out_finally. case_match; [|done]. apply (keeps_arm_close _ (play_revision p)); [done|].
    rewrite <-Hi by done. eapply play_asked_ok; [exact Hp|by rewrite E].
  - destruct b; [|by apply out_end]. by apply out_hangup, Hr.
Qed.

Lemma out_playing_failed p s :
  keeps T o s0 s → play_ok T o (now s) p → out_ok T o s0 (playing_failed p s).
Proof.
  intros H Hp. unfold playing_failed. pose proof Hp as (_ & Hr & Hc & Hi).
  destruct (play_after p) eqn:E; [| |by apply out_hangup, Hr].
  - apply out_skip; [done|by apply Hc|]. eapply play_asked_ok; [exact Hp|by rewrite E].
  - apply out_fallback_failed; [done|by apply Hi|]. eapply play_asked_ok; [exact Hp|by rewrite E].
Qed.

Lemma out_playing_cancelled p s : keeps T o s0 s → out_ok T o s0 (playing_cancelled p s, []).
Proof.
  intros H. unfold playing_cancelled.
  destruct (play_after p); auto using out_finally, out_end.
Qed.

Lemma out_play_chunks p chunks s :
  keeps T o s0 s → play_ok T o (now s) p → out_ok T o s0 (play_chunks p chunks s).
Proof.
  revert p s. induction chunks as [|chunk rest IH]; intros p s H Hp; simpl.
  - apply out_goto; [done| | |done|done].
    + eapply play_ok_mono; [done|by apply list_subseteq_app_l|done].
    + constructor; [|done]. destruct Hp as [Hp _].
      eapply phrase_ok_mono; [done|by apply list_subseteq_app_l].
  - case_goal; [apply out_after_playing; [by apply keeps_play|done]|].
    case_goal; [by apply IH|]. apply out_goto; [done| | |done|done].
    + apply (play_ok_mono T o _ (now s)); [done|by apply list_subseteq_app_l|done].
    + constructor; [|done]. destruct Hp as [Hp _].
      eapply phrase_ok_mono; [done|by apply list_subseteq_app_l].
Qed.

Lemma out_play_begin p chunks s :
  keeps T o s0 s → play_ok T o (now s) p → out_ok T o s0 (play_begin p chunks s).
Proof.
  intros H Hp. unfold play_begin. case_goal; [by apply out_after_playing|].
  destruct (play_asked p); apply out_play_chunks; try done; by eapply keeps_eq.
Qed.

Lemma out_play p chunks s :
  keeps T o s0 s → play_ok T o (now s) p → out_ok T o s0 (_play_engagement p chunks s).
Proof.
  intros H Hp. unfold _play_engagement. destruct (locked s); [|by apply out_play_begin].
  apply out_goto; [done| |done..]. by rewrite app_nil_r.
Qed.

Lemma out_reconsider r a s :
  r ≠ IdleClose → out_weak T o s (reconsider_start r a s).
Proof.
  intros Hr. unfold reconsider_start.
  set (s1 := if bool_decide (r = ToolCompleted) then _ else s).
  assert (now s1 = now s ∧ idle_close_at s1 = idle_close_at s ∧ tools_of s1 = tools_of s)
    as (H1 & H2 & H3) by (unfold s1; repeat case_match; try done; by rewrite tools_update).
  destruct (tool_reason r); (split; [done|]); (split; [done|]); (split; [simpl; rewrite H2; by left|]); simpl;
    (split; [|by repeat constructor]); intros f [= <-]; split; try done; apply elem_last.
Qed.

Lemma out_decided r a rev msgs speak text s :
  keeps T o s0 s → r ≠ IdleClose → Ask rev r ∈ o →
  out_ok T o s0 (decided r a rev msgs speak text s).
Proof.
  intros H Hr Ha. unfold decided. case_goal; [by apply out_finally|].
  set (s1 := set_new_messages _ s). assert (keeps T o s0 s1) as H1 by (by eapply keeps_eq).
  pose proof (keeps_pilot s1 rev r true H1 Ha) as H2. cbn [andb] in H2. clearbody s1.
  match goal with |- context [match ?x with pair _ _ => _ end] => destruct x as [speak' text'] end.
  case_goal; [by apply out_finally|]. apply out_goto; [done| |by repeat constructor|done|done].
  split; [done|]. split; [apply elem_last|]. intros _. by apply elem_old.
Qed.

Lemma out_close_idle s :
  0 < second → keeps T o s0 s → (∀ t, idle_close_at s = Some t → ripe T o t) →
  out_ok T o s0 (close_idle_start s).
Proof.
  intros Hs H Ha. unfold close_idle_start.
  destruct (idle_close_at s) as [t|] eqn:Et; [|by apply out_end].
  specialize (Ha t eq_refl).
  destruct (now s <? t) eqn:E; [by apply out_end|]. reflect_bool.
  assert (ripe T o (now s)) as Hr by (by eapply ripe_mono).
  case_goal.
  - apply out_end, keeps_arm; [done|]. eapply ripe_mono; [done|done|lia].
  - destruct (_inactivity_phrase true s) as [text|]; [|by apply out_hangup].
    case_goal; [by apply out_hangup|]. apply out_goto; [done| |by repeat constructor|done|done].
    split; [apply elem_last|]. eapply ripe_mono; [done|by apply list_subseteq_app_l|done].
Qed.

Lemma out_cancel f s : keeps T o s0 s → (f = DecisionDone → decision s = Some f) →
  out_ok T o s0 (cancel_frame f s, []).
Proof.
  intros H Hf. destruct f; simpl; auto using out_end, out_finally, out_playing_cancelled, keeps_play.
  apply out_done; auto.
Qed.
End pieces.

Lemma out_resume T o reply f s r :
  begun T (now s) → 0 < second → (∀ t, idle_close_at s = Some t → ripe T o t) →
  stage_ok T o (now s) f → created f = false → resume_frame f reply s = Some r →
  out_ok T o s r.
Proof.
  intros Hb Hs Ha Hf Hnc Hr. pose proof (keeps_refl T o s) as Hk.
  destruct f as [| | |r1 a rev text|r1 rev text| |rev text|rev|p chunks|p sent chunks|p];
    destruct reply; simpl in Hr, Hf; try discriminate Hr; try discriminate Hnc;
    try (apply (inj Some) in Hr; subst r); try (by apply out_close_idle).
  - destruct Hf. destruct (read_decision _) as [[speak text']|]; injection Hr as <-.
    + by apply out_decided.
    + by apply out_skip.
  - destruct Hf. by apply out_skip.
  - destruct Hf as [H1 [H2 H3]]. if_in Hr; [injection Hr as <-; by apply out_skip; auto|].
    if_in Hr; injection Hr as <-; [by apply out_finally|]. apply out_play; [done..|].
    by repeat split.
  - destruct Hf as [H1 [H2 H3]]. apply out_skip; auto.
  - destruct Hf as [-> Hp]. pose proof (proj2 Hp ltac:(done)) as Hask.
    if_in Hr; injection Hr as <-; [apply out_play; [done..|by repeat split; try apply Hp]|].
    apply out_finally. destruct (safe _ _ _ _); [by eapply keeps_arm_close|done].
  - destruct Hf as [-> Hp]. apply out_fallback_failed; [done..|]. by apply Hp.
  - destruct Hf as [H1 H2]. if_in Hr; [injection Hr as <-; by apply out_end|].
    if_in Hr; injection Hr as <-; [by apply out_hangup|]. apply out_play; [done..|]. by repeat split.
  - destruct Hf as [H1 H2]. by apply out_hangup.
  - by apply out_end.
  - apply out_end, keeps_arm; [by eapply keeps_eq|].
    eapply ripe_mono; [exact Hf|done|simpl; lia].
  - destruct (locked s); [done|]. injection Hr as <-. by apply out_play_begin.
  - apply out_play_chunks; [done|by eapply keeps_eq|done].
  - apply out_playing_failed; [done|by apply keeps_play|done].
  - apply out_after_playing; [done|by apply keeps_play|done].
  - apply out_playing_failed; [done|by apply keeps_play|done].
Qed.

Lemma opportunity_speaks s r a : opportunity s = Some (r, a) → r = Idle ∨ tool_reason r = true.
Proof.
  unfold opportunity, quiet_opportunity, wait_opportunity. intros H.
  repeat case_in H; try case_match; auto.
Qed.

Lemma loop_since T o s : since T o s → since T o (_loop s).
Proof.
  intros H. unfold _loop.
  assert (∀ f, stage_ok T o (now s) f →
            since T o (set_decision_cancelled false (set_decision (Some f) s))) as Hset.
  { intros f Hf. destruct H as [H1 H2 H3 H4]. split; try done. right. by intros f' [= <-]. }
  case_goal; [by apply Hset|]. case_goal; [done|].
  destruct (opportunity s) as [[r a]|] eqn:E; [|done]. apply Hset. simpl.
  by apply opportunity_speaks in E as [->|E]; [|intros ->].
Qed.

(** What a step outside the decision task does to it. *)
Definition silent (x : effect) : bool :=
  match x with
  | Ask _ _ | Synthesize _ _ | Chunk _ _ _ _ | Spoken _ _ _ | EndCall => false
  | _ => true
  end.

Definition caller_event (e : event) : bool :=
  match e with CallerStarted | CallerFinal _ => enabled | _ => false end.

Record aside (e : event) (s s' : engagement) (x : list effect) : Prop := {
  aside_now : now s ≤ now s';
  aside_cancelled : decision_cancelled s = true → decision_cancelled s' = true;
  aside_decision : decision s' = decision s;
  aside_close : idle_close_at s' = idle_close_at s ∨ idle_close_at s' = None;
  aside_checks : caller_event e = false → idle_checks s' = idle_checks s;
  aside_silent : Forall (λ y, silent y = true) x;
}.

(** The steps of the decision task. *)
Definition decision_event (e : event) : bool :=
  match e with LoopTick | ResumeDecision _ => true | _ => false end.

Ltac aside_tac :=
  split; simpl; try done; try lia; auto; try (intros ->; done); repeat constructor.

Lemma tool_finished_aside e s s1 x :
  now s1 = now s → decision s1 = decision s → idle_close_at s1 = idle_close_at s →
  decision_cancelled s1 = decision_cancelled s → idle_checks s1 = idle_checks s →
  Forall (λ y, silent y = true) x → aside e s (tool_finished s1) x.
Proof.
  intros Hn Hd Hi Hc Hk Hx. unfold tool_finished.
  split; destruct (emitting s1); simpl; rewrite ?Hn, ?Hi, ?Hc, ?Hk; auto; try lia; by intros ->.
Qed.

Lemma resume_run_aside e n reply s s' x :
  resume_run n reply s = Some (s', x) → aside e s s' x.
Proof.
  intros Hr. unfold resume_run, execute_reply, deliver in Hr.
  repeat (case_in Hr; try done).
  all: lazymatch goal with
       | |- aside _ _ (tool_finished _) _ =>
           apply tool_finished_aside; [done..|by repeat constructor]
       | |- aside _ _ (if _ then _ else _) _ => case_goal; aside_tac
       | _ => aside_tac
       end.
Qed.

Lemma step_aside s e s' x :
  decision_event e = false → step s e = Some (s', x) → aside e s s' x.
Proof.
  intros He Hstep. destruct e; simpl in He, Hstep; try discriminate He.
  all: try (injection Hstep as <- <-).
  - if_in Hstep; [|done]. injection Hstep as <- <-. reflect_bool. aside_tac.
  - aside_tac.
  - aside_tac.
  - unfold caller_started. case_goal; aside_tac.
  - unfold caller_final. case_goal; aside_tac.
  - aside_tac.
  - aside_tac.
  - aside_tac.
  - unfold register_operation. case_goal; aside_tac.
  - unfold finish_operation. case_goal; aside_tac.
  - repeat case_in Hstep; aside_tac.
  - injection Hstep as Hstep. unfold run_tool, start_op in Hstep. repeat case_in Hstep; aside_tac.
  - by eapply resume_run_aside.
  - unfold abandon_run in Hstep. repeat case_in Hstep; aside_tac.
  - unfold close. case_goal; aside_tac.
Qed.

Lemma aside_since T o e s s' x : since T o s → aside e s s' x → since T (o ++ x) s'.
Proof.
  intros H [Hn Hc Hd Hi _ Hx]. eapply since_frame; [done..|].
  eapply Forall_impl; [exact Hx|]. by intros [].
Qed.

(** A step of the decision task. *)
Lemma resume_out T o s reply r :
  0 < second → since T o s → resume_decision reply s = Some r →
  out_weak T o s r ∧ ((∀ a b, decision s = Some (Created a b) → decision_cancelled s = true) → tame s r).
Proof.
  intros Hs H Hstep. unfold resume_decision in Hstep.
  destruct (decision s) as [f|] eqn:Ef; [|done].
  assert (f ≠ DecisionDone ∧ (if decision_cancelled s then Some (cancel_frame f s, [])
            else resume_frame f reply s) = Some r) as [Hf Hr] by (by destruct f).
  clear Hstep. destruct (decision_cancelled s) eqn:Ec.
  - injection Hr as <-. destruct (out_cancel T o s f s) as [H1 H2]; [apply keeps_refl|done|done].
  - destruct H as [[Hc|Hc] Ha Hh Hb]; [by rewrite Hc in Ec|]. specialize (Hc f Ef).
    destruct (created f) eqn:Ecr.
    + destruct f; try discriminate Ecr. injection Hr as <-. split; [by apply out_reconsider|].
      intros Hk. by specialize (Hk _ _ eq_refl).
    + destruct (out_resume T o reply f s r); done.
Qed.

Lemma step_since T o s e s' x :
  0 < second → since T o s → step s e = Some (s', x) → since T (o ++ x) s'.
Proof.
  intros Hs H Hstep. destruct (decision_event e) eqn:He; [|by eapply aside_since, step_aside].
  destruct e; try discriminate He; simpl in Hstep.
  - if_in Hstep; [|done]. injection Hstep as <- <-. rewrite app_nil_r. by apply loop_since.
  - change (since T (o ++ (s', x).2) (s', x).1). apply (out_since T o s); [done|].
    by eapply resume_out.
Qed.

Lemma run_since T s1 es s2 o2 :
  0 < second → since T [] s1 → run step s1 es = Some (s2, o2) → since T o2 s2.
Proof.
  intros Hs H. apply (run_inv step (λ s o, since T o s)); [done|].
  intros. by eapply step_since.
Qed.

Definition interrupts (e : event) : bool :=
  match e with
  | Invalidate | SetSpeech _ | FinishOperation _ | Close => true
  | CallerStarted | CallerFinal _ => enabled
  | _ => false
  end.

(** A freshly invalidated state starts a new history. *)
Lemma since_fresh T s :
  decision_cancelled s = true ∨ deciding s = false →
  (∀ t, idle_close_at s = Some t → T = None) → begun T (now s) → since T [] s.
Proof.
  intros Hd Hi Hb. split; try done.
  - destruct Hd as [Hd|Hd]; [by left|right]. intros f Hf. unfold deciding in Hd.
    rewrite Hf in Hd. by destruct f.
  - intros t Ht. by rewrite (Hi t Ht).
Qed.

Lemma invalidate_quiets s : decision_cancelled (invalidate s) = true ∨ deciding (invalidate s) = false.
Proof.
  simpl. change (deciding (invalidate s)) with (deciding s).
  destruct (deciding s); [left; apply orb_true_r|by right].
Qed.

Lemma interrupt_quiets s e s1 o1 :
  interrupts e = true → step s e = Some (s1, o1) →
  decision_cancelled s1 = true ∨ deciding s1 = false.
Proof.
  intros He Hs.
  assert (∀ s2, (decision_cancelled s1, decision s1)
            = (decision_cancelled (invalidate s2), decision (invalidate s2)) →
          decision_cancelled s1 = true ∨ deciding s1 = false) as Hk.
  { intros s2 Heq. apply pair_equal_spec in Heq as [-> Hd].
    unfold deciding. rewrite Hd. apply invalidate_quiets. }
  destruct e; simpl in He, Hs; try discriminate He; injection Hs as <- <-.
  - by apply (Hk s).
  - unfold caller_started in *. rewrite He in *. by apply (Hk s).
  - unfold caller_final in *. rewrite He in *. by apply (Hk s).
  - by apply (Hk (set_quiet (if enabled0 then QNone else QUntilUser) s)).
  - unfold finish_operation in *. by eapply Hk.
  - unfold close in *. apply (Hk (set_closed true s)).
    by destruct (operation (invalidate (set_closed true s))).
Qed.

Lemma caller_resets s e s1 o1 :
  caller_event e = true → step s e = Some (s1, o1) →
  interrupts e = true ∧ idle_close_at s1 = None ∧ idle_checks s1 = 0.
Proof.
  intros He Hs. destruct e; simpl in *; try done; injection Hs as <- <-;
    unfold caller_started, caller_final; by rewrite He.
Qed.

(** ** How often the agent speaks up *)

Definition max_idle : Z := Z.max 0 (engagement_max_idle_updates config).

(** The check-ins since the caller last spoke, [o], are counted and bounded. *)
Record nagged (o : list effect) (s : engagement) : Prop := {
  nagged_count : idle_checks s = Z.of_nat (count checkin o);
  nagged_bound : idle_checks s ≤ max_idle;
  nagged_next : decision_cancelled s = true ∨ ∀ r a, decision s = Some (Created r a) →
    tool_reason r = true ∨ (r = Idle ∧ idle_checks s < engagement_max_idle_updates config);
}.

Lemma count_silent x : Forall (λ y, silent y = true) x → count checkin x = 0%nat.
Proof. intros H. apply count_zero. eapply Forall_impl; [exact H|]. by intros []. Qed.

Lemma opportunity_idle s r a :
  opportunity s = Some (r, a) →
  tool_reason r = true ∨ (r = Idle ∧ idle_checks s < engagement_max_idle_updates config).
Proof.
  unfold opportunity, quiet_opportunity, wait_opportunity. intros H.
  repeat case_in H; try case_match; auto; reflect_bool; destruct_and?; auto.
Qed.

Lemma loop_nagged o s : nagged o s → nagged o (_loop s).
Proof.
  intros [H1 H2 H3]. unfold _loop. case_goal; [split; simpl; auto; by right|].
  case_goal; [done|]. destruct (opportunity s) as [[r a]|] eqn:E; [|done].
  split; simpl; auto. right. intros r' a' [= <- <-]. by eapply opportunity_idle.
Qed.

Lemma tame_nagged o s s' x : nagged o s → tame s (s', x) → nagged (o ++ x) s'.
Proof.
  intros [H1 H2 _] (Hk & Hx & Hf); simpl in *. split.
  - rewrite count_app, Hx, Nat.add_0_r. by rewrite Hk.
  - by rewrite Hk.
  - right. intros r a Hd. by specialize (Hf _ Hd).
Qed.

Lemma reconsider_nagged o s r a s' x :
  nagged o s →
  tool_reason r = true ∨ (r = Idle ∧ idle_checks s < engagement_max_idle_updates config) →
  reconsider_start r a s = (s', x) → nagged (o ++ x) s'.
Proof.
  intros [H1 H2 _] Hr. unfold reconsider_start.
  set (s1 := if bool_decide (r = ToolCompleted) then _ else s).
  assert (idle_checks s1 = idle_checks s) as Hk by (unfold s1; repeat case_match; done).
  intros Heq. apply pair_equal_spec in Heq as [<- <-].
  destruct Hr as [Hr|[-> Hr]]; [rewrite Hr|]; split; rewrite ?count_app; simpl; rewrite ?Hk.
  - rewrite H1. replace (count checkin [Ask (revision s) r]) with 0%nat; [lia|].
    by destruct r.
  - lia.
  - right. by intros ? ? [=].
  - rewrite H1. change (count checkin [Ask (revision s) Idle]) with 1%nat. lia.
  - unfold max_idle in *. lia.
  - right. by intros ? ? [=].
Qed.

Lemma step_nagged o s e s' x :
  0 < second → since None o s → caller_event e = false → nagged o s →
  step s e = Some (s', x) → nagged (o ++ x) s'.
Proof.
  intros Hs Hsince Hcaller H Hstep. destruct (decision_event e) eqn:He.
  2: { destruct (step_aside _ _ _ _ He Hstep) as [_ Hc Hd _ Hk Hx]. destruct H as [H1 H2 H3].
       specialize (Hk Hcaller). split; rewrite ?Hk, ?count_app, ?(count_silent x), ?Nat.add_0_r; auto.
       rewrite Hd. destruct H3; auto. }
  destruct e; try discriminate He; simpl in Hstep.
  { if_in Hstep; [|done]. injection Hstep as <- <-. rewrite app_nil_r. by apply loop_nagged. }
  destruct (resume_out None o s reply (s', x)) as [_ Ht]; [done..|].
  unfold resume_decision in Hstep. destruct (nagged_next _ _ H) as [Hc|Hc].
  - apply (tame_nagged o s); [done|by apply Ht].
  - destruct (decision s) as [f|] eqn:Ef; [|done]. destruct (created f) eqn:Ecr.
    + destruct f as [|r a| | | | | | | | |]; try discriminate Ecr.
      destruct (decision_cancelled s); [apply (tame_nagged o s); [done|by apply Ht]|].
      apply (inj Some) in Hstep. eapply reconsider_nagged; [exact H|by apply (Hc r a)|exact Hstep].
    + apply (tame_nagged o s); [done|]. apply Ht. by intros a b [= ->].
Qed.

(** ** Properties *)

(** C13: nothing said before the caller spoke is heard after it.  After the caller
    starts or finishes speaking, sends text, changes the output gate, an operation
    ends or the engagement closes, whatever is said in a gap was put to the model and
    synthesised after that event, by the same revision; a decision that was being made
    or spoken is never resumed. *)
Theorem heard_after_interruption (s s1 s2 : engagement) (e : event) (es : list event)
    (o1 o2 : list effect) (rev : Z) (r : speech_reason) (text : str)
    (Hsecond : 0 < second) (He : interrupts e = true)
    (Hstep : step s e = Some (s1, o1)) (Hrun : run step s1 es = Some (s2, o2))
    (Hheard : Spoken rev r text ∈ o2 ∨ ∃ audio, Chunk rev r text audio ∈ o2) :
  Synthesize rev text ∈ o2 ∧ (r ≠ IdleClose → Ask rev r ∈ o2).
Proof.
  assert (since None [] s1) as H0 by (apply since_fresh; [by eapply interrupt_quiets|done|done]).
  pose proof (since_heard _ _ _ (run_since _ _ _ _ _ Hsecond H0 Hrun)) as Hx.
  rewrite Forall_forall in Hx. destruct Hheard as [H|[audio H]]; exact (Hx _ H).
Qed.

(** A call is never hung up on a caller who just spoke.  When the machine ends the
    call, at least [inactivity_pilot_close_seconds] have passed since the caller last
    spoke, and after that the model was asked whether to check in on them. *)
Theorem hangup_only_after_silence (s s1 s2 : engagement) (e : event) (es : list event)
    (o1 o2 : list effect) (Hsecond : 0 < second) (He : caller_event e = true)
    (Hstep : step s e = Some (s1, o1)) (Hrun : run step s1 es = Some (s2, o2))
    (Hend : EndCall ∈ o2) :
  now s1 + inactivity_pilot_close_seconds config ≤ now s2 ∧ ∃ rev, Ask rev Idle ∈ o2.
Proof.
  destruct (caller_resets _ _ _ _ He Hstep) as (Hi & Hc & _).
  assert (since (Some (now s1)) [] s1) as H0.
  { apply since_fresh; [by eapply interrupt_quiets|by rewrite Hc|simpl; lia]. }
  pose proof (since_heard _ _ _ (run_since _ _ _ _ _ Hsecond H0 Hrun)) as Hx.
  rewrite Forall_forall in Hx. exact (Hx _ Hend).
Qed.

(** The agent does not pester a silent caller.  Until the caller speaks again the
    model is asked for a check-in at most [engagement_max_idle_updates] times. *)
Theorem checkins_bounded (s s1 s2 : engagement) (e : event) (es : list event)
    (o1 o2 : list effect) (Hsecond : 0 < second) (He : caller_event e = true)
    (Hstep : step s e = Some (s1, o1)) (Hes : Forall (λ e, caller_event e = false) es)
    (Hrun : run step s1 es = Some (s2, o2)) :
  Z.of_nat (count checkin o2) ≤ Z.max 0 (engagement_max_idle_updates config).
Proof.
  destruct (caller_resets _ _ _ _ He Hstep) as (Hi & Hc & Hk).
  pose proof (interrupt_quiets _ _ _ _ Hi Hstep) as Hq.
  assert (since None [] s1) as H0 by (by apply since_fresh).
  assert (nagged [] s1) as H1.
  { split; [done|rewrite Hk; unfold max_idle; lia|]. destruct Hq as [Hq|Hq]; [by left|right].
    intros r a Hd. unfold deciding in Hq. by rewrite Hd in Hq. }
  destruct (run_guard_inv step (λ e, caller_event e = false)
    (λ s o, since None o s ∧ nagged o s) s1 (conj H0 H1)
    ltac:(intros s' o e' s'' x He' [Hs Hn] Hst; split;
          [exact (step_since _ _ _ _ _ _ Hsecond Hs Hst)
          |exact (step_nagged _ _ _ _ _ Hsecond Hs He' Hn Hst)]) es s2 o2 Hes Hrun) as [_ [Hn Hb _]].
  unfold max_idle in Hb. lia.
Qed.

(** ** Audio is released only when it is safe *)

(** The state in which a chunk is handed to the pipeline; a decision runs no tool. *)
Definition gate (s : engagement) (x : effect) : Prop :=
  match x with
  | Chunk rev r _ _ =>
      revision s = rev ∧ closed s = false ∧ speech_enabled s = true
      ∧ (quiet s = QUntilResult → r = ToolCompleted)
      ∧ speech_candidate_active (pipe s) = false
      ∧ pstate (pipe s) ∈ [lit "idle"; lit "playing"; lit "releasing"]
      ∧ ∃ a, attempt (pipe s) = Some a ∧ authorized (attempts (pipe s) a) = true
             ∧ cancelled (attempts (pipe s) a) = false
  | Invoke _ | RetainUnknown _ => False
  | _ => True
  end.

Definition gated (r : engagement * list effect) : Prop := Forall (gate r.1) r.2.

Lemma safe_gate rev a r s :
  safe rev (Some a) r s = true → ∀ text audio, gate s (Chunk rev r text audio).
Proof.
  unfold safe. intros H text audio. rewrite !andb_true_iff in H.
  destruct H as ((((((((Hc & Hr) & Hs) & Hq) & Ha) & Hp) & Hf) & Hst) & _).
  rewrite in_strs_true in Hst. reflect_bool. destruct_and!.
  repeat split; try done.
  - intros Hq'. destruct Hq as [Hq|Hq]; [by rewrite Hq' in Hq|done].
  - by exists a.
Qed.

Ltac ungated := repeat case_match; unfold gated; simpl; repeat constructor.

Lemma hangup_gated rev s : gated (_hangup_idle rev s).
Proof. unfold _hangup_idle. ungated. Qed.

Lemma skip_gated rev r s : gated (skip_decision rev r s).
Proof. unfold skip_decision. ungated. Qed.

Lemma after_playing_gated p b s : gated (after_playing p b s).
Proof.
  unfold after_playing. destruct (play_after p), b; try apply hangup_gated; by constructor.
Qed.

Lemma playing_failed_gated p s : gated (playing_failed p s).
Proof.
  unfold playing_failed. destruct (play_after p);
    [apply skip_gated|by constructor|apply hangup_gated].
Qed.

Lemma play_chunks_gated p chunks s : gated (play_chunks p chunks s).
Proof.
  revert p s. induction chunks as [|chunk rest IH]; intros p s; simpl; [by repeat constructor|].
  destruct (safe _ _ _ _) eqn:Hs; simpl; [|apply after_playing_gated].
  case_goal; [apply IH|]. constructor; [|constructor].
  by apply (safe_gate _ _ _ s Hs).
Qed.

Lemma play_gated p chunks s : gated (play_begin p chunks s).
Proof.
  unfold play_begin. case_goal; [apply after_playing_gated|].
  destruct (play_asked p); apply play_chunks_gated.
Qed.

Lemma play_engagement_gated p chunks s : gated (_play_engagement p chunks s).
Proof. unfold _play_engagement. case_goal; [by constructor|apply play_gated]. Qed.

Lemma close_idle_gated s : gated (close_idle_start s).
Proof.
  unfold close_idle_start. repeat case_match; try apply hangup_gated; by repeat constructor.
Qed.

Lemma decided_gated r a rev msgs speak text s : gated (decided r a rev msgs speak text s).
Proof. unfold decided. ungated. Qed.

Lemma resume_gated f reply s r : resume_frame f reply s = Some r → gated r.
Proof.
  assert (∀ s, gated (s, [])) as Hnil by by constructor.
  destruct f, reply; simpl; intros H; try discriminate H;
    repeat match type of H with
           | (if ?b then _ else _) = _ => destruct b; try discriminate H
           | match ?b with _ => _ end = _ => destruct b as [[? ?]|]
           end; apply (inj Some) in H; subst r;
    auto using skip_gated, hangup_gated, decided_gated, close_idle_gated, play_engagement_gated,
      play_gated, play_chunks_gated, after_playing_gated, playing_failed_gated.
  all: by repeat constructor.
Qed.

Lemma decision_gated s e s' o :
  decision_event e = true → step s e = Some (s', o) → gated (s', o).
Proof.
  intros He Hstep. destruct e; try discriminate He; simpl in Hstep.
  - if_in Hstep; [|done]. injection Hstep as <- <-. by constructor.
  - unfold resume_decision in Hstep. destruct (decision s) as [f|]; [|done].
    destruct f; try discriminate Hstep;
      (destruct (decision_cancelled s); [injection Hstep as <- <-; by constructor|]);
      exact (resume_gated _ _ _ _ Hstep).
Qed.

(** Audio leaves only through the gate.  Whenever a chunk of an optional phrase is
    handed to the pipeline, the engagement is open, no caller or gate event happened
    since the phrase was decided, the caller has not asked for silence (or asked for it
    until a result, and this is one), no caller speech is suspected, and the attempt it
    belongs to is the pipeline's own, authorised and not cancelled. *)
Theorem audio_only_when_safe (s s' : engagement) (e : event) (o : list effect)
    (rev : Z) (r : speech_reason) (text : str) (audio : list Z)
    (Hstep : step s e = Some (s', o)) (Hchunk : Chunk rev r text audio ∈ o) :
  revision s' = rev ∧ closed s' = false ∧ speech_enabled s' = true
  ∧ (quiet s' = QUntilResult → r = ToolCompleted)
  ∧ speech_candidate_active (pipe s') = false
  ∧ pstate (pipe s') ∈ [lit "idle"; lit "playing"; lit "releasing"]
  ∧ ∃ a, attempt (pipe s') = Some a ∧ authorized (attempts (pipe s') a) = true
         ∧ cancelled (attempts (pipe s') a) = false.
Proof.
  destruct (decision_event e) eqn:He.
  - by apply (proj1 (Forall_forall _ _) (decision_gated _ _ _ _ He Hstep) _ Hchunk).
  - pose proof (aside_silent _ _ _ _ (step_aside _ _ _ _ He Hstep)) as Hx.
    by apply (proj1 (Forall_forall _ _) Hx) in Hchunk.
Qed.

(** ** One tool at a time *)

Definition cores (s : engagement) : gmap nat (task_state * option tool_result) := op_core <$> ops s.

(** The operation a frame of its own task works for. *)
Definition task_of (f : run_frame) : option nat :=
  match f with TaskCreated r | TaskInvoked r => Some r | _ => None end.

Definition invokes (r : nat) (x : effect) : bool :=
  match x with Invoke r' => Nat.eqb r r' | _ => false end.

(** No request is sent once the outcome of one is unknown. *)
Definition pinned (o : list effect) : Prop :=
  ∀ i j r r', o !! i = Some (RetainUnknown r) → o !! j = Some (Invoke r') → (j < i)%nat.

Record tools_ok (o : list effect) (s : engagement) : Prop := {
  ok_ref : ∀ r c, cores s !! r = Some c → (r < next_ref s)%nat;
  ok_run : ∀ n f, runs s !! n = Some f → (n < next_run s)%nat;
  ok_current : ∀ r t res, cores s !! r = Some (t, res) →
    t = Running ∨ unknown_result res = true → operation s = Some r;
  ok_pending : ∀ r res, cores s !! r = Some (Running, res) → res = None;
  ok_task : ∀ n f r, runs s !! n = Some f → task_of f = Some r →
    ∃ res, cores s !! r = Some (Running, res);
  ok_unique : ∀ n m f g r, runs s !! n = Some f → runs s !! m = Some g →
    task_of f = Some r → task_of g = Some r → n = m;
  ok_new : ∀ n r, runs s !! n = Some (TaskCreated r) → count (invokes r) o = 0%nat;
  ok_sent : ∀ r, (count (invokes r) o ≤ 1)%nat ∧
    (count (invokes r) o ≠ 0%nat → (r < next_ref s)%nat);
  ok_unknown : ∀ r, RetainUnknown r ∈ o → ∃ t res,
    cores s !! r = Some (t, res) ∧ unknown_result res = true;
  ok_pinned : pinned o;
}.

Definition no_tool (x : effect) : bool :=
  match x with Invoke _ | RetainUnknown _ => false | _ => true end.

Lemma no_tool_count r x : Forall (λ y, no_tool y = true) x → count (invokes r) x = 0%nat.
Proof. intros H. apply count_zero. eapply Forall_impl; [exact H|]. by intros []. Qed.

Lemma no_tool_elem x r : Forall (λ y, no_tool y = true) x → RetainUnknown r ∉ x.
Proof. intros H Hx. by apply (proj1 (Forall_forall _ _) H) in Hx. Qed.

Lemma pinned_app o x :
  pinned o → ((∃ r, RetainUnknown r ∈ o) → ∀ r, Invoke r ∉ x) →
  ((∃ r, RetainUnknown r ∈ x) → ∀ r, Invoke r ∉ x) → pinned (o ++ x).
Proof.
  intros Hp Ho Hx i j r r' Hi Hj. apply lookup_app_Some in Hi, Hj.
  destruct Hi as [Hi|[Hle Hi]], Hj as [Hj|[Hle' Hj]].
  - by eapply Hp.
  - apply list_elem_of_lookup_2 in Hi, Hj. exfalso. exact (Ho ltac:(by exists r) r' Hj).
  - apply lookup_lt_Some in Hj. lia.
  - apply list_elem_of_lookup_2 in Hi, Hj. exfalso. exact (Hx ltac:(by exists r) r' Hj).
Qed.

(** While nothing of an unknown outcome is pending no task waits to start. *)
Lemma unknown_no_new o s n r r' :
  tools_ok o s → RetainUnknown r ∈ o → runs s !! n = Some (TaskCreated r') → False.
Proof.
  intros H Hr Hn. destruct (ok_unknown _ _ H r Hr) as (t & res & Hc & Hu).
  destruct (ok_task _ _ H n _ r' Hn eq_refl) as (res' & Hc').
  pose proof (ok_current _ _ H r t res Hc (or_intror Hu)) as H1.
  pose proof (ok_current _ _ H r' _ _ Hc' (or_introl eq_refl)) as H2.
  rewrite H1 in H2. injection H2 as ->. rewrite Hc in Hc'. injection Hc' as -> ->.
  by rewrite (ok_pending _ _ H r' res' Hc) in Hu.
Qed.

(** Only frames that are no task of their own come or go. *)
Lemma tools_frames o x s s' :
  tools_ok o s → operation s' = operation s → next_ref s' = next_ref s → cores s' = cores s →
  (∀ n f, runs s' !! n = Some f → (n < next_run s')%nat) →
  (∀ n f r, runs s' !! n = Some f → task_of f = Some r → runs s !! n = Some f) →
  Forall (λ y, no_tool y = true) x → tools_ok (o ++ x) s'.
Proof.
  intros [H1 H2 H3 H4 H5 H6 H7 H8 H9 H10] Ho Hn Hc Hb Hf Hx.
  split; rewrite ?Ho, ?Hn, ?Hc; auto.
  - intros n f r Hr Ht. exact (H5 n f r (Hf n f r Hr Ht) Ht).
  - intros n m f g r Hr1 Hr2 Ht1 Ht2. eapply H6; eauto.
  - intros n r Hr. rewrite count_app, (no_tool_count r x Hx), Nat.add_0_r. exact (H7 n r (Hf n _ r Hr eq_refl)).
  - intros r. rewrite count_app, (no_tool_count r x Hx), Nat.add_0_r. apply H8.
  - intros r [Hr'|Hr']%elem_of_app; [by apply H9|]. by apply no_tool_elem in Hr'.
  - apply pinned_app; [done| |]; intros _ r Hi; by apply (proj1 (Forall_forall _ _) Hx) in Hi.
Qed.

Lemma tools_same o x s s' :
  tools_ok o s → tools_of s' = tools_of s → Forall (λ y, no_tool y = true) x →
  tools_ok (o ++ x) s'.
Proof.
  intros H Heq Hx. unfold tools_of in Heq.
  apply pair_equal_spec in Heq as [Heq Hc]. apply pair_equal_spec in Heq as [Heq Hnr].
  apply pair_equal_spec in Heq as [Heq Hn]. apply pair_equal_spec in Heq as [Ho Hr].
  apply (tools_frames o x s s'); rewrite ?Hr, ?Hnr; auto. apply (ok_run _ _ H).
Qed.

Lemma tools_push o x s f :
  tools_ok o s → task_of f = None → Forall (λ y, no_tool y = true) x →
  tools_ok (o ++ x) (push_run f s).
Proof.
  intros H Hf Hx. apply (tools_frames o x s); try done; simpl.
  - intros n g [[<- _]|[_ Hg]]%lookup_insert_Some; [lia|]. apply (ok_run _ _ H) in Hg. lia.
  - intros n g r [[<- <-]|[_ Hg]]%lookup_insert_Some Ht; [by rewrite Hf in Ht|done].
Qed.

Lemma tools_drop o x s s1 n :
  tools_ok o s → tools_of s1 = tools_of s → Forall (λ y, no_tool y = true) x →
  tools_ok (o ++ x) (drop_run n s1).
Proof.
  intros H Heq Hx. unfold tools_of in Heq.
  apply pair_equal_spec in Heq as [Heq Hc]. apply pair_equal_spec in Heq as [Heq Hnr].
  apply pair_equal_spec in Heq as [Heq Hn]. apply pair_equal_spec in Heq as [Ho Hr].
  apply (tools_frames o x s); try done; simpl; rewrite Hr, ?Hnr.
  - intros m g [_ Hg]%lookup_delete_Some. by eapply ok_run.
  - by intros m g r [_ Hg]%lookup_delete_Some _.
Qed.

(** The only frame of its task: a task frame replaced, or ended. *)
Lemma tools_set o x s n f g :
  tools_ok o s → runs s !! n = Some g → task_of f = None → Forall (λ y, no_tool y = true) x →
  tools_ok (o ++ x) (set_run n f s).
Proof.
  intros H Hn Hf Hx. apply (tools_frames o x s); try done; simpl.
  - intros m h [[<- _]|[_ Hg]]%lookup_insert_Some; by eapply ok_run.
  - intros m h r [[<- <-]|[_ Hg]]%lookup_insert_Some Ht; [by rewrite Hf in Ht|done].
Qed.

Lemma tools_invoke o s n r :
  tools_ok o s → runs s !! n = Some (TaskCreated r) →
  tools_ok (o ++ [Invoke r]) (set_run n (TaskInvoked r) s).
Proof.
  intros H Hn. pose proof H as [H1 H2 H3 H4 H5 H6 H7 H8 H9 H10].
  destruct (H5 n _ r Hn eq_refl) as [res Hc].
  split; simpl; try done.
  - intros m f [[<- _]|[_ Hg]]%lookup_insert_Some; by eapply H2.
  - intros m f r' [[<- <-]|[_ Hg]]%lookup_insert_Some Ht; [|by eapply H5].
    injection Ht as <-. by exists res.
  - intros m m' f g r' [[<- <-]|[Hm Hf]]%lookup_insert_Some
      [[<- <-]|[Hm' Hg]]%lookup_insert_Some Ht1 Ht2; [done| | |by eapply H6].
    + by eapply (H6 n m' (TaskCreated r)).
    + by eapply (H6 m n f (TaskCreated r)).
  - intros m r' [[_ [=]]|[Hm Hf]]%lookup_insert_Some.
    rewrite count_app, (H7 m r' Hf). unfold count; simpl.
    destruct (Nat.eqb_spec r' r) as [->|]; [|done].
    by destruct Hm; eapply (H6 n m (TaskCreated r) (TaskCreated r)).
  - intros r'. destruct (H8 r') as [Ha Hb]. rewrite count_app. unfold count at 2 4; simpl.
    destruct (Nat.eqb_spec r' r) as [->|]; simpl; [|rewrite Nat.add_0_r; done].
    rewrite (H7 n r Hn). split; [done|]. intros _. by eapply H1.
  - intros r' [Hr|Hr]%elem_of_app; [by apply H9|]. by apply list_elem_of_singleton in Hr.
  - apply pinned_app; [done| |].
    + intros [r' Hr] r''. exfalso. by eapply (unknown_no_new o s n r' r).
    + intros [r' Hr]. by apply list_elem_of_singleton in Hr.
Qed.

(** The task of [r] ends with [res]; what it knew was pending. *)
Lemma tools_end o x s n f r res out s' :
  tools_ok o s → runs s !! n = Some f → task_of f = Some r →
  tools_of s' = tools_of (end_op r res (out) (drop_run n s)) →
  Forall (λ y, no_tool y = true ∨ y = RetainUnknown r ∧ unknown_result res = true) x →
  tools_ok (o ++ x) s'.
Proof.
  intros H Hn Hf Heq Hx. pose proof H as [H1 H2 H3 H4 H5 H6 H7 H8 H9 H10].
  destruct (H5 n _ r Hn Hf) as [res0 Hc]. pose proof (H4 _ _ Hc) as ->.
  assert (cores s' = <[r := (Finished out, res)]> (cores s)) as Hcs.
  { apply (f_equal snd) in Heq. change (cores s' = cores (end_op r res out (drop_run n s))) in Heq.
    rewrite Heq. apply map_eq. intros r'. unfold cores, end_op, update_op. simpl.
    rewrite lookup_fmap. destruct (decide (r = r')) as [<-|Hne].
    - rewrite lookup_alter_eq, lookup_insert_eq. unfold cores in Hc. rewrite lookup_fmap in Hc.
      destruct (ops s !! r) as [op|]; [|done]. injection Hc as Hc1 Hc2. simpl.
      unfold op_core; simpl. rewrite Hc2. by destruct res.
    - rewrite lookup_alter_ne, lookup_insert_ne by done. by rewrite lookup_fmap. }
  unfold tools_of in Heq. simpl in Heq.
  apply pair_equal_spec in Heq as [Heq _]. apply pair_equal_spec in Heq as [Heq Hnr].
  apply pair_equal_spec in Heq as [Heq Hnn]. apply pair_equal_spec in Heq as [Ho Hr].
  assert (∀ r', count (invokes r') x = 0%nat) as Hx0.
  { intros r'. apply count_zero. eapply Forall_impl; [exact Hx|]. by intros [] [|[? _]]. }
  assert (∀ r', RetainUnknown r' ∈ x → r' = r ∧ unknown_result res = true) as Hxr.
  { intros r' Hi. by destruct (proj1 (Forall_forall _ _) Hx _ Hi) as [|[[= ->] ?]]. }
  assert (∀ r', Invoke r' ∉ x) as Hxi.
  { intros r' Hi. by destruct (proj1 (Forall_forall _ _) Hx _ Hi) as [|[? _]]. }
  split; rewrite ?Hcs, ?Ho, ?Hr, ?Hnn, ?Hnr.
  - intros r' c [[<- _]|[_ Hl]]%lookup_insert_Some; by eapply H1.
  - intros m g [_ Hg]%lookup_delete_Some. by eapply H2.
  - intros r' t res' [[<- Hl]|[_ Hl]]%lookup_insert_Some Hcase; [|by eapply H3].
    by eapply H3; [exact Hc|left].
  - intros r' res' [[_ [=]]|[_ Hl]]%lookup_insert_Some. by eapply H4.
  - intros m g r' [Hm Hg]%lookup_delete_Some Ht. destruct (H5 m g r' Hg Ht) as [res' Hl].
    exists res'. rewrite lookup_insert_ne; [done|]. intros ->. apply Hm. by eapply (H6 n m f g).
  - intros m m' g g' r' [_ Hg]%lookup_delete_Some [_ Hg']%lookup_delete_Some. by eapply H6.
  - intros m r' [_ Hg]%lookup_delete_Some. rewrite count_app, Hx0, Nat.add_0_r. by eapply H7.
  - intros r'. rewrite count_app, Hx0, Nat.add_0_r. apply H8.
  - intros r' [Hi|Hi]%elem_of_app.
    + destruct (H9 r' Hi) as (t & res' & Hl & Hu). destruct (decide (r = r')) as [<-|Hne].
      * rewrite Hc in Hl. injection Hl as <- <-. done.
      * exists t, res'. by rewrite lookup_insert_ne.
    + destruct (Hxr r' Hi) as [-> Hu]. exists (Finished out), res. by rewrite lookup_insert_eq.
  - by apply pinned_app.
Qed.


Lemma tools_start o s a call :
  tools_ok o s →
  (∀ r t res, cores s !! r = Some (t, res) → t ≠ Running ∧ unknown_result res = false) →
  tools_ok o (start_op a call s).
Proof.
  intros H Hidle. unfold start_op. rewrite <-(app_nil_r o). apply tools_push; [|done|done].
  pose proof H as [H1 H2 H3 H4 H5 H6 H7 H8 H9 H10].
  assert (∀ n f r, runs s !! n = Some f → task_of f = Some r → False) as Hno.
  { intros n f r Hn Hf. destruct (H5 n f r Hn Hf) as [res Hc]. by destruct (Hidle _ _ _ Hc). }
  assert (∀ c, cores s !! next_ref s ≠ Some c) as Hfresh.
  { intros c Hc. apply H1 in Hc. lia. }
  split; unfold cores; simpl; rewrite ?fmap_insert; change (op_core <$> ops s) with (cores s).
  - intros r c [[<- _]|[_ Hc]]%lookup_insert_Some; [lia|]. apply H1 in Hc. lia.
  - intros n f [[<- _]|[_ Hf]]%lookup_insert_Some; [lia|]. apply H2 in Hf. lia.
  - intros r t res [[<- _]|[_ Hc]]%lookup_insert_Some Hcase; [done|].
    destruct (Hidle r t res Hc) as [Ha Hb]. destruct Hcase as [->|Hu]; [done|by rewrite Hu in Hb].
  - intros r res [[_ [=]]|[_ Hc]]%lookup_insert_Some; [done|by eapply H4].
  - intros n f r [[<- <-]|[_ Hf]]%lookup_insert_Some Ht; [|by destruct (Hno n f r)].
    injection Ht as <-. exists None. by rewrite lookup_insert_eq.
  - intros n m f g r [[<- <-]|[_ Hf]]%lookup_insert_Some [[<- <-]|[_ Hg]]%lookup_insert_Some Ht1 Ht2;
      [done|by destruct (Hno m g r)|by destruct (Hno n f r)..].
  - intros n r [[_ Hr]|[_ Hf]]%lookup_insert_Some; [|by destruct (Hno n _ r Hf)].
    injection Hr as <-. destruct (H8 (next_ref s)) as [_ Hb].
    destruct (count _ o); [done|]. specialize (Hb ltac:(done)). lia.
  - intros r. destruct (H8 r) as [Ha Hb]. split; [done|]. intros Hc. specialize (Hb Hc). lia.
  - intros r Hr. destruct (H9 r Hr) as (t & res & Hc & Hu).
    destruct (Hidle r t res Hc) as [_ Hb]. by rewrite Hu in Hb.
  - done.
Qed.

(** The engagement is idle when [run_tool] may start an operation. *)
Lemma tools_run_tool o s a call :
  enabled = true → tools_ok o s →
  tools_ok (o ++ (run_tool a call s).2) (run_tool a call s).1.
Proof.
  intros He H. unfold run_tool. rewrite He. simpl.
  assert (∀ r op, current s = Some op → cores s !! r = Some (op_core op) ∨ operation s ≠ Some r) as Hcur.
  { intros r op Hop. unfold current in Hop. destruct (operation s) as [r'|]; [|done].
    destruct (decide (r = r')) as [->|Hne]; [left|right; by intros [= ->]].
    simpl in Hop. unfold cores. rewrite lookup_fmap. by rewrite Hop. }
  assert (current s = None → ∀ r c, cores s !! r = Some c → operation s ≠ Some r) as Hnone.
  { unfold current. intros Hc r c Hr Ho. rewrite Ho in Hc. simpl in Hc. unfold cores in Hr.
    rewrite lookup_fmap, Hc in Hr. done. }
  assert (∀ r t res, cores s !! r = Some (t, res) → operation s ≠ Some r →
            t ≠ Running ∧ unknown_result res = false) as Hother.
  { intros r t res Hc Ho. pose proof (ok_current _ _ H r t res Hc) as Hx.
    split; [intros ->; by apply Ho, Hx; left|].
    destruct (unknown_result res) eqn:E; [|done]. exfalso. by apply Ho, Hx; right. }
  destruct (operation s) as [ref|] eqn:Eo.
  2: { rewrite app_nil_r. apply tools_start; [done|]. intros r t res Hc. by apply (Hother r). }
  destruct (current s) as [op|] eqn:Ec.
  2: { rewrite app_nil_r. apply tools_start; [done|]. intros r t res Hc.
       apply (Hother r); [done|]. by eapply Hnone. }
  destruct (unknown_result (op_result op)) eqn:Eu; [|destruct (op_running op) eqn:Er].
  - apply (tools_frames o _ s); try done; simpl.
    + intros n f Hf. apply (ok_run _ _ H) in Hf. lia.
    + by repeat constructor.
  - case_goal; simpl; [by apply tools_push|]. apply (tools_frames o _ s); try done; simpl.
    + intros n f Hf. apply (ok_run _ _ H) in Hf. lia.
    + by repeat constructor.
  - simpl. rewrite app_nil_r. apply tools_start; [done|]. intros r t res Hc.
    destruct (Hcur r op eq_refl) as [Hr|Hr]; [|by apply (Hother r)].
    rewrite Hc in Hr. injection Hr as -> ->. split; [|done].
    unfold op_running in Er. by destruct (op_task op).
Qed.

Lemma tools_resume_run o s n reply s' x :
  tools_ok o s → resume_run n reply s = Some (s', x) → tools_ok (o ++ x) s'.
Proof.
  intros H Hr. unfold resume_run in Hr. destruct (runs s !! n) as [f|] eqn:Hn; [|done].
  assert (∀ r a, tools_of (deliver r a s) = tools_of s) as Hdel.
  { intros r a. unfold deliver. case_goal; [by apply tools_update|done]. }
  assert (∀ r a, deliver r a (drop_run n s) = drop_run n (deliver r a s)) as Hcomm.
  { intros r a. unfold deliver. simpl. by case_goal. }
  destruct f as [call|r|r|r a|r a res].
  - injection Hr as <- <-. apply (tools_drop o _ s); [done|done|by repeat constructor].
  - destruct (ops s !! r) as [op|]; [|done]. destruct (op_cancelled op); injection Hr as <- <-.
    + by eapply (tools_end o [] s n (TaskCreated r) r None).
    + by apply tools_invoke.
  - destruct (ops s !! r) as [op|]; [|done]. apply (inj Some) in Hr.
    assert (∀ res out, tools_of (tool_finished (end_op r res out (drop_run n s)))
              = tools_of (end_op r res out (drop_run n s))) as Hfin.
    { intros. unfold tool_finished. by destruct (emitting _). }
    unfold execute_reply in Hr. repeat case_in Hr;
      (eapply (tools_end o _ s n (TaskInvoked r) r); [done|done|done|apply Hfin|]);
      first [by apply Forall_nil | apply Forall_singleton; by right].
  - repeat case_in Hr; try (apply (tools_drop o _ s); [done|done|by repeat constructor]).
    + by eapply tools_set.
    + rewrite Hcomm. apply (tools_drop o _ s); [done|apply Hdel|by repeat constructor].
  - destruct (deciding s); [done|]. injection Hr as <- <-. rewrite Hcomm.
    apply (tools_drop o _ s); [done|apply Hdel|by repeat constructor].
Qed.

(** The events of a call whose tools all go through [run_tool]. *)
Definition own (e : event) : bool :=
  match e with Register _ _ | FinishOperation _ | ExternalDone _ _ => false | _ => true end.

Lemma step_tools o s e s' x :
  0 < second → enabled = true → own e = true → since None o s → tools_ok o s →
  step s e = Some (s', x) → tools_ok (o ++ x) s'.
Proof.
  intros Hs Hen Hown Hsince H Hstep. destruct (decision_event e) eqn:He.
  { pose proof (decision_gated _ _ _ _ He Hstep) as Hg.
    assert (Forall (λ y, no_tool y = true) x) as Hx
      by (eapply Forall_impl; [exact Hg|]; by intros []).
    destruct e; try discriminate He; simpl in Hstep.
    - if_in Hstep; [|done]. injection Hstep as <- <-. apply (tools_same o [] s); [done| |done].
      unfold _loop. repeat case_match; done.
    - destruct (resume_out None o s reply (s', x)) as [(_ & Ht & _) _]; [done..|].
      by apply (tools_same o x s). }
  destruct e; try discriminate He; try discriminate Hown; simpl in Hstep.
  all: try (injection Hstep as <- <-; by apply (tools_same o [] s)).
  - if_in Hstep; [|done]. injection Hstep as <- <-. by apply (tools_same o [] s).
  - injection Hstep as <- <-. apply (tools_same o [] s); [done| |done].
    unfold caller_started. by case_goal.
  - injection Hstep as <- <-. apply (tools_same o [] s); [done| |done].
    unfold caller_final. by case_goal.
  - apply (inj Some) in Hstep. pose proof (tools_run_tool o s a call Hen H) as Hr.
    by rewrite Hstep in Hr.
  - by eapply tools_resume_run.
  - unfold abandon_run in Hstep.
    repeat case_in Hstep; try (apply (tools_drop o _ s); [done|done|by repeat constructor]).
    rewrite <-(app_nil_r (o ++ _)).
    apply (tools_same (o ++ [Return n (Raise CancelledError)]) [] (drop_run n s)); [|done|done].
    apply (tools_drop o _ s); [done|done|by repeat constructor].
  - injection Hstep as <- <-. apply (tools_same o [] s); [done| |done].
    unfold close. case_goal; [by rewrite tools_update|done].
Qed.

Lemma init_tools v t : tools_ok [] (init v t).
Proof. split; try done; simpl; intros; try set_solver; by rewrite ?lookup_empty in *. Qed.

Lemma init_since v t : since None [] (init v t).
Proof. apply since_fresh; [by right|done..]. Qed.

(** A tool is sent once, one at a time, and never after an unknown outcome.  In a
    call whose tools go through [run_tool], no operation's tool is invoked twice, no two
    operations are running, and once the reply of one was lost (its result is retained
    as unknown) nothing is ever sent again. *)
Theorem run_tool_sends_once (v : view) (t : Z) (es : list event) (s : engagement)
    (o : list effect) (Hsecond : 0 < second) (Hen : enabled = true)
    (Hown : Forall (λ e, own e = true) es) (Hrun : run step (init v t) es = Some (s, o)) :
  (∀ r, (count (invokes r) o ≤ 1)%nat)
  ∧ (∀ r1 r2 op1 op2, ops s !! r1 = Some op1 → ops s !! r2 = Some op2 →
       op_running op1 = true → op_running op2 = true → r1 = r2)
  ∧ (∀ i j r r', o !! i = Some (RetainUnknown r) → o !! j = Some (Invoke r') → (j < i)%nat).
Proof.
  destruct (run_guard_inv step (λ e, own e = true) (λ s o, since None o s ∧ tools_ok o s)
    (init v t) (conj (init_since v t) (init_tools v t))
    ltac:(intros s' o' e' s'' x He' [Hs Ht] Hst; split;
          [exact (step_since _ _ _ _ _ _ Hsecond Hs Hst)
          |exact (step_tools _ _ _ _ _ Hsecond Hen He' Hs Ht Hst)]) es s o Hown Hrun) as [_ H].
  split; [by apply (ok_sent _ _ H)|]. split; [|by apply (ok_pinned _ _ H)].
  intros r1 r2 op1 op2 H1 H2 Hr1 Hr2.
  assert (∀ r op, ops s !! r = Some op → op_running op = true → operation s = Some r) as Hcur.
  { intros r op Hop Hr. apply (ok_current _ _ H r (op_task op) (op_result op)).
    - unfold cores. by rewrite lookup_fmap, Hop.
    - left. unfold op_running in Hr. by destruct (op_task op). }
  pose proof (Hcur _ _ H1 Hr1) as Hc. rewrite (Hcur _ _ H2 Hr2) in Hc. by injection Hc.
Qed.
End engagement.

(** ** Concrete runs *)

(** Milliseconds; a check-in after 5 s, the end of the call 10 s later. *)
Definition example_config : engagement_config :=
  mkEngagementConfig true 2000 6000 5000 3 2 true 10000.

Definition example_view : view :=
  mkView None (λ _, mkAttempt false false) (lit "idle") false false false false false false true
    (lit "en").

Definition example_audio (len rate : Z) : Z := len * 1000 / (rate * 2).
Abbreviation example_step := (step true example_config 1000 example_audio) (only parsing).
Abbreviation example_init := (init example_config example_view 0) (only parsing).

(** The caller falls silent, is asked whether they are there, and the call ends. *)
Definition example_silence : list event :=
  [Advance 5000; LoopTick; ResumeDecision Sent;
   ResumeDecision (Output (jtext "{'speak': true, 'text': 'Are you there?', 'quiet': 'none'}"));
   ResumeDecision (Audio 24000 [[1; 2]]); ResumeDecision Sent; SetView example_view;
   PlaybackStopped; ResumeDecision Sent; Advance 10000; LoopTick; ResumeDecision Sent;
   ResumeDecision (Audio 24000 [[3; 4]]); ResumeDecision Sent; SetView example_view;
   PlaybackStopped; ResumeDecision Sent; ResumeDecision Sent].

Definition example_outs (es : list event) : option (list effect) := snd <$> run example_step example_init es.

Lemma example_first : ∃ s1, example_step example_init (CallerFinal (lit "hello")) = Some (s1, []).
Proof. eexists. reflexivity. Qed.

Lemma example_silence_outs :
  example_outs (CallerFinal (lit "hello") :: example_silence) =
  Some [Ask 1 Idle; Synthesize 1 (lit "Are you there?"); Chunk 1 Idle (lit "Are you there?") [1; 2];
        Spoken 1 Idle (lit "Are you there?");
        Synthesize 1 (lit "I haven't heard back, so I'll end the call for now. Goodbye.");
        Chunk 1 IdleClose (lit "I haven't heard back, so I'll end the call for now. Goodbye.") [3; 4];
        Spoken 1 IdleClose (lit "I haven't heard back, so I'll end the call for now. Goodbye.");
        EndCall].
Proof. vm_compute. reflexivity. Qed.

Definition example_s1 : engagement := caller_final true example_config (lit "hello") example_init.

(** The run after the caller's [hello], and what it did. *)
Lemma example_silence_run : ∃ s2 o2,
  run example_step example_s1 example_silence = Some (s2, o2) ∧ now s2 = 15000
  ∧ o2 = default [] (example_outs (CallerFinal (lit "hello") :: example_silence)).
Proof.
  assert (((λ r, (now r.1, r.2)) <$> run example_step example_s1 example_silence)
          = Some (15000, default [] (example_outs (CallerFinal (lit "hello") :: example_silence))))
    as H by (vm_compute; reflexivity).
  destruct (run example_step example_s1 example_silence) as [[s2 o2]|] eqn:Hrun; [|discriminate H].
  exists s2, o2. split; [reflexivity|]. apply (inj Some) in H. by apply pair_equal_spec in H.
Qed.

Lemma heard_after_interruption_witness : ∃ o2 : list effect,
  Synthesize 1 (lit "Are you there?") ∈ o2 ∧ (Idle ≠ IdleClose → Ask 1 Idle ∈ o2).
Proof.
  destruct example_silence_run as (s2 & o2 & Hrun & _ & Ho). exists o2.
  apply (heard_after_interruption true example_config 1000 example_audio
    example_init example_s1 s2 (CallerFinal (lit "hello")) example_silence [] o2 1 Idle
    (lit "Are you there?")).
  - lia.
  - reflexivity.
  - reflexivity.
  - exact Hrun.
  - left. rewrite Ho, example_silence_outs. cbn [default].
    apply list_elem_of_lookup. exists 3%nat. reflexivity.
Defined.

Lemma hangup_only_after_silence_witness : ∃ (s2 : engagement) (o2 : list effect),
  5000 < now s2 ∧ 10000 ≤ now s2 ∧ ∃ rev, Ask rev Idle ∈ o2.
Proof.
  destruct example_silence_run as (s2 & o2 & Hrun & Hn & Ho). exists s2, o2. split; [lia|].
  apply (hangup_only_after_silence true example_config 1000 example_audio
    example_init example_s1 s2 (CallerFinal (lit "hello")) example_silence [] o2).
  - lia.
  - reflexivity.
  - reflexivity.
  - exact Hrun.
  - rewrite Ho, example_silence_outs. cbn [default].
    apply list_elem_of_lookup. exists 7%nat. reflexivity.
Defined.

Lemma checkins_bounded_witness : ∃ o2 : list effect,
  count checkin o2 = 1%nat ∧ Z.of_nat (count checkin o2) ≤ Z.max 0 2.
Proof.
  destruct example_silence_run as (s2 & o2 & Hrun & _ & Ho). exists o2.
  split; [rewrite Ho, example_silence_outs; reflexivity|].
  apply (checkins_bounded true example_config 1000 example_audio
    example_init example_s1 s2 (CallerFinal (lit "hello")) example_silence [] o2).
  - lia.
  - reflexivity.
  - reflexivity.
  - unfold example_silence. repeat (apply Forall_cons_2; [reflexivity|]). apply Forall_nil_2.
  - exact Hrun.
Defined.

(** The step that sends the first chunk of the check-in. *)
Definition example_speaking : engagement :=
  default example_init (fst <$> run example_step example_s1 (take 4 example_silence)).

Lemma audio_only_when_safe_witness : ∃ s', speech_enabled true s' = true ∧ closed s' = false.
Proof.
  assert (snd <$> example_step example_speaking (ResumeDecision (Audio 24000 [[1; 2]]))
          = Some [Chunk 1 Idle (lit "Are you there?") [1; 2]]) as H by (vm_compute; reflexivity).
  destruct (example_step example_speaking (ResumeDecision (Audio 24000 [[1; 2]])))
    as [[s' o]|] eqn:Hs; [|discriminate H].
  exists s'. apply (inj Some) in H.
  destruct (audio_only_when_safe true example_config 1000 example_audio
    example_speaking s' (ResumeDecision (Audio 24000 [[1; 2]])) o 1 Idle (lit "Are you there?") [1; 2]
    Hs ltac:(change o with (snd (s', o)); rewrite H; by left)) as (_ & H1 & H2 & _). exact (conj H2 H1).
Defined.

(** A transfer whose reply is lost, asked for again. *)
Definition example_call : tool_call := mkCall (lit "call-1") (lit "transfer") [].

Definition example_lost : list event :=
  [RunTool 1 example_call; ResumeRun 0 (Raise HttpError); ResumeRun 0 (Raise HttpError);
   RunTool 1 example_call].

Lemma example_lost_outs :
  example_outs example_lost = Some [Invoke 0; RetainUnknown 0; Return 2 (Ok (DictResult unknown_outcome))].
Proof. vm_compute. reflexivity. Qed.

Lemma example_lost_run : ∃ s o, run example_step example_init example_lost = Some (s, o)
  ∧ count (invokes 0) o = 1%nat.
Proof.
  assert (((λ r, count (invokes 0) r.2) <$> run example_step example_init example_lost)
          = Some 1%nat) as H by (vm_compute; reflexivity).
  destruct (run example_step example_init example_lost) as [[s o]|] eqn:Hrun; [|discriminate H].
  exists s, o. split; [reflexivity|]. by apply (inj Some) in H.
Qed.

Lemma run_tool_sends_once_witness :
  ∃ o, count (invokes 0) o = 1%nat ∧ (count (invokes 0) o ≤ 1)%nat.
Proof.
  destruct example_lost_run as (s & o & Hrun & Ho). exists o. split; [exact Ho|].
  destruct (run_tool_sends_once true example_config 1000 example_audio
    example_view 0 example_lost s o ltac:(lia) eq_refl ltac:(by repeat constructor) Hrun) as [H1 _].
  apply H1.
Defined.

(** [register_operation] replaces an operation whose outcome is unknown: the tool is
    then sent again. *)
Lemma registered_operation_unpins :
  example_outs (example_lost ++ [Register 1 example_call; FinishOperation 1; RunTool 1 example_call;
                                 ResumeRun 3 (Raise HttpError)])
  = Some [Invoke 0; RetainUnknown 0; Return 2 (Ok (DictResult unknown_outcome)); Invoke 2].
Proof. vm_compute. reflexivity. Qed.

(** After a goodbye whose hang-up could not be sent, [emitting] stays set although
    nothing is being played. *)
Lemma emitting_survives_failed_hangup :
  (λ r, (emitting r.1, playing r.1, deciding r.1)) <$>
    run example_step example_s1 (take 17 example_silence ++ [ResumeDecision Failed])
  = Some (true, false, false).
Proof. vm_compute. reflexivity. Qed.
