(* ===== verification/ToolSchema.v ===== *)
(** * Strict tool schemas: agent/tool_schema_compat.py

    The schemas of the built-in tools, the rewriting that makes any JSON schema
    acceptable to a provider that wants closed objects ([strictify_schema_for_groq]),
    the check for it, and the normalisation of a model's loosely typed arguments. *)
From stdpp Require Import base list strings.
From Stdlib Require Import ZArith Lia.
From S2P Require Import Prelude Pystr Json JsonText.

(** ** The built-in schemas *)

(** The value of a JSON literal of the source. *)
Definition literal (s : String.string) : json :=
  match loads (jtext s) with Ok v => v | Raise _ => JNull end.

Definition PRICE_SNAPSHOT_SCHEMA : json := literal
  "{'type': 'object', 'additionalProperties': false,
    'properties': {
      'amount': {'type': 'number', 'description': 'Quoted price amount.'},
      'currency': {'type': 'string',
                   'description': 'Three-letter currency code, for example NGN or USD.'}},
    'required': ['amount', 'currency']}".

(** [{**d, k: v}] on a schema, and a schema one key deep. *)
Definition with_key (k : str) (v : json) (schema : json) : json :=
  match schema with JObj d => JObj (dset k v d) | _ => schema end.
Definition with_property (k : str) (v : json) (schema : json) : json :=
  match schema with
  | JObj d => with_key (lit "properties") (with_key k v d.[lit "properties"]) schema
  | _ => schema
  end.

Definition ORDER_ITEM_SCHEMA : json :=
  with_property (lit "price_snapshot") PRICE_SNAPSHOT_SCHEMA (literal
  "{'type': 'object', 'additionalProperties': false,
    'properties': {'item_name': {'type': 'string'}, 'quantity': {'type': 'integer'},
                   'price_snapshot': null},
    'required': ['item_name', 'quantity']}").

Definition raw_schema (name description : str) (parameters : json) : json :=
  JObj [(lit "name", JStr name); (lit "description", JStr description); (lit "parameters", parameters)].

Definition CREATE_BOOKING_RAW_SCHEMA : json := raw_schema (lit "create_booking")
  (lit "Create a hotel booking inside the platform for the current guest and business.")
  (with_property (lit "price_snapshot") PRICE_SNAPSHOT_SCHEMA (literal
  "{'type': 'object', 'additionalProperties': false,
    'properties': {
      'room_type': {'type': 'string'}, 'check_in_date': {'type': 'string'},
      'check_out_date': {'type': 'string'}, 'guest_count': {'type': 'integer'},
      'guest_name': {'type': 'string'}, 'special_requests': {'type': 'string'},
      'price_snapshot': null, 'customer_identifier': {'type': 'string'}},
    'required': ['room_type', 'check_in_date', 'check_out_date']}")).

Definition CREATE_ORDER_RAW_SCHEMA : json := raw_schema (lit "create_order")
  (lit "Create a restaurant or fashion order inside the platform for the current customer and business. If the customer orders multiple different items, use the items array. Each item should include item_name, quantity, and an optional price_snapshot with amount and currency.")
  (with_property (lit "price_snapshot") PRICE_SNAPSHOT_SCHEMA
  (with_property (lit "items")
    (JObj [(lit "type", JStr (lit "array")); (lit "items", ORDER_ITEM_SCHEMA)]) (literal
  "{'type': 'object', 'additionalProperties': false,
    'properties': {
      'item_name': {'type': 'string'}, 'quantity': {'type': 'integer'}, 'items': null,
      'customer_name': {'type': 'string'}, 'notes': {'type': 'string'},
      'price_snapshot': null, 'customer_identifier': {'type': 'string'}},
    'required': []}"))).

Definition SEARCH_BUSINESS_KNOWLEDGE_RAW_SCHEMA : json := raw_schema (lit "search_business_knowledge")
  (lit "Search the saved business knowledge base for policies, services, amenities, FAQs, and other documented facts before saying you do not know an answer.")
  (literal
  "{'type': 'object', 'additionalProperties': false,
    'properties': {'query': {'type': 'string'},
      'top_k': {'anyOf': [{'type': 'integer'}, {'type': 'string'}, {'type': 'null'}]}},
    'required': ['query']}").

Definition TRANSFER_TO_AICC_RAW_SCHEMA : json := raw_schema (lit "transfer_to_aicc")
  (lit "Transfer the current live call to the configured Huawei AICC human-agent route when the caller asks for a human or the AI cannot safely resolve the request.")
  (literal
  "{'type': 'object', 'additionalProperties': false,
    'properties': {'reason_summary': {'type': 'string'}}, 'required': []}").

(** ** Rewriting and checking *)

(** [str(schema.get("type") or "").strip().lower()] *)
Definition schema_type (d : dict) : str := py_lower (str_strip d.[lit "type"]).

Definition object_schema (d : dict) : bool :=
  (schema_type d =s lit "object") || is_dict d.[lit "properties"].

Definition composite_keys : list str := [lit "anyOf"; lit "oneOf"; lit "allOf"].

(** What the rewriting makes of the value under a key; the recursive calls are on the
    values inside it. *)
Fixpoint strictify_schema_for_groq (schema : json) : json :=
  match schema with
  | JArr l => JArr (map strictify_schema_for_groq l)
  | JObj d =>
      let out := map (λ kv : str * json, (kv.1,
        if kv.1 =s lit "properties" then
          match kv.2 with
          | JObj ps => JObj (map (λ p, (p.1, strictify_schema_for_groq p.2)) ps)
          | _ => kv.2
          end
        else if kv.1 =s lit "items" then
          if schema_type d =s lit "array" then strictify_schema_for_groq kv.2 else kv.2
        else if in_strs kv.1 composite_keys then
          match kv.2 with JArr l => JArr (map strictify_schema_for_groq l) | _ => kv.2 end
        else kv.2)) d in
      JObj (if object_schema d
            then dset (lit "additionalProperties") (JBool false)
                   (dset (lit "type") (JStr (lit "object")) out)
            else out)
  | v => v
  end.

Fixpoint _object_has_additional_properties_false (schema : json) : bool :=
  match schema with
  | JArr l => forallb _object_has_additional_properties_false l
  | JObj d =>
      (negb (object_schema d) || is_false d.[lit "additionalProperties"])
      && forallb (λ kv : str * json,
           if kv.1 =s lit "properties" then
             match kv.2 with
             | JObj ps => forallb (λ p, _object_has_additional_properties_false p.2) ps
             | _ => true
             end
           else if kv.1 =s lit "items" then _object_has_additional_properties_false kv.2
           else if in_strs kv.1 composite_keys then
             match kv.2 with
             | JArr l => forallb _object_has_additional_properties_false l
             | _ => true
             end
           else true) d
  | _ => true
  end.

(** ** Arguments *)

Definition normalize_price_snapshot (value : json) : json :=
  match value with
  | JObj _ => value
  | JStr s =>
      let raw := py_strip s in
      if raw =s [] then JNull
      else match loads raw with
           | Ok (JObj d) => JObj d
           | _ => JStr raw
           end
  | _ => JNull
  end.

Definition normalize_entry (entry : dict) : dict :=
  if dhas (lit "price_snapshot") entry
  then dset (lit "price_snapshot") (normalize_price_snapshot entry.[lit "price_snapshot"]) entry
  else entry.

Definition normalize_order_items (value : json) : option (list dict) :=
  match value with
  | JArr l =>
      match omap (λ item, match item with JObj d => Some (normalize_entry d) | _ => None end) l with
      | [] => None
      | normalized => Some normalized
      end
  | _ => None
  end.

(** An infinite float is an [OverflowError], which is not caught. *)
Definition normalize_top_k (value : json) (default_ maximum : Z) : exn Z :=
  let clamp n := Z.max 1 (Z.min n maximum) in
  match py_int (match value with JNull => JInt default_ | v => v end) with
  | Ok n => Ok (clamp n)
  | Raise (ValueError _ | TypeError) => Ok (clamp default_)
  | Raise e => Raise e
  end.

(** ** Strictness *)

(** The rewriting and the check, entry by entry. *)
Definition strict_entry (ty k : str) (v : json) : json :=
  if k =s lit "properties" then
    match v with
    | JObj ps => JObj (map (λ p, (p.1, strictify_schema_for_groq p.2)) ps)
    | _ => v
    end
  else if k =s lit "items" then
    if ty =s lit "array" then strictify_schema_for_groq v else v
  else if in_strs k composite_keys then
    match v with JArr l => JArr (map strictify_schema_for_groq l) | _ => v end
  else v.

Definition strict_entries (d : dict) : dict :=
  map (λ kv, (kv.1, strict_entry (schema_type d) kv.1 kv.2)) d.

Definition sub_ok (f : json → bool) (array : bool) (k : str) (v : json) : bool :=
  if k =s lit "properties" then
    match v with JObj ps => forallb (λ p, f p.2) ps | _ => true end
  else if k =s lit "items" then
    if array then f v else _object_has_additional_properties_false v
  else if in_strs k composite_keys then
    match v with JArr l => forallb f l | _ => true end
  else true.

Lemma strictify_obj d :
  strictify_schema_for_groq (JObj d) =
  JObj (if object_schema d
        then dset (lit "additionalProperties") (JBool false)
               (dset (lit "type") (JStr (lit "object")) (strict_entries d))
        else strict_entries d).
Proof. reflexivity. Qed.

Lemma check_obj d :
  _object_has_additional_properties_false (JObj d) =
  (negb (object_schema d) || is_false d.[lit "additionalProperties"])
  && forallb (λ kv, sub_ok _object_has_additional_properties_false true kv.1 kv.2) d.
Proof. reflexivity. Qed.

(** The schemas whose [items] are in arrays, as JSON schema has them. *)
Fixpoint items_in_arrays (schema : json) : bool :=
  match schema with
  | JArr l => forallb items_in_arrays l
  | JObj d => forallb (λ kv : str * json,
      if kv.1 =s lit "properties" then
        match kv.2 with JObj ps => forallb (λ p, items_in_arrays p.2) ps | _ => true end
      else if kv.1 =s lit "items" then
        if schema_type d =s lit "array" then items_in_arrays kv.2
        else _object_has_additional_properties_false kv.2
      else if in_strs kv.1 composite_keys then
        match kv.2 with JArr l => forallb items_in_arrays l | _ => true end
      else true) d
  | _ => true
  end.

Lemma items_obj d :
  items_in_arrays (JObj d) =
  forallb (λ kv, sub_ok items_in_arrays (schema_type d =s lit "array") kv.1 kv.2) d.
Proof. reflexivity. Qed.

Lemma dget_entries (g : str → json → json) k d :
  dget k (map (λ kv, (kv.1, g kv.1 kv.2)) d) = g k <$> dget k d.
Proof.
  induction d as [|[k' v] d IH]; simpl; [done|]. destruct (k =s k') eqn:E; [|done].
  by apply str_eqb_true in E as ->.
Qed.

Lemma entries_type d : schema_type (strict_entries d) = schema_type d.
Proof.
  unfold schema_type, dget_or_none, strict_entries. rewrite dget_entries.
  by destruct (dget (lit "type") d).
Qed.

Lemma entries_object d : object_schema (strict_entries d) = object_schema d.
Proof.
  unfold object_schema. rewrite entries_type. f_equal. unfold dget_or_none, strict_entries.
  rewrite dget_entries. by destruct (dget (lit "properties") d) as [[]|].
Qed.

(** The entries of a rewritten object: the two forced ones and the rewritten rest. *)
Lemma strictified_entry d k v :
  (k, v) ∈ (if object_schema d
            then dset (lit "additionalProperties") (JBool false)
                   (dset (lit "type") (JStr (lit "object")) (strict_entries d))
            else strict_entries d) →
  (k = lit "additionalProperties" ∧ v = JBool false) ∨ (k = lit "type" ∧ v = JStr (lit "object"))
  ∨ ∃ w, (k, w) ∈ d ∧ v = strict_entry (schema_type d) k w.
Proof.
  assert ((k, v) ∈ strict_entries d → ∃ w, (k, w) ∈ d ∧ v = strict_entry (schema_type d) k w) as He.
  { intros ([k' w] & Heq & Hin)%list_elem_of_fmap. simpl in Heq. exists w. by simplify_eq. }
  destruct (object_schema d); [|auto].
  intros [H|[H|H]%elem_of_dset]%elem_of_dset; auto.
Qed.

(** What holds of every value inside an entry. *)
Definition inside (P : json → Prop) (k : str) (v : json) : Prop :=
  P v ∧ match v with
        | JObj ps => Forall (λ p, P p.2) ps
        | JArr l => Forall P l
        | _ => True
        end.

Lemma forallb_mono {A} (f g : A → bool) l :
  Forall (λ x, f x = true → g x = true) l → forallb f l = true → forallb g l = true.
Proof. induction 1; simpl; [done|]. rewrite !andb_true_iff. naive_solver. Qed.

Lemma forallb_map {A B} (f : B → bool) (g : A → B) l :
  forallb f (map g l) = forallb (λ x, f (g x)) l.
Proof. induction l; simpl; congruence. Qed.

Definition accepted (v : json) : Prop :=
  items_in_arrays v = true →
  _object_has_additional_properties_false (strictify_schema_for_groq v) = true.

Definition settled (v : json) : Prop :=
  strictify_schema_for_groq (strictify_schema_for_groq v) = strictify_schema_for_groq v.

(** One entry of a rewritten object is accepted. *)
Lemma strict_entry_ok ty k w :
  inside accepted k w → sub_ok items_in_arrays (ty =s lit "array") k w = true →
  sub_ok _object_has_additional_properties_false true k (strict_entry ty k w) = true.
Proof.
  unfold sub_ok, strict_entry. intros [Hw Hin].
  destruct (k =s lit "properties").
  - destruct w; try done. rewrite forallb_map. by apply forallb_mono.
  - destruct (k =s lit "items"); [by destruct (ty =s lit "array")|].
    destruct (in_strs k composite_keys); [|done]. by destruct w.
Qed.

(** Rewriting it again, under the type the object then has, changes nothing. *)
Lemma strict_entry_settled ty ty' k w :
  inside settled k w → (ty' = ty ∨ ty' = lit "object") →
  strict_entry ty' k (strict_entry ty k w) = strict_entry ty k w.
Proof.
  unfold strict_entry. intros [Hw Hin] Hty.
  destruct (k =s lit "properties").
  - destruct w; try done. f_equal. rewrite map_map. apply map_ext_Forall.
    eapply Forall_impl; [exact Hin|]. intros [k' v'] Hv. simpl in *. by rewrite Hv.
  - destruct (k =s lit "items").
    + destruct (ty =s lit "array") eqn:Et.
      * by destruct (ty' =s lit "array").
      * destruct Hty as [->| ->]; [by rewrite Et|done].
    + destruct (in_strs k composite_keys); [|done]. by destruct w.
Qed.

Lemma json_inside (P : json → Prop) :
  P JNull → (∀ b, P (JBool b)) → (∀ n, P (JInt n)) → (∀ r, P (JFloat r)) → (∀ s, P (JStr s)) →
  (∀ l, Forall P l → P (JArr l)) →
  (∀ d, Forall (λ kv, inside P kv.1 kv.2) d → P (JObj d)) → ∀ v, P v.
Proof.
  intros Hn Hb Hi Hf Hs Ha Ho v.
  enough (∀ k, inside P k v) as H by apply (H []).
  apply (json_nested_ind (λ v, ∀ k, inside P k v)); clear v; try (intros; split; auto; done).
  - intros l Hl k.
    assert (Forall P l) by (eapply Forall_impl; [exact Hl|]; intros x Hx; apply (Hx [])).
    split; auto.
  - intros d Hd k. split.
    + apply Ho. eapply Forall_impl; [exact Hd|]. intros x Hx. apply Hx.
    + eapply Forall_impl; [exact Hd|]. intros x Hx. apply (Hx []).
Qed.

Lemma strictify_accepted v : accepted v.
Proof.
  induction v using json_inside; try done.
  - unfold accepted. simpl. rewrite forallb_map. by apply forallb_mono.
  - unfold accepted. rewrite items_obj, strictify_obj, check_obj. intros Hit.
    apply andb_true_iff. split.
    + destruct (object_schema d) eqn:Eo; [|by rewrite entries_object, Eo].
      by rewrite dget_or_none_dset_eq, orb_true_r.
    + apply forallb_elem_of. intros [k v]
        [[-> ->]|[[-> ->]|(w & Hw & ->)]]%strictified_entry; [done|done|].
      apply strict_entry_ok.
      * by apply (proj1 (Forall_forall _ _) H (k, w)).
      * by apply (proj1 (forallb_elem_of _ _) Hit (k, w)).
Qed.

Lemma strictify_settled v : settled v.
Proof.
  induction v using json_inside; try done.
  - unfold settled. simpl. f_equal. rewrite map_map. by apply map_ext_Forall.
  - unfold settled. rewrite strictify_obj.
    set (d2 := if object_schema d then _ else _). rewrite strictify_obj. f_equal.
    assert (schema_type d2 = schema_type d ∨ schema_type d2 = lit "object") as Hty.
    { unfold d2. destruct (object_schema d); [right|left; apply entries_type].
      unfold schema_type. by rewrite dget_or_none_dset_ne, dget_or_none_dset_eq. }
    assert (strict_entries d2 = d2) as ->.
    { unfold strict_entries. apply list_eq_Forall2, Forall2_fmap_l, Forall_Forall2_diag, Forall_forall.
      intros [k v] [[-> ->]|[[-> ->]|(w & Hw & ->)]]%strictified_entry; [done|done|].
      simpl. f_equal. apply strict_entry_settled; [|done].
      by apply (proj1 (Forall_forall _ _) H (k, w)). }
    destruct (object_schema d2) eqn:Eo2; [|done].
    assert (object_schema d = true) as Eo.
    { destruct (object_schema d) eqn:E; [done|]. unfold d2 in Eo2.
      by rewrite entries_object, E in Eo2. }
    unfold d2. rewrite Eo.
    rewrite (dset_id (lit "type")).
    + apply dset_id. apply dget_dset_eq.
    + by rewrite dget_dset_ne, dget_dset_eq.
Qed.

(** ** Properties *)

(** C39: the rewriting delivers what the provider's check asks for.  A schema whose
    [items] belong to arrays is accepted once rewritten, and rewriting again changes
    nothing; so is every built-in schema as it stands. *)
Theorem strictify_sound (schema : json) (Hitems : items_in_arrays schema = true) :
  _object_has_additional_properties_false (strictify_schema_for_groq schema) = true
  ∧ strictify_schema_for_groq (strictify_schema_for_groq schema) = strictify_schema_for_groq schema
  ∧ forallb _object_has_additional_properties_false
      [PRICE_SNAPSHOT_SCHEMA; ORDER_ITEM_SCHEMA; CREATE_BOOKING_RAW_SCHEMA;
       CREATE_ORDER_RAW_SCHEMA; SEARCH_BUSINESS_KNOWLEDGE_RAW_SCHEMA;
       TRANSFER_TO_AICC_RAW_SCHEMA] = true.
Proof.
  split; [by apply strictify_accepted|]. split; [apply strictify_settled|].
  vm_compute. reflexivity.
Qed.

Lemma strictify_sound_witness :
  _object_has_additional_properties_false
    (strictify_schema_for_groq (literal "{'type': 'array', 'items': {'properties': {'a': {}}}}")) = true.
Proof.
  apply (strictify_sound (literal "{'type': 'array', 'items': {'properties': {'a': {}}}}")).
  vm_compute. reflexivity.
Defined.

(** [items] under a type that is not the plain string [array] are not rewritten,
    although the check looks into them. *)
Lemma nullable_array_items_stay_open :
  _object_has_additional_properties_false (strictify_schema_for_groq
    (literal "{'type': ['array', 'null'], 'items': {'type': 'object'}}")) = false.
Proof. vm_compute. reflexivity. Qed.

Lemma price_snapshot_settled v :
  normalize_price_snapshot (normalize_price_snapshot v) = normalize_price_snapshot v.
Proof.
  destruct v; try done. simpl. destruct (py_strip s =s []) eqn:E; [done|].
  assert (normalize_price_snapshot (JStr (py_strip s)) = match loads (py_strip s) with
            | Ok (JObj d) => JObj d | _ => JStr (py_strip s) end) as H.
  { simpl. by rewrite py_strip_idem, E. }
  by destruct (loads (py_strip s)) as [[]|].
Qed.

Lemma normalize_entry_settled d : normalize_entry (normalize_entry d) = normalize_entry d.
Proof.
  unfold normalize_entry. destruct (dhas (lit "price_snapshot") d) eqn:E; [|by rewrite E].
  assert (dhas (lit "price_snapshot") (dset (lit "price_snapshot")
    (normalize_price_snapshot d.[lit "price_snapshot"]) d) = true) as ->.
  { apply dhas_true, elem_of_dkeys_dset. by left. }
  rewrite dget_or_none_dset_eq, price_snapshot_settled. apply dset_id, dget_dset_eq.
Qed.

Lemma entry_snapshot d v :
  dget (lit "price_snapshot") (normalize_entry d) = Some v →
  v = JNull ∨ is_dict v = true ∨ ∃ s, v = JStr s ∧ s ≠ [].
Proof.
  unfold normalize_entry. destruct (dhas (lit "price_snapshot") d) eqn:E.
  - rewrite dget_dset_eq. intros [= <-].
    destruct d.[lit "price_snapshot"] as [| | | |s| |]; auto. simpl.
    destruct (py_strip s =s []) eqn:Es; [auto|].
    apply str_eqb_false in Es. destruct (loads (py_strip s)) as [[]|]; eauto.
  - intros H. assert (is_Some (dget (lit "price_snapshot") d)) as Hs%dget_is_Some by by eexists.
    apply dhas_true in Hs. by rewrite Hs in E.
Qed.

(** An order that was normalised is a fixed point: it has items, each a dictionary
    whose price snapshot, if any, is a dictionary, a non-empty text or [None]; and it
    normalises to itself.  [top_k] is always within its bounds, unless the model sends
    an infinite float. *)
Theorem order_arguments_normal (value : json) (items : list dict) (k : json)
    (default_ maximum : Z) (Hitems : normalize_order_items value = Some items)
    (Hmax : 1 ≤ maximum) (Hk : k ≠ JFloat (lit "inf") ∧ k ≠ JFloat (lit "-inf")) :
  items ≠ []
  ∧ Forall (λ d, ∀ v, dget (lit "price_snapshot") d = Some v →
      v = JNull ∨ is_dict v = true ∨ ∃ s, v = JStr s ∧ s ≠ []) items
  ∧ normalize_order_items (JArr (map JObj items)) = Some items
  ∧ ∃ n, normalize_top_k k default_ maximum = Ok n ∧ 1 ≤ n ≤ maximum.
Proof.
  destruct value as [| | | | |l|]; try done. simpl in Hitems.
  set (f := λ item, match item with JObj d => Some (normalize_entry d) | _ => None end) in Hitems.
  assert (items = omap f l ∧ items ≠ []) as [Hi Hne] by (by destruct (omap f l); simplify_eq).
  assert (Forall (λ d, ∃ d0, d = normalize_entry d0) items) as Hn.
  { subst. apply Forall_forall. intros d (x & Hx & Hf)%list_elem_of_omap.
    destruct x; simplify_eq/=. by eexists. }
  split; [done|]. split; [|split].
  - eapply Forall_impl; [exact Hn|]. intros d [d0 ->] v Hv. by eapply entry_snapshot.
  - simpl. replace (omap _ (map JObj items)) with items; [by destruct items|].
    clear Hitems Hi Hne. induction Hn as [|d items [d0 ->] _ IH]; [done|].
    cbn. rewrite normalize_entry_settled. f_equal. exact IH.
  - unfold normalize_top_k. destruct (py_int _) as [n|e] eqn:E; [eexists; split; [done|lia]|].
    assert ((∃ m, e = ValueError m) ∨ e = TypeError) as [[m ->] | ->];
      [|eexists; split; [done|lia]..].
    destruct k as [| | |r|s| |]; simpl in E; try discriminate E; try (injection E as <-; by right).
    + destruct (in_strs r _) eqn:Hr.
      * rewrite in_strs_true in Hr. exfalso. rewrite !elem_of_cons in Hr.
        destruct Hr as [->|[->|Hr]]; [by destruct Hk..|by apply not_elem_of_nil in Hr].
      * destruct (trunc_float r); [discriminate E|]. injection E as <-. left. by eexists.
    + destruct (int_of_str s); [discriminate E|]. injection E as <-. left. by eexists.
Qed.

Lemma order_arguments_normal_witness :
  normalize_order_items (JArr [JNull; literal "{'item_name': 'rice', 'price_snapshot': ' 500 naira '}"])
    = Some [[(lit "item_name", JStr (lit "rice")); (lit "price_snapshot", JStr (lit "500 naira"))]]
  ∧ ∃ n, normalize_top_k (JStr (lit "99")) 4 6 = Ok n ∧ 1 ≤ n ≤ 6.
Proof.
  split; [vm_compute; reflexivity|].
  apply (order_arguments_normal
    (JArr [JNull; literal "{'item_name': 'rice', 'price_snapshot': ' 500 naira '}"])
    [[(lit "item_name", JStr (lit "rice")); (lit "price_snapshot", JStr (lit "500 naira"))]]
    (JStr (lit "99")) 4 6).
  - vm_compute. reflexivity.
  - lia.
  - split; discriminate.
Defined.
