(* ===== verification/Usage.v ===== *)
(** * Usage observations: latency_lab/usage.py

    [UsageCollector] counts what a session consumed; [UsageReporter] sends cumulative
    snapshots of it, one request at a time, and twice at most when the session closes.
    The reporter is a machine (Prelude.v); observations arrive between its steps.  The
    collector's [stt_seconds] is kept in bytes of PCM (32000 to the second): the float
    and its rounding are not modelled. *)
From stdpp Require Import base list strings.
From Stdlib Require Import ZArith Lia.
From S2P Require Import Prelude Pystr Json.

(** ** UsageCollector *)

(** The tokens of one request, by field. *)
Abbreviation tokens_of := (list (str * Z)) (only parsing).

(** [llm_requests[i + 1]] is the [i]th element: ids are handed out in order. *)
Record collector := mkCollector {
  revision : Z;
  llm_requests : list tokens_of;
  stt_bytes : Z;
  tts_characters : Z;
}.

Definition collector_init : collector := mkCollector 0 [] 0 0.

Definition llm_started (c : collector) : collector * nat :=
  (mkCollector (revision c + 1) (llm_requests c ++ [[]]) (stt_bytes c) (tts_characters c),
   S (length (llm_requests c))).

(** [isinstance(value, int) and not isinstance(value, bool) and value >= 0] *)
Definition token_count (v : json) : option Z :=
  match v with JInt n => if 0 <=? n then Some n else None | _ => None end.

Definition token_fields : list str :=
  [lit "llm_input_tokens"; lit "llm_output_tokens"; lit "llm_cached_tokens"].

(** What a provider's report says of a field. *)
Definition reported (field : str) (usage : dict) : option Z :=
  let details := jor usage.[lit "prompt_tokens_details"] (JObj []) in
  token_count
    (if field =s lit "llm_input_tokens" then usage.[lit "prompt_tokens"]
     else if field =s lit "llm_output_tokens" then usage.[lit "completion_tokens"]
     else match details with JObj d => d.[lit "cached_tokens"] | _ => JNull end).

Definition usage_values (usage : dict) : tokens_of :=
  omap (λ f, pair f <$> reported f usage) token_fields.

Definition llm_usage (request_id : nat) (usage : json) (c : collector) : collector :=
  match usage, request_id with
  | JObj u, S i =>
      match llm_requests c !! i with
      | None => c
      | Some r => mkCollector (revision c + 1) (<[i := dupdate r (usage_values u)]> (llm_requests c))
                    (stt_bytes c) (tts_characters c)
      end
  | _, _ => c
  end.

Definition stt_submitted (pcm_bytes : Z) (c : collector) : collector :=
  mkCollector (revision c + 1) (llm_requests c) (stt_bytes c + pcm_bytes) (tts_characters c).

Definition tts_accepted (text : str) (c : collector) : collector :=
  mkCollector (revision c + 1) (llm_requests c) (stt_bytes c) (tts_characters c + slen text).

Inductive measurement : Type := Recorded | Partial | Unavailable.

Record usage_snapshot := mkSnapshot {
  snap_revision : Z;
  snap_final : bool;
  snap_stt_bytes : Z;
  snap_tts_characters : Z;
  snap_tokens : list (str * option Z);
  snap_status : list (str * measurement);
  snap_requests : nat;
}.

Definition observed (field : str) (c : collector) : list Z := omap (dget field) (llm_requests c).

Definition Zsum : list Z → Z := foldr Z.add 0.

Definition field_total (c : collector) (field : str) : option Z :=
  if bool_decide (observed field c ≠ []) || bool_decide (llm_requests c = [])
  then Some (Zsum (observed field c)) else None.

Definition field_status (c : collector) (field : str) : measurement :=
  if (length (observed field c) =? length (llm_requests c))%nat then Recorded
  else if bool_decide (observed field c ≠ []) then Partial else Unavailable.

Definition snapshot (final : bool) (c : collector) : usage_snapshot :=
  mkSnapshot (revision c + if final then 1 else 0) final (stt_bytes c) (tts_characters c)
    (map (λ f, (f, field_total c f)) token_fields)
    ([(lit "stt_seconds", Recorded); (lit "tts_characters", Recorded)]
     ++ map (λ f, (f, field_status c f)) token_fields)
    (length (llm_requests c)).

(** ** UsageReporter *)

(** The reporter's task, or its [close]: [Closing n] is the [n]th of the two rounds. *)
Inductive phase : Type :=
| Unstarted
| Sleeping
| Posting (rev : Z)
| Closing (n : nat) (rev : Z)
| Closed.

Record reporter := mkReporter {
  collected : collector;
  session_id : str;
  last_revision : Z;
  task : phase;
}.

Definition reporter_init : reporter := mkReporter collector_init [] (-1) Unstarted.

Inductive observation : Type :=
| LlmStarted
| LlmUsage (request_id : nat) (usage : json)
| SttSubmitted (pcm_bytes : Z)
| TtsAccepted (text : str).

Definition observe (o : observation) (c : collector) : collector :=
  match o with
  | LlmStarted => fst (llm_started c)
  | LlmUsage i u => llm_usage i u c
  | SttSubmitted n => stt_submitted n c
  | TtsAccepted t => tts_accepted t c
  end.

Inductive usage_event : Type :=
| Observe (o : observation)
| SetSession (id : str)
| Start
| Interval
| Reply (accepted : bool)
| CloseReporter.

Inductive usage_effect : Type :=
| PostUsage (session : str) (snap : usage_snapshot)
| Persisted (rev : Z).

Section reporter.
Context (billing_service_base_url billing_service_token : str).

Definition configured : bool :=
  negb (billing_service_base_url =s []) && negb (billing_service_token =s []).

Definition set_task (t : phase) (s : reporter) : reporter :=
  mkReporter (collected s) (session_id s) (last_revision s) t.

(** [flush] up to its request: [None] when it returns at once. *)
Definition flush (final : bool) (s : reporter) : option usage_snapshot :=
  if (session_id s =s []) || negb configured then None
  else
    let snap := snapshot final (collected s) in
    if negb final && (snap_revision snap =? last_revision s) then None else Some snap.

(** The rounds of [close] from the [n]th on; [fuel] bounds those that return at once. *)
Fixpoint close_round (fuel n : nat) (s : reporter) : reporter * list usage_effect :=
  match fuel with
  | O => (set_task Closed s, [])
  | S fuel =>
      match flush true s with
      | Some snap => (set_task (Closing n (snap_revision snap)) s, [PostUsage (session_id s) snap])
      | None =>
          if (last_revision s =? snap_revision (snapshot true (collected s))) then
            (set_task Closed s, [])
          else close_round fuel (S n) s
      end
  end.

Definition persisted (rev : Z) (s : reporter) : reporter :=
  mkReporter (collected s) (session_id s) rev (task s).

Definition usage_step (s : reporter) (e : usage_event) : option (reporter * list usage_effect) :=
  match e with
  | Observe o => Some (mkReporter (observe o (collected s)) (session_id s) (last_revision s) (task s), [])
  | SetSession id => Some (mkReporter (collected s) id (last_revision s) (task s), [])
  | Start =>
      match task s with
      | Unstarted => Some (if configured then set_task Sleeping s else s, [])
      | _ => None
      end
  | Interval =>
      match task s with
      | Sleeping =>
          match flush false s with
          | Some snap => Some (set_task (Posting (snap_revision snap)) s, [PostUsage (session_id s) snap])
          | None => Some (s, [])
          end
      | _ => None
      end
  | Reply accepted =>
      match task s with
      | Posting rev =>
          if accepted then Some (set_task Sleeping (persisted rev s), [Persisted rev])
          else Some (set_task Sleeping s, [])
      | Closing n rev =>
          let s1 := if accepted then persisted rev s else s in
          let '(s2, o) :=
            if last_revision s1 =? snap_revision (snapshot true (collected s1))
            then (set_task Closed s1, [])
            else close_round (1 - n) (S n) s1 in
          Some (s2, (if accepted then [Persisted rev] else []) ++ o)
      | _ => None
      end
  | CloseReporter =>
      match task s with
      | Unstarted | Sleeping | Posting _ => Some (close_round 2 0 s)
      | _ => None
      end
  end.
End reporter.

(** ** The snapshot as a function of what was observed *)

Definition or_else {A} (x y : option A) : option A := match x with Some v => Some v | None => y end.

(** The last value reported for a field of request [i], scanning forwards; a report for
    an id not handed out yet counts for nothing. *)
Fixpoint last_report (i started : nat) (field : str) (os : list observation) : option Z :=
  match os with
  | [] => None
  | LlmStarted :: os => last_report i (S started) field os
  | LlmUsage j (JObj u) :: os =>
      or_else (last_report i started field os)
        (if bool_decide (j = i) && bool_decide (1 ≤ i ≤ started)%nat then reported field u else None)
  | _ :: os => last_report i started field os
  end.

Definition started (os : list observation) : nat :=
  count (λ o, match o with LlmStarted => true | _ => false end) os.

Definition spec_observed (field : str) (os : list observation) : list Z :=
  omap (λ i, last_report i 0 field os) (seq 1 (started os)).

Definition observe_all (os : list observation) (c : collector) : collector :=
  foldl (λ c o, observe o c) c os.

Definition put (k : str) (v : option Z) (d : tokens_of) : tokens_of :=
  match v with Some v => dset k v d | None => d end.

Lemma dget_put k k' v d : dget k (put k' v d) = if k =s k' then or_else v (dget k d) else dget k d.
Proof.
  unfold put. destruct v as [v|]; [|by destruct (k =s k')]. destruct (k =s k') eqn:E.
  - apply str_eqb_true in E as ->. by rewrite dget_dset_eq.
  - apply str_eqb_false in E. by rewrite dget_dset_ne.
Qed.

Lemma dupdate_put r u :
  dupdate r (usage_values u) =
  put (lit "llm_cached_tokens") (reported (lit "llm_cached_tokens") u)
    (put (lit "llm_output_tokens") (reported (lit "llm_output_tokens") u)
      (put (lit "llm_input_tokens") (reported (lit "llm_input_tokens") u) r)).
Proof.
  unfold usage_values, token_fields. cbn [omap list_omap].
  destruct (reported (lit "llm_input_tokens") u), (reported (lit "llm_output_tokens") u),
    (reported (lit "llm_cached_tokens") u); reflexivity.
Qed.

Lemma dget_update_values f r u :
  f ∈ token_fields → dget f (dupdate r (usage_values u)) = or_else (reported f u) (dget f r).
Proof.
  intros Hf. rewrite dupdate_put, !dget_put. unfold token_fields in Hf.
  rewrite !elem_of_cons in Hf. destruct Hf as [->|[->|[->|Hf]]]; [| | |by apply not_elem_of_nil in Hf].
  - change (lit "llm_input_tokens" =s lit "llm_cached_tokens") with false.
    change (lit "llm_input_tokens" =s lit "llm_output_tokens") with false.
    by rewrite str_eqb_refl.
  - change (lit "llm_output_tokens" =s lit "llm_cached_tokens") with false.
    change (lit "llm_output_tokens" =s lit "llm_input_tokens") with false.
    by rewrite str_eqb_refl.
  - change (lit "llm_cached_tokens" =s lit "llm_output_tokens") with false.
    change (lit "llm_cached_tokens" =s lit "llm_input_tokens") with false.
    by rewrite str_eqb_refl.
Qed.

Lemma or_else_assoc {A} (x y z : option A) : or_else (or_else x y) z = or_else x (or_else y z).
Proof. by destruct x. Qed.

(** What request [i] holds after more observations. *)
Definition held (f : str) (i : nat) (c : collector) : option Z :=
  llm_requests c !! (i - 1)%nat ≫= dget f.

Lemma observe_all_held os c f i :
  f ∈ token_fields → (1 ≤ i)%nat →
  held f i (observe_all os c) = or_else (last_report i (length (llm_requests c)) f os) (held f i c)
  ∧ length (llm_requests (observe_all os c)) = (length (llm_requests c) + started os)%nat.
Proof.
  intros Hf Hi. revert c. induction os as [|o os IH]; intros c; [split; [done|unfold started, count; simpl; lia]|].
  change (observe_all (o :: os) c) with (observe_all os (observe o c)).
  destruct (IH (observe o c)) as [IH1 IH2]. rewrite IH1, IH2.
  unfold started in *. rewrite count_cons. destruct o as [|j u|n|t].
  - simpl. rewrite length_app. simpl. rewrite Nat.add_1_r. split; [|lia]. f_equal.
    unfold held. simpl. destruct (decide (i - 1 < length (llm_requests c))%nat) as [Hlt|Hge].
    + by rewrite lookup_app_l.
    + rewrite (lookup_ge_None_2 (llm_requests c) (i - 1)) by lia. rewrite lookup_app_r by lia.
      by destruct (i - 1 - length (llm_requests c))%nat as [|[|k]].
  - split; [|by destruct u; try done; destruct j; [done|]; simpl; case_goal; simpl;
             rewrite ?length_insert].
    destruct u as [| | | | | |u]; try done. simpl last_report. rewrite or_else_assoc.
    destruct j as [|j]; [by rewrite bool_decide_eq_false_2 by lia|].
    destruct (llm_requests c !! j) as [r|] eqn:Hr; simpl; rewrite Hr.
    + apply lookup_lt_Some in Hr as Hlt. simpl. rewrite length_insert. f_equal.
      unfold held. simpl. destruct (decide (S j = i)) as [<-|Hne].
      * rewrite bool_decide_eq_true_2 by done. rewrite bool_decide_eq_true_2 by lia.
        rewrite Nat.sub_succ, Nat.sub_0_r, list_lookup_insert_eq, Hr by done.
        by apply dget_update_values.
      * rewrite bool_decide_eq_false_2 by done. by rewrite list_lookup_insert_ne by lia.
    + apply lookup_ge_None in Hr. f_equal. destruct (decide (S j = i)) as [<-|Hne].
      * by rewrite (bool_decide_eq_false_2 (1 ≤ S j ≤ _)%nat), andb_false_r by lia.
      * by rewrite bool_decide_eq_false_2 by done.
  - done.
  - done.
Qed.

Lemma omap_lookup_seq {A} (g : A → option Z) (l : list A) :
  omap g l = omap (λ i, l !! (i - 1)%nat ≫= g) (seq 1 (length l)).
Proof.
  assert (∀ k l', omap g l' = omap (λ i, l' !! (i - S k)%nat ≫= g) (seq (S k) (length l'))) as H.
  { intros k l'. revert k. induction l' as [|x l' IH]; intros k; [done|].
    cbn [omap list_omap length seq]. rewrite Nat.sub_diag. simpl (_ !! 0%nat). cbn [option_bind mbind].
    assert (omap (λ i, (x :: l') !! (i - S k)%nat ≫= g) (seq (S (S k)) (length l')) = omap g l') as Ht.
    { rewrite (IH (S k)). apply list_omap_ext, Forall_Forall2_diag, Forall_forall.
      intros i [Hi _]%elem_of_seq. replace (i - S k)%nat with (S (i - S (S k)))%nat by lia. done. }
    simpl in Ht |- *. by rewrite Ht. }
  apply (H 0%nat).
Qed.

(** The observations that count: a report needs a dictionary and an id handed out. *)
Fixpoint effective (started : nat) (os : list observation) : Z :=
  match os with
  | [] => 0
  | LlmStarted :: os => 1 + effective (S started) os
  | LlmUsage j (JObj _) :: os =>
      (if bool_decide (1 ≤ j ≤ started)%nat then 1 else 0) + effective started os
  | LlmUsage _ _ :: os => effective started os
  | _ :: os => 1 + effective started os
  end.

Definition spec_stt (os : list observation) : Z :=
  Zsum (map (λ o, match o with SttSubmitted n => n | _ => 0 end) os).
Definition spec_tts (os : list observation) : Z :=
  Zsum (map (λ o, match o with TtsAccepted t => slen t | _ => 0 end) os).

(** The snapshot a collector should report after [os], read off the history. *)
Definition spec_total (os : list observation) (field : str) : option Z :=
  if bool_decide (spec_observed field os ≠ []) || (started os =? 0)%nat
  then Some (Zsum (spec_observed field os)) else None.

Definition spec_status (os : list observation) (field : str) : measurement :=
  if (length (spec_observed field os) =? started os)%nat then Recorded
  else if bool_decide (spec_observed field os ≠ []) then Partial else Unavailable.

Definition spec_snapshot (final : bool) (os : list observation) : usage_snapshot :=
  mkSnapshot (effective 0 os + if final then 1 else 0) final (spec_stt os) (spec_tts os)
    (map (λ f, (f, spec_total os f)) token_fields)
    ([(lit "stt_seconds", Recorded); (lit "tts_characters", Recorded)]
     ++ map (λ f, (f, spec_status os f)) token_fields)
    (started os).

Lemma observe_all_counts os c :
  revision (observe_all os c) = revision c + effective (length (llm_requests c)) os ∧
  stt_bytes (observe_all os c) = stt_bytes c + spec_stt os ∧
  tts_characters (observe_all os c) = tts_characters c + spec_tts os.
Proof.
  revert c. induction os as [|o os IH]; intros c; [unfold spec_stt, spec_tts; simpl; lia|].
  change (observe_all (o :: os) c) with (observe_all os (observe o c)).
  destruct (IH (observe o c)) as (-> & -> & ->).
  change (spec_stt (o :: os)) with
    (match o with SttSubmitted n => n | _ => 0 end + spec_stt os).
  change (spec_tts (o :: os)) with
    (match o with TtsAccepted t => slen t | _ => 0 end + spec_tts os).
  destruct o as [|j u|n|t]; simpl; [rewrite length_app; simpl; rewrite Nat.add_1_r; lia| |lia|lia].
  destruct u as [| | | | | |u]; simpl; try lia. destruct j as [|j].
  - rewrite bool_decide_eq_false_2 by lia. lia.
  - destruct (llm_requests c !! j) as [r|] eqn:Hr; simpl.
    + apply lookup_lt_Some in Hr. rewrite length_insert, bool_decide_eq_true_2 by lia. lia.
    + apply lookup_ge_None in Hr. rewrite bool_decide_eq_false_2 by lia. lia.
Qed.

Lemma observe_all_started os :
  length (llm_requests (observe_all os collector_init)) = started os.
Proof.
  by destruct (observe_all_held os collector_init (lit "llm_input_tokens") 1) as [_ H];
    [by left|lia|].
Qed.

Lemma observed_spec os f :
  f ∈ token_fields → observed f (observe_all os collector_init) = spec_observed f os.
Proof.
  intros Hf. unfold observed, spec_observed. rewrite omap_lookup_seq, observe_all_started.
  apply list_omap_ext, Forall_Forall2_diag, Forall_forall. intros i [Hi _]%elem_of_seq.
  destruct (observe_all_held os collector_init f i) as [H _]; [done|lia|].
  unfold held in H. simpl in H. rewrite H. by destruct (last_report i 0 f os).
Qed.

(** C28: Whatever was observed, and in whatever order, the snapshot equals the one read
    off the history of observations: per field the sum over the requests of the last
    value reported for each (a cumulative report replaces the one before), [None] when
    requests were made and none reported; its status, the number of requests, the
    characters and bytes submitted, and a revision that counts every observation kept. *)
Theorem snapshot_recounts (final : bool) (os : list observation) :
  snapshot final (observe_all os collector_init) = spec_snapshot final os.
Proof.
  destruct (observe_all_counts os collector_init) as (Hr & Hs & Ht).
  unfold snapshot, spec_snapshot. rewrite Hr, Hs, Ht, observe_all_started. simpl (_ + _).
  assert (∀ f, f ∈ token_fields →
            field_total (observe_all os collector_init) f = spec_total os f ∧
            field_status (observe_all os collector_init) f = spec_status os f) as H.
  { intros f Hf. unfold field_total, spec_total, field_status, spec_status.
    rewrite observed_spec, observe_all_started by done. split; [|done].
    replace (bool_decide (llm_requests _ = [])) with (started os =? 0)%nat; [done|].
    rewrite <-observe_all_started.
    by case (llm_requests (observe_all os collector_init)). }
  f_equal.
  - apply map_ext_in. intros f Hf%list_elem_of_In. by destruct (H f Hf) as [-> _].
  - f_equal. apply map_ext_in. intros f Hf%list_elem_of_In. by destruct (H f Hf) as [_ ->].
Qed.

(** ** The reporter's requests *)

Definition is_final (o : usage_effect) : bool :=
  match o with PostUsage _ snap => snap_final snap | Persisted _ => false end.

(** Each request carries a later revision than any acknowledged before it. *)
Definition fresh (o : list usage_effect) : Prop :=
  ∀ i j r id snap, (i < j)%nat → o !! i = Some (Persisted r) →
    o !! j = Some (PostUsage id snap) → r < snap_revision snap.

(** What is acknowledged so far is at most [r]. *)
Definition acked (r : Z) (o : list usage_effect) : Prop :=
  ∀ r', Persisted r' ∈ o → r' ≤ r.

Lemma fresh_post o id snap r :
  fresh o → acked r o → r < snap_revision snap → fresh (o ++ [PostUsage id snap]).
Proof.
  intros Hf Ha Hr i j r' id' snap' Hij Hi Hj.
  rewrite lookup_app_l in Hi by (apply lookup_lt_Some in Hj; rewrite length_app in Hj; simpl in Hj; lia).
  apply lookup_snoc_Some in Hj as [[_ Hj]|[_ [= <- <-]]]; [exact (Hf _ _ _ _ _ Hij Hi Hj)|].
  apply list_elem_of_lookup_2 in Hi. specialize (Ha _ Hi). lia.
Qed.

Lemma fresh_ack o r : fresh o → fresh (o ++ [Persisted r]).
Proof.
  intros Hf i j r' id' snap' Hij Hi Hj.
  apply lookup_snoc_Some in Hj as [[Hl Hj]|[_ Hj]]; [|done].
  rewrite lookup_app_l in Hi by lia. exact (Hf _ _ _ _ _ Hij Hi Hj).
Qed.

Lemma acked_post o id snap r : acked r o → acked r (o ++ [PostUsage id snap]).
Proof. intros Ha r' [H|H%list_elem_of_singleton]%elem_of_app; [auto|done]. Qed.

Lemma acked_ack o r r' : acked r o → r ≤ r' → acked r' (o ++ [Persisted r']).
Proof.
  intros Ha Hr r1 [H|[= ->]%list_elem_of_singleton]%elem_of_app; [|done].
  specialize (Ha _ H). lia.
Qed.

Lemma observe_revision o c : revision c ≤ revision (observe o c).
Proof.
  destruct o as [|j u|n|t]; simpl; try lia. destruct u, j; simpl; try lia. case_goal; simpl; lia.
Qed.

(** The rounds used up, and whether the reporter is closing. *)
Definition rounds (t : phase) : nat :=
  match t with Closing n _ => S n | Closed => 2 | _ => 0 end.
Definition closing (t : phase) : Z :=
  match t with Closing _ _ | Closed => 1 | _ => 0 end.

Record reporter_inv (s : reporter) (o : list usage_effect) : Prop := {
  inv_fresh : fresh o;
  inv_acked : acked (last_revision s) o;
  inv_last : last_revision s ≤ revision (collected s) + closing (task s);
  inv_task : match task s with
             | Posting r => last_revision s < r ≤ revision (collected s)
             | Closing n r => (n ≤ 1)%nat ∧ last_revision s < r ≤ revision (collected s) + 1
             | _ => True
             end;
  inv_finals : (count is_final o ≤ rounds (task s))%nat;
}.

Section reporter_runs.
Context (base token : str).
Abbreviation step := (usage_step base token) (only parsing).

Lemma flush_spec final s snap :
  flush base token final s = Some snap →
  snap = snapshot final (collected s) ∧ (final = true ∨ revision (collected s) ≠ last_revision s).
Proof.
  unfold flush. destruct (_ || _); [done|]. destruct final; simpl; [naive_solver|].
  destruct (Z.eqb_spec (revision (collected s) + 0) (last_revision s)); [done|].
  intros [= <-]. split; [done|right; lia].
Qed.

(** What a run of the closing loop leaves behind. *)
Lemma close_round_inv fuel n s o s' o' :
  (fuel + n ≤ 2)%nat → fresh o → acked (last_revision s) o →
  last_revision s < revision (collected s) + 1 → (count is_final o ≤ n)%nat →
  close_round base token fuel n s = (s', o') → reporter_inv s' (o ++ o').
Proof.
  intros Hn Hf Ha Hl Hc. revert n Hn Hc. induction fuel as [|fuel IH]; intros n Hn Hc; cbn [close_round].
  { intros [= <- <-]. rewrite app_nil_r. by split; simpl; try done; lia. }
  destruct (flush base token true s) as [snap|] eqn:Hfl.
  - apply flush_spec in Hfl as [-> _]. simpl. intros [= <- <-]. split; simpl.
    + by eapply fresh_post.
    + by apply acked_post.
    + lia.
    + lia.
    + rewrite count_app, count_cons. unfold count at 2. simpl. lia.
  - cbn [snapshot snap_revision]. destruct (Z.eqb_spec (last_revision s) (revision (collected s) + 1)).
    + lia.
    + apply IH; lia.
Qed.

#[local] Arguments close_round : simpl never.

Lemma reporter_inv_step s o e s' o' :
  reporter_inv s o → step s e = Some (s', o') → reporter_inv s' (o ++ o').
Proof.
  intros [Hf Ha Hl Ht Hc] Hs. destruct s as [c id last t]; simpl in *.
  destruct e as [ob|id'| | |acc|]; simpl in Hs.
  - injection Hs as <- <-. rewrite app_nil_r. pose proof (observe_revision ob c).
    by split; simpl; try done; try lia; destruct t; lia.
  - injection Hs as <- <-. by rewrite app_nil_r.
  - destruct t; try done. injection Hs as <- <-. rewrite app_nil_r.
    destruct (configured _ _); by split; simpl in *.
  - destruct t; try done. destruct (flush _ _ false _) as [snap|] eqn:Hfl.
    + apply flush_spec in Hfl as [-> [|Hne]]; [done|]. injection Hs as <- <-. simpl in *.
      split; simpl; [eapply fresh_post; [done..|simpl; lia]|by apply acked_post|lia|lia|].
      rewrite count_app, count_cons. unfold count at 2. simpl. lia.
    + injection Hs as <- <-. by rewrite app_nil_r.
  - destruct t as [| |r|n r|]; try done.
    + destruct acc; injection Hs as <- <-; rewrite ?app_nil_r; split; simpl in *; try done; try lia.
      * by apply fresh_ack.
      * eapply acked_ack; [done|lia].
      * rewrite count_app, count_cons. unfold count at 2. simpl. lia.
    + destruct Ht as [Hn Hr].
      set (s1 := if acc then persisted r (mkReporter c id last (Closing n r))
                 else mkReporter c id last (Closing n r)) in Hs.
      assert (fresh (o ++ if acc then [Persisted r] else []) ∧
              acked (last_revision s1) (o ++ if acc then [Persisted r] else []) ∧
              last_revision s1 ≤ revision c + 1 ∧ collected s1 = c ∧
              (count is_final (o ++ if acc then [Persisted r] else []) ≤ S n)%nat)
        as (Hf1 & Ha1 & Hl1 & Hc1 & Hn1).
      { subst s1. destruct acc; simpl; rewrite ?app_nil_r; [|by split_and!; try lia].
        split_and!; [by apply fresh_ack|eapply acked_ack; [done|simpl; lia]|lia|done|].
        rewrite count_app, count_cons. unfold count at 2. simpl in *. lia. }
      clearbody s1. rewrite Hc1 in Hs.
      cbn [snapshot snap_revision] in Hs. destruct (Z.eqb_spec (last_revision s1) (revision c + 1)).
      * injection Hs as <- <-. rewrite app_nil_r. split; simpl; try done; rewrite ?Hc1; lia.
      * destruct (close_round _ _ _ _ s1) as [s2 o2] eqn:Hcl. injection Hs as <- <-.
        rewrite app_assoc. eapply close_round_inv; [|done|done|rewrite Hc1; lia|done|done]. lia.
  - destruct t; try done; destruct (close_round _ _ 2 0 _) as [s2 o2] eqn:Hcl;
      injection Hs as <- <-;
      (eapply close_round_inv; [| | | | |exact Hcl]; simpl in *; first [assumption|lia]).
Qed.
End reporter_runs.

(** Whatever observations arrive while a request is in flight, and whether requests
    are accepted or fail: a snapshot is sent only with a later revision than every one
    the billing service acknowledged, and closing sends at most two final ones. *)
Theorem reporter_sends_fresh_snapshots base token es s o :
  run (usage_step base token) reporter_init es = Some (s, o) →
  fresh o ∧ (count is_final o ≤ 2)%nat ∧
  ∀ r, Persisted r ∈ o → r ≤ last_revision s ≤ revision (collected s) + 1.
Proof.
  intros Hr. apply (run_inv _ reporter_inv) in Hr as [Hf Ha Hl Ht Hc].
  - split_and!; [done|destruct (task s); simpl in *; lia|].
    intros r Hin. specialize (Ha r Hin). destruct (task s); simpl in *; lia.
  - split; simpl; try done. by intros ? ?%not_elem_of_nil.
  - intros. by eapply reporter_inv_step.
Qed.

(** An acknowledged live snapshot, then a first final request that an observation
    overtakes, and a second one. *)
Abbreviation usage_example :=
  (run (usage_step (lit "https://billing") (lit "t")) reporter_init
    [SetSession (lit "s1"); Observe LlmStarted; Start; Interval;
     Observe (LlmUsage 1 (JObj [(lit "prompt_tokens", JInt 12)])); Reply true;
     CloseReporter; Observe (TtsAccepted (lit "hi")); Reply true; Reply false]) (only parsing).

Lemma usage_example_runs : ∃ s o, usage_example = Some (s, o) ∧ count is_final o = 2%nat.
Proof.
  assert ((λ r, count is_final r.2) <$> usage_example = Some 2%nat) as H by (vm_compute; reflexivity).
  destruct usage_example as [[s o]|] eqn:Hrun; [|discriminate H].
  exists s, o. split; [done|]. by injection H.
Qed.

Lemma reporter_sends_fresh_snapshots_witness :
  ∃ s o, usage_example = Some (s, o) ∧ count is_final o = 2%nat ∧ fresh o.
Proof.
  destruct usage_example_runs as (s & o & Hrun & Hc). exists s, o.
  exact (conj Hrun (conj Hc (proj1 (reporter_sends_fresh_snapshots _ _ _ s o Hrun)))).
Defined.
