(* ===== verification/CallIdentity.v ===== *)
(** * Who a stored call belongs to: the pure part of latency_lab/conversation_persist.py

    Tenant identifiers ([as_uuid]), the caller's address ([caller_from_identity]), the
    channel and external id a [ConversationStore] is constructed with, and the summary a
    human agent reads at a handoff ([build_fast_handoff_analysis]).  [hashlib.sha256]'s
    hexadecimal digest is a parameter. *)
From stdpp Require Import base list strings.
From Stdlib Require Import ZArith Lia.
From S2P Require Import Prelude Pystr Json Phones.

(** ** [as_uuid] *)

(** [s.replace(sub, "")], for a non-empty [sub]; [skip] characters are being dropped. *)
Fixpoint remove_from (sub : str) (skip : nat) (s : str) : str :=
  match s with
  | [] => []
  | c :: r =>
      match skip with
      | S skip => remove_from sub skip r
      | O => if starts_with sub s then remove_from sub (length sub - 1) r
             else c :: remove_from sub 0 r
      end
  end.
Definition py_remove (sub s : str) : str := remove_from sub 0 s.

Definition hex_value (c : Z) : option Z :=
  if (97 <=? c) && (c <=? 102) then Some (c - 87)
  else if (65 <=? c) && (c <=? 70) then Some (c - 55)
  else decimal_value c.

(** The digits of [int(s, 16)], with single underscores between them. *)
Fixpoint hex_digits (prev : bool) (acc : Z) (s : str) : option Z :=
  match s with
  | [] => if prev then Some acc else None
  | c :: s =>
      if (c =? 95) && prev then match s with [] => None | _ => hex_digits false acc s end
      else match hex_value c with
           | Some d => hex_digits true (acc * 16 + d) s
           | None => None
           end
  end.

(** A leading [0x] may be followed by an underscore. *)
Definition hex_body (s : str) : option Z :=
  match s with
  | 48 :: 120 :: r | 48 :: 88 :: r =>
      match r with 95 :: r => hex_digits false 0 r | _ => hex_digits false 0 r end
  | _ => hex_digits false 0 s
  end.

Definition int16 (s : str) : option Z :=
  match py_strip s with
  | 45 :: r => option_map Z.opp (hex_body r)
  | 43 :: r => hex_body r
  | r => hex_body r
  end.

(** ["%032x" % n] *)
Fixpoint hex_text (digits : nat) (n : Z) : str :=
  match digits with
  | O => []
  | S digits => hex_text digits (n / 16) ++ [hex_digit (n mod 16)]
  end.

Definition uuid_text (n : Z) : str :=
  let h := hex_text 32 n in
  take 8 h ++ lit "-" ++ take 4 (drop 8 h) ++ lit "-" ++ take 4 (drop 12 h)
  ++ lit "-" ++ take 4 (drop 16 h) ++ lit "-" ++ drop 20 h.

(** [str(uuid.UUID(s))], [None] for its [ValueError]. *)
Definition parse_uuid (s : str) : option str :=
  let h := py_remove (lit "uuid:") (py_remove (lit "urn:") s) in
  let h := py_remove (lit "-") (strip_by (λ c, (c =? 123) || (c =? 125)) h) in
  if slen h =? 32 then
    match int16 h with
    | Some n => if (0 <=? n) && (n <? 2 ^ 128) then Some (uuid_text n) else None
    | None => None
    end
  else None.

Definition as_uuid (value : str) : str :=
  match parse_uuid (py_strip value) with Some u => u | None => py_strip value end.

(** ** [caller_from_identity] *)

Definition claim_keys : list str :=
  [lit "end_user_id"; lit "end_user_email"; lit "participant_identity"].

(** The digits of [\d{10,14}(?:_|$)] at the start of [s]: a longer or shorter run of
    digits, or one that ends otherwise, does not match. *)
Definition room_digits (s : str) : option str :=
  let ds := (fix go s := match s with c :: r => if is_decimal c then c :: go r else [] | [] => [] end) s in
  let rest := drop (length ds) s in
  if (10 <=? slen ds) && (slen ds <=? 14)
     && (match rest with [] => true | c :: r => (c =? 95) || ((c =? 10) && bool_decide (r = [])) end)
  then Some ds else None.

(** [re.search(r"__(\d{10,14})(?:_|$)", room)], the leftmost match's group. *)
Fixpoint search_room (s : str) : option str :=
  match s with
  | [] => None
  | c :: r =>
      match (if starts_with (lit "__") s then room_digits (drop 2 s) else None) with
      | Some ds => Some ds
      | None => search_room r
      end
  end.

Definition caller_from_identity (identity : dict) (room_name : str) : str :=
  match first_some (λ key, let value := str_strip identity.[key] in
                           if bool_decide (value = []) then None else Some value) claim_keys with
  | Some value => to_e164 (JStr value)
  | None =>
      match search_room room_name with
      | Some ds => to_e164 (JStr ds)
      | None => []
      end
  end.

(** ** The constructor's channel and external id *)

Inductive channel : Type := Web | Voice.

(** [re.fullmatch(r"[^@\s]+@[^@\s]+\.[^@\s]+", s)] *)
Definition email_like (s : str) : bool :=
  match py_split_char 64 s with
  | [user; domain] =>
      forallb (λ c, negb (is_space c)) s && bool_decide (user ≠ [])
      && has_char 46 (take (length domain - 2) (drop 1 domain))
  | _ => false
  end.

(** [re.fullmatch(r"\+[1-9]\d{7,14}", s)] *)
Definition voice_number (s : str) : bool :=
  match s with 43 :: ds => e164_digits ds | _ => false end.

Section identity.
Context (sha256_hex : str → str).

(** [repr] of a tuple of strings *)
Definition repr_tuple (parts : list str) : str :=
  lit "(" ++ py_join (lit ", ") (map repr_str parts) ++ lit ")".

Definition session_address (business_id agent_id caller client_session_id : str) : str :=
  lit "session-"
  ++ take 48 (sha256_hex (repr_tuple [as_uuid business_id; as_uuid agent_id; caller; client_session_id]))
  ++ lit "@sdk.invalid".

(** [requested] tells whether the caller of the constructor asked for [channel="web"]. *)
Definition resolve_identity (business_id agent_id caller client_session_id : str)
    (requested_web : bool) : channel * str :=
  let normalized := to_e164 (JStr caller) in
  if email_like caller then (Web, py_lower caller)
  else if negb requested_web && voice_number normalized then (Voice, normalized)
  else (Web, session_address business_id agent_id caller client_session_id).
End identity.

(** ** [build_fast_handoff_analysis] *)

Definition any_token (tokens : list str) (blob : str) : bool := existsb (λ t, contains t blob) tokens.

Definition handoff_intent (blob : str) : str :=
  if any_token [lit "card"; lit "block"; lit "pin"; lit "otp"] blob then lit "card_or_security_issue"
  else if any_token [lit "loan"; lit "account"; lit "balance"; lit "statement"] blob
  then lit "account_inquiry"
  else if any_token [lit "complaint"; lit "fraud"; lit "unauthorized"] blob
  then lit "complaint_or_fraud"
  else if any_token [lit "transaction"; lit "payment"; lit "debit"; lit "failed transfer"] blob
  then lit "transaction_issue"
  else lit "request_human_agent".

(** The messages quoted: those not blank, or the last one when there is none. *)
Definition handoff_recent (last_user : str) (recent : list str) : list str :=
  let recent := List.filter (λ s, negb (bool_decide (s = []))) (map py_strip recent) in
  if bool_decide (recent = []) && negb (bool_decide (last_user = [])) then [last_user] else recent.

Definition handoff_parts (reason : str) (recent : list str) : list str :=
  let parts :=
    (if bool_decide (reason = []) then [] else [lit "Handoff reason: " ++ reason])
    ++ (if bool_decide (recent = []) then []
        else [lit "Caller said: " ++ py_join (lit " | ") (last_n 3 recent)]) in
  if bool_decide (parts = []) then [lit "Caller requested a live human agent during the AI call."]
  else parts.

Definition build_fast_handoff_analysis (reason_summary last_user_transcript : str)
    (recent_user_messages : list str) : dict :=
  let reason := py_strip reason_summary in
  let recent := handoff_recent (py_strip last_user_transcript) recent_user_messages in
  let blob := py_lower (reason ++ lit " " ++ py_join (lit " ") recent) in
  [(lit "analysis_status", JStr (lit "ready"));
   (lit "summary", JStr (take 900 (py_join (lit " ") (handoff_parts reason recent))));
   (lit "primary_intent", JStr (handoff_intent blob));
   (lit "intent_confidence",
     JFloat (if bool_decide (reason ≠ []) || bool_decide (recent ≠ []) then lit "0.9" else lit "0.7"));
   (lit "sentiment",
     JStr (if any_token [lit "urgent"; lit "fraud"; lit "immediately"] blob then lit "urgent"
           else lit "frustrated"));
   (lit "resolution_status", JStr (lit "escalated"))].

(** ** Properties *)

Definition hex_char (c : Z) : Prop := 48 ≤ c ≤ 57 ∨ 97 ≤ c ≤ 102.

Lemma hex_digit_char n : 0 ≤ n < 16 → hex_char (hex_digit n).
Proof. unfold hex_char, hex_digit. case_goal; lia. Qed.

Lemma decimal_value_ascii c : 48 ≤ c ≤ 57 → decimal_value c = Some (c - 48).
Proof.
  intros H. assert (c ∈ seqZ 48 10) as Hin by (apply elem_of_seqZ; lia).
  assert (forallb (λ c, bool_decide (decimal_value c = Some (c - 48))) (seqZ 48 10) = true) as Hall
    by (vm_compute; reflexivity).
  rewrite forallb_elem_of in Hall. exact (bool_decide_eq_true_1 _ (Hall c Hin)).
Qed.

Lemma hex_value_digit n : 0 ≤ n < 16 → hex_value (hex_digit n) = Some n.
Proof.
  intros H. unfold hex_digit, hex_value. destruct (n <? 10) eqn:E; reflect_bool.
  - rewrite (proj2 (Z.leb_gt 97 _)), (proj2 (Z.leb_gt 65 _)) by lia. simpl.
    rewrite decimal_value_ascii by lia. f_equal. lia.
  - rewrite (proj2 (Z.leb_le 97 _)), (proj2 (Z.leb_le _ 102)) by lia. simpl. f_equal. lia.
Qed.

Lemma length_hex_text k n : length (hex_text k n) = k.
Proof. revert n. induction k as [|k IH]; intros n; simpl; [done|]. rewrite length_app, IH. simpl. lia. Qed.

Lemma hex_text_chars k n : Forall hex_char (hex_text k n).
Proof.
  revert n. induction k as [|k IH]; intros n; simpl; [constructor|].
  apply Forall_app. split; [done|]. constructor; [|constructor].
  apply hex_digit_char. by apply Z.mod_pos_bound.
Qed.

Lemma hex_digits_app s c acc prev d m :
  Forall hex_char s → hex_digits prev acc s = Some m ∨ (s = [] ∧ m = acc) → 0 ≤ d < 16 → c = hex_digit d →
  hex_digits prev acc (s ++ [c]) = Some (m * 16 + d).
Proof.
  intros Hs Hm Hd ->. revert acc prev Hm.
  assert (∀ x, hex_char x → (x =? 95) = false) as H95 by (unfold hex_char; intros; lia).
  induction Hs as [|x s Hx Hs IH]; intros acc prev Hm; simpl.
  - rewrite (H95 _ (hex_digit_char d Hd)), (hex_value_digit d) by done. simpl.
    destruct Hm as [Hm|[_ ->]]; [|done]. simpl in Hm. destruct prev; [by injection Hm as ->|done].
  - rewrite (H95 x Hx). simpl. destruct Hm as [Hm|[? _]]; [|done]. simpl in Hm. rewrite (H95 x Hx) in Hm.
    simpl in Hm. destruct (hex_value x); [|done]. apply IH. by left.
Qed.

Lemma hex_digits_text k n :
  (0 < k)%nat → 0 ≤ n < 16 ^ Z.of_nat k → hex_digits false 0 (hex_text k n) = Some n.
Proof.
  revert n. induction k as [|k IH]; intros n Hk Hn; [lia|]. simpl.
  replace (Some n) with (Some (n / 16 * 16 + n mod 16))
    by (f_equal; rewrite (Z.div_mod n 16) at 3 by done; lia).
  apply hex_digits_app with (d := n mod 16); [apply hex_text_chars| |by apply Z.mod_pos_bound|done].
  destruct k as [|k].
  - right. split; [done|]. simpl in Hn. apply Z.div_small. lia.
  - left. apply IH; [lia|]. rewrite Nat2Z.inj_succ, Z.pow_succ_r in Hn by lia.
    split; [apply Z.div_pos; lia|]. apply Z.div_lt_upper_bound; lia.
Qed.

Lemma py_remove_absent c sub s : c ∉ s → py_remove (c :: sub) s = s.
Proof.
  unfold py_remove. induction s as [|x s IH]; [done|].
  rewrite not_elem_of_cons. intros [Hx Hs]. cbn [remove_from starts_with].
  replace (c =? x) with false by lia. simpl. by rewrite IH.
Qed.

Lemma py_remove_char_app c s t : py_remove [c] (s ++ t) = py_remove [c] s ++ py_remove [c] t.
Proof.
  unfold py_remove. induction s as [|x s IH]; [done|].
  simpl. rewrite andb_true_r. destruct (c =? x); simpl; by rewrite IH.
Qed.

#[local] Opaque hex_text.

Lemma hex_char_not c s : Forall hex_char s → ¬ hex_char c → c ∉ s.
Proof. rewrite Forall_forall. intros H Hc Hin. by apply Hc, H. Qed.

Ltac not_hex := unfold hex_char; lia.

Lemma strip_braces_hex s : Forall (λ c, hex_char c ∨ c = 45) s →
  strip_by (λ c, (c =? 123) || (c =? 125)) s = s.
Proof.
  intros H. apply strip_by_free. eapply Forall_impl; [exact H|]. unfold hex_char. intros c. lia.
Qed.

Lemma uuid_text_chars n : Forall (λ c, hex_char c ∨ c = 45) (uuid_text n).
Proof.
  assert (∀ s, Forall hex_char s → Forall (λ c, hex_char c ∨ c = 45) s) as Hw
    by (intros s H; eapply Forall_impl; [exact H|by left]).
  assert (Forall (λ c, hex_char c ∨ c = 45) (lit "-")) as Hd by (constructor; [by right|constructor]).
  unfold uuid_text. pose proof (hex_text_chars 32 n) as Hh.
  repeat (apply Forall_app; split); try done; apply Hw; auto using Forall_take, Forall_drop.
Qed.

Lemma uuid_text_hex n : py_remove (lit "-") (uuid_text n) = hex_text 32 n.
Proof.
  unfold uuid_text. change (lit "-") with [45]. rewrite !py_remove_char_app.
  pose proof (hex_text_chars 32 n) as Hh.
  assert (∀ t, Forall hex_char t → py_remove [45] t = t) as Hno
    by (intros t Ht; apply py_remove_absent, hex_char_not; [done|not_hex]).
  change (py_remove [45] [45]) with (@nil Z). rewrite !app_nil_l.
  rewrite !Hno by repeat (apply Forall_take || apply Forall_drop || exact Hh).
  replace (drop 12 (hex_text 32 n)) with (drop 4 (drop 8 (hex_text 32 n))) by by rewrite drop_drop.
  replace (drop 16 (hex_text 32 n)) with (drop 4 (drop 4 (drop 8 (hex_text 32 n)))) by by rewrite !drop_drop.
  replace (drop 20 (hex_text 32 n)) with (drop 4 (drop 4 (drop 4 (drop 8 (hex_text 32 n)))))
    by by rewrite !drop_drop.
  by rewrite !take_drop.
Qed.

Lemma hex_not_space c : hex_char c ∨ c = 45 → is_space c = false.
Proof.
  intros H. destruct (is_space c) eqn:E; [|done]. apply is_space_elem in E.
  assert (forallb (λ c, negb ((48 <=? c) && (c <=? 57) || (97 <=? c) && (c <=? 102) || (c =? 45))) whitespace = true)
    as Hw by (vm_compute; reflexivity).
  rewrite forallb_elem_of in Hw. specialize (Hw c E). unfold hex_char in H. lia.
Qed.

Lemma int16_text n : 0 ≤ n < 2 ^ 128 → int16 (hex_text 32 n) = Some n.
Proof.
  intros Hn. unfold int16. pose proof (hex_text_chars 32 n) as Hh.
  unfold py_strip. rewrite strip_by_free.
  2:{ eapply Forall_impl; [exact Hh|]. intros c Hc. apply hex_not_space. by left. }
  assert (hex_body (hex_text 32 n) = Some n) as Hb.
  { assert (hex_digits false 0 (hex_text 32 n) = Some n) as Hd
      by (apply hex_digits_text; [lia|]; change (16 ^ Z.of_nat 32) with (2 ^ 128); exact Hn).
    unfold hex_body. destruct (hex_text 32 n) as [|a [|b r]]; try done.
    { by repeat case_goal. }
    apply Forall_cons in Hh as [_ Hh]. apply Forall_cons in Hh as [Hb _]. unfold hex_char in Hb.
    by repeat case_goal; try lia. }
  destruct (hex_text 32 n) as [|a r]; [done|]. apply Forall_cons in Hh as [Ha _]. unfold hex_char in Ha.
  by repeat case_goal; try lia.
Qed.

Lemma uuid_text_length n : slen (py_remove (lit "-") (uuid_text n)) = 32.
Proof. rewrite uuid_text_hex. unfold slen. by rewrite length_hex_text. Qed.

Lemma parse_uuid_text n : 0 ≤ n < 2 ^ 128 → parse_uuid (uuid_text n) = Some (uuid_text n).
Proof.
  intros Hn. pose proof (uuid_text_chars n) as Hc.
  assert (∀ c sub, ¬ hex_char c → c ≠ 45 → py_remove (c :: sub) (uuid_text n) = uuid_text n) as Hno.
  { intros c sub Hx Hne. apply py_remove_absent. rewrite Forall_forall in Hc.
    intros Hin. by destruct (Hc c Hin). }
  unfold parse_uuid. change (lit "urn:") with ([117] ++ lit "rn:"). change (lit "uuid:") with ([117] ++ lit "uid:").
  simpl ([117] ++ _). rewrite !Hno by (first [done|not_hex]).
  rewrite strip_braces_hex, uuid_text_length by done. simpl (32 =? 32).
  rewrite uuid_text_hex, int16_text by done.
  by replace ((0 <=? n) && (n <? 2 ^ 128)) with true by lia.
Qed.

Lemma strip_uuid_text n : py_strip (uuid_text n) = uuid_text n.
Proof.
  apply strip_by_free. eapply Forall_impl; [apply uuid_text_chars|]. apply hex_not_space.
Qed.

Lemma parse_uuid_Some s u : parse_uuid s = Some u → ∃ n, 0 ≤ n < 2 ^ 128 ∧ u = uuid_text n.
Proof.
  unfold parse_uuid. intros H. destruct (_ =? 32); [|done]. destruct (int16 _) as [n|]; [|done].
  destruct (_ && _) eqn:E; [|done]. injection H as <-. reflect_bool. exists n. split; [lia|done].
Qed.

(** Ways to write an identifier: canonical, without dashes, in braces, as a URN. *)
Definition spellings (n : Z) : list str :=
  [uuid_text n; hex_text 32 n; 123 :: uuid_text n ++ [125]; lit "urn:uuid:" ++ uuid_text n].

Lemma parse_spelled s t n :
  0 ≤ n < 2 ^ 128 →
  strip_by (λ c, (c =? 123) || (c =? 125)) (py_remove (lit "uuid:") (py_remove (lit "urn:") t)) = s →
  py_remove (lit "-") s = hex_text 32 n → parse_uuid t = Some (uuid_text n).
Proof.
  intros Hn Hs Hh. unfold parse_uuid. rewrite Hs, Hh. unfold slen. rewrite length_hex_text. simpl (_ =? 32).
  rewrite int16_text by done. by replace ((0 <=? n) && (n <? 2 ^ 128)) with true by lia.
Qed.

(** Text without the letters of the prefixes. *)
Lemma no_prefix t : 117 ∉ t → py_remove (lit "uuid:") (py_remove (lit "urn:") t) = t.
Proof.
  intros H. change (lit "urn:") with (117 :: lit "rn:"). change (lit "uuid:") with (117 :: lit "uid:").
  rewrite (py_remove_absent 117 (lit "rn:")) by done. by apply py_remove_absent.
Qed.

Lemma strip_braces s :
  Forall (λ c, hex_char c ∨ c = 45) s → s ≠ [] → strip_by (λ c, (c =? 123) || (c =? 125)) (123 :: s ++ [125]) = s.
Proof.
  intros H Hne. set (p := λ c, _). assert (Forall (λ c, p c = false) s) as Hp.
  { eapply Forall_impl; [exact H|]. unfold p, hex_char. intros c. lia. }
  unfold strip_by. assert (lstrip_by p (123 :: s ++ [125]) = s ++ [125]) as ->.
  { cbn [lstrip_by]. change (p 123) with true. destruct s as [|c s]; [done|]. apply Forall_cons in Hp as [Hc _].
    cbn [app lstrip_by]. by rewrite Hc. }
  unfold rstrip_by. rewrite rev_app_distr. cbn [List.rev app lstrip_by]. change (p 125) with true. cbv iota.
  assert (lstrip_by p (List.rev s) = List.rev s) as ->; [|apply List.rev_involutive].
  destruct (List.rev s) as [|c r] eqn:E; [done|]. cbn [lstrip_by].
  assert (c ∈ s) as Hc by (apply list_elem_of_In, in_rev; rewrite E; by left).
  rewrite Forall_forall in Hp. by rewrite (Hp c Hc).
Qed.

Lemma spelling_parsed n t : 0 ≤ n < 2 ^ 128 → t ∈ spellings n → parse_uuid t = Some (uuid_text n) ∧ py_strip t = t.
Proof.
  intros Hn Ht. pose proof (uuid_text_chars n) as Hc. pose proof (hex_text_chars 32 n) as Hh.
  assert (∀ s, Forall (λ c, hex_char c ∨ c = 45) s → 117 ∉ s) as Hu.
  { intros s Hs Hin. rewrite Forall_forall in Hs. destruct (Hs 117 Hin) as [H|H]; [unfold hex_char in H; lia|done]. }
  assert (Forall (λ c, hex_char c ∨ c = 45) (hex_text 32 n)) as Hh'
    by (eapply Forall_impl; [exact Hh|by left]).
  assert (uuid_text n ≠ []) as Hne by (intros E; by pose proof (uuid_text_length n) as Hl; rewrite E in Hl).
  assert (∀ s, Forall (λ c, is_space c = false) s → py_strip s = s) as Hstrip by (intros s; apply strip_by_free).
  assert (∀ s, Forall (λ c, hex_char c ∨ c = 45) s → Forall (λ c, is_space c = false) s) as Hsp
    by (intros s Hs; eapply Forall_impl; [exact Hs|apply hex_not_space]).
  unfold spellings in Ht. rewrite !elem_of_cons in Ht. destruct Ht as [->|[->|[->|[->|Ht%not_elem_of_nil]]]]; [..|done].
  - split; [by apply parse_uuid_text|by apply Hstrip, Hsp].
  - split; [|by apply Hstrip, Hsp]. apply (parse_spelled (hex_text 32 n)); [done| |].
    + rewrite no_prefix by by apply Hu. by apply strip_braces_hex.
    + apply (py_remove_absent 45 []), hex_char_not; [exact Hh|not_hex].
  - split.
    + apply (parse_spelled (uuid_text n)); [done| |apply uuid_text_hex]. rewrite no_prefix; [by apply strip_braces|].
      rewrite not_elem_of_cons, not_elem_of_app. split; [done|]. split; [by apply Hu|]. by intros ?%list_elem_of_singleton.
    + apply Hstrip. constructor; [by vm_compute|]. apply Forall_app. split; [by apply Hsp|]. constructor; [by vm_compute|constructor].
  - split.
    + apply (parse_spelled (uuid_text n)); [done| |apply uuid_text_hex].
      assert (py_remove (lit "urn:") (lit "urn:uuid:" ++ uuid_text n) = lit "uuid:" ++ py_remove (lit "urn:") (uuid_text n)) as ->
        by reflexivity.
      assert (∀ r, py_remove (lit "uuid:") (lit "uuid:" ++ r) = py_remove (lit "uuid:") r) as -> by reflexivity.
      rewrite no_prefix by by apply Hu. by apply strip_braces_hex.
    + apply Hstrip. apply Forall_app. split; [|by apply Hsp]. repeat (constructor; [by vm_compute|]). constructor.
Qed.

(** C36: A tenant identifier survives being written and read back: the canonical text of every
    128-bit id is read as itself, and so are its other spellings (without dashes, in braces, as a URN);
    whatever else is accepted becomes such a text, the rest is kept as it is but for blanks
    around it, and reading twice changes nothing. *)
Theorem as_uuid_roundtrip (value : str) :
  (∀ n t, 0 ≤ n < 2 ^ 128 → t ∈ spellings n → as_uuid t = uuid_text n)
  ∧ as_uuid (as_uuid value) = as_uuid value
  ∧ (as_uuid value = py_strip value ∨ ∃ n, 0 ≤ n < 2 ^ 128 ∧ as_uuid value = uuid_text n).
Proof.
  assert (∀ n t, 0 ≤ n < 2 ^ 128 → t ∈ spellings n → as_uuid t = uuid_text n) as Hn.
  { intros n t Hn Ht. destruct (spelling_parsed n t Hn Ht) as [Hp Hs]. unfold as_uuid. by rewrite Hs, Hp. }
  split; [done|]. unfold as_uuid at 2 3 4 5. destruct (parse_uuid (py_strip value)) as [u|] eqn:E.
  - apply parse_uuid_Some in E as (n & Hr & ->). split; [apply Hn; [done|by left]|]. right. by exists n.
  - split; [|by left]. unfold as_uuid. by rewrite py_strip_idem, E.
Qed.

(** [lower] keeps an [@]. *)
Lemma py_lower_at s : has_char 64 s = true → has_char 64 (py_lower s) = true.
Proof.
  unfold has_char. rewrite !existsb_elem_of. intros (c & Hc & Heq). reflect_bool.
  exists 64. split; [|done]. subst c. unfold py_lower.
  apply list_elem_of_bind. exists 64. by split; [left|].
Qed.

Lemma split_char_two c cur s u d :
  split_char_from c cur s = [u; d] → c ∈ s.
Proof.
  revert cur u d. induction s as [|x s IH]; intros cur u d; simpl; [done|].
  destruct (x =? c) eqn:E; [apply Z.eqb_eq in E as ->; by left|]. intros H. right. by eapply IH.
Qed.

Lemma email_like_at s : email_like s = true → has_char 64 s = true.
Proof.
  unfold email_like. destruct (py_split_char 64 s) as [|u [|d [|]]] eqn:E; try done. intros _.
  apply split_char_two in E. unfold has_char. rewrite existsb_elem_of. by exists 64.
Qed.

Lemma has_char_app c s t : has_char c (s ++ t) = has_char c s || has_char c t.
Proof. unfold has_char. apply existsb_app. Qed.

(** A call is filed under a telephone number only when the caller's own address is
    one: a voice identity is [to_e164] of it, in canonical form ([+], no leading zero, 8 to
    15 digits), never taken from an e-mail address or an SDK subject and never when the
    web channel was asked for; a web identity is an e-mail address (the caller's, lower
    case, or one under [sdk.invalid] scoped to tenant, agent, caller and session). *)
Theorem identity_channel (sha256_hex : str → str) (business agent caller session : str) (web : bool) :
  match resolve_identity sha256_hex business agent caller session web with
  | (Voice, id) =>
      web = false ∧ email_like caller = false ∧ id = to_e164 (JStr caller)
      ∧ ∃ ds, id = lit "+" ++ ds ∧ 8 ≤ slen ds ≤ 15 ∧ Forall (λ c, is_decimal c = true) ds
              ∧ starts_with (lit "0") ds = false
  | (Web, id) =>
      has_char 64 id = true
      ∧ (email_like caller = true → id = py_lower caller)
      ∧ (email_like caller = false → ends_with (lit "@sdk.invalid") id = true)
  end.
Proof.
  unfold resolve_identity. destruct (email_like caller) eqn:He.
  { split_and!; [by apply py_lower_at, email_like_at|done|done]. }
  destruct (negb web && voice_number (to_e164 (JStr caller))) eqn:Hv.
  - reflect_bool. destruct Hv as [-> Hv]. split_and!; [done..|].
    destruct (to_e164 (JStr caller)) as [|c [|d ds]] eqn:E; [done| |].
    { simpl in Hv. by repeat case_in Hv. }
    assert (c = 43) as -> by (simpl in Hv; by repeat case_in Hv).
    unfold voice_number, e164_digits in Hv. reflect_bool. destruct Hv as [[[[H1 H2] Hds] H7] H14].
    exists (d :: ds). unfold slen in *. split_and!; [done|simpl; lia|simpl; lia| |].
    + constructor.
      * rewrite is_decimal_ascii by lia. lia.
      * apply Forall_forall. intros x Hx. rewrite forallb_elem_of in Hds. by apply Hds.
    + change (starts_with (lit "0") (d :: ds)) with ((48 =? d) && starts_with [] ds). lia.
  - split_and!; [|done|].
    + unfold session_address. rewrite !has_char_app. change (has_char 64 (lit "@sdk.invalid")) with true.
      by rewrite !orb_true_r.
    + intros _. unfold ends_with, session_address. rewrite !List.rev_app_distr, <-!app_assoc.
      apply starts_with_app.
Qed.
