(* ===== verification/ConversationStore.v ===== *)
(** * The conversation store: latency_lab/conversation_persist.py

    [ConversationStore] keeps a best-effort history of a call: operations are queued by
    the pipeline and run one at a time by a background worker, while a handoff and the
    call's end run on tasks of their own and the recording on two more.  Each task is a
    [frame]: the suspension point it waits at and what remains to be done there.  An
    event answers one task's wait and runs it to its next suspension, so a list of events
    is an interleaving of the tasks; the three [asyncio.Lock]s are flags of the store.

    Acquiring a lock, and the worker's look at the queue, are suspension points here even
    where the code would not suspend: the machine has every interleaving of the code and
    some more.  A task that is cancelled is ended at once; the store's own tasks are
    cancelled by [close] alone.  The identifiers, timestamps and
    elapsed seconds are data of the events; trace records are not modelled, except the one
    of a dropped operation. *)
From stdpp Require Import base list strings.
From Stdlib Require Import ZArith Lia.
From S2P Require Import Prelude Pystr Json CallIdentity.

(** ** What is stored *)

Record message := mkMessage {
  role : str;
  content : str;
  turn_id : option str;
  interrupted : bool;
}.

(** [turn_id] when it is truthy. *)
Definition turn_key (m : message) : option str :=
  match turn_id m with Some (c :: t) => Some (c :: t) | _ => None end.

Inductive operation : Type :=
| OpStart
| OpMessage (role text : str) (turn_id : option str) (interrupted : bool).

(** The service's endpoints. *)
Inductive request : Type :=
| Resolve (payload : dict)
| SessionStart (payload : dict)
| SessionEvent (session : str) (payload : dict)
| PostMessage (conversation : str) (payload : dict)
| PostAnalysis (session : str) (payload : dict)
| PostRecording (session : str) (payload : dict)
| SessionEnd (payload : dict).

Definition path (r : request) : str :=
  match r with
  | Resolve _ => lit "/v1/conversations/resolve"
  | SessionStart _ => lit "/v1/conversations/sessions/start"
  | SessionEvent s _ => lit "/v1/conversations/sessions/" ++ s ++ lit "/events"
  | PostMessage c _ => lit "/v1/conversations/" ++ c ++ lit "/messages"
  | PostAnalysis s _ => lit "/v1/conversations/sessions/" ++ s ++ lit "/analysis"
  | PostRecording s _ => lit "/v1/conversations/sessions/" ++ s ++ lit "/recording"
  | SessionEnd _ => lit "/v1/conversations/sessions/end"
  end.

(** The calls made with [retry=True]. *)
Definition retried (r : request) (recording_event : bool) : bool :=
  match r with
  | Resolve _ | SessionStart _ | PostMessage _ _ | PostRecording _ _ | SessionEnd _ => true
  | SessionEvent _ _ => recording_event
  | PostAnalysis _ _ => false
  end.

(** ** Tasks *)

(** What follows [start()], by its caller. *)
Inductive after_start : Type :=
| ThenNothing
| ThenMessage (m : message)
| ThenTransfer (reason : str) (transfer_payload : dict).

(** What follows [_publish_recording_status()], by its caller. *)
Inductive after_publish : Type :=
| AfterRecorder
| AfterTimeout
| AfterFinalize
| AfterDirty.

#[export] Instance after_publish_eq_dec : EqDecision after_publish.
Proof. solve_decision. Defined.

(** What follows a [_request]. *)
Inductive kont : Type :=
| KResolve (a : after_start)
| KSession (a : after_start)
| KOpened (a : after_start)
| KMessage
| KAnalysis (reason : str) (transfer_payload : dict)
| KHandoff
| KRecording (p : after_publish)
| KRecordingEvent (failed : bool) (p : after_publish)
| KEnd.

Inductive frame : Type :=
| WorkerPoll
| AcquireStart (a : after_start)
| AcquireWrite (a : after_start)
| Request (r : request) (attempt : nat) (k : kont)
| Backoff (r : request) (k : kont)
| Disabled (k : kont)
| WaitWorker (reason : str) (transfer_payload : dict)
| RecorderNew
| RecorderStarting
| StopperNew
| StopperWaiting
| AcquireClose
| CloseDrain
| CloseRecorder
| CloseStop
| CloseFinalize (duration : Z).

Inductive task : Type := Never | Running (f : frame) | Finished.

(** [tasks] holds the worker, the recording task, the recording-stop task, and then one
    task per direct call. *)
Definition WORKER : nat := 0.
Definition RECORDER : nat := 1.
Definition STOPPER : nat := 2.

(** The transcript's bookkeeping. *)
Record transcript := mkTranscript {
  sequence : Z;
  message_keys : list (str * str);
  last_message : option (str * str);
  recent_user : list str;
  last_user : str;
}.

Record recording := mkRecording {
  egress_id : json;
  expected_url : json;
  recording_status : str;
  recording_url : json;
  recording_duration : json;
  recording_detail : str;
}.

Record store := mkStore {
  conversation_id : str;
  session_id : str;
  log : transcript;
  rec : recording;
  stop_acknowledged : json;
  status_dirty : bool;
  duration_seconds : option Z;
  ended_at : str;
  pending : list operation;
  tasks : list task;
  start_locked : bool;
  write_locked : bool;
  close_locked : bool;
  start_attempted : bool;
  closing : bool;
  closed : bool;
}.

Definition transcript_init : transcript := mkTranscript 0 [] None [] [].

Definition recording_init : recording :=
  mkRecording JNull JNull (lit "disabled") JNull JNull (lit "recording_disabled").

Definition init : store :=
  mkStore [] [] transcript_init recording_init JNull false None [] [] [Never; Never; Never]
    false false false false false false.

Definition set_ids (conv sess : str) (s : store) : store :=
  mkStore conv sess (log s) (rec s) (stop_acknowledged s) (status_dirty s) (duration_seconds s)
    (ended_at s) (pending s) (tasks s) (start_locked s) (write_locked s) (close_locked s)
    (start_attempted s) (closing s) (closed s).
Definition set_log (l : transcript) (s : store) : store :=
  mkStore (conversation_id s) (session_id s) l (rec s) (stop_acknowledged s) (status_dirty s)
    (duration_seconds s) (ended_at s) (pending s) (tasks s) (start_locked s) (write_locked s)
    (close_locked s) (start_attempted s) (closing s) (closed s).
Definition set_rec (r : recording) (s : store) : store :=
  mkStore (conversation_id s) (session_id s) (log s) r (stop_acknowledged s) (status_dirty s)
    (duration_seconds s) (ended_at s) (pending s) (tasks s) (start_locked s) (write_locked s)
    (close_locked s) (start_attempted s) (closing s) (closed s).
Definition set_stop (v : json) (s : store) : store :=
  mkStore (conversation_id s) (session_id s) (log s) (rec s) v (status_dirty s)
    (duration_seconds s) (ended_at s) (pending s) (tasks s) (start_locked s) (write_locked s)
    (close_locked s) (start_attempted s) (closing s) (closed s).
Definition set_dirty (b : bool) (s : store) : store :=
  mkStore (conversation_id s) (session_id s) (log s) (rec s) (stop_acknowledged s) b
    (duration_seconds s) (ended_at s) (pending s) (tasks s) (start_locked s) (write_locked s)
    (close_locked s) (start_attempted s) (closing s) (closed s).
Definition set_end (d : Z) (t : str) (s : store) : store :=
  mkStore (conversation_id s) (session_id s) (log s) (rec s) (stop_acknowledged s) (status_dirty s)
    (Some d) t (pending s) (tasks s) (start_locked s) (write_locked s)
    (close_locked s) (start_attempted s) (closing s) (closed s).
Definition set_pending (l : list operation) (s : store) : store :=
  mkStore (conversation_id s) (session_id s) (log s) (rec s) (stop_acknowledged s) (status_dirty s)
    (duration_seconds s) (ended_at s) l (tasks s) (start_locked s) (write_locked s)
    (close_locked s) (start_attempted s) (closing s) (closed s).
Definition set_tasks (l : list task) (s : store) : store :=
  mkStore (conversation_id s) (session_id s) (log s) (rec s) (stop_acknowledged s) (status_dirty s)
    (duration_seconds s) (ended_at s) (pending s) l (start_locked s) (write_locked s)
    (close_locked s) (start_attempted s) (closing s) (closed s).
Definition set_locks (st wr cl : bool) (s : store) : store :=
  mkStore (conversation_id s) (session_id s) (log s) (rec s) (stop_acknowledged s) (status_dirty s)
    (duration_seconds s) (ended_at s) (pending s) (tasks s) st wr cl
    (start_attempted s) (closing s) (closed s).
Definition set_flags (attempted closing closed : bool) (s : store) : store :=
  mkStore (conversation_id s) (session_id s) (log s) (rec s) (stop_acknowledged s) (status_dirty s)
    (duration_seconds s) (ended_at s) (pending s) (tasks s) (start_locked s) (write_locked s)
    (close_locked s) attempted closing closed.

Definition set_task (i : nat) (t : task) (s : store) : store := set_tasks (<[i := t]> (tasks s)) s.
Definition lock_start (b : bool) (s : store) : store := set_locks b (write_locked s) (close_locked s) s.
Definition lock_write (b : bool) (s : store) : store := set_locks (start_locked s) b (close_locked s) s.
Definition lock_close (b : bool) (s : store) : store := set_locks (start_locked s) (write_locked s) b s.

(** ** Effects and events *)

Inductive effect : Type :=
| Http (r : request) (attempt : nat)
| DroppedOperation (closing : bool)
| DroppedMessage (role : str)
| StartRecording
| StopRecording (egress : json)
| FinalizeRecording (egress url : json) (duration : Z).

(** What a task's wait ends with: the wait itself ([Go]), a response or a failure to get
    one, what the recording helper returned or raised, or a deadline. *)
Inductive answer : Type :=
| Go
| Reply (response : exn (Z * exn json))
| RecordingStarted (egress url : json) (detail : str)
| StopAcknowledged (acknowledged : bool)
| RecordingFinal (status : str) (url duration : json) (detail : str)
| Raised (exception : str)
| TimedOut
| Cancelled.

Inductive event : Type :=
| Spawn (op : operation)
| MarkDisconnected (elapsed : Z) (now : str)
| CallTransfer (reason : str) (transfer_payload : dict)
| CallClose (elapsed : Z) (now : str)
| Resume (i : nat) (a : answer).

(** A task's run to its next suspension, or its end. *)
Abbreviation segment := (store * list effect * option frame)%type (only parsing).

(** ** Locks and cancellation *)

Definition writes (a : after_start) : bool := match a with ThenNothing => false | _ => true end.

Definition kont_writes (k : kont) : bool :=
  match k with
  | KResolve a | KSession a | KOpened a => writes a
  | KMessage | KAnalysis _ _ | KHandoff => true
  | _ => false
  end.
Definition kont_starts (k : kont) : bool :=
  match k with KResolve _ | KSession _ | KOpened _ => true | _ => false end.
Definition kont_closes (k : kont) : bool :=
  match k with
  | KRecording AfterRecorder | KRecordingEvent _ AfterRecorder => false
  | KRecording _ | KRecordingEvent _ _ | KEnd => true
  | _ => false
  end.

(** The locks a suspended task holds: its [async with] blocks. *)
Definition holds_write (f : frame) : bool :=
  match f with
  | AcquireStart a => writes a
  | Request _ _ k | Backoff _ k | Disabled k => kont_writes k
  | _ => false
  end.
Definition holds_start (f : frame) : bool :=
  match f with Request _ _ k | Backoff _ k | Disabled k => kont_starts k | _ => false end.
Definition holds_close (f : frame) : bool :=
  match f with
  | Request _ _ k | Backoff _ k | Disabled k => kont_closes k
  | CloseDrain | CloseRecorder | CloseStop | CloseFinalize _ => true
  | _ => false
  end.

(** Leaving every [async with] a task is in. *)
Definition release (f : frame) (s : store) : store :=
  set_locks (start_locked s && negb (holds_start f)) (write_locked s && negb (holds_write f))
    (close_locked s && negb (holds_close f)) s.

Definition kill (i : nat) (s : store) : store :=
  match tasks s !! i with
  | Some (Running f) => set_task i Finished (release f s)
  | _ => s
  end.

Definition started (i : nat) (s : store) : bool :=
  match tasks s !! i with Some (Running _) | Some Finished => true | _ => false end.
Definition running (i : nat) (s : store) : bool :=
  match tasks s !! i with Some (Running _) => true | _ => false end.

Section store.
Context (conversation_service_base_url conversation_service_token agent_client_id : str)
  (business_id agent_id : str)
  (caller client_session_id room_name transport external_id started_at : str)
  (chan : channel) (explicitly_routed_agent recording_enabled : bool)
  (sha256_hex : str → str).

Definition enabled : bool :=
  negb (conversation_service_base_url =s []) && negb (conversation_service_token =s [])
  && negb (business_id =s []) && negb (agent_id =s []).

Definition _headers : list (str * str) :=
  [(lit "Content-Type", lit "application/json");
   (lit "X-Service-Token", conversation_service_token);
   (lit "X-Service-Name", if agent_client_id =s [] then lit "rvc-livekit" else agent_client_id);
   (lit "X-Business-ID", as_uuid business_id)].

Definition channel_name : str := match chan with Web => lit "web" | Voice => lit "voice" end.

(** ** Requests *)

Definition transport_error (e : pyexc) : bool :=
  match e with HttpError | TimeoutError => true | _ => false end.

(** One attempt's result, or whether its failure is transient. *)
Definition read_response (response : exn (Z * exn json)) : dict + bool :=
  match response with
  | Raise e => inr (transport_error e)
  | Ok (status, body) =>
      let transient := (status =? 429) || (500 <=? status) in
      match body with
      | Raise e => inr (transient || transport_error e)
      | Ok (JObj d) =>
          if status <? 400 then
            match in_str_set d.[lit "status"] [lit "failed"; lit "error"] with
            | Ok false => inl (dset (lit "status") (jor d.[lit "status"] (JStr (lit "success"))) d)
            | _ => inr transient
            end
          else inr transient
      | Ok _ => inr transient
      end
  end.

Definition failed_result : dict := [(lit "status", JStr (lit "failed"))].
Definition disabled_result : dict := [(lit "status", JStr (lit "disabled"))].
Definition is_failed (result : dict) : bool := jeq_str result.[lit "status"] (lit "failed").

(** [_request], up to its first response. *)
Definition _request (r : request) (k : kont) (s : store) : segment :=
  if enabled then (s, [Http r 0], Some (Request r 0 k)) else (s, [], Some (Disabled k)).

(** ** Messages *)

Definition truthy_turn (turn_id : option str) : json :=
  match turn_id with Some t => JStr t | None => JNull end.

Definition message_identity (session : str) (m : message) (seq : Z) : str :=
  session ++ lit ":" ++ role m ++ lit ":" ++ default (str_of_Z seq) (turn_key m).

Definition idempotency_key (session : str) (m : message) (seq : Z) : str :=
  lit "rvc:" ++ sha256_hex (message_identity session m seq).

Definition message_payload (session : str) (m : message) (seq : Z) : dict :=
  [(lit "role", JStr (role m)); (lit "content", JStr (content m)); (lit "session_id", JStr session);
   (lit "idempotency_key", JStr (idempotency_key session m seq));
   (lit "metadata",
     JObj ([(lit "turn_id", truthy_turn (turn_id m)); (lit "sequence", JInt seq)]
           ++ if interrupted m then [(lit "interrupted", JBool true);
                                     (lit "delivery", JStr (lit "generated_not_confirmed"))]
              else []))].

(** Already stored: the same turn's message of this role, or a repeat of the last one. *)
Definition duplicate (m : message) (t : transcript) : bool :=
  match turn_key m with
  | Some k => bool_decide ((role m, k) ∈ message_keys t)
  | None => bool_decide (last_message t = Some (role m, content m))
  end.

Definition append_message (m : message) (t : transcript) : transcript :=
  mkTranscript (sequence t + 1)
    (match turn_key m with Some k => message_keys t ++ [(role m, k)] | None => message_keys t end)
    (Some (role m, content m))
    (if role m =s lit "user" then last_n 5 (recent_user t) ++ [content m] else recent_user t)
    (if role m =s lit "user" then content m else last_user t).

(** [_add_message] once [start()] has returned, under the write lock. *)
Definition add_message (m : message) (s : store) : segment :=
  if session_id s =s [] then (lock_write false s, [DroppedMessage (role m)], None)
  else if duplicate m (log s) then (lock_write false s, [], None)
  else
    let t := append_message m (log s) in
    _request (PostMessage (conversation_id s) (message_payload (session_id s) m (sequence t)))
      KMessage (set_log t s).

(** [mark_transfer] once [start()] has returned. *)
Definition transfer_started (reason : str) (transfer_payload : dict) (s : store) : segment :=
  if (session_id s =s []) || closed s then (lock_write false s, [], None)
  else
    _request (PostAnalysis (session_id s)
               (build_fast_handoff_analysis reason (last_user (log s)) (recent_user (log s))))
      (KAnalysis reason transfer_payload) s.

Definition handoff_event (reason : str) (transfer_payload : dict) : dict :=
  [(lit "event_type", JStr (lit "aicc_handoff")); (lit "role", JStr (lit "system"));
   (lit "title", JStr (lit "Transferred to human"));
   (lit "body", JStr (py_strip (if reason =s [] then
      lit "Caller handed off to a human agent via AICC." else reason)));
   (lit "payload", JObj (dupdate
     [(lit "handoff_kind", JStr (lit "human_handoff"));
      (lit "reason_summary", if py_strip reason =s [] then JNull else JStr (py_strip reason));
      (lit "transfer_mode", JStr (lit "sip_bridge")); (lit "room_name", JStr room_name);
      (lit "snapshot_kind", JStr (lit "fast"))] transfer_payload))].

(** ** [start] *)

Definition then_ (a : after_start) (s : store) : segment :=
  match a with
  | ThenNothing => (s, [], None)
  | ThenMessage m => add_message m s
  | ThenTransfer reason p => transfer_started reason p s
  end.

Definition resolve_payload : dict :=
  [(lit "agent_id", JStr (as_uuid agent_id)); (lit "external_id", JStr external_id);
   (lit "external_name", JStr (take 255 (if caller =s [] then lit "Anonymous caller" else caller)));
   (lit "channel", JStr channel_name)].

(** [start] under its lock, released when it returns. *)
Definition start_granted (a : after_start) (s : store) : segment :=
  if start_attempted s || closed s then then_ a s
  else
    let s := set_flags true (closing s) (closed s) s in
    if negb enabled then then_ a s
    else _request (Resolve resolve_payload) (KResolve a) (lock_start true s).

Definition resolved (a : after_start) (result : dict) (s : store) : segment :=
  let s := if is_failed result then s
           else set_ids (str_strip (jor result.[lit "conversation_id"] result.[lit "id"]))
                  (session_id s) s in
  if conversation_id s =s [] then then_ a (lock_start false s)
  else
    _request (SessionStart
      [(lit "conversation_id", JStr (conversation_id s)); (lit "channel", JStr channel_name);
       (lit "explicitly_routed_agent", JBool explicitly_routed_agent);
       (lit "client_session_id", JStr client_session_id); (lit "started_at", JStr started_at)])
      (KSession a) s.

Definition session_of (result : dict) : str :=
  let nested := match result.[lit "session"] with JObj d => d.[lit "id"] | _ => JStr [] end in
  str_strip (jor (jor result.[lit "id"] result.[lit "session_id"]) nested).

Definition session_started_event : dict :=
  [(lit "event_type", JStr (lit "session_started")); (lit "role", JStr (lit "system"));
   (lit "title", JStr (lit "Session started"));
   (lit "body", JStr (lit "Inbound call from "
      ++ if caller =s [] then lit "anonymous caller" else caller));
   (lit "payload", JObj [(lit "room_name", JStr room_name); (lit "caller", JStr caller);
                         (lit "channel", JStr channel_name)])].

Definition session_opened (a : after_start) (result : dict) (s : store) : segment :=
  let s := if is_failed result then s else set_ids (conversation_id s) (session_of result) s in
  if session_id s =s [] then then_ a (lock_start false s)
  else
    _request (SessionEvent (session_id s) session_started_event)
      (KOpened a) (set_task RECORDER (Running RecorderNew) s).

(** ** The recording *)

Definition set_status (status : str) (detail : str) (r : recording) : recording :=
  mkRecording (egress_id r) (expected_url r) status (recording_url r) (recording_duration r) detail.

Definition recording_payload (r : recording) : dict :=
  [(lit "recording_status", JStr (recording_status r)); (lit "recording_url", recording_url r);
   (lit "recording_duration_seconds", recording_duration r)].

Definition recording_event (s : store) : dict :=
  let r := rec s in
  [(lit "event_type", JStr (if recording_status r =s lit "available" then lit "recording_ready"
                            else lit "recording_status"));
   (lit "role", JStr (lit "system"));
   (lit "title", JStr (lit "Recording " ++ recording_status r));
   (lit "body", JStr (recording_detail r));
   (lit "payload", JObj (recording_payload r ++
     [(lit "egress_id", egress_id r); (lit "room_name", JStr room_name);
      (lit "detail", JStr (recording_detail r)); (lit "expected_url", expected_url r);
      (lit "started_at", JStr started_at); (lit "stop_acknowledged", stop_acknowledged s);
      (lit "reconciliation_required",
        JBool ((recording_status r =s lit "processing")
               || contains (lit "reconcile_room") (recording_detail r)))]))].

Definition _publish_recording_status (p : after_publish) (s : store) : segment :=
  _request (PostRecording (session_id s) (recording_payload (rec s))) (KRecording p) s.

Definition publish_event (p : after_publish) (result : dict) (s : store) : segment :=
  _request (SessionEvent (session_id s) (recording_event s)) (KRecordingEvent (is_failed result) p) s.

Definition _schedule_recording_stop (s : store) : store :=
  if (match duration_seconds s with Some _ => true | None => false end)
     && truthy (egress_id (rec s)) && negb (started STOPPER s)
  then set_task STOPPER (Running StopperNew) s else s.

Definition mark_disconnected (elapsed : Z) (now : str) (s : store) : store :=
  _schedule_recording_stop
    (match duration_seconds s with None => set_end (Z.max 0 elapsed) now s | Some _ => s end).

Definition _start_recording (s : store) : segment :=
  if negb (transport =s lit "livekit") || (room_name =s []) then
    _publish_recording_status AfterRecorder
      (set_rec (set_status (recording_status (rec s)) (lit "not_a_livekit_room") (rec s)) s)
  else if recording_enabled then (s, [StartRecording], Some RecorderStarting)
  else _publish_recording_status AfterRecorder s.

Definition recording_started (egress url : json) (detail : str) (s : store) : segment :=
  let r := rec s in
  let s := set_rec (mkRecording egress url (recording_status r) (recording_url r)
                      (recording_duration r) (recording_detail r)) s in
  let s := _schedule_recording_stop s in
  let '(status, plain) :=
    if truthy egress then (lit "processing", lit "recording_started")
    else (lit "failed", lit "recording_start_failed") in
  _publish_recording_status AfterRecorder
    (set_rec (set_status status (if detail =s [] then plain else detail) (rec s)) s).

(** [_finalize_recording] with the helper's result. *)
Definition recording_final (status : str) (url duration : json) (detail : str) (s : store) : segment :=
  let r := rec s in
  let status := if in_strs status [lit "available"; lit "processing"; lit "failed"] then status
                else lit "failed" in
  let url := if status =s lit "available" then url else JNull in
  let detail := if detail =s [] then lit "recording_" ++ status else detail in
  let '(status, detail) :=
    if (status =s lit "available") && negb (truthy url)
    then (lit "failed", lit "missing_recording_url") else (status, detail) in
  _publish_recording_status AfterFinalize
    (set_rec (mkRecording (egress_id r) (expected_url r) status url duration detail) s).

(** ** [close] *)

(** The [finally] clause: the tasks are cancelled and the queue is emptied. *)
Definition close_finally (s : store) : segment :=
  let s := set_flags (start_attempted s) (closing s) true s in
  let s := kill STOPPER (kill RECORDER (kill WORKER s)) in
  (lock_close false (set_pending [] s), [], None).

Definition close_end (s : store) : segment :=
  _request (SessionEnd
    [(lit "session_id", JStr (session_id s));
     (lit "duration_seconds", match duration_seconds s with Some d => JInt d | None => JNull end);
     (lit "ended_at", JStr (ended_at s))]) KEnd s.

Definition close_dirty (s : store) : segment :=
  if status_dirty s then _publish_recording_status AfterDirty s else close_end s.

Definition _finalize_recording (s : store) : segment :=
  if negb (truthy (egress_id (rec s))) then close_dirty s
  else
    let duration := default 0 (duration_seconds s) in
    (s, [FinalizeRecording (egress_id (rec s)) (expected_url (rec s)) duration],
     Some (CloseFinalize duration)).

Definition close_session (s : store) : segment :=
  if session_id s =s [] then close_finally s
  else if started STOPPER s then (s, [], Some CloseStop)
  else _finalize_recording s.

Definition close_recorder (s : store) : segment :=
  if started RECORDER s then (s, [], Some CloseRecorder) else close_session s.

Definition close_granted (s : store) : segment :=
  if closed s then (s, [], None)
  else
    let s := lock_close true (set_flags (start_attempted s) true (closed s) s) in
    if started WORKER s then (s, [], Some CloseDrain) else close_recorder s.

Definition published (p : after_publish) (s : store) : segment :=
  match p with
  | AfterRecorder => (s, [], None)
  | AfterTimeout => close_session s
  | AfterFinalize => close_dirty s
  | AfterDirty => close_end s
  end.

(** ** The rest of a task when its request has a result *)

Definition finish (k : kont) (result : dict) (s : store) : segment :=
  match k with
  | KResolve a => resolved a result s
  | KSession a => session_opened a result s
  | KOpened a => then_ a (lock_start false s)
  | KMessage => (lock_write false s, [], None)
  | KAnalysis reason p => _request (SessionEvent (session_id s) (handoff_event reason p)) KHandoff s
  | KHandoff => (lock_write false s, [], None)
  | KRecording p => publish_event p result s
  | KRecordingEvent failed p => published p (set_dirty (failed || is_failed result) s)
  | KEnd => close_finally s
  end.

(** A response to attempt [attempt]: only a transient failure of a first attempt made
    with [retry=True] is tried again. *)
Definition respond (r : request) (attempt : nat) (k : kont) (response : exn (Z * exn json))
    (s : store) : segment :=
  match read_response response with
  | inl result => finish k result s
  | inr transient =>
      let retry := retried r (match k with KRecordingEvent _ _ => true | _ => false end) in
      if negb retry || negb transient || negb (attempt =? 0)%nat then finish k failed_result s
      else (s, [], Some (Backoff r k))
  end.

(** ** The worker *)

Definition clean_message (role text : str) (turn : option str) (interrupted : bool) : message :=
  mkMessage role (py_strip text) turn interrupted.

(** An operation taken off the queue, to its first suspension. *)
Definition begin_operation (op : operation) (s : store) : segment :=
  match op with
  | OpStart => (s, [], Some (AcquireStart ThenNothing))
  | OpMessage role text turn interrupted =>
      if (py_strip text =s []) || closed s then (s, [], None)
      else (s, [], Some (AcquireWrite (ThenMessage (clean_message role text turn interrupted))))
  end.

Definition MAX_PENDING_OPERATIONS : nat := 256.

Definition spawn (op : operation) (s : store) : store * list effect :=
  if closing s || (MAX_PENDING_OPERATIONS <=? length (pending s))%nat
  then (s, [DroppedOperation (closing s)])
  else
    let s := set_pending (pending s ++ [op]) s in
    (if running WORKER s then s else set_task WORKER (Running WorkerPoll) s, []).

(** ** The machine *)

(** The wait of task [i] is over. *)
Definition resume_frame (f : frame) (a : answer) (s : store) : option segment :=
  match f, a with
  | AcquireStart x, Go => if start_locked s then None else Some (start_granted x s)
  | AcquireWrite x, Go =>
      if write_locked s then None else Some (lock_write true s, [], Some (AcquireStart x))
  | Request r n k, Reply response => Some (respond r n k response s)
  | Backoff r k, Go => Some (s, [Http r 1], Some (Request r 1 k))
  | Disabled k, Go => Some (finish k disabled_result s)
  | WaitWorker reason p, (Go | TimedOut) => Some (s, [], Some (AcquireWrite (ThenTransfer reason p)))
  | RecorderNew, Go => Some (_start_recording s)
  | RecorderStarting, RecordingStarted egress url detail => Some (recording_started egress url detail s)
  | RecorderStarting, TimedOut =>
      Some (_publish_recording_status AfterRecorder
              (set_rec (set_status (lit "failed") (lit "recording_start_timeout_reconcile_room") (rec s)) s))
  | RecorderStarting, Raised e =>
      Some (_publish_recording_status AfterRecorder (set_rec (set_status (lit "failed") e (rec s)) s))
  | StopperNew, Go => Some (s, [StopRecording (egress_id (rec s))], Some StopperWaiting)
  | StopperWaiting, StopAcknowledged b => Some (set_stop (JBool b) s, [], None)
  | StopperWaiting, (Raised _ | TimedOut) => Some (set_stop (JBool false) s, [], None)
  | AcquireClose, Go => if close_locked s then None else Some (close_granted s)
  | CloseDrain, Go => if running WORKER s then None else Some (close_recorder s)
  | CloseDrain, TimedOut => Some (close_recorder (kill WORKER s))
  | CloseRecorder, Go => if running RECORDER s then None else Some (close_session s)
  | CloseRecorder, TimedOut =>
      let s := kill RECORDER s in
      Some (_publish_recording_status AfterTimeout
              (set_rec (set_status (lit "failed") (lit "recording_start_timeout_reconcile_room") (rec s)) s))
  | CloseStop, Go => if running STOPPER s then None else Some (_finalize_recording s)
  | CloseFinalize _, RecordingFinal status url duration detail =>
      Some (recording_final status url duration detail s)
  | CloseFinalize _, TimedOut =>
      Some (_publish_recording_status AfterFinalize
              (set_rec (set_status (lit "processing") (lit "recording_finalize_timeout") (rec s)) s))
  | CloseFinalize _, Raised e =>
      Some (_publish_recording_status AfterFinalize (set_rec (set_status (lit "failed") e (rec s)) s))
  | _, _ => None
  end.

(** The task's state after a segment: the worker looks at its queue again. *)
Definition after_segment (i : nat) (next : option frame) : task :=
  match next with
  | Some f => Running f
  | None => if (i =? WORKER)%nat then Running WorkerPoll else Finished
  end.

Definition end_segment (i : nat) (g : segment) : store * list effect :=
  let '(s, o, next) := g in (set_task i (after_segment i next) s, o).

Definition resume (i : nat) (a : answer) (s : store) : option (store * list effect) :=
  match tasks s !! i with
  | Some (Running f) =>
      match f, a with
      | WorkerPoll, Go =>
          Some (match pending s with
                | [] => (set_task i Finished s, [])
                | op :: ops => end_segment i (begin_operation op (set_pending ops s))
                end)
      | _, Cancelled =>
          if (i <=? STOPPER)%nat then None
          else Some (if holds_close f then end_segment i (close_finally s) else (kill i s, []))
      | _, _ =>
          match resume_frame f a s with
          | Some g => Some (end_segment i g)
          | None =>
              (* the worker's operation timeout *)
              match a with
              | TimedOut => if (i =? WORKER)%nat
                            then Some (set_task i (Running WorkerPoll) (release f s), []) else None
              | _ => None
              end
          end
      end
  | _ => None
  end.

Definition call (f : frame) (s : store) : store := set_tasks (tasks s ++ [Running f]) s.

Definition step (s : store) (e : event) : option (store * list effect) :=
  match e with
  | Spawn op => Some (spawn op s)
  | MarkDisconnected elapsed now => Some (mark_disconnected elapsed now s, [])
  | CallTransfer reason p =>
      Some (call (if running WORKER s then WaitWorker reason p
                  else AcquireWrite (ThenTransfer reason p)) s, [])
  | CallClose elapsed now => Some (call AcquireClose (mark_disconnected elapsed now s), [])
  | Resume i a => resume i a s
  end.

(** ** What the store promises

    The abstract store is a list of messages: a message is appended unless its turn's
    message of the same role is there already or, without a turn, it repeats the last. *)
Definition same_key (m m' : message) : bool :=
  (role m =s role m') && bool_decide (turn_key m = turn_key m').

Definition listed (l : list message) (m : message) : bool :=
  match turn_key m with
  | Some _ => existsb (same_key m) l
  | None => match last l with
            | Some m' => (role m' =s role m) && (content m' =s content m)
            | None => false
            end
  end.

Definition append (l : list message) (m : message) : list message :=
  if listed l m then l else l ++ [m].

Definition user_texts (l : list message) : list str :=
  map content (List.filter (λ m, role m =s lit "user") l).

(** The messages handed to [add_user] and [add_assistant], in the order spoken. *)
Definition spoken_of (op : operation) : option message :=
  match op with
  | OpStart => None
  | OpMessage role text turn interrupted =>
      if py_strip text =s [] then None else Some (clean_message role text turn interrupted)
  end.
Definition spoken (es : list event) : list message :=
  omap (λ e, match e with Spawn op => spoken_of op | _ => None end) es.

(** The request that stores the [n]th message of a session. *)
Definition post_of (conversation session : str) (n : nat) (m : message) : request :=
  PostMessage conversation (message_payload session m (Z.of_nat n + 1)).

Definition attempts (o : list effect) : list (request * nat) :=
  omap (λ e, match e with Http (PostMessage c p) n => Some (PostMessage c p, n) | _ => None end) o.

(** Every request is attempted once, or a second time right after the first. *)
Inductive deliveries : list request → list (request * nat) → Prop :=
| deliveries_nil : deliveries [] []
| deliveries_first rs l r : deliveries rs l → deliveries (rs ++ [r]) (l ++ [(r, 0%nat)])
| deliveries_again rs l r :
    deliveries rs (l ++ [(r, 0%nat)]) → deliveries rs (l ++ [(r, 0%nat)] ++ [(r, 1%nat)]).

Definition resolves (o : list effect) : nat :=
  count (λ e, match e with Http (Resolve _) O => true | _ => false end) o.
Definition session_starts (o : list effect) : nat :=
  count (λ e, match e with Http (SessionStart _) O => true | _ => false end) o.

(** A request about a session names the one that was opened. *)
Definition scoped (session : str) (r : request) : Prop :=
  match r with
  | Resolve _ | SessionStart _ => True
  | SessionEvent id _ | PostAnalysis id _ | PostRecording id _ => id = session ∧ session ≠ []
  | PostMessage _ p | SessionEnd p => p.[lit "session_id"] = JStr session ∧ session ≠ []
  end.

(** ** The invariant *)

Definition kont_of (f : frame) : option kont :=
  match f with Request _ _ k | Backoff _ k | Disabled k => Some k | _ => None end.
Definition request_of (f : frame) : option request :=
  match f with Request r _ _ | Backoff r _ => Some r | _ => None end.

Definition message_of (a : after_start) : option message :=
  match a with ThenMessage m => Some m | _ => None end.

(** The message a task has taken off the queue and not stored yet. *)
Definition carried (f : frame) : option message :=
  match f with
  | AcquireStart a | AcquireWrite a => message_of a
  | Request _ _ (KResolve a) | Request _ _ (KSession a) | Request _ _ (KOpened a)
  | Backoff _ (KResolve a) | Backoff _ (KSession a) | Backoff _ (KOpened a)
  | Disabled (KResolve a) | Disabled (KSession a) | Disabled (KOpened a) => message_of a
  | _ => None
  end.

Definition posting (f : frame) : bool :=
  match kont_of f with Some KMessage => true | _ => false end.
Definition resolving (f : frame) : bool :=
  match kont_of f with Some (KResolve _) => true | _ => false end.
Definition opening (f : frame) : bool :=
  match kont_of f with Some (KSession _) => true | _ => false end.

(** The suspension points only reached once the session is open. *)
Definition in_session (f : frame) : bool :=
  match f with
  | RecorderNew | RecorderStarting | CloseRecorder | CloseStop | CloseFinalize _ => true
  | _ => match kont_of f with Some (KResolve _) | Some (KSession _) | None => false | _ => true end
  end.

(** The suspension points of the recording tasks: they hold no lock. *)
Definition neutral (f : frame) : bool :=
  match f with
  | RecorderNew | RecorderStarting | StopperNew | StopperWaiting => true
  | _ => match kont_of f with
         | Some (KRecording AfterRecorder) | Some (KRecordingEvent _ AfterRecorder) => true
         | _ => false
         end
  end.

(** Which tasks can be where: messages are stored by the worker alone, and it never closes. *)
Definition role_ok (i : nat) (f : frame) : Prop :=
  match i with
  | 0 => match f with
         | AcquireClose | AcquireWrite ThenNothing => False
         | _ => holds_close f = false
         end
  | 1 | 2 => neutral f = true
  | _ => match f with WorkerPoll | AcquireWrite ThenNothing => False | _ => True end
         ∧ carried f = None ∧ posting f = false
  end%nat.

(** What a suspended task relies on. *)
Record local (i : nat) (f : frame) (s : store) (o : list effect) : Prop := {
  loc_role : role_ok i f;
  loc_resolving : resolving f = true → session_id s = [] ∧ session_starts o = 0%nat;
  loc_opening : opening f = true → session_id s = [] ∧ conversation_id s ≠ [];
  loc_attempted : holds_start f = true → start_attempted s = true;
  loc_closing : holds_close f = true → closing s = true;
  loc_session : in_session f = true → session_id s ≠ [];
  loc_request : ∀ r, request_of f = Some r → scoped (session_id s) r;
  loc_kind : ∀ r k, request_of f = Some r → kont_of f = Some k →
    match r with
    | Resolve _ => ∃ a, k = KResolve a
    | SessionStart _ => ∃ a, k = KSession a
    | PostMessage _ _ => k = KMessage
    | _ => match k with KResolve _ | KSession _ | KMessage => False | _ => True end
    end;
  loc_enabled : ∀ k, kont_of f = Some k → enabled = true ∧ f ≠ Disabled k;
  loc_first : ∀ r, posting f = true → f = Request r 0 KMessage ∨ f = Backoff r KMessage →
    ∃ l', attempts o = l' ++ [(r, 0%nat)];
}.

Definition held_by (P : frame → bool) (s : store) : nat :=
  count (λ t, match t with Running f => P f | _ => false end) (tasks s).

Definition task_carried (t : task) : list message :=
  match t with Running f => option_list (carried f) | _ => [] end.

Definition worker_carried (s : store) : list message :=
  match tasks s !! WORKER with Some t => task_carried t | None => [] end.

(** The transcript's bookkeeping is that of the list of messages stored. *)
Record log_ok (l : list message) (t : transcript) : Prop := {
  log_sequence : sequence t = Z.of_nat (length l);
  log_keys : message_keys t = omap (λ m, pair (role m) <$> turn_key m) l;
  log_last : last_message t = (λ m, (role m, content m)) <$> last l;
  log_recent : recent_user t = last_n 6 (user_texts l);
  log_last_user : last_user t = default [] (last (user_texts l));
}.

(** [l]: the messages stored; [off]: those offered to the abstract store. *)
Record inv (es : list event) (l off : list message) (s : store) (o : list effect) : Prop := {
  inv_tasks : (3 ≤ length (tasks s))%nat;
  inv_start : held_by holds_start s = Nat.b2n (start_locked s);
  inv_write : held_by holds_write s = Nat.b2n (write_locked s);
  inv_close : held_by holds_close s = Nat.b2n (close_locked s);
  inv_local : ∀ i f, tasks s !! i = Some (Running f) → local i f s o;
  inv_session : session_id s ≠ [] →
    start_attempted s = true ∧ conversation_id s ≠ [] ∧ enabled = true;
  inv_recorder : started RECORDER s = true → session_id s ≠ [];
  inv_resolves : (resolves o ≤ Nat.b2n (start_attempted s))%nat;
  inv_starts : (session_starts o ≤ Nat.b2n (start_attempted s))%nat;
  inv_scoped : ∀ r n, Http r n ∈ o → scoped (session_id s) r;
  inv_list : l = foldl append [] off;
  inv_order : off ++ worker_carried s ++ omap spoken_of (pending s) `sublist_of` spoken es;
  inv_log : log_ok l (log s);
  inv_nonempty : l ≠ [] → session_id s ≠ [];
  inv_deliveries : deliveries (imap (post_of (conversation_id s) (session_id s)) l) (attempts o);
  inv_bounded : (length (pending s) ≤ MAX_PENDING_OPERATIONS)%nat;
  inv_closed : closed s = true → closing s = true ∧ pending s = [] ∧ running WORKER s = false;
}.

Lemma neutral_holds f : neutral f = true →
  holds_start f = false ∧ holds_write f = false ∧ holds_close f = false
  ∧ posting f = false ∧ carried f = None.
Proof. destruct f as [| | |r n k|r k|k| | | | | | | | | |]; try done; by destruct k as [| | | | | |[]|? []|]. Qed.

(** A task in a request is what the rest of its work says it is. *)
Lemma kont_frame f k : kont_of f = Some k →
  holds_start f = kont_starts k ∧ holds_write f = kont_writes k ∧ holds_close f = kont_closes k
  ∧ carried f = carried (Disabled k) ∧ posting f = posting (Disabled k)
  ∧ resolving f = resolving (Disabled k) ∧ opening f = opening (Disabled k)
  ∧ in_session f = in_session (Disabled k)
  ∧ ∀ i, role_ok i f ↔ role_ok i (Disabled k).
Proof.
  intros Hk. assert (∀ i, role_ok i f ↔ role_ok i (Disabled k)) as Hrole.
  { intros i. destruct f; try done; injection Hk as ->;
      destruct i as [|[|[|i]]]; simpl; try done; by split; intros (_ & ? & ?). }
  destruct f; try done; injection Hk as ->; split_and!; done.
Qed.

Lemma role_kont i f g k : kont_of f = Some k → kont_of g = Some k → role_ok i f → role_ok i g.
Proof.
  intros Hf Hg. destruct (kont_frame _ _ Hf) as (_ & _ & _ & _ & _ & _ & _ & _ & Rf).
  destruct (kont_frame _ _ Hg) as (_ & _ & _ & _ & _ & _ & _ & _ & Rg). by rewrite Rf, Rg.
Qed.

(** The invariant with task [i] at [t]. *)
Definition inv_at (i : nat) (t : task) (es : list event) (l off : list message)
    (s : store) (o : list effect) : Prop :=
  (i < length (tasks s))%nat ∧ inv es l off (set_task i t s) o.

Definition task_holds (P : frame → bool) (t : task) : bool :=
  match t with Running f => P f | _ => false end.

Lemma held_by_set P i s :
  (i < length (tasks s))%nat →
  ∃ n, ∀ t, held_by P (set_task i t s) = (n + Nat.b2n (task_holds P t))%nat.
Proof.
  unfold held_by, set_task, set_tasks. simpl. generalize (tasks s) as ts. intros ts.
  revert i. induction ts as [|x ts IH]; intros i Hi; simpl in Hi; [lia|].
  destruct i as [|i].
  - exists (count (λ t, match t with Running f => P f | _ => false end) ts). intros t. simpl.
    rewrite count_cons. unfold task_holds. destruct t as [|f|]; simpl; try destruct (P f); simpl; lia.
  - destruct (IH i) as [n Hn]; [lia|].
    exists (n + if match x with Running f => P f | _ => false end then 1 else 0)%nat. intros t. simpl.
    rewrite count_cons, Hn. lia.
Qed.

Lemma held_by_two P i j f g s :
  tasks s !! i = Some (Running f) → tasks s !! j = Some (Running g) →
  P f = true → P g = true → (held_by P s ≤ 1)%nat → i = j.
Proof.
  unfold held_by. generalize (tasks s) as ts. intros ts. revert i j.
  assert (∀ k h ts, ts !! k = Some (Running h) → P h = true →
            (1 ≤ count (λ t, match t with Running f => P f | _ => false end) ts)%nat) as Hone.
  { intros k h us. revert k. induction us as [|x us IH]; intros k Hk Hp; [done|].
    rewrite count_cons. destruct k as [|k]; simpl in Hk.
    - injection Hk as ->. rewrite Hp. lia.
    - specialize (IH k Hk Hp). lia. }
  induction ts as [|x ts IH]; intros i j Hi Hj Hf Hg Hc; [done|]. rewrite count_cons in Hc.
  destruct i as [|i], j as [|j]; simpl in Hi, Hj; [done| | |].
  - injection Hi as ->. rewrite Hf in Hc. specialize (Hone j g ts Hj Hg). lia.
  - injection Hj as ->. rewrite Hg in Hc. specialize (Hone i f ts Hi Hf). lia.
  - f_equal. eapply IH; try done. lia.
Qed.

Lemma tasks_at i t s : (i < length (tasks s))%nat → tasks (set_task i t s) !! i = Some t.
Proof. intros. unfold set_task, set_tasks. simpl. by rewrite list_lookup_insert_eq. Qed.

Lemma tasks_other i j t s : i ≠ j → tasks (set_task i t s) !! j = tasks s !! j.
Proof. intros. unfold set_task, set_tasks. simpl. by rewrite list_lookup_insert_ne. Qed.

(** The fields the invariant speaks of, locks and tasks apart. *)
Record same_core (s s' : store) : Prop := {
  same_conv : conversation_id s' = conversation_id s;
  same_sess : session_id s' = session_id s;
  same_log : log s' = log s;
  same_attempted : start_attempted s' = start_attempted s;
  same_tasks : tasks s' = tasks s;
  same_pending : pending s' = pending s;
  same_closing : closing s' = closing s;
  same_closed : closed s' = closed s;
}.

(** Effects that neither open a session nor store a message. *)
Definition quiet (session : str) (e : effect) : Prop :=
  match e with
  | Http (Resolve _) n | Http (SessionStart _) n => n ≠ 0%nat
  | Http (PostMessage _ _) _ => False
  | Http r _ => scoped session r
  | _ => True
  end.

Lemma quiet_history session o' :
  Forall (quiet session) o' →
  (∀ o, attempts (o ++ o') = attempts o) ∧ (∀ o, resolves (o ++ o') = resolves o)
  ∧ (∀ o, session_starts (o ++ o') = session_starts o)
  ∧ ∀ r n, Http r n ∈ o' → scoped session r.
Proof.
  intros H.
  assert (attempts o' = [] ∧ resolves o' = 0%nat ∧ session_starts o' = 0%nat
          ∧ ∀ r n, Http r n ∈ o' → scoped session r) as (Ha & Hr & Hs & Hi).
  { induction H as [|e o' He _ (Ha & Hr & Hs & Hi)];
      [split_and!; try done; by intros ?? ?%not_elem_of_nil|].
    unfold attempts, resolves, session_starts in *. rewrite !count_cons.
    split_and!.
    - destruct e as [[]| | | | |]; simpl in *; try done; by rewrite Ha.
    - destruct e as [[]| | | | |]; simpl in *; try done. by destruct attempt.
    - destruct e as [[]| | | | |]; simpl in *; try done. by destruct attempt.
    - intros r n [<-|Hin]%elem_of_cons; [|by eapply Hi]. by destruct r. }
  unfold attempts, resolves, session_starts in *.
  split_and!; intros; rewrite ?omap_app, ?count_app, ?Ha, ?Hr, ?Hs, ?app_nil_r; try lia; eauto.
Qed.

(** The facts of a suspended task survive a step that keeps what it relies on. *)
Lemma local_same i f s s' o o' :
  local i f s o → session_id s' = session_id s → conversation_id s' = conversation_id s →
  (start_attempted s = true → start_attempted s' = true) → (closing s = true → closing s' = true) →
  session_starts o' = session_starts o → attempts o' = attempts o → local i f s' o'.
Proof.
  intros [] Hs Hc Ha Hg Ho Hat. by split; rewrite ?Hs, ?Hc, ?Ho, ?Hat; auto.
Qed.

Lemma local_task i f j t s o : local i f (set_task j t s) o ↔ local i f s o.
Proof. split; intros H; by apply (local_same _ _ _ _ _ _ H). Qed.

(** The locks of a step of task [i] from [f] to [t]: what it gave back and took. *)
Definition lock_step (f : frame) (t : task) (s s' : store) : Prop :=
  (Nat.b2n (start_locked s') + Nat.b2n (holds_start f) = Nat.b2n (start_locked s) + Nat.b2n (task_holds holds_start t)
   ∧ Nat.b2n (write_locked s') + Nat.b2n (holds_write f) = Nat.b2n (write_locked s) + Nat.b2n (task_holds holds_write t)
   ∧ Nat.b2n (close_locked s') + Nat.b2n (holds_close f) = Nat.b2n (close_locked s) + Nat.b2n (task_holds holds_close t))%nat.

Definition task_local (i : nat) (t : task) (s : store) (o : list effect) : Prop :=
  match t with Running g => local i g s o | _ => True end.

Lemma held_step P i f t s s' :
  (i < length (tasks s))%nat → tasks s' = tasks s →
  ∀ b b', held_by P (set_task i (Running f) s) = Nat.b2n b →
  (Nat.b2n b' + Nat.b2n (P f) = Nat.b2n b + Nat.b2n (task_holds P t))%nat →
  held_by P (set_task i t s') = Nat.b2n b'.
Proof.
  intros Hi Ht b b' Hb Hs. destruct (held_by_set P i s Hi) as [n Hn].
  assert (held_by P (set_task i t s') = held_by P (set_task i t s)) as ->
    by (unfold held_by, set_task, set_tasks; simpl; by rewrite Ht).
  rewrite Hn in Hb |- *. simpl in Hb. lia.
Qed.

Lemma worker_carried_set i t s :
  worker_carried (set_task i t s) =
  if decide (i = WORKER ∧ (0 < length (tasks s))%nat) then task_carried t else worker_carried s.
Proof.
  unfold worker_carried, set_task, set_tasks. simpl. case_decide as H.
  - destruct H as [-> H]. by rewrite list_lookup_insert_eq.
  - destruct (decide (i = WORKER)) as [->|]; [|by rewrite list_lookup_insert_ne].
    rewrite list_insert_ge; [done|]. unfold WORKER in *. lia.
Qed.

Lemma started_set i j t s :
  started j (set_task i t s) = true →
  started j (set_task i Never s) = true ∨ (i = j ∧ t ≠ Never).
Proof.
  unfold started, set_task, set_tasks. simpl. destruct (decide (i = j)) as [->|].
  - destruct (decide (j < length (tasks s))%nat).
    + rewrite list_lookup_insert_eq by done. destruct t; naive_solver.
    + rewrite !list_insert_ge by lia. by left.
  - rewrite !list_lookup_insert_ne by done. by left.
Qed.

(** A step of task [i] from [f] to [t], by what it changes. *)
Record step_ok (i : nat) (f : frame) (t : task) (l off l' off' : list message)
    (s s' : store) (o o' : list effect) : Prop := {
  ok_tasks : tasks s' = tasks s;
  ok_pending : pending s' = pending s;
  ok_closing : closing s' = closing s;
  ok_closed : closed s' = closed s;
  ok_locks : lock_step f t s s';
  ok_others : ∀ j g, j ≠ i → tasks s !! j = Some (Running g) → local j g s o → local j g s' (o ++ o');
  ok_local : task_local i t s' (o ++ o');
  ok_session : session_id s' ≠ [] →
    start_attempted s' = true ∧ conversation_id s' ≠ [] ∧ enabled = true;
  ok_kept : session_id s ≠ [] → session_id s' ≠ [];
  ok_resolves : (resolves (o ++ o') ≤ Nat.b2n (start_attempted s'))%nat;
  ok_starts : (session_starts (o ++ o') ≤ Nat.b2n (start_attempted s'))%nat;
  ok_scoped : ∀ r n, Http r n ∈ o ++ o' → scoped (session_id s') r;
  ok_list : l' = foldl append [] off';
  ok_order : off' ++ task_carried t `sublist_of` off ++ option_list (carried f);
  ok_log : log_ok l' (log s');
  ok_nonempty : l' ≠ [] → session_id s' ≠ [];
  ok_deliveries :
    deliveries (imap (post_of (conversation_id s') (session_id s')) l') (attempts (o ++ o'));
}.

Lemma inv_step es l off l' off' i f t s s' o o' :
  inv_at i (Running f) es l off s o → step_ok i f t l off l' off' s s' o o' →
  inv_at i t es l' off' s' (o ++ o').
Proof.
  intros [Hi H] [Et Ep Eg Ed (L1 & L2 & L3) Hoth Hloc Hses Hkept Hres Hst Hsc Hl' Hord Hlog Hne Hdel].
  split; [by rewrite Et|]. destruct H.
  assert (local i f s o) as Hf.
  { apply (local_task i f i (Running f)), inv_local0. by rewrite tasks_at. }
  assert (∀ j g, tasks (set_task i t s') !! j = Some (Running g) → local j g s' (o ++ o')) as Hall.
  { intros j g Hj. destruct (decide (j = i)) as [->|Hne'].
    - rewrite tasks_at in Hj by (by rewrite Et). by injection Hj as ->.
    - rewrite tasks_other, Et in Hj by done. apply Hoth; [done..|].
      apply (local_task j g i (Running f)), inv_local0. by rewrite tasks_other. }
  simpl in *. split; simpl; rewrite ?Ep, ?Eg, ?Ed; try done.
  - rewrite length_insert, Et. by rewrite length_insert in inv_tasks0.
  - by apply (held_step holds_start i f t s s' Hi Et (start_locked s)).
  - by apply (held_step holds_write i f t s s' Hi Et (write_locked s)).
  - by apply (held_step holds_close i f t s s' Hi Et (close_locked s)).
  - intros j g Hj. by apply local_task, Hall.
  - intros [Hr|[-> _]]%started_set; apply Hkept, inv_recorder0.
    + unfold started, set_task, set_tasks in *. simpl in *. rewrite Et in Hr.
      destruct (decide (i = RECORDER)) as [->|];
        [by rewrite list_lookup_insert_eq in Hr |- * by done|by rewrite list_lookup_insert_ne in Hr |- * by done].
    + unfold started. by rewrite tasks_at.
  - etrans; [|exact inv_order0]. rewrite !worker_carried_set, Et, !app_assoc.
    apply sublist_app; [|done]. case_decide as Hd; [done|].
    assert (carried f = None) as Hnone.
    { destruct Hf as [Hrole _ _ _ _ _ _ _ _ _]. destruct i as [|[|[|i]]]; simpl in Hrole.
      - exfalso. apply Hd. split; [done|lia].
      - apply neutral_holds in Hrole. tauto.
      - apply neutral_holds in Hrole. tauto.
      - tauto. }
    rewrite Hnone in Hord. simpl in Hord. rewrite app_nil_r in Hord.
    unfold worker_carried. rewrite Et. apply sublist_app; [|done].
    etrans; [|exact Hord]. by apply sublist_inserts_r.
  - intros Hcl. destruct (inv_closed0 Hcl) as (? & ? & Hw). split_and!; [done..|].
    unfold running in *. destruct (decide (i = WORKER)) as [->|].
    + by rewrite tasks_at in Hw by done.
    + rewrite tasks_other in * by done. by rewrite Et.
Qed.

Lemma inv_move es l off i f t s s' o o' :
  inv_at i (Running f) es l off s o → same_core s s' → Forall (quiet (session_id s)) o' →
  task_local i t s o → lock_step f t s s' →
  task_carried t `sublist_of` option_list (carried f) →
  inv_at i t es l off s' (o ++ o').
Proof.
  intros H [Ec Es El Ea Et Ep Eg Ed] Hq Hl Hk Hc. destruct (quiet_history _ _ Hq) as (Qa & Qr & Qs & Qi).
  eapply inv_step; [exact H|]. destruct H as [Hi []].
  assert (∀ j g, local j g s o → local j g s' (o ++ o')) as Hloc.
  { intros j g Hj. apply local_same with (s := s) (o := o); try done; by rewrite ?Ea, ?Eg. }
  split; rewrite ?Ec, ?Es, ?El, ?Ea, ?Qa, ?Qr, ?Qs; try done; auto.
  - destruct t; simpl in *; auto.
  - intros r n [Hin|Hin]%elem_of_app; eauto.
  - by apply sublist_app.
Qed.

(** ** The transcript is the list *)

Lemma duplicate_listed l t m : log_ok l t → duplicate m t = listed l m.
Proof.
  intros [_ Hk Hl _ _]. unfold duplicate, listed. destruct (turn_key m) as [k|] eqn:Ek.
  - rewrite Hk. apply eq_bool_prop_intro. rewrite bool_decide_spec, Is_true_true, existsb_elem_of.
    rewrite list_elem_of_omap. unfold same_key. split.
    + intros (m' & Hin & Hm). exists m'. split; [done|]. destruct (turn_key m') eqn:E'; [|done].
      injection Hm as Hr ->. rewrite Ek, Hr, str_eqb_refl, bool_decide_eq_true_2; done.
    + intros (m' & Hin & Hm). exists m'. split; [done|].
      apply andb_true_iff in Hm as [Hr%str_eqb_true Hm%bool_decide_eq_true_1].
      simpl. by rewrite <-Hm, Ek, Hr.
  - rewrite Hl. destruct (last l) as [m'|]; simpl.
    + apply eq_bool_prop_intro. rewrite bool_decide_spec, Is_true_true, andb_true_iff, !str_eqb_true.
      split; [by intros [= -> ->]|by intros [-> ->]].
    + by rewrite bool_decide_eq_false_2.
Qed.

Lemma user_texts_snoc l m :
  user_texts (l ++ [m]) = user_texts l ++ if role m =s lit "user" then [content m] else [].
Proof.
  unfold user_texts. rewrite List.filter_app, map_app. simpl. by destruct (role m =s lit "user").
Qed.

Lemma log_ok_append l t m : log_ok l t → log_ok (l ++ [m]) (append_message m t).
Proof.
  intros [Hs Hk Hl Hr Hu]. split; simpl.
  - rewrite Hs, length_app. simpl. lia.
  - rewrite omap_app, Hk. simpl. by destruct (turn_key m); simpl; rewrite ?app_nil_r.
  - by rewrite last_snoc.
  - rewrite user_texts_snoc, Hr. destruct (role m =s lit "user"); [|by rewrite app_nil_r].
    change 6%nat with (S 5). unfold last_n at 3. rewrite length_app. simpl (length [_]).
    unfold last_n. rewrite length_drop, drop_drop.
    rewrite drop_app_le by lia. f_equal. f_equal. lia.
  - rewrite user_texts_snoc, Hu. destruct (role m =s lit "user"); [by rewrite last_snoc|by rewrite app_nil_r].
Qed.

Lemma listed_append l m : listed l m = true → append l m = l.
Proof. unfold append. by intros ->. Qed.

(** ** The segments keep it *)

Definition kept (i : nat) (es : list event) (g : segment) (o : list effect) : Prop :=
  let '(s, o', next) := g in ∃ l off, inv_at i (after_segment i next) es l off s (o ++ o').

#[local] Arguments after_segment : simpl never.

Section segments.
Context (i : nat) (es : list event) (l off : list message).
Abbreviation at_ f s o := (inv_at i (Running f) es l off s o) (only parsing).

Lemma at_local f s o : at_ f s o → local i f s o.
Proof.
  intros [Hi H]. apply (local_task i f i (Running f)). apply (inv_local _ _ _ _ _ H). by apply tasks_at.
Qed.

Lemma held_one P f s :
  (i < length (tasks s))%nat → P f = true → (1 ≤ held_by P (set_task i (Running f) s))%nat.
Proof. intros Hi Hp. destruct (held_by_set P i s Hi) as [n Hn]. rewrite Hn. simpl. rewrite Hp. simpl. lia. Qed.

(** A lock some task holds is taken. *)
Lemma at_locked f s o : at_ f s o →
  (holds_start f = true → start_locked s = true) ∧
  (holds_write f = true → write_locked s = true) ∧
  (holds_close f = true → close_locked s = true).
Proof.
  intros [Hi []]. split_and!; intros Hp; (eapply held_one in Hp; [|exact Hi]).
  - rewrite inv_start0 in Hp. simpl in Hp. destruct (start_locked s); simpl in Hp; [done|lia].
  - rewrite inv_write0 in Hp. simpl in Hp. destruct (write_locked s); simpl in Hp; [done|lia].
  - rewrite inv_close0 in Hp. simpl in Hp. destruct (close_locked s); simpl in Hp; [done|lia].
Qed.

(** Only one task opens the session. *)
Lemma at_opener f s o j g :
  at_ f s o → holds_start f = true → j ≠ i → tasks s !! j = Some (Running g) → holds_start g = false.
Proof.
  intros [Hi H] Hf Hj Hg. destruct (holds_start g) eqn:E; [|done]. exfalso. apply Hj.
  apply (held_by_two holds_start j i g f (set_task i (Running f) s)); try done.
  - by rewrite tasks_other.
  - by apply tasks_at.
  - rewrite (inv_start _ _ _ _ _ H). destruct (start_locked _); simpl; lia.
Qed.

(** Only the worker stores messages. *)
Lemma at_posting f s o j g :
  at_ f s o → i = WORKER → j ≠ i → tasks s !! j = Some (Running g) → posting g = false.
Proof.
  intros [Hi H] -> Hj Hg. assert (local j g s o) as [Hr _ _ _ _ _ _ _ _ _].
  { apply (local_task j g WORKER (Running f)), (inv_local _ _ _ _ _ H). by rewrite tasks_other. }
  destruct j as [|[|[|j]]]; simpl in Hr; [done|apply neutral_holds in Hr; tauto..|tauto].
Qed.
(** A step that ends the task: the worker goes back to its queue. *)
Lemma local_idle f s o t : after_segment i None = t → local i f s o → task_local i t s o.
Proof.
  intros <- [Hr _ _ _ _ _ _ _ _ _]. unfold after_segment. destruct (Nat.eqb_spec i WORKER) as [->|]; [|done].
  by split.
Qed.

Lemma idle_holds P : P WorkerPoll = false → task_holds P (after_segment i None) = false.
Proof. intros H. unfold after_segment. by destruct (i =? WORKER)%nat. Qed.

Lemma idle_carried : task_carried (after_segment i None) = [].
Proof. unfold after_segment. by destruct (i =? WORKER)%nat. Qed.

Lemma kept_end f s s' o o' :
  at_ f s o → same_core s s' → Forall (quiet (session_id s)) o' →
  (start_locked s' = start_locked s && negb (holds_start f)) →
  (write_locked s' = write_locked s && negb (holds_write f)) →
  (close_locked s' = close_locked s && negb (holds_close f)) →
  kept i es (s', o', None) o.
Proof.
  intros H Hs Hq L1 L2 L3. exists l, off. destruct (at_locked _ _ _ H) as (T1 & T2 & T3).
  eapply inv_move; [exact H|done|done| | |].
  - eapply local_idle; [done|]. by eapply at_local.
  - unfold lock_step. rewrite L1, L2, L3, !idle_holds by done.
    split_and!; [destruct (holds_start f)|destruct (holds_write f)|destruct (holds_close f)];
      rewrite ?T1, ?T2, ?T3 by done; simpl; rewrite ?andb_true_r; lia.
  - rewrite idle_carried. apply sublist_nil_l.
Qed.

(** A step to another suspension point. *)
Lemma kept_next f g s s' o o' :
  at_ f s o → same_core s s' → Forall (quiet (session_id s)) o' → (local i f s o → local i g s o) →
  lock_step f (Running g) s s' → (carried g = carried f ∨ carried g = None) →
  kept i es (s', o', Some g) o.
Proof.
  intros H Hs Hq Hl Hk Hc. exists l, off. eapply inv_move; [exact H|done|done| |done|].
  - apply Hl. by eapply at_local.
  - simpl. destruct Hc as [->| ->]; [done|]. apply sublist_nil_l.
Qed.

(** Requests that neither open a session nor store a message. *)
Definition plain (r : request) (k : kont) : Prop :=
  match r with
  | Resolve _ | SessionStart _ | PostMessage _ _ => False
  | _ => match k with KResolve _ | KSession _ | KMessage => False | _ => True end
  end.

Lemma kept_request f s s' o r k :
  at_ f s o → same_core s s' → scoped (session_id s) r → plain r k →
  lock_step f (Running (Disabled k)) s s' → role_ok i (Disabled k) →
  (kont_starts k = true → start_attempted s = true) → (kont_closes k = true → closing s = true) →
  (carried (Disabled k) = carried f ∨ carried (Disabled k) = None) →
  kept i es (_request r k s') o.
Proof.
  intros H Hs Hsc Hp Hk Hr Hst Hcl Hc.
  assert (session_id s ≠ []) as Hne by (destruct r; simpl in *; tauto).
  pose proof (proj2 H) as HI. destruct (inv_session _ _ _ _ _ HI Hne) as (_ & _ & Hen).
  unfold _request. rewrite Hen.
  eapply kept_next; [exact H|done|by constructor; [by destruct r|]| |done|done]. intros _.
  split; [by eapply kont_frame|by destruct r, k..|exact Hst|exact Hcl|by destruct r, k| | | |by destruct r, k].
  - by intros ? [= <-].
  - intros ? ? [= <-] [= <-]. by destruct r.
  - by intros ? [=].
Qed.

Lemma kept_add_message m s o :
  at_ (AcquireStart (ThenMessage m)) s o → kept i es (add_message m s) o.
Proof.
  intros H. pose proof (at_local _ _ _ H) as Hloc. destruct (at_locked _ _ _ H) as (_ & Tw & _).
  specialize (Tw eq_refl). assert (i = WORKER) as Hi.
  { destruct Hloc as [Hr _ _ _ _ _ _ _ _ _]. destruct i as [|[|[|?]]]; simpl in Hr; try done. by destruct Hr as (_ & ? & _). }
  unfold add_message. destruct (session_id s =s []) eqn:Es.
  { eapply kept_end; [exact H|by split|by repeat constructor|..]; simpl;
      rewrite ?andb_true_r, ?andb_false_r; done. }
  apply str_eqb_false in Es. pose proof H as [Hlt HI].
  pose proof (inv_log _ _ _ _ _ HI) as Hlog. simpl in Hlog.
  destruct (inv_session _ _ _ _ _ HI Es) as (_ & _ & Hen).
  rewrite (duplicate_listed _ _ m Hlog). destruct (listed l m) eqn:Hd.
  - exists l, (off ++ [m]). eapply inv_step; [exact H|]. destruct HI. simpl in *.
    split; rewrite ?app_nil_r; simpl; try done.
    + unfold lock_step. rewrite !idle_holds by done. simpl. rewrite Tw. simpl. lia.
    + intros j g _ _ Hg. by apply (local_same _ _ _ _ _ _ Hg).
    + eapply local_idle; [done|]. by apply (local_same _ _ _ _ _ _ Hloc).
    + rewrite foldl_app, <-inv_list0. simpl. by rewrite listed_append.
    + by rewrite idle_carried, app_nil_r.
  - assert (sequence (append_message m (log s)) = Z.of_nat (length l) + 1) as Hseq
      by (simpl; by rewrite (log_sequence _ _ Hlog)).
    set (r := PostMessage (conversation_id s)
                (message_payload (session_id s) m (sequence (append_message m (log s))))).
    assert (r = post_of (conversation_id s) (session_id s) (length l) m) as Hr
      by (unfold r; by rewrite Hseq).
    simpl. unfold _request. rewrite Hen. exists (l ++ [m]), (off ++ [m]).
    eapply inv_step; [exact H|]. destruct HI. simpl in *.
    fold r. assert (scoped (session_id s) r) as Hsc by (split; [reflexivity|done]).
    assert (attempts (o ++ [Http r 0]) = attempts o ++ [(r, 0%nat)]) as Hat
      by (unfold attempts; by rewrite omap_app).
    assert (resolves (o ++ [Http r 0]) = resolves o) as Hres
      by (unfold resolves; rewrite count_app; apply Nat.add_0_r).
    assert (session_starts (o ++ [Http r 0]) = session_starts o) as Hst
      by (unfold session_starts; rewrite count_app; apply Nat.add_0_r).
    split; rewrite ?Hres, ?Hst, ?Hat; try done.
    + intros j g Hj Hg Hl. pose proof (at_posting _ _ _ _ _ H Hi Hj Hg) as Hp.
      destruct Hl. split; rewrite ?Hst; simpl; try done. by rewrite Hp.
    + split; simpl; rewrite ?Hst; try done.
      * by subst i.
      * by intros ? [= <-].
      * intros ? ? [= <-] [= <-]. done.
      * intros r' _ [[= <-]|[=]]. by exists (attempts o).
    + intros r' n [Hin|Hin%list_elem_of_singleton]%elem_of_app; [eauto|]. by injection Hin as -> ->.
    + rewrite foldl_app, <-inv_list0. unfold append at 1. simpl. by rewrite Hd.
    + simpl. by rewrite app_nil_r.
    + by apply log_ok_append.
    + rewrite imap_app. simpl. rewrite Nat.add_0_r, <-Hr. by apply deliveries_first.
Qed.

Lemma kept_transfer reason p s o :
  at_ (AcquireStart (ThenTransfer reason p)) s o → kept i es (transfer_started reason p s) o.
Proof.
  intros H. pose proof (at_local _ _ _ H) as Hloc. destruct (at_locked _ _ _ H) as (_ & Tw & _).
  specialize (Tw eq_refl). unfold transfer_started. destruct (_ || _) eqn:Es.
  { eapply kept_end; [exact H|by split|constructor|..]; simpl; rewrite ?andb_true_r, ?andb_false_r; done. }
  apply orb_false_iff in Es as [Es _]. apply str_eqb_false in Es.
  eapply kept_request; [exact H|by split|done|done| | |done|done|by right].
  - by unfold lock_step.
  - destruct Hloc as [Hr _ _ _ _ _ _ _ _ _]. by destruct i as [|[|[|?]]].
Qed.

Lemma kept_then a s o : at_ (AcquireStart a) s o → kept i es (then_ a s) o.
Proof.
  intros H. destruct a as [|m|reason p]; [|by apply kept_add_message|by apply kept_transfer].
  eapply kept_end; [exact H|by split|constructor|..]; by rewrite andb_true_r.
Qed.

(** [start()] returns: its lock is given back. *)
Lemma at_returned f a s s' o :
  at_ f s o → same_core s s' → start_locked s' = false → holds_start f = true →
  holds_write f = writes a → holds_close f = false → carried f = message_of a → posting f = false →
  write_locked s' = write_locked s → close_locked s' = close_locked s →
  at_ (AcquireStart a) s' o.
Proof.
  intros H Hs Hl Hst Hw Hc Hm Hp L2 L3. destruct (at_locked _ _ _ H) as (T1 & _ & _).
  pose proof (at_local _ _ _ H) as Hloc. rewrite <-(app_nil_r o).
  eapply inv_move; [exact H|done|constructor| | |].
  - destruct Hloc as [Hr _ _ Ha _ _ _ _ _ _]. split; simpl; try done.
    destruct i as [|[|[|?]]]; simpl in *; try done;
      [apply neutral_holds in Hr as (? & _); congruence..|].
    split_and!; [done|destruct Hr as (_ & ? & _); congruence|done].
  - unfold lock_step. simpl. rewrite Hl, L2, L3, Hst, Hw, Hc, T1 by done. simpl. lia.
  - simpl. by rewrite Hm.
Qed.

Lemma local_opener f s o : local i f s o → holds_start f = true → i ≠ RECORDER ∧ i ≠ STOPPER.
Proof.
  intros [Hr _ _ _ _ _ _ _ _ _] Hf. split; intros Hi; rewrite Hi in Hr; simpl in Hr;
    apply neutral_holds in Hr as (? & _); congruence.
Qed.

Lemma kept_start a s o :
  at_ (AcquireStart a) s o → start_locked s = false → kept i es (start_granted a s) o.
Proof.
  intros H Hfree. unfold start_granted. destruct (start_attempted s || closed s) eqn:Ea; [by apply kept_then|].
  apply orb_false_iff in Ea as [Ea _]. pose proof H as [Hlt HI]. pose proof (at_local _ _ _ H) as Hloc.
  assert (session_id s = []) as Hs.
  { destruct (decide (session_id s = [])) as [|Hne]; [done|].
    destruct (inv_session _ _ _ _ _ HI Hne) as [? _]. simpl in *. congruence. }
  pose proof (inv_resolves _ _ _ _ _ HI) as Hr0. pose proof (inv_starts _ _ _ _ _ HI) as Hs0.
  simpl in Hr0, Hs0. rewrite Ea in Hr0, Hs0. simpl in Hr0, Hs0.
  set (s1 := set_flags true (closing s) (closed s) s).
  assert (∀ j g, local j g s o → local j g s1 o) as Hl1.
  { intros j g Hg. by apply (local_same _ _ _ _ _ _ Hg). }
  destruct enabled eqn:Hen; simpl.
  - unfold _request. rewrite Hen. exists l, off. eapply inv_step; [exact H|]. destruct HI. simpl in *.
    assert (attempts (o ++ [Http (Resolve resolve_payload) 0]) = attempts o) as Hat
      by (unfold attempts; rewrite omap_app; simpl; by rewrite app_nil_r).
    assert (session_starts (o ++ [Http (Resolve resolve_payload) 0]) = session_starts o) as Hst
      by (unfold session_starts; rewrite count_app; apply Nat.add_0_r).
    split; rewrite ?Hst, ?Hat; simpl; try done.
    + unfold lock_step. simpl. rewrite Hfree. simpl. lia.
    + intros j g _ _ Hg. by apply (local_same _ _ _ _ _ _ Hg).
    + split; simpl; rewrite ?Hst; try done.
      * destruct Hloc as [Hr _ _ _ _ _ _ _ _ _]. by destruct i as [|[|[|?]]].
      * intros _. split; [done|lia].
      * by intros ? [= <-].
      * intros ? ? [= <-] [= <-]. by exists a.
    + unfold resolves in *. rewrite count_app. simpl. unfold count at 2. simpl. lia.
    + lia.
    + intros r' n [Hin|Hin%list_elem_of_singleton]%elem_of_app; [eauto|]. by injection Hin as -> ->.
  - apply kept_then. rewrite <-(app_nil_r o). eapply inv_step; [exact H|]. destruct HI. simpl in *.
    split; rewrite ?app_nil_r; simpl; try done; try lia; auto.
Qed.

(** The service's id of the conversation, while there is no session yet. *)
Lemma at_conversation f c s o :
  at_ f s o → holds_start f = true → opening f = false → session_id s = [] →
  at_ f (set_ids c (session_id s) s) o.
Proof.
  intros H Hf Hop Hs. pose proof (at_local _ _ _ H) as Hloc. pose proof (proj2 H) as HI.
  rewrite <-(app_nil_r o). eapply inv_step; [exact H|]. destruct HI. simpl in *.
  assert (l = []) as Hl by (destruct l; [done|]; by destruct inv_nonempty0).
  split; rewrite ?app_nil_r; simpl; try done; auto.
  - intros j g Hj Hg Hgl. pose proof (at_opener _ _ _ _ _ H Hf Hj Hg) as Hst.
    assert (opening g = false) as Hg0.
    { unfold opening, kont_of. destruct g; try done; simpl in Hst; by destruct k. }
    destruct Hgl. split; simpl; try done. by rewrite Hg0.
  - destruct Hloc. split; simpl; try done. by rewrite Hop.
  - by rewrite Hl in inv_deliveries0 |- *.
Qed.

Lemma kept_session_start f a payload s o :
  at_ f s o → kont_of f = Some (KResolve a) → conversation_id s ≠ [] →
  kept i es (_request (SessionStart payload) (KSession a) s) o.
Proof.
  intros H Hk Hc. pose proof (at_local _ _ _ H) as Hloc. pose proof (proj2 H) as HI.
  destruct (kont_frame _ _ Hk) as (Hst & Hw & Hcl & Hca & Hpo & Hre & Hop & Hin & Hrole).
  destruct Hloc as [Lr Lre _ La _ _ _ _ Le _].
  destruct Lre as [Hs Hn]; [by rewrite Hre|]. destruct (Le _ Hk) as [Hen _].
  unfold _request. rewrite Hen. exists l, off. eapply inv_step; [exact H|]. destruct HI. simpl in *.
  assert (attempts (o ++ [Http (SessionStart payload) 0]) = attempts o) as Hat
    by (unfold attempts; rewrite omap_app; simpl; by rewrite app_nil_r).
  assert (resolves (o ++ [Http (SessionStart payload) 0]) = resolves o) as Hrs
    by (unfold resolves; rewrite count_app; apply Nat.add_0_r).
  assert (start_attempted s = true) as Ha by (apply La; by rewrite Hst).
  split; rewrite ?Hrs, ?Hat; simpl; try done.
  - unfold lock_step. simpl. rewrite Hst, Hw, Hcl. simpl. lia.
  - intros j g Hj Hg Hgl. pose proof (at_opener _ _ _ _ _ H ltac:(by rewrite Hst) Hj Hg) as Hgs.
    assert (resolving g = false) as Hg0.
    { unfold resolving, kont_of. destruct g; try done; simpl in Hgs; by destruct k. }
    destruct Hgl. split; simpl; rewrite ?Hat; try done. by rewrite Hg0.
  - split; simpl; rewrite ?Hat; try done.
    + apply Hrole in Lr. destruct i as [|[|[|?]]]; simpl in *; try done; tauto.
    + by intros ? [= <-].
    + intros ? ? [= <-] [= <-]. by exists a.
  - rewrite Ha. unfold session_starts in *. rewrite count_app, Hn. simpl. unfold count. simpl. lia.
  - intros r' n [Hi|Hi%list_elem_of_singleton]%elem_of_app; [eauto|]. by injection Hi as -> ->.
  - by rewrite Hca.
Qed.

Lemma kept_resolved f a result s o :
  at_ f s o → kont_of f = Some (KResolve a) → kept i es (resolved a result s) o.
Proof.
  intros H Hk. pose proof (at_local _ _ _ H) as Hloc.
  destruct (kont_frame _ _ Hk) as (Hst & Hw & Hcl & Hca & Hpo & Hre & Hop & Hin & Hrole).
  destruct Hloc as [_ Lre _ _ _ _ _ _ _ _]. destruct Lre as [Hs _]; [by rewrite Hre|].
  unfold resolved.
  set (s1 := if is_failed result then s else _).
  assert (at_ f s1 o) as H1.
  { subst s1. destruct (is_failed result); [done|].
    apply at_conversation; [done|by rewrite Hst|by rewrite Hop|done]. }
  clearbody s1. destruct (conversation_id s1 =s []) eqn:Ec.
  - apply kept_then. eapply at_returned; [exact H1|by split|done|by rewrite Hst|done|done| |by rewrite Hpo|done|done].
    by rewrite Hca.
  - eapply kept_session_start; [exact H1|done|]. by apply str_eqb_false in Ec.
Qed.

(** The session's id: every task that was waiting relies on less. *)
Lemma kept_session_event f a id payload s o :
  at_ f s o → kont_of f = Some (KSession a) → id ≠ [] →
  inv_at i (Running (Request (SessionEvent id payload) 0 (KOpened a))) es l off
    (set_ids (conversation_id s) id s) (o ++ [Http (SessionEvent id payload) 0]).
Proof.
  intros H Hk Hid. pose proof (at_local _ _ _ H) as Hloc. pose proof (proj2 H) as HI.
  destruct (kont_frame _ _ Hk) as (Hst & Hw & Hcl & Hca & Hpo & Hre & Hop & Hin & Hrole).
  destruct Hloc as [Lr _ Lo La _ _ _ _ Le _]. destruct Lo as [Hs Hc]; [by rewrite Hop|].
  eapply inv_step; [exact H|]. destruct HI. simpl in *.
  assert (l = []) as Hl by (destruct l; [done|]; by destruct inv_nonempty0).
  assert (Forall (quiet id) [Http (SessionEvent id payload) 0]) as Hq
    by (constructor; [by split|done]).
  destruct (quiet_history _ _ Hq) as (Qa & Qr & Qs & Qi).
  assert (start_attempted s = true) as Ha by (apply La; by rewrite Hst).
  assert (∀ r, scoped (session_id s) r → scoped id r) as Hmono
    by (intros r; rewrite Hs; destruct r; simpl; tauto).
  split; rewrite ?Qa, ?Qr, ?Qs; simpl; try done.
  - unfold lock_step. simpl. rewrite Hst, Hw, Hcl. simpl. lia.
  - intros j g Hj Hg Hgl. pose proof (at_opener _ _ _ _ _ H ltac:(by rewrite Hst) Hj Hg) as Hgs.
    assert (resolving g = false ∧ opening g = false) as [Hg1 Hg2].
    { unfold resolving, opening, kont_of. destruct g; try done; simpl in Hgs; by destruct k. }
    destruct Hgl. split; simpl; rewrite ?Qa; try done; rewrite ?Hg1, ?Hg2; try done; eauto.
  - split; simpl; rewrite ?Qa; try done.
    + apply Hrole in Lr. destruct i as [|[|[|?]]]; simpl in *; try done; tauto.
    + by intros ? [= <-].
    + by intros ? ? [= <-] [= <-].
    + intros ? _. split; [by apply (Le _ Hk)|done].
  - intros _. split_and!; [done..|]. by apply (Le _ Hk).
  - intros r n [Hi|Hi]%elem_of_app; [|eauto]. apply Hmono. eauto.
  - by rewrite Hca.
  - by rewrite Hl in inv_deliveries0 |- *.
Qed.
End segments.

Lemma held_by_neutral P j t s :
  (j < length (tasks s))%nat → (∀ g, tasks s !! j = Some (Running g) → P g = false) →
  task_holds P t = false → held_by P (set_task j t s) = held_by P s.
Proof.
  intros Hj Hold Ht. destruct (held_by_set P j s Hj) as [n Hn]. rewrite Hn, Ht. simpl.
  destruct (lookup_lt_is_Some_2 _ _ Hj) as [old Hlk].
  assert (held_by P s = held_by P (set_task j old s)) as ->.
  { unfold held_by, set_task, set_tasks. simpl. by rewrite list_insert_id. }
  rewrite Hn. destruct old as [|g|]; simpl; [done| |done]. by rewrite Hold.
Qed.

(** The recording tasks come and go without the others noticing. *)
Lemma inv_aux j t es l off s o :
  inv es l off s o →
  (j = RECORDER ∧ session_id s ≠ [] ∧ t ∈ [Running RecorderNew; Finished])
  ∨ (j = STOPPER ∧ t ∈ [Running StopperNew; Finished]) → inv es l off (set_task j t s) o.
Proof.
  intros H Hjt. destruct H.
  assert (j = RECORDER ∨ j = STOPPER) as Hj by naive_solver.
  assert (t = Running RecorderNew ∨ t = Running StopperNew ∨ t = Finished) as Ht
    by (rewrite !elem_of_cons, !elem_of_nil in Hjt; naive_solver).
  assert (j < length (tasks s))%nat as Hlt by (unfold RECORDER, STOPPER in Hj; lia).
  assert (∀ g, tasks s !! j = Some (Running g) → neutral g = true) as Hold.
  { intros g Hg. apply inv_local0 in Hg as [Hr _ _ _ _ _ _ _ _ _]. by destruct Hj as [-> | ->]. }
  split; simpl; try done.
  - by rewrite length_insert.
  - rewrite <-inv_start0. apply held_by_neutral; [done| |by destruct Ht as [->|[->| ->]]].
    intros g Hg. by apply Hold, neutral_holds in Hg as [? _].
  - rewrite <-inv_write0. apply held_by_neutral; [done| |by destruct Ht as [->|[->| ->]]].
    intros g Hg. by apply Hold, neutral_holds in Hg as (_ & ? & _).
  - rewrite <-inv_close0. apply held_by_neutral; [done| |by destruct Ht as [->|[->| ->]]].
    intros g Hg. by apply Hold, neutral_holds in Hg as (_ & _ & ? & _).
  - intros k g Hk. apply local_task. destruct (decide (k = j)) as [Hkj|Hkj]; [rewrite Hkj in *|].
    + rewrite list_lookup_insert_eq in Hk by done. injection Hk as ->.
      rewrite !elem_of_cons, !elem_of_nil in Hjt.
      destruct Hjt as [(-> & Hne & [[= ->]|[|]])|(-> & [[= ->]|[|]])]; try done; by split.
    + rewrite list_lookup_insert_ne in Hk by done. by apply inv_local0.
  - destruct Hjt as [(_ & ? & _)|[-> _]]; [done|]. unfold started in *.
    by rewrite tasks_other.
  - rewrite worker_carried_set, decide_False; [done|].
    unfold RECORDER, STOPPER, WORKER in *. lia.
  - intros Hcl. destruct (inv_closed0 Hcl) as (? & ? & Hw). split_and!; [done..|].
    unfold running in *. rewrite tasks_other; [done|]. unfold RECORDER, STOPPER, WORKER in *. lia.
Qed.

Lemma set_task_comm i j t u s : i ≠ j → set_task i t (set_task j u s) = set_task j u (set_task i t s).
Proof. intros H. unfold set_task, set_tasks. simpl. by rewrite list_insert_insert_ne. Qed.

Section segments2.
Context (i : nat) (es : list event) (l off : list message).
Abbreviation at_ f s o := (inv_at i (Running f) es l off s o) (only parsing).

Lemma kept_session_opened f a result s o :
  at_ f s o → kont_of f = Some (KSession a) → kept i es (session_opened a result s) o.
Proof.
  intros H Hk. pose proof (at_local _ _ _ _ _ _ _ H) as Hloc.
  destruct (kont_frame _ _ Hk) as (Hst & Hw & Hcl & Hca & Hpo & Hre & Hop & Hin & Hrole).
  assert (session_id s = []) as Hs by (destruct Hloc as [_ _ Lo _ _ _ _ _ _ _]; apply Lo; by rewrite Hop).
  assert (enabled = true) as Hen by (destruct Hloc as [_ _ _ _ _ _ _ _ Le _]; by apply (Le _ Hk)).
  unfold session_opened.
  set (s1 := if is_failed result then s else set_ids (conversation_id s) (session_of result) s).
  assert (session_id s1 = [] → at_ f s1 o) as H1.
  { subst s1. destruct (is_failed result); [done|]. simpl. intros ->.
    assert (set_ids (conversation_id s) [] s = s) as -> by (rewrite <-Hs; by destruct s). done. }
  destruct (session_id s1 =s []) eqn:Ec.
  - apply str_eqb_true in Ec. specialize (H1 Ec). eapply kept_then. eapply at_returned;
      [exact H1|by split|done|by rewrite Hst|done|done| |by rewrite Hpo|done|done]. by rewrite Hca.
  - apply str_eqb_false in Ec.
    assert (∃ id, id ≠ [] ∧ s1 = set_ids (conversation_id s) id s) as (id & Hid & Heq).
    { exists (session_id s1). split; [done|]. subst s1. destruct (is_failed result); [|done]. by destruct s. }
    clearbody s1. subst s1. unfold _request. rewrite Hen. exists l, off.
    destruct (kept_session_event _ _ _ _ f a id session_started_event s o H Hk Hid) as [Hlt HI].
    split; [simpl; by rewrite length_insert|].
    rewrite set_task_comm; [apply inv_aux; [exact HI|left; split_and!; [done..|by left]]|].
    destruct (local_opener _ _ _ _ Hloc) as [? _]; [by rewrite Hst|done].
Qed.
End segments2.

(** Steps that move no task. *)
Lemma kept_inv_same es l off s s' o :
  inv es l off s o → same_core s s' → start_locked s' = start_locked s →
  write_locked s' = write_locked s → close_locked s' = close_locked s → inv es l off s' o.
Proof.
  intros [] [Ec Es El Ea Et Ep Eg Ed] L1 L2 L3.
  split; unfold held_by, worker_carried, started, running in *;
    rewrite ?Ec, ?Es, ?El, ?Ea, ?Et, ?Ep, ?Eg, ?Ed, ?L1, ?L2, ?L3; try done.
  intros j g Hg. apply local_same with (s := s) (o := o); try done; rewrite ?Ea, ?Eg; auto.
Qed.

Lemma inv_closing_set es l off s o :
  inv es l off s o → inv es l off (set_flags (start_attempted s) true (closed s) s) o.
Proof.
  intros []. split; try done.
  - intros j g Hg. by apply (local_same _ _ _ _ _ _ (inv_local0 j g Hg)).
  - intros Hc. destruct (inv_closed0 Hc) as (_ & ? & ?). done.
Qed.

Lemma inv_drop es l off s o : inv es l off s o → inv es l off (set_pending [] s) o.
Proof.
  intros []. split; simpl; try done; [| |lia|].
  - intros j g Hg. by apply (local_same _ _ _ _ _ _ (inv_local0 j g Hg)).
  - etrans; [|exact inv_order0]. apply sublist_app; [done|]. apply sublist_app; [done|]. apply sublist_nil_l.
  - intros Hc. destruct (inv_closed0 Hc) as (? & _ & ?). done.
Qed.

Lemma inv_closed_set es l off s o :
  inv es l off s o → closing s = true → pending s = [] → running WORKER s = false →
  inv es l off (set_flags (start_attempted s) (closing s) true s) o.
Proof.
  intros [] Hg Hp Hw. split; try done.
  intros j g Hj. by apply (local_same _ _ _ _ _ _ (inv_local0 j g Hj)).
Qed.

(** Cancelling a task gives back what it holds. *)
Lemma inv_kill j es l off s o : inv es l off s o → inv es l off (kill j s) o.
Proof.
  intros H. unfold kill. destruct (tasks s !! j) as [[|f|]|] eqn:Hj; try done.
  assert (inv_at j (Running f) es l off s o) as Hat.
  { split; [by eapply lookup_lt_Some|].
    assert (set_task j (Running f) s = s) as ->; [|done].
    unfold set_task, set_tasks. rewrite list_insert_id by done. by destruct s. }
  destruct (at_locked _ _ _ _ _ _ _ Hat) as (T1 & T2 & T3).
  apply (inv_move _ _ _ _ _ Finished s (release f s) o []) in Hat as [_ Hi];
    [by rewrite app_nil_r in Hi|by split|constructor|done| |apply sublist_nil_l].
  unfold lock_step, release. simpl.
  split_and!; [destruct (holds_start f)|destruct (holds_write f)|destruct (holds_close f)];
    rewrite ?T1, ?T2, ?T3 by done; simpl; rewrite ?andb_true_r, ?andb_false_r; simpl; lia.
Qed.

Lemma kill_other i j t s : i ≠ j → kill j (set_task i t s) = set_task i t (kill j s).
Proof.
  intros Hij. unfold kill. rewrite tasks_other by done.
  destruct (tasks s !! j) as [[|f|]|]; try done. by rewrite <-set_task_comm.
Qed.

Lemma kill_length j s : length (tasks (kill j s)) = length (tasks s).
Proof. unfold kill. destruct (tasks s !! j) as [[|f|]|]; try done. simpl. by rewrite length_insert. Qed.

Lemma kill_flags j a b c s : kill j (set_flags a b c s) = set_flags a b c (kill j s).
Proof. unfold kill. simpl. by destruct (tasks s !! j) as [[|f|]|]. Qed.

Lemma kill_fields j s :
  pending (kill j s) = pending s ∧ closing (kill j s) = closing s ∧ closed (kill j s) = closed s
  ∧ start_attempted (kill j s) = start_attempted s ∧ session_id (kill j s) = session_id s
  ∧ conversation_id (kill j s) = conversation_id s.
Proof. unfold kill. by destruct (tasks s !! j) as [[|f|]|]. Qed.

Lemma kill_not_running j s : running j (kill j s) = false.
Proof.
  unfold kill, running. destruct (tasks s !! j) as [[|f|]|] eqn:E; rewrite ?E; try done.
  rewrite tasks_at; [done|]. by eapply lookup_lt_Some.
Qed.

Lemma running_kill_other j k s : j ≠ k → running k (kill j s) = running k s.
Proof.
  intros H. unfold kill, running. destruct (tasks s !! j) as [[|f|]|]; try done. by rewrite tasks_other.
Qed.

Lemma at_kill i t j es l off s o :
  i ≠ j → inv_at i t es l off s o → inv_at i t es l off (kill j s) o.
Proof.
  intros Hij [Hi H]. split; [by rewrite kill_length|].
  rewrite <-kill_other by done. by apply inv_kill.
Qed.

Lemma inv_schedule es l off s o : inv es l off s o → inv es l off (_schedule_recording_stop s) o.
Proof.
  intros H. unfold _schedule_recording_stop. case_match; [|done].
  apply inv_aux; [done|]. right. split; [done|by left].
Qed.

Lemma inv_disconnected elapsed now es l off s o :
  inv es l off s o → inv es l off (mark_disconnected elapsed now s) o.
Proof.
  intros H. unfold mark_disconnected. apply inv_schedule. destruct (duration_seconds s); [done|].
  eapply kept_inv_same; [exact H|by split|done..].
Qed.

Section closing.
Context (i : nat) (es : list event) (l off : list message).
Abbreviation at_ f s o := (inv_at i (Running f) es l off s o) (only parsing).

Lemma closer_index f s o : local i f s o → holds_close f = true → (3 ≤ i)%nat.
Proof.
  intros [Hr _ _ _ _ _ _ _ _ _] Hc. destruct i as [|[|[|?]]]; simpl in Hr; [..|lia].
  - destruct f; try done; simpl in *; congruence.
  - apply neutral_holds in Hr as (_ & _ & ? & _). congruence.
  - apply neutral_holds in Hr as (_ & _ & ? & _). congruence.
Qed.

(** Between two suspensions of [close]. *)
Lemma at_closing f s s' o :
  at_ f s o → same_core s s' → holds_close f = true → holds_start f = false → holds_write f = false →
  start_locked s' = start_locked s → write_locked s' = write_locked s →
  close_locked s' = close_locked s → at_ CloseDrain s' o.
Proof.
  intros H Hs Hc H1 H2 L1 L2 L3. pose proof (at_local _ _ _ _ _ _ _ H) as Hl.
  pose proof (closer_index _ _ _ Hl Hc) as Hi. rewrite <-(app_nil_r o).
  eapply inv_move; [exact H|done|constructor| | |apply sublist_nil_l].
  - destruct Hl. split; simpl; try done; [|by intros; apply loc_closing0].
    by destruct i as [|[|[|?]]]; [lia..|].
  - unfold lock_step. simpl. rewrite L1, L2, L3, H1, H2, Hc. simpl. lia.
Qed.

Lemma kept_close_finally s o : at_ CloseDrain s o → kept i es (close_finally s) o.
Proof.
  intros H. pose proof (at_local _ _ _ _ _ _ _ H) as Hl. pose proof (closer_index _ _ _ Hl eq_refl) as Hi.
  assert (closing s = true) as Hg by (by apply (loc_closing _ _ _ _ Hl)).
  unfold close_finally. rewrite !kill_flags.
  set (k := kill STOPPER (kill RECORDER (kill WORKER s))).
  assert (at_ CloseDrain k o) as Hk
    by (repeat apply at_kill; try done; unfold STOPPER, RECORDER, WORKER; lia).
  assert (closing k = true ∧ start_attempted k = start_attempted s ∧ running WORKER k = false)
    as (Hck & Hsk & Hwk).
  { subst k. unfold STOPPER, RECORDER. rewrite !running_kill_other, kill_not_running by done.
    repeat match goal with |- context [kill ?j ?x] =>
      let F := fresh in pose proof (kill_fields j x) as F; destruct F as (_ & -> & _ & -> & _) end.
    done. }
  rewrite <-Hsk. replace (closing s) with (closing k) by congruence.
  clearbody k.
  assert (at_ CloseDrain (set_flags (start_attempted k) (closing k) true (set_pending [] k)) o) as Hf.
  { destruct Hk as [Hlt Hk]. split; [done|]. apply inv_drop in Hk.
    apply (inv_closed_set _ _ _ _ _ Hk); try done.
    unfold running in *. simpl. by rewrite list_lookup_insert_ne by (unfold WORKER; lia). }
  apply (kept_end _ _ l off CloseDrain
    (set_flags (start_attempted k) (closing k) true (set_pending [] k))); [|by split|constructor| | |].
  - exact Hf.
  - simpl. by rewrite andb_true_r.
  - simpl. by rewrite andb_true_r.
  - simpl. by rewrite andb_false_r.
Qed.
(** A request of a closing task. *)
Lemma kept_close_request r k s s' o :
  at_ CloseDrain s o → same_core s s' → scoped (session_id s) r → plain r k → kont_closes k = true →
  start_locked s' = start_locked s → write_locked s' = write_locked s →
  close_locked s' = close_locked s → kept i es (_request r k s') o.
Proof.
  intros H Hs Hsc Hp Hk L1 L2 L3. pose proof (at_local _ _ _ _ _ _ _ H) as Hl.
  pose proof (closer_index _ _ _ Hl eq_refl) as Hi.
  assert (kont_starts k = false ∧ kont_writes k = false ∧ carried (Disabled k) = None ∧ posting (Disabled k) = false)
    as (K1 & K2 & K3 & K4) by (destruct k as [| | | | | |[]|? []|]; try done).
  eapply kept_request; [exact H|done..| | | | |by right].
  - unfold lock_step. simpl. rewrite L1, L2, L3, K1, K2, Hk. done.
  - destruct i as [|[|[|?]]]; [lia..|]. by split_and!.
  - by rewrite K1.
  - intros _. by apply (loc_closing _ _ _ _ Hl).
Qed.

Lemma kept_publish p s s' o :
  at_ CloseDrain s o → same_core s s' → session_id s ≠ [] → p ≠ AfterRecorder →
  start_locked s' = start_locked s → write_locked s' = write_locked s →
  close_locked s' = close_locked s → kept i es (_publish_recording_status p s') o.
Proof.
  intros H Hs Hne Hp L1 L2 L3. unfold _publish_recording_status.
  eapply kept_close_request; [exact H|done| |done|by destruct p|done..].
  split; [by destruct Hs|done].
Qed.

Lemma kept_close_end s o : at_ CloseDrain s o → session_id s ≠ [] → kept i es (close_end s) o.
Proof.
  intros H Hne. eapply kept_close_request; [exact H|by split| |done..]. split; [reflexivity|done].
Qed.

Lemma kept_close_dirty s o : at_ CloseDrain s o → session_id s ≠ [] → kept i es (close_dirty s) o.
Proof.
  intros H Hne. unfold close_dirty. destruct (status_dirty s); [|by apply kept_close_end].
  eapply kept_publish; [exact H|by split|done..].
Qed.

(** A closing task's wait with the session open. *)
Lemma kept_close_next g s o' o :
  at_ CloseDrain s o → session_id s ≠ [] → Forall (quiet (session_id s)) o' →
  match g with CloseRecorder | CloseStop | CloseFinalize _ => True | _ => False end →
  kept i es (s, o', Some g) o.
Proof.
  intros H Hne Hq Hg. eapply kept_next; [exact H|by split|done| | |by destruct g; right].
  - intros Hl. pose proof (closer_index _ _ _ Hl eq_refl) as Hi.
    destruct Hl. destruct g; try done; split; simpl; try done; destruct i as [|[|[|?]]]; try done; lia.
  - by destruct g.
Qed.

Lemma kept_finalize s o : at_ CloseDrain s o → session_id s ≠ [] → kept i es (_finalize_recording s) o.
Proof.
  intros H Hne. unfold _finalize_recording. destruct (negb _); [by apply kept_close_dirty|].
  apply kept_close_next; try done. by constructor.
Qed.

Lemma kept_close_session s o : at_ CloseDrain s o → kept i es (close_session s) o.
Proof.
  intros H. unfold close_session. destruct (session_id s =s []) eqn:E; [by apply kept_close_finally|].
  apply str_eqb_false in E. destruct (started STOPPER s).
  - by apply kept_close_next.
  - by apply kept_finalize.
Qed.

Lemma kept_close_recorder s o : at_ CloseDrain s o → kept i es (close_recorder s) o.
Proof.
  intros H. unfold close_recorder. destruct (started RECORDER s) eqn:E; [|by apply kept_close_session].
  apply kept_close_next; try done. destruct H as [Hi H]. apply (inv_recorder _ _ _ _ _ H).
  unfold started in *. destruct (decide (i = RECORDER)) as [Heq|].
  - rewrite Heq, tasks_at; [done|]. by rewrite <-Heq.
  - by rewrite tasks_other.
Qed.

Lemma kept_published p s o :
  at_ CloseDrain s o → p ≠ AfterRecorder → session_id s ≠ [] → kept i es (published p s) o.
Proof.
  intros H Hp Hne. destruct p; [done|by apply kept_close_session|by apply kept_close_dirty|by apply kept_close_end].
Qed.

Lemma kept_close_granted s o :
  at_ AcquireClose s o → (3 ≤ i)%nat → close_locked s = false → kept i es (close_granted s) o.
Proof.
  intros H Hi Hfree. unfold close_granted. destruct (closed s) eqn:Hcl.
  { eapply kept_end; [exact H|by split|constructor|..]; by rewrite andb_true_r. }
  cbv zeta. set (s1 := lock_close true _).
  assert (at_ CloseDrain s1 o) as H1.
  { assert (at_ AcquireClose (set_flags (start_attempted s) true (closed s) s) o) as H2
      by (destruct H as [? H]; split; [done|]; exact (inv_closing_set _ _ _ _ _ H)).
    rewrite <-(app_nil_r o). eapply inv_move; [exact H2|by split; simpl; rewrite ?Hcl|constructor| | |apply sublist_nil_l].
    - split; try done. simpl. by destruct i as [|[|[|?]]]; [lia..|].
    - unfold lock_step. simpl. by rewrite Hfree. }
  destruct (started WORKER s1).
  - exists l, off. by rewrite app_nil_r.
  - by apply kept_close_recorder.
Qed.

(** The recording task's and the closing task's publications. *)
Lemma kept_recorder_publish f s s' o :
  at_ f s o → same_core s s' → neutral f = true → session_id s ≠ [] →
  start_locked s' = start_locked s → write_locked s' = write_locked s →
  close_locked s' = close_locked s → kept i es (_publish_recording_status AfterRecorder s') o.
Proof.
  intros H Hs Hf Hne L1 L2 L3. pose proof (at_local _ _ _ _ _ _ _ H) as [Hr _ _ _ _ _ _ _ _ _].
  apply neutral_holds in Hf as (H1 & H2 & H3 & _).
  eapply kept_request; [exact H|done| |done| | |done|done|by right].
  - split; [by destruct Hs|done].
  - unfold lock_step. simpl. by rewrite L1, L2, L3, H1, H2, H3.
  - destruct i as [|[|[|?]]]; simpl in *; try done.
Qed.

Lemma kept_publish_event p f result s o :
  at_ f s o → kont_of f = Some (KRecording p) → kept i es (publish_event p result s) o.
Proof.
  intros H Hk. pose proof (at_local _ _ _ _ _ _ _ H) as Hl.
  destruct (kont_frame _ _ Hk) as (Hst & Hw & Hcl & Hca & Hpo & Hre & Hop & Hin & Hrole).
  destruct Hl as [Lr _ _ _ Lc Ls _ _ _ _].
  eapply kept_request; [exact H|by split| |done| | |done| |by right].
  - split; [done|]. apply Ls. by rewrite Hin.
  - unfold lock_step. simpl. rewrite Hst, Hw, Hcl. by destruct p.
  - apply Hrole in Lr. by destruct i as [|[|[|?]]].
  - intros Hc. apply Lc. rewrite Hcl. by destruct p.
Qed.

(** A closing task's result, back among the suspensions of [close]. *)
Lemma at_kont_closing f k s s' o :
  at_ f s o → kont_of f = Some k → kont_closes k = true → same_core s s' →
  start_locked s' = start_locked s → write_locked s' = write_locked s →
  close_locked s' = close_locked s → at_ CloseDrain s' o.
Proof.
  intros H Hk Hc Hs L1 L2 L3.
  destruct (kont_frame _ _ Hk) as (Hst & Hw & Hcl & _).
  apply at_closing with (f := f) (s := s); try done; rewrite ?Hst, ?Hw, ?Hcl; by destruct k.
Qed.

Lemma kept_finish f k result s o :
  at_ f s o → kont_of f = Some k → kept i es (finish k result s) o.
Proof.
  intros H Hk. pose proof (at_local _ _ _ _ _ _ _ H) as Hl.
  destruct (kont_frame _ _ Hk) as (Hst & Hw & Hcl & Hca & Hpo & Hre & Hop & Hin & Hrole).
  pose proof Hl as [Lr _ _ La Lc Ls _ _ _ _]. rewrite Hin in Ls.
  destruct k as [a|a|a| |reason p| |p|failed p|]; simpl finish.
  - by eapply kept_resolved.
  - by eapply kept_session_opened.
  - eapply kept_then. eapply at_returned; [exact H|by split|done|by rewrite Hst|done|done| |by rewrite Hpo|done|done].
    by rewrite Hca.
  - eapply kept_end; [exact H|by split|constructor|..]; simpl; rewrite ?Hst, ?Hw, ?Hcl; simpl;
      by rewrite ?andb_true_r, ?andb_false_r.
  - eapply kept_request; [exact H|by split| |done| | |done|done|by right].
    + split; [done|by apply Ls].
    + unfold lock_step. simpl. by rewrite Hst, Hw, Hcl.
    + apply Hrole in Lr. by destruct i as [|[|[|?]]].
  - eapply kept_end; [exact H|by split|constructor|..]; simpl; rewrite ?Hst, ?Hw, ?Hcl; simpl;
      by rewrite ?andb_true_r, ?andb_false_r.
  - by eapply kept_publish_event.
  - destruct (decide (p = AfterRecorder)) as [->|Hp].
    + eapply kept_end; [exact H|by split|constructor|..]; simpl; rewrite ?Hst, ?Hw, ?Hcl; simpl;
        by rewrite ?andb_true_r.
    + apply kept_published; [|done|by apply Ls].
      eapply at_kont_closing; [exact H|exact Hk|by destruct p|by split|done..].
  - apply kept_close_finally. eapply at_kont_closing; [exact H|exact Hk|done|by split|done..].
Qed.

Lemma kept_respond r n k response s o :
  at_ (Request r n k) s o → kept i es (respond r n k response s) o.
Proof.
  intros H. unfold respond. destruct (read_response response); [by eapply kept_finish|].
  destruct (_ || _) eqn:E; [by eapply kept_finish|]. reflect_bool. destruct E as [_ E].
  apply Nat.eqb_eq in E as ->.
  eapply kept_next; [exact H|by split|constructor| |done|by left].
  intros []. split; try done; [intros ? _; split; [by apply (loc_enabled0 k)|done]|].
  intros r' Hp [|[= <- ->]]; [done|]. apply loc_first0; [done|by left].
Qed.

Lemma kept_retry r k s o :
  at_ (Backoff r k) s o → kept i es (s, [Http r 1], Some (Request r 1 k)) o.
Proof.
  intros H. pose proof (at_local _ _ _ _ _ _ _ H) as Hl. pose proof Hl as [Lr _ _ _ _ _ Lq Lk Le Lf].
  specialize (Lq r eq_refl). specialize (Lk r k eq_refl eq_refl).
  assert (local i (Request r 1 k) s o) as Hg.
  { destruct Hl. split; try done; [intros ? _; split; [by apply (loc_enabled0 k)|done]|].
    intros r' _ [[=]|[=]]. }
  assert (k = KMessage ∨ k ≠ KMessage) as [-> |Hk] by (destruct k; auto).
  - (* the second attempt at a message *)
    destruct r as [| | |c payload| | |]; try done; [by destruct Lk|by destruct Lk|].
    set (r := PostMessage c payload) in *.
    destruct (Lf r eq_refl) as [l' Hl']; [by right|].
    assert (attempts (o ++ [Http r 1]) = attempts o ++ [(r, 1%nat)]) as Hat
      by (unfold attempts; by rewrite omap_app).
    assert (i = WORKER) as Hi.
    { destruct i as [|[|[|?]]]; simpl in Lr; try done. by destruct Lr as (_ & _ & ?). }
    exists l, off. eapply inv_step; [exact H|]. pose proof (proj2 H) as HI. destruct HI. simpl in *.
    assert (resolves (o ++ [Http r 1]) = resolves o) as Hrs by (unfold resolves; rewrite count_app; apply Nat.add_0_r).
    assert (session_starts (o ++ [Http r 1]) = session_starts o) as Hst
      by (unfold session_starts; rewrite count_app; apply Nat.add_0_r).
    split; rewrite ?Hat, ?Hrs, ?Hst; try done.
    + intros j g Hj Hgj Hgl. pose proof (at_posting _ _ _ _ _ _ _ _ _ H Hi Hj Hgj) as Hp.
      destruct Hgl. split; rewrite ?Hst; simpl; try done. by rewrite Hp.
    + destruct Hg. split; rewrite ?Hst; simpl; try done. by intros r' _ [[=]|[=]].
    + intros r' n [Hin|Hin%list_elem_of_singleton]%elem_of_app; [eauto|]. by injection Hin as -> ->.
    + rewrite Hl' in inv_deliveries0 |- *. rewrite <-app_assoc. by apply deliveries_again.
  - eapply kept_next; [exact H|by split| |by intros|done|by left].
    constructor; [|done]. by destruct r.
Qed.

Lemma same_core_refl s : same_core s s.
Proof. by split. Qed.

(** A recording task's run. *)
Lemma kept_recording_started egress url detail s o :
  at_ RecorderStarting s o → started i s = true →
  kept i es (recording_started egress url detail s) o.
Proof.
  intros H Hi. pose proof (at_local _ _ _ _ _ _ _ H) as Hl.
  assert (session_id s ≠ []) as Hne by (by apply (loc_session _ _ _ _ Hl)).
  unfold recording_started. cbv zeta. set (s1 := set_rec _ s).
  assert (at_ RecorderStarting s1 o) as H1
    by (destruct H as [? H]; split; [done|]; by apply (kept_inv_same _ _ _ _ _ _ H)).
  assert (at_ RecorderStarting (_schedule_recording_stop s1) o ∧
          session_id (_schedule_recording_stop s1) = session_id s) as [H2 Hs2].
  { unfold _schedule_recording_stop. destruct (_ && _) eqn:E; [|done]. split; [|done].
    destruct H1 as [Hlt H1]. split; [simpl; by rewrite length_insert|].
    rewrite set_task_comm.
    - apply inv_aux; [done|]. right. split; [done|by left].
    - intros ->. reflect_bool. destruct E as [_ E]. unfold started in *. simpl in E. congruence. }
  clearbody s1. destruct (if truthy egress then _ else _) as [status plain].
  eapply kept_recorder_publish; [exact H2|by split|done|by rewrite Hs2|done..].
Qed.

Lemma kept_recording_final d status url duration detail s o :
  at_ (CloseFinalize d) s o → kept i es (recording_final status url duration detail s) o.
Proof.
  intros H. pose proof (at_local _ _ _ _ _ _ _ H) as Hl.
  assert (session_id s ≠ []) as Hne by (by apply (loc_session _ _ _ _ Hl)).
  assert (at_ CloseDrain s o) as H1 by (by eapply at_closing; [exact H|apply same_core_refl|..]).
  unfold recording_final. cbv zeta. destruct (if _ && _ then _ else _) as [st det].
  eapply kept_publish; [exact H1|by split|done..].
Qed.

Lemma kept_frame f a g s o :
  at_ f s o → started i s = true → resume_frame f a s = Some g → kept i es g o.
Proof.
  intros H Hi Hg. pose proof (at_local _ _ _ _ _ _ _ H) as Hl. pose proof Hl as [Lr _ _ _ _ Ls _ _ _ _].
  assert (holds_close f = true → holds_start f = false → holds_write f = false →
          ∀ s', same_core s s' → start_locked s' = start_locked s → write_locked s' = write_locked s →
          close_locked s' = close_locked s → at_ CloseDrain s' o) as Hclose
    by (intros; by eapply at_closing).
  destruct f, a; simpl in Hg; try discriminate Hg; try (injection Hg as <-).
  - (* AcquireStart *) destruct (start_locked s) eqn:E; [done|]. injection Hg as <-. by eapply kept_start.
  - (* AcquireWrite *) destruct (write_locked s) eqn:E; [done|]. injection Hg as <-.
    match goal with H : inv_at i (Running (AcquireWrite ?x)) _ _ _ _ _ |- _ =>
      assert (writes x = true) as Hwx
        by (destruct x; try done; destruct i as [|[|[|?]]]; simpl in Lr; tauto) end.
    exists l, off. eapply inv_move; [exact H|by split|constructor| | |done].
    + destruct Hl. split; try done. destruct i as [|[|[|?]]]; try done. simpl in *. tauto.
    + unfold lock_step. simpl. by rewrite E, Hwx.
  - by eapply kept_respond.
  - by apply kept_retry.
  - by eapply kept_finish.
  - eapply kept_next; [exact H|by split|constructor| |done|by left].
    by intros []; split; try done; destruct i as [|[|[|?]]].
  - eapply kept_next; [exact H|by split|constructor| |done|by left].
    by intros []; split; try done; destruct i as [|[|[|?]]].
  - unfold _start_recording. destruct (_ || _).
    { eapply kept_recorder_publish; [exact H|by split|done|by apply Ls|done..]. }
    destruct recording_enabled.
    + eapply kept_next; [exact H|by split|by repeat constructor| |done|by left].
      by intros []; split; try done; destruct i as [|[|[|?]]].
    + eapply kept_recorder_publish; [exact H|by split|done|by apply Ls|done..].
  - by apply kept_recording_started.
  - eapply kept_recorder_publish; [exact H|by split|done|by apply Ls|done..].
  - eapply kept_recorder_publish; [exact H|by split|done|by apply Ls|done..].
  - eapply kept_next; [exact H|by split|by repeat constructor| |done|by left].
    by intros []; split; try done; destruct i as [|[|[|?]]].
  - eapply kept_end; [exact H|by split|constructor|..]; by rewrite andb_true_r.
  - eapply kept_end; [exact H|by split|constructor|..]; by rewrite andb_true_r.
  - eapply kept_end; [exact H|by split|constructor|..]; by rewrite andb_true_r.
  - (* AcquireClose *) destruct (close_locked s) eqn:E; [done|]. injection Hg as <-.
    apply kept_close_granted; [done| |done]. by destruct i as [|[|[|?]]]; try done; simpl in *; lia.
  - destruct (running WORKER s); [done|]. injection Hg as <-. by apply kept_close_recorder.
  - apply kept_close_recorder. apply at_kill; [|done].
    pose proof (closer_index _ _ _ Hl eq_refl). unfold WORKER. lia.
  - destruct (running RECORDER s); [done|]. injection Hg as <-. apply kept_close_session. by apply Hclose.
  - pose proof (closer_index _ _ _ Hl eq_refl) as Hi3.
    destruct (kill_fields RECORDER s) as (_ & _ & _ & _ & Hks & _).
    apply kept_publish with (s := kill RECORDER s); [|by split|rewrite Hks; by apply Ls|done..].
    apply at_kill; [unfold RECORDER; lia|]. by apply Hclose.
  - destruct (running STOPPER s); [done|]. injection Hg as <-. apply kept_finalize; [by apply Hclose|by apply Ls].
  - by eapply kept_recording_final.
  - eapply kept_publish; [by apply (Hclose eq_refl eq_refl eq_refl s)|by split|by apply Ls|done..].
  - eapply kept_publish; [by apply (Hclose eq_refl eq_refl eq_refl s)|by split|by apply Ls|done..].
Qed.

End closing.

(** ** Every event keeps it *)

Lemma inv_events es es' l off s o : inv es l off s o → inv (es ++ es') l off s o.
Proof.
  intros []. split; try done. unfold spoken in *. rewrite omap_app. by apply sublist_inserts_r.
Qed.

Lemma inv_as_at i f es l off s o :
  tasks s !! i = Some (Running f) → inv es l off s o → inv_at i (Running f) es l off s o.
Proof.
  intros Hi H. split; [by eapply lookup_lt_Some|].
  assert (set_task i (Running f) s = s) as ->; [|done].
  unfold set_task, set_tasks. rewrite list_insert_id by done. by destruct s.
Qed.

Lemma kept_inv i es g s o o' :
  kept i es g o → end_segment i g = (s, o') → ∃ l off, inv es l off s (o ++ o').
Proof.
  destruct g as [[s1 o1] next]. intros (l & off & _ & H) [= <- <-]. by exists l, off.
Qed.

(** The worker takes the next operation off its queue. *)
Lemma inv_take es l off s o op ops t :
  tasks s !! WORKER = Some (Running WorkerPoll) → pending s = op :: ops → inv es l off s o →
  task_holds holds_start t = false → task_holds holds_write t = false →
  task_holds holds_close t = false → task_local WORKER t s o →
  task_carried t `sublist_of` option_list (spoken_of op) →
  inv es l off (set_task WORKER t (set_pending ops s)) o.
Proof.
  intros Hw Hp H H1 H2 H3 Hl Hc. assert (closed s = false) as Hcl.
  { destruct (closed s) eqn:E; [|done]. destruct (inv_closed _ _ _ _ _ H E) as (_ & ? & _). congruence. }
  assert (0 < length (tasks s))%nat as Hlt by (by eapply lookup_lt_Some).
  destruct H. assert (∀ P, P WorkerPoll = false → task_holds P t = false →
    held_by P (set_task WORKER t (set_pending ops s)) = held_by P s) as Hheld.
  { intros P HP Ht. apply (held_by_neutral P WORKER t s); try done. intros g Hg. by simplify_eq. }
  split; simpl; try done.
  - by rewrite length_insert.
  - by rewrite Hheld.
  - by rewrite Hheld.
  - by rewrite Hheld.
  - intros j g Hj. apply local_task.
    apply (local_same j g s _ o); try done. destruct (decide (j = WORKER)) as [->|Hne].
    + rewrite list_lookup_insert_eq in Hj by done. by injection Hj as ->.
    + rewrite list_lookup_insert_ne in Hj by done. by apply inv_local0.
  - intros Hr. apply inv_recorder0. unfold started in *. by rewrite tasks_other in Hr.
  - rewrite worker_carried_set, decide_True by done. rewrite Hp in inv_order0.
    unfold worker_carried in inv_order0. rewrite Hw in inv_order0.
    assert (omap spoken_of (op :: ops) = option_list (spoken_of op) ++ omap spoken_of ops) as Hom
      by (simpl; by destruct (spoken_of op)).
    rewrite Hom in inv_order0. etrans; [|exact inv_order0].
    apply sublist_app; [done|]. simpl. by apply sublist_app.
  - rewrite Hp in inv_bounded0. simpl in inv_bounded0. lia.
  - congruence.
Qed.

Lemma inv_begin es l off s o op ops s' o' :
  tasks s !! WORKER = Some (Running WorkerPoll) → pending s = op :: ops → inv es l off s o →
  end_segment WORKER (begin_operation op (set_pending ops s)) = (s', o') → inv es l off s' (o ++ o').
Proof.
  intros Hw Hp H Hg. assert (local WORKER WorkerPoll s o) as Hl by (by apply (inv_local _ _ _ _ _ H)).
  assert (∃ t, s' = set_task WORKER t (set_pending ops s) ∧ o' = [] ∧
    (t = Running WorkerPoll ∨ t = Running (AcquireStart ThenNothing)
     ∨ ∃ m, t = Running (AcquireWrite (ThenMessage m)) ∧ spoken_of op = Some m)) as (t & -> & -> & Ht).
  { unfold begin_operation in Hg. destruct op as [|r tx tu int].
    - injection Hg as <- <-. eexists. split_and!; [done|done|]. auto.
    - destruct (py_strip tx =s []) eqn:E; [injection Hg as <- <-; eexists; split_and!; [done|done|]; by left|].
      simpl in Hg. destruct (closed s); injection Hg as <- <-; eexists; (split_and!; [done|done|]); [by left|].
      do 2 right. eexists. split; [done|]. simpl. by rewrite E. }
  rewrite app_nil_r. eapply inv_take; [exact Hw|exact Hp|exact H|..].
  all: destruct Ht as [->|[->|(m & -> & Hm)]]; try done; simpl; try apply sublist_nil_l.
  - by rewrite Hm.
Qed.

Lemma inv_resume i a es l off s o s' o' :
  inv es l off s o → resume i a s = Some (s', o') → ∃ l off, inv es l off s' (o ++ o').
Proof.
  intros H Hr. unfold resume in Hr. destruct (tasks s !! i) as [[|f|]|] eqn:Hi; try done.
  pose proof (inv_as_at _ _ _ _ _ _ _ Hi H) as Hat.
  assert (started i s = true) as Hs by (unfold started; by rewrite Hi).
  assert (∀ g, resume_frame f a s = Some g → Some (end_segment i g) = Some (s', o') →
            ∃ l off, inv es l off s' (o ++ o')) as Hframe.
  { intros g Hg [= He]. eapply kept_inv; [|exact He]. by eapply kept_frame. }
  assert (a = TimedOut → resume_frame f a s = None →
          (if (i =? WORKER)%nat then Some (set_task i (Running WorkerPoll) (release f s), []) else None)
            = Some (s', o') → ∃ l off, inv es l off s' (o ++ o')) as Hout.
  { intros _ _ Hw. destruct (Nat.eqb_spec i WORKER) as [->|]; [|done]. injection Hw as <- <-.
    assert (kept WORKER es (release f s, [], None) o) as Hk
      by (eapply kept_end; [exact Hat|by split|constructor|done..]).
    by eapply kept_inv. }
  assert ((if (i <=? STOPPER)%nat then None
           else Some (if holds_close f then end_segment i (close_finally s) else (kill i s, [])))
          = Some (s', o') → ∃ l off, inv es l off s' (o ++ o')) as Hcancel.
  { intros Hc. destruct (i <=? STOPPER)%nat; [done|]. destruct (holds_close f) eqn:E.
    - apply (inj Some) in Hc. eapply kept_inv; [|exact Hc]. eapply kept_close_finally.
      pose proof (at_locked _ _ _ _ _ _ _ Hat) as Hlk.
      eapply at_closing; [exact Hat|apply same_core_refl|done| | |done..]; by destruct f as [| | |? ? []|? []|[]| | | | | | | | | |].
    - injection Hc as <- <-. exists l, off. rewrite app_nil_r. by apply inv_kill. }
  assert ((f = WorkerPoll ∧ a = Go) ∨ ¬ (f = WorkerPoll ∧ a = Go)) as [[-> ->]|Hne]
    by (destruct f; [destruct a|..]; first [by left|right; by intros [? ?]]).
  - assert (i = WORKER) as ->.
    { pose proof (inv_local _ _ _ _ _ H _ _ Hi) as [Hrole _ _ _ _ _ _ _ _ _].
      destruct i as [|[|[|?]]]; simpl in Hrole; try done. tauto. }
    destruct (pending s) as [|op ops] eqn:Hp.
    + injection Hr as <- <-. exists l, off.
      assert (inv_at WORKER Finished es l off s (o ++ [])) as [_ ?]; [|done].
      eapply inv_move; [exact Hat|apply same_core_refl|constructor|done|by unfold lock_step|apply sublist_nil_l].
    + apply (inj Some) in Hr. exists l, off. by eapply inv_begin.
  - assert (match a with
            | Cancelled => if (i <=? STOPPER)%nat then None
                           else Some (if holds_close f then end_segment i (close_finally s) else (kill i s, []))
            | _ => match resume_frame f a s with
                   | Some g => Some (end_segment i g)
                   | None => match a with
                             | TimedOut => if (i =? WORKER)%nat
                                 then Some (set_task i (Running WorkerPoll) (release f s), []) else None
                             | _ => None
                             end
                   end
            end = Some (s', o')) as Hr' by (destruct f, a; first [exact Hr|exfalso; by apply Hne]).
    clear Hr. destruct (resume_frame f a s) as [g|] eqn:Eg.
    + destruct a; first [by apply Hcancel|by eapply Hframe].
    + destruct a; first [by apply Hcancel|by apply Hout|done].
Qed.

Lemma kept_inv_init : inv [] [] [] init [].
Proof.
  split; simpl; try done; try lia.
  - intros i f Hi. by destruct i as [|[|[|?]]].
  - by intros ? ? ?%not_elem_of_nil.
  - constructor.
Qed.

Lemma inv_spawn op es l off s o s' o' :
  inv es l off s o → spawn op s = (s', o') → inv (es ++ [Spawn op]) l off s' (o ++ o').
Proof.
  intros H. unfold spawn. destruct (_ || _) eqn:E; intros [= <- <-].
  { apply (inv_events _ [Spawn op]) in H. destruct H. split; try done; simpl.
    - intros j g Hg. apply (local_same _ _ _ _ _ _ (inv_local0 j g Hg)); try done;
        unfold session_starts, attempts; rewrite ?count_app, ?omap_app; simpl; rewrite ?app_nil_r; try done.
    - unfold resolves in *. rewrite count_app. unfold count at 2. simpl. lia.
    - unfold session_starts in *. rewrite count_app. unfold count at 2. simpl. lia.
    - by intros r n [Hin|Hin%list_elem_of_singleton]%elem_of_app; [eauto|].
    - unfold attempts in *. rewrite omap_app. simpl. by rewrite app_nil_r. }
  reflect_bool. destruct E as [Eg El]. apply Nat.leb_gt in El. rewrite app_nil_r.
  set (s1 := set_pending (pending s ++ [op]) s).
  assert (inv (es ++ [Spawn op]) l off s1 o) as H1.
  { destruct H. split; try done; simpl.
    - intros j g Hg. by apply (local_same _ _ _ _ _ _ (inv_local0 j g Hg)).
    - unfold spoken. rewrite !omap_app, !app_assoc. apply sublist_app; [by rewrite <-!app_assoc|done].
    - rewrite length_app. simpl. lia.
    - intros Hc. destruct (inv_closed0 Hc). congruence. }
  destruct (running WORKER s1) eqn:Er; [done|].
  (* a worker at its queue *)
  assert (0 < length (tasks s1))%nat as Hlt by (destruct H1; lia).
  destruct H1. assert (∀ g, tasks s1 !! WORKER ≠ Some (Running g)) as Hno.
  { intros g Hg. unfold running in Er. by rewrite Hg in Er. }
  assert (∀ P, P WorkerPoll = false → held_by P (set_task WORKER (Running WorkerPoll) s1) = held_by P s1) as Hheld.
  { intros P HP. apply held_by_neutral; try done. intros g Hg. by destruct (Hno g). }
  split; try done; try (by rewrite Hheld).
  - simpl. by rewrite length_insert.
  - intros j g Hj. apply local_task. destruct (decide (j = WORKER)) as [->|Hne].
    + rewrite tasks_at in Hj by done. injection Hj as <-. by split.
    + rewrite tasks_other in Hj by done. by apply inv_local0.
  - intros Hr. apply inv_recorder0. unfold started in *. by rewrite tasks_other in Hr.
  - rewrite worker_carried_set, decide_True by done. simpl. etrans; [|exact inv_order0].
    apply sublist_app; [done|]. by apply sublist_inserts_l.
  - intros Hc. destruct (inv_closed0 Hc) as (Hc2 & _). simpl in Hc2. congruence.
Qed.

Lemma inv_call f es l off s o :
  inv es l off s o → f = AcquireClose ∨ (∃ r p, f = WaitWorker r p ∨ f = AcquireWrite (ThenTransfer r p)) →
  inv es l off (call f s) o.
Proof.
  intros H Hf. destruct H.
  assert (∀ P, P f = false → held_by P (call f s) = held_by P s) as Hheld.
  { intros P HP. unfold held_by, call, set_tasks. simpl. rewrite count_app, count_cons, HP. simpl.
    unfold count at 2. simpl. lia. }
  assert (holds_start f = false ∧ holds_write f = false ∧ holds_close f = false) as (H1 & H2 & H3)
    by (destruct Hf as [->|(? & ? & [-> | ->])]; done).
  assert (∀ j, (j < 3)%nat → tasks (call f s) !! j = tasks s !! j) as Hlow
    by (intros j Hj; simpl; apply lookup_app_l; lia).
  split; try done; try (rewrite Hheld; done).
  - simpl. rewrite length_app. lia.
  - intros j g Hj. simpl in Hj. apply (local_same j g s _ o); try done.
    apply lookup_snoc_Some in Hj as [[_ Hj]|[-> [= <-]]]; [by apply inv_local0|].
    assert (3 ≤ length (tasks s))%nat as Hlen by done. remember (length (tasks s)) as n eqn:Hn. clear Hn.
    destruct Hf as [->|(? & ? & [-> | ->])]; split; try done; destruct n as [|[|[|?]]]; try lia; done.
  - unfold started in *. by rewrite Hlow by (unfold RECORDER; lia).
  - unfold worker_carried in *. by rewrite Hlow by (unfold WORKER; lia).
  - unfold running in *. by rewrite Hlow by (unfold WORKER; lia).
Qed.

Lemma inv_event e es l off s o s' o' :
  inv es l off s o → step s e = Some (s', o') → ∃ l off, inv (es ++ [e]) l off s' (o ++ o').
Proof.
  intros H Hs. destruct e as [op|d n|r p|d n|i a]; simpl in Hs; try (injection Hs as <- <-).
  - exists l, off. apply (inj Some) in Hs. by eapply inv_spawn.
  - exists l, off. rewrite app_nil_r. by apply inv_events, inv_disconnected.
  - exists l, off. rewrite app_nil_r. apply inv_events, inv_call; [done|]. right. exists r, p.
    destruct (running WORKER s); auto.
  - exists l, off. rewrite app_nil_r. apply inv_events, inv_call; [by apply inv_disconnected|by left].
  - destruct (inv_resume _ _ _ _ _ _ _ _ _ H Hs) as (l' & off' & H'). exists l', off'. by apply inv_events.
Qed.

Lemma run_store_inv es s o : run step init es = Some (s, o) → ∃ l off, inv es l off s o.
Proof.
  apply (run_hist_inv step (λ es s o, ∃ l off, inv es l off s o)).
  - exists [], []. apply kept_inv_init.
  - intros es' s1 o1 e s2 o2 (l & off & H) Hs. by eapply inv_event.
Qed.


(** ** The theorems *)

(** C14: the conversation store refines an append-only list of messages.  Whatever the
    interleaving of the worker, a handoff, the recording and the close, and whatever fails
    or times out: there is a subsequence of the messages spoken, in the order spoken, such
    that the messages the service was sent are exactly those the abstract list keeps of it
    (a turn's message of a role once, no repeat of the last), numbered from 1 without gaps,
    each under the session's ids and a key of its own; a message is attempted once or twice
    in a row, and the next only after it.  What a handoff quotes is the end of that list. *)
Theorem message_log_refines es s o :
  run step init es = Some (s, o) →
  ∃ offered, offered `sublist_of` spoken es ∧
    let l := foldl append [] offered in
    deliveries (imap (post_of (conversation_id s) (session_id s)) l) (attempts o)
    ∧ sequence (log s) = Z.of_nat (length l)
    ∧ recent_user (log s) = last_n 6 (user_texts l)
    ∧ last_user (log s) = default [] (last (user_texts l)).
Proof.
  intros (l & off & [])%run_store_inv. exists off. rewrite <-inv_list0. destruct inv_log0.
  split_and!; [|done..]. etrans; [|exact inv_order0]. by apply sublist_inserts_r.
Qed.

(** C37: a call has one session.  The conversation is resolved and its session started at
    most once; whatever is sent about a session names the one that was opened, and nothing
    is sent about a session before it is; and at most one task at a time is inside each of
    the three locks, so at most one message is in flight. *)
Theorem one_session es s o :
  run step init es = Some (s, o) →
  (resolves o ≤ 1)%nat ∧ (session_starts o ≤ 1)%nat
  ∧ (∀ r n, Http r n ∈ o → scoped (session_id s) r)
  ∧ (held_by holds_start s ≤ 1)%nat ∧ (held_by holds_write s ≤ 1)%nat
  ∧ (held_by holds_close s ≤ 1)%nat ∧ (held_by posting s ≤ 1)%nat.
Proof.
  intros (l & off & H)%run_store_inv. pose proof H as [].
  assert (held_by posting s ≤ held_by holds_write s)%nat as Hle.
  { unfold held_by. clear -s. induction (tasks s) as [|t ts IH]; [done|]. rewrite !count_cons.
    assert ((if match t with Running f => posting f | _ => false end then 1 else 0) ≤
            (if match t with Running f => holds_write f | _ => false end then 1 else 0))%nat; [|lia].
    destruct t as [|f|]; [lia| |lia]. destruct (posting f) eqn:E; [|lia].
    assert (holds_write f = true) as ->; [|lia].
    unfold posting in E. destruct f; try done; simpl in *; by destruct k. }
  rewrite inv_start0, inv_write0, inv_close0 in *.
  destruct (start_attempted s), (start_locked s), (write_locked s), (close_locked s); simpl in *;
    split_and!; try done; lia.
Qed.

(** The queue never holds more than [MAX_PENDING_OPERATIONS] operations; once the
    store is closed it is empty and stays so (an operation is dropped), the worker has
    stopped, and no task holds a message or is sending one. *)
Theorem closed_store_settled es s o :
  run step init es = Some (s, o) →
  (length (pending s) ≤ MAX_PENDING_OPERATIONS)%nat ∧
  (closed s = true →
    pending s = [] ∧ running WORKER s = false
    ∧ (∀ op, spawn op s = (s, [DroppedOperation true]))
    ∧ ∀ i f, tasks s !! i = Some (Running f) → carried f = None ∧ posting f = false).
Proof.
  intros (l & off & H)%run_store_inv. pose proof H as []. split; [done|]. intros Hc.
  destruct (inv_closed0 Hc) as (Hg & Hp & Hw). split_and!; try done.
  - intros op. unfold spawn. by rewrite Hg.
  - intros i f Hi. destruct (inv_local0 i f Hi) as [Hr _ _ _ _ _ _ _ _ _].
    destruct i as [|[|[|?]]]; simpl in Hr; [|apply neutral_holds in Hr; tauto..|tauto].
    unfold running, WORKER in Hw. by rewrite Hi in Hw.
Qed.

End store.

(** ** A call *)

(** Two deliveries of one turn's message, an unrepeated answer, a response lost to a 503
    and tried again, and the close. *)
Abbreviation example_step :=
  (step (lit "https://conversations") (lit "t") (lit "b") (lit "a") (lit "+2348012345678") (lit "cs")
    [] (lit "browser") (lit "+2348012345678") (lit "2026-01-01T00:00:00+00:00") Voice false false
    (λ s, s)) (only parsing).
Abbreviation fine d := (Reply (Ok (200, Ok (JObj d)))) (only parsing).
Abbreviation unavailable := (Reply (Ok (503, Ok JNull))) (only parsing).
Abbreviation example_call :=
  [Spawn OpStart; Spawn (OpMessage (lit "user") (lit " hello ") (Some (lit "turn-0001")) false);
   Spawn (OpMessage (lit "user") (lit "hello") (Some (lit "turn-0001")) false);
   Spawn (OpMessage (lit "assistant") (lit "hi") None false);
   Resume 0 Go; Resume 0 Go; Resume 0 (fine [(lit "conversation_id", JStr (lit "c1"))]);
   Resume 0 (fine [(lit "id", JStr (lit "s1"))]); Resume 0 unavailable; Resume 1 Go;
   Resume 0 Go; Resume 0 Go; Resume 0 Go; Resume 0 unavailable; Resume 0 Go; Resume 0 (fine []);
   Resume 0 Go; Resume 0 Go; Resume 0 Go;
   Resume 0 Go; Resume 0 Go; Resume 0 Go; Resume 0 (fine []); Resume 0 Go;
   CallClose 12 (lit "2026-01-01T00:00:12+00:00"); Resume 3 Go; Resume 3 Go;
   Resume 1 (fine []); Resume 1 (fine []); Resume 3 Go; Resume 3 (fine [])] (only parsing).

Lemma example_call_runs :
  ∃ s o, run example_step init example_call = Some (s, o)
    ∧ map snd (attempts o) = [0; 1; 0]%nat ∧ sequence (log s) = 2 ∧ session_id s = lit "s1"
    ∧ closed s = true.
Proof.
  assert ((λ r, (map snd (attempts r.2), sequence (log r.1), session_id r.1, closed r.1))
            <$> run example_step init example_call
          = Some ([0; 1; 0]%nat, 2, lit "s1", true)) as H by (vm_compute; reflexivity).
  destruct (run example_step init example_call) as [[s o]|] eqn:Hrun; [|discriminate H].
  exists s, o. injection H as H1 H2 H3 H4. by split_and!.
Qed.

Lemma message_log_refines_witness :
  ∃ s o, run example_step init example_call = Some (s, o) ∧ sequence (log s) = 2
    ∧ ∃ offered, offered `sublist_of` spoken example_call
        ∧ sequence (log s) = Z.of_nat (length (foldl append [] offered)).
Proof.
  destruct example_call_runs as (s & o & Hrun & _ & Hn & _). exists s, o. split; [exact Hrun|].
  split; [exact Hn|].
  destruct (message_log_refines _ _ _ _ _ _ _ _ _ _ _ _ _ _ _ s o Hrun) as (off & Hs & _ & Hl & _).
  exists off. exact (conj Hs Hl).
Defined.

Lemma one_session_witness :
  ∃ s o, run example_step init example_call = Some (s, o) ∧ session_id s = lit "s1"
    ∧ (session_starts o ≤ 1)%nat ∧ ∀ r n, Http r n ∈ o → scoped (lit "s1") r.
Proof.
  destruct example_call_runs as (s & o & Hrun & _ & _ & Hid & _). exists s, o. split; [exact Hrun|].
  split; [exact Hid|].
  destruct (one_session _ _ _ _ _ _ _ _ _ _ _ _ _ _ _ s o Hrun) as (_ & Hst & Hsc & _).
  rewrite Hid in Hsc. exact (conj Hst Hsc).
Defined.

Lemma closed_store_settled_witness :
  ∃ s o, run example_step init example_call = Some (s, o) ∧ closed s = true ∧ pending s = [].
Proof.
  destruct example_call_runs as (s & o & Hrun & _ & _ & _ & Hc). exists s, o. split; [exact Hrun|].
  split; [exact Hc|].
  destruct (closed_store_settled _ _ _ _ _ _ _ _ _ _ _ _ _ _ _ s o Hrun) as (_ & H).
  exact (proj1 (H Hc)).
Defined.
