(* ===== verification/DirectoryLocations.v ===== *)
(** * Area and plan clarification: latency_lab/directory_locations.py

    What a caller was heard to say is compared with reviewed tables of area and plan
    names, and with the labels of the directory sheet by [difflib]'s ratio.  The Unicode
    compatibility decomposition ([unicodedata.normalize("NFKD", ..)]) is a parameter; text
    is cut to ASCII right after it. *)
From stdpp Require Import base list strings.
From Stdlib Require Import ZArith Lia.
From S2P Require Import Prelude Pystr Json.

(** ** Tables *)

Definition table (rows : list (String.string * String.string)) : list (str * str) :=
  map (λ r, (lit r.1, lit r.2)) rows.

Definition PLAN_HEARINGS : list (str * str) :=
  table [("plos", "Plus"); ("pluss", "Plus"); ("plusss", "Plus")]%string.

Definition TOWN_HEARINGS : list (str * str) := table [
  ("eat kedja", "Ikeja"); ("a kedja", "Ikeja"); ("kedja", "Ikeja");
  ("ike jah", "Ikeja"); ("ike ja", "Ikeja"); ("ikejah", "Ikeja"); ("ikaja", "Ikeja"); ("eat ketchup", "Ikeja");
  ("icoi", "Ikoyi"); ("e co e", "Ikoyi"); ("equally", "Ikoyi");
  ("i kolodu", "Ikorodu"); ("ikolodu", "Ikorodu"); ("i couldu", "Ikorodu");
  ("leckie", "Lekki"); ("licky", "Lekki"); ("leaky", "Lekki");
  ("aca", "Ajah"); ("aja", "Ajah");
  ("oh bah", "Ogba"); ("obba", "Ogba");
  ("bagado", "Gbagada"); ("bagada", "Gbagada");
  ("suruliri", "Surulere"); ("surinari", "Surulere"); ("suruniri", "Surulere"); ("suru leary", "Surulere");
  ("lopeduo", "Ilupeju");
  ("or on short key", "Oworonshoki");
  ("somonu", "Shomolu"); ("show moduls", "Shomolu");
  ("o dzudo bega", "Ojodu Berger");
  ("magudu", "Magodo"); ("magoodoo", "Magodo");
  ("i ya ni pa ja", "Iyana Ipaja"); ("yanai paja", "Iyana Ipaja"); ("yianni pajang", "Iyana Ipaja")]%string.

Definition CANONICAL_AREAS : list str := map lit
  ["Ikeja"; "Ikoyi"; "Ikorodu"; "Lekki"; "Ajah"; "Ogba"; "Gbagada"; "Surulere";
   "Ilupeju"; "Oworonshoki"; "Shomolu"; "Ojodu Berger"; "Magodo"; "Iyana Ipaja"; "Ikotun"]%string.

Definition UNCLEAR_FRAGMENTS : list str := map lit
  ["equal to"; "in the bedroom"; "or shocking"; "i got to"; "i could"; "id rather";
   "oh wow"; "you know pedro"; "or a sholky phenomenon"; "show my news";
   "or do the big"; "or do the bigger"; "i an i project"; "i mean i cant tell you"]%string.

Definition NEARBY_LAGOS : list (str * list str) :=
  map (λ r, (lit r.1, map lit r.2))
  [("ikeja", ["Opebi"; "Ogba"; "Maryland"]);
   ("opebi", ["Ikeja"; "Maryland"; "Ogba"]);
   ("oregun", ["Ikeja"; "Opebi"; "Ogba"]);
   ("alausa", ["Ikeja"; "Ogba"; "Magodo"]);
   ("ogba", ["Ikeja"; "Agege"; "Ojodu"]);
   ("maryland", ["Ikeja"; "Opebi"; "Anthony Village"]);
   ("lagos island", ["Ikoyi"; "Victoria Island"]);
   ("ikoyi", ["Lagos Island"; "Victoria Island"]);
   ("victoria island", ["Ikoyi"; "Lagos Island"; "Oniru"]);
   ("oniru", ["Victoria Island"; "Lekki"])]%string.

(** ** Words *)

Definition alnum (c : Z) : bool := (97 <=? c) && (c <=? 122) || (48 <=? c) && (c <=? 57).

(** [re.search(r"\b" + w + r"\b", s)], for texts that are words joined by single spaces. *)
Definition has_words (w s : str) : bool :=
  contains (lit " " ++ w ++ lit " ") (lit " " ++ s ++ lit " ").

(** The values of a set, in the order first added. *)
Definition add_new (x : str) (l : list str) : list str := if in_strs x l then l else l ++ [x].

(** ** [difflib.SequenceMatcher(None, a, b).ratio()] *)

Section ratio.
Context (popular : Z → bool).

(** The lengths of the matches that end at each position of [b], for a new character
    [c] of [a]; [prev] are those of the character before. *)
Fixpoint match_row (c : Z) (diagonal : nat) (prev : list nat) (b : str) : list nat :=
  match b with
  | [] => []
  | d :: b =>
      (if (c =? d) && negb (popular d) then S diagonal else 0%nat)
      :: match_row c (match prev with n :: _ => n | [] => 0%nat end) (tail prev) b
  end.

(** The first of the longest matches: where it starts in [a] and [b], and its length. *)
Definition better (i : nat) (best : nat * nat * nat) (row : list nat) : nat * nat * nat :=
  foldl (λ best jk, if (best.2 <? jk.2)%nat then (S i - jk.2, S jk.1 - jk.2, jk.2)%nat else best)
    best (imap (λ j k, (j, k)) row).

Fixpoint longest_from (i : nat) (prev : list nat) (best : nat * nat * nat) (a b : str) : nat * nat * nat :=
  match a with
  | [] => best
  | c :: a =>
      let row := match_row c 0 prev b in
      longest_from (S i) row (better i best row) a b
  end.

Fixpoint common_prefix (a b : str) : nat :=
  match a, b with
  | c :: a, d :: b => if c =? d then S (common_prefix a b) else 0
  | _, _ => 0
  end.

(** [find_longest_match]: extended at both ends over the popular characters. *)
Definition find_longest_match (a b : str) : nat * nat * nat :=
  let '(i, j, k) := longest_from 0 [] (0%nat, 0%nat, 0%nat) a b in
  let l := common_prefix (List.rev (take i a)) (List.rev (take j b)) in
  let i := (i - l)%nat in let j := (j - l)%nat in let k := (k + l)%nat in
  (i, j, (k + common_prefix (drop (i + k) a) (drop (j + k) b))%nat).

(** The sizes of the matching blocks, added up; each round uses up some of [a]. *)
Fixpoint matched (fuel : nat) (a b : str) : nat :=
  match fuel with
  | O => 0
  | S fuel =>
      let '(i, j, k) := find_longest_match a b in
      if (k =? 0)%nat then 0%nat
      else (k + matched fuel (take i a) (take j b) + matched fuel (drop (i + k) a) (drop (j + k) b))%nat
  end.
End ratio.

(** [autojunk]: what makes up more than a hundredth of a long [b] starts no match. *)
Definition popular (b : str) (c : Z) : bool :=
  (200 <=? length b)%nat && (length b / 100 + 1 <? count (Z.eqb c) b)%nat.

(** The ratio as twice the matched characters over all of them. *)
Definition ratio (a b : str) : Z * Z :=
  (2 * Z.of_nat (matched (popular b) (S (length a)) a b), slen a + slen b).

(** [r >= s] *)
Definition ratio_geb (r s : Z * Z) : bool := s.1 * r.2 <=? r.1 * s.2.

(** ** The module *)

Section locations.
Context (nfkd : str → str).

(** [unicodedata.normalize("NFKD", s).encode("ascii", "ignore").decode()] *)
Definition ascii_fold (s : str) : str := List.filter (λ c, c <? 128) (nfkd s).

Definition norm (value : json) : str :=
  py_join (lit " ") (words_by (λ c, negb (alnum c)) [] (py_lower (ascii_fold (str_or_empty value)))).

Definition fillers : list str := map lit ["then"; "and"; "um"; "uh"; "okay"; "ok"; "please"]%string.

(** [^(?:(?:then|and|..) )+], on words: the last word is never one of them. *)
Fixpoint drop_fillers (ws : list str) : list str :=
  match ws with
  | w :: ((_ :: _) as r) => if in_strs w fillers then drop_fillers r else ws
  | _ => ws
  end.

Definition _short_utterance (text : str) : str :=
  let bare := List.filter (λ c, negb ((c =? 39) || (c =? 8217))) text in
  py_join (lit " ") (drop_fillers (py_split (norm (JStr bare)))).

Definition location_cues : list str := map lit
  ["in"; "around"; "near"; "area"; "location"; "check for"; "what about"; "try"; "mention"; "called"]%string.

(** [alias(?: alias)*] *)
Fixpoint repeats (fuel : nat) (alias s : str) : bool :=
  match fuel with
  | O => false
  | S fuel =>
      (s =s alias)
      || (starts_with (alias ++ lit " ") s && repeats fuel alias (drop (length alias + 1) s))
  end.

Definition mentioned_locations (text : str) (include_canonical : bool) : list str :=
  let heard := norm (JStr text) in
  let short := _short_utterance text in
  let vocabulary := if include_canonical
    then dupdate TOWN_HEARINGS (map (λ x, (norm (JStr x), x)) CANONICAL_AREAS) else TOWN_HEARINGS in
  let cues := existsb (λ w, has_words w heard) location_cues in
  foldl (λ found at_, if has_words at_.1 heard && (cues || repeats (S (length short)) at_.1 short)
                      then add_new at_.2 found else found) [] vocabulary.

Definition new_location (text : str) (pending_filters : dict) : bool :=
  match mentioned_locations text true with
  | [found] => negb (norm (JStr found) =s norm pending_filters.[lit "town"])
  | _ => false
  end.

Definition town_label (value : json) : str :=
  let label := norm value in
  default label (dget label [(lit "somolu", lit "shomolu"); (lit "oworoshonki", lit "oworonshoki")]).

(** A result: status, message and data. *)
Definition reply (status message : str) (data : dict) : json :=
  JObj [(lit "status", JStr status); (lit "message", JStr message); (lit "data", JObj data)].

Definition propose (args changes : dict) : dict :=
  foldl (λ d kv, match kv.2 with JNull => dpop kv.1 d | _ => dset kv.1 kv.2 d end) args changes.

Definition confirmation (args changes : dict) : json :=
  let proposed := propose args changes in
  let pieces :=
    (if truthy changes.[lit "town"] then
       [py_str changes.[lit "town"]
        ++ if norm proposed.[lit "state"] =s lit "lagos" then lit " in Lagos" else []] else [])
    ++ (if truthy changes.[lit "plan"] then [lit "the " ++ py_str changes.[lit "plan"] ++ lit " plan"]
        else []) in
  reply (lit "needs_confirmation")
    (lit "Just to confirm, did you mean " ++ py_join (lit " and ") pieces ++ lit "?")
    [(lit "suggested_filters", JObj proposed); (lit "corrections", JObj changes);
     (lit "requires_caller_confirmation", JBool true)].

Definition needs_input (message : str) (data : dict) : json := reply (lit "needs_input") message data.

(** [text.endswith(" plan")] cut off *)
Definition cut_plan (p : str) : str :=
  if ends_with (lit " plan") p then take (length p - 5) p else p.

Definition plan_change (plan heard : str) : option str :=
  foldl (λ found at_, if (plan =s at_.1) || has_words (at_.1 ++ lit " plan") heard
                      then Some at_.2 else found) None PLAN_HEARINGS.

(** The areas a lookup may mean: those heard, and the hearings of its own fields. *)
Definition town_targets (args : dict) (transcript : str) : list str :=
  foldl (λ found field, match dget (norm args.[field]) TOWN_HEARINGS with
                        | Some t => add_new t found
                        | None => found
                        end)
    (mentioned_locations transcript false) [lit "town"; lit "provider"].

Definition town_changes (args : dict) (town : str) : dict :=
  [(lit "town", JStr town); (lit "state", JStr (lit "Lagos"))]
  ++ if dhas (norm args.[lit "provider"]) TOWN_HEARINGS then [(lit "provider", JNull)] else [].

Definition clarify (args : dict) (transcript : str) : option json :=
  if negb (jeq_str args.[lit "intent"] (lit "lookup")) then None
  else
    let changes :=
      match plan_change (cut_plan (norm args.[lit "plan"])) (norm (JStr transcript)) with
      | Some p => [(lit "plan", JStr p)]
      | None => []
      end in
    let done_ changes := if bool_decide (changes = []) then None else Some (confirmation args changes) in
    if in_strs (norm args.[lit "state"]) [[]; lit "lagos"] then
      if in_strs (_short_utterance transcript) UNCLEAR_FRAGMENTS then
        Some (needs_input
          (lit "I didn't quite catch the area. Could you repeat the name slowly, spell it, or give a nearby landmark?")
          [(lit "unclear_location", JBool true)])
      else
        match town_targets args transcript with
        | [] => done_ changes
        | [town] => done_ (dupdate changes (town_changes args town))
        | targets =>
            Some (needs_input
              (lit "I heard more than one possible area. Which area would you like me to check first?")
              [(lit "town_suggestions", JArr (map JStr (py_sorted targets)))])
        end
    else done_ changes.

(** Descending by ratio, then by label. *)
Definition better_choice (x y : (Z * Z) * str) : bool :=
  if ratio_geb x.1 y.1 then (if ratio_geb y.1 x.1 then str_leb y.2 x.2 else true) else false.

Fixpoint insert_choice (x : (Z * Z) * str) (l : list ((Z * Z) * str)) : list ((Z * Z) * str) :=
  match l with
  | [] => [x]
  | y :: l => if better_choice x y then x :: y :: l else y :: insert_choice x l
  end.

Definition without_spaces (s : str) : str := List.filter (λ c, negb (c =? 32)) s.

Definition fuzzy_choices (value : str) (known : list json) : list str :=
  let normalized := norm (JStr value) in
  let compact := without_spaces normalized in
  if (length compact <? 4)%nat then []
  else
    let labels : list (str * str) :=
      dupdate [] (map (λ x, (norm x, py_strip (py_str x)))
                      (List.filter (λ x, negb (norm x =s [])) known)) in
    if dhas normalized labels then []
    else
      let scores := foldr insert_choice []
                      (map (λ kv, (ratio compact (without_spaces kv.1), kv.2)) labels) in
      map snd (List.filter (λ x, ratio_geb x.1 (78, 100)) (take 2 scores)).

(** [re.sub(r"\s+(?:and\s+)?higher$", "", s)] and [re.sub(r"\s+plan$", "", s)] on words *)
Definition cut_last (w : str) (ws : list str) : list str :=
  match List.rev ws with
  | x :: ((_ :: _) as r) => if x =s w then List.rev r else ws
  | _ => ws
  end.
Definition cut_higher (s : str) : str :=
  let ws := py_split s in
  let cut := cut_last (lit "higher") ws in
  py_join (lit " ") (if bool_decide (cut = ws) then ws else cut_last (lit "and") cut).
Definition cut_plan_word (s : str) : str := py_join (lit " ") (cut_last (lit "plan") (py_split s)).

(** [s.title()], for ASCII letters; other letters are kept. *)
Definition is_upper (c : Z) : bool := (65 <=? c) && (c <=? 90).
Definition is_lower (c : Z) : bool := (97 <=? c) && (c <=? 122).
Fixpoint title_from (inside : bool) (s : str) : str :=
  match s with
  | [] => []
  | c :: s =>
      (if inside then if is_upper c then c + 32 else c else if is_lower c then c - 32 else c)
      :: title_from (is_upper c || is_lower c || (128 <=? c)) s
  end.
Definition py_title (s : str) : str := title_from false s.

(** One suggestion is offered for confirmation; otherwise the caller is asked. *)
Definition suggest (args : dict) (field : str) (choices : list str) (asked : json) : json :=
  match choices with
  | [c] => confirmation args [(field, JStr (py_title c))]
  | _ => asked
  end.

Definition field (k : str) (r : dict) : json := default (JStr []) (dget k r).

Definition plan_labels (records : list dict) : list str :=
  List.filter (λ p, negb (p =s []) && negb (p =s lit "all plans"))
    (py_sorted (foldl (λ l r, add_new (cut_higher (norm r.[lit "plan"])) l) [] records)).

Definition validate_plan (args : dict) (records : list dict) : option json :=
  if truthy args.[lit "plan"]
     && (jeq_str args.[lit "network"] (lit "PROVIDER") || jeq_str args.[lit "network"] (lit "Gyms")) then
    let plans := plan_labels records in
    let plan := cut_plan_word (norm args.[lit "plan"]) in
    if in_strs plan plans then None
    else
      let choices := fuzzy_choices plan (map JStr plans) in
      Some (suggest args (lit "plan") choices
        (needs_input (lit "I couldn't recognise that plan name. Please confirm the name on your plan.")
          [(lit "plan_suggestions", JArr (map JStr choices)); (lit "unknown_plan", args.[lit "plan"])]))
  else None.

Definition validate_town (args : dict) (records : list dict) : option json :=
  if truthy args.[lit "town"] then
    let candidates := List.filter (λ r, negb (truthy args.[lit "state"])
                                        || (norm r.[lit "state"] =s norm args.[lit "state"])) records in
    let known := map (λ r, town_label r.[lit "town"]) candidates in
    let town := town_label args.[lit "town"] in
    if in_strs town known
       || existsb (λ k, forallb (λ w, in_strs w (py_split k)) (py_split town)) known
       || dhas town NEARBY_LAGOS then None
    else
      let choices := fuzzy_choices town (map (field (lit "town")) candidates) in
      Some (suggest args (lit "town") choices
        (needs_input (lit "Could you confirm the area name or a nearby landmark? I don't want to search the wrong place.")
          [(lit "town_suggestions", JArr (map JStr choices)); (lit "unknown_town", args.[lit "town"])]))
  else None.

Definition validate_labels (args : dict) (records : list dict) : option json :=
  match validate_plan args records with
  | Some reply => Some reply
  | None => validate_town args records
  end.
End locations.
