(* ===== verification/ProviderDirectory.v ===== *)
(** * The provider directory: latency_lab/provider_directory.py

    A lookup reads the live sheet, and answers with the rows that match the caller's
    filters, ranked.  Sheet values are decoded JSON; the outcomes of the (at most two)
    requests are arguments of [lookup]. *)
From stdpp Require Import base list strings.
From Stdlib Require Import ZArith Lia Sorted.
From S2P Require Import Prelude Pystr Json DirectoryLocations.

Definition TOOL_NAME : str := lit "lookup_provider_directory".
Definition NETWORKS : list str := map lit
  ["PROVIDER"; "FBN"; "MRCare 1"; "MRCare 2"; "Gyms"; "PHCs"; "Cromwell"; "i-Fitness Branches"]%string.
Definition SHEET_ID : str := lit "1A3-STXKzKnzRtEymQZ68JEXzwvBarrqZFmm0yaBDrcA".

(** [t.get("name") == name and t.get("url") == url and t.get("is_active") is not False] *)
Definition tool_active (name url : str) (t : dict) : bool :=
  jeq_str t.[lit "name"] name && jeq_str t.[lit "url"] url && negb (is_false t.[lit "is_active"]).

Definition enabled (tools : list dict) : bool :=
  existsb (tool_active TOOL_NAME (lit "builtin://provider-directory")) tools.

Definition PROPS : dict :=
  [(lit "intent", JObj [(lit "type", JStr (lit "string"));
        (lit "enum", JArr [JStr (lit "lookup"); JStr (lit "conversation"); JStr (lit "benefits")]);
        (lit "description", JStr (lit "lookup for hospital listings, addresses and which facilities are listed for a plan; benefits for policy benefits, covered treatments, limits, exclusions or benefit schedules (not available in this source); conversation for greetings, identity, feedback, thanks or unrelated conversation."))]);
    (lit "network", JObj [(lit "type", JStr (lit "string"));
        (lit "enum", JArr (map JStr NETWORKS));
        (lit "description", JStr (lit "Internal sheet selector, never a question for the caller. Defaults to PROVIDER for ordinary hospital enquiries. Use FBN/MRCare only when caller explicitly identifies that scheme. Gyms for gym eligibility; PHCs for Lagos public primary care; Cromwell for international directory."))]);
    (lit "plan", JObj [(lit "type", JStr (lit "string"));
        (lit "description", JStr (lit "Caller-stated plan, e.g. Plus, Pro, Max, Promax, Magnum. Do not infer a higher/lower plan."))]);
    (lit "state", JObj [(lit "type", JStr (lit "string"))]);
    (lit "town", JObj [(lit "type", JStr (lit "string"))]);
    (lit "area", JObj [(lit "type", JStr (lit "string"));
        (lit "description", JStr (lit "Specific neighbourhood, landmark area or locality. Match against both the town and provider address fields."))]);
    (lit "provider", JObj [(lit "type", JStr (lit "string"));
        (lit "description", JStr (lit "Provider name or distinctive part, if asking about a particular facility."))]);
    (lit "specialty", JObj [(lit "type", JStr (lit "string"));
        (lit "description", JStr (lit "E.g. general medicine, dental, optical. Omit unless requested."))]);
    (lit "country", JObj [(lit "type", JStr (lit "string"));
        (lit "description", JStr (lit "For the Cromwell international directory."))])].

Definition definitions (tools : list dict) : list json :=
  if negb (enabled tools) then [] else
  [JObj [(lit "type", JStr (lit "function"));
    (lit "function", JObj [(lit "name", JStr TOOL_NAME);
        (lit "description", JStr (lit "Read the live provider directory before every provider-specific answer, including repeated questions. Filters must come from the caller, not guesses. Results describe directory listings, not individual policy approval."));
        (lit "parameters", JObj [(lit "type", JStr (lit "object"));
            (lit "properties", JObj PROPS);
            (lit "required", JArr [JStr (lit "intent")]);
            (lit "additionalProperties", JBool false)])])]].

Definition SPECIALTY_ALIASES : list (str * str) := table [
  ("dentist", "dental"); ("dentistry", "dental"); ("dental clinic", "dental");
  ("eye", "optical"); ("eye care", "optical"); ("optometrist", "optical");
  ("general", "general medicine"); ("general hospital", "general medicine");
  ("diagnostic", "diagnostics"); ("lab", "laboratory"); ("laboratory test", "laboratory")]%string.

Section directory.
Context (nfkd : str → str).
Abbreviation norm := (norm nfkd) (only parsing).
Abbreviation town_label := (town_label nfkd) (only parsing).

(** ** Matching *)

(** Every word of [needle] is a word of [value]. *)
Definition has_all (needle value : json) : bool :=
  forallb (λ w, in_strs w (py_split (norm value))) (py_split (norm needle)).

Definition location_matches (query : json) (values : list json) : bool :=
  let wanted := norm query in
  (wanted =s []) || existsb (λ v, truthy v && has_all (JStr wanted) v) values.

Definition specialty_alias (specialty : json) : json :=
  match dget (norm specialty) SPECIALTY_ALIASES with Some a => JStr a | None => specialty end.

Definition specialty_match (query : json) (record : dict) : bool :=
  let requested := norm query in
  (requested =s [])
  || let wanted := norm (JStr (default requested (dget requested SPECIALTY_ALIASES))) in
     let term := if wanted =s lit "dental clinic" then lit "dental" else wanted in
     existsb (λ key, let v := field key record in truthy v && has_all (JStr term) v)
       [lit "specialty"; lit "category"; lit "provider"].

(** [args.get(k)] and its truth *)
Definition given (k : str) (args : dict) : bool := truthy args.[k].

Definition town_score (record args : dict) : Z :=
  if given (lit "town") args then
    let town := town_label args.[lit "town"] in
    if town_label (field (lit "town") record) =s town then 30
    else if location_matches (JStr town) [field (lit "town") record] then 20
    else if location_matches (JStr town) [field (lit "address") record] then 10 else 0
  else 0.

Definition area_score (record args : dict) : Z :=
  if given (lit "area") args then
    if location_matches args.[lit "area"] [field (lit "address") record] then 40
    else if location_matches args.[lit "area"] [field (lit "town") record] then 25 else 0
  else 0.

Definition specialty_score (record args : dict) : Z :=
  if given (lit "specialty") args then
    let wanted := JStr (norm (specialty_alias args.[lit "specialty"])) in
    if location_matches wanted [field (lit "specialty") record] then 30
    else if location_matches wanted [field (lit "category") record] then 25
    else if location_matches wanted [field (lit "provider") record] then 10 else 0
  else 0.

Definition result_score (record args : dict) : Z :=
  (if given (lit "state") args && (norm record.[lit "state"] =s norm args.[lit "state"]) then 20 else 0)
  + town_score record args + area_score record args + specialty_score record args.

Definition plan_matches (plan label : json) : bool :=
  let p := cut_plan (norm plan) in
  in_strs (norm label) [lit "all plans"; p; p ++ lit " higher"; p ++ lit " and higher"].

(** ** Rows of a sheet *)

Definition cell (i : nat) (r : list json) : json := default JNull (r !! i).

(** [a + b] on a string and a cell; [" ".join(..)] *)
Definition text_of (v : json) : exn str := match v with JStr s => Ok s | _ => Raise TypeError end.

Definition fields (r : list json) (names : list (String.string * nat)) : dict :=
  map (λ nc, (lit nc.1, cell nc.2 r)) names.

(** [isdigit()] *)
Definition all_digits (s : str) : bool := bool_decide (s ≠ []) && forallb is_digit s.

(** What a row says of a provider; [lga] and [lcda] are carried down the PHC sheet. *)
Definition row_fields (name : str) (r : list json) (lga lcda : json) : exn dict :=
  if (name =s lit "PROVIDER") || ((name =s lit "FBN") && all_digits (py_strip (py_str (cell 0 r)))) then
    Ok (fields r [("state", 2); ("town", 3); ("provider", 4); ("address", 5); ("category", 6);
                  ("plan", 7); ("specialty", 8)]%nat%string)
  else if in_strs name [lit "MRCare 1"; lit "MRCare 2"] then
    Ok (fields r [("state", 2); ("town", 3); ("provider", 4); ("address", 5); ("specialty", 6)]%nat%string)
  else if name =s lit "FBN" then
    Ok (fields r [("state", 0); ("town", 1); ("provider", 2); ("address", 3); ("specialty", 4)]%nat%string)
  else if name =s lit "Gyms" then
    Ok (fields r [("state", 1); ("town", 2); ("provider", 3); ("address", 4); ("plan", 5)]%nat%string)
  else if name =s lit "Cromwell" then
    Ok (fields r [("provider", 0); ("town", 1); ("address", 1); ("country", 2)]%nat%string)
  else if name =s lit "i-Fitness Branches" then
    do! branch := text_of (cell 0 r) in
    Ok [(lit "provider", JStr (lit "i-Fitness " ++ branch)); (lit "town", cell 0 r); (lit "address", cell 1 r)]
  else if name =s lit "PHCs" then
    do! a := text_of lga in
    do! b := text_of lcda in
    do! c := text_of (cell 4 r) in
    Ok ([(lit "state", JStr (lit "Lagos")); (lit "town", JStr (py_join (lit " ") [a; b; c]))]
        ++ fields r [("provider", 5); ("address", 6); ("facility_status", 7)]%nat%string)
  else Ok [].

Definition header_rows (name : str) : Z := if name =s lit "PHCs" then 2 else 1.

Definition carried_down (name : str) (v old : json) : json :=
  if (name =s lit "PHCs") && truthy v then v else old.

(** The sheets before PHCs in the chain of tests never reach its branch. *)
Fixpoint records_from (name : str) (number : Z) (lga lcda : json) (rows : list json) : exn (list dict) :=
  match rows with
  | [] => Ok []
  | row :: rows =>
      do! cells := py_iter row in
      let r := cells ++ repeat (JStr []) 12 in
      if (number <=? header_rows name) || negb (existsb truthy r)
      then records_from name (number + 1) lga lcda rows
      else
        let lga := carried_down name (cell 2 r) lga in
        let lcda := carried_down name (cell 3 r) lcda in
        do! fs := row_fields name r lga lcda in
        let base := [(lit "sheet", JStr name); (lit "row", JInt number)] ++ fs in
        do! rest := records_from name (number + 1) lga lcda rows in
        Ok (if bool_decide (py_strip (py_str (field (lit "provider") base)) = []) then rest else base :: rest)
  end.

Definition records (name : str) (rows : list json) : exn (list dict) :=
  records_from name 1 (JStr []) (JStr []) rows.

(** ** Filtering and ranking *)

Definition text_filter (args r : dict) (f : str) : bool :=
  negb (given f args) || has_all args.[f] (field f r).

Definition town_filter (args r : dict) : bool :=
  negb (given (lit "town") args)
  || location_matches (JStr (town_label args.[lit "town"]))
       [JStr (town_label (field (lit "town") r)); field (lit "address") r].

Definition area_filter (args r : dict) : bool :=
  negb (given (lit "area") args)
  || location_matches args.[lit "area"] [field (lit "town") r; field (lit "address") r].

Definition specialty_filter (args r : dict) : bool :=
  negb (given (lit "specialty") args) || specialty_match args.[lit "specialty"] r.

Definition plan_filter (network : str) (args r : dict) : bool :=
  negb (given (lit "plan") args && in_strs network [lit "PROVIDER"; lit "Gyms"])
  || plan_matches args.[lit "plan"] r.[lit "plan"].

(** [row[0]] of a truthy row *)
Definition first_cell (row : json) : exn json :=
  match row with
  | JArr (x :: _) => Ok x
  | JStr (c :: _) => Ok (JStr [c])
  | JObj _ => Raise (KeyError (lit "0"))
  | _ => Raise TypeError
  end.

(** The names of the sheet of removed FBN providers. *)
Fixpoint exclusions (rows : list json) : exn (list str) :=
  match rows with
  | [] => Ok []
  | row :: rows =>
      if truthy row then
        do! x := first_cell row in
        do! rest := exclusions rows in
        let name := py_strip (py_str x) in
        Ok (if bool_decide (name = []) then rest else name :: rest)
      else exclusions rows
  end.

Definition excluded (names : list str) (provider : json) : bool :=
  let name := norm provider in
  existsb (λ x, (norm (JStr x) =s name) || has_all (JStr x) (JStr name) || has_all (JStr name) (JStr x)) names.

Definition row_matches (network : str) (args r : dict) : bool :=
  forallb (text_filter args r) [lit "state"; lit "provider"; lit "country"]
  && town_filter args r && area_filter args r && specialty_filter args r && plan_filter network args r.

(** The sort key's order: best score first, then provider and address. *)
Definition rank_leb (args x y : dict) : bool :=
  let sx := result_score x args in
  let sy := result_score y args in
  if sx =? sy then
    let px := norm (field (lit "provider") x) in
    let py := norm (field (lit "provider") y) in
    if px =s py then str_leb (norm (field (lit "address") x)) (norm (field (lit "address") y))
    else str_leb px py
  else sy <? sx.

Fixpoint rank_insert (args x : dict) (l : list dict) : list dict :=
  match l with
  | [] => [x]
  | y :: l => if rank_leb args x y then x :: y :: l else y :: rank_insert args x l
  end.

(** [sorted] is stable: an earlier row goes before an equal one. *)
Definition ranked (args : dict) (l : list dict) : list dict := foldr (rank_insert args) [] l.

Definition match_records (network : str) (rows : list json) (args : dict) (delisted : list json)
    : exn (list dict) :=
  do! rs := records network rows in
  let hits := List.filter (row_matches network args) rs in
  if (network =s lit "FBN") && negb (bool_decide (hits = [])) then
    do! removed := exclusions (drop 1 delisted) in
    Ok (ranked args (List.filter (λ r, negb (excluded removed r.[lit "provider"])) hits))
  else Ok (ranked args hits).

(** ** A lookup's arguments *)

Definition strip_value (v : json) : json := match v with JStr s => JStr (py_strip s) | _ => v end.

Definition prepare_args (args : dict) : dict :=
  let args := map (λ kv, (kv.1, strip_value kv.2)) args in
  let args := if jeq_str args.[lit "intent"] (lit "lookup") && negb (given (lit "network") args)
              then dset (lit "network") (JStr (lit "PROVIDER")) args else args in
  if is_str args.[lit "plan"] && in_strs (norm args.[lit "plan"]) [lit "pro max"; lit "pro max plan"]
  then dset (lit "plan") (JStr (lit "Promax")) args else args.

Definition missing (names : list str) : dict := [(lit "missing_fields", JArr (map JStr names))].

(** A short string *)
Definition valid_filter (v : json) : bool := match v with JStr s => slen s <=? 160 | _ => false end.

Definition preflight (args : dict) : option json :=
  let is_ k v := jeq_str args.[k] v in
  if negb (forallb (λ kv, dhas kv.1 PROPS) args) || negb (forallb (λ kv, valid_filter kv.2) args) then
    Some (needs_input (lit "Could you tell me your plan and the area you would like me to check?")
            (missing [lit "valid_filters"]))
  else if is_ (lit "intent") (lit "benefits") then
    Some (reply (lit "unsupported") (lit "I can help you find hospitals, but I don't have your plan's benefit schedule or cover limits here. Leadway's support team can confirm those for you.")
            [(lit "topic", JStr (lit "policy_benefits"))])
  else if is_ (lit "intent") (lit "conversation") then
    Some (reply (lit "ok") (lit "Conversational turn only. No provider facts were checked; do not state provider facts.") [])
  else if negb (is_ (lit "intent") (lit "lookup")) then
    Some (needs_input (lit "What would you like me to help you check?") (missing [lit "intent"]))
  else if negb (existsb (is_ (lit "network")) NETWORKS) then
    Some (reply (lit "failed") (lit "I'm having trouble checking right now. Please let me try again in a moment.")
            [(lit "error_type", JStr (lit "invalid_internal_sheet"))])
  else if (is_ (lit "network") (lit "PROVIDER") || is_ (lit "network") (lit "Gyms"))
          && negb (given (lit "plan") args) && negb (given (lit "provider") args) then
    Some (needs_input (lit "Which health plan are you on?") (missing [lit "plan"]))
  else if negb (existsb (λ k, given k args)
                  [lit "provider"; lit "town"; lit "area"; lit "state"; lit "country"]) then
    Some (needs_input (lit "Which area or town would you like me to check?") (missing [lit "location"]))
  else None.

(** ** Reading the sheet *)

(** One request's outcome: a decoded body, or a failure's exception name and whether it is
    a 4xx response. *)
Inductive sheet_read : Type :=
| ReadBody (body : json)
| ReadFailed (exception : str) (permanent : bool).

(** The body or the exception the attempts end with; a deadline cuts them short. *)
Definition read_attempt (r : sheet_read) : json + (str * bool) :=
  match r with
  | ReadBody (JObj d) =>
      if jeq_str d.[lit "error"] (lit "SOURCE_UNAVAILABLE") then inr (lit "ValueError", false)
      else inl (JObj d)
  | ReadBody body => inl body
  | ReadFailed e permanent => inr (e, permanent)
  end.

Definition read_sheet (deadline : bool) (first second : sheet_read) : json + str :=
  if deadline then inr (lit "TimeoutError")
  else
    match read_attempt first with
    | inl body => inl body
    | inr (e, true) => inr e
    | inr (_, false) =>
        match read_attempt second with
        | inl body => inl body
        | inr (e, _) => inr e
        end
    end.

Definition DELISTED : str := lit "DELISTED FBN 05-05-26".

(** [{s["name"]: s["values"] for s in data["sheets"]}] *)
Fixpoint sheet_map (sheets : list json) : exn (list (str * json)) :=
  match sheets with
  | [] => Ok []
  | JObj d :: rest =>
      do! name := jindex (lit "name") d in
      do! values := jindex (lit "values") d in
      do! rest := sheet_map rest in
      match name with JStr n => Ok ((n, values) :: rest) | _ => Raise TypeError end
  | _ :: _ => Raise TypeError
  end.

Definition headers : list (str * list str) := map (λ r, (lit r.1, map lit r.2))
  [("PROVIDER", ["CODE"; "ZONE"; "STATE"; "TOWN"; "PROVIDER"; "ADDRESS"; "CAT"; "PLAN"; "SPECIALTY"]);
   ("FBN", ["STATE"; "TOWN"; "PROVIDER"; "ADDRESS"; "SPECIALTY"]);
   ("Gyms", ["CODE"; "STATE"; "TOWN"; "NAME"; "ADDRESS"; "PLAN"]);
   ("MRCare 1", ["CODE"; "ZONE"; "STATE"; "TOWN"; "PROVIDER"; "ADDRESS"; "SPECIALTY"]);
   ("MRCare 2", ["CODE"; "ZONE"; "STATE"; "TOWN"; "PROVIDER"; "ADDRESS"; "SPECIALTY"]);
   ("Cromwell", ["PROVIDER"; "CITY"; "COUNTRY"]);
   ("i-Fitness Branches", ["BRANCH"; "ADDRESS"; "CONTACT PERSON"; "DESIGNATION"; "EMAIL"; "MOBILE NUMBER"])]%string.

Definition PHC_HEADER : list json := map (λ s, JStr (lit s))
  ["S/N"; "S/N OF FACILITY"; "LGA"; "LGA/LCDA"; "WARD"; "NAME OF H/F"; "ADDRESS"; "STATUS"]%string.

(** [rows[i]] of a list of rows *)
Definition row_at (i : nat) (rows : list json) : exn json :=
  match rows !! i with Some r => Ok r | None => Raise OtherError end.
Definition row_cells (r : json) : exn (list json) :=
  match r with JArr l => Ok l | JStr s => Ok (map (λ c, JStr [c]) s) | _ => Raise TypeError end.

Definition require (b : bool) (message : str) : exn unit :=
  if b then Ok tt else Raise (ValueError message).

(** The columns are the ones the row numbers of [records] stand for. *)
Definition check_columns (network : str) (rows : list json) (delisted : list json) : exn unit :=
  do! _ := match dget network headers with
           | Some hs => do! r := row_at 0 rows in
                        do! cells := row_cells r in
                        require (bool_decide (map (λ v, py_strip (py_str v)) (take (length hs) cells) = hs))
                          (lit "Columns changed")
           | None => Ok tt
           end in
  do! _ := if network =s lit "PHCs" then
             do! r := row_at 1 rows in
             match r with
             | JArr l => require (bool_decide (take 8 l = PHC_HEADER)) (lit "Columns changed")
             | JStr _ => Raise (ValueError (lit "Columns changed"))
             | _ => Raise TypeError
             end
           else Ok tt in
  if network =s lit "FBN" then
    do! r := row_at 0 delisted in
    do! cells := row_cells r in
    do! c := row_at 0 cells in
    require (jeq_str c (lit "Provider Name")) (lit "Exclusion columns changed")
  else Ok tt.

(** ** The answer *)

Definition NEARBY_MAX : nat := 3.

Fixpoint nearby_options (network : str) (rows : list json) (args : dict) (delisted : list json)
    (towns : list str) : exn (list json) :=
  match towns with
  | [] => Ok []
  | town :: towns =>
      let alternative := dset (lit "town") (JStr town) args in
      do! found := match_records network rows alternative delisted in
      do! rest := nearby_options network rows args delisted towns in
      Ok (if bool_decide (found = []) then rest
          else JObj [(lit "town", JStr town); (lit "total_matches", JInt (Z.of_nat (length found)));
                     (lit "matches", JArr (map JObj (take 2 found))); (lit "filters", JObj alternative)] :: rest)
  end.

Definition nearby_towns (args : dict) : list str :=
  if (norm args.[lit "state"] =s lit "lagos") && given (lit "town") args && negb (given (lit "provider") args)
  then default [] (dget (norm args.[lit "town"]) NEARBY_LAGOS) else [].

Definition result_limit (limit : Z) : Z := Z.max 1 (Z.min limit 7).

Definition LISTING_NOTE : str := lit "Current directory listings only; individual coverage is not verified. Plan matching uses explicit labels only; no tier hierarchy is assumed. Location and specialty matches are based on sheet town, address, category, specialty and provider fields. Results are relevance-ranked, not distance-ranked. No matches means none match these filters, not a definitive coverage denial.".

Definition answer (network : str) (args : dict) (limit : Z) (data : dict) (rows delisted : list json)
    : exn json :=
  do! rs := records network rows in
  match validate_labels nfkd args rs with
  | Some clarification => Ok clarification
  | None =>
      do! matches := match_records network rows args delisted in
      do! nearby := if bool_decide (matches = [])
                    then nearby_options network rows args delisted (nearby_towns args) else Ok [] in
      Ok (reply (lit "ok") LISTING_NOTE
        [(lit "network", JStr network); (lit "filters", JObj args);
         (lit "matches", JArr (map JObj (take (Z.to_nat (result_limit limit)) matches)));
         (lit "total_matches", JInt (Z.of_nat (length matches)));
         (lit "nearby_options", JArr (take NEARBY_MAX nearby));
         (lit "read_completed_at", data.[lit "readCompletedAt"]);
         (lit "source", JStr (lit "live_google_sheet"))])
  end.

(** A sheet is a list of rows; anything else is an error (whose name is not kept apart). *)
Definition sheet_rows (name : str) (sheets : list (str * json)) : exn (list json) :=
  match dget name sheets with
  | Some (JArr l) => Ok l
  | Some _ => Raise TypeError
  | None => Raise (KeyError name)
  end.

Definition from_body (network : str) (args : dict) (limit : Z) (body : json) : exn json :=
  do! data := match body with
              | JObj d => if is_true d.[lit "ok"] && jeq_str d.[lit "spreadsheetId"] SHEET_ID then Ok d
                          else Raise (ValueError (lit "Invalid source response"))
              | _ => Raise (ValueError (lit "Invalid source response"))
              end in
  do! listed := jindex (lit "sheets") data in
  do! entries := py_iter listed in
  do! pairs := sheet_map entries in
  let sheets := dupdate [] pairs in
  let names := network :: (if network =s lit "FBN" then [DELISTED] else []) in
  do! _ := require (forallb (λ n, dhas n sheets) names
                    && match dget network sheets with Some v => truthy v | None => false end)
             (lit "Missing required sheet") in
  do! rows := sheet_rows network sheets in
  do! delisted := if network =s lit "FBN" then sheet_rows DELISTED sheets else Ok [] in
  do! _ := check_columns network rows delisted in
  answer network args limit data rows delisted.

(** [type(exc).__name__] *)
Definition exception_name (e : pyexc) : str :=
  match e with
  | ValueError _ => lit "ValueError"
  | KeyError _ => lit "KeyError"
  | TypeError => lit "TypeError"
  | _ => lit "IndexError"
  end.

Definition source_failed (exception : str) : json :=
  reply (lit "failed") (lit "I cannot check the current hospital information right now. This is a connection problem, not evidence that the hospital or location is wrong. Do not give facts from previous results.")
    [(lit "error_type", JStr exception)].

Definition configured (endpoint token : str) : bool :=
  starts_with (lit "https://script.google.com/macros/s/") endpoint
  && ends_with (lit "/exec") endpoint && negb (token =s []).

Definition lookup (endpoint token : str) (args : dict) (limit : Z)
    (deadline : bool) (first second : sheet_read) : json :=
  let args := prepare_args args in
  match preflight args with
  | Some problem => problem
  | None =>
      if negb (configured endpoint token) then
        reply (lit "failed") (lit "The live directory connection is unavailable. Do not use old results.") []
      else
        match read_sheet deadline first second with
        | inr e => source_failed e
        | inl body =>
            match from_body (py_str args.[lit "network"]) args limit body with
            | Ok answer => answer
            | Raise e => source_failed (exception_name e)
            end
        end
  end.
End directory.

(** ** Properties *)

Section properties.
Context (nfkd : str → str).

(** [x] is not ranked after [y]. *)
Definition ranks (args x y : dict) : Prop := result_score nfkd y args ≤ result_score nfkd x args.

Lemma rank_leb_score args x y : rank_leb nfkd args x y = true → ranks args x y.
Proof. unfold rank_leb, ranks. repeat case_match; lia. Qed.

Lemma rank_leb_false args x y : rank_leb nfkd args x y = false → ranks args y x.
Proof. unfold rank_leb, ranks. repeat case_match; lia. Qed.

Lemma rank_insert_perm args x l : rank_insert nfkd args x l ≡ₚ x :: l.
Proof.
  induction l as [|y l IH]; simpl; [done|]. destruct (rank_leb nfkd args x y); [done|].
  rewrite IH. constructor.
Qed.

Lemma ranked_perm args l : ranked nfkd args l ≡ₚ l.
Proof. induction l as [|x l IH]; simpl; [done|]. by rewrite rank_insert_perm, IH. Qed.

Lemma rank_insert_sorted args x l :
  StronglySorted (ranks args) l → StronglySorted (ranks args) (rank_insert nfkd args x l).
Proof.
  induction 1 as [|y l Hs IH Hy]; simpl; [by repeat constructor|].
  destruct (rank_leb nfkd args x y) eqn:E.
  - apply rank_leb_score in E. constructor; [by constructor|]. constructor; [done|].
    eapply Forall_impl; [exact Hy|]. unfold ranks in *. intros z. lia.
  - apply rank_leb_false in E. constructor; [done|]. rewrite rank_insert_perm. by constructor.
Qed.

Lemma ranked_sorted args l : StronglySorted (ranks args) (ranked nfkd args l).
Proof. induction l as [|x l IH]; simpl; [constructor|]. by apply rank_insert_sorted. Qed.

Lemma match_records_spec network rows args delisted l :
  match_records nfkd network rows args delisted = Ok l →
  ∃ rs, records network rows = Ok rs ∧ StronglySorted (ranks args) l ∧
    (∀ r, r ∈ l → r ∈ rs ∧ row_matches nfkd network args r = true) ∧
    (network ≠ lit "FBN" → l ≡ₚ List.filter (row_matches nfkd network args) rs) ∧
    (network = lit "FBN" → l = [] ∨ ∃ removed, exclusions (drop 1 delisted) = Ok removed ∧
       ∀ r, r ∈ l ↔ r ∈ rs ∧ row_matches nfkd network args r = true
                      ∧ excluded nfkd removed r.[lit "provider"] = false).
Proof.
  assert (∀ {A} (f : A → bool) l x, x ∈ List.filter f l ↔ x ∈ l ∧ f x = true) as Hfilter
    by (intros A f k x; rewrite !list_elem_of_In; apply List.filter_In).
  unfold match_records. intros (rs & Hrs & H)%exn_bind_Ok. exists rs. split; [done|].
  set (hits := List.filter (row_matches nfkd network args) rs) in *.
  destruct (_ && _) eqn:E.
  - apply exn_bind_Ok in H as (removed & Hrem & [= <-]). apply andb_true_iff in E as [E _].
    apply str_eqb_true in E as ->. split; [apply ranked_sorted|]. split_and!.
    + intros r. rewrite ranked_perm, Hfilter. unfold hits. rewrite Hfilter. tauto.
    + done.
    + intros _. right. exists removed. split; [done|]. intros r.
      rewrite ranked_perm, Hfilter. unfold hits. rewrite Hfilter, negb_true_iff. tauto.
  - injection H as <-. split; [apply ranked_sorted|]. split_and!.
    + intros r. rewrite ranked_perm. unfold hits. by rewrite Hfilter.
    + intros _. apply ranked_perm.
    + intros ->. left. rewrite str_eqb_refl in E. simpl in E. apply negb_false_iff, bool_decide_eq_true_1 in E.
      by rewrite E.
Qed.

Lemma nearby_options_spec network rows args delisted towns l :
  nearby_options nfkd network rows args delisted towns = Ok l →
  ∀ o, o ∈ l → ∃ town found, town ∈ towns ∧ found ≠ [] ∧
    match_records nfkd network rows (dset (lit "town") (JStr town) args) delisted = Ok found ∧
    o = JObj [(lit "town", JStr town); (lit "total_matches", JInt (Z.of_nat (length found)));
              (lit "matches", JArr (map JObj (take 2 found)));
              (lit "filters", JObj (dset (lit "town") (JStr town) args))].
Proof.
  revert l. induction towns as [|t towns IH]; intros l; simpl.
  - intros [= <-] o Ho. by apply not_elem_of_nil in Ho.
  - intros (found & Hf & (rest & Hr & [= <-])%exn_bind_Ok)%exn_bind_Ok o Ho. case_bool_decide as Hn.
    + destruct (IH _ Hr o Ho) as (t' & f' & ? & ?). exists t', f'. split; [by right|done].
    + apply elem_of_cons in Ho as [->|Ho].
      * exists t, found. by split; [left|].
      * destruct (IH _ Hr o Ho) as (t' & f' & ? & ?). exists t', f'. split; [by right|done].
Qed.
End properties.

(** An answer read from the sheet is either a request for clarification, or lists at
    most seven rows of the sheet, every one matching every filter given, best score first
    (and the total counts every matching row, none left out); when nothing matches, at most
    three other areas of the reviewed map are offered, each for the same filters but the
    town, plan included. *)
Theorem directory_answer_sound nfkd network args limit data rows delisted out :
  answer nfkd network args limit data rows delisted = Ok out →
  (∃ rs, records network rows = Ok rs ∧ validate_labels nfkd args rs = Some out) ∨
  ∃ matches nearby,
    out = reply (lit "ok") LISTING_NOTE
      [(lit "network", JStr network); (lit "filters", JObj args);
       (lit "matches", JArr (map JObj (take (Z.to_nat (result_limit limit)) matches)));
       (lit "total_matches", JInt (Z.of_nat (length matches)));
       (lit "nearby_options", JArr (take NEARBY_MAX nearby));
       (lit "read_completed_at", data.[lit "readCompletedAt"]);
       (lit "source", JStr (lit "live_google_sheet"))]
    ∧ (Z.to_nat (result_limit limit) ≤ 7)%nat
    ∧ match_records nfkd network rows args delisted = Ok matches
    ∧ StronglySorted (ranks nfkd args) matches
    ∧ (∀ r, r ∈ matches → row_matches nfkd network args r = true)
    ∧ (matches ≠ [] → nearby = [])
    ∧ ∀ o, o ∈ take NEARBY_MAX nearby → ∃ town found, town ∈ nearby_towns nfkd args ∧ found ≠ []
        ∧ o = JObj [(lit "town", JStr town); (lit "total_matches", JInt (Z.of_nat (length found)));
                    (lit "matches", JArr (map JObj (take 2 found)));
                    (lit "filters", JObj (dset (lit "town") (JStr town) args))]
        ∧ ∀ r, r ∈ found → row_matches nfkd network (dset (lit "town") (JStr town) args) r = true.
Proof.
  unfold answer. intros (rs & Hrs & H)%exn_bind_Ok.
  destruct (validate_labels nfkd args rs) as [c|] eqn:Hv; [left; exists rs; by simplify_eq|right].
  apply exn_bind_Ok in H as (matches & Hm & (nearby & Hn & [= <-])%exn_bind_Ok).
  destruct (match_records_spec _ _ _ _ _ _ Hm) as (rs' & _ & Hs & Hin & _).
  exists matches, nearby. split_and!; try done.
  - unfold result_limit. lia.
  - intros r Hr. by apply Hin.
  - intros Hne. rewrite bool_decide_eq_false_2 in Hn by done. by injection Hn.
  - intros o (k & Hk & _)%elem_of_take. apply list_elem_of_lookup_2 in Hk as Hino.
    case_bool_decide; [|injection Hn as <-; by apply not_elem_of_nil in Hino].
    destruct (nearby_options_spec _ _ _ _ _ _ _ Hn o Hino) as (town & found & Ht & Hf & Hmf & ->).
    exists town, found. split_and!; try done.
    intros r Hr. destruct (match_records_spec _ _ _ _ _ _ Hmf) as (rs2 & _ & _ & Hin2 & _). by apply Hin2.
Qed.

(** A sheet of two Ikeja hospitals, of which one lists the plan asked for. *)
Abbreviation example_rows :=
  (map (λ r, JArr (map (λ c, JStr (lit c)) r))
    [["CODE"; "ZONE"; "STATE"; "TOWN"; "PROVIDER"; "ADDRESS"; "CAT"; "PLAN"; "SPECIALTY"];
     ["1"; "SW"; "Lagos"; "Ikeja"; "Alpha Hospital"; "1 Allen Avenue"; "A"; "Plus and higher"; "Dental"];
     ["2"; "SW"; "Lagos"; "Ikeja"; "Beta Clinic"; "2 Opebi Road"; "B"; "Magnum"; "Optical"]]%string)
  (only parsing).
Abbreviation example_args :=
  (map (λ r, (lit r.1, JStr (lit r.2)))
    [("intent", "lookup"); ("network", "PROVIDER"); ("plan", "Plus"); ("town", "ikeja")]%string)
  (only parsing).

Lemma example_answer :
  ∃ out, answer (λ s, s) (lit "PROVIDER") example_args 5 [] example_rows [] = Ok out
    ∧ validate_labels (λ s, s) example_args
        (match records (lit "PROVIDER") example_rows with Ok rs => rs | Raise _ => [] end) = None
    ∧ (match out with JObj d => match d.[lit "data"] with JObj d => d.[lit "total_matches"] | _ => JNull end
       | _ => JNull end) = JInt 1.
Proof. eexists. split_and!; vm_compute; reflexivity. Qed.

Lemma directory_answer_sound_witness :
  ∃ out, answer (λ s, s) (lit "PROVIDER") example_args 5 [] example_rows [] = Ok out
    ∧ ∃ matches, StronglySorted (ranks (λ s, s) example_args) matches
        ∧ match_records (λ s, s) (lit "PROVIDER") example_rows example_args [] = Ok matches.
Proof.
  destruct example_answer as (out & Hout & Hv & _). exists out. split; [exact Hout|].
  destruct (directory_answer_sound _ _ _ _ _ _ _ _ Hout) as [(rs & Hrs & Hc)|(m & n & _ & _ & Hm & Hs & _)].
  - rewrite Hrs in Hv. rewrite Hv in Hc. discriminate Hc.
  - exists m. exact (conj Hs Hm).
Defined.
