(* ===== verification/DirectoryEmail.v ===== *)
(** * Provider lists by e-mail: latency_lab/directory_email.py

    A caller verified by the SIP route may have the last search sent to the address saved
    for the number, or to another one after a separate confirmation.  The object of a call
    and the database it shares are a machine (Prelude.v): [send] waits twice, for the fresh
    lookup and for the mail service, and any other call of the object may come in between.
    Unicode case folding, decomposition and word characters, and SHA-256, are parameters. *)
From stdpp Require Import base list strings.
From Stdlib Require Import ZArith Lia.
From S2P Require Import Prelude Pystr Json JsonText Phones CallIdentity DirectoryLocations ProviderDirectory.

Definition MAIL_TOOL_NAME : str := lit "email_provider_results".
Definition TOOL_URL : str := lit "builtin://email-provider-results".

Definition mail_enabled (tools : list dict) : bool :=
  ProviderDirectory.enabled tools && existsb (tool_active MAIL_TOOL_NAME TOOL_URL) tools.

Definition mail_definitions (tools : list dict) : list json :=
  if negb (mail_enabled tools) then [] else
  [JObj [(lit "type", JStr (lit "function"));
    (lit "function", JObj [(lit "name", JStr MAIL_TOOL_NAME);
        (lit "description", JStr (lit "When the caller requests the hospital/provider list by email, email at most the seven best matching results from the most recent successful search. By default the application uses the email saved for the verified SIP caller. If the caller explicitly gives a different destination email, pass it as recipient_email; the application reads it back and requires a separate clear confirmation before sending. Never invent or infer an address, never send anything except the requested provider list, and never supply a message body. Call only when the caller requests/accepts the hospital list by email, not for policy benefits or merely asking which email is saved. Search the requested scope first if needed."));
        (lit "parameters", JObj [(lit "type", JStr (lit "object"));
            (lit "properties", JObj [(lit "recipient_email", JObj [(lit "type", JStr (lit "string"));
                    (lit "format", JStr (lit "email"));
                    (lit "maxLength", JInt 254);
                    (lit "description", JStr (lit "Optional. Include only when the caller explicitly asks to send this hospital list to a different email address and states that address. The application will read it back and require a separate confirmation."))])]);
            (lit "additionalProperties", JBool false)])])]].

(** ** The caller's reply to a confirmation question *)

(** A token of the model's stream: text, or a tool call. *)
Definition labels : list str := [lit "confirmed"; lit "rejected"; lit "unclear"].

Definition tokens_text (tokens : list json) : option str :=
  foldr (λ t acc, match t, acc with JStr s, Some r => Some (s ++ r) | _, _ => None end) (Some []) tokens.

(** The model's stream, or how it failed or that it took six seconds. *)
Definition confirmation_decision (stream : exn (list json)) : exn str :=
  exn_default (lit "unclear")
    (do! tokens := stream in
     Ok (match tokens_text tokens with
         | None => lit "unclear"
         | Some text =>
             let label := py_lower (py_strip text) in
             if in_strs label labels then label else lit "unclear"
         end)).

(** The last six turns it is shown, cut to 1500 characters. *)
Definition conversation_window (history : list dict) : list json :=
  last_n 6 (map (λ m, JObj [(lit "role", m.[lit "role"]);
                            (lit "content", JStr (take 1500 (py_str (default (JStr []) (dget (lit "content") m)))))])
    (List.filter (λ m, jeq_str m.[lit "role"] (lit "user") || jeq_str m.[lit "role"] (lit "assistant")) history)).

(** ** The database *)

Record contact := mkContact {
  contact_business : str;
  contact_phone_e164 : str;
  contact_email : str;
  contact_active : bool;
  contact_name : str;
}.

Record outbox_row := mkRow {
  row_id : str;
  row_business : str;
  row_agent : str;
  row_session : str;
  row_phone : str;
  row_recipient : str;
  row_hash : str;
  row_status : str;
  row_request_id : str;
  row_read_at : json;
  row_count : Z;
}.

Record database := mkDatabase { contacts : list contact; outbox : list outbox_row }.

Definition find_contact (business phone : str) (l : list contact) : option contact :=
  List.find (λ c, (contact_business c =s business) && (contact_phone_e164 c =s phone)) l.

(** [INSERT .. ON CONFLICT .. DO UPDATE]: an empty e-mail keeps the one saved. *)
Fixpoint upsert_contact (business phone email : str) (name : option str) (l : list contact) : list contact :=
  match l with
  | [] => [mkContact business phone email true (default [] name)]
  | c :: l =>
      if (contact_business c =s business) && (contact_phone_e164 c =s phone)
      then mkContact business phone (if email =s [] then contact_email c else email) true
             (default (contact_name c) name) :: l
      else c :: upsert_contact business phone email name l
  end.

Definition clean_name (s : str) : str := take 120 (collapse_ws s).

Definition save_contact (business : str) (phone email : json) (full_name : option str) (d : database)
    : exn database :=
  let number := contact_phone phone in
  let email := str_strip email in
  if (number =s []) || (negb (email =s []) && negb (email_like email))
  then Raise (ValueError (lit "Valid caller number and optional email required"))
  else Ok (mkDatabase (upsert_contact business number email (clean_name <$> full_name) (contacts d)) (outbox d)).

(** ** Texts *)

(** [html.escape] *)
Definition escape_char (c : Z) : str :=
  if c =? 38 then lit "&amp;" else if c =? 60 then lit "&lt;" else if c =? 62 then lit "&gt;"
  else if c =? 34 then lit "&quot;" else if c =? 39 then lit "&#x27;" else [c].
Definition html_escape (s : str) : str := s ≫= escape_char.

(** [re.sub(r"https?://", "", s, flags=re.I)] *)
Fixpoint drop_scheme (skip : nat) (s : str) : str :=
  match s with
  | [] => []
  | c :: r =>
      match skip with
      | S skip => drop_scheme skip r
      | O =>
          let low := map (λ c, if c =? 383 then 115 else if is_upper c then c + 32 else c) (take 8 s) in
          if starts_with (lit "https://") low then drop_scheme 7 r
          else if starts_with (lit "http://") low then drop_scheme 6 r
          else c :: drop_scheme 0 r
      end
  end.

Definition row_keys : list (str * str) := table
  [("address", "Address"); ("town", "Town"); ("state", "State"); ("country", "Country"); ("plan", "Plan");
   ("specialty", "Specialty"); ("facility_status", "Facility Status")]%string.

Definition email_row (row : dict) : exn (list str) :=
  do! provider := jindex (lit "provider") row in
  Ok (py_str provider
      :: map (λ kt, kt.2 ++ lit ": " ++ py_str row.[kt.1]) (List.filter (λ kt, truthy row.[kt.1]) row_keys)
      ++ [[]]).

Fixpoint email_rows (rows : list json) : exn (list str) :=
  match rows with
  | [] => Ok []
  | JObj row :: rows => do! a := email_row row in do! b := email_rows rows in Ok (a ++ b)
  | _ :: _ => Raise TypeError
  end.

Definition email_filters (filters : dict) : str :=
  py_join (lit ", ") (map (λ kv, kv.1 ++ lit ": " ++ py_str kv.2)
                          (List.filter (λ kv, negb (kv.1 =s lit "intent")) filters)).

Definition email_lines (filters : dict) (read_at : json) (rows : list str) (full_name : str) : list str :=
  let name := clean_name full_name in
  [if name =s [] then lit "Hello," else lit "Hello " ++ name ++ lit ","; [];
   lit "Thank you for speaking with Amaka at Leadway Health. It was a pleasure helping you today.";
   lit "Please find the hospital list you requested below. We hope this makes it easier to choose a convenient place for your care."; [];
   lit "Search: " ++ email_filters filters;
   lit "Directory checked: " ++ py_str (jor read_at (JStr (lit "just now"))); []]
  ++ rows
  ++ [lit "These are current directory listings, not confirmation of active policy coverage, preauthorisation or appointment availability.";
      []; lit "If you need help finding another hospital or have any questions, please contact Leadway Health. We will be happy to help.";
      lit "Thank you for choosing Leadway Health. Wishing you good health and a pleasant day.";
      []; lit "Warm regards,"; lit "Amaka"; lit "Leadway Health"].

Definition render_email (data : dict) (full_name : str) : exn (str * str) :=
  do! filters := jindex (lit "filters") data in
  do! fs := match filters with JObj d => Ok d | _ => Raise AttributeError end in
  do! matches := jindex (lit "matches") data in
  do! listed := py_iter matches in
  do! rows := email_rows listed in
  let lines := email_lines fs data.[lit "read_completed_at"] rows full_name in
  Ok (py_join [10] lines,
      [60] ++ lit "div style=" ++ [34] ++ lit "font-family:Arial,sans-serif;line-height:1.6;max-width:720px" ++ [34; 62]
      ++ py_join (lit "<br>") (map html_escape lines) ++ lit "</div>").

(** [json.dumps(v, sort_keys=True)]: ASCII, keys in order. *)
Fixpoint insert_key (kv : str * str) (l : list (str * str)) : list (str * str) :=
  match l with
  | [] => [kv]
  | x :: l => if str_leb kv.1 x.1 then kv :: x :: l else x :: insert_key kv l
  end.

Fixpoint dumps_sorted (v : json) : str :=
  match v with
  | JStr s => ascii_quote s
  | JArr l => lit "[" ++ py_join (lit ", ") (map dumps_sorted l) ++ lit "]"
  | JObj kvs =>
      lit "{"
      ++ py_join (lit ", ") (map (λ kv, ascii_quote kv.1 ++ lit ": " ++ kv.2)
           (foldr insert_key [] (map (λ kv, (kv.1, dumps_sorted kv.2)) kvs)))
      ++ lit "}"
  | _ => dumps v
  end.

(** ** The object of a call *)

Record prepared_email := mkPrepared {
  prepared_phone : str;
  saved_recipient : str;
  prepared_recipient : str;
  alternate : bool;
  prepared_name : str;
  prepared_filters : dict;
}.

(** A [send] waiting for the fresh lookup, or for the mail service. *)
Inductive send_frame : Type :=
| Refreshing (p : prepared_email) (confirmed_alternate : bool)
| Submitting (operation : str) (rows : Z)
| SendDone.

Record email_state := mkEmail {
  filters : option dict;
  prepared : option prepared_email;
  sends : list send_frame;
  db : database;
}.

(** What an operation answers, or the mail it hands to the service. *)
Inductive email_effect : Type :=
| Answer (status message : str) (data : dict)
| SendFailed (exception : pyexc)
| LookupAgain (filters : dict)
| SubmitMail (search_hash recipient : str) (payload : dict).

(** [db_error] tells whether the database raises while the event is handled. *)
Inductive email_event : Type :=
| Remember (body : json)
| Prepare (arguments : dict) (db_error : bool)
| Send (confirmed_alternate : bool) (db_error : bool)
| Refreshed (i : nat) (fresh : json) (operation : str) (db_error : bool)
| MailReply (i : nat) (response : exn (Z * exn json)) (db_error : bool)
| SaveContact (business : str) (phone email : json) (full_name : option str).

Section email.
Context (business_id agent_id session_id : str) (tools : list dict) (identity : dict) (has_path : bool)
  (zepto_key zepto_sender : str)
  (nfkd casefold sha256_hex : str → str) (word : Z → bool).

(** [re.sub(r"(?<=\w)\.(?=\w)", " dot ", s)] *)
Fixpoint speak_dots (before : bool) (s : str) : str :=
  match s with
  | [] => []
  | c :: r =>
      (if (c =? 46) && before && (match r with d :: _ => word d | [] => false end)
       then lit " dot " else [c]) ++ speak_dots (word c) r
  end.

Definition speech_text (text : str) : str :=
  replace_char 38 (lit " and ") (replace_char 64 (lit " at ")
    (replace_char 42 (lit " star ") (replace_char 35 (lit " hash ") (speak_dots false (drop_scheme 0 text))))).

Definition verified_route : bool :=
  mail_enabled tools && jeq_str identity.[lit "entry_surface"] (lit "aicc_inbound")
  && truthy identity.[lit "sip_trunk_id"] && truthy identity.[lit "sip_caller_verified"]
  && jeq_str identity.[lit "business_id"] business_id && jeq_str identity.[lit "config_agent_id"] agent_id.

(** [_verified_contact]: phone, e-mail and name. *)
Definition _verified_contact (db_error : bool) (d : database) : exn (option (str * str * str)) :=
  if negb verified_route then Ok None
  else
    let phone := contact_phone identity.[lit "caller_phone"] in
    if (phone =s []) || negb has_path then Ok None
    else if db_error then Raise SqliteError
    else
      Ok (match find_contact business_id phone (contacts d) with
          | Some c => if contact_active c then Some (phone, py_strip (contact_email c), contact_name c) else None
          | None => None
          end).

Definition has_contact (db_error : bool) (d : database) : bool :=
  match _verified_contact db_error d with Ok (Some _) => true | _ => false end.
Definition caller_name (db_error : bool) (d : database) : str :=
  match _verified_contact db_error d with Ok (Some (_, _, name)) => name | _ => [] end.
Definition recipient (db_error : bool) (d : database) : exn (option (str * str)) :=
  do! c := _verified_contact db_error d in
  Ok (match c with
      | Some (phone, email, _) => if email =s [] then None else Some (phone, email)
      | None => None
      end).

(** ** [remember] *)

Definition positive (v : json) : bool := match v with JInt n => 0 <? n | JBool b => b | _ => false end.

Definition remember (body : dict) (s : email_state) : email_state :=
  let data := dict_or_empty body.[lit "data"] in
  let ok := jeq_str body.[lit "status"] (lit "ok") in
  let cleared := if truthy data.[lit "filters"] || negb ok then None else filters s in
  let fs := if ok && jeq_str data.[lit "source"] (lit "live_google_sheet")
               && positive data.[lit "total_matches"]
            then match data.[lit "filters"] with JObj d => Some d | _ => cleared end else cleared in
  mkEmail fs (prepared s) (sends s) (db s).

(** ** [prepare] *)

Definition set_prepared (p : option prepared_email) (s : email_state) : email_state :=
  mkEmail (filters s) p (sends s) (db s).

Definition needs (message : str) : list email_effect := [Answer (lit "needs_input") message []].
Definition fails (message : str) : list email_effect := [Answer (lit "failed") message []].

Definition NO_SAVED_EMAIL : str := lit "I don't have an email saved for this number yet. Please provide the address you'd like me to use for this hospital list.".

(** The destination once the contact and the search are known. *)
Definition choose_recipient (asked saved : str) : option (str * bool) :=
  let is_alternate := negb (asked =s []) && negb (casefold asked =s casefold saved) in
  let destination := if is_alternate then asked else saved in
  if destination =s [] then None else Some (destination, is_alternate).

Definition prepare (arguments : dict) (db_error : bool) (s : email_state) : email_state * list email_effect :=
  let s := set_prepared None s in
  if negb (forallb (λ kv, kv.1 =s lit "recipient_email") arguments) then
    (s, fails (lit "The email tool accepts only an optional destination email address."))
  else
    match _verified_contact db_error (db s) with
    | Raise _ => (s, fails (lit "I can't access the saved contact list right now."))
    | Ok None => (s, needs (lit "I can't find a saved contact for this calling number. It needs to be added to the contact list before I can email the list."))
    | Ok (Some (phone, email, name)) =>
        match filters s with
        | None => (s, needs (lit "Let’s find the hospitals you need first. Which plan and location should I check?"))
        | Some [] => (s, needs (lit "Let’s find the hospitals you need first. Which plan and location should I check?"))
        | Some fs =>
            let asked := str_strip arguments.[lit "recipient_email"] in
            if negb (asked =s []) && negb (email_like asked) then
              (s, needs (lit "I didn't catch a valid email address. Please say the address again."))
            else
              match choose_recipient asked email with
              | None => (s, needs NO_SAVED_EMAIL)
              | Some (destination, is_alternate) =>
                  (set_prepared (Some (mkPrepared phone email destination is_alternate name fs)) s,
                   if is_alternate then
                     [Answer (lit "needs_confirmation")
                       (lit "You asked me to send the hospital list to " ++ py_strip (speech_text destination)
                        ++ lit ", instead of your saved email. Is that the correct address? I will send it there only after you confirm.") []]
                   else [Answer (lit "ready") (lit "I’ll send that to the email we have for you.") []])
              end
        end
    end.

(** ** [send] *)

Definition send (confirmed_alternate db_error : bool) (s : email_state) : email_state * list email_effect :=
  let p := prepared s in
  let s := set_prepared None s in
  match p with
  | None => (s, fails (lit "There is no hospital list ready to email yet."))
  | Some p =>
      if alternate p && negb confirmed_alternate then
        (s, fails (lit "The alternate email address has not been confirmed by the caller."))
      else
        match _verified_contact db_error (db s) with
        | Raise _ => (s, fails (lit "I can't verify the saved contact right now."))
        | Ok c =>
            match c with
            | Some (phone, email, _) =>
                if (phone =s prepared_phone p) && (email =s saved_recipient p) then
                  if (zepto_key =s []) || negb (email_like zepto_sender) then
                    (s, fails (lit "Email sending is not available right now."))
                  else (mkEmail (filters s) None (sends s ++ [Refreshing p confirmed_alternate]) (db s),
                        [LookupAgain (prepared_filters p)])
                else (s, fails (lit "The saved contact has changed. Please request the email again."))
            | None => (s, fails (lit "The saved contact has changed. Please request the email again."))
            end
        end
  end.

Definition set_send (i : nat) (f : send_frame) (s : email_state) : email_state :=
  mkEmail (filters s) (prepared s) (<[i := f]> (sends s)) (db s).
Definition set_outbox (rows : list outbox_row) (s : email_state) : email_state :=
  mkEmail (filters s) (prepared s) (sends s) (mkDatabase (contacts (db s)) rows).

Definition search_hash (p : prepared_email) : str :=
  sha256_hex (dumps_sorted (JObj
    [(lit "filters", JObj (prepared_filters p)); (lit "recipient", JStr (casefold (prepared_recipient p)))])).

Definition same_search (hash : str) (r : outbox_row) : bool :=
  (row_business r =s business_id) && (row_agent r =s agent_id) && (row_session r =s session_id)
  && (row_hash r =s hash).

(** [INSERT], checked against the primary key and the unique constraint. *)
Definition insert_row (r : outbox_row) (rows : list outbox_row) : option (list outbox_row) :=
  if existsb (λ r', (row_id r' =s row_id r)
                    || ((row_business r' =s row_business r) && (row_agent r' =s row_agent r)
                        && (row_session r' =s row_session r) && (row_hash r' =s row_hash r))) rows
  then None else Some (rows ++ [r]).

Definition mail_payload (recipient text markup operation : str) : dict :=
  [(lit "from", JObj [(lit "address", JStr zepto_sender); (lit "name", JStr (lit "Amaka — Leadway Health"))]);
   (lit "to", JArr [JObj [(lit "email_address", JObj [(lit "address", JStr recipient)])]]);
   (lit "subject", JStr (lit "Your requested hospital list — Leadway Health"));
   (lit "textbody", JStr text); (lit "htmlbody", JStr markup); (lit "client_reference", JStr operation);
   (lit "track_opens", JBool false); (lit "track_clicks", JBool false)].

(** Once the fresh list is there: the outbox decides whether anything is submitted. *)
Definition submit (i : nat) (p : prepared_email) (data : dict) (rows : list json) (operation : str)
    (s : email_state) : email_state * list email_effect :=
  let hash := search_hash p in
  let finished := set_send i SendDone s in
  match List.find (same_search hash) (outbox (db s)) with
  | Some old =>
      (finished,
       if row_status old =s lit "accepted" then
         [Answer (lit "success") (lit "That list is already on its way to your email. Please check your inbox or spam folder.")
            [(lit "deduplicated", JBool true)]]
       else [Answer (lit "unknown") (lit "An email attempt for this list is already recorded. I can't confirm delivery, so I won't risk sending a duplicate.") []])
  | None =>
      let r := mkRow operation business_id agent_id session_id (prepared_phone p) (prepared_recipient p) hash
                 (lit "sending") [] data.[lit "read_completed_at"] (Z.of_nat (length rows)) in
      match insert_row r (outbox (db s)) with
      | None => (finished, [Answer (lit "unknown") (lit "This email request is already being processed. Please check your inbox shortly.") []])
      | Some outbox =>
          let s := set_outbox outbox s in
          match render_email (dset (lit "matches") (JArr rows) data) (prepared_name p) with
          | Raise e => (set_send i SendDone s, [SendFailed e])
          | Ok (text, markup) =>
              (set_send i (Submitting operation (Z.of_nat (length rows))) s,
               [SubmitMail hash (prepared_recipient p)
                  (mail_payload (prepared_recipient p) text markup operation)])
          end
      end
  end.

Definition refreshed (i : nat) (p : prepared_email) (fresh : json) (operation : str) (db_error : bool)
    (s : email_state) : email_state * list email_effect :=
  let finished := set_send i SendDone s in
  let fresh := dict_or_empty fresh in
  let data := dict_or_empty fresh.[lit "data"] in
  let rows := take 7 (match data.[lit "matches"] with JArr l => l | _ => [] end) in
  if negb (jeq_str fresh.[lit "status"] (lit "ok")) then
    (finished, [Answer (lit "failed") (lit "I couldn't refresh the hospital list just now, so the email hasn't gone out. That doesn't mean the hospitals are no longer listed. Would you like me to try again?")
       [(lit "source_status", fresh.[lit "status"]);
        (lit "source_error", default (JStr []) (dget (lit "error_type") data))]])
  else if bool_decide (rows = []) then
    (finished, needs (lit "The latest check didn't return hospitals for that search, so I haven't emailed an empty list. Let's check the plan and area again."))
  else if db_error then (finished, [SendFailed SqliteError])
  else submit i p data rows operation s.

(** Whether the service took the mail, and its reference; a response that is no such
    object raises. *)
Definition read_mail_reply (status : Z) (body : json) : exn (bool * str) :=
  match body with
  | JObj d =>
      let request_id := take 255 (py_str (default (JStr []) (dget (lit "request_id") d))) in
      if (200 <=? status) && (status <? 300) && negb (truthy d.[lit "error"]) then
        do! items := py_iter (default (JArr []) (dget (lit "data") d)) in
        Ok (existsb (λ x, match x with
                          | JObj e => py_str (default (JStr []) (dget (lit "code") e)) =s lit "EM_104"
                          | _ => false
                          end) items, request_id)
      else Ok (false, request_id)
  | _ => Ok (false, [])
  end.

(** The errors after which the outcome is unknown. *)
Definition ambiguous (e : pyexc) : bool :=
  match e with HttpError | TimeoutError | ValueError _ | CancelledError => true | _ => false end.

Definition mail_status (response : exn (Z * exn json)) : exn (str * str) :=
  exn_catch
    (do! sb := response in
     do! body := sb.2 in
     do! r := read_mail_reply sb.1 body in
     Ok (if r.1 then lit "accepted" else lit "failed", r.2))
    (λ e, if ambiguous e then Ok (lit "unknown", []) else Raise e).

Definition set_row_status (operation status request_id : str) (rows : list outbox_row) : list outbox_row :=
  map (λ r, if row_id r =s operation
            then mkRow (row_id r) (row_business r) (row_agent r) (row_session r) (row_phone r)
                   (row_recipient r) (row_hash r) status request_id (row_read_at r) (row_count r)
            else r) rows.

Definition mail_answer (status operation : str) (rows : Z) : email_effect :=
  let ref := (lit "operation_id", JStr operation) in
  if status =s lit "accepted" then
    Answer (lit "success") (lit "That's on its way to the email we have for you. It should arrive shortly. Please check your spam folder too.")
      [ref; (lit "count", JInt rows); (lit "provider_status", JStr (lit "accepted"))]
  else if status =s lit "unknown" then
    Answer (lit "unknown") (lit "I couldn't confirm whether the email was accepted. Please check your inbox; I won't send it again automatically.") [ref]
  else Answer (lit "failed") (lit "The email service couldn't accept the message right now. I can still read the hospital details to you.") [ref].

Definition mail_reply (i : nat) (operation : str) (rows : Z) (response : exn (Z * exn json)) (db_error : bool)
    (s : email_state) : email_state * list email_effect :=
  let finished := set_send i SendDone s in
  match mail_status response with
  | Raise e => (finished, [SendFailed e])
  | Ok (status, request_id) =>
      if db_error then (finished, [SendFailed SqliteError])
      else (set_outbox (set_row_status operation status request_id (outbox (db s))) finished,
            [mail_answer status operation rows])
  end.

Definition email_step (s : email_state) (e : email_event) : option (email_state * list email_effect) :=
  match e with
  | Remember body => match body with JObj d => Some (remember d s, []) | _ => None end
  | Prepare arguments db_error => Some (prepare arguments db_error s)
  | Send confirmed db_error => Some (send confirmed db_error s)
  | Refreshed i fresh operation db_error =>
      match sends s !! i with
      | Some (Refreshing p _) => Some (refreshed i p fresh operation db_error s)
      | _ => None
      end
  | MailReply i response db_error =>
      match sends s !! i with
      | Some (Submitting operation rows) => Some (mail_reply i operation rows response db_error s)
      | _ => None
      end
  | SaveContact business phone email name =>
      match save_contact business phone email name (db s) with
      | Ok d => Some (mkEmail (filters s) (prepared s) (sends s) d, [])
      | Raise _ => Some (s, [])
      end
  end.

(** ** Properties *)

Abbreviation step := email_step (only parsing).

Definition submitted (o : list email_effect) : list str :=
  omap (λ e, match e with SubmitMail hash _ _ => Some hash | _ => None end) o.

(** The outbox remembers every submission of this call. *)
Definition recorded (rows : list outbox_row) (hash : str) : Prop :=
  ∃ r, r ∈ rows ∧ same_search hash r = true.

Lemma recorded_status op st rid rows hash :
  recorded rows hash → recorded (set_row_status op st rid rows) hash.
Proof.
  intros (r & Hr & Hs). eexists. split; [by apply list_elem_of_fmap_2, Hr|].
  unfold same_search in *. by destruct (row_id r =s op).
Qed.

Lemma insert_row_spec r rows rows' : insert_row r rows = Some rows' → rows' = rows ++ [r].
Proof. unfold insert_row. by destruct (existsb _ _); [|intros [= <-]]. Qed.

Definition outbox_inv (s : email_state) (o : list email_effect) : Prop :=
  NoDup (submitted o) ∧ ∀ hash, hash ∈ submitted o → recorded (outbox (db s)) hash.

Lemma outbox_inv_quiet s o s' o' :
  outbox_inv s o → submitted o' = [] →
  (∀ hash, recorded (outbox (db s)) hash → recorded (outbox (db s')) hash) →
  outbox_inv s' (o ++ o').
Proof.
  intros [Hn Hr] Ho Hs. unfold outbox_inv, submitted in *. rewrite omap_app, Ho, app_nil_r. auto.
Qed.

Lemma outbox_inv_submit i p data rows operation s o s' o' :
  outbox_inv s o → submit i p data rows operation s = (s', o') → outbox_inv s' (o ++ o').
Proof.
  intros H. unfold submit.
  destruct (List.find (same_search (search_hash p)) (outbox (db s))) as [old|] eqn:Hf.
  { intros [= <- <-]. apply (outbox_inv_quiet s); [done|by destruct (row_status old =s _)|done]. }
  destruct (insert_row _ _) as [rows'|] eqn:Hi;
    [|intros [= <- <-]; by apply (outbox_inv_quiet s)].
  apply insert_row_spec in Hi as ->.
  assert (∀ r hash, recorded (outbox (db s)) hash → recorded (outbox (db s) ++ [r]) hash) as Hmono.
  { intros r hash (r' & Hr' & Hs). exists r'. split; [|done]. rewrite elem_of_app. by left. }
  destruct (render_email _ _) as [[text markup]|e]; intros [= <- <-]; simpl.
  - destruct H as [Hn Hr]. unfold outbox_inv, submitted in *. rewrite omap_app. simpl. split.
    + apply NoDup_app. split_and!; [done| |apply NoDup_singleton].
      intros hash Hin ->%list_elem_of_singleton. destruct (Hr _ Hin) as (r & Hr1 & Hr2).
      by rewrite (List.find_none _ _ Hf r) in Hr2 by (by apply list_elem_of_In).
    + intros hash [Hin| ->%list_elem_of_singleton]%elem_of_app; [by apply Hmono, Hr|].
      eexists. split; [rewrite elem_of_app; right; by apply list_elem_of_singleton|].
      unfold same_search. simpl. by rewrite !str_eqb_refl.
  - apply (outbox_inv_quiet s); [done|done|]. intros hash. apply Hmono.
Qed.

Lemma prepare_quiet arguments db_error s s' o' :
  prepare arguments db_error s = (s', o') →
  submitted o' = [] ∧ db s' = db s ∧ sends s' = sends s ∧ filters s' = filters s.
Proof. unfold prepare. intros H. repeat case_match; by simplify_eq. Qed.

Lemma send_quiet confirmed db_error s s' o' :
  send confirmed db_error s = (s', o') → submitted o' = [] ∧ db s' = db s ∧ prepared s' = None.
Proof. unfold send. intros H. repeat case_match; by simplify_eq. Qed.

Lemma mail_reply_quiet i operation rows response db_error s s' o' :
  mail_reply i operation rows response db_error s = (s', o') →
  submitted o' = [] ∧ prepared s' = prepared s ∧ sends s' = <[i := SendDone]> (sends s)
  ∧ ∀ hash, recorded (outbox (db s)) hash → recorded (outbox (db s')) hash.
Proof.
  unfold mail_reply. destruct (mail_status response) as [[st rid]|e]; [|by intros [= <- <-]].
  destruct db_error; intros [= <- <-]; [done|]. split_and!; try done.
  - unfold mail_answer. by repeat case_match.
  - intros hash. apply recorded_status.
Qed.

Lemma outbox_inv_step s o e s' o' :
  outbox_inv s o → step s e = Some (s', o') → outbox_inv s' (o ++ o').
Proof.
  intros H Hs. destruct e as [body|args b|c b|i fresh op b|i resp b|bz ph em nm]; simpl in Hs.
  - destruct body; try done. injection Hs as <- <-. by apply (outbox_inv_quiet s).
  - injection Hs as Hs. apply prepare_quiet in Hs as (? & Hd & _). apply (outbox_inv_quiet s); [done..|].
    by rewrite Hd.
  - injection Hs as Hs. apply send_quiet in Hs as (? & Hd & _). apply (outbox_inv_quiet s); [done..|].
    by rewrite Hd.
  - destruct (sends s !! i) as [[p c| |]|]; try done. injection Hs as Hs. unfold refreshed in Hs.
    destruct (negb _); [injection Hs as <- <-; by apply (outbox_inv_quiet s)|].
    case_bool_decide; [injection Hs as <- <-; by apply (outbox_inv_quiet s)|].
    destruct b; [injection Hs as <- <-; by apply (outbox_inv_quiet s)|]. by eapply outbox_inv_submit.
  - destruct (sends s !! i) as [[|operation rows|]|]; try done. injection Hs as Hs.
    apply mail_reply_quiet in Hs as (? & _ & _ & ?). by apply (outbox_inv_quiet s).
  - unfold save_contact in Hs. destruct (_ || _); injection Hs as <- <-; by apply (outbox_inv_quiet s).
Qed.

(** C17: the same list is never mailed twice.  From any outbox, whatever is prepared, sent,
    answered or lost, in whatever order the waits end, and whatever the mail service says:
    two submissions of a call never agree on the search and the recipient (as the outbox's
    key identifies them), and every submission has its row. *)
Theorem mail_submitted_once d es s o :
  run step (mkEmail None None [] d) es = Some (s, o) →
  NoDup (submitted o) ∧ ∀ hash, hash ∈ submitted o → recorded (outbox (db s)) hash.
Proof.
  apply (run_inv step outbox_inv).
  - split; [apply NoDup_nil_2|]. by intros hash ?%not_elem_of_nil.
  - intros. by eapply outbox_inv_step.
Qed.

(** What a prepared e-mail was prepared from. *)
Definition asked_for (es : list email_event) (p : prepared_email) : Prop :=
  if alternate p then
    ∃ args b, Prepare args b ∈ es ∧ str_strip args.[lit "recipient_email"] = prepared_recipient p
              ∧ email_like (prepared_recipient p) = true
  else prepared_recipient p = saved_recipient p.

(** [send] was called when [p] was prepared, for the contact then on file, and with the
    caller's confirmation if the address is another one. *)
Definition authorised (d : database) (es : list email_event) (p : prepared_email) : Prop :=
  ∃ es1 es2 confirmed b s1 o1 name,
    es = es1 ++ Send confirmed b :: es2
    ∧ run step (mkEmail None None [] d) es1 = Some (s1, o1)
    ∧ prepared s1 = Some p
    ∧ _verified_contact b (db s1) = Ok (Some (prepared_phone p, saved_recipient p, name))
    ∧ (alternate p = true → confirmed = true)
    ∧ asked_for es1 p.

Lemma asked_for_app es es' p : asked_for es p → asked_for (es ++ es') p.
Proof.
  unfold asked_for. destruct (alternate p); [|done]. intros (args & b & H & ?). exists args, b.
  split; [|done]. rewrite elem_of_app. by left.
Qed.

Lemma authorised_app d es es' p : authorised d es p → authorised d (es ++ es') p.
Proof.
  intros (es1 & es2 & c & b & s1 & o1 & n & -> & H). exists es1, (es2 ++ es'), c, b, s1, o1, n.
  by rewrite <-app_assoc.
Qed.

Record mail_inv (d : database) (es : list email_event) (s : email_state) (o : list email_effect) : Prop := {
  mail_run : run step (mkEmail None None [] d) es = Some (s, o);
  mail_prepared : ∀ p, prepared s = Some p → asked_for es p;
  mail_sends : ∀ i p c, sends s !! i = Some (Refreshing p c) → authorised d es p;
  mail_out : ∀ hash r payload, SubmitMail hash r payload ∈ o →
    ∃ p, authorised d es p ∧ r = prepared_recipient p ∧ hash = search_hash p;
}.

Lemma mail_inv_quiet d es s o e s' o' :
  mail_inv d es s o → step s e = Some (s', o') → submitted o' = [] →
  (∀ p, prepared s' = Some p → asked_for (es ++ [e]) p) →
  (∀ i p c, sends s' !! i = Some (Refreshing p c) →
     sends s !! i = Some (Refreshing p c) ∨ authorised d (es ++ [e]) p) →
  mail_inv d (es ++ [e]) s' (o ++ o').
Proof.
  intros [Hr Hp Hs Ho] He Hq Hp' Hs'. split.
  - by eapply run_snoc.
  - done.
  - intros i p c Hi. destruct (Hs' i p c Hi) as [H|H]; [|done]. apply authorised_app. by eapply Hs.
  - intros hash r pl [Hin|Hin]%elem_of_app.
    + destruct (Ho _ _ _ Hin) as (p & Ha & ?). exists p. split; [by apply authorised_app|done].
    + exfalso. assert (hash ∈ submitted o') as H by (apply list_elem_of_omap; by exists (SubmitMail hash r pl)).
      rewrite Hq in H. by apply not_elem_of_nil in H.
Qed.

Lemma choose_recipient_spec asked saved destination alt :
  choose_recipient asked saved = Some (destination, alt) →
  if alt then destination = asked ∧ asked ≠ [] else destination = saved.
Proof.
  unfold choose_recipient. destruct (asked =s []) eqn:Ea; simpl.
  - destruct (saved =s []); [done|]. by intros [= <- <-].
  - apply str_eqb_false in Ea. destruct (casefold asked =s casefold saved); simpl.
    + destruct (saved =s []); [done|]. by intros [= <- <-].
    + destruct (asked =s []); [done|]. by intros [= <- <-].
Qed.

Lemma prepare_spec arguments b s s' o' p :
  prepare arguments b s = (s', o') → prepared s' = Some p →
  if alternate p then str_strip arguments.[lit "recipient_email"] = prepared_recipient p
                      ∧ email_like (prepared_recipient p) = true
  else prepared_recipient p = saved_recipient p.
Proof.
  unfold prepare. intros H Hp. destruct (negb (forallb _ arguments)); [by simplify_eq/=|].
  destruct (_verified_contact b _) as [[[[ph em] nm]|]|]; try by simplify_eq/=.
  destruct (filters _) as [[|kv fs]|]; try by simplify_eq/=.
  destruct (negb _ && negb _) eqn:E; [by simplify_eq/=|].
  destruct (choose_recipient _ _) as [[dst alt]|] eqn:Ec; [|by simplify_eq/=].
  injection H as <- <-. simpl in Hp. injection Hp as <-. simpl.
  apply choose_recipient_spec in Ec. destruct alt; [|done]. destruct Ec as [-> Hne]. split; [done|].
  destruct (email_like _); [done|]. apply str_eqb_false in Hne. rewrite Hne in E. done.
Qed.

Lemma send_spec c b s s' o' :
  send c b s = (s', o') →
  (sends s' = sends s ∨ ∃ p name, sends s' = sends s ++ [Refreshing p c] ∧ prepared s = Some p
     ∧ _verified_contact b (db s) = Ok (Some (prepared_phone p, saved_recipient p, name))
     ∧ (alternate p = true → c = true)).
Proof.
  unfold send. destruct (prepared s) as [p|] eqn:Hp; [|intros [= <- <-]; by left].
  destruct (alternate p && negb c) eqn:Ea; [intros [= <- <-]; by left|].
  simpl. destruct (_verified_contact b (db s)) as [[[[ph em] nm]|]|] eqn:Hv;
    try (intros [= <- <-]; by left).
  destruct ((ph =s _) && _) eqn:E; [|intros [= <- <-]; by left].
  destruct (_ || _); intros [= <- <-]; [by left|]. right. exists p, nm.
  apply andb_true_iff in E as [E1%str_eqb_true E2%str_eqb_true]. subst. split_and!; try done.
  intros Ht. rewrite Ht in Ea. by destruct c.
Qed.

Lemma submit_spec i p data rows operation s s' o' :
  submit i p data rows operation s = (s', o') →
  prepared s' = prepared s ∧ (∃ f, sends s' = <[i := f]> (sends s) ∧ ∀ q c, f ≠ Refreshing q c)
  ∧ ∀ hash r payload, SubmitMail hash r payload ∈ o' → r = prepared_recipient p ∧ hash = search_hash p.
Proof.
  assert (∀ o : list email_effect, submitted o = [] →
    ∀ hash r payload, SubmitMail hash r payload ∈ o → r = prepared_recipient p ∧ hash = search_hash p) as Hq.
  { intros o Ho hash r pl Hin. exfalso.
    assert (hash ∈ submitted o) as H by (apply list_elem_of_omap; by exists (SubmitMail hash r pl)).
    rewrite Ho in H. by apply not_elem_of_nil in H. }
  unfold submit. destruct (List.find _ _) as [old|].
  { intros [= <- <-]. split_and!; [done|by eexists|]. apply Hq. by destruct (row_status old =s _). }
  destruct (insert_row _ _); [|intros [= <- <-]; split_and!; [done|by eexists|by apply Hq]].
  destruct (render_email _ _) as [[text markup]|]; intros [= <- <-].
  - split_and!; [done|by eexists|]. intros hash r pl Hin%list_elem_of_singleton. by injection Hin as -> -> _.
  - split_and!; [done|by eexists|by apply Hq].
Qed.

Lemma insert_refreshing (fs : list send_frame) i f j p c :
  (∀ q c, f ≠ Refreshing q c) → <[i := f]> fs !! j = Some (Refreshing p c) → fs !! j = Some (Refreshing p c).
Proof.
  intros Hf Hj. destruct (decide (i = j)) as [->|]; [|by rewrite list_lookup_insert_ne in Hj].
  destruct (decide (j < length fs)%nat).
  - rewrite list_lookup_insert_eq in Hj by done. injection Hj as ->. by destruct (Hf p c).
  - by rewrite list_insert_ge in Hj by lia.
Qed.

Lemma mail_inv_refreshed d es s o i p c fresh operation b s' o' :
  mail_inv d es s o → sends s !! i = Some (Refreshing p c) →
  refreshed i p fresh operation b s = (s', o') →
  mail_inv d (es ++ [Refreshed i fresh operation b]) s' (o ++ o').
Proof.
  intros H Hi Hs.
  assert (prepared s' = prepared s ∧ (∃ f, sends s' = <[i := f]> (sends s) ∧ ∀ q c, f ≠ Refreshing q c)
    ∧ ∀ hash r payload, SubmitMail hash r payload ∈ o' → r = prepared_recipient p ∧ hash = search_hash p)
    as (Hp' & (f & Hs' & Hf) & Ho').
  { unfold refreshed in Hs. repeat case_match; try exact (submit_spec _ _ _ _ _ _ _ _ Hs).
    all: injection Hs as <- <-; split_and!; [done|by exists SendDone|].
    all: by intros ??? Hin%list_elem_of_singleton. }
  destruct H as [Hr Hp Hsn Ho].
  assert (authorised d (es ++ [Refreshed i fresh operation b]) p) as Ha
    by apply authorised_app, (Hsn _ _ _ Hi).
  split.
  - eapply run_snoc; [done|]. simpl. by rewrite Hi, Hs.
  - intros q Hq. apply asked_for_app, Hp. congruence.
  - intros j q c' Hj. rewrite Hs' in Hj. apply insert_refreshing in Hj; [|done].
    apply authorised_app, (Hsn _ _ _ Hj).
  - intros hash r pl [Hin|Hin]%elem_of_app.
    + destruct (Ho _ _ _ Hin) as (q & Hq & ?). exists q. split; [by apply authorised_app|done].
    + exists p. split; [done|]. by apply (Ho' _ _ _ Hin).
Qed.

Lemma mail_inv_step d es s o e s' o' :
  mail_inv d es s o → step s e = Some (s', o') → mail_inv d (es ++ [e]) s' (o ++ o').
Proof.
  intros H He. pose proof He as Hs.
  assert (∀ p, prepared s = Some p → asked_for (es ++ [e]) p) as Hold
    by (intros p ?; apply asked_for_app; by eapply mail_prepared).
  destruct e as [body|args b|c b|i fresh op b|i resp b|bz ph em nm]; simpl in Hs.
  - destruct body; try done. injection Hs as <- <-. eapply mail_inv_quiet; eauto.
  - injection Hs as Hs. pose proof (prepare_quiet _ _ _ _ _ Hs) as (Hq & _ & Hsn & _).
    eapply mail_inv_quiet; [done..| |intros; left; congruence].
    intros p Hp. pose proof (prepare_spec _ _ _ _ _ _ Hs Hp) as Hsp. unfold asked_for.
    destruct (alternate p); [|done]. exists args, b. split; [|done]. rewrite elem_of_app. right. by left.
  - injection Hs as Hs. pose proof (send_quiet _ _ _ _ _ Hs) as (Hq & _ & Hn).
    eapply mail_inv_quiet; [done..|by intros p; rewrite Hn|].
    intros i p c' Hi. destruct (send_spec _ _ _ _ _ Hs) as [E|(q & nm & E & Hp & Hv & Hc)];
      rewrite E in Hi; [by left|].
    apply lookup_app_Some in Hi as [Hi|[_ Hi]]; [by left|].
    apply list_lookup_singleton_Some in Hi as [_ [= -> ->]]. right.
    exists es, [], c', b, s, o, nm. split_and!; try done; [apply H|]. by eapply mail_prepared.
  - destruct (sends s !! i) as [[p c| |]|] eqn:Hi; try done. injection Hs as Hs.
    by eapply mail_inv_refreshed.
  - destruct (sends s !! i) as [[|operation rows|]|]; try done. injection Hs as Hs.
    apply mail_reply_quiet in Hs as (Hq & Hp & Hsn & _).
    eapply mail_inv_quiet; [done..|by rewrite Hp|]. intros j p c Hj. rewrite Hsn in Hj. left.
    by apply (insert_refreshing _ i SendDone).
  - destruct (save_contact _ _ _ _ _); injection Hs as <- <-; eapply mail_inv_quiet; eauto.
Qed.

(** C15: a list is only mailed where the caller may send it.  Whatever was submitted went to
    the recipient of a prepared e-mail that [send] then accepted, while the call's contact
    still was the one it was prepared for; when the recipient is not the contact's own
    address, the caller named it in a [prepare], it looks like an address, and [send] was
    told that the caller had confirmed it. *)
Theorem mail_recipient_authorised d es s o hash r payload :
  run step (mkEmail None None [] d) es = Some (s, o) → SubmitMail hash r payload ∈ o →
  ∃ p, authorised d es p ∧ r = prepared_recipient p ∧ hash = search_hash p.
Proof.
  intros Hr Hin.
  assert (mail_inv d es s o) as [_ _ _ Ho]; [|by eapply Ho].
  clear Hin. revert es s o Hr. apply (run_hist_inv step (mail_inv d)).
  - split; try done. intros *. by intros ?%not_elem_of_nil.
  - intros. by eapply mail_inv_step.
Qed.
End email.

(** ** The contacts *)

Lemma find_upsert_eq business phone email name l :
  find_contact business phone (upsert_contact business phone email name l)
  = Some (match find_contact business phone l with
          | Some c => mkContact business phone (if email =s [] then contact_email c else email) true
                        (default (contact_name c) name)
          | None => mkContact business phone email true (default [] name)
          end).
Proof.
  induction l as [|c l IH]; simpl; [by rewrite !str_eqb_refl|].
  destruct (_ && _) eqn:E; simpl; [by rewrite !str_eqb_refl|]. by rewrite E.
Qed.

Lemma find_upsert_ne business phone email name l b k :
  (b, k) ≠ (business, phone) →
  find_contact b k (upsert_contact business phone email name l) = find_contact b k l.
Proof.
  intros Hne. assert ((business =s b) && (phone =s k) = false) as Hk.
  { apply not_true_is_false. intros [H1%str_eqb_true H2%str_eqb_true]%andb_true_iff. congruence. }
  induction l as [|c l IH]; simpl; [by rewrite Hk|].
  destruct ((contact_business c =s business) && _) eqn:E; simpl; [|by rewrite IH].
  apply andb_true_iff in E as [E1%str_eqb_true E2%str_eqb_true]. by rewrite E1, E2, Hk.
Qed.

Lemma upsert_idem business phone email name l :
  let l' := upsert_contact business phone email name l in upsert_contact business phone email name l' = l'.
Proof.
  induction l as [|c l IH]; simpl.
  - rewrite !str_eqb_refl. simpl. by destruct (email =s []), name.
  - destruct (_ && _) eqn:E; simpl; [|by rewrite E, IH].
    rewrite !str_eqb_refl. simpl. by destruct (email =s []), name.
Qed.

(** Saving a contact.  Under every spelling of the number the business finds exactly
    what was saved, an empty address or an absent name keeping the old one; no other
    contact, and no attempt of the outbox, changes; and saving the same under the stored
    number again changes nothing. *)
Theorem contact_saved business phone email full_name d d' :
  save_contact business phone email full_name d = Ok d' →
  (∀ spelling, contact_phone spelling = contact_phone phone →
     ∃ c, find_contact business (contact_phone spelling) (contacts d') = Some c ∧ contact_active c = true
       ∧ let old := find_contact business (contact_phone phone) (contacts d) in
         contact_email c = (if str_strip email =s [] then default [] (contact_email <$> old) else str_strip email)
         ∧ contact_name c = default (default [] (contact_name <$> old)) (clean_name <$> full_name))
  ∧ (∀ b k, (b, k) ≠ (business, contact_phone phone) → find_contact b k (contacts d') = find_contact b k (contacts d))
  ∧ outbox d' = outbox d
  ∧ save_contact business (JStr (contact_phone phone)) email full_name d' = Ok d'.
Proof.
  unfold save_contact. rewrite normal_again. destruct (_ || _); [done|].
  intros <-%Ok_inj. simpl. split_and!.
  - intros spelling ->. rewrite find_upsert_eq. eexists. split; [done|].
    destruct (find_contact business (contact_phone phone) (contacts d)) as [c|]; simpl; [done|].
    split_and!; try done. destruct (str_strip email =s []) eqn:E; [by apply str_eqb_true in E|done].
  - intros b k Hne. by apply find_upsert_ne.
  - done.
  - by rewrite upsert_idem.
Qed.

Lemma contact_saved_witness : ∃ c,
  find_contact (lit "b") (contact_phone (JStr (lit "+234 803 000 0001"))) (contacts
    (mkDatabase (upsert_contact (lit "b") (lit "+2348030000001") (lit "ada@clinic.ng") None []) [])) = Some c
  ∧ contact_email c = lit "ada@clinic.ng".
Proof.
  destruct (proj1 (contact_saved (lit "b") (JStr (lit "08030000001")) (JStr (lit "ada@clinic.ng")) None
    (mkDatabase [] []) _ ltac:(vm_compute; reflexivity)) (JStr (lit "+234 803 000 0001")) ltac:(vm_compute; reflexivity))
    as (c & Hf & _ & He & _).
  exists c. split; [exact Hf|]. rewrite He. vm_compute. reflexivity.
Defined.

(** ** Witnesses: a list mailed to an address the caller confirmed, then asked for again *)

Definition example_json (s : String.string) : json :=
  match loads (jtext s) with Ok v => v | Raise _ => JNull end.

Abbreviation example_contact := (mkContact (lit "b") (lit "+2348030000001") (lit "ada@clinic.ng") true (lit "Ada")) (only parsing).
Abbreviation example_db := (mkDatabase [example_contact] []) (only parsing).
Abbreviation example_step :=
  (email_step (lit "b") (lit "a") (lit "s")
     [dict_or_empty (example_json "{'name': 'lookup_provider_directory', 'url': 'builtin://provider-directory'}");
      dict_or_empty (example_json "{'name': 'email_provider_results', 'url': 'builtin://email-provider-results'}")]
     (dict_or_empty (example_json "{'entry_surface': 'aicc_inbound', 'sip_trunk_id': 't', 'sip_caller_verified': true, 'business_id': 'b', 'config_agent_id': 'a', 'caller_phone': '08030000001'}"))
     true (lit "key") (lit "care@clinic.ng") (λ s, map (λ c, if is_upper c then c + 32 else c) s) (λ s, s) alnum) (only parsing).
Abbreviation example_live := (example_json "{'status': 'ok', 'data': {'source': 'live_google_sheet', 'total_matches': 1, 'filters': {'town': 'Ikeja'}, 'matches': [{'provider': 'St. Ives', 'town': 'Ikeja'}]}}") (only parsing).
Abbreviation example_prepare := (Prepare (dict_or_empty (example_json "{'recipient_email': 'Bola@home.ng'}")) false) (only parsing).
Abbreviation example_accepted := (MailReply 0 (Ok (201, Ok (example_json "{'request_id': 'r1', 'data': [{'code': 'EM_104'}]}"))) false) (only parsing).
Abbreviation example_mail :=
  (run example_step (mkEmail None None [] example_db)
    [Remember example_live; example_prepare; Send true false; Refreshed 0 example_live (lit "op1") false;
     example_accepted; example_prepare; Send true false; Refreshed 1 example_live (lit "op2") false]) (only parsing).

(** It answers as expected: sent once, the second time only recognised. *)
Lemma example_mail_runs : ∃ s o,
  example_mail = Some (s, o) ∧ length (submitted o) = 1%nat
  ∧ (∃ hash payload, SubmitMail hash (lit "Bola@home.ng") payload ∈ o)
  ∧ map row_status (outbox (db s)) = [lit "accepted"]
  ∧ omap (λ e, match e with Answer st _ _ => Some st | _ => None end) o
    = [lit "needs_confirmation"; lit "success"; lit "needs_confirmation"; lit "success"].
Proof.
  assert ((λ r, (length (submitted r.2), map row_status (outbox (db r.1)),
     omap (λ e, match e with SubmitMail h r pl => Some (h, r, pl) | _ => None end) r.2 !! 0%nat ≫= (λ x, Some x.1.2),
     omap (λ e, match e with Answer st _ _ => Some st | _ => None end) r.2)) <$> example_mail
     = Some (1%nat, [lit "accepted"], Some (lit "Bola@home.ng"),
        [lit "needs_confirmation"; lit "success"; lit "needs_confirmation"; lit "success"])) as H
    by (vm_compute; reflexivity).
  destruct example_mail as [[s o]|]; [|discriminate H]. simpl in H. apply (inj Some) in H.
  injection H as Hn Hrow Hmail Hans. exists s, o. split_and!; try done.
  destruct (omap _ o !! 0%nat) as [[[h r] pl]|] eqn:E; [|discriminate Hmail]. simpl in Hmail.
  apply (inj Some) in Hmail. subst r. exists h, pl.
  apply list_elem_of_lookup_2, list_elem_of_omap in E as (e & He & Hm). destruct e; try done.
  by injection Hm as -> -> ->.
Qed.

Lemma mail_submitted_once_witness :
  ∃ s o, example_mail = Some (s, o) ∧ length (submitted o) = 1%nat ∧ NoDup (submitted o).
Proof.
  destruct example_mail_runs as (s & o & Hrun & Hn & _). exists s, o.
  exact (conj Hrun (conj Hn (proj1 (mail_submitted_once _ _ _ _ _ _ _ _ _ _ _ _ _ _ _ Hrun)))).
Defined.

Lemma mail_recipient_authorised_witness :
  ∃ s o p, example_mail = Some (s, o) ∧ prepared_recipient p = lit "Bola@home.ng".
Proof.
  destruct example_mail_runs as (s & o & Hrun & _ & (h & pl & Hin) & _).
  destruct (mail_recipient_authorised _ _ _ _ _ _ _ _ _ _ _ _ _ _ _ _ _ _ Hrun Hin) as (p & _ & Hr & _).
  exists s, o, p. exact (conj Hrun (eq_sym Hr)).
Defined.
