(* ===== verification/Bytes.v ===== *)
(** * Bytes: strict UTF-8, hexadecimal and base64

    The parts of the standard library that turn text into bytes and back, as the room-name
    tokens use them: [bytes.decode("utf-8")], [str.encode("utf-8")], [bytes.fromhex] and
    [base64.urlsafe_b64decode].  A byte is a [Z] between 0 and 255. *)
From stdpp Require Import base list strings.
From Stdlib Require Import ZArith Lia.
From S2P Require Import Prelude Pystr.

(** ** UTF-8 *)

(** The code points that have an encoding: all but the surrogates. *)
Definition scalar (c : Z) : bool :=
  (0 <=? c) && (c <=? 1114111) && negb ((55296 <=? c) && (c <=? 57343)).

Definition continuation (b : Z) : bool := (128 <=? b) && (b <? 192).

Definition utf8_char (c : Z) : list Z :=
  if c <? 128 then [c]
  else if c <? 2048 then [192 + c / 64; 128 + c mod 64]
  else if c <? 65536 then [224 + c / 4096; 128 + c / 64 mod 64; 128 + c mod 64]
  else [240 + c / 262144; 128 + c / 4096 mod 64; 128 + c / 64 mod 64; 128 + c mod 64].

Definition utf8_encode (s : str) : list Z := s ≫= utf8_char.

(** [bytes.decode("utf-8")]; [None] is a [UnicodeDecodeError]: no overlong form, no
    surrogate, no code point past the last. *)
Fixpoint utf8_strict (bs : list Z) : option str :=
  match bs with
  | [] => Some []
  | b :: bs =>
      if b <? 128 then (b ::.) <$> utf8_strict bs
      else if b <? 194 then None
      else if b <? 224 then
        match bs with
        | b1 :: bs =>
            if continuation b1 then ((b - 192) * 64 + (b1 - 128) ::.) <$> utf8_strict bs else None
        | _ => None
        end
      else if b <? 240 then
        match bs with
        | b1 :: b2 :: bs =>
            let c := (b - 224) * 4096 + (b1 - 128) * 64 + (b2 - 128) in
            if continuation b1 && continuation b2 && (2048 <=? c) && scalar c
            then (c ::.) <$> utf8_strict bs else None
        | _ => None
        end
      else
        match bs with
        | b1 :: b2 :: b3 :: bs =>
            let c := (b - 240) * 262144 + (b1 - 128) * 4096 + (b2 - 128) * 64 + (b3 - 128) in
            if continuation b1 && continuation b2 && continuation b3 && (65536 <=? c) && scalar c
            then (c ::.) <$> utf8_strict bs else None
        | _ => None
        end
  end.

(** ** Hexadecimal *)

(** [[0-9a-fA-F]] *)
Definition nibble (c : Z) : option Z :=
  if (48 <=? c) && (c <=? 57) then Some (c - 48)
  else if (97 <=? c) && (c <=? 102) then Some (c - 87)
  else if (65 <=? c) && (c <=? 70) then Some (c - 55) else None.

Definition is_hex (c : Z) : bool := match nibble c with Some _ => true | None => false end.

(** [bytes.fromhex(s)] of a string of hexadecimal digits; [None] is a [ValueError]. *)
Fixpoint from_hex (s : str) : option (list Z) :=
  match s with
  | [] => Some []
  | a :: b :: s =>
      match nibble a, nibble b, from_hex s with
      | Some x, Some y, Some bs => Some (16 * x + y :: bs)
      | _, _, _ => None
      end
  | _ => None
  end.

Definition nibble_char (n : Z) : Z := if n <? 10 then 48 + n else 87 + n.

(** [bs.hex()] *)
Definition to_hex (bs : list Z) : str := bs ≫= λ b, [nibble_char (b / 16); nibble_char (b mod 16)].

(** ** Base64 *)

(** A character of the URL-safe alphabet, or of the standard one. *)
Definition sextet (c : Z) : option Z :=
  if (65 <=? c) && (c <=? 90) then Some (c - 65)
  else if (97 <=? c) && (c <=? 122) then Some (c - 71)
  else if (48 <=? c) && (c <=? 57) then Some (c + 4)
  else if (c =? 45) || (c =? 43) then Some 62
  else if (c =? 95) || (c =? 47) then Some 63
  else None.

(** [binascii.a2b_base64]: characters outside the alphabet are skipped, a padding that
    completes a group ends the text, and the groups must be complete.  [quad] counts the
    characters of the open group, [left] holds its bits not yet written, [pads] the
    padding just read. *)
Fixpoint a2b_base64 (quad left pads : Z) (s : str) : option (list Z) :=
  match s with
  | [] => if quad =? 0 then Some [] else None
  | c :: s =>
      if c =? 61 then
        if (2 <=? quad) && (4 <=? quad + (pads + 1)) then Some []
        else a2b_base64 quad left (if 2 <=? quad then pads + 1 else pads) s
      else
        match sextet c with
        | None => a2b_base64 quad left pads s
        | Some v =>
            if quad =? 0 then a2b_base64 1 v 0 s
            else if quad =? 1 then (4 * left + v / 16 ::.) <$> a2b_base64 2 (v mod 16) 0 s
            else if quad =? 2 then (16 * left + v / 4 ::.) <$> a2b_base64 3 (v mod 4) 0 s
            else (64 * left + v ::.) <$> a2b_base64 0 0 0 s
        end
  end.

(** [base64.urlsafe_b64decode(s)]; [None] is a [ValueError] (also for a character that is
    not ASCII). *)
Definition urlsafe_b64decode (s : str) : option (list Z) :=
  if forallb (λ c, c <? 128) s then a2b_base64 0 0 0 s else None.

(** ** Round trips *)

Lemma scalar_range c : scalar c = true → 0 ≤ c ≤ 1114111 ∧ ¬ (55296 ≤ c ≤ 57343).
Proof. unfold scalar. rewrite !andb_true_iff, negb_true_iff, andb_false_iff. lia. Qed.

(** Settles the comparisons of a goal that [lia] can decide. *)
Ltac settle_comparisons :=
  repeat match goal with
    | |- context [?a <? ?b] =>
        first [rewrite (proj2 (Z.ltb_lt a b)) by lia | rewrite (proj2 (Z.ltb_ge a b)) by lia]
    | |- context [?a <=? ?b] =>
        first [rewrite (proj2 (Z.leb_le a b)) by lia | rewrite (proj2 (Z.leb_gt a b)) by lia]
    end.

Lemma base64_digits c : ∃ q r, c = 64 * q + r ∧ 0 ≤ r < 64 ∧ c / 64 = q ∧ c mod 64 = r.
Proof.
  exists (c / 64), (c mod 64). split; [by apply Z.div_mod|]. split; [by apply Z.mod_pos_bound|done].
Qed.

Lemma utf8_strict_char c bs :
  scalar c = true → utf8_strict (utf8_char c ++ bs) = (c ::.) <$> utf8_strict bs.
Proof.
  intros Hc. pose proof (scalar_range c Hc) as [Hr Hs].
  destruct (base64_digits c) as (q & r & Eq & Hr1 & Ed & Em).
  destruct (base64_digits q) as (q1 & r1 & Eq1 & Hr2 & Ed1 & Em1).
  destruct (base64_digits q1) as (q2 & r2 & Eq2 & Hr3 & Ed2 & Em2).
  unfold utf8_char.
  replace (c / 4096) with q1 by (change 4096 with (64 * 64); rewrite <-Z.div_div, Ed; [done|lia..]).
  replace (c / 262144) with q2
    by (change 262144 with (64 * (64 * 64)); rewrite <-Z.div_div, Ed, <-Z.div_div, Ed1; [done|lia..]).
  rewrite Ed, Em, Em1, Em2.
  destruct (decide (c < 128)); [|destruct (decide (c < 2048)); [|destruct (decide (c < 65536))]];
    settle_comparisons; cbn [app utf8_strict]; settle_comparisons; unfold continuation;
    settle_comparisons; cbn [andb]; [done|..].
  - do 2 f_equal. lia.
  - replace ((224 + q1 - 224) * 4096 + (128 + r1 - 128) * 64 + (128 + r - 128)) with c by lia.
    rewrite Hc. by settle_comparisons.
  - replace ((240 + q2 - 240) * 262144 + (128 + r2 - 128) * 4096 + (128 + r1 - 128) * 64 + (128 + r - 128))
      with c by lia.
    rewrite Hc. by settle_comparisons.
Qed.

Lemma utf8_strict_encode s : forallb scalar s = true → utf8_strict (utf8_encode s) = Some s.
Proof.
  induction s as [|c s IH]; [done|]. simpl. rewrite andb_true_iff. intros [Hc Hs].
  rewrite utf8_strict_char, IH by done. done.
Qed.

Lemma utf8_char_bytes c : scalar c = true → Forall (λ b, 0 ≤ b < 256) (utf8_char c).
Proof.
  intros Hc. pose proof (scalar_range c Hc) as [Hr _]. unfold utf8_char.
  repeat case_match; repeat (apply Forall_cons; split); try apply Forall_nil_2;
    rewrite ?Z.ltb_lt, ?Z.ltb_ge in *; Z.to_euclidean_division_equations; lia.
Qed.

Lemma utf8_encode_bytes s : forallb scalar s = true → Forall (λ b, 0 ≤ b < 256) (utf8_encode s).
Proof.
  induction s as [|c s IH]; [done|]. simpl. rewrite andb_true_iff. intros [Hc Hs].
  apply Forall_app. split; [by apply utf8_char_bytes|by apply IH].
Qed.

Lemma nibble_spec n : 0 ≤ n < 16 → nibble (nibble_char n) = Some n.
Proof.
  intros Hn. unfold nibble_char, nibble. destruct (decide (n < 10)); settle_comparisons; cbn [andb]; f_equal; lia.
Qed.

Lemma to_hex_cons b bs : to_hex (b :: bs) = nibble_char (b / 16) :: nibble_char (b mod 16) :: to_hex bs.
Proof. done. Qed.

Lemma from_to_hex bs : Forall (λ b, 0 ≤ b < 256) bs → from_hex (to_hex bs) = Some bs.
Proof.
  induction 1 as [|b bs Hb _ IH]; [done|]. rewrite to_hex_cons. cbn [from_hex].
  rewrite !nibble_spec, IH by (Z.to_euclidean_division_equations; lia). do 2 f_equal.
  symmetry. by apply Z.div_mod.
Qed.

Lemma to_hex_digits bs :
  Forall (λ b, 0 ≤ b < 256) bs → Forall (λ c, 48 ≤ c ≤ 57 ∨ 97 ≤ c ≤ 102) (to_hex bs).
Proof.
  induction 1 as [|b bs Hb _ IH]; [constructor|]. rewrite to_hex_cons.
  assert (∀ n, 0 ≤ n < 16 → 48 ≤ nibble_char n ≤ 57 ∨ 97 ≤ nibble_char n ≤ 102) as Hd
    by (intros n Hn; unfold nibble_char; destruct (Z.ltb_spec n 10); lia).
  repeat (apply Forall_cons; split); [apply Hd..|done]; Z.to_euclidean_division_equations; lia.
Qed.
