(* ===== verification/RoomNames.v ===== *)
(** * Room names: main.py (lines 1600-1760) and latency_lab/agentic.py (lines 65-123)

    A web call carries its identity in the name of its room:
    [voice_assistant_room_eid<token>_bid<token>_aid<token>_nid<token>_uid<token>_<digits>],
    every segment but the first optional.  The telephony worker (main.py) and the latency
    lab (agentic.py) read it with code of their own; [room_name] is the writer the format
    comment describes, with the preferred hexadecimal tokens. *)
From stdpp Require Import base list strings.
From Stdlib Require Import ZArith Lia.
From S2P Require Import Prelude Pystr Bytes Json JsonText Phones CallIdentity.

(** ** Tokens *)

(** The stripped text of decoded bytes; both failures give the empty text. *)
Definition token_text (bytes : option (list Z)) : str :=
  match bytes ≫= utf8_strict with Some t => py_strip t | None => [] end.

Definition padded (raw : str) : str :=
  raw ++ repeat 61 (Z.to_nat ((4 - slen raw mod 4) mod 4)).

(** [re.fullmatch(r"[0-9a-fA-F]+", s)] *)
Definition all_hex (s : str) : bool := negb (s =s []) && forallb is_hex s.

(** main.py *)
Definition _decode_room_token (token : str) : str :=
  match py_strip token with
  | [] => []
  | 104 :: hex_payload => if all_hex hex_payload then token_text (from_hex hex_payload) else []
  | raw => token_text (urlsafe_b64decode (padded raw))
  end.

(** agentic.py *)
Definition lab_decode_room_token (token : str) : str :=
  let raw := py_strip token in
  if raw =s [] then []
  else if starts_with (lit "h") raw && all_hex (drop 1 raw) then token_text (from_hex (drop 1 raw))
  else token_text (urlsafe_b64decode (padded raw)).

(** ** The room's name *)

Definition ROOM_PREFIX : str := lit "voice_assistant_room_".

(** [(.+?)] followed by [k]: the shortest group first. *)
Fixpoint lazy_group {A} (k : str → option A) (s : str) : option (str * A) :=
  match s with
  | [] => None
  | c :: r =>
      if c =? 10 then None
      else match k r with
           | Some a => Some ([c], a)
           | None => (λ g, (c :: g.1, g.2)) <$> lazy_group k r
           end
  end.

(** [(?:<tag>(.+?))?] followed by [k]: with the group if that can be, else without. *)
Definition optional {A} (tag : str) (k : str → option A) (s : str) : option (str * A) :=
  match (if starts_with tag s then lazy_group k (drop (length tag) s) else None) with
  | Some g => Some g
  | None => (λ a, ([], a)) <$> k s
  end.

(** [_(\d+)$] *)
Definition room_end (s : str) : option unit :=
  match s with
  | 95 :: ds => if negb (ds =s []) && forallb is_decimal ds then Some tt else None
  | _ => None
  end.

Record room_tokens := mkTokens { eid : str; bid : str; aid : str; nid : str; uid : str }.

(** The regular expression of both readers, on the stripped name without its prefix. *)
Definition match_room (body : str) : option room_tokens :=
  if starts_with (lit "eid") body then
    (λ g, let '(e, (b, (a, (n, (u, _))))) := g in mkTokens e b a n u)
    <$> lazy_group (optional (lit "_bid") (optional (lit "_aid") (optional (lit "_nid")
          (optional (lit "_uid") room_end)))) (drop 3 body)
  else None.

Definition room_match (room_name : str) : option room_tokens :=
  let raw := py_strip room_name in
  if starts_with ROOM_PREFIX raw then match_room (drop (length ROOM_PREFIX) raw) else None.

(** ** main.py *)

Definition _normalize_end_user_id (value : str) : str :=
  let raw := py_strip value in
  if has_char 64 raw then py_lower raw
  else
    let digits := List.filter is_digit raw in
    if digits =s [] then [] else lit "+" ++ digits.

Definition _web_room_context_from_name (room_name : str) : str * str * str * str * str :=
  match room_match room_name with
  | None => ([], [], [], [], [])
  | Some t =>
      (_normalize_end_user_id (_decode_room_token (eid t)), py_strip (_decode_room_token (bid t)),
       py_strip (_decode_room_token (aid t)), py_strip (_decode_room_token (nid t)),
       py_strip (_decode_room_token (uid t)))
  end.

(** [$] also matches before a last line feed. *)
Definition cut_newline (s : str) : str :=
  match List.rev s with 10 :: r => List.rev r | _ => s end.

Fixpoint take_while (p : Z → bool) (s : str) : str :=
  match s with
  | c :: s => if p c then c :: take_while p s else []
  | [] => []
  end.

(** [^voice_assistant_room_u(\d{8,15})_\d+$] *)
Definition phone_group (room_name : str) : option str :=
  let tag := ROOM_PREFIX ++ lit "u" in
  if starts_with tag room_name then
    let body := cut_newline (drop (length tag) room_name) in
    let digits := take_while is_decimal body in
    if (8 <=? slen digits) && (slen digits <=? 15) then
      match room_end (drop (length digits) body) with Some _ => Some digits | None => None end
    else None
  else None.

Definition _phone_from_room_name (room_name : str) : str :=
  match phone_group room_name with
  | None => []
  | Some group =>
      let digits := List.filter is_digit group in
      if digits =s [] then [] else lit "+" ++ digits
  end.

(** [[A-Za-z0-9_-]] *)
Definition token_char (c : Z) : bool :=
  (65 <=? c) && (c <=? 90) || (97 <=? c) && (c <=? 122) || (48 <=? c) && (c <=? 57) || (c =? 95) || (c =? 45).

(** [^voice_assistant_room_eid([A-Za-z0-9_-]+)_\d+$]: greedy, so the last underscore ends
    the group. *)
Definition email_group (room_name : str) : option str :=
  let tag := ROOM_PREFIX ++ lit "eid" in
  if starts_with tag room_name then
    let body := cut_newline (drop (length tag) room_name) in
    let digits := List.rev (take_while is_decimal (List.rev body)) in
    let front := take (length body - length digits) body in
    match room_end (drop (length front - 1) body) with
    | Some _ =>
        let token := take (length front - 1) front in
        if negb (token =s []) && forallb token_char token then Some token else None
    | None => None
    end
  else None.

Definition _email_from_room_name (room_name : str) : str :=
  match email_group room_name with
  | None => []
  | Some group => if py_strip group =s [] then [] else _normalize_end_user_id (_decode_room_token (py_strip group))
  end.

Definition _decode_identity_email (identity : str) : str :=
  let prefix := lit "voice_assistant_user_email_" in
  if starts_with prefix identity then
    match urlsafe_b64decode (padded (drop (length prefix) identity)) ≫= utf8_strict with
    | Some decoded => _normalize_end_user_id decoded
    | None => []
    end
  else [].

Definition _normalize_business_id (value : str) : str :=
  let raw := py_strip value in
  if raw =s [] then [] else default [] (parse_uuid raw).

(** ** agentic.py *)

Record RoomAgentContext := mkRoomContext {
  room_business_id : str;
  room_agent_id : str;
  configured_name : str;
  room_end_user_id : str;
}.

Definition room_agent_context (room_name : str) : RoomAgentContext :=
  match room_match room_name with
  | None => mkRoomContext [] [] [] []
  | Some t => mkRoomContext (lab_decode_room_token (bid t)) (lab_decode_room_token (aid t))
                (lab_decode_room_token (nid t)) (lab_decode_room_token (eid t))
  end.

Definition session_routing_context (data : json) : RoomAgentContext :=
  let payload := dict_or_empty data in
  mkRoomContext (str_strip payload.[lit "business_id"])
    (str_strip (jor payload.[lit "config_agent_id"] payload.[lit "agent_id"]))
    (str_strip (jor payload.[lit "agent_name"] payload.[lit "configured_agent_name"]))
    (str_strip (jor payload.[lit "end_user_email"] payload.[lit "end_user_id"])).

(** ** The two decoders agree *)

(** A first character [h] makes the first byte one that no UTF-8 text begins with. *)
Lemma a2b_first_byte s pads bs :
  a2b_base64 1 33 pads s = Some bs → ∃ b bs', bs = b :: bs' ∧ 132 ≤ b ≤ 135.
Proof.
  revert pads. induction s as [|c s IH]; intros pads; [done|]. cbn [a2b_base64].
  destruct (c =? 61); [apply IH|]. destruct (sextet c) as [v|] eqn:Hv; [|apply IH].
  cbn. destruct (a2b_base64 2 _ 0 s) as [bs'|]; [|done]. intros [= <-]. eexists _, _. split; [done|].
  assert (0 ≤ v < 64) by (unfold sextet in Hv; repeat case_match; simplify_eq; lia).
  Z.to_euclidean_division_equations; lia.
Qed.

Lemma base64_h_invalid rest : token_text (urlsafe_b64decode (104 :: rest)) = [].
Proof.
  unfold urlsafe_b64decode. destruct (forallb _ _); [|done].
  change (a2b_base64 0 0 0 (104 :: rest)) with (a2b_base64 1 33 0 rest).
  destruct (a2b_base64 1 33 0 rest) as [bs|] eqn:E; [|done].
  apply a2b_first_byte in E as (b & bs' & -> & Hb). unfold token_text.
  cbn [mbind option_bind utf8_strict]. by settle_comparisons.
Qed.

(** The telephony worker and the lab read every token alike, although the worker takes
    each token that starts with an [h] for hexadecimal and the lab tries base64 for those
    that are not. *)
Theorem decoders_agree token : lab_decode_room_token token = _decode_room_token token.
Proof.
  unfold lab_decode_room_token, _decode_room_token. destruct (py_strip token) as [|c raw]; [done|].
  rewrite (proj2 (str_eqb_false (c :: raw) [])) by done.
  destruct (decide (c = 104)) as [->|Hc].
  - change (starts_with (lit "h") (104 :: raw)) with true. cbn [andb].
    change (drop 1 (104 :: raw)) with raw.
    destruct (all_hex raw); [done|]. apply base64_h_invalid.
  - assert (starts_with (lit "h") (c :: raw) = false) as ->.
    { change (lit "h") with [104]. cbn [starts_with]. by rewrite (proj2 (Z.eqb_neq 104 c)). }
    cbn [andb]. repeat case_match; done.
Qed.

(** ** Writing a name and reading it

    The names are written elsewhere; [room_name] is a writer of hexadecimal tokens, one of the
    forms that the readers accept, against which they are checked here. *)

Definition hex_token (s : str) : str := 104 :: to_hex (utf8_encode s).

Definition segment (tag s : str) : str := if s =s [] then [] else tag ++ hex_token s.

Definition room_name (email business agent name user rand : str) : str :=
  ROOM_PREFIX ++ lit "eid" ++ hex_token email ++ segment (lit "_bid") business
  ++ segment (lit "_aid") agent ++ segment (lit "_nid") name ++ segment (lit "_uid") user
  ++ 95 :: rand.

(** Text that UTF-8 can encode, without white space around it. *)
Definition plain_text (s : str) : Prop := forallb scalar s = true ∧ py_strip s = s.

Lemma hex_token_chars s : plain_text s → Forall (λ c, 48 ≤ c ≤ 57 ∨ 97 ≤ c ≤ 104) (hex_token s).
Proof.
  intros [Hs _]. apply Forall_cons. split; [lia|].
  eapply Forall_impl; [apply to_hex_digits, utf8_encode_bytes, Hs|]. simpl. lia.
Qed.

Lemma forallb_not_space s :
  forallb (λ c, negb (is_space c)) s = true → ∀ c, c ∈ s → is_space c = false.
Proof.
  intros H c Hc. apply negb_true_iff. by apply (proj1 (List.forallb_forall _ _) H), list_elem_of_In.
Qed.

Lemma is_space_ascii c : 33 ≤ c ≤ 126 → is_space c = false.
Proof.
  intros Hc. apply not_true_is_false. rewrite is_space_elem. unfold whitespace.
  rewrite !elem_of_cons, elem_of_nil. lia.
Qed.

Lemma hex_token_decodes s :
  plain_text s → s ≠ [] →
  _decode_room_token (hex_token s) = s ∧ lab_decode_room_token (hex_token s) = s.
Proof.
  intros Hp Hne. pose proof Hp as [Hs Hstrip]. unfold _decode_room_token, lab_decode_room_token.
  assert (py_strip (hex_token s) = hex_token s) as ->.
  { apply strip_by_free. eapply Forall_impl; [by apply hex_token_chars|].
    intros c Hc. apply is_space_ascii. simpl in Hc. lia. }
  unfold hex_token. rewrite (proj2 (str_eqb_false (_ :: _) [])) by done.
  change (starts_with (lit "h") (104 :: ?x)) with true. change (drop 1 (104 :: ?x)) with x. cbn [andb].
  assert (all_hex (to_hex (utf8_encode s)) = true) as ->.
  { unfold all_hex. rewrite andb_true_iff. split.
    - destruct s as [|c s]; [done|]. unfold utf8_encode. cbn [mbind list_bind]. unfold utf8_char.
      by repeat case_match.
    - apply List.forallb_forall. intros c Hc%list_elem_of_In.
      pose proof (to_hex_digits _ (utf8_encode_bytes s Hs)) as Hd.
      rewrite Forall_forall in Hd. specialize (Hd c Hc). unfold is_hex, nibble.
      destruct Hd as [Hd|Hd]; settle_comparisons; done. }
  unfold token_text. rewrite from_to_hex by (by apply utf8_encode_bytes). cbn [mbind option_bind].
  by rewrite utf8_strict_encode, Hstrip.
Qed.

(** The shortest group that ends at an underscore is a whole token. *)
Lemma lazy_group_token {A} (k : str → option A) tok rest a :
  tok ≠ [] → Forall (λ c, 48 ≤ c ≤ 57 ∨ 97 ≤ c ≤ 104) tok →
  (∀ c r, c ≠ 95 → k (c :: r) = None) → k rest = Some a →
  lazy_group k (tok ++ rest) = Some (tok, a).
Proof.
  intros Hne Hall Hk Hr. induction Hall as [|c tok Hc Htok IH]; [done|]. cbn [app lazy_group].
  rewrite (proj2 (Z.eqb_neq c 10)) by lia. destruct tok as [|d tok].
  - cbn [app]. by rewrite Hr.
  - apply Forall_cons_1 in Htok as [Hd _]. cbn [app] in *. rewrite Hk by lia. by rewrite IH.
Qed.

(** What may follow a token: only an underscore and another character than [x]. *)
Definition opens_otherwise (x : Z) (rest : str) : Prop := ∃ y r, rest = 95 :: y :: r ∧ y ≠ x.

Lemma optional_segment {A} x t (k : str → option A) s rest a :
  let tag := 95 :: x :: t in
  plain_text s → (∀ c r, c ≠ 95 → k (c :: r) = None) → opens_otherwise x rest → k rest = Some a →
  optional tag k (segment tag s ++ rest) = Some (if s =s [] then [] else hex_token s, a).
Proof.
  intros tag Hp Hk (y & r & -> & Hy) Hr. unfold optional, segment. destruct (s =s []) eqn:E.
  - cbn [app]. cbn [tag starts_with]. rewrite Z.eqb_refl, (proj2 (Z.eqb_neq x y)) by done. cbn.
    by rewrite Hr.
  - rewrite <-app_assoc, starts_with_app, drop_app_length.
    by rewrite (lazy_group_token _ (hex_token s) _ a) by (done || by apply hex_token_chars).
Qed.

Lemma optional_fails {A} t (k : str → option A) :
  (∀ c r, c ≠ 95 → k (c :: r) = None) → ∀ c r, c ≠ 95 → optional (95 :: t) k (c :: r) = None.
Proof.
  intros Hk c r Hc. unfold optional. cbn [starts_with]. rewrite (proj2 (Z.eqb_neq 95 c)) by done.
  by rewrite Hk.
Qed.

Lemma room_end_fails c r : c ≠ 95 → room_end (c :: r) = None.
Proof. intros Hc. unfold room_end. repeat case_match; done. Qed.

Lemma segment_opens x y t s rest :
  x ≠ y → opens_otherwise x rest → opens_otherwise x (segment (95 :: y :: t) s ++ rest).
Proof.
  intros Hxy H. unfold segment. destruct (s =s []); [done|]. rewrite <-app_assoc. by eexists y, _.
Qed.

Lemma rand_opens x rand :
  rand ≠ [] → forallb is_decimal rand = true → is_decimal x = false → opens_otherwise x (95 :: rand).
Proof.
  intros Hne Hd Hx. destruct rand as [|y r]; [done|]. exists y, r. split; [done|]. intros ->.
  apply andb_true_iff in Hd as [Hd _]. congruence.
Qed.

Definition written (s : str) : str := if s =s [] then [] else hex_token s.

Lemma written_decodes s :
  plain_text s → _decode_room_token (written s) = s ∧ lab_decode_room_token (written s) = s.
Proof.
  intros Hs. unfold written. destruct (s =s []) eqn:E; [by apply str_eqb_true in E as ->|].
  apply hex_token_decodes; [done|]. by apply str_eqb_false.
Qed.

Lemma segment_not_space tag s :
  Forall (λ c, is_space c = false) tag → plain_text s → Forall (λ c, is_space c = false) (segment tag s).
Proof.
  intros Ht Hs. unfold segment. destruct (s =s []); [constructor|]. apply Forall_app. split; [done|].
  eapply Forall_impl; [by apply hex_token_chars|]. intros c Hc. simpl in Hc. apply is_space_ascii. lia.
Qed.

Section written_room.
Context (email business agent name user rand : str)
  (Hemail : plain_text email) (Hne : email ≠ []) (Hbusiness : plain_text business)
  (Hagent : plain_text agent) (Hname : plain_text name) (Huser : plain_text user)
  (Hrand : rand ≠ []) (Hdigits : forallb is_decimal rand = true).
Abbreviation room := (room_name email business agent name user rand) (only parsing).

Lemma room_not_space : py_strip room = room.
Proof using All.
  apply strip_by_free. unfold room_name. repeat (apply Forall_app; split).
  1, 2: by apply Forall_forall, forallb_not_space.
  - eapply Forall_impl; [by apply hex_token_chars|]. intros c Hc. simpl in Hc. apply is_space_ascii. lia.
  - apply segment_not_space; [|done]. by apply Forall_forall, forallb_not_space.
  - apply segment_not_space; [|done]. by apply Forall_forall, forallb_not_space.
  - apply segment_not_space; [|done]. by apply Forall_forall, forallb_not_space.
  - apply segment_not_space; [|done]. by apply Forall_forall, forallb_not_space.
  - apply Forall_cons. split; [done|]. apply Forall_forall. intros c Hc. apply is_decimal_not_space.
    by apply (proj1 (List.forallb_forall _ _) Hdigits), list_elem_of_In.
Qed.

Lemma room_match_written :
  room_match room
  = Some (mkTokens (hex_token email) (written business) (written agent) (written name) (written user)).
Proof using All.
  unfold room_match. rewrite room_not_space. unfold room_name at 1 2.
  rewrite starts_with_app, drop_app_length. unfold match_room. rewrite starts_with_app.
  change 3%nat with (length (lit "eid")). rewrite drop_app_length.
  assert (∀ x, is_decimal x = false → opens_otherwise x (95 :: rand)) as Ho by (intros; by apply rand_opens).
  assert (room_end (95 :: rand) = Some tt) as H5.
  { unfold room_end. rewrite (proj2 (str_eqb_false rand [])) by done. by rewrite Hdigits. }
  assert (∀ c r, c ≠ 95 → optional [95; 117; 105; 100] room_end (c :: r) = None) as F4
    by (apply (optional_fails [117; 105; 100]); intros; by apply room_end_fails).
  pose proof (optional_fails [110; 105; 100] _ F4) as F3.
  pose proof (optional_fails [97; 105; 100] _ F3) as F2.
  pose proof (optional_fails [98; 105; 100] _ F2) as F1.
  pose proof (optional_segment 117 [105; 100] _ user _ _ Huser room_end_fails (Ho 117 eq_refl) H5) as H4.
  pose proof (optional_segment 110 [105; 100] _ name _ _ Hname F4
    (segment_opens 110 117 [105; 100] user _ ltac:(lia) (Ho 110 eq_refl)) H4) as H3.
  pose proof (optional_segment 97 [105; 100] _ agent _ _ Hagent F3
    (segment_opens 97 110 [105; 100] name _ ltac:(lia)
      (segment_opens 97 117 [105; 100] user _ ltac:(lia) (Ho 97 eq_refl))) H3) as H2.
  pose proof (optional_segment 98 [105; 100] _ business _ _ Hbusiness F2
    (segment_opens 98 97 [105; 100] agent _ ltac:(lia) (segment_opens 98 110 [105; 100] name _ ltac:(lia)
      (segment_opens 98 117 [105; 100] user _ ltac:(lia) (Ho 98 eq_refl)))) H2) as H1.
  change (lit "_bid") with [95; 98; 105; 100]. change (lit "_aid") with [95; 97; 105; 100].
  change (lit "_nid") with [95; 110; 105; 100]. change (lit "_uid") with [95; 117; 105; 100].
  rewrite (lazy_group_token _ (hex_token email) _ _ ltac:(done) (hex_token_chars email Hemail) F1 H1).
  done.
Qed.

Lemma worker_reads_written :
  _web_room_context_from_name room = (_normalize_end_user_id email, business, agent, name, user).
Proof using All.
  unfold _web_room_context_from_name. rewrite room_match_written. cbn [eid bid aid nid uid].
  rewrite (proj1 (hex_token_decodes email Hemail Hne)), (proj1 (written_decodes business Hbusiness)),
    (proj1 (written_decodes agent Hagent)), (proj1 (written_decodes name Hname)),
    (proj1 (written_decodes user Huser)).
  by rewrite (proj2 Hbusiness), (proj2 Hagent), (proj2 Hname), (proj2 Huser).
Qed.

(** Both readers take from a name with hexadecimal tokens what it was given: for values that are
    trimmed encodable text, any of the optional ones left out, the business, the agent and its
    name, in the worker the user's name, and the e-mail, which the worker makes regular. *)
Theorem room_name_roundtrip :
  _web_room_context_from_name room = (_normalize_end_user_id email, business, agent, name, user)
  ∧ room_agent_context room = mkRoomContext business agent name email.
Proof using All.
  split; [apply worker_reads_written|]. unfold room_agent_context. rewrite room_match_written.
  cbn [eid bid aid nid].
  by rewrite (proj2 (hex_token_decodes email Hemail Hne)), (proj2 (written_decodes business Hbusiness)),
    (proj2 (written_decodes agent Hagent)), (proj2 (written_decodes name Hname)).
Qed.
End written_room.

(** Tokens with underscores are not safe from the segment tags: the base64 token of this
    address holds one, and the name is read as another user of some business. *)
Lemma base64_collision :
  let token := lit "YWI_bid0QHguY28" in
  let room := ROOM_PREFIX ++ lit "eid" ++ token ++ lit "_7" in
  _decode_room_token token = lit "ab?n't@x.co"
  ∧ (room_match room = Some (mkTokens (lit "YWI") (lit "0QHguY28") [] [] []))
  ∧ room_end_user_id (room_agent_context room) = lit "ab"
  ∧ _email_from_room_name room = lit "ab?n't@x.co".
Proof. vm_compute. done. Qed.

Example phone_room : _phone_from_room_name (lit "voice_assistant_room_u2348030000001_42") = lit "+2348030000001".
Proof. vm_compute. done. Qed.

(** ** Witness *)

Lemma room_name_roundtrip_witness :
  forallb scalar (lit "ada@clinic.ng") = true
  ∧ _web_room_context_from_name (room_name (lit "ada@clinic.ng") (lit "b1") [] (lit "Zoë Ltd") [] (lit "42"))
    = (lit "ada@clinic.ng", lit "b1", [], lit "Zoë Ltd", []).
Proof.
  split; [vm_compute; reflexivity|].
  rewrite (proj1 (room_name_roundtrip (lit "ada@clinic.ng") (lit "b1") [] (lit "Zoë Ltd") [] (lit "42")
    ltac:(split; vm_compute; reflexivity) ltac:(vm_compute; discriminate) ltac:(split; vm_compute; reflexivity)
    ltac:(split; vm_compute; reflexivity) ltac:(split; vm_compute; reflexivity) ltac:(split; vm_compute; reflexivity)
    ltac:(vm_compute; discriminate) ltac:(vm_compute; reflexivity))).
  vm_compute. reflexivity.
Defined.
