(* ===== verification/Participants.v ===== *)
(** * Who is in the room: main.py, lines 1686-2090

    What the telephony worker reads from the job and the room's participants when a call
    starts: the metadata of the job, the speech overrides, the session's extras, the
    reference of an outbound call, and the identity of the caller with the business and the
    agent it is meant for.  Metadata is text that the participant's token carried; the
    environment's fallback business, the check of a URL's authority and the SIP headers
    that LiveKit returns are parameters. *)
From stdpp Require Import base list strings.
From Stdlib Require Import ZArith Lia.
From S2P Require Import Prelude Pystr Bytes Json JsonText Url CallIdentity RoomNames.

Record participant := mkParticipant {
  p_metadata : str;
  p_identity : str;
  p_attributes : option dict;
  p_sip : bool;
}.

(** What a job context shows: its own room name, the room's, the job's metadata in the
    order they are tried, and the participants (none also when there is no room yet). *)
Record job_context := mkJob {
  job_room_name : str;
  ctx_room_name : str;
  job_metadata : list str;
  participants : list participant;
}.

Definition _room_name_from_ctx (ctx : job_context) : str :=
  let job_name := py_strip (job_room_name ctx) in
  if job_name =s [] then py_strip (ctx_room_name ctx) else job_name.

Fixpoint first_object (candidates : list str) : dict :=
  match candidates with
  | [] => []
  | raw :: l =>
      let metadata_raw := py_strip raw in
      if metadata_raw =s [] then first_object l
      else match loads metadata_raw with Ok (JObj d) => d | _ => first_object l end
  end.

Definition _job_metadata_from_ctx (ctx : job_context) : dict := first_object (job_metadata ctx).

Definition _stable_id (sha256_hex : str → str) (value prefix : str) (max_len : Z) : str :=
  let raw := py_strip value in
  if raw =s [] then [] else if slen raw <=? max_len then raw else prefix ++ lit "_" ++ sha256_hex raw.

(** ** Overrides *)

Definition _normalize_tts_mode (value : json) : str :=
  let mode := py_lower (str_strip value) in
  if in_strs mode [lit "default_voice"; lit "cloned_voice"; lit "auto"] then mode else lit "auto".

Definition _RUNTIME_OVERRIDE_KEYS : list str := map lit
  ["stt_provider"; "stt_model"; "stt_base_url"; "stt_transport"; "tts_provider"; "tts_model";
   "tts_base_url"; "tts_api_key"; "tts_transport"; "tts_mode"; "tts_voice_id"; "tts_owner_id";
   "tts_language_hint"; "tts_seed"; "tts_initial_codec_chunk_frames"; "tts_stream_first_chunk_bytes";
   "tts_stream_chunk_bytes"; "tts_http_chunk_bytes"; "tts_initial_buffer_ms"; "llm_provider";
   "llm_model"; "llm_base_url"; "llm_api_key"; "llm_disable_thinking"]%string.

Definition _normalize_runtime_overrides (raw : json) : dict :=
  match raw with
  | JObj d =>
      omap (λ key, let value := str_strip d.[key] in
                   if value =s [] then None else Some (key, JStr value)) _RUNTIME_OVERRIDE_KEYS
  | _ => []
  end.

(** The object in a metadata text, if it is JSON; [payload.get] of anything else raises. *)
Definition metadata_object (metadata_raw : str) : exn (option dict) :=
  match loads metadata_raw with
  | Raise _ => Ok None
  | Ok (JObj d) => Ok (Some d)
  | Ok _ => Raise AttributeError
  end.

(** The loops over the participants: the first metadata object that [f] takes. *)
Fixpoint first_metadata {A} (f : dict → option A) (l : list participant) : exn (option A) :=
  match l with
  | [] => Ok None
  | p :: l =>
      let metadata_raw := py_strip (p_metadata p) in
      if metadata_raw =s [] then first_metadata f l
      else
        do! payload := metadata_object metadata_raw in
        match payload ≫= f with
        | Some a => Ok (Some a)
        | None => first_metadata f l
        end
  end.

Section participants.
Context (netloc_ok : str → bool).

Definition _normalize_tts_endpoint (value : json) : str :=
  let endpoint := str_strip value in
  if endpoint =s [] then []
  else match urlsplit netloc_ok endpoint with
       | Raise _ => []
       | Ok u => if in_strs (url_scheme u) [lit "http"; lit "https"] && negb (url_netloc u =s [])
                 then py_rstrip_char 47 endpoint else []
       end.

Definition tts_overrides (payload : dict) : dict :=
  let runtime_overrides := _normalize_runtime_overrides payload.[lit "runtime_overrides"] in
  [(lit "tts_endpoint", JStr (_normalize_tts_endpoint payload.[lit "tts_endpoint"]));
   (lit "tts_mode", JStr (_normalize_tts_mode payload.[lit "tts_mode"]));
   (lit "tts_owner_id", JStr (str_strip payload.[lit "tts_owner_id"]));
   (lit "tts_voice_id", JStr (str_strip payload.[lit "tts_voice_id"]));
   (lit "tts_language_hint", JStr (str_strip payload.[lit "tts_language_hint"]));
   (lit "tts_seed", JStr (str_strip payload.[lit "tts_seed"]))]
  ++ match runtime_overrides with [] => [] | _ => [(lit "runtime_overrides", JObj runtime_overrides)] end.

Definition _extract_tts_overrides_from_ctx (ctx : job_context) : exn dict :=
  exn_map (default []) (first_metadata (λ payload, Some (tts_overrides payload)) (participants ctx)).
End participants.

Definition session_extras (payload : dict) : option dict :=
  let guest_context := str_strip payload.[lit "guest_context"] in
  let session_kind := py_lower (str_strip payload.[lit "session_kind"]) in
  match (if guest_context =s [] then [] else [(lit "guest_context", JStr (take 4000 guest_context))])
        ++ (if session_kind =s [] then [] else [(lit "session_kind", JStr session_kind)]) with
  | [] => None
  | extras => Some extras
  end.

Definition _extract_session_extras_from_ctx (ctx : job_context) : exn dict :=
  exn_map (default []) (first_metadata session_extras (participants ctx)).

(** ** The reference of an outbound call *)

Definition target_keys : list str := map lit
  ["x-odion-call-ref"; "sip.h.x-odion-call-ref"; "sip-h-x-odion-call-ref"; "outbound-call-ref";
   "aicc-call-ref"]%string.

Definition ref_keys : list str := [lit "outbound_call_ref"; lit "aicc_call_ref"; lit "call_ref"].

Definition non_empty (s : str) : option str := if s =s [] then None else Some s.

Definition ref_in (payload : dict) : option str :=
  first_some (λ key, non_empty (str_strip payload.[key])) ref_keys.

Definition ref_attribute (kv : str * json) : option str :=
  let normalized_key := replace_char 95 (lit "-") (py_lower (py_strip kv.1)) in
  if in_strs normalized_key target_keys || ends_with (lit ".x-odion-call-ref") normalized_key
  then non_empty (str_strip kv.2) else None.

Definition participant_ref (p : participant) : exn (option str) :=
  match first_some ref_attribute (default [] (p_attributes p)) with
  | Some candidate => Ok (Some candidate)
  | None =>
      let metadata_raw := py_strip (p_metadata p) in
      if metadata_raw =s [] then Ok None
      else do! metadata := metadata_object metadata_raw in Ok (metadata ≫= ref_in)
  end.

Fixpoint first_ref (l : list participant) : exn str :=
  match l with
  | [] => Ok []
  | p :: l =>
      do! candidate := participant_ref p in
      match candidate with Some c => Ok c | None => first_ref l end
  end.

Definition _outbound_call_ref_from_job_and_attributes (ctx : job_context) : exn str :=
  match ref_in (_job_metadata_from_ctx ctx) with
  | Some value => Ok value
  | None => first_ref (participants ctx)
  end.

(** What [lk.sip.GetRemoteHeaders] returned; anything unusable gives no reference. *)
Definition header_ref (result : exn json) : exn (option str) :=
  exn_default None
    (do! r := result in
     do! parsed := (match r with JStr s => loads s | _ => Ok r end) in
     match parsed with
     | JObj d =>
         Ok (first_some (λ kv : str * json,
           if py_lower (py_strip kv.1) =s lit "x-odion-call-ref" then non_empty (str_strip kv.2) else None)
           (dict_or_empty d.[lit "headers"]))
     | _ => Ok None
     end).

Fixpoint first_header (perform_rpc : str → exn json) (l : list participant) : exn str :=
  match l with
  | [] => Ok []
  | p :: l =>
      let identity := py_strip (p_identity p) in
      if negb (p_sip p) || (identity =s []) then first_header perform_rpc l
      else
        do! call_ref := header_ref (perform_rpc identity) in
        match call_ref with Some c => Ok c | None => first_header perform_rpc l end
  end.

Definition _extract_outbound_call_ref_from_ctx (rpc : option (str → exn json)) (ctx : job_context) : exn str :=
  do! call_ref := _outbound_call_ref_from_job_and_attributes ctx in
  if negb (call_ref =s []) then Ok call_ref
  else match rpc with
       | None => Ok []
       | Some perform_rpc => first_header perform_rpc (participants ctx)
       end.

(** ** The caller's identity *)

Record caller_identity := mkIdentity {
  end_user : str;
  web_channel : bool;
  business : str;
  config_agent : str;
  agent_name : str;
  user_name : str;
  tts_endpoint : str;
  overrides : dict;
}.

Definition nobody (fallback : str) : caller_identity := mkIdentity [] false fallback [] [] [] [] [].

(** What a participant's metadata says beside the identity: agent, its name, the user's,
    the endpoint and the overrides. *)
Definition with_metadata (payload : dict) (who : str) (web : bool) (business_id : str) : caller_identity :=
  mkIdentity who web business_id (str_strip payload.[lit "config_agent_id"])
    (str_strip payload.[lit "configured_agent_name"]) (str_strip payload.[lit "end_user_name"])
    (str_strip payload.[lit "tts_endpoint"]) (_normalize_runtime_overrides payload.[lit "runtime_overrides"]).

Definition or_fallback (business_id fallback : str) : str :=
  let b := _normalize_business_id business_id in if b =s [] then fallback else b.

(** The identity that the metadata itself states. *)
Definition metadata_identity (fallback : str) (payload : dict) : option caller_identity :=
  let business_id := or_fallback (str_strip payload.[lit "business_id"]) fallback in
  let email := _normalize_end_user_id (str_strip payload.[lit "end_user_email"]) in
  if negb (email =s []) then Some (with_metadata payload email true business_id)
  else
    let normalized := _normalize_end_user_id (str_or_empty (jor payload.[lit "end_user_phone"] payload.[lit "end_user_id"])) in
    if normalized =s [] then None
    else
      let channel := py_lower (py_strip (py_str (jor payload.[lit "identity_type"] (JStr (lit "voice"))))) in
      Some (with_metadata payload normalized (channel =s lit "web") business_id).

Definition USER_TAG : str := lit "voice_assistant_user_".

(** [identity.split("voice_assistant_user_", 1)[1]], if it occurs. *)
Definition after_tag (identity : str) : option str :=
  if contains USER_TAG identity
  then Some (drop (Z.to_nat (py_find USER_TAG identity) + length USER_TAG) identity) else None.

(** The identity in the participant's own name. *)
Definition name_identity (fallback identity : str) (payload : dict) : option caller_identity :=
  let email := _decode_identity_email identity in
  if negb (email =s []) then Some (with_metadata payload email true fallback)
  else match after_tag identity with
       | None => None
       | Some phone =>
           let normalized := _normalize_end_user_id phone in
           if normalized =s [] then None else Some (with_metadata payload normalized false fallback)
       end.

Definition participant_identity (fallback : str) (p : participant) : exn (option caller_identity) :=
  let metadata_raw := py_strip (p_metadata p) in
  do! payload := (if metadata_raw =s [] then Ok None else metadata_object metadata_raw) in
  match payload ≫= metadata_identity fallback with
  | Some i => Ok (Some i)
  | None => Ok (name_identity fallback (p_identity p) (default [] payload))
  end.

Fixpoint first_identity (fallback : str) (l : list participant) : exn caller_identity :=
  match l with
  | [] => Ok (nobody fallback)
  | p :: l =>
      do! i := participant_identity fallback p in
      match i with Some i => Ok i | None => first_identity fallback l end
  end.

(** The identity that the room's name carries. *)
Definition room_identity (fallback room_name : str) : option caller_identity :=
  let '(email, room_business, room_agent, room_agent_name, room_user_name) :=
    _web_room_context_from_name room_name in
  let email := if email =s [] then _email_from_room_name room_name else email in
  if negb (email =s []) then
    Some (mkIdentity email true (or_fallback room_business fallback) room_agent room_agent_name room_user_name [] [])
  else
    let phone := _phone_from_room_name room_name in
    if phone =s [] then None else Some (mkIdentity phone false fallback [] [] [] [] []).

Definition _participant_identity_from_ctx (configured_business : str) (ctx : job_context) : exn caller_identity :=
  let fallback := _normalize_business_id configured_business in
  match room_identity fallback (_room_name_from_ctx ctx) with
  | Some i => Ok i
  | None => first_identity fallback (participants ctx)
  end.

(** ** Properties *)

Lemma filter_all (p : Z → bool) l : forallb p l = true → List.filter p l = l.
Proof. induction l as [|x l IH]; [done|]. simpl. rewrite andb_true_iff. intros [-> ?]. by rewrite IH. Qed.

Lemma plus_digits_normal ds :
  ds ≠ [] → forallb is_digit ds = true → _normalize_end_user_id (lit "+" ++ ds) = lit "+" ++ ds.
Proof.
  intros Hne Hds. unfold _normalize_end_user_id.
  assert (∀ c, c ∈ ds → is_digit c = true) as Hd
    by (intros c Hc; by apply (proj1 (List.forallb_forall _ _) Hds), list_elem_of_In).
  assert (py_strip (lit "+" ++ ds) = lit "+" ++ ds) as ->.
  { apply strip_by_free, Forall_cons. split; [done|]. apply Forall_forall. intros c Hc.
    by apply is_digit_not_space, Hd. }
  assert (has_char 64 (lit "+" ++ ds) = false) as ->.
  { apply not_true_is_false. unfold has_char. rewrite List.existsb_exists. intros (c & Hc & Hc64).
    apply Z.eqb_eq in Hc64 as <-. destruct Hc as [Hc|Hc]; [done|]. apply list_elem_of_In, Hd in Hc. done. }
  assert (List.filter is_digit (lit "+" ++ ds) = ds) as ->.
  { change (lit "+" ++ ds) with (43 :: ds). cbn [List.filter]. by apply filter_all. }
  by rewrite (proj2 (str_eqb_false ds [])).
Qed.

Lemma filter_digits s : forallb is_digit (List.filter is_digit s) = true.
Proof. apply List.forallb_forall. intros c Hc. by apply List.filter_In in Hc as [_ ?]. Qed.

Lemma normalize_end_user_idem value :
  _normalize_end_user_id (_normalize_end_user_id value) = _normalize_end_user_id value.
Proof.
  unfold _normalize_end_user_id at 2 3. destruct (has_char 64 (py_strip value)) eqn:Ha.
  - unfold _normalize_end_user_id.
    assert (py_strip (py_lower (py_strip value)) = py_lower (py_strip value)) as ->.
    { destruct (py_strip_no_head value) as [H1 H2].
      apply strip_by_id; [by apply py_lower_no_head|by apply py_lower_no_tail]. }
    by rewrite py_lower_at, py_lower_idem.
  - destruct (_ =s []) eqn:E; [done|]. apply str_eqb_false in E.
    by apply plus_digits_normal, filter_digits.
Qed.

Lemma first_identity_inv (P : caller_identity → Prop) fallback l r :
  P (nobody fallback) → (∀ p i, participant_identity fallback p = Ok (Some i) → P i) →
  first_identity fallback l = Ok r → P r.
Proof.
  intros H0 Hp. induction l as [|p l IH]; simpl; [by intros [= <-]|].
  destruct (participant_identity fallback p) as [[i|]|] eqn:E; simpl; [|done|done].
  intros [= <-]. by eapply Hp.
Qed.

(** A business the worker reports: none, or an identifier in its canonical spelling. *)
Definition canonical_business (b : str) : Prop := b = [] ∨ ∃ n, 0 ≤ n < 2 ^ 128 ∧ b = uuid_text n.

Lemma normalize_business_canonical v : canonical_business (_normalize_business_id v).
Proof.
  unfold _normalize_business_id. destruct (_ =s _); [by left|].
  destruct (parse_uuid (py_strip v)) as [u|] eqn:E; [|by left].
  right. by apply parse_uuid_Some in E.
Qed.

Lemma or_fallback_canonical v f : canonical_business f → canonical_business (or_fallback v f).
Proof. unfold or_fallback. destruct (_ =s _); [done|]. intros _. apply normalize_business_canonical. Qed.

(** The end user's id is a normal form and the business is canonical. *)
Definition canonical (i : caller_identity) : Prop :=
  _normalize_end_user_id (end_user i) = end_user i ∧ canonical_business (business i).

Lemma with_metadata_canonical payload who web b :
  _normalize_end_user_id who = who → canonical_business b → canonical (with_metadata payload who web b).
Proof. done. Qed.

Lemma metadata_identity_canonical fallback payload i :
  canonical_business fallback → metadata_identity fallback payload = Some i → canonical i.
Proof.
  intros Hf. unfold metadata_identity. destruct (negb _); [intros [= <-]|destruct (_ =s []); [done|intros [= <-]]];
    apply with_metadata_canonical; auto using normalize_end_user_idem, or_fallback_canonical.
Qed.

Lemma decode_identity_normal identity :
  _normalize_end_user_id (_decode_identity_email identity) = _decode_identity_email identity.
Proof.
  unfold _decode_identity_email. destruct (starts_with _ _); [|done].
  destruct (_ ≫= _); [|done]. apply normalize_end_user_idem.
Qed.

Lemma name_identity_canonical fallback identity payload i :
  canonical_business fallback → name_identity fallback identity payload = Some i → canonical i.
Proof.
  intros Hf. unfold name_identity. destruct (negb _).
  - intros [= <-]. apply with_metadata_canonical; [apply decode_identity_normal|done].
  - destruct (after_tag identity); [|done]. destruct (_ =s []); [done|]. intros [= <-].
    apply with_metadata_canonical; [apply normalize_end_user_idem|done].
Qed.

Lemma participant_identity_canonical fallback p i :
  canonical_business fallback → participant_identity fallback p = Ok (Some i) → canonical i.
Proof.
  intros Hf. unfold participant_identity.
  destruct (if _ : bool then _ else _) as [payload|e]; [|done]. cbn [exn_bind].
  destruct (payload ≫= metadata_identity fallback) as [j|] eqn:E.
  - intros [= <-]. apply bind_Some in E as (d & _ & Hd). by eapply metadata_identity_canonical.
  - intros H%Ok_inj. by eapply name_identity_canonical.
Qed.

Lemma room_email_normal room :
  let email := (_web_room_context_from_name room).1.1.1.1 in _normalize_end_user_id email = email.
Proof.
  unfold _web_room_context_from_name. destruct (room_match room); [|done]. apply normalize_end_user_idem.
Qed.

Lemma email_from_room_normal room :
  _normalize_end_user_id (_email_from_room_name room) = _email_from_room_name room.
Proof.
  unfold _email_from_room_name. destruct (email_group room); [|done].
  destruct (_ =s []); [done|]. apply normalize_end_user_idem.
Qed.

Lemma phone_from_room_normal room :
  _normalize_end_user_id (_phone_from_room_name room) = _phone_from_room_name room.
Proof.
  unfold _phone_from_room_name. destruct (phone_group room); [|done].
  destruct (_ =s []) eqn:E; [done|]. apply str_eqb_false in E. by apply plus_digits_normal, filter_digits.
Qed.

Lemma room_identity_canonical fallback room i :
  canonical_business fallback → room_identity fallback room = Some i → canonical i.
Proof.
  intros Hf. unfold room_identity. pose proof (room_email_normal room) as Hn.
  destruct (_web_room_context_from_name room) as [[[[email b] a] n] u]. simpl in Hn.
  destruct (negb _).
  - intros [= <-]. split; [|by apply or_fallback_canonical]. simpl.
    destruct (email =s []); [apply email_from_room_normal|done].
  - destruct (_ =s []); [done|]. intros [= <-]. split; [apply phone_from_room_normal|done].
Qed.

(** Whoever is in the room and whatever their metadata says, the identity a call starts
    with is in normal form: reading the end user's id again gives the same id, and the
    business is empty or a UUID in its canonical spelling. *)
Theorem identity_canonical configured_business ctx i :
  _participant_identity_from_ctx configured_business ctx = Ok i → canonical i.
Proof.
  unfold _participant_identity_from_ctx. pose proof (normalize_business_canonical configured_business) as Hf.
  destruct (room_identity _ _) as [j|] eqn:E.
  - intros [= <-]. by eapply room_identity_canonical.
  - apply first_identity_inv; [by split|]. intros p j. by apply participant_identity_canonical.
Qed.

(** A room whose name was written for a web user is that user's, whoever joins.  The
    identity is the one written, with the written business when that is a UUID and else the
    configured one, and no participant's metadata, name or number changes any of it. *)
Theorem written_room_decides configured_business job_name ctx_name metadata ps email business agent name user rand :
  plain_text email → plain_text business → plain_text agent → plain_text name → plain_text user →
  rand ≠ [] → forallb is_decimal rand = true → _normalize_end_user_id email ≠ [] →
  py_strip job_name = room_name email business agent name user rand →
  _participant_identity_from_ctx configured_business (mkJob job_name ctx_name metadata ps)
  = Ok (mkIdentity (_normalize_end_user_id email) true
          (or_fallback business (_normalize_business_id configured_business)) agent name user [] []).
Proof.
  intros He Hb Ha Hn Hu Hr Hd Hne Hj.
  assert (email ≠ []) as Hne' by (intros ->; by apply Hne).
  unfold _participant_identity_from_ctx, _room_name_from_ctx. cbn [job_room_name]. rewrite Hj.
  rewrite (proj2 (str_eqb_false (room_name _ _ _ _ _ _) [])) by done. unfold room_identity.
  rewrite (worker_reads_written email business agent name user rand He Hne' Hb Ha Hn Hu Hr Hd).
  apply str_eqb_false in Hne. rewrite Hne. cbn iota. rewrite Hne. done.
Qed.

(** Metadata that is JSON but not an object stops the call's start with an exception. *)
Lemma metadata_list_raises configured_business identity :
  room_identity (_normalize_business_id configured_business) [] = None
  ∧ _participant_identity_from_ctx configured_business
      (mkJob [] [] [] [mkParticipant (lit "[]") identity None false]) = Raise AttributeError.
Proof. split; vm_compute; done. Qed.

(** ** Witnesses *)

(** A participant that claims to be someone else, of another business. *)
Abbreviation impostor := (mkParticipant
  (jtext "{'end_user_email': 'eve@evil.example', 'business_id': '00000000-0000-0000-0000-000000000001'}")
  (lit "voice_assistant_user_+2348030000001") None true) (only parsing).

Lemma identity_canonical_witness :
  ∃ i, _participant_identity_from_ctx (lit "{00000000-0000-0000-0000-00000000000A}") (mkJob [] (lit "r") [] [impostor]) = Ok i
       ∧ end_user i = lit "eve@evil.example" ∧ canonical i.
Proof.
  eexists. split; [vm_compute; reflexivity|]. split; [reflexivity|].
  apply (identity_canonical (lit "{00000000-0000-0000-0000-00000000000A}") (mkJob [] (lit "r") [] [impostor])).
  vm_compute. reflexivity.
Defined.

Lemma written_room_decides_witness :
  ∃ i, _participant_identity_from_ctx [] (mkJob
         (room_name (lit "Ada@clinic.ng") (lit "00000000-0000-0000-0000-00000000000b") (lit "a1") [] [] (lit "42"))
         [] [] [impostor]) = Ok i
       ∧ end_user i = lit "ada@clinic.ng" ∧ business i = lit "00000000-0000-0000-0000-00000000000b".
Proof.
  eexists. split.
  - apply (written_room_decides [] _ [] [] [impostor] (lit "Ada@clinic.ng")
      (lit "00000000-0000-0000-0000-00000000000b") (lit "a1") [] [] (lit "42"));
      first [vm_compute; reflexivity | split; vm_compute; reflexivity | vm_compute; discriminate].
  - split; vm_compute; reflexivity.
Defined.
