(* ===== verification/Billing.v ===== *)
(** * Billing of a call: main.py, lines 523-792, and agent/billing_hooks.py

    A call asks for permission to start, beats while it lasts, is ended when the wallet is
    empty (or, if so configured, when billing cannot be reached), and reports its final
    usage.  The flags that these functions keep in [userdata] are the machine's state
    (Prelude.v); the keys they only read come with each event, because other code may
    change them between two of them.  Each [await] of a billing request is a suspension.
    SHA-256, the clock (the seconds elapsed) and the texts of transport errors are
    parameters or part of the events. *)
From stdpp Require Import base list strings.
From Stdlib Require Import ZArith Lia.
From S2P Require Import Prelude Pystr Json.

(** A heartbeat task: asleep, waiting for the answer to a heartbeat, or over; with the
    failures since the last success. *)
Inductive loop : Type :=
| Sleeping (failures : Z)
| Beating (failures : Z)
| Ended.

Inductive request : Type := AwaitAuthorize | AwaitReport | Answered.

Record billing := mkBilling {
  bypassed : option str;
  billing_authorized : bool;
  heartbeat_task : option nat;
  loops : list loop;
  requests : list request;
  shutdown_requested : bool;
  final_reported : bool;
  last_heartbeat : option dict;
  last_report : option dict;
}.

Definition init : billing := mkBilling None false None [] [] false false None None.

Inductive billing_effect : Type :=
| CallAllowed
| CallRefused (e : pyexc)
| AuthorizeCall (i : nat) (payload : dict)
| Heartbeat (i : nat) (payload : dict)
| ReportUsage (i : nat) (payload : dict)
| LoopRaised (e : pyexc)
| ReportRaised (e : pyexc)
| PersistEvent (title body : str) (payload : dict)
| SessionShutdown
| JobShutdown (reason : str)
| DeleteRoom.

(** [response] is what the HTTP client gave: status and decoded body, or an exception. *)
Abbreviation response := (exn (Z * exn json)) (only parsing).

Inductive billing_event : Type :=
| Authorize (userdata : dict)
| AuthorizeReply (i : nat) (r : response)
| StartHeartbeat
| Tick (i : nat) (elapsed : Z) (userdata : dict)
| HeartbeatReply (i : nat) (r : response)
| StopHeartbeat
| Report (duration : Z) (userdata : dict) (usage : option (exn json))
| ReportReply (i : nat) (r : response).

Definition set_loop (i : nat) (l : loop) (s : billing) : billing :=
  mkBilling (bypassed s) (billing_authorized s) (heartbeat_task s) (<[i := l]> (loops s)) (requests s)
    (shutdown_requested s) (final_reported s) (last_heartbeat s) (last_report s).
Definition set_requests (rs : list request) (s : billing) : billing :=
  mkBilling (bypassed s) (billing_authorized s) (heartbeat_task s) (loops s) rs
    (shutdown_requested s) (final_reported s) (last_heartbeat s) (last_report s).
Definition set_bypassed (reason : str) (s : billing) : billing :=
  mkBilling (Some reason) (billing_authorized s) (heartbeat_task s) (loops s) (requests s)
    (shutdown_requested s) (final_reported s) (last_heartbeat s) (last_report s).
Definition set_authorized (s : billing) : billing :=
  mkBilling (bypassed s) true (heartbeat_task s) (loops s) (requests s)
    (shutdown_requested s) (final_reported s) (last_heartbeat s) (last_report s).
Definition set_task (t : option nat) (ls : list loop) (s : billing) : billing :=
  mkBilling (bypassed s) (billing_authorized s) t ls (requests s)
    (shutdown_requested s) (final_reported s) (last_heartbeat s) (last_report s).
Definition set_shutdown (s : billing) : billing :=
  mkBilling (bypassed s) (billing_authorized s) (heartbeat_task s) (loops s) (requests s)
    true (final_reported s) (last_heartbeat s) (last_report s).
Definition set_reported (s : billing) : billing :=
  mkBilling (bypassed s) (billing_authorized s) (heartbeat_task s) (loops s) (requests s)
    (shutdown_requested s) true (last_heartbeat s) (last_report s).
Definition set_last_heartbeat (d : dict) (s : billing) : billing :=
  mkBilling (bypassed s) (billing_authorized s) (heartbeat_task s) (loops s) (requests s)
    (shutdown_requested s) (final_reported s) (Some d) (last_report s).
Definition set_last_report (d : dict) (s : billing) : billing :=
  mkBilling (bypassed s) (billing_authorized s) (heartbeat_task s) (loops s) (requests s)
    (shutdown_requested s) (final_reported s) (last_heartbeat s) (Some d).

(** ** agent/billing_hooks.py *)

Section billing.
Context (base_url service_token default_business business_id call_channel bypass_ids : str)
  (fail_closed : bool) (max_failures_setting : Z) (sha256_hex : str → str) (describe : pyexc → str * str).

Definition HEARTBEAT_MAX_FAILURES : Z := Z.max 1 max_failures_setting.

Definition is_enabled : bool :=
  negb (base_url =s []) && negb (service_token =s [])
  && negb ((if business_id =s [] then default_business else business_id) =s []).

Definition billing_headers : dict :=
  [(lit "Content-Type", JStr (lit "application/json")); (lit "X-Service-Token", JStr service_token);
   (lit "X-Service-Name", JStr (lit "sales-girl-voice-agent"));
   (lit "X-Business-ID", JStr (if business_id =s [] then default_business else business_id))].

Definition disabled_result : dict := [(lit "status", JStr (lit "disabled"))].

(** [_post], once the request was made. *)
Definition post_result (r : response) : exn dict :=
  match r with
  | Raise HttpError =>
      let '(text, name) := describe HttpError in
      Ok [(lit "status", JStr (lit "failed")); (lit "detail", JStr (if text =s [] then name else text));
          (lit "error_type", JStr name)]
  | Raise e => Raise e
  | Ok (code, body) =>
      do! data := (match body with Raise (ValueError _) => Ok (JObj []) | b => b end) in
      if 400 <=? code then
        Ok [(lit "status", JStr (lit "failed")); (lit "http_status", JInt code);
            (lit "detail", match data with JObj d => d.[lit "detail"] | _ => JStr (lit "billing hook failed") end)]
      else
        Ok (match data with
            | JObj d => dset (lit "status") (JStr (py_str (jor d.[lit "status"] (JStr (lit "success"))))) d
            | _ => [(lit "status", JStr (lit "success"))]
            end)
  end.

Definition authorize_payload (userdata : dict) : dict :=
  [(lit "conversation_id", JStr (str_or_empty userdata.[lit "conversation_id"]));
   (lit "end_user_id", JStr (str_or_empty userdata.[lit "end_user_id"])); (lit "channel", JStr call_channel)].

(** ** main.py *)

Definition _billing_session_id (userdata : dict) : str :=
  str_or_empty (jor userdata.[lit "session_tracker_id"] userdata.[lit "session_id"]).

Definition _billing_idempotency_key (session_id : str) (duration_seconds : Z) : str :=
  let d := str_of_Z (Z.max 0 duration_seconds) in
  lit "hb-" ++ d ++ lit "-" ++ take 16 (sha256_hex (session_id ++ lit ":" ++ d)).

(** [usage] is what the meter's [snapshot] gave, if there is one. *)
Definition _billing_usage_payload (usage : option (exn json)) : option dict :=
  match usage with Some (Ok (JObj ((_ :: _) as d))) => Some d | _ => None end.

Definition heartbeat_payload (userdata : dict) (duration : Z) : dict :=
  let session := _billing_session_id userdata in
  [(lit "conversation_id", JStr (str_or_empty userdata.[lit "conversation_id"]));
   (lit "session_id", JStr session); (lit "end_user_id", JStr (str_or_empty userdata.[lit "end_user_id"]));
   (lit "duration_seconds", JInt (Z.max 0 duration));
   (lit "idempotency_key", JStr (py_strip (_billing_idempotency_key session duration)));
   (lit "channel", JStr call_channel)].

Definition usage_payload (userdata : dict) (duration : Z) (usage : option (exn json)) : dict :=
  [(lit "conversation_id", JStr (str_or_empty userdata.[lit "conversation_id"]));
   (lit "session_id", JStr (_billing_session_id userdata));
   (lit "end_user_id", JStr (str_or_empty userdata.[lit "end_user_id"]));
   (lit "duration_seconds", JInt (Z.max 0 duration)); (lit "channel", JStr call_channel)]
  ++ match _billing_usage_payload usage with Some d => [(lit "usage", JObj d)] | None => [] end.

Definition bypass_agent_ids : list str :=
  List.filter (λ i, negb (i =s [])) (map py_strip (py_split_char 44 bypass_ids)).

Definition _billing_bypass_reason (userdata : dict) : str :=
  let lowered key := py_lower (str_strip userdata.[lit key]) in
  if lowered "session_kind" =s lit "help" then lit "platform_help_session"
  else if (call_channel =s lit "web")
          && match userdata.[lit "runtime_overrides"] with JObj (_ :: _) => true | _ => false end
  then lit "voice_lab_runtime_overrides"
  else if (lowered "entry_surface" =s lit "aicc_inbound") || (lowered "session_owner" =s lit "sip_lab")
  then lit "aicc_sip_lab_session"
  else
    let agent_config_id := str_strip userdata.[lit "agent_config_id"] in
    if negb (agent_config_id =s []) && in_strs agent_config_id bypass_agent_ids
    then lit "agent_billing_bypass" else [].

Definition status_of (result : dict) : str := py_lower (str_or_empty result.[lit "status"]).

Definition failing (result : dict) : bool := in_strs (status_of result) [lit "disabled"; lit "failed"].

(** [_authorize_billing_start_or_raise], to the request and from its answer. *)
Definition authorize (userdata : dict) (s : billing) : billing * list billing_effect :=
  let reason := _billing_bypass_reason userdata in
  if negb (reason =s []) then (set_bypassed reason s, [CallAllowed])
  else if negb is_enabled then
    (s, [if fail_closed then CallRefused (RuntimeError (lit "Billing hooks are not configured.")) else CallAllowed])
  else (set_requests (requests s ++ [AwaitAuthorize]) s,
        [AuthorizeCall (length (requests s)) (authorize_payload userdata)]).

Definition authorize_answer (r : response) (s : billing) : billing * list billing_effect :=
  match post_result r with
  | Raise e => (s, [CallRefused e])
  | Ok result =>
      if failing result then
        let detail := py_str (jor (jor result.[lit "detail"] (JStr (status_of result)))
                                (JStr (lit "billing authorization failed"))) in
        (s, [if fail_closed then CallRefused (RuntimeError detail) else CallAllowed])
      else if negb (truthy result.[lit "authorized"]) then
        (s, [CallRefused (RuntimeError (lit "Insufficient wallet balance to start this call."))])
      else (set_authorized s, [CallAllowed])
  end.

Definition EXHAUSTED : str := lit "billing_exhausted".
Definition HEARTBEAT_FAILED : str := lit "billing_heartbeat_failed".

Definition _shutdown_session_for_billing (reason : str) (result : dict) (s : billing)
    : billing * list billing_effect :=
  if shutdown_requested s then (s, [])
  else (set_shutdown s,
        [PersistEvent (lit "Billing balance exhausted")
           (lit "The call ended because the wallet balance reached zero.") result;
         SessionShutdown; JobShutdown reason; DeleteRoom]).

(** The rest of a round of [_billing_heartbeat_loop] once the heartbeat's result is there. *)
Definition heartbeat_result (i : nat) (failures : Z) (result : dict) (s : billing)
    : billing * list billing_effect :=
  if failing result then
    let failures := failures + 1 in
    if fail_closed && (HEARTBEAT_MAX_FAILURES <=? failures)
    then _shutdown_session_for_billing HEARTBEAT_FAILED result (set_loop i Ended s)
    else (set_loop i (Sleeping failures) s, [])
  else
    let s := set_last_heartbeat result s in
    if truthy result.[lit "should_end_call"]
    then _shutdown_session_for_billing EXHAUSTED result (set_loop i Ended s)
    else (set_loop i (Sleeping 0) s, []).

(** The sleep is over. *)
Definition tick (i : nat) (failures elapsed : Z) (userdata : dict) (s : billing) : billing * list billing_effect :=
  let duration := Z.max 0 elapsed in
  if duration <=? 0 then (s, [])
  else if is_enabled then
    (set_loop i (Beating failures) s, [Heartbeat i (heartbeat_payload userdata duration)])
  else heartbeat_result i failures disabled_result s.

Definition _start_billing_heartbeat (s : billing) : billing :=
  match bypassed s, heartbeat_task s with
  | None, None =>
      if is_enabled then set_task (Some (length (loops s))) (loops s ++ [Sleeping 0]) s else s
  | _, _ => s
  end.

(** The cancellation reaches the task at the [await] it is in. *)
Definition _stop_billing_heartbeat (s : billing) : billing :=
  match heartbeat_task s with
  | None => s
  | Some i => set_task None (<[i := Ended]> (loops s)) s
  end.

Definition _report_billing_final_usage (duration : Z) (userdata : dict) (usage : option (exn json)) (s : billing)
    : billing * list billing_effect :=
  if final_reported s then (s, [])
  else
    let s := set_reported s in
    match bypassed s with
    | Some _ => (s, [])
    | None =>
        if is_enabled then
          (set_requests (requests s ++ [AwaitReport]) s,
           [ReportUsage (length (requests s)) (usage_payload userdata duration usage)])
        else (s, [])
    end.

Definition report_answer (r : response) (s : billing) : billing * list billing_effect :=
  match post_result r with
  | Raise e => (s, [ReportRaised e])
  | Ok result => if status_of result =s lit "failed" then (s, []) else (set_last_report result s, [])
  end.

Definition answered (i : nat) (s : billing) : billing := set_requests (<[i := Answered]> (requests s)) s.

Definition billing_step (s : billing) (e : billing_event) : option (billing * list billing_effect) :=
  match e with
  | Authorize userdata => Some (authorize userdata s)
  | AuthorizeReply i r =>
      match requests s !! i with
      | Some AwaitAuthorize => Some (authorize_answer r (answered i s))
      | _ => None
      end
  | StartHeartbeat => Some (_start_billing_heartbeat s, [])
  | Tick i elapsed userdata =>
      match loops s !! i with
      | Some (Sleeping failures) => Some (tick i failures elapsed userdata s)
      | _ => None
      end
  | HeartbeatReply i r =>
      match loops s !! i with
      | Some (Beating failures) =>
          Some (match post_result r with
                | Raise e => (set_loop i Ended s, [LoopRaised e])
                | Ok result => heartbeat_result i failures result s
                end)
      | _ => None
      end
  | StopHeartbeat => Some (_stop_billing_heartbeat s, [])
  | Report duration userdata usage => Some (_report_billing_final_usage duration userdata usage s)
  | ReportReply i r =>
      match requests s !! i with
      | Some AwaitReport => Some (report_answer r (answered i s))
      | _ => None
      end
  end.

(** ** Properties *)

Abbreviation step := billing_step (only parsing).

(** The result that loop [i] gets with an event, and its failures in a row after some events. *)
Definition result_of (i : nat) (e : billing_event) : option dict :=
  match e with
  | HeartbeatReply j r =>
      if bool_decide (i = j) then match post_result r with Ok d => Some d | Raise _ => None end else None
  | Tick j elapsed _ => if bool_decide (i = j) && (0 <? elapsed) && negb is_enabled then Some disabled_result else None
  | _ => None
  end.

Definition streak_step (i : nat) (n : Z) (e : billing_event) : Z :=
  match result_of i e with Some d => if failing d then n + 1 else 0 | None => n end.

Definition streak (i : nat) (es : list billing_event) : Z := foldl (streak_step i) 0 es.

(** Why a call may be ended: a heartbeat of the call was answered with [should_end_call], or
    billing is required and the last heartbeats, as many as allowed, all failed. *)
Definition justified (es : list billing_event) (reason : str) : Prop :=
  ∃ i es1 e es2 result,
    es = es1 ++ e :: es2 ∧ result_of i e = Some result
    ∧ ((reason = EXHAUSTED ∧ failing result = false ∧ truthy result.[lit "should_end_call"] = true)
       ∨ (reason = HEARTBEAT_FAILED ∧ fail_closed = true ∧ failing result = true
          ∧ HEARTBEAT_MAX_FAILURES ≤ streak i (es1 ++ [e]))).

Definition is_shutdown (o : billing_effect) : bool := match o with JobShutdown _ => true | _ => false end.
Definition is_report (o : billing_effect) : bool := match o with ReportUsage _ _ => true | _ => false end.

Record billing_inv (es : list billing_event) (s : billing) (outs : list billing_effect) : Prop := {
  inv_streak : ∀ i f, loops s !! i = Some (Sleeping f) ∨ loops s !! i = Some (Beating f) → f = streak i es;
  inv_fresh : ∀ i, (length (loops s) ≤ i)%nat → streak i es = 0;
  inv_shutdowns : count is_shutdown outs = if shutdown_requested s then 1%nat else 0%nat;
  inv_justified : ∀ reason, JobShutdown reason ∈ outs → justified es reason;
  inv_reports : (count is_report outs ≤ if final_reported s then 1 else 0)%nat;
}.

Lemma streak_snoc i es e : streak i (es ++ [e]) = streak_step i (streak i es) e.
Proof. unfold streak. by rewrite foldl_app. Qed.

Lemma streak_other i es e : result_of i e = None → streak i (es ++ [e]) = streak i es.
Proof. intros H. rewrite streak_snoc. unfold streak_step. by rewrite H. Qed.

Lemma justified_app es e reason : justified es reason → justified (es ++ [e]) reason.
Proof.
  intros (i & es1 & e1 & es2 & d & -> & H). exists i, es1, e1, (es2 ++ [e]), d. by rewrite <-app_assoc.
Qed.

(** A step that no loop gets a result from, and that ends no call. *)
Lemma billing_inv_quiet es s outs e s' o' :
  billing_inv es s outs → (∀ i, result_of i e = None) →
  (∀ i f, loops s' !! i = Some (Sleeping f) ∨ loops s' !! i = Some (Beating f) →
     loops s !! i = Some (Sleeping f) ∨ loops s !! i = Some (Beating f)
     ∨ (f = 0 ∧ (length (loops s) ≤ i)%nat)) →
  (length (loops s) ≤ length (loops s'))%nat →
  shutdown_requested s' = shutdown_requested s → count is_shutdown o' = 0%nat →
  (count is_report o' + (if final_reported s then 1 else 0) ≤ if final_reported s' then 1 else 0)%nat →
  billing_inv (es ++ [e]) s' (outs ++ o').
Proof.
  intros [Hs Hf Hc Hj Hr] He Hl Hn Hq Ho Hp.
  assert (∀ i, streak i (es ++ [e]) = streak i es) as Hst by (intros; by apply streak_other).
  split.
  - intros i f Hi. rewrite Hst. destruct (Hl i f Hi) as [?|[?|[-> ?]]]; [by apply Hs; left|by apply Hs; right|].
    symmetry. by apply Hf.
  - intros i Hi. rewrite Hst. apply Hf. lia.
  - rewrite count_app, Hc, Ho, Hq. lia.
  - intros reason [Hin|Hin]%elem_of_app; [by apply justified_app, Hj|].
    pose proof (count_elem is_shutdown _ _ Hin eq_refl). lia.
  - rewrite count_app. lia.
Qed.

(** What a result does to its loop and to the call. *)
Lemma heartbeat_result_spec i f d s s' o' :
  heartbeat_result i f d s = (s', o') →
  final_reported s' = final_reported s ∧ count is_report o' = 0%nat
  ∧ (∃ l, loops s' = <[i := l]> (loops s)
     ∧ ∀ g, l = Sleeping g ∨ l = Beating g → g = if failing d then f + 1 else 0)
  ∧ (shutdown_requested s' = shutdown_requested s ∧ count is_shutdown o' = 0%nat
     ∨ shutdown_requested s = false ∧ shutdown_requested s' = true
       ∧ ∃ reason, o' = [PersistEvent (lit "Billing balance exhausted")
           (lit "The call ended because the wallet balance reached zero.") d;
           SessionShutdown; JobShutdown reason; DeleteRoom]
         ∧ ((reason = EXHAUSTED ∧ failing d = false ∧ truthy d.[lit "should_end_call"] = true)
            ∨ (reason = HEARTBEAT_FAILED ∧ fail_closed = true ∧ failing d = true
               ∧ HEARTBEAT_MAX_FAILURES ≤ f + 1))).
Proof.
  unfold heartbeat_result, _shutdown_session_for_billing.
  destruct (failing d) eqn:Ed; [destruct (fail_closed && _) eqn:Ef|destruct (truthy _) eqn:Et].
  - apply andb_true_iff in Ef as [-> Hm%Z.leb_le].
    destruct (shutdown_requested _) eqn:E; simpl in E; intros [= <- <-]; simpl; split_and!; try done;
      [by eexists; split; [done|]; intros g [?|?]| by left | by eexists; split; [done|]; intros g [?|?]|].
    right. split; [done|]. split; [done|]. eexists. split; [done|]. by right.
  - intros [= <- <-]; simpl; split_and!; try done; [|by left]. eexists. split; [done|]. by intros g [[= ->]|?].
  - destruct (shutdown_requested _) eqn:E; simpl in E; intros [= <- <-]; simpl; split_and!; try done;
      [by eexists; split; [done|]; intros g [?|?]| by left | by eexists; split; [done|]; intros g [?|?]|].
    right. split; [done|]. split; [done|]. eexists. split; [done|]. by left.
  - intros [= <- <-]; simpl; split_and!; try done; [|by left]. eexists. split; [done|]. by intros g [[= ->]|?].
Qed.

(** A step in which loop [i], with [f] failures so far, gets a result. *)
Lemma billing_inv_result es s outs e i f d s' o' :
  billing_inv es s outs → (loops s !! i = Some (Sleeping f) ∨ loops s !! i = Some (Beating f)) →
  result_of i e = Some d → (∀ j, j ≠ i → result_of j e = None) →
  heartbeat_result i f d s = (s', o') → billing_inv (es ++ [e]) s' (outs ++ o').
Proof.
  intros [Hs Hf Hc Hj Hr] Hi He Hother Hh. pose proof (Hs i f Hi) as Hfi.
  assert (i < length (loops s))%nat as Hlt by (destruct Hi as [Hi|Hi]; by apply lookup_lt_Some in Hi).
  assert (streak i (es ++ [e]) = if failing d then f + 1 else 0) as Hst
    by (rewrite streak_snoc; unfold streak_step; by rewrite He, <-Hfi).
  apply heartbeat_result_spec in Hh as (Hfr & Hrep & (l & Hl & Hlg) & Hq).
  split.
  - intros j g Hg. rewrite Hl in Hg. destruct (decide (i = j)) as [<-|Hne].
    + rewrite list_lookup_insert_eq in Hg by done. rewrite Hst. apply Hlg. naive_solver.
    + rewrite list_lookup_insert_ne in Hg by done. rewrite streak_other by (by apply Hother). by apply Hs.
  - intros j. rewrite Hl, length_insert. intros Hlen. rewrite streak_other; [by apply Hf|].
    apply Hother. intros ->. lia.
  - rewrite count_app, Hc. destruct Hq as [[-> ->]|(E1 & E2 & reason & -> & _)]; [lia|]. by rewrite E1, E2.
  - intros reason [Hin|Hin]%elem_of_app; [by apply justified_app, Hj|].
    destruct Hq as [[_ H0]|(_ & _ & reason' & -> & Hwhy)].
    { pose proof (count_elem is_shutdown _ _ Hin eq_refl). lia. }
    assert (reason = reason') as -> by (rewrite !elem_of_cons, elem_of_nil in Hin; naive_solver).
    exists i, es, e, [], d. split; [done|]. split; [done|].
    destruct Hwhy as [?|(-> & ? & Hd & ?)]; [by left|]. right. rewrite Hst, Hd. done.
  - rewrite count_app, Hrep, Hfr. lia.
Qed.

Lemma result_of_tick i elapsed ud : is_enabled = true → ∀ j, result_of j (Tick i elapsed ud) = None.
Proof. intros H j. unfold result_of. rewrite H. by rewrite andb_false_r. Qed.

Lemma billing_inv_tick es s outs i f elapsed ud s' o' :
  billing_inv es s outs → loops s !! i = Some (Sleeping f) →
  tick i f elapsed ud s = (s', o') → billing_inv (es ++ [Tick i elapsed ud]) s' (outs ++ o').
Proof.
  intros H Hi. unfold tick. destruct (Z.leb_spec (Z.max 0 elapsed) 0) as [Hd|Hd].
  - intros [= <- <-]. apply (billing_inv_quiet es s); try done; [|naive_solver].
    intros j. simpl. destruct (Z.ltb_spec 0 elapsed); [lia|]. by rewrite andb_false_r.
  - destruct is_enabled eqn:He.
    + intros [= <- <-]. apply (billing_inv_quiet es s); try done.
      * by apply result_of_tick.
      * simpl. intros j g Hg. destruct (decide (i = j)) as [<-|].
        -- rewrite list_lookup_insert_eq in Hg by (by eapply lookup_lt_Some). naive_solver.
        -- rewrite list_lookup_insert_ne in Hg by done. naive_solver.
      * simpl. by rewrite length_insert.
    + intros Hh. eapply billing_inv_result; [done|by left| | |done].
      * simpl. rewrite bool_decide_true, He by done. by rewrite (proj2 (Z.ltb_lt 0 elapsed)) by lia.
      * intros j Hj. simpl. by rewrite bool_decide_false.
Qed.

Lemma billing_inv_step es s outs e s' o' :
  billing_inv es s outs → step s e = Some (s', o') → billing_inv (es ++ [e]) s' (outs ++ o').
Proof.
  intros H Hst. destruct e as [ud|i r| |i el ud|i r| |du ud us|i r]; simpl in Hst.
  - injection Hst as Hst. unfold authorize in Hst.
    repeat case_match; simplify_eq; (eapply billing_inv_quiet; [exact H|..]); try done; naive_solver.
  - destruct (requests s !! i) as [[]|]; try done. injection Hst as Hst. unfold authorize_answer in Hst.
    repeat case_match; simplify_eq; (eapply billing_inv_quiet; [exact H|..]); try done; naive_solver.
  - injection Hst as <- <-. unfold _start_billing_heartbeat.
    repeat case_match; (eapply billing_inv_quiet; [exact H|..]); try done; try naive_solver; simpl.
    + intros j g Hg. rewrite !lookup_app_Some, !list_lookup_singleton_Some in Hg. naive_solver.
    + rewrite length_app. lia.
  - destruct (loops s !! i) as [[f| |]|] eqn:Hi; try done. injection Hst as Hst. by eapply billing_inv_tick.
  - destruct (loops s !! i) as [[|f|]|] eqn:Hi; try done. injection Hst as Hst.
    destruct (post_result r) as [d|ex] eqn:Hr.
    + eapply billing_inv_result; [done|by right| | |done].
      * simpl. by rewrite bool_decide_true, Hr by done.
      * intros j Hj. simpl. by rewrite bool_decide_false.
    + injection Hst as <- <-. apply (billing_inv_quiet es s); try done; simpl.
      * intros j. case_bool_decide; [|done]. by rewrite Hr.
      * intros j g Hg. destruct (decide (i = j)) as [<-|].
        -- rewrite list_lookup_insert_eq in Hg by (by eapply lookup_lt_Some). naive_solver.
        -- rewrite list_lookup_insert_ne in Hg by done. naive_solver.
      * by rewrite length_insert.
  - injection Hst as <- <-. unfold _stop_billing_heartbeat. destruct (heartbeat_task s) as [i|].
    + apply (billing_inv_quiet es s); try done; simpl; [|by rewrite length_insert].
      intros j g Hg. destruct (decide (i = j)) as [<-|].
      * destruct (decide (i < length (loops s)))%nat.
        -- rewrite list_lookup_insert_eq in Hg by done. naive_solver.
        -- rewrite list_insert_ge in Hg by lia. naive_solver.
      * rewrite list_lookup_insert_ne in Hg by done. naive_solver.
    + apply (billing_inv_quiet es s); try done. naive_solver.
  - injection Hst as Hst. unfold _report_billing_final_usage in Hst.
    repeat case_match; simplify_eq; (eapply billing_inv_quiet; [exact H|..]); try done; simpl;
      try naive_solver; rewrite H0; lia.
  - destruct (requests s !! i) as [[]|]; try done. injection Hst as Hst. unfold report_answer in Hst.
    repeat case_match; simplify_eq; (eapply billing_inv_quiet; [exact H|..]); try done; naive_solver.
Qed.

Lemma billing_run_inv es s outs : run step init es = Some (s, outs) → billing_inv es s outs.
Proof.
  revert es s outs. apply (run_hist_inv step billing_inv).
  - split; [by intros i f [?|?]|done|done|by intros reason ?%not_elem_of_nil|apply Nat.le_0_l].
  - intros. by eapply billing_inv_step.
Qed.

(** C23: billing ends a call at most once, and only with cause: a heartbeat's answer said
    that the call should end, or billing is required and at least as many heartbeats in a
    row as the configuration allows have failed, whatever was interleaved with them. *)
Theorem shutdown_justified es s outs :
  run step init es = Some (s, outs) →
  (count is_shutdown outs ≤ 1)%nat ∧ ∀ reason, JobShutdown reason ∈ outs → justified es reason.
Proof.
  intros [_ _ Hc Hj _]%billing_run_inv. split; [|done]. rewrite Hc. destruct (shutdown_requested s); lia.
Qed.

(** What is charged to the wallet's business. *)
Definition is_charge (o : billing_effect) : bool :=
  match o with Heartbeat _ _ | ReportUsage _ _ => true | _ => false end.

Definition bypass_inv (s : billing) (outs : list billing_effect) : Prop :=
  bypassed s ≠ None ∧ loops s = [] ∧ count is_charge outs = 0%nat.

Lemma bypass_inv_step s outs e s' o' :
  bypass_inv s outs → step s e = Some (s', o') → bypass_inv s' (outs ++ o').
Proof.
  intros (Hb & Hl & Hc) Hst. unfold bypass_inv. rewrite count_app, Hc.
  destruct (bypassed s) as [b|] eqn:Eb; [|done].
  destruct e as [ud|i r| |i el ud|i r| |du ud us|i r]; simpl in Hst; rewrite ?Hl in Hst; try done.
  - injection Hst as Hst. unfold authorize in Hst. repeat case_match; simplify_eq; simpl; by rewrite ?Eb.
  - destruct (requests s !! i) as [[]|]; try done. injection Hst as Hst. unfold authorize_answer in Hst.
    repeat case_match; simplify_eq; simpl; by rewrite ?Eb.
  - injection Hst as <- <-. unfold _start_billing_heartbeat. rewrite Eb. split_and!; [congruence|done|done].
  - injection Hst as <- <-. unfold _stop_billing_heartbeat. destruct (heartbeat_task s) as [j|]; simpl; rewrite Eb, Hl; [by destruct j|done].
  - injection Hst as Hst. unfold _report_billing_final_usage in Hst. simpl in Hst. rewrite Eb in Hst.
    repeat case_match; simplify_eq; simpl; by rewrite Eb.
  - destruct (requests s !! i) as [[]|]; try done. injection Hst as Hst. unfold report_answer in Hst.
    repeat case_match; simplify_eq; simpl; by rewrite ?Eb.
Qed.

(** The final usage is reported at most once, and a call that starts with a bypass (a
    help session, a voice-lab override, the SIP lab or a listed agent) is never charged:
    no heartbeat and no usage report is sent for it, whatever happens during the call. *)
Theorem usage_charged_once es s outs :
  run step init es = Some (s, outs) →
  (count is_report outs ≤ 1)%nat
  ∧ ∀ userdata es', es = Authorize userdata :: es' → _billing_bypass_reason userdata ≠ [] →
      count is_charge outs = 0%nat.
Proof.
  intros Hr. split.
  - apply billing_run_inv in Hr as [_ _ _ _ Hp]. destruct (final_reported s); lia.
  - intros ud es' -> Hne. apply str_eqb_false in Hne. 
    assert (step init (Authorize ud) = Some (set_bypassed (_billing_bypass_reason ud) init, [CallAllowed])) as Ha
      by (unfold billing_step, authorize; by rewrite Hne).
    rewrite run_cons, Ha in Hr.
    destruct (run step _ es') as [[s1 o1]|] eqn:Hr1; [|done]. injection Hr as <- <-.
    assert (bypass_inv s1 o1) as (_ & _ & Hc); [|by rewrite count_cons].
    refine (run_inv step bypass_inv _ _ bypass_inv_step _ _ _ Hr1). by repeat split.
Qed.
End billing.

(** ** Witnesses: two failed heartbeats, a success that ends the call, the report; a bypass *)

Abbreviation example_billing := (billing_step (lit "https://billing") (lit "t") [] (lit "b") (lit "voice") [] true 3
  (λ s, s) (λ _, (lit "refused", lit "ConnectError"))) (only parsing).
Abbreviation refused := (Raise HttpError) (only parsing).
Abbreviation example_ends := (HeartbeatReply 0 (Ok (200, Ok (JObj [(lit "should_end_call", JBool true)])))) (only parsing).
Abbreviation example_beats := [Authorize []; AuthorizeReply 0 (Ok (200, Ok (JObj [(lit "authorized", JBool true)])));
  StartHeartbeat; Tick 0 10 []; HeartbeatReply 0 refused; Tick 0 20 []; HeartbeatReply 0 refused] (only parsing).
Abbreviation example_call := (example_beats ++ [Tick 0 30 []; example_ends; Report 31 [] None; Report 32 [] None]) (only parsing).

Lemma example_billed_call : ∃ s o, run example_billing init example_call = Some (s, o)
  ∧ JobShutdown EXHAUSTED ∈ o ∧ count is_report o = 1%nat.
Proof.
  assert ((λ r, (count is_report r.2, List.find is_shutdown r.2)) <$> run example_billing init example_call
          = Some (1%nat, Some (JobShutdown EXHAUSTED))) as H by (vm_compute; reflexivity).
  destruct (run example_billing init example_call) as [[s o]|]; [|discriminate H].
  simpl in H. apply (inj Some) in H. injection H as Hc Hs. exists s, o. split_and!; try done.
  apply list_elem_of_In. by apply List.find_some in Hs as [? _].
Qed.

Lemma shutdown_justified_witness : ∃ s o, run example_billing init example_call = Some (s, o)
  ∧ JobShutdown EXHAUSTED ∈ o ∧ (count is_shutdown o ≤ 1)%nat.
Proof.
  destruct example_billed_call as (s & o & Hr & Hin & _). exists s, o.
  exact (conj Hr (conj Hin (proj1 (shutdown_justified _ _ _ _ _ _ _ _ _ _ _ _ _ Hr)))).
Defined.

Abbreviation example_help :=
  (Authorize [(lit "session_kind", JStr (lit " Help "))] :: [StartHeartbeat; Report 31 [] None]) (only parsing).

Lemma usage_charged_once_witness :
  ∃ s o, run example_billing init example_help = Some (s, o) ∧ count is_charge o = 0%nat.
Proof.
  eexists _, _. split; [vm_compute; reflexivity|].
  apply (proj2 (usage_charged_once (lit "https://billing") (lit "t") [] (lit "b") (lit "voice") [] true 3
    (λ s, s) (λ _, (lit "refused", lit "ConnectError")) example_help _ _ ltac:(vm_compute; reflexivity))
    [(lit "session_kind", JStr (lit " Help "))] [StartHeartbeat; Report 31 [] None]);
    [reflexivity|vm_compute; discriminate].
Defined.

(** A call ended because billing could not be reached is recorded as out of balance. *)
Lemma failure_recorded_as_exhausted : ∃ s o,
  run example_billing init (example_beats ++ [Tick 0 30 []; HeartbeatReply 0 refused]) = Some (s, o)
  ∧ JobShutdown HEARTBEAT_FAILED ∈ o
  ∧ ∃ d, PersistEvent (lit "Billing balance exhausted") (lit "The call ended because the wallet balance reached zero.") d ∈ o.
Proof.
  eexists _, _. split; [vm_compute; reflexivity|]. split.
  - repeat (apply elem_of_cons; (left; reflexivity) || right).
  - eexists. repeat (apply elem_of_cons; (left; reflexivity) || right).
Qed.
