(* ===== verification/Agentic.v ===== *)
(** * The agent's runtime context and knowledge: latency_lab/agentic.py

    The configuration an agent runs with is loaded once for the room's business and agent;
    the prompts state what it may do; and the caller's questions are looked up in the
    attached knowledge bases, successful answers being kept for the call.  The HTTP
    responses are arguments or events, times are left out, a score is the JSON number it
    came as, and the word characters of Unicode are a parameter. *)
From stdpp Require Import base list strings.
From Stdlib Require Import ZArith Lia.
From S2P Require Import Prelude Pystr Json Url Banking CallIdentity RoomNames.

Definition NL : str := [10].

(** ** Phrases *)

Definition KNOWLEDGE_ACKNOWLEDGEMENT : str := lit "Let me check that for you.".

Definition SPOKEN_KNOWLEDGE_ACKNOWLEDGEMENTS : list str := map lit
  ["One moment, please, while I confirm that."; "Okay, give me a second to check that.";
   "Let me confirm that for you."; "Sure, one moment while I look that up."]%string.

Definition spoken_knowledge_acknowledgement (turn_number : Z) : str :=
  default [] (SPOKEN_KNOWLEDGE_ACKNOWLEDGEMENTS
    !! Z.to_nat (Z.max 0 (turn_number - 1) mod Z.of_nat (length SPOKEN_KNOWLEDGE_ACKNOWLEDGEMENTS))).

(** Patterns over the words of a normalised answer: the words left after a match. *)
Definition word_is (options : list str) (ws : list str) : list (list str) :=
  match ws with w :: r => if in_strs w options then [r] else [] | [] => [] end.

Definition words (s : String.string) (ws : list str) : list (list str) :=
  let pattern := py_split (lit s) in
  if bool_decide (take (length pattern) ws = pattern) then [drop (length pattern) ws] else [].

Definition one_of (options : list String.string) (ws : list str) : list (list str) :=
  options ≫= λ o, words o ws.

(** [(?:just\s+|quickly\s+)?] *)
Definition maybe_adverb (ws : list str) : list (list str) := ws :: one_of ["just"; "quickly"]%string ws.

Definition lookup_verb : list str → list (list str) :=
  one_of ["check"; "confirm"; "verify"; "look that up"; "look this up"; "look it up"; "look up";
          "search"; "consult"; "find out"]%string.

Definition then_do (p q : list str → list (list str)) (ws : list str) : list (list str) := p ws ≫= q.

Definition matches_at (p : list str → list (list str)) (ws : list str) : bool :=
  negb (bool_decide (p ws = [])).

(** [.{0,n}]: within [n] characters a word is reached ([gap] counts those skipped so far,
    the blank before a word included). *)
Fixpoint within (n gap : Z) (p : list str → list (list str)) (ws : list str) : list (list str) :=
  match ws with
  | [] => []
  | w :: r =>
      if gap + 1 <=? n then p ws ++ within n (gap + 1 + slen w) p r else []
  end.

Definition hold_patterns : list (list str → list (list str)) :=
  [then_do (one_of ["let me"; "allow me to"]%string) (then_do maybe_adverb lookup_verb);
   then_do (one_of ["i will"; "i ll"; "i need to"; "i must"; "i am going to"; "i want to"; "i would like to"]%string)
     (then_do maybe_adverb lookup_verb);
   then_do (one_of ["i would be happy to"; "i would be glad to"; "i d be happy to"; "i d be glad to"]%string) lookup_verb;
   then_do (words "while i") (then_do maybe_adverb lookup_verb);
   then_do (one_of ["may i"; "can i"; "could i"]%string) (then_do maybe_adverb lookup_verb);
   then_do (one_of ["may i"; "can i"; "could i"]%string)
     (then_do (within 40 0 (one_of ["moment"; "second"; "minute"]%string)) (within 50 0 lookup_verb))].

Fixpoint search_words (p : list str → list (list str)) (ws : list str) : bool :=
  matches_at p ws || match ws with [] => false | _ :: r => search_words p r end.

Section agentic.
Context (word : Z → bool).

(** [re.sub(r"\b<from>\b", to, s)]; [before] tells whether a word character precedes. *)
Fixpoint replace_word (from to : str) (skip : nat) (before : bool) (s : str) : str :=
  match s with
  | [] => []
  | c :: r =>
      match skip with
      | S skip => replace_word from to skip (word c) r
      | O =>
          if starts_with from s && negb before
             && (match drop (length from) s with d :: _ => negb (word d) | [] => true end)
          then to ++ replace_word from to (length from - 1) (word c) r
          else c :: replace_word from to 0 (word c) r
      end
  end.

Definition normalized_answer (answer : str) : str :=
  let n := replace_char 8217 [39] (py_lower answer) in
  let n := replace_word (lit "i'll") (lit "i will") 0 false n in
  let n := replace_word (lit "i'd") (lit "i would") 0 false n in
  let n := replace_word (lit "i'm") (lit "i am") 0 false n in
  let n := map (λ c, if (97 <=? c) && (c <=? 122) || (48 <=? c) && (c <=? 57) || (c =? 39) || (c =? 32)
                     then c else 32) n in
  collapse_ws (List.filter (λ c, negb (c =? 39)) n).

Definition requests_knowledge_lookup (answer : str) : bool :=
  let n := normalized_answer answer in
  (n =s lit "let me check that for you") || existsb (λ p, search_words p (py_split n)) hold_patterns.
End agentic.

(** ** The runtime context *)

Record AgentRuntimeContext := mkRuntime {
  rt_business_id : str;
  rt_agent_id : str;
  rt_name : str;
  rt_end_user_id : str;
  instructions : str;
  knowledge_base_ids : list str;
  rt_tools : list dict;
  loaded : bool;
  tts_language_hint : str;
  tts_voice_id : str;
  outbound_enabled : bool;
  outbound_instructions : str;
  outbound_context_fields : list dict;
}.

(** What the banking tools read of it. *)
Definition bank_context (c : AgentRuntimeContext) : agent_context :=
  mkContext (rt_tools c) (rt_agent_id c) (rt_business_id c) (rt_end_user_id c).

Definition scoped (r : RoomAgentContext) : AgentRuntimeContext :=
  mkRuntime (room_business_id r) (room_agent_id r) (configured_name r) (room_end_user_id r)
    [] [] [] false [] [] false [] [].

Definition dicts_of (l : list json) : list dict :=
  omap (λ v, match v with JObj d => Some d | _ => None end) l.

(** The context read from the service's answer; only the loop over the outbound fields can
    raise. *)
Definition read_runtime (room : RoomAgentContext) (payload : dict) : exn AgentRuntimeContext :=
  do! fields := py_iter (jor payload.[lit "outbound_context_fields"] (JArr [])) in
  let ids := match payload.[lit "knowledge_base_ids"] with JArr l => l | _ => [] end in
  let tools := match payload.[lit "tools"] with JArr l => l | _ => [] end in
  Ok (mkRuntime (room_business_id room) (room_agent_id room)
        (str_strip (jor payload.[lit "name"] (JStr (configured_name room)))) (room_end_user_id room)
        (str_strip payload.[lit "instructions"])
        (List.filter (λ i, negb (i =s [])) (map (λ v, py_strip (py_str v)) ids)) (dicts_of tools) true
        (str_strip payload.[lit "tts_language_hint"]) (str_strip payload.[lit "tts_voice_id"])
        (is_true payload.[lit "outbound_enabled"]) (str_strip payload.[lit "outbound_instructions"])
        (dicts_of fields)).

(** The exceptions of the request that leave the call with the unloaded context. *)
Definition config_handled (e : pyexc) : bool :=
  match e with HttpError | TimeoutError | ValueError _ | RuntimeError _ => true | _ => false end.

Record http_request := mkRequest { request_url : str; request_headers : dict }.

(** The request made, if any, and the context. *)
Definition load_agent_runtime_context (base_url service_token client_id room_name : str)
    (routing_context : option RoomAgentContext) (get : http_request → exn (Z * json))
    : option http_request * exn AgentRuntimeContext :=
  let room := match routing_context with Some r => r | None => room_agent_context room_name end in
  let base := scoped room in
  if (room_business_id room =s []) || (room_agent_id room =s []) then (None, Ok base)
  else if (base_url =s []) || (service_token =s []) then (None, Ok base)
  else
    let request := mkRequest (base_url ++ lit "/v1/agents/internal/agents/" ++ room_agent_id room ++ lit "/runtime-config")
      [(lit "X-Service-Token", JStr service_token); (lit "X-Service-Name", JStr client_id);
       (lit "X-Business-ID", JStr (room_business_id room))] in
    (Some request,
     match get request with
     | Raise e => if config_handled e then Ok base else Raise e
     | Ok (code, JObj payload) => if 400 <=? code then Ok base else read_runtime room payload
     | Ok (code, _) => Ok base
     end).

(** ** Prompts *)

Definition ticket_and_mail : list str := [lit "create_ticket"; lit "send_email"; lit "email_provider_results"].

Section prompts.
Context (netloc_ok : str → bool) (check_schema : json → bool) (c : AgentRuntimeContext).

Definition tool_names : list str := map (λ t : dict, str_strip t.[lit "name"]) (rt_tools c).

(** The union of two sets, sorted. *)
Definition supported_actions (banking : list (str * dict)) : list str :=
  let configured := List.filter (λ n, in_strs n tool_names) ticket_and_mail in
  py_sorted (configured ++ List.filter (λ n, negb (in_strs n configured)) (dkeys banking)).

Definition _capability_rules : exn str :=
  do! banking := bank_records netloc_ok check_schema (bank_context c) in
  let supported := supported_actions banking in
  Ok (py_join NL
    ([lit "- Keep the spoken answer to one or two short sentences unless the caller asks for more detail."]
     ++ (match supported with
         | [] => [lit "- No action tool is enabled. Do not claim to have sent, created, changed, transferred, or completed anything."]
         | _ => [lit "- Configured action tools: " ++ py_join (lit ", ") supported ++ lit ".";
                 lit "- When the caller requests one of those actions, call the matching function. Banking reads and previews run after the final caller transcript and follow the application's session voice-verification policy. Tickets, generic send_email and prepared transaction execution require a separate confirmation turn. For email_provider_results, a committed request is sufficient to send the hospital list to the verified caller's saved email. If the caller explicitly asks for another address, pass only the address they stated; the application reads it back and requires a separate clear confirmation before sending there.";
                 lit "- Never claim an action succeeded before its function result confirms success."]
         end)
     ++ (if in_strs (lit "end_call") tool_names
         then [lit "- end_call is enabled for this live call. Use it only after the caller explicitly says goodbye, asks to end or hang up, says there is nothing else, or otherwise clearly finishes the conversation.";
               lit "- A simple thank-you is not enough by itself. Never end the call while the caller is speaking or while an answer or action is incomplete.";
               lit "- Call end_call with no arguments. The application will wait for the committed closing turn, speak one short goodbye, drain playback, and then hang up."]
         else [lit "- end_call is not enabled. Do not claim that you can hang up the call."])
     ++ [lit "- Only the configured tools are available. A prepared preview is not a completed transaction; report the returned execution status honestly."])).

(** [self.instructions.strip() or fallback] *)
Definition own_prompt (fallback : str) : str :=
  let p := py_strip (instructions c) in if p =s [] then fallback else p.

Definition base_prompt (fallback : str) : exn str :=
  if loaded c then
    do! rules := _capability_rules in
    Ok (own_prompt fallback ++ NL ++ NL ++ lit "Current RVC capability boundary:" ++ NL ++ rules)
  else Ok (own_prompt fallback).

Definition system_prompt (fallback : str) : exn str :=
  if loaded c then
    do! rules := _capability_rules in
    Ok (own_prompt fallback ++ NL ++ NL ++ lit "CRITICAL RVC KNOWLEDGE ROUTING RULE — follow this before answering:" ++ NL ++ lit "1. Answer greetings, small talk, acknowledgements, whether you can hear the caller, and facts explicitly written in this prompt directly." ++ NL
        ++ (match knowledge_base_ids c with
            | [] => lit "2. No business knowledge is attached. Never promise to check it; be transparent when a business-specific fact cannot be verified." ++ NL
            | _ => lit "2. For any bank-specific code, product, policy, fee, rate, eligibility rule, requirement, contact detail, procedure, or service detail that is not explicitly written in this prompt, do not answer from memory, inference, or general banking knowledge. Prefer this exact lookup acknowledgement: " ++ KNOWLEDGE_ACKNOWLEDGEMENT ++ NL ++ lit "3. A natural variation is allowed only if it is a brief first-person hold message that explicitly says you will check, confirm, verify, or look up the missing fact. Do not include an answer and never tell the caller to perform the check. Use a lookup acknowledgement only for case 2. The application will perform the read-only lookup after the caller's turn is final, then give you the retrieved facts for a follow-up answer. For example, a greeting or 'Can you hear me?' must be answered directly, while a question about an unstated USSD sub-code requires the exact lookup sentence." ++ NL
            end)
        ++ NL ++ rules)
  else Ok (own_prompt fallback).

Definition knowledge_followup_prompt (fallback knowledge_context : str) : exn str :=
  do! base := base_prompt fallback in
  Ok (base ++ NL ++ NL ++ lit "KNOWLEDGE RETRIEVAL IS COMPLETE. The caller has already heard a short acknowledgement. Answer the original question now using the validated context below. Do not say that you will check, do not request another lookup, and do not repeat the acknowledgement. If the context does not contain the answer, say that the information was not found and offer the appropriate official support channel." ++ NL ++ NL ++ knowledge_context).
End prompts.

(** ** Knowledge *)

Record KnowledgeMatch := mkMatch { source_name : str; match_text : str; score : json }.

Record KnowledgeResult := mkKnowledge {
  query : str;
  k_status : str;
  matches : list KnowledgeMatch;
  cache_hit : bool;
  k_error : str;
}.

Definition prompt_context (r : KnowledgeResult) : str :=
  if k_status r =s lit "success" then
    match matches r with
    | [] => lit "The scoped business knowledge search returned no matching information. Do not invent a business-specific answer."
    | l => lit "Validated business knowledge for the caller's current request:" ++ NL ++ lit "Use only relevant facts from these snippets. If they do not answer the question, say that the information was not found." ++ NL ++ py_join NL (map (λ m, lit "- " ++ source_name m ++ lit ": " ++ take 900 (match_text m)) (take 3 l))
    end
  else lit "The scoped business knowledge search was unavailable. Be transparent that the information could not be verified and do not invent it.".

(** [float(v)] of a JSON value, which keeps its text; [None] for a string that is no number. *)
Definition float_value (float_text : str → bool) (v : json) : exn json :=
  match v with
  | JInt _ | JFloat _ | JBool _ => Ok v
  | JStr s => if float_text s then Ok v else Raise (ValueError (lit "could not convert string to float"))
  | _ => Raise TypeError
  end.

(** [str(v or d)] *)
Definition str_or (v : json) (d : String.string) : str := py_str (jor v (JStr (lit d))).

Section knowledge.
Context (base_url service_token client_id : str) (top_k : nat) (ctx : AgentRuntimeContext)
  (float_text : str → bool) (describe : pyexc → str * str).

Definition availability : bool * str :=
  match knowledge_base_ids ctx with
  | [] => (false, lit "agent_has_no_attached_knowledge_bases")
  | _ => if (base_url =s []) || (service_token =s []) then (false, lit "knowledge_service_not_configured")
         else (true, lit "attached_knowledge_available_on_explicit_llm_request")
  end.

Definition normalized_query (q : str) : str := py_strip (py_join (lit " ") (py_split (py_lower q))).

Definition search_request (q : str) : http_request * dict :=
  (mkRequest (base_url ++ lit "/v1/knowledge/search")
     [(lit "Content-Type", JStr (lit "application/json")); (lit "X-Service-Token", JStr service_token);
      (lit "X-Service-Name", JStr client_id); (lit "X-Business-ID", JStr (rt_business_id ctx));
      (lit "X-Agent-ID", JStr (rt_agent_id ctx))],
   [(lit "query", JStr (py_strip q)); (lit "top_k", JInt (Z.of_nat top_k));
    (lit "knowledge_base_ids", JArr (map JStr (knowledge_base_ids ctx)))]).

Fixpoint read_matches (l : list json) : exn (list KnowledgeMatch) :=
  match l with
  | [] => Ok []
  | JObj item :: l =>
      let text := py_strip (collapse_ws (str_or_empty item.[lit "text"])) in
      if text =s [] then read_matches l
      else
        do! score := float_value float_text (jor item.[lit "score"] (JFloat (lit "0.0"))) in
        do! rest := read_matches l in
        Ok (mkMatch (py_strip (str_or item.[lit "source_name"] "Knowledge")) text score :: rest)
  | _ :: l => read_matches l
  end.

(** The matches of a response, or the exception of the request or of the reading. *)
Inductive knowledge_reply : Type :=
| Unavailable (e : pyexc)
| Answered (matches : exn (list KnowledgeMatch)).

Definition read_reply (r : exn (Z * json)) : knowledge_reply :=
  match r with
  | Raise e => Unavailable e
  | Ok (code, payload) =>
      if 400 <=? code then Unavailable (RuntimeError (lit "knowledge service returned HTTP " ++ str_of_Z code))
      else
        let raw := match payload with
                   | JObj d => match default (JArr []) (dget (lit "matches") d) with JArr l => l | _ => [] end
                   | _ => []
                   end in
        Answered (read_matches (take top_k raw))
  end.

(** ** The client: a cache, and the searches that wait for the service *)

Record client := mkClient { cache : list (str * KnowledgeResult); searches : list (option str) }.

Inductive client_event : Type :=
| Search (q : str)
| SearchReply (i : nat) (r : exn (Z * json)).

Inductive client_effect : Type :=
| Request (i : nat) (r : http_request) (body : dict)
| Return (i : nat) (result : exn KnowledgeResult).

Definition fresh_client : client := mkClient [] [].

Definition search (q : str) (s : client) : client * list client_effect :=
  let i := length (searches s) in
  match dget (normalized_query q) (cache s) with
  | Some cached =>
      (mkClient (cache s) (searches s ++ [None]),
       [Return i (Ok (mkKnowledge q (k_status cached) (matches cached) true (k_error cached)))])
  | None =>
      let '(r, body) := search_request q in
      (mkClient (cache s) (searches s ++ [Some q]), [Request i r body])
  end.

Definition search_reply (i : nat) (q : str) (r : exn (Z * json)) (s : client) : client * list client_effect :=
  let waiting := <[i := None]> (searches s) in
  match read_reply r with
  | Unavailable e =>
      (mkClient (cache s) waiting,
       [Return i (if config_handled e
                  then let '(text, name) := describe e in
                       Ok (mkKnowledge q (lit "failed") [] false (name ++ lit ": " ++ text))
                  else Raise e)])
  | Answered (Raise e) => (mkClient (cache s) waiting, [Return i (Raise e)])
  | Answered (Ok ms) =>
      let result := mkKnowledge q (lit "success") ms false [] in
      (mkClient (dset (normalized_query q) result (cache s)) waiting, [Return i (Ok result)])
  end.

Definition client_step (s : client) (e : client_event) : option (client * list client_effect) :=
  match e with
  | Search q => Some (search q s)
  | SearchReply i r =>
      match searches s !! i with
      | Some (Some q) => Some (search_reply i q r s)
      | _ => None
      end
  end.

(** ** Properties *)

Abbreviation step := client_step (only parsing).

(** Some search for [q]'s normal form was answered with success, by the service itself. *)
Definition answered_for (q : str) (outs : list client_effect) (r : KnowledgeResult) : Prop :=
  (∃ i, Return i (Ok r) ∈ outs) ∧ cache_hit r = false ∧ k_status r = lit "success"
  ∧ normalized_query (query r) = normalized_query q.

(** The cache holds, for each query, an answer of the service, and has one for every query
    that was answered. *)
Definition cache_inv (s : client) (outs : list client_effect) : Prop :=
  (∀ k r, dget k (cache s) = Some r → (∃ i, Return i (Ok r) ∈ outs) ∧ cache_hit r = false
     ∧ k_status r = lit "success" ∧ normalized_query (query r) = k)
  ∧ (∀ i r, Return i (Ok r) ∈ outs → k_status r = lit "success" →
       is_Some (dget (normalized_query (query r)) (cache s))).

Lemma cache_inv_same s outs s' o' :
  cache_inv s outs → cache s' = cache s →
  (∀ i r, Return i (Ok r) ∈ o' → k_status r = lit "success" → is_Some (dget (normalized_query (query r)) (cache s))) →
  cache_inv s' (outs ++ o').
Proof.
  intros [Hc Ho] E H. split; rewrite E.
  - intros k r Hk. destruct (Hc k r Hk) as [[i Hi] ?]. split; [|done]. exists i. rewrite elem_of_app. by left.
  - intros i r [Hi|Hi]%elem_of_app; [by eapply Ho|by eapply H].
Qed.

Lemma cache_inv_step s outs e s' o' :
  cache_inv s outs → step s e = Some (s', o') → cache_inv s' (outs ++ o').
Proof.
  intros H Hst. destruct e as [q|i r]; simpl in Hst.
  - injection Hst as Hst. unfold search in Hst. destruct (dget (normalized_query q) (cache s)) as [c|] eqn:E;
      simplify_eq/=; apply (cache_inv_same s); try done; intros j r Hin Hs; apply list_elem_of_singleton in Hin; [|done].
    injection Hin as -> ->. simpl. by rewrite E.
  - destruct (searches s !! i) as [[q|]|]; try done. injection Hst as Hst. unfold search_reply in Hst.
    destruct (read_reply r) as [e|[ms|e]]; simplify_eq/=.
    + apply (cache_inv_same s); [done..|]. intros j k Hin Hs. apply list_elem_of_singleton in Hin.
      destruct (config_handled e); [|done]. destruct (describe e). by injection Hin as -> ->.
    + destruct H as [Hc Ho]. split; simpl.
      * intros k c Hk. destruct (decide (k = normalized_query q)) as [->|Hne].
        -- rewrite dget_dset_eq in Hk. injection Hk as <-. split_and!; try done. exists i.
           rewrite elem_of_app. right. by left.
        -- rewrite dget_dset_ne in Hk by done. destruct (Hc k c Hk) as [[j Hj] ?]. split; [|done].
           exists j. rewrite elem_of_app. by left.
      * intros j c Hin Hs. destruct (decide (normalized_query (query c) = normalized_query q)) as [->|Hne];
          [by rewrite dget_dset_eq|]. rewrite dget_dset_ne by done.
        apply elem_of_app in Hin as [Hin|Hin]; [by eapply Ho|].
        apply list_elem_of_singleton in Hin. injection Hin as -> ->. by destruct Hne.
    + apply (cache_inv_same s); [done..|]. intros j k Hin. by apply list_elem_of_singleton in Hin.
Qed.

(** A question is looked up once.  Whatever searches ran and overlapped before, a query
    that the service has answered, in any spelling with the same normal form, is answered
    from the cache with the matches of such an answer and no request; a query not answered
    yet, a failed one included, asks the service. *)
Theorem knowledge_cached es s outs q :
  run step fresh_client es = Some (s, outs) →
  ((∃ i r, Return i (Ok r) ∈ outs ∧ k_status r = lit "success" ∧ normalized_query (query r) = normalized_query q) →
   ∃ r, answered_for q outs r
        ∧ (search q s).2 = [Return (length (searches s)) (Ok (mkKnowledge q (lit "success") (matches r) true (k_error r)))])
  ∧ ((¬ ∃ i r, Return i (Ok r) ∈ outs ∧ k_status r = lit "success" ∧ normalized_query (query r) = normalized_query q) →
     ∃ body, (search q s).2 = [Request (length (searches s)) (search_request q).1 body]).
Proof.
  intros Hr. assert (cache_inv s outs) as [Hc Ho].
  { revert es s outs Hr. apply (run_inv step cache_inv); [|by intros; eapply cache_inv_step].
    split; [done|]. by intros i r ?%not_elem_of_nil. }
  unfold search. split.
  - intros (i & r & Hin & Hs & Hq). destruct (Ho i r Hin Hs) as [c Hk]. rewrite Hq in Hk. rewrite Hk.
    destruct (Hc _ _ Hk) as (Hi & Hh & Hst & Hn). exists c. split; [done|]. by rewrite <-Hst.
  - intros Hno. destruct (dget (normalized_query q) (cache s)) as [c|] eqn:Hk; [|by eexists].
    destruct Hno. destruct (Hc _ _ Hk) as ([i Hi] & _ & Hst & Hn). by exists i, c.
Qed.
End knowledge.

(** ** The scope of a loaded context *)

(** An agent's configuration never moves a call to another tenant.  Whatever the room's
    name or the routing says and whatever the service answers: the context a call runs with
    is the room's business, agent and end user; it is asked for at most once, for that
    agent and on behalf of that business; and without a usable answer it grants nothing. *)
Theorem runtime_context_scope base_url service_token client_id room_name routing get r c :
  load_agent_runtime_context base_url service_token client_id room_name routing get = (r, Ok c) →
  let room := default (room_agent_context room_name) routing in
  rt_business_id c = room_business_id room ∧ rt_agent_id c = room_agent_id room
  ∧ rt_end_user_id c = room_end_user_id room
  ∧ (∀ q, r = Some q → (request_headers q).[lit "X-Business-ID"] = JStr (room_business_id room)
       ∧ contains (room_agent_id room) (request_url q) = true ∧ room_business_id room ≠ [] ∧ room_agent_id room ≠ [])
  ∧ (loaded c = true → ∃ q code payload, r = Some q ∧ get q = Ok (code, JObj payload) ∧ code < 400)
  ∧ (loaded c = false → c = scoped room).
Proof.
  unfold load_agent_runtime_context.
  replace (match routing with Some x => x | None => room_agent_context room_name end)
    with (default (room_agent_context room_name) routing) by (by destruct routing).
  set (room := default _ routing).
  destruct (_ || _) eqn:E1; [by intros [= <- <-]|]. apply orb_false_iff in E1 as [Eb%str_eqb_false Ea%str_eqb_false].
  destruct (_ || _); [by intros [= <- <-]|].
  set (q := mkRequest _ _).
  assert (∀ p, Some q = Some p → (request_headers p).[lit "X-Business-ID"] = JStr (room_business_id room)
       ∧ contains (room_agent_id room) (request_url p) = true ∧ room_business_id room ≠ [] ∧ room_agent_id room ≠ []) as Hq.
  { intros p [= <-]. split_and!; try done. simpl. apply contains_true.
    exists (base_url ++ lit "/v1/agents/internal/agents/"), (lit "/runtime-config"). by rewrite <-app_assoc. }
  destruct (get q) as [[code payload]|e] eqn:Hg.
  - destruct payload as [| | | | | |payload]; try by intros [= <- <-].
    destruct (Z.leb_spec 400 code); [by intros [= <- <-]|]. unfold read_runtime.
    destruct (py_iter _) as [fields|]; simpl; [|done]. intros [= <- <-]. simpl. split_and!; try done.
    intros _. by exists q, code, payload.
  - destruct (config_handled e); by intros [= <- <-].
Qed.

(** ** Witnesses *)

Abbreviation example_room := (mkRoomContext (lit "b1") (lit "a1") (lit "Ada") (lit "u@x.co")) (only parsing).
Abbreviation example_reply := (Ok (200, JObj [(lit "matches",
  JArr [JObj [(lit "text", JStr (lit "Open  9 to 5")); (lit "score", JFloat (lit "0.9"))]; JNull])])) (only parsing).
Abbreviation example_client := (client_step (lit "http://k") (lit "t") (lit "c") 3 (scoped example_room)
  (λ _, true) (λ _, ([], []))) (only parsing).
Abbreviation example_searches :=
  [Search (lit "When open?"); SearchReply 0 (Raise HttpError); Search (lit " when OPEN?"); SearchReply 1 example_reply]
  (only parsing).

(** The failed search is not kept, the answered one is. *)
Lemma example_searches_run : ∃ s outs, run example_client fresh_client example_searches = Some (s, outs)
  ∧ length (searches s) = 2%nat
  ∧ ∃ i r, Return i (Ok r) ∈ outs ∧ k_status r = lit "success"
           ∧ normalized_query (query r) = normalized_query (lit "When  Open?").
Proof.
  eexists _, _. split; [vm_compute; reflexivity|]. split; [reflexivity|]. eexists 1%nat, _. split.
  - do 3 (apply elem_of_cons; right). apply elem_of_cons. left. reflexivity.
  - split; vm_compute; reflexivity.
Qed.

Lemma knowledge_cached_witness :
  ∃ s outs r, run example_client fresh_client example_searches = Some (s, outs)
    ∧ (search (lit "http://k") (lit "t") (lit "c") 3 (scoped example_room) (lit "When  Open?") s).2
      = [Return 2 (Ok (mkKnowledge (lit "When  Open?") (lit "success") (matches r) true (k_error r)))].
Proof.
  destruct example_searches_run as (s & outs & Hr & Hn & Hans).
  destruct (proj1 (knowledge_cached _ _ _ _ _ _ _ _ _ _ (lit "When  Open?") Hr) Hans) as (r & _ & H).
  rewrite Hn in H. exists s, outs, r. exact (conj Hr H).
Defined.

Lemma runtime_context_scope_witness :
  ∃ r c, load_agent_runtime_context (lit "http://a") (lit "t") (lit "c") [] (Some example_room)
           (λ _, Ok (200, JObj [(lit "business_id", JStr (lit "other")); (lit "instructions", JStr (lit "Hi"))]))
         = (r, Ok c)
       ∧ loaded c = true ∧ rt_business_id c = lit "b1".
Proof.
  eexists _, _. split; [vm_compute; reflexivity|]. split; [reflexivity|].
  apply (runtime_context_scope (lit "http://a") (lit "t") (lit "c") [] (Some example_room)
    (λ _, Ok (200, JObj [(lit "business_id", JStr (lit "other")); (lit "instructions", JStr (lit "Hi"))]))
    _ _ ltac:(vm_compute; reflexivity)).
Defined.

(** Outbound fields of another JSON type than a list, null or a text escape the handlers. *)
Lemma outbound_fields_raise :
  (load_agent_runtime_context (lit "http://a") (lit "t") (lit "c") [] (Some example_room)
     (λ _, Ok (200, JObj [(lit "tools", JInt 5); (lit "outbound_context_fields", JInt 5)]))).2 = Raise TypeError.
Proof. vm_compute. reflexivity. Qed.
