(* ===== verification/Phrases.v ===== *)
(** * Phrases for the synthesiser: PhraseTokenizer of latency_lab/pipeline.py

    The model's answer arrives in pieces of any size; the tokenizer cuts it into phrases
    that can be spoken: at a full stop, or after [max_words] words.  The loop of [push] runs
    with fuel, and [push_spec] shows that the length of the buffer is enough of it. *)
From stdpp Require Import base list strings.
From Stdlib Require Import ZArith Lia.
From S2P Require Import Prelude Pystr.

(** [normalize]: lower case, only [a-z], [0-9] and the space kept, then stripped. *)
Definition normal_char (c : Z) : bool :=
  ((97 <=? c) && (c <=? 122)) || ((48 <=? c) && (c <=? 57)) || (c =? 32).
Definition normalize (text : str) : str := py_strip (List.filter normal_char (py_lower text)).

(** ** The boundary

    The pattern of [_boundary], with [re.S]: at least one character, then the first
    terminator that a quote, a blank or the end of the buffer follows. *)
Definition terminator (c : Z) : bool := existsb (Z.eqb c) [46; 33; 63].
Definition closing (c : Z) : bool := existsb (Z.eqb c) [34; 39] || is_space c.

(** [match.end()], counted from the second character on. *)
Fixpoint boundary_in (s : str) : option nat :=
  match s with
  | [] => None
  | c :: s' =>
      if terminator c then
        match s' with
        | [] => Some 1%nat
        | d :: _ => if closing d then Some 2%nat else S <$> boundary_in s'
        end
      else S <$> boundary_in s'
  end.
Definition boundary (s : str) : option nat :=
  match s with [] => None | _ :: s' => S <$> boundary_in s' end.

(** ** PhraseTokenizer *)
Record tokenizer := mkTokenizer { buffer : str; max_words : nat }.

Definition tokenizer_init : tokenizer := mkTokenizer [] 24.

(** One turn of the loop of [push]: the phrases appended and the buffer left; [None] is
    [break]. *)
Definition push_step (mw : nat) (b : str) : option (list str * str) :=
  match boundary b with
  | Some e =>
      let phrase := py_strip (take e b) in
      Some (match phrase with [] => [] | _ => [phrase] end, drop e b)
  | None =>
      let words := py_split b in
      if (mw <=? length words)%nat then
        let phrase := py_strip (py_join (lit " ") (take mw words)) in
        Some ([phrase], drop (length phrase) b)
      else None
  end.

(** [None]: the fuel ran out. *)
Fixpoint push_loop (fuel : nat) (mw : nat) (b : str) : option (list str * str) :=
  match fuel with
  | O => None
  | S fuel =>
      match push_step mw b with
      | None => Some ([], b)
      | Some (ps, b') =>
          match push_loop fuel mw b' with
          | None => None
          | Some (qs, b'') => Some (ps ++ qs, b'')
          end
      end
  end.

Definition push (t : tokenizer) (delta : str) : option (list str * tokenizer) :=
  let b := buffer t ++ delta in
  match push_loop (S (length b)) (max_words t) b with
  | None => None
  | Some (phrases, b') => Some (phrases, mkTokenizer b' (max_words t))
  end.

Definition finish (t : tokenizer) : list str * tokenizer :=
  let phrase := py_strip (buffer t) in
  (match phrase with [] => [] | _ => [phrase] end, mkTokenizer [] (max_words t)).

(** What [_stream_llm_and_tts] queues for an answer that arrives as [deltas]: the phrases of
    each piece, then those of [finish]. *)
Fixpoint phrases_of (t : tokenizer) (deltas : list str) : option (list str) :=
  match deltas with
  | [] => Some (fst (finish t))
  | d :: deltas =>
      match push t d with
      | None => None
      | Some (ps, t') =>
          match phrases_of t' deltas with None => None | Some qs => Some (ps ++ qs) end
      end
  end.

(** The text of a string: what is left of it without blanks. *)
Definition ink (s : str) : str := List.filter (λ c, negb (is_space c)) s.

(** ** Lemmas *)

Lemma ink_app s t : ink (s ++ t) = ink s ++ ink t.
Proof. apply List.filter_app. Qed.

Lemma ink_blank s : Forall (λ c, is_space c = true) s → ink s = [].
Proof. unfold ink. induction 1 as [|c s Hc _ IH]; simpl; [done|]. by rewrite Hc. Qed.

Lemma ink_id s : Forall (λ c, is_space c = false) s → ink s = s.
Proof. unfold ink. induction 1 as [|c s Hc _ IH]; simpl; [done|]. by rewrite Hc; f_equal/=. Qed.

Lemma ink_strip s : ink (py_strip s) = ink s.
Proof.
  destruct (lstrip_suffix is_space s) as (a & Ha & Hsa).
  destruct (rstrip_prefix is_space (lstrip_by is_space s)) as (z & Hz & Hsz).
  change (ink (rstrip_by is_space (lstrip_by is_space s)) = ink s).
  rewrite Ha at 2. rewrite ink_app, (ink_blank a) by done. rewrite Hz at 2.
  by rewrite ink_app, (ink_blank z), app_nil_r by done.
Qed.

Lemma length_strip s : (length (py_strip s) ≤ length s)%nat.
Proof.
  destruct (strip_by_infix is_space s) as (a & z & Heq).
  rewrite Heq at 2. rewrite !length_app. unfold py_strip. lia.
Qed.

Lemma ink_nonempty s : ink s ≠ [] → s ≠ [].
Proof. by destruct s. Qed.

Lemma ink_drop n s : sublist (ink (drop n s)) (ink s).
Proof.
  rewrite <-(take_drop n s) at 2. rewrite ink_app. by apply sublist_inserts_l.
Qed.

(** *** The boundary is the first one *)

(** The phrase may end with the character at [k]. *)
Definition ends_at (s : str) (k : nat) : bool :=
  match drop k s with
  | c :: rest => terminator c && match rest with [] => true | d :: _ => closing d end
  | [] => false
  end.

(** Where the match ends, when the phrase ends at [k]. *)
Definition match_end (s : str) (k : nat) : nat := (k + 2) `min` length s.

Lemma boundary_in_spec s :
  match boundary_in s with
  | Some e => ∃ k, e = match_end s k ∧ ends_at s k = true ∧ (∀ j, (j < k)%nat → ends_at s j = false)
  | None => ∀ k, ends_at s k = false
  end.
Proof.
  induction s as [|c s IH]; simpl; [by destruct k|].
  assert (∀ e, ends_at (c :: s) 0 = false → boundary_in s = e →
    match S <$> e with
    | Some e => ∃ k, e = match_end (c :: s) k ∧ ends_at (c :: s) k = true ∧
        (∀ j, (j < k)%nat → ends_at (c :: s) j = false)
    | None => ∀ k, ends_at (c :: s) k = false
    end) as Hskip.
  { intros e H0 <-. destruct (boundary_in s) as [e|]; simpl.
    - destruct IH as (k & -> & Hk & Hmin). exists (S k). split; [|split; [done|]].
      + unfold match_end. simpl. lia.
      + intros [|j] Hj; [done|]. apply (Hmin j). lia.
    - intros [|k]; [done|apply (IH k)]. }
  unfold ends_at in Hskip at 1. simpl in Hskip.
  destruct (terminator c) eqn:Ht; [|by apply Hskip].
  destruct s as [|d s'].
  - exists 0%nat. split; [done|]. split; [|intros; lia]. unfold ends_at; simpl. by rewrite Ht.
  - simpl in Hskip. destruct (closing d) eqn:Hd; [|by apply Hskip].
    exists 0%nat. split; [done|]. split; [|intros; lia]. unfold ends_at; simpl. by rewrite Ht, Hd.
Qed.

(** The pattern as its reference reads: the least position after the first character. *)
Lemma boundary_spec s :
  match boundary s with
  | Some e => ∃ k, (1 ≤ k)%nat ∧ e = match_end s k ∧ ends_at s k = true ∧
      (∀ j, (1 ≤ j < k)%nat → ends_at s j = false)
  | None => ∀ k, (1 ≤ k)%nat → ends_at s k = false
  end.
Proof.
  destruct s as [|c s]; simpl; [by destruct k|].
  pose proof (boundary_in_spec s) as H. destruct (boundary_in s) as [e|]; simpl.
  - destruct H as (k & -> & Hk & Hmin). exists (S k). split; [lia|]. split; [unfold match_end; simpl; lia|].
    split; [done|]. intros [|j] Hj; [lia|]. apply (Hmin j). lia.
  - intros [|k] Hk; [lia|apply (H k)].
Qed.

Lemma terminator_ink c : terminator c = true → is_space c = false.
Proof.
  unfold terminator. intros (x & Hx & ->%Z.eqb_eq)%existsb_elem_of.
  repeat (apply elem_of_cons in Hx as [->|Hx]; [by vm_compute|]). by apply not_elem_of_nil in Hx.
Qed.

Lemma ends_at_lookup s k : ends_at s k = true → ∃ c, s !! k = Some c ∧ terminator c = true.
Proof.
  unfold ends_at. pose proof (lookup_drop s k 0) as H. rewrite Nat.add_0_r in H. rewrite <-H.
  destruct (drop k s) as [|c rest]; [done|]. intros [Ht _]%andb_prop. by exists c.
Qed.

(** A match takes at least two characters and some text. *)
Lemma boundary_ink s e :
  boundary s = Some e → (2 ≤ e ≤ length s)%nat ∧ ink (take e s) ≠ [].
Proof.
  intros He. pose proof (boundary_spec s) as H. rewrite He in H.
  destruct H as (k & Hk & -> & (c & Hc & Ht)%ends_at_lookup & _).
  pose proof (lookup_lt_Some _ _ _ Hc). unfold match_end. split; [lia|].
  assert (In c (ink (take ((k + 2) `min` length s) s))) as Hin.
  { apply List.filter_In. split; [|by rewrite terminator_ink].
    apply list_elem_of_In, (list_elem_of_lookup_2 _ k).
    rewrite lookup_take. by case_decide; [|lia]. }
  intros E. by rewrite E in Hin.
Qed.

(** *** The words of a buffer *)

(** The first [n] words end within the buffer, after at least the length they have when
    joined by single blanks. *)
Lemma words_by_prefix cur s n :
  Forall (λ c, is_space c = false) cur →
  (0 < n ≤ length (words_by is_space cur s))%nat →
  ∃ pre rest, s = pre ++ rest ∧ List.rev cur ++ ink pre = mjoin (take n (words_by is_space cur s)) ∧
    words_by is_space cur pre = take n (words_by is_space cur s) ∧
    (length (py_join (lit " ") (take n (words_by is_space cur s))) ≤ length cur + length pre)%nat.
Proof.
  revert cur n. induction s as [|c s IH]; intros cur n Hcur Hn; simpl in *.
  { destruct cur as [|d cur]; simpl in Hn; [lia|]. exists [], [].
    assert (n = 1%nat) as -> by lia. simpl. rewrite !app_nil_r, length_app, length_rev. simpl.
    split; [done|]. split; [done|]. split; [done|]. lia. }
  destruct (is_space c) eqn:Hc.
  - assert (∀ pre : str, ink (c :: pre) = ink pre) as Hink.
    { intros pre. unfold ink. simpl. by rewrite Hc. }
    destruct cur as [|d cur].
    + destruct (IH [] n Hcur Hn) as (pre & rest & -> & Hi & Hw & Hl). exists (c :: pre), rest.
      split; [done|]. rewrite Hink. split; [done|]. split; [by cbn; rewrite Hc|]. simpl in *. lia.
    + destruct n as [|[|n]]; simpl in Hn; [lia| |].
      * exists [], (c :: s). simpl. rewrite !app_nil_r, length_app, length_rev. simpl.
        split; [done|]. split; [done|]. split; [done|]. lia.
      * destruct (IH [] (S n) (Forall_nil_2 _)) as (pre & rest & -> & Hi & Hws & Hl); [lia|].
        exists (c :: pre), rest. rewrite Hink. simpl in Hi. split; [done|].
        set (w := List.rev (d :: cur)) in *. assert (length w = S (length cur)) as Hw
          by (unfold w; by rewrite length_rev).
        change (take (S (S n)) (w :: words_by is_space [] (pre ++ rest))) with
          (w :: take (S n) (words_by is_space [] (pre ++ rest))). split.
        { rewrite Hi. done. }
        split; [by cbn [words_by]; rewrite Hc, Hws|].
        assert (∀ ws, length (py_join (lit " ") (w :: ws)) ≤
          length w + 1 + length (py_join (lit " ") ws))%nat as Hj.
        { intros [|x ws]; simpl; rewrite ?length_app; simpl; lia. }
        etransitivity; [apply Hj|]. simpl length in *. lia.
  - assert (∀ pre : str, ink (c :: pre) = c :: ink pre) as Hink.
    { intros pre. unfold ink. simpl. by rewrite Hc. }
    destruct (IH (c :: cur) n) as (pre & rest & -> & Hi & Hw & Hl); [by constructor|done|].
    exists (c :: pre), rest. split; [done|]. rewrite Hink.
    simpl in Hi. rewrite <-Hi, <-app_assoc. split; [done|]. split; [by cbn; rewrite Hc|]. simpl in *. lia.
Qed.

Lemma py_split_prefix s n :
  (0 < n ≤ length (py_split s))%nat →
  ∃ pre rest, s = pre ++ rest ∧ ink pre = mjoin (take n (py_split s)) ∧ py_split pre = take n (py_split s) ∧
    (length (py_join (lit " ") (take n (py_split s))) ≤ length pre)%nat.
Proof. intros Hn. apply (words_by_prefix [] s n); [done|apply Hn]. Qed.

Lemma ink_join ws :
  (∀ w, w ∈ ws → Forall (λ c, is_space c = false) w) → ink (py_join (lit " ") ws) = mjoin ws.
Proof.
  induction ws as [|w ws IH]; intros H; [done|].
  assert (ink w = w) as Hw by (apply ink_id, H; by left).
  destruct ws as [|x ws]; [simpl; by rewrite Hw, app_nil_r|].
  change (py_join (lit " ") (w :: x :: ws)) with (w ++ lit " " ++ py_join (lit " ") (x :: ws)).
  rewrite !ink_app, Hw, IH; [done|]. intros y Hy. apply H. by right.
Qed.

(** The words of blanks around a text, of a trimmed text and of words joined by blanks. *)
Lemma words_by_blank_end cur s z :
  Forall (λ c, is_space c = true) z → words_by is_space cur (s ++ z) = words_by is_space cur s.
Proof.
  intros Hz. assert (words_by is_space [] z = []) as H0 by
    (induction Hz as [|c z Hc _ IH]; simpl; [done|by rewrite Hc]).
  assert (∀ u, words_by is_space u z = words_by is_space u []) as Hend.
  { intros [|d u]; [done|]. destruct Hz as [|c z Hc Hz]; [done|]. cbn [words_by]. rewrite Hc.
    cbn [words_by] in H0. rewrite Hc in H0. by rewrite H0. }
  revert cur. induction s as [|c s IH]; intros cur; [apply Hend|]. cbn [app words_by].
  by rewrite !IH.
Qed.

Lemma py_split_blank_start a s :
  Forall (λ c, is_space c = true) a → py_split (a ++ s) = py_split s.
Proof. unfold py_split. induction 1 as [|c a Hc _ IH]; [done|]. cbn [app words_by]. by rewrite Hc. Qed.

Lemma py_split_strip s : py_split (py_strip s) = py_split s.
Proof.
  destruct (lstrip_suffix is_space s) as (a & Ha & Hsa).
  destruct (rstrip_prefix is_space (lstrip_by is_space s)) as (z & Hz & Hsz).
  change (py_split (rstrip_by is_space (lstrip_by is_space s)) = py_split s).
  rewrite Ha at 2. rewrite py_split_blank_start by done. rewrite Hz at 2.
  unfold py_split. by rewrite words_by_blank_end.
Qed.

Lemma words_by_word cur w s :
  Forall (λ c, is_space c = false) w → words_by is_space cur (w ++ s) = words_by is_space (List.rev w ++ cur) s.
Proof.
  intros Hw. revert cur. induction Hw as [|c w Hc _ IH]; intros cur; [done|].
  cbn [app words_by List.rev]. by rewrite Hc, IH, <-app_assoc.
Qed.

Lemma py_split_join ws :
  (∀ w, w ∈ ws → w ≠ [] ∧ Forall (λ c, is_space c = false) w) → py_split (py_join (lit " ") ws) = ws.
Proof.
  induction ws as [|w ws IH]; intros H; [done|].
  destruct (H w) as [Hne Hw]; [by left|].
  assert (∀ v, words_by is_space (List.rev w ++ []) (32 :: v) = w :: words_by is_space [] v) as Hsep.
  { intros v. rewrite app_nil_r. cbn [words_by]. change (is_space 32) with true.
    destruct (List.rev w) as [|d u] eqn:E; [|by rewrite <-E, List.rev_involutive].
    by apply (f_equal (@List.rev Z)) in E; rewrite List.rev_involutive in E. }
  destruct ws as [|x ws].
  - change (py_join (lit " ") [w]) with w. rewrite <-(app_nil_r w) at 1. unfold py_split.
    rewrite words_by_word by done. pose proof (words_by_blank_end (List.rev w ++ []) [] [32]) as Hend.
    rewrite <-Hend by (by constructor). apply Hsep.
  - change (py_join (lit " ") (w :: x :: ws)) with (w ++ 32 :: py_join (lit " ") (x :: ws)).
    unfold py_split. rewrite words_by_word by done. rewrite Hsep. f_equal. apply IH. intros y Hy. apply H. by right.
Qed.

(** Fewer words in what follows a prefix. *)
Lemma words_by_drop1 cur s : (length (words_by is_space [] s) ≤ length (words_by is_space cur s))%nat.
Proof.
  revert cur. induction s as [|c s IH]; intros [|d cur]; simpl; try lia.
  destruct (is_space c) eqn:Hc; [simpl; lia|].
  assert (∀ u v t, (u ≠ [] ↔ v ≠ []) → length (words_by is_space u t) = length (words_by is_space v t)) as Heq.
  { clear. intros u v t. revert u v. induction t as [|c t IH]; intros u v Huv; simpl.
    - destruct u, v; naive_solver.
    - destruct (is_space c); [|by apply IH].
      destruct u, v; simpl; naive_solver. }
  rewrite (Heq [c] (c :: d :: cur)); [done|naive_solver].
Qed.

Lemma py_split_drop n s : (length (py_split (drop n s)) ≤ length (py_split s))%nat.
Proof.
  revert s. induction n as [|n IH]; intros [|c s]; simpl; try done.
  etransitivity; [apply IH|]. unfold py_split. simpl.
  destruct (is_space c); [done|apply words_by_drop1].
Qed.

(** *** The loop *)

(** A phrase that can be spoken: trimmed text. *)
Definition spoken (p : str) : Prop := p ≠ [] ∧ py_strip p = p.

Lemma spoken_strip s : ink s ≠ [] → spoken (py_strip s).
Proof. intros H. split; [|apply py_strip_idem]. apply ink_nonempty. by rewrite ink_strip. Qed.

Lemma strip_case s : ink s ≠ [] → (match py_strip s with [] => [] | _ => [py_strip s] end) = [py_strip s].
Proof. intros H. destruct (spoken_strip s H) as [Hne _]. by destruct (py_strip s). Qed.

(** One turn appends one phrase, shortens the buffer and loses no text; a turn that found a
    boundary repeats none either. *)
Lemma push_step_spec mw b :
  (0 < mw)%nat →
  match push_step mw b with
  | Some (ps, b') => ∃ p, ps = [p] ∧ spoken p ∧ (length b' < length b)%nat ∧
      sublist (ink b) (ink p ++ ink b') ∧
      (length (py_split b') ≤ length (py_split b))%nat ∧
      ((length (py_split b) < mw)%nat → ink b = ink p ++ ink b')
  | None => boundary b = None ∧ (length (py_split b) < mw)%nat
  end.
Proof.
  intros Hmw. unfold push_step. destruct (boundary b) as [e|] eqn:He.
  - apply boundary_ink in He as [He Hink]. rewrite strip_case by done.
    exists (py_strip (take e b)). rewrite ink_strip, length_drop, <-ink_app, take_drop.
    split; [done|]. split; [by apply spoken_strip|]. split; [lia|]. split; [done|].
    split; [apply py_split_drop|done].
  - destruct (Nat.leb_spec mw (length (py_split b))) as [Hle|]; [|done].
    destruct (py_split_prefix b mw) as (pre & rest & Hb & Hpre & Hwords & Hlen); [lia|].
    set (j := py_join (lit " ") (take mw (py_split b))) in *.
    assert (ink j = ink pre) as Hj.
    { rewrite Hpre. apply ink_join. intros w Hw. apply (py_split_clean b).
      by eapply elem_of_take in Hw as (i & Hw%list_elem_of_lookup_2 & _). }
    assert (ink j ≠ []) as Hne.
    { rewrite Hj, Hpre. destruct (py_split b) as [|w ws] eqn:Hs; [simpl in Hle; lia|].
      destruct mw as [|mw]; [lia|]. simpl. intros [Hw _]%app_eq_nil.
      destruct (py_split_clean b w) as [Hw' _]; [rewrite Hs; by left|done]. }
    pose proof (length_strip j) as Hsj. pose proof (spoken_strip j Hne) as Hsp.
    exists (py_strip j). split; [done|]. split; [done|]. split.
    { destruct Hsp as [Hp _]. rewrite length_drop.
      assert (length (py_strip j) ≠ 0)%nat by (by destruct (py_strip j)).
      rewrite Hb, length_app. lia. }
    split; [|split; [apply py_split_drop|lia]].
    rewrite Hb at 1. rewrite Hb at 1. rewrite ink_app, ink_strip, Hj.
    apply sublist_app; [done|]. rewrite drop_app_le by lia. rewrite ink_app.
    by apply sublist_inserts_l.
Qed.

(** The phrases of one call, and the buffer it leaves. *)
Definition pushed (mw : nat) (b : str) (ps : list str) (b' : str) : Prop :=
  Forall spoken ps ∧ boundary b' = None ∧ (length (py_split b') < mw)%nat ∧
  sublist (ink b) (mjoin (ink <$> ps) ++ ink b') ∧
  ((length (py_split b) < mw)%nat → ink b = mjoin (ink <$> ps) ++ ink b').

Lemma push_loop_spec fuel mw b :
  (0 < mw)%nat → (length b < fuel)%nat →
  ∃ ps b', push_loop fuel mw b = Some (ps, b') ∧ pushed mw b ps b'.
Proof.
  intros Hmw. revert b. induction fuel as [|fuel IH]; intros b Hf; [lia|]. simpl.
  pose proof (push_step_spec mw b Hmw) as H. destruct (push_step mw b) as [[ps b']|].
  - destruct H as (p & -> & Hp & Hl & Hsub & Hw & Heq).
    destruct (IH b') as (qs & b'' & -> & Hqs & Hb & Hwb & Hsub' & Heq'); [lia|].
    exists ([p] ++ qs), b''. split; [done|]. split; [by constructor|]. split; [done|]. split; [done|].
    simpl. rewrite <-app_assoc. split.
    + etransitivity; [exact Hsub|]. by apply sublist_app.
    + intros Hlt. rewrite (Heq Hlt). f_equal. apply Heq'. lia.
  - destruct H as [Hb Hw]. exists [], b. split; [done|]. by repeat split.
Qed.

(** ** The phrases of an answer *)

(** The phrases speak a text: each has the words of a stretch of it, and after a phrase of [mw]
    words the text left is what is longer than the phrase. *)
Inductive speaks (mw : nat) : str → list str → Prop :=
| speaks_end b : ink b = [] → speaks mw b []
| speaks_cut pre rest p ps :
    spoken p → py_split p = py_split pre → speaks mw rest ps → speaks mw (pre ++ rest) (p :: ps)
| speaks_limit pre rest p ps :
    spoken p → py_split p = py_split pre → length (py_split p) = mw → (length p ≤ length pre)%nat →
    speaks mw (drop (length p) pre ++ rest) ps → speaks mw (pre ++ rest) (p :: ps).

Lemma push_step_speaks mw b ps b' more qs :
  (0 < mw)%nat → push_step mw b = Some (ps, b') →
  speaks mw (b' ++ more) qs → speaks mw (b ++ more) (ps ++ qs).
Proof.
  intros Hmw E Hqs. pose proof (push_step_spec mw b Hmw) as H. rewrite E in H.
  destruct H as (p & -> & Hp & _). unfold push_step in E. destruct (boundary b) as [e|].
  - assert (p = py_strip (take e b)) as -> by (destruct (py_strip (take e b)); congruence).
    assert (b' = drop e b) as -> by congruence. rewrite <-(take_drop e b) at 1. rewrite <-app_assoc.
    apply speaks_cut; [done|apply py_split_strip|done].
  - destruct (Nat.leb_spec mw (length (py_split b))) as [Hle|]; [|done].
    destruct (py_split_prefix b mw) as (pre & rest & Hb & _ & Hwords & Hlen); [lia|].
    set (j := py_join (lit " ") (take mw (py_split b))) in *. injection E as <- <-.
    pose proof (length_strip j) as Hsj.
    assert (py_split (py_strip j) = take mw (py_split b)) as Hj.
    { rewrite py_split_strip. apply py_split_join. intros w (i & Hw%list_elem_of_lookup_2 & _)%elem_of_take.
      by apply py_split_clean in Hw. }
    rewrite Hb in Hqs |- * at 1. rewrite drop_app_le in Hqs by lia. rewrite <-app_assoc in Hqs |- *.
    apply speaks_limit; [done|congruence|rewrite Hj, length_take; lia|lia|done].
Qed.

Lemma push_loop_speaks fuel mw b ps b' more qs :
  (0 < mw)%nat → push_loop fuel mw b = Some (ps, b') →
  speaks mw (b' ++ more) qs → speaks mw (b ++ more) (ps ++ qs).
Proof.
  intros Hmw. revert b ps. induction fuel as [|fuel IH]; intros b ps; [done|]. simpl.
  destruct (push_step mw b) as [[ps1 b1]|] eqn:E; [|by intros [= <- <-]].
  destruct (push_loop fuel mw b1) as [[ps2 b2]|] eqn:E2; [|done]. intros [= <- ->] Hqs.
  rewrite <-app_assoc. eapply push_step_speaks; [done..|]. by apply IH.
Qed.

Lemma push_speaks t delta ps t' more qs :
  (0 < max_words t)%nat → push t delta = Some (ps, t') →
  speaks (max_words t) (buffer t' ++ more) qs → speaks (max_words t) ((buffer t ++ delta) ++ more) (ps ++ qs).
Proof.
  intros Hmw. unfold push. destruct (push_loop _ _ _) as [[ps' b']|] eqn:E; [|done]. intros [= <- <-].
  by apply (push_loop_speaks _ _ _ _ _ _ _ Hmw E).
Qed.

Lemma finish_spec t :
  Forall spoken (fst (finish t)) ∧ speaks (max_words t) (buffer t) (fst (finish t)) ∧
  sublist (ink (buffer t)) (mjoin (ink <$> fst (finish t))).
Proof.
  unfold finish. cbn [fst]. rewrite <-ink_strip. pose proof (py_strip_idem (buffer t)) as Hid.
  pose proof (py_split_strip (buffer t)) as Hs. pose proof (ink_strip (buffer t)) as Hi.
  destruct (py_strip (buffer t)) as [|c s]; [by split; [|split; [apply speaks_end|]]|].
  assert (spoken (c :: s)) as Hsp by done. split; [by constructor|]. split.
  - rewrite <-(app_nil_r (buffer t)). by apply speaks_cut; [| |apply speaks_end].
  - cbn [fmap list_fmap mjoin list_join]. by rewrite app_nil_r.
Qed.

(** ** Theorems *)

(** C22: Pushing a piece always ends; every phrase it yields is trimmed text, no boundary and
    fewer than [max_words] words stay behind, and no text is lost.  As long as a clause stays
    below the limit nothing is spoken twice either. *)
Theorem push_spec t delta :
  (0 < max_words t)%nat →
  ∃ ps t', push t delta = Some (ps, t') ∧ max_words t' = max_words t ∧
    pushed (max_words t) (buffer t ++ delta) ps (buffer t').
Proof.
  intros Hmw. unfold push.
  destruct (push_loop_spec (S (length (buffer t ++ delta))) (max_words t) (buffer t ++ delta))
    as (ps & b' & -> & H); [done|lia|].
  by exists ps, (mkTokenizer b' (max_words t)).
Qed.

Lemma push_spec_witness :
  ∃ ps t', push tokenizer_init (lit "Hello there. Your balance is ") = Some (ps, t') ∧
    max_words t' = max_words tokenizer_init ∧
    pushed (max_words tokenizer_init) (buffer tokenizer_init ++ lit "Hello there. Your balance is ")
      ps (buffer t').
Proof.
  apply (push_spec tokenizer_init (lit "Hello there. Your balance is ")).
  apply Nat.ltb_lt. reflexivity.
Defined.

(** C12: Whatever the pieces an answer arrives in, all of it reaches the synthesiser, in its
    order and word by word: every phrase has exactly the words of the stretch of the answer that it is cut
    from, and the next stretch begins where that one ends; only after a cut at the word limit it may
    begin earlier, by as much as the stretch is longer than the phrase.  No character is lost: the
    text of the answer is a subsequence of the text of the phrases. *)
Theorem answer_spoken t deltas :
  (0 < max_words t)%nat →
  ∃ ps, phrases_of t deltas = Some ps ∧ Forall spoken ps ∧
    speaks (max_words t) (buffer t ++ mjoin deltas) ps ∧
    sublist (ink (buffer t ++ mjoin deltas)) (mjoin (ink <$> ps)).
Proof.
  revert t. induction deltas as [|d deltas IH]; intros t Hmw; cbn [phrases_of].
  - cbn [mjoin list_join]. rewrite app_nil_r. exists (fst (finish t)). by destruct (finish_spec t) as (? & ? & ?).
  - destruct (push_spec t d Hmw) as (ps & t' & Hpush & Ht' & Hps & _ & _ & Hsub & _). rewrite Hpush.
    destruct (IH t') as (qs & -> & Hqs & Hsp & Hsub'); [by rewrite Ht'|].
    exists (ps ++ qs). split; [done|]. split; [by apply Forall_app|].
    cbn [mjoin list_join]. rewrite app_assoc. split.
    { rewrite Ht' in Hsp. by eapply push_speaks. }
    rewrite ink_app, fmap_app, join_app. rewrite ink_app in Hsub'.
    etransitivity; [by apply sublist_app|]. rewrite <-app_assoc. by apply sublist_app.
Qed.

Lemma answer_spoken_witness :
  ∃ ps, phrases_of tokenizer_init [lit "Hel"; lit "lo. How a"; lit "re you?"] = Some ps ∧
    Forall spoken ps ∧
    speaks (max_words tokenizer_init) (buffer tokenizer_init ++ mjoin [lit "Hel"; lit "lo. How a"; lit "re you?"]) ps ∧
    sublist (ink (buffer tokenizer_init ++ mjoin [lit "Hel"; lit "lo. How a"; lit "re you?"]))
      (mjoin (ink <$> ps)).
Proof.
  apply (answer_spoken tokenizer_init [lit "Hel"; lit "lo. How a"; lit "re you?"]).
  apply Nat.ltb_lt. reflexivity.
Defined.

(** ** Examples *)

Example example_phrases :
  phrases_of tokenizer_init [lit "Hel"; lit "lo. How a"; lit "re you?"] =
  Some [lit "Hello."; lit "How are you?"].
Proof. by vm_compute. Qed.

(** A limit of 0 would never let [push] return. *)
Lemma push_zero_diverges fuel b : push_loop fuel 0 b = None.
Proof.
  revert b. induction fuel as [|fuel IH]; intros b; [done|]. simpl.
  unfold push_step. destruct (boundary b); simpl; by rewrite IH.
Qed.

(** A number is cut after its point when the piece ends there. *)
Example example_number_cut :
  phrases_of tokenizer_init [lit "It is 3."; lit "5 percent"] = Some [lit "It is 3."; lit "5 percent"].
Proof. by vm_compute. Qed.

(** After a cut at [max_words] the buffer keeps the blank before the next word, and the cut
    by the length of the joined words is then one character short: in a clause of twice the
    limit the last character of a word is spoken again. *)
Example long_clause_repeats :
  phrases_of (mkTokenizer [] 3) [lit "please hold the line for me"] =
  Some [lit "please hold the"; lit "line for me"; lit "e"].
Proof. by vm_compute. Qed.

Example long_clause_repeats_default :
  let words := py_join (lit " ") (replicate 48 (lit "word")) in
  phrases_of tokenizer_init [words] =
  Some [py_join (lit " ") (replicate 24 (lit "word")); py_join (lit " ") (replicate 24 (lit "word")); lit "d"].
Proof. by vm_compute. Qed.

(** The cut at the word limit does not wait for the rest of a word that arrives in pieces. *)
Example streamed_word_cut :
  phrases_of (mkTokenizer [] 3) [lit "please hold th"; lit "e line"] =
  Some [lit "please hold th"; lit "e line"].
Proof. by vm_compute. Qed.
