(* ===== verification/Coroutines.v ===== *)
(** * Coroutines of one event loop

    The turn pipeline is a set of [asyncio] tasks over one shared object.  A coroutine is the
    tree of what it does up to its end: it reads and writes the shared state, gives effects
    out, starts and cancels tasks, and suspends.  Between two suspensions nothing else runs.
    A loop that suspends in each round is a node [Again]: its label says which loop it is and
    where it stands, and [resume] is its body; such a wait always suspends, also where the
    source finds its answer ready and goes on at once, which only adds schedules.  The pool of tasks is a machine (Prelude.v):
    an event lets one suspended task go on, so a list of events is a schedule together with
    all answers from outside.

    What the loop's first task gives out before it returns is read off its code ([marked]).
    The second half is the logic in which programs on the loop are verified: an invariant [I]
    that holds whenever a task suspends; for each task [t] a relation [G t] that all its
    writes respect and a relation [R t] that covers what the others do, so that a task may
    keep what it knew if [R t] preserves it; and a condition [legal] on each effect, given
    everything that happened before it.  Task 0 may be the one the loop begins with, so that
    [R 0] can tell it from the others. *)
From stdpp Require Import base list gmap.
From Stdlib Require Import ZArith Lia.
From S2P Require Import Prelude.

Abbreviation tid := nat (only parsing).

Section coroutines.
(** The shared state, the effects, what is awaited from outside, its answers, the loops. *)
Context {St Out W V L : Type} (unit_answer : V).

(** What a suspended task waits for. *)
Inductive wait : Type :=
| WIo (w : W) (** an answer from outside the loop *)
| WUntil (c : St → bool) (** an event, a queue or a lock of the shared state *)
| WTask (t : tid) (** [await task]: its result or its exception *)
| WAll (ts : list tid) (** [gather] of tasks, with [return_exceptions=True] *)
| WGather (ts : list tid) (** [gather] of tasks: the first exception ends the wait *)
| WAny (ts : list tid). (** [wait(.., FIRST_COMPLETED)], then [result()] of those done *)

Inductive co : Type :=
| Done (** [return] *)
| Throw (e : pyexc)
| Get (k : St → co)
| Self (k : tid → co) (** [asyncio.current_task()] *)
| Put (s : St) (k : co)
| Emit (o : Out) (k : co)
| Await (w : wait) (k : V → co) (h : pyexc → co)
| Again (w : wait) (l : L) (k : V → co) (h : pyexc → co)
| Spawn (p : co) (k : tid → co) (** [create_task] *)
| Cancel (t : tid) (k : co). (** [task.cancel()] *)

(** The body of a loop, from its suspension on: the answer, what follows the loop, and the
    handler around it. *)
Context (resume : L → exn V → (V → co) → (pyexc → co) → co).

(** Where a suspended task goes on. *)
Inductive frame : Type :=
| FAwait (k : V → co) (h : pyexc → co)
| FAgain (l : L) (k : V → co) (h : pyexc → co).

Inductive task : Type :=
| Fresh (p : co) (cancelled : bool)
| Parked (w : wait) (f : frame) (cancelled : bool).

Record loop := mkLoop {
  shared : St;
  tasks : gmap tid task;
  results : gmap tid (exn unit); (** of the tasks that ended *)
  fresh_tid : tid;
}.

Definition loop_init (s : St) : loop := mkLoop s ∅ ∅ 0.

(** A loop that begins with the task [p], number 0. *)
Definition loop_start (s : St) (p : co) : loop := mkLoop s {[0%nat := Fresh p false]} ∅ 1.

Definition set_shared (s : St) (c : loop) : loop := mkLoop s (tasks c) (results c) (fresh_tid c).
Definition set_tasks (ts : gmap tid task) (c : loop) : loop :=
  mkLoop (shared c) ts (results c) (fresh_tid c).

Definition ended (t : tid) (c : loop) : bool := bool_decide (is_Some (results c !! t)).

(** The result of a task, once. *)
Definition end_task (t : tid) (r : exn unit) (c : loop) : loop :=
  mkLoop (shared c) (delete t (tasks c)) (<[t := r]> (results c)) (fresh_tid c).

Definition failure (t : tid) (c : loop) : option pyexc :=
  match results c !! t with Some (Raise e) => Some e | _ => None end.

(** May the awaiting task go on? *)
Definition ready (w : wait) (c : loop) : bool :=
  match w with
  | WIo _ => true
  | WUntil b => b (shared c)
  | WTask t => ended t c
  | WAll ts => forallb (λ t, ended t c) ts
  | WGather ts =>
      forallb (λ t, ended t c) ts || existsb (λ t, bool_decide (is_Some (failure t c))) ts
  | WAny ts => existsb (λ t, ended t c) ts
  end.

(** Nothing to suspend for: a set event, a task that has ended, a [gather] of nothing. *)
Definition immediate (w : wait) (c : loop) : bool :=
  match w with
  | WIo _ | WAny _ => false
  | WUntil b => b (shared c)
  | WTask t => ended t c
  | WAll ts | WGather ts => match ts with [] => true | _ => false end
  end.

(** What the wait yields when it is over; [a] is the answer from outside. *)
Definition outcome (w : wait) (a : exn V) (c : loop) : exn V :=
  match w with
  | WIo _ => a
  | WTask t => match failure t c with Some e => Raise e | None => Ok unit_answer end
  | WGather ts | WAny ts =>
      match first_some (λ t, failure t c) ts with Some e => Raise e | None => Ok unit_answer end
  | _ => Ok unit_answer
  end.

Definition go_on (f : frame) (a : exn V) : co :=
  match f with
  | FAwait k h => match a with Ok v => k v | Raise e => h e end
  | FAgain l k h => resume l a k h
  end.

Definition gathered (w : wait) : option (list tid) :=
  match w with WAll ts | WGather ts => Some ts | _ => None end.

(** [task.cancel()]: a task that awaits others hands the request on to them; [fuel] bounds
    the chain of awaiting tasks. *)
Fixpoint cancel (fuel : nat) (t : tid) (c : loop) : loop :=
  match tasks c !! t with
  | None => c
  | Some (Fresh p _) => set_tasks (<[t := Fresh p true]> (tasks c)) c
  | Some (Parked w f b) =>
      let flagged := set_tasks (<[t := Parked w f true]> (tasks c)) c in
      match fuel with
      | O => flagged
      | S fuel =>
          match w with
          | WTask u => cancel fuel u c
          | WAll us | WGather us => foldr (cancel fuel) flagged us
          | _ => flagged
          end
      end
  end.

(** Task [t] runs until it suspends or ends. *)
Fixpoint exec (t : tid) (p : co) (c : loop) : loop * list Out :=
  match p with
  | Done => (end_task t (Ok tt) c, [])
  | Throw e => (end_task t (Raise e) c, [])
  | Get k => exec t (k (shared c)) c
  | Self k => exec t (k t) c
  | Put s k => exec t k (set_shared s c)
  | Emit o k => let (c', os) := exec t k c in (c', o :: os)
  | Await w k h =>
      if immediate w c then
        match outcome w (Ok unit_answer) c with
        | Ok v => exec t (k v) c
        | Raise e => exec t (h e) c
        end
      else (set_tasks (<[t := Parked w (FAwait k h) false]> (tasks c)) c, [])
  | Again w l k h => (set_tasks (<[t := Parked w (FAgain l k h) false]> (tasks c)) c, [])
  | Spawn q k =>
      let n := fresh_tid c in
      exec t (k n) (mkLoop (shared c) (<[n := Fresh q false]> (tasks c)) (results c) (S n))
  | Cancel u k => exec t k (cancel (size (tasks c)) u c)
  end.

(** An event: a call from outside starts a task and runs it; a task goes on. *)
Inductive event {C : Type} : Type :=
| Call (call : C)
| Step (t : tid) (answer : exn V).
Arguments event : clear implicits.

Context {C : Type} (body : C → co) (accepts : W → exn V → bool).

(** The answer a wait can get. *)
Definition fits (w : wait) (a : exn V) : bool :=
  match w with WIo w => accepts w a | _ => true end.

Definition step (c : loop) (e : event C) : option (loop * list Out) :=
  match e with
  | Call call =>
      let n := fresh_tid c in
      Some (exec n (body call) (mkLoop (shared c) (tasks c) (results c) (S n)))
  | Step t a =>
      match tasks c !! t with
      | None => None
      | Some (Fresh p cancelled) =>
          let c := set_tasks (delete t (tasks c)) c in
          if cancelled then Some (end_task t (Raise CancelledError) c, [])
          else Some (exec t p c)
      | Some (Parked w f cancelled) =>
          let waits_for_all := bool_decide (is_Some (gathered w)) in
          if cancelled && negb waits_for_all then
            Some (exec t (go_on f (Raise CancelledError)) (set_tasks (delete t (tasks c)) c))
          else if ready w c && fits w a then
            let a := if cancelled then Raise CancelledError else outcome w a c in
            Some (exec t (go_on f a) (set_tasks (delete t (tasks c)) c))
          else None
      end
  end.

(** ** Cancelling *)

(** Cancelling only sets flags. *)
Lemma cancel_shared fuel t c : shared (cancel fuel t c) = shared c.
Proof.
  revert t c. induction fuel as [|fuel IH]; intros t c; simpl;
    destruct (tasks c !! t) as [[p b|w f b]|]; try done.
  assert (∀ c us, shared (foldr (cancel fuel) c us) = shared c) as Hf.
  { intros c' us. induction us as [|u us IHus]; simpl; [done|]. by rewrite IH, IHus. }
  destruct w; simpl; rewrite ?Hf, ?IH; done.
Qed.

(** A task with or without the flag that [cancel] sets. *)
Definition same_code (u v : task) : Prop :=
  match u, v with
  | Fresh p _, Fresh q _ => p = q
  | Parked w f _, Parked w' f' _ => w = w' ∧ f = f'
  | _, _ => False
  end.

Definition flagged (c c' : loop) : Prop :=
  fresh_tid c' = fresh_tid c ∧
  ∀ t v, tasks c' !! t = Some v → ∃ u, tasks c !! t = Some u ∧ same_code u v.

Lemma flagged_refl c : flagged c c.
Proof. split; [done|]. intros t v Hv. exists v. split; [done|]. by destruct v. Qed.

Lemma flagged_trans c c' c'' : flagged c c' → flagged c' c'' → flagged c c''.
Proof.
  intros [Hf Hc] [Hf' Hc']. split; [congruence|]. intros t v Hv. apply Hc' in Hv as (u & Hu & Huv).
  apply Hc in Hu as (u' & Hu' & Hu'u). exists u'. split; [done|].
  destruct u', u, v; simpl in *; naive_solver congruence.
Qed.

Lemma flag_ok t u v c :
  tasks c !! t = Some u → same_code u v → flagged c (set_tasks (<[t := v]> (tasks c)) c).
Proof.
  intros Hu Huv. split; [done|]. intros t' v' Hv'. simpl in Hv'.
  apply lookup_insert_Some in Hv' as [[<- <-]|[_ Hv']]; [by exists u|]. by apply (flagged_refl c).
Qed.

Lemma cancel_flagged fuel t c : flagged c (cancel fuel t c).
Proof.
  revert t c. induction fuel as [|fuel IH]; intros t c; simpl;
    destruct (tasks c !! t) as [[p b|w f b]|] eqn:Ht; try apply flagged_refl;
    try (by eapply flag_ok).
  assert (∀ c us, flagged c (foldr (cancel fuel) c us)) as Hf.
  { intros c' us. induction us as [|u us IHus]; simpl; [apply flagged_refl|]. by eapply flagged_trans. }
  destruct w; try (by eapply flag_ok); try apply IH;
    (eapply flagged_trans; [|apply Hf]; by eapply flag_ok).
Qed.

(** ** What task 0 gives out before it returns *)
Section before.
Context (mark : Out → bool).

(** Before [p] returns it gives out an effect that [mark] tells; it may also raise. *)
Fixpoint marked (p : co) : Prop :=
  match p with
  | Done | Again _ _ _ _ => False
  | Throw _ => True
  | Get k => ∀ s, marked (k s)
  | Self k | Spawn _ k => ∀ t, marked (k t)
  | Put _ k | Cancel _ k => marked k
  | Emit o k => mark o = true ∨ marked k
  | Await _ k h => (∀ v, marked (k v)) ∧ ∀ e, marked (h e)
  end.

Definition task_marked (u : task) : Prop :=
  match u with
  | Fresh p _ => marked p
  | Parked _ (FAwait k h) _ => (∀ v, marked (k v)) ∧ ∀ e, marked (h e)
  | Parked _ (FAgain _ _ _) _ => False
  end.

(** Task 0 has not returned, and will give out such an effect if it does. *)
Definition pending (c : loop) : Prop :=
  (1 ≤ fresh_tid c)%nat ∧ results c !! 0%nat ≠ Some (Ok tt) ∧ ∀ u, tasks c !! 0%nat = Some u → task_marked u.

Definition given (l : list Out) : Prop := ∃ o, o ∈ l ∧ mark o = true.

Lemma cancel_results fuel t c : results (cancel fuel t c) = results c.
Proof.
  revert t c. induction fuel as [|fuel IH]; intros t c; simpl;
    destruct (tasks c !! t) as [[p b|w f b]|]; try done.
  assert (∀ c us, results (foldr (cancel fuel) c us) = results c) as Hf.
  { intros c' us. induction us as [|u us IHus]; simpl; [done|]. by rewrite IH, IHus. }
  destruct w; simpl; rewrite ?Hf, ?IH; done.
Qed.

Lemma cancel_pending fuel t c : pending c → pending (cancel fuel t c).
Proof.
  intros (Hn & Hr & Hm). destruct (cancel_flagged fuel t c) as [Hf Hfl].
  split; [by rewrite Hf|]. split; [by rewrite cancel_results|].
  intros v (u & Hu & Huv)%Hfl. apply Hm in Hu. destruct u, v; simpl in *; naive_solver.
Qed.

(** Another task leaves task 0 as it is. *)
Lemma pending_other t r ts c n :
  t ≠ 0%nat → pending c → results c !! 0%nat = r !! 0%nat → (1 ≤ n)%nat →
  (∀ u, ts !! 0%nat = Some u → tasks c !! 0%nat = Some u) → ∀ s, pending (mkLoop s ts r n).
Proof. intros Ht (Hn & Hr & Hm) Er Hn' Hts s. split; [done|]. split; [simpl; congruence|]. intros u Hu. by apply Hm, Hts. Qed.

Lemma exec_other t p c : t ≠ 0%nat → pending c → pending (exec t p c).1.
Proof.
  intros Ht. revert c.
  induction p as [|e|k IH|k IH|s p IH|o p IH|w k IHk h IHh|w lb k IHk h IHh|q IHq k IHk|u p IH]; intros c Hc; simpl;
    try (by auto).
  - apply (pending_other t _ _ c); [done|done|by rewrite lookup_insert_ne|apply Hc|].
    by intros u [_ Hu]%lookup_delete_Some.
  - apply (pending_other t _ _ c); [done|done|by rewrite lookup_insert_ne|apply Hc|].
    by intros u [_ Hu]%lookup_delete_Some.
  - specialize (IH c Hc). by destruct (exec t p c).
  - destruct (immediate w c); [destruct (outcome _ _ _); auto|].
    apply (pending_other t _ _ c); [done|done|done|apply Hc|]. intros u. by rewrite lookup_insert_ne.
  - apply (pending_other t _ _ c); [done|done|done|apply Hc|]. intros u. by rewrite lookup_insert_ne.
  - apply IHk. apply (pending_other t _ _ c); [done|done|done|simpl; lia|].
    destruct Hc as [Hn _]. intros u. rewrite lookup_insert_ne by lia. done.
  - by apply IH, cancel_pending.
Qed.

Lemma exec_marked p c :
  marked p → (1 ≤ fresh_tid c)%nat → results c !! 0%nat ≠ Some (Ok tt) →
  let (c', o) := exec 0 p c in given o ∨ pending c'.
Proof.
  revert c. induction p as [|e|k IH|k IH|s p IH|o p IH|w k IHk h IHh|w lb k IHk h IHh|q IHq k IHk|u p IH];
    intros c Hm Hn Hr; simpl in *; try done; try (by apply IH).
  - right. split; [done|]. split; [simpl; by rewrite lookup_insert_eq|]. intros u. simpl. by rewrite lookup_delete_eq.
  - assert (given [o] ∨ marked p) as [Ho|Hp] by (destruct Hm; [left; exists o; by split; [left|]|by right]);
      destruct (exec 0 p c) as [c' os] eqn:E.
    + left. destruct Ho as (x & Hx & Hmx). exists x. split; [|done]. apply list_elem_of_singleton in Hx as ->. left.
    + specialize (IH c Hp Hn Hr). rewrite E in IH. destruct IH as [(x & Hx & Hmx)|]; [left|by right].
      exists x. by split; [right|].
  - destruct Hm as [Hk Hh]. destruct (immediate w c); [destruct (outcome _ _ _); [by apply IHk|by apply IHh]|].
    right. split; [done|]. split; [done|]. intros u. simpl. rewrite lookup_insert_eq. by intros [= <-].
  - apply IHk; [done|simpl; lia|done].
  - apply IH; [done|by destruct (cancel_flagged (size (tasks c)) u c) as [-> _]|by rewrite cancel_results].
Qed.

Lemma step_marked c e c' o : pending c → step c e = Some (c', o) → given o ∨ pending c'.
Proof.
  intros Hc Hs.
  assert (∀ t p c0, (t = 0%nat → marked p) → pending c0 → Some (exec t p c0) = Some (c', o) →
    given o ∨ pending c') as Hexec.
  { intros t p c0 Hp Hc0 [= E]. destruct (decide (t = 0%nat)) as [->|Ht].
    - destruct Hc0 as (Hn & Hr & _). pose proof (exec_marked p c0 (Hp eq_refl) Hn Hr) as H1. by rewrite E in H1.
    - right. pose proof (exec_other t p c0 Ht Hc0) as H1. by rewrite E in H1. }
  assert (∀ t r, (r !! 0%nat ≠ Some (Ok tt)) → pending (mkLoop (shared c) (delete t (tasks c)) r (fresh_tid c))) as Hdel.
  { intros t r Hr. destruct Hc as (Hn & _ & Hm). split; [done|]. split; [done|].
    intros u Hu. simpl in Hu. apply lookup_delete_Some in Hu as [_ Hu]. by apply Hm. }
  destruct e as [call|t a]; simpl in Hs.
  - eapply Hexec; [..|exact Hs].
    + destruct Hc as [Hn _]. lia.
    + destruct Hc as (Hn & Hr & Hm). split; [simpl; lia|done].
  - destruct (tasks c !! t) as [[p b|w f b]|] eqn:Ht; [| |done].
    + destruct b.
      * simplify_eq. right. destruct Hc as (Hn & Hr & Hm). split; [done|]. split; simpl.
        -- destruct (decide (t = 0%nat)) as [->|Hne]; [by rewrite lookup_insert_eq|by rewrite lookup_insert_ne].
        -- intros u [_ [_ Hu]%lookup_delete_Some]%lookup_delete_Some. by apply Hm.
      * eapply Hexec; [..|exact Hs]; [|apply Hdel, Hc]. intros ->. by apply Hc in Ht.
    + assert (∀ a, t = 0%nat → marked (go_on f a)) as Hgo.
      { intros a' ->. apply Hc in Ht. destruct f as [k h|]; [|done]. destruct Ht as [Hk Hh]. by destruct a'; simpl. }
      repeat case_match; try done; (eapply Hexec; [by apply Hgo|apply Hdel, Hc|exact Hs]).
Qed.

(** If task 0 has returned, such an effect was given out. *)
Lemma returned_given s0 p es c l :
  marked p → run step (loop_start s0 p) es = Some (c, l) → results c !! 0%nat = Some (Ok tt) → given l.
Proof.
  intros Hp Hrun Hend. assert (given l ∨ pending c) as [|(_ & Hr & _)]; [|done..].
  clear Hend. revert es c l Hrun. apply (run_inv step (λ c l, given l ∨ pending c)).
  - right. split; [done|]. split; [simpl; by rewrite lookup_empty|]. intros u. simpl. rewrite lookup_singleton_eq. by intros [= <-].
  - intros c l e c' o [(x & Hx & Hm)|Hc] Hs.
    + left. exists x. split; [|done]. apply elem_of_app. by left.
    + apply (step_marked _ _ _ _ Hc) in Hs as [(x & Hx & Hm)|]; [left|by right].
      exists x. split; [|done]. apply elem_of_app. by right.
Qed.
End before.

(** ** The logic *)

(** A point of an execution: the shared state and the effects so far. *)
Abbreviation point := (St * list Out)%type (only parsing).

Context (I : St → list Out → Prop) (R G : tid → relation point) (legal : list Out → Out → Prop).
(** What [current_task()] tells task [t]; the number of the first task started later. *)
Context (K : tid → tid → Prop) (first : tid).
(** What a loop must know to go round again. *)
Context (inv : L → point → Prop).

(** In every later point where task [t] may run. *)
Definition later (t : tid) (P : St → list Out → Prop) (x : point) : Prop :=
  ∀ s l, R t x (s, l) → I s l → P s l.

(** As task [t], [p] runs correctly from state [s] after the effects [l]. *)
Fixpoint wp (t : tid) (p : co) (s : St) (l : list Out) : Prop :=
  match p with
  | Done | Throw _ => I s l
  | Get k => wp t (k s) s l
  | Self k => ∀ u, K t u → wp t (k u) s l
  | Put s' k => G t (s, l) (s', l) ∧ wp t k s' l
  | Emit o k => legal l o ∧ G t (s, l) (s, l ++ [o]) ∧ wp t k s (l ++ [o])
  | Await w k h =>
      I s l ∧
      later t (λ s' l', (match w with WUntil c => c s' = true | _ => True end →
                         ∀ v, fits w (Ok v) = true → wp t (k v) s' l') ∧ ∀ e, wp t (h e) s' l') (s, l)
  | Again w lb k h =>
      I s l ∧ inv lb (s, l) ∧ later t (λ s' l', (∀ v, wp t (k v) s' l') ∧ ∀ e, wp t (h e) s' l') (s, l)
  | Spawn q k => (∀ n, (first ≤ n)%nat → later n (wp n q) (s, l)) ∧ ∀ n, wp t (k n) s l
  | Cancel _ k => wp t k s l
  end.

Section later.
Context `{!∀ t, PreOrder (R t)}.

Lemma later_mono t P x y : later t P x → R t x y → later t P y.
Proof. intros HP Hxy s l Hy Hi. apply HP; [by etrans|done]. Qed.

Lemma later_now t P s l : later t P (s, l) → I s l → P s l.
Proof. intros HP Hi. by apply HP. Qed.

Lemma later_impl t P Q x : (∀ s l, R t x (s, l) → I s l → P s l → Q s l) → later t P x → later t Q x.
Proof. intros HPQ HP s l Hx Hi. apply HPQ; [done|done|]. by apply HP. Qed.
End later.

(** What must be known of a task while others run. *)
Definition frame_ok (t : tid) (w : wait) (f : frame) (x : point) : Prop :=
  match f with
  | FAwait k h => later t (λ s l, (match w with WUntil c => c s = true | _ => True end →
                                   ∀ v, fits w (Ok v) = true → wp t (k v) s l) ∧ ∀ e, wp t (h e) s l) x
  | FAgain lb k h => inv lb x ∧ later t (λ s l, (∀ v, wp t (k v) s l) ∧ ∀ e, wp t (h e) s l) x
  end.

Definition task_ok (x : point) (t : tid) (u : task) : Prop :=
  match u with
  | Fresh p _ => later t (wp t p) x
  | Parked w f _ => frame_ok t w f x
  end.

(** Each effect was legal after what came before it. *)
Definition lawful (l : list Out) : Prop := ∀ l1 o l2, l = l1 ++ o :: l2 → legal l1 o.

Definition tasks_ok (x : point) (c : loop) : Prop :=
  ∀ t u, tasks c !! t = Some u → task_ok x t u.

(** While task [t] runs, the others are. *)
Definition others_ok (t : tid) (x : point) (c : loop) : Prop :=
  ∀ u v, u ≠ t → tasks c !! u = Some v → task_ok x u v.

Definition loop_ok (c : loop) (l : list Out) : Prop :=
  I (shared c) l ∧ lawful l ∧ tasks_ok (shared c, l) c ∧ (first ≤ fresh_tid c)%nat.

(** What the laws are about. *)
Class Laws := {
  R_preorder t :: PreOrder (R t);
  (** What a task does is among what every other one expects. *)
  G_R t u x y : t ≠ u → G t x y → R u x y;
  inv_stable t lb x y : inv lb x → R t x y → inv lb y;
  (** Every loop's body is correct, given what follows the loop. *)
  inv_resume t lb a k h s l :
    I s l → inv lb (s, l) → later t (λ s' l', (∀ v, wp t (k v) s' l') ∧ ∀ e, wp t (h e) s' l') (s, l) →
    wp t (resume lb a k h) s l;
}.

Section laws.
Context `{Laws} (K_own : ∀ t, K t t).

Lemma task_ok_mono x y t u : task_ok x t u → R t x y → task_ok y t u.
Proof.
  intros Ht Hr. destruct u as [p b|w [k h|lb k h] b]; simpl in *.
  - by eapply later_mono.
  - by eapply later_mono.
  - destruct Ht as [Hi Hl]. split; [by eapply inv_stable|by eapply later_mono].
Qed.

Lemma others_ok_mono x y t c : others_ok t x c → G t x y → others_ok t y c.
Proof. intros Hc Hg u v Hne Hv. eapply task_ok_mono; [by eapply Hc|]. by eapply G_R. Qed.

Lemma insert_ok x t u c :
  others_ok t x c → task_ok x t u → tasks_ok x (set_tasks (<[t := u]> (tasks c)) c).
Proof.
  intros Hc Hu t' u' Ht. simpl in Ht. apply lookup_insert_Some in Ht as [[<- <-]|[Hne Ht]]; [done|].
  eapply Hc; [congruence|done].
Qed.

(** A task that is flagged is as correct as before. *)
Lemma same_code_ok x t u v : same_code u v → task_ok x t u → task_ok x t v.
Proof. destruct u, v; simpl; [by intros ->|done..|by intros [-> ->]]. Qed.

Lemma cancel_ok fuel u t x c : others_ok t x c → others_ok t x (cancel fuel u c).
Proof.
  intros Hc t' v Hne Hv. apply cancel_flagged in Hv as (w & Hw & Hwv).
  eapply same_code_ok; [done|]. by apply Hc.
Qed.

Lemma delete_ok x t c r :
  others_ok t x c → tasks_ok x (mkLoop (shared c) (delete t (tasks c)) r (fresh_tid c)).
Proof. intros Hc t' u Hu. simpl in Hu. apply lookup_delete_Some in Hu as [Hne Hu]. eapply Hc; [congruence|done]. Qed.

Lemma others_of_tasks x t c : tasks_ok x c → others_ok t x c.
Proof. intros Hc u v _. apply Hc. Qed.

Lemma lawful_snoc l o : lawful l → legal l o → lawful (l ++ [o]).
Proof.
  intros Hl Ho l1 o' l2. destruct l2 as [|z l2 _] using rev_ind.
  - by intros [-> ->]%app_inj_tail.
  - rewrite app_comm_cons, app_assoc. intros [-> ->]%app_inj_tail. by apply (Hl l1 o' l2).
Qed.

(** A correct coroutine leads from one point to a later one, and leaves every task correct. *)
Lemma exec_ok t p c l :
  wp t p (shared c) l → lawful l → others_ok t (shared c, l) c → (first ≤ fresh_tid c)%nat →
  let (c', o) := exec t p c in loop_ok c' (l ++ o).
Proof.
  revert c l. induction p as [|e|k IH|k IH|s p IH|o p IH|w k IHk h IHh|w lb k IHk h IHh|q IHq k IHk|u p IH];
    intros c l Hwp Hlaw Hc Hn; simpl in *.
  - rewrite app_nil_r. split; [done|]. split; [done|]. split; [by apply delete_ok|done].
  - rewrite app_nil_r. split; [done|]. split; [done|]. split; [by apply delete_ok|done].
  - by apply IH.
  - apply IH; try done. by apply Hwp.
  - destruct Hwp as [Hg Hwp]. apply IH; [done|done| |done]. by eapply others_ok_mono.
  - destruct Hwp as (Ho & Hg & Hwp). specialize (IH c (l ++ [o])).
    destruct (exec t p c) as [c' os]. rewrite cons_middle, app_assoc. apply IH; [done| | |done].
    + by apply lawful_snoc.
    + by eapply others_ok_mono.
  - destruct Hwp as [Hi Hwp]. destruct (immediate w c) eqn:Him.
    + destruct (Hwp (shared c) l) as [Hk Hh]; [done|done|].
      destruct (outcome w (Ok unit_answer) c) as [v|e]; [|by apply IHh].
      apply IHk; [|done..]. apply Hk; by destruct w.
    + rewrite app_nil_r. split; [done|]. split; [done|]. split; [by apply insert_ok|done].
  - rewrite app_nil_r. split; [apply Hwp|]. split; [done|]. split; [|done]. apply insert_ok; [done|]. apply Hwp.
  - destruct Hwp as [Hq Hwp]. apply IHk; [by apply Hwp|done| |simpl; lia].
    intros t' u' Hne Ht. simpl in Ht. apply lookup_insert_Some in Ht as [[<- <-]|[_ Ht]]; [by apply Hq|].
    by eapply Hc.
  - apply IH; [by rewrite cancel_shared|done| |].
    + rewrite cancel_shared. by apply cancel_ok.
    + destruct (cancel_flagged (size (tasks c)) u c) as [-> _]. done.
Qed.

Lemma go_on_ok t w f a s l :
  frame_ok t w f (s, l) → I s l →
  (match w with WUntil c => c s = true | _ => True end ∧ fits w a = true ∨ ∃ e, a = Raise e) →
  wp t (go_on f a) s l.
Proof.
  intros Hf Hi Ha. destruct f as [k h|lb k h]; simpl in *.
  - destruct (Hf s l) as [Hk Hh]; [done|done|].
    destruct a as [v|e]; [|done]. destruct Ha as [[Hc Hv]|[e ?]]; [by apply Hk|done].
  - destruct Hf. by apply inv_resume.
Qed.

(** One event keeps the loop correct, if the calls from outside are. *)
Lemma step_ok c e l :
  (∀ call n s l, (first ≤ n)%nat → I s l → wp n (body call) s l) → loop_ok c l →
  ∀ c' o, step c e = Some (c', o) → loop_ok c' (l ++ o).
Proof.
  intros Hbody (Hi & Hlaw & Hc & Hn) c' o Hstep.
  assert (∀ t p c0, wp t p (shared c0) l → others_ok t (shared c0, l) c0 → (first ≤ fresh_tid c0)%nat →
    Some (exec t p c0) = Some (c', o) → loop_ok c' (l ++ o)) as Hexec.
  { intros t p c0 Hp Hc0 Hn0 He. pose proof (exec_ok t p c0 l Hp Hlaw Hc0 Hn0) as H1.
    apply (inj Some) in He. by rewrite He in H1. }
  assert (∀ t, others_ok t (shared c, l) c) as Hoth by (intros; by apply others_of_tasks).
  assert (∀ t r, tasks_ok (shared c, l) (mkLoop (shared c) (delete t (tasks c)) r (fresh_tid c))) as Hdel
    by (intros; by apply delete_ok).
  destruct e as [call|t a]; simpl in Hstep.
  - eapply Hexec; [..|exact Hstep]; [by apply Hbody|by apply others_of_tasks|simpl; lia].
  - destruct (tasks c !! t) as [[p b|w f b]|] eqn:Ht; [| |done]; pose proof (Hc _ _ Ht) as Htok; simpl in Htok.
    + destruct b.
      * simplify_eq. rewrite app_nil_r. split; [done|]. split; [done|]. split; [|done].
        by apply (delete_ok _ t), others_of_tasks, Hdel.
      * eapply Hexec; [..|exact Hstep]; [by apply Htok|apply others_of_tasks, Hdel|done].
    + match type of Hstep with (if ?x then _ else _) = _ => destruct x eqn:Hcan end.
      * eapply Hexec; [..|exact Hstep]; [|apply others_of_tasks, Hdel|done].
        apply (go_on_ok t w); [done|done|]. right. eauto.
      * destruct (ready w c && fits w a) eqn:Hrd; [|done]. apply andb_prop in Hrd as [Hrd Hfit].
        eapply Hexec; [..|exact Hstep]; [|apply others_of_tasks, Hdel|done]. apply (go_on_ok t w); [done|done|].
        destruct b; [right; eauto|left]. by destruct w.
Qed.

(** ** Adequacy: every schedule keeps the invariant and emits legal effects only. *)
Lemma adequacy_from c0 es c o :
  (∀ call n s l, (first ≤ n)%nat → I s l → wp n (body call) s l) → loop_ok c0 [] →
  run step c0 es = Some (c, o) → I (shared c) o ∧ lawful o.
Proof.
  intros Hbody H0 Hrun.
  assert (loop_ok c o) as (Hi & Hl & _); [|done].
  revert es c o Hrun. apply (run_inv step loop_ok c0 H0).
  intros c l e c' o Hok Hs. by eapply step_ok.
Qed.

Lemma adequacy s0 es c o :
  first = 0%nat → (∀ call n s l, I s l → wp n (body call) s l) → I s0 [] →
  run step (loop_init s0) es = Some (c, o) → I (shared c) o ∧ lawful o.
Proof.
  intros Hf Hbody H0. apply adequacy_from; [by auto|]. split; [done|]. split; [by intros [|? ?] ? ? ?|].
  split; [|simpl; lia]. intros t u Ht. simpl in Ht. by rewrite lookup_empty in Ht.
Qed.

(** From a loop that begins with a task of its own. *)
Lemma adequacy_start s0 p es c o :
  first = 1%nat → (∀ call n s l, (1 ≤ n)%nat → I s l → wp n (body call) s l) → I s0 [] →
  later 0 (wp 0 p) (s0, []) →
  run step (loop_start s0 p) es = Some (c, o) → I (shared c) o ∧ lawful o.
Proof.
  intros Hf Hbody H0 Hp. apply adequacy_from; [rewrite Hf; done|]. split; [done|].
  split; [by intros [|? ?] ? ? ?|]. split; [|simpl; lia].
  intros t u Ht. simpl in Ht. apply lookup_singleton_Some in Ht as [<- <-]. exact Hp.
Qed.
End laws.

(** When the tasks are not told apart, a rule for task 0 is one for every task. *)
Lemma wp_uniform t u p s l :
  (∀ t u, R t = R u) → (∀ t u, G t = G u) → (∀ t u, K t u) → wp t p s l → wp u p s l.
Proof.
  intros HR HG HK. assert (∀ P x, later t P x → later u P x) as Hl by (intros P x; unfold later; by rewrite (HR u t)).
  revert s l. induction p as [|e|k IH|k IH|s' p IH|o p IH|w k IHk h IHh|w lb k IHk h IHh|q IHq k IHk|v p IH];
    intros s l Hwp; simpl in *; try done.
  - by apply IH.
  - intros n _. apply IH. by apply Hwp.
  - rewrite (HG u t). destruct Hwp as [? ?]. split; [done|by apply IH].
  - rewrite (HG u t). destruct Hwp as (? & ? & ?). split; [done|]. split; [done|by apply IH].
  - destruct Hwp as [? Hw]. split; [done|]. apply Hl. intros s1 l1 Hr Hi. destruct (Hw s1 l1 Hr Hi) as [Hk Hh].
    split; [|intros e; by apply IHh]. intros Hc x Hx. apply IHk. by apply Hk.
  - destruct Hwp as (? & ? & Hw). split; [done|]. split; [done|]. apply Hl. intros s1 l1 Hr Hi.
    destruct (Hw s1 l1 Hr Hi) as [Hk Hh]. split; [intros v; by apply IHk|intros e; by apply IHh].
  - destruct Hwp as [? Hw]. split; [done|]. intros n. by apply IHk.
  - by apply IH.
Qed.
End coroutines.
