(* ===== verification/Turns.v ===== *)
(** * The turn machine: ConversationPipeline of latency_lab/pipeline.py

    A caller's turn runs through voice activity ([audio]), partial and final transcripts
    ([on_partial], [on_final]), speculative and committed generation ([_start_attempt],
    [_generate]), synthesis and playback ([_synthesize_phrases], [_release_held],
    [client_event]), and through interruption ([_cancel_attempt]).  Each method is a
    coroutine (Coroutines.v) in continuation style: [k] is what follows it and [h] the
    handler around it; a method that the source starts as a task is the body of one.

    The [Attempt] objects live in [attempts], and tasks hold their keys, so a task that
    outlives its attempt still sees and changes that object.  Calls of other components and
    messages to the transport are effects.  The agents modelled have no device passkey, no
    provider directory and no directory e-mail; the rounds of the bank tools, which end in
    spoken texts and at most one pending confirmation, are answers from outside.  Of the
    trace records those are kept that a theorem mentions. *)
From stdpp Require Import base list gmap strings.
From Stdlib Require Import ZArith Lia.
From S2P Require Import Prelude Pystr Json Banking Agentic DirectoryLocations Phrases Coroutines.

(** ** Data *)

(** The values of [state]. *)
Inductive pstate : Type :=
| Idle | Speaking | Speculating | AwaitingFinal | RecoveringStt | Releasing | Playing | Generating.

#[export] Instance pstate_eq_dec : EqDecision pstate.
Proof. solve_decision. Defined.

Definition in_states (p : pstate) (l : list pstate) : bool := bool_decide (p ∈ l).

(** [PendingAction]; [pd_id] is the identity of the object. *)
Record pending := mkPending {
  pd_id : nat;
  pd_call : tool_call;
  confirmation_prompt : str;
  reasks : Z;
}.

Record turn_config := mkTurnConfig {
  engagement_enabled : bool;
  livekit : bool; (** [transport == "livekit"] *)
  sbpn : bool; (** [uses_sbpn(tts_language)] *)
  french : bool; (** [_uses_french_agent()] *)
  bank_records : bool; (** [bool(self.banking.records)] *)
  background_bank_tools : bool;
  min_speech_ms : Z;
  end_silence_ms : Z;
  speech_rms : Z;
  stable_min_chars : Z;
  stt_context : str;
  reply_grace_agent : bool; (** the agent is one of [reply_grace_agent_ids] *)
  reply_grace_ms : Z;
  empty_response_fallback_enabled : bool;
  empty_response_fallback_text : str;
  knowledge_available : bool;
}.

(** [Attempt] *)
Record Attempt := mkAttempt {
  id : nat;
  hypothesis : str;
  speculative : bool;
  authorized : bool;
  at_task : option nat; (** [attempt.task] *)
  cancelled : bool;
  answer : str;
  held_audio : list (Z * list Z);
  audio_complete : bool;
  response_committed : bool;
  authorization_event : bool;
  initial_answer : str;
  acknowledgement : str; (** [spoken_knowledge_acknowledgement] *)
  knowledge_task : option nat;
  tool_calls : list tool_call;
  speech_control : option tool_call;
  speech_control_applied : bool;
  end_call_requested : bool;
  transfer_requested : bool;
  transfer_reason_summary : str;
  reasoning_content : str;
  at_turn : str; (** [attempt.turn_id] *)
  audio_sent : bool;
  audio_pending_playout : bool;
  speech_tasks : list nat;
}.

(** The pipeline's own fields. *)
Record pipeline := mkPipeline {
  state : pstate;
  call_ending : bool;
  handoff_active : bool;
  handoff_in_progress : bool;
  turn_id : option str;
  turn_number : Z;
  speech_ms : Z; (** in bytes of PCM, 32 to the millisecond *)
  silence_ms : Z; (** likewise *)
  last_partial : str;
  final_text : str;
  attempt : option nat; (** the key of [attempts] *)
  attempts : gmap nat Attempt; (** every [Attempt] object made *)
  next_attempt : nat;
  stability_task : option nat;
  final_response_task : option nat;
  final_timeout_task : option nat;
  closed_turns : list str; (** a set *)
  last_closed_turn_id : option str;
  silence_candidate : bool;
  speech_candidate_active : bool;
  candidate_turn_id : option str;
  preconfirm_partial : option (str * str);
  turn_pcm16 : list Z;
  pending_action : option pending; (** the object, by its number *)
  next_pending : nat;
  speech_lock : bool;
  queues : gmap nat (list (option str)); (** the phrase queues *)
  next_queue : nat;
  speech_on : bool; (** [engagement.speech_enabled] *)
  engagement_closed : bool;
}.

(** ** Effects *)

Inductive effect : Type :=
(** Messages to the transport. *)
| Chunk (a : nat) (sample_rate : Z) (chunk : list Z) (** [tts_chunk], of attempt [a] *)
| Say (kind content : str) (** the transcripts and [lab_status] *)
| StopTts | TtsEnd | EndCall | TransferToAicc (reason : str)
(** The trace records that the theorems mention. *)
| Started (a : nat) (is_speculative is_authorized : bool) (text : str)
| Validated (a : nat) (valid : bool) (hyp final : str)
| Cancelled (a : nat)
| Final (turn text : str)
| SpeechStart (turn : str)
| TurnClose (turn : str)
| Application (a : nat) (** an attempt that the application speaks: opening, announcement *)
| EndCallAuthorized (a : nat)
| Pended (p : nat) (call : tool_call) (prompt : str) (** a [PendingAction] is made *)
| Asked (a p : nat) (evidence : str) (call : tool_call) (prompt : str) (** [confirmation_decision] is called *)
| Decision (a p : nat) (decision : str)
| Execute (a p : nat) (call : tool_call)
| Transition (from to : pstate)
(** Calls of the conversation memory and of the store. *)
| MemoryUser (turn text : str) (listening : bool)
| MemoryAnswer (turn text reasoning : str)
| MemoryFinish (turn : str) (interrupted : bool)
| MemoryTool (turn : str) (call : tool_call) (body : dict)
| MemoryListening (turn : str) (b : bool)
| MemoryClear
| AddUser (text turn : str)
| AddAssistant (a : nat) (text turn : str) (interrupted : bool)
| Commit (a : nat) (text turn : str) (** [add_assistant] of [_commit_attempt_text] *)
(** Calls of the engagement, of the bank tools, of the synthesiser and of the recogniser. *)
| Invalidate | CallerStarted | CallerFinal (text : str) | PlaybackStopped
| AudioSent (bytes sample_rate : Z)
| Gate (b : bool) (** [set_speech_enabled] *)
| Ingest (pcm : list Z) | Utterance (pcm : list Z) | DropPrepared
| TtsRequest (a : nat) (text : str)
| SttAppend (pcm : list Z) | SttCommit (pcm : list Z) | SttRecover.

(** ** Waits and answers *)

Inductive request : Type :=
| QSend (** [self.send] *) | QTransfer (** the send whose answer is used *)
| QStt (** append, commit or recover *) | QSleep
| QLlm (** the next event of the model's stream *)
| QTts (** [tts.stream]: the sample rate *) | QChunk (** the next chunk *)
| QPrompt (** [confirmation_prompt] *) | QDecision (** [confirmation_decision] *)
| QTool (** a tool's execution *) | QKnowledge (** [knowledge.search] *)
| QBank. (** the next step of [_run_banking_tools] that concerns this machine *)

Inductive reply : Type :=
| VUnit
| VToken (text : str) | VCall (c : tool_call) | VReasoning (text : str) | VEnd
| VRate (sample_rate : Z) | VChunk (chunk : list Z)
| VText (text : str) (** a prompt (empty: none), a decision, a text to speak *)
| VAsk (call : tool_call) (prompt : str) (** a bank preview to confirm *)
| VResult (body : dict) (message : str) | VConnected (b : bool)
| VCalls (calls : list tool_call). (** what [_stream_llm_and_tts] returns *)

Definition labels_of_decision : list str := map lit ["confirmed"; "rejected"; "revised"; "unclear"]%string.

(** The answers that a request can get; any of them may raise. *)
Definition accepts (q : request) (a : exn reply) : bool :=
  match a with
  | Raise _ => true
  | Ok v =>
      match q, v with
      | (QSend | QStt | QSleep), VUnit => true
      | QTransfer, VConnected _ => true
      | QLlm, (VToken _ | VCall _ | VReasoning _ | VEnd) => true
      | QTts, VRate _ => true
      | QChunk, (VChunk _ | VEnd) => true
      | QPrompt, VText _ => true
      | QDecision, VText d => in_strs d labels_of_decision
      | (QTool | QKnowledge), VResult _ _ => true
      | QBank, (VText _ | VAsk _ _ | VEnd) => true
      | _, _ => false
      end
  end.

(** The loops of the coroutines, with their local variables. *)
Inductive loop_label : Type :=
(** [async for event in stream] of [_stream_llm_and_tts] *)
| LStream (a : nat) (phase : str) (t : tokenizer) (calls : list tool_call) (queue task : nat)
    (stopped : bool)
(** [while True: phrase = await queue.get()] of [_synthesize_phrases_locked] *)
| LPhrases (a : nat) (phase : str) (queue : nat)
(** [async for chunk in chunks] of the same *)
| LChunks (a : nat) (phase : str) (queue : nat) (sample_rate : Z)
(** [for sample_rate, chunk in attempt.held_audio] of [_release_held], after chunk [i] *)
| LRelease (a i : nat) (bytes sample_rate : Z)
(** the rounds of [_run_banking_tools] *)
| LBank (a : nat).

Abbreviation coroutine := (@co pipeline effect request reply loop_label) (only parsing).
Abbreviation cont := (reply → @co pipeline effect request reply loop_label) (only parsing).
Abbreviation handler := (pyexc → @co pipeline effect request reply loop_label) (only parsing).

(** ** Updates *)

Definition set_authorized (v : bool) (a : Attempt) : Attempt :=
  mkAttempt (id a) (hypothesis a) (speculative a) v (at_task a) (cancelled a) (answer a)
    (held_audio a) (audio_complete a) (response_committed a) (authorization_event a)
    (initial_answer a) (acknowledgement a) (knowledge_task a) (tool_calls a) (speech_control a)
    (speech_control_applied a) (end_call_requested a) (transfer_requested a)
    (transfer_reason_summary a) (reasoning_content a) (at_turn a) (audio_sent a)
    (audio_pending_playout a) (speech_tasks a).
Definition set_at_task (v : option nat) (a : Attempt) : Attempt :=
  mkAttempt (id a) (hypothesis a) (speculative a) (authorized a) v (cancelled a) (answer a)
    (held_audio a) (audio_complete a) (response_committed a) (authorization_event a)
    (initial_answer a) (acknowledgement a) (knowledge_task a) (tool_calls a) (speech_control a)
    (speech_control_applied a) (end_call_requested a) (transfer_requested a)
    (transfer_reason_summary a) (reasoning_content a) (at_turn a) (audio_sent a)
    (audio_pending_playout a) (speech_tasks a).
Definition set_cancelled (v : bool) (a : Attempt) : Attempt :=
  mkAttempt (id a) (hypothesis a) (speculative a) (authorized a) (at_task a) v (answer a)
    (held_audio a) (audio_complete a) (response_committed a) (authorization_event a)
    (initial_answer a) (acknowledgement a) (knowledge_task a) (tool_calls a) (speech_control a)
    (speech_control_applied a) (end_call_requested a) (transfer_requested a)
    (transfer_reason_summary a) (reasoning_content a) (at_turn a) (audio_sent a)
    (audio_pending_playout a) (speech_tasks a).
Definition set_answer (v : str) (a : Attempt) : Attempt :=
  mkAttempt (id a) (hypothesis a) (speculative a) (authorized a) (at_task a) (cancelled a) v
    (held_audio a) (audio_complete a) (response_committed a) (authorization_event a)
    (initial_answer a) (acknowledgement a) (knowledge_task a) (tool_calls a) (speech_control a)
    (speech_control_applied a) (end_call_requested a) (transfer_requested a)
    (transfer_reason_summary a) (reasoning_content a) (at_turn a) (audio_sent a)
    (audio_pending_playout a) (speech_tasks a).
Definition set_held_audio (v : list (Z * list Z)) (a : Attempt) : Attempt :=
  mkAttempt (id a) (hypothesis a) (speculative a) (authorized a) (at_task a) (cancelled a)
    (answer a) v (audio_complete a) (response_committed a) (authorization_event a)
    (initial_answer a) (acknowledgement a) (knowledge_task a) (tool_calls a) (speech_control a)
    (speech_control_applied a) (end_call_requested a) (transfer_requested a)
    (transfer_reason_summary a) (reasoning_content a) (at_turn a) (audio_sent a)
    (audio_pending_playout a) (speech_tasks a).
Definition set_audio_complete (v : bool) (a : Attempt) : Attempt :=
  mkAttempt (id a) (hypothesis a) (speculative a) (authorized a) (at_task a) (cancelled a)
    (answer a) (held_audio a) v (response_committed a) (authorization_event a) (initial_answer a)
    (acknowledgement a) (knowledge_task a) (tool_calls a) (speech_control a)
    (speech_control_applied a) (end_call_requested a) (transfer_requested a)
    (transfer_reason_summary a) (reasoning_content a) (at_turn a) (audio_sent a)
    (audio_pending_playout a) (speech_tasks a).
Definition set_response_committed (v : bool) (a : Attempt) : Attempt :=
  mkAttempt (id a) (hypothesis a) (speculative a) (authorized a) (at_task a) (cancelled a)
    (answer a) (held_audio a) (audio_complete a) v (authorization_event a) (initial_answer a)
    (acknowledgement a) (knowledge_task a) (tool_calls a) (speech_control a)
    (speech_control_applied a) (end_call_requested a) (transfer_requested a)
    (transfer_reason_summary a) (reasoning_content a) (at_turn a) (audio_sent a)
    (audio_pending_playout a) (speech_tasks a).
Definition set_authorization_event (v : bool) (a : Attempt) : Attempt :=
  mkAttempt (id a) (hypothesis a) (speculative a) (authorized a) (at_task a) (cancelled a)
    (answer a) (held_audio a) (audio_complete a) (response_committed a) v (initial_answer a)
    (acknowledgement a) (knowledge_task a) (tool_calls a) (speech_control a)
    (speech_control_applied a) (end_call_requested a) (transfer_requested a)
    (transfer_reason_summary a) (reasoning_content a) (at_turn a) (audio_sent a)
    (audio_pending_playout a) (speech_tasks a).
Definition set_initial_answer (v : str) (a : Attempt) : Attempt :=
  mkAttempt (id a) (hypothesis a) (speculative a) (authorized a) (at_task a) (cancelled a)
    (answer a) (held_audio a) (audio_complete a) (response_committed a) (authorization_event a) v
    (acknowledgement a) (knowledge_task a) (tool_calls a) (speech_control a)
    (speech_control_applied a) (end_call_requested a) (transfer_requested a)
    (transfer_reason_summary a) (reasoning_content a) (at_turn a) (audio_sent a)
    (audio_pending_playout a) (speech_tasks a).
Definition set_knowledge_task (v : option nat) (a : Attempt) : Attempt :=
  mkAttempt (id a) (hypothesis a) (speculative a) (authorized a) (at_task a) (cancelled a)
    (answer a) (held_audio a) (audio_complete a) (response_committed a) (authorization_event a)
    (initial_answer a) (acknowledgement a) v (tool_calls a) (speech_control a)
    (speech_control_applied a) (end_call_requested a) (transfer_requested a)
    (transfer_reason_summary a) (reasoning_content a) (at_turn a) (audio_sent a)
    (audio_pending_playout a) (speech_tasks a).
Definition set_tool_calls (v : list tool_call) (a : Attempt) : Attempt :=
  mkAttempt (id a) (hypothesis a) (speculative a) (authorized a) (at_task a) (cancelled a)
    (answer a) (held_audio a) (audio_complete a) (response_committed a) (authorization_event a)
    (initial_answer a) (acknowledgement a) (knowledge_task a) v (speech_control a)
    (speech_control_applied a) (end_call_requested a) (transfer_requested a)
    (transfer_reason_summary a) (reasoning_content a) (at_turn a) (audio_sent a)
    (audio_pending_playout a) (speech_tasks a).
Definition set_speech_control (v : option tool_call) (a : Attempt) : Attempt :=
  mkAttempt (id a) (hypothesis a) (speculative a) (authorized a) (at_task a) (cancelled a)
    (answer a) (held_audio a) (audio_complete a) (response_committed a) (authorization_event a)
    (initial_answer a) (acknowledgement a) (knowledge_task a) (tool_calls a) v
    (speech_control_applied a) (end_call_requested a) (transfer_requested a)
    (transfer_reason_summary a) (reasoning_content a) (at_turn a) (audio_sent a)
    (audio_pending_playout a) (speech_tasks a).
Definition set_speech_control_applied (v : bool) (a : Attempt) : Attempt :=
  mkAttempt (id a) (hypothesis a) (speculative a) (authorized a) (at_task a) (cancelled a)
    (answer a) (held_audio a) (audio_complete a) (response_committed a) (authorization_event a)
    (initial_answer a) (acknowledgement a) (knowledge_task a) (tool_calls a) (speech_control a) v
    (end_call_requested a) (transfer_requested a) (transfer_reason_summary a)
    (reasoning_content a) (at_turn a) (audio_sent a) (audio_pending_playout a) (speech_tasks a).
Definition set_end_call_requested (v : bool) (a : Attempt) : Attempt :=
  mkAttempt (id a) (hypothesis a) (speculative a) (authorized a) (at_task a) (cancelled a)
    (answer a) (held_audio a) (audio_complete a) (response_committed a) (authorization_event a)
    (initial_answer a) (acknowledgement a) (knowledge_task a) (tool_calls a) (speech_control a)
    (speech_control_applied a) v (transfer_requested a) (transfer_reason_summary a)
    (reasoning_content a) (at_turn a) (audio_sent a) (audio_pending_playout a) (speech_tasks a).
Definition set_transfer_requested (v : bool) (a : Attempt) : Attempt :=
  mkAttempt (id a) (hypothesis a) (speculative a) (authorized a) (at_task a) (cancelled a)
    (answer a) (held_audio a) (audio_complete a) (response_committed a) (authorization_event a)
    (initial_answer a) (acknowledgement a) (knowledge_task a) (tool_calls a) (speech_control a)
    (speech_control_applied a) (end_call_requested a) v (transfer_reason_summary a)
    (reasoning_content a) (at_turn a) (audio_sent a) (audio_pending_playout a) (speech_tasks a).
Definition set_transfer_reason_summary (v : str) (a : Attempt) : Attempt :=
  mkAttempt (id a) (hypothesis a) (speculative a) (authorized a) (at_task a) (cancelled a)
    (answer a) (held_audio a) (audio_complete a) (response_committed a) (authorization_event a)
    (initial_answer a) (acknowledgement a) (knowledge_task a) (tool_calls a) (speech_control a)
    (speech_control_applied a) (end_call_requested a) (transfer_requested a) v
    (reasoning_content a) (at_turn a) (audio_sent a) (audio_pending_playout a) (speech_tasks a).
Definition set_reasoning_content (v : str) (a : Attempt) : Attempt :=
  mkAttempt (id a) (hypothesis a) (speculative a) (authorized a) (at_task a) (cancelled a)
    (answer a) (held_audio a) (audio_complete a) (response_committed a) (authorization_event a)
    (initial_answer a) (acknowledgement a) (knowledge_task a) (tool_calls a) (speech_control a)
    (speech_control_applied a) (end_call_requested a) (transfer_requested a)
    (transfer_reason_summary a) v (at_turn a) (audio_sent a) (audio_pending_playout a)
    (speech_tasks a).
Definition set_audio_sent (v : bool) (a : Attempt) : Attempt :=
  mkAttempt (id a) (hypothesis a) (speculative a) (authorized a) (at_task a) (cancelled a)
    (answer a) (held_audio a) (audio_complete a) (response_committed a) (authorization_event a)
    (initial_answer a) (acknowledgement a) (knowledge_task a) (tool_calls a) (speech_control a)
    (speech_control_applied a) (end_call_requested a) (transfer_requested a)
    (transfer_reason_summary a) (reasoning_content a) (at_turn a) v (audio_pending_playout a)
    (speech_tasks a).
Definition set_audio_pending_playout (v : bool) (a : Attempt) : Attempt :=
  mkAttempt (id a) (hypothesis a) (speculative a) (authorized a) (at_task a) (cancelled a)
    (answer a) (held_audio a) (audio_complete a) (response_committed a) (authorization_event a)
    (initial_answer a) (acknowledgement a) (knowledge_task a) (tool_calls a) (speech_control a)
    (speech_control_applied a) (end_call_requested a) (transfer_requested a)
    (transfer_reason_summary a) (reasoning_content a) (at_turn a) (audio_sent a) v
    (speech_tasks a).
Definition set_speech_tasks (v : list nat) (a : Attempt) : Attempt :=
  mkAttempt (id a) (hypothesis a) (speculative a) (authorized a) (at_task a) (cancelled a)
    (answer a) (held_audio a) (audio_complete a) (response_committed a) (authorization_event a)
    (initial_answer a) (acknowledgement a) (knowledge_task a) (tool_calls a) (speech_control a)
    (speech_control_applied a) (end_call_requested a) (transfer_requested a)
    (transfer_reason_summary a) (reasoning_content a) (at_turn a) (audio_sent a)
    (audio_pending_playout a) v.

Definition set_state (v : pstate) (s : pipeline) : pipeline :=
  mkPipeline v (call_ending s) (handoff_active s) (handoff_in_progress s) (turn_id s)
    (turn_number s) (speech_ms s) (silence_ms s) (last_partial s) (final_text s) (attempt s)
    (attempts s) (next_attempt s) (stability_task s) (final_response_task s)
    (final_timeout_task s) (closed_turns s) (last_closed_turn_id s) (silence_candidate s)
    (speech_candidate_active s) (candidate_turn_id s) (preconfirm_partial s) (turn_pcm16 s)
    (pending_action s) (next_pending s) (speech_lock s) (queues s) (next_queue s) (speech_on s)
    (engagement_closed s).
Definition set_call_ending (v : bool) (s : pipeline) : pipeline :=
  mkPipeline (state s) v (handoff_active s) (handoff_in_progress s) (turn_id s) (turn_number s)
    (speech_ms s) (silence_ms s) (last_partial s) (final_text s) (attempt s) (attempts s)
    (next_attempt s) (stability_task s) (final_response_task s) (final_timeout_task s)
    (closed_turns s) (last_closed_turn_id s) (silence_candidate s) (speech_candidate_active s)
    (candidate_turn_id s) (preconfirm_partial s) (turn_pcm16 s) (pending_action s)
    (next_pending s) (speech_lock s) (queues s) (next_queue s) (speech_on s) (engagement_closed s).
Definition set_handoff_active (v : bool) (s : pipeline) : pipeline :=
  mkPipeline (state s) (call_ending s) v (handoff_in_progress s) (turn_id s) (turn_number s)
    (speech_ms s) (silence_ms s) (last_partial s) (final_text s) (attempt s) (attempts s)
    (next_attempt s) (stability_task s) (final_response_task s) (final_timeout_task s)
    (closed_turns s) (last_closed_turn_id s) (silence_candidate s) (speech_candidate_active s)
    (candidate_turn_id s) (preconfirm_partial s) (turn_pcm16 s) (pending_action s)
    (next_pending s) (speech_lock s) (queues s) (next_queue s) (speech_on s) (engagement_closed s).
Definition set_handoff_in_progress (v : bool) (s : pipeline) : pipeline :=
  mkPipeline (state s) (call_ending s) (handoff_active s) v (turn_id s) (turn_number s)
    (speech_ms s) (silence_ms s) (last_partial s) (final_text s) (attempt s) (attempts s)
    (next_attempt s) (stability_task s) (final_response_task s) (final_timeout_task s)
    (closed_turns s) (last_closed_turn_id s) (silence_candidate s) (speech_candidate_active s)
    (candidate_turn_id s) (preconfirm_partial s) (turn_pcm16 s) (pending_action s)
    (next_pending s) (speech_lock s) (queues s) (next_queue s) (speech_on s) (engagement_closed s).
Definition set_turn_id (v : option str) (s : pipeline) : pipeline :=
  mkPipeline (state s) (call_ending s) (handoff_active s) (handoff_in_progress s) v
    (turn_number s) (speech_ms s) (silence_ms s) (last_partial s) (final_text s) (attempt s)
    (attempts s) (next_attempt s) (stability_task s) (final_response_task s)
    (final_timeout_task s) (closed_turns s) (last_closed_turn_id s) (silence_candidate s)
    (speech_candidate_active s) (candidate_turn_id s) (preconfirm_partial s) (turn_pcm16 s)
    (pending_action s) (next_pending s) (speech_lock s) (queues s) (next_queue s) (speech_on s)
    (engagement_closed s).
Definition set_turn_number (v : Z) (s : pipeline) : pipeline :=
  mkPipeline (state s) (call_ending s) (handoff_active s) (handoff_in_progress s) (turn_id s) v
    (speech_ms s) (silence_ms s) (last_partial s) (final_text s) (attempt s) (attempts s)
    (next_attempt s) (stability_task s) (final_response_task s) (final_timeout_task s)
    (closed_turns s) (last_closed_turn_id s) (silence_candidate s) (speech_candidate_active s)
    (candidate_turn_id s) (preconfirm_partial s) (turn_pcm16 s) (pending_action s)
    (next_pending s) (speech_lock s) (queues s) (next_queue s) (speech_on s) (engagement_closed s).
Definition set_speech_ms (v : Z) (s : pipeline) : pipeline :=
  mkPipeline (state s) (call_ending s) (handoff_active s) (handoff_in_progress s) (turn_id s)
    (turn_number s) v (silence_ms s) (last_partial s) (final_text s) (attempt s) (attempts s)
    (next_attempt s) (stability_task s) (final_response_task s) (final_timeout_task s)
    (closed_turns s) (last_closed_turn_id s) (silence_candidate s) (speech_candidate_active s)
    (candidate_turn_id s) (preconfirm_partial s) (turn_pcm16 s) (pending_action s)
    (next_pending s) (speech_lock s) (queues s) (next_queue s) (speech_on s) (engagement_closed s).
Definition set_silence_ms (v : Z) (s : pipeline) : pipeline :=
  mkPipeline (state s) (call_ending s) (handoff_active s) (handoff_in_progress s) (turn_id s)
    (turn_number s) (speech_ms s) v (last_partial s) (final_text s) (attempt s) (attempts s)
    (next_attempt s) (stability_task s) (final_response_task s) (final_timeout_task s)
    (closed_turns s) (last_closed_turn_id s) (silence_candidate s) (speech_candidate_active s)
    (candidate_turn_id s) (preconfirm_partial s) (turn_pcm16 s) (pending_action s)
    (next_pending s) (speech_lock s) (queues s) (next_queue s) (speech_on s) (engagement_closed s).
Definition set_last_partial (v : str) (s : pipeline) : pipeline :=
  mkPipeline (state s) (call_ending s) (handoff_active s) (handoff_in_progress s) (turn_id s)
    (turn_number s) (speech_ms s) (silence_ms s) v (final_text s) (attempt s) (attempts s)
    (next_attempt s) (stability_task s) (final_response_task s) (final_timeout_task s)
    (closed_turns s) (last_closed_turn_id s) (silence_candidate s) (speech_candidate_active s)
    (candidate_turn_id s) (preconfirm_partial s) (turn_pcm16 s) (pending_action s)
    (next_pending s) (speech_lock s) (queues s) (next_queue s) (speech_on s) (engagement_closed s).
Definition set_final_text (v : str) (s : pipeline) : pipeline :=
  mkPipeline (state s) (call_ending s) (handoff_active s) (handoff_in_progress s) (turn_id s)
    (turn_number s) (speech_ms s) (silence_ms s) (last_partial s) v (attempt s) (attempts s)
    (next_attempt s) (stability_task s) (final_response_task s) (final_timeout_task s)
    (closed_turns s) (last_closed_turn_id s) (silence_candidate s) (speech_candidate_active s)
    (candidate_turn_id s) (preconfirm_partial s) (turn_pcm16 s) (pending_action s)
    (next_pending s) (speech_lock s) (queues s) (next_queue s) (speech_on s) (engagement_closed s).
Definition set_attempt (v : option nat) (s : pipeline) : pipeline :=
  mkPipeline (state s) (call_ending s) (handoff_active s) (handoff_in_progress s) (turn_id s)
    (turn_number s) (speech_ms s) (silence_ms s) (last_partial s) (final_text s) v (attempts s)
    (next_attempt s) (stability_task s) (final_response_task s) (final_timeout_task s)
    (closed_turns s) (last_closed_turn_id s) (silence_candidate s) (speech_candidate_active s)
    (candidate_turn_id s) (preconfirm_partial s) (turn_pcm16 s) (pending_action s)
    (next_pending s) (speech_lock s) (queues s) (next_queue s) (speech_on s) (engagement_closed s).
Definition set_stability_task (v : option nat) (s : pipeline) : pipeline :=
  mkPipeline (state s) (call_ending s) (handoff_active s) (handoff_in_progress s) (turn_id s)
    (turn_number s) (speech_ms s) (silence_ms s) (last_partial s) (final_text s) (attempt s)
    (attempts s) (next_attempt s) v (final_response_task s) (final_timeout_task s)
    (closed_turns s) (last_closed_turn_id s) (silence_candidate s) (speech_candidate_active s)
    (candidate_turn_id s) (preconfirm_partial s) (turn_pcm16 s) (pending_action s)
    (next_pending s) (speech_lock s) (queues s) (next_queue s) (speech_on s) (engagement_closed s).
Definition set_final_response_task (v : option nat) (s : pipeline) : pipeline :=
  mkPipeline (state s) (call_ending s) (handoff_active s) (handoff_in_progress s) (turn_id s)
    (turn_number s) (speech_ms s) (silence_ms s) (last_partial s) (final_text s) (attempt s)
    (attempts s) (next_attempt s) (stability_task s) v (final_timeout_task s) (closed_turns s)
    (last_closed_turn_id s) (silence_candidate s) (speech_candidate_active s)
    (candidate_turn_id s) (preconfirm_partial s) (turn_pcm16 s) (pending_action s)
    (next_pending s) (speech_lock s) (queues s) (next_queue s) (speech_on s) (engagement_closed s).
Definition set_final_timeout_task (v : option nat) (s : pipeline) : pipeline :=
  mkPipeline (state s) (call_ending s) (handoff_active s) (handoff_in_progress s) (turn_id s)
    (turn_number s) (speech_ms s) (silence_ms s) (last_partial s) (final_text s) (attempt s)
    (attempts s) (next_attempt s) (stability_task s) (final_response_task s) v (closed_turns s)
    (last_closed_turn_id s) (silence_candidate s) (speech_candidate_active s)
    (candidate_turn_id s) (preconfirm_partial s) (turn_pcm16 s) (pending_action s)
    (next_pending s) (speech_lock s) (queues s) (next_queue s) (speech_on s) (engagement_closed s).
Definition set_closed_turns (v : list str) (s : pipeline) : pipeline :=
  mkPipeline (state s) (call_ending s) (handoff_active s) (handoff_in_progress s) (turn_id s)
    (turn_number s) (speech_ms s) (silence_ms s) (last_partial s) (final_text s) (attempt s)
    (attempts s) (next_attempt s) (stability_task s) (final_response_task s)
    (final_timeout_task s) v (last_closed_turn_id s) (silence_candidate s)
    (speech_candidate_active s) (candidate_turn_id s) (preconfirm_partial s) (turn_pcm16 s)
    (pending_action s) (next_pending s) (speech_lock s) (queues s) (next_queue s) (speech_on s)
    (engagement_closed s).
Definition set_last_closed_turn_id (v : option str) (s : pipeline) : pipeline :=
  mkPipeline (state s) (call_ending s) (handoff_active s) (handoff_in_progress s) (turn_id s)
    (turn_number s) (speech_ms s) (silence_ms s) (last_partial s) (final_text s) (attempt s)
    (attempts s) (next_attempt s) (stability_task s) (final_response_task s)
    (final_timeout_task s) (closed_turns s) v (silence_candidate s) (speech_candidate_active s)
    (candidate_turn_id s) (preconfirm_partial s) (turn_pcm16 s) (pending_action s)
    (next_pending s) (speech_lock s) (queues s) (next_queue s) (speech_on s) (engagement_closed s).
Definition set_silence_candidate (v : bool) (s : pipeline) : pipeline :=
  mkPipeline (state s) (call_ending s) (handoff_active s) (handoff_in_progress s) (turn_id s)
    (turn_number s) (speech_ms s) (silence_ms s) (last_partial s) (final_text s) (attempt s)
    (attempts s) (next_attempt s) (stability_task s) (final_response_task s)
    (final_timeout_task s) (closed_turns s) (last_closed_turn_id s) v (speech_candidate_active s)
    (candidate_turn_id s) (preconfirm_partial s) (turn_pcm16 s) (pending_action s)
    (next_pending s) (speech_lock s) (queues s) (next_queue s) (speech_on s) (engagement_closed s).
Definition set_speech_candidate_active (v : bool) (s : pipeline) : pipeline :=
  mkPipeline (state s) (call_ending s) (handoff_active s) (handoff_in_progress s) (turn_id s)
    (turn_number s) (speech_ms s) (silence_ms s) (last_partial s) (final_text s) (attempt s)
    (attempts s) (next_attempt s) (stability_task s) (final_response_task s)
    (final_timeout_task s) (closed_turns s) (last_closed_turn_id s) (silence_candidate s) v
    (candidate_turn_id s) (preconfirm_partial s) (turn_pcm16 s) (pending_action s)
    (next_pending s) (speech_lock s) (queues s) (next_queue s) (speech_on s) (engagement_closed s).
Definition set_candidate_turn_id (v : option str) (s : pipeline) : pipeline :=
  mkPipeline (state s) (call_ending s) (handoff_active s) (handoff_in_progress s) (turn_id s)
    (turn_number s) (speech_ms s) (silence_ms s) (last_partial s) (final_text s) (attempt s)
    (attempts s) (next_attempt s) (stability_task s) (final_response_task s)
    (final_timeout_task s) (closed_turns s) (last_closed_turn_id s) (silence_candidate s)
    (speech_candidate_active s) v (preconfirm_partial s) (turn_pcm16 s) (pending_action s)
    (next_pending s) (speech_lock s) (queues s) (next_queue s) (speech_on s) (engagement_closed s).
Definition set_preconfirm_partial (v : option (str * str)) (s : pipeline) : pipeline :=
  mkPipeline (state s) (call_ending s) (handoff_active s) (handoff_in_progress s) (turn_id s)
    (turn_number s) (speech_ms s) (silence_ms s) (last_partial s) (final_text s) (attempt s)
    (attempts s) (next_attempt s) (stability_task s) (final_response_task s)
    (final_timeout_task s) (closed_turns s) (last_closed_turn_id s) (silence_candidate s)
    (speech_candidate_active s) (candidate_turn_id s) v (turn_pcm16 s) (pending_action s)
    (next_pending s) (speech_lock s) (queues s) (next_queue s) (speech_on s) (engagement_closed s).
Definition set_turn_pcm16 (v : list Z) (s : pipeline) : pipeline :=
  mkPipeline (state s) (call_ending s) (handoff_active s) (handoff_in_progress s) (turn_id s)
    (turn_number s) (speech_ms s) (silence_ms s) (last_partial s) (final_text s) (attempt s)
    (attempts s) (next_attempt s) (stability_task s) (final_response_task s)
    (final_timeout_task s) (closed_turns s) (last_closed_turn_id s) (silence_candidate s)
    (speech_candidate_active s) (candidate_turn_id s) (preconfirm_partial s) v (pending_action s)
    (next_pending s) (speech_lock s) (queues s) (next_queue s) (speech_on s) (engagement_closed s).
Definition set_pending_action (v : option pending) (s : pipeline) : pipeline :=
  mkPipeline (state s) (call_ending s) (handoff_active s) (handoff_in_progress s) (turn_id s)
    (turn_number s) (speech_ms s) (silence_ms s) (last_partial s) (final_text s) (attempt s)
    (attempts s) (next_attempt s) (stability_task s) (final_response_task s)
    (final_timeout_task s) (closed_turns s) (last_closed_turn_id s) (silence_candidate s)
    (speech_candidate_active s) (candidate_turn_id s) (preconfirm_partial s) (turn_pcm16 s) v
    (next_pending s) (speech_lock s) (queues s) (next_queue s) (speech_on s) (engagement_closed s).
Definition set_speech_lock (v : bool) (s : pipeline) : pipeline :=
  mkPipeline (state s) (call_ending s) (handoff_active s) (handoff_in_progress s) (turn_id s)
    (turn_number s) (speech_ms s) (silence_ms s) (last_partial s) (final_text s) (attempt s)
    (attempts s) (next_attempt s) (stability_task s) (final_response_task s)
    (final_timeout_task s) (closed_turns s) (last_closed_turn_id s) (silence_candidate s)
    (speech_candidate_active s) (candidate_turn_id s) (preconfirm_partial s) (turn_pcm16 s)
    (pending_action s) (next_pending s) v (queues s) (next_queue s) (speech_on s)
    (engagement_closed s).
Definition set_queues (v : gmap nat (list (option str))) (s : pipeline) : pipeline :=
  mkPipeline (state s) (call_ending s) (handoff_active s) (handoff_in_progress s) (turn_id s)
    (turn_number s) (speech_ms s) (silence_ms s) (last_partial s) (final_text s) (attempt s)
    (attempts s) (next_attempt s) (stability_task s) (final_response_task s)
    (final_timeout_task s) (closed_turns s) (last_closed_turn_id s) (silence_candidate s)
    (speech_candidate_active s) (candidate_turn_id s) (preconfirm_partial s) (turn_pcm16 s)
    (pending_action s) (next_pending s) (speech_lock s) v (next_queue s) (speech_on s)
    (engagement_closed s).
Definition set_speech_on (v : bool) (s : pipeline) : pipeline :=
  mkPipeline (state s) (call_ending s) (handoff_active s) (handoff_in_progress s) (turn_id s)
    (turn_number s) (speech_ms s) (silence_ms s) (last_partial s) (final_text s) (attempt s)
    (attempts s) (next_attempt s) (stability_task s) (final_response_task s)
    (final_timeout_task s) (closed_turns s) (last_closed_turn_id s) (silence_candidate s)
    (speech_candidate_active s) (candidate_turn_id s) (preconfirm_partial s) (turn_pcm16 s)
    (pending_action s) (next_pending s) (speech_lock s) (queues s) (next_queue s) v
    (engagement_closed s).

(** ** Building blocks *)

Definition modify (f : pipeline → pipeline) (k : coroutine) : coroutine := Get (λ s, Put (f s) k).

(** Attempt [a], which a task that knows its key always finds. *)
Definition with_attempt (a : nat) (f : Attempt → coroutine) : coroutine :=
  Get (λ s, match attempts s !! a with Some x => f x | None => Throw AttributeError end).

Definition set_attempts (m : gmap nat Attempt) (s : pipeline) : pipeline :=
  mkPipeline (state s) (call_ending s) (handoff_active s) (handoff_in_progress s) (turn_id s)
    (turn_number s) (speech_ms s) (silence_ms s) (last_partial s) (final_text s) (attempt s) m
    (next_attempt s) (stability_task s) (final_response_task s) (final_timeout_task s)
    (closed_turns s) (last_closed_turn_id s) (silence_candidate s) (speech_candidate_active s)
    (candidate_turn_id s) (preconfirm_partial s) (turn_pcm16 s) (pending_action s)
    (next_pending s) (speech_lock s) (queues s) (next_queue s) (speech_on s) (engagement_closed s).

(** A new [Attempt] object. *)
Definition add_attempt (x : Attempt) (s : pipeline) : pipeline :=
  mkPipeline (state s) (call_ending s) (handoff_active s) (handoff_in_progress s) (turn_id s)
    (turn_number s) (speech_ms s) (silence_ms s) (last_partial s) (final_text s) (attempt s)
    (<[next_attempt s := x]> (attempts s)) (S (next_attempt s)) (stability_task s)
    (final_response_task s) (final_timeout_task s) (closed_turns s) (last_closed_turn_id s)
    (silence_candidate s) (speech_candidate_active s) (candidate_turn_id s)
    (preconfirm_partial s) (turn_pcm16 s) (pending_action s) (next_pending s) (speech_lock s)
    (queues s) (next_queue s) (speech_on s) (engagement_closed s).

(** A new phrase queue. *)
Definition add_queue (items : list (option str)) (s : pipeline) : pipeline :=
  mkPipeline (state s) (call_ending s) (handoff_active s) (handoff_in_progress s) (turn_id s)
    (turn_number s) (speech_ms s) (silence_ms s) (last_partial s) (final_text s) (attempt s)
    (attempts s) (next_attempt s) (stability_task s) (final_response_task s)
    (final_timeout_task s) (closed_turns s) (last_closed_turn_id s) (silence_candidate s)
    (speech_candidate_active s) (candidate_turn_id s) (preconfirm_partial s) (turn_pcm16 s)
    (pending_action s) (next_pending s) (speech_lock s) (<[next_queue s := items]> (queues s))
    (S (next_queue s)) (speech_on s) (engagement_closed s).

(** A new [PendingAction]. *)
Definition add_pending (call : tool_call) (prompt : str) (s : pipeline) : pipeline :=
  mkPipeline (state s) (call_ending s) (handoff_active s) (handoff_in_progress s) (turn_id s)
    (turn_number s) (speech_ms s) (silence_ms s) (last_partial s) (final_text s) (attempt s)
    (attempts s) (next_attempt s) (stability_task s) (final_response_task s)
    (final_timeout_task s) (closed_turns s) (last_closed_turn_id s) (silence_candidate s)
    (speech_candidate_active s) (candidate_turn_id s) (preconfirm_partial s) (turn_pcm16 s)
    (Some (mkPending (next_pending s) call prompt 0)) (S (next_pending s)) (speech_lock s)
    (queues s) (next_queue s) (speech_on s) (engagement_closed s).

Definition pend (call : tool_call) (prompt : str) (k : coroutine) : coroutine :=
  Get (λ s, Put (add_pending call prompt s) (Emit (Pended (next_pending s) call prompt) k)).

Definition update (a : nat) (f : Attempt → Attempt) (k : coroutine) : coroutine :=
  modify (λ s, set_attempts (alter f a (attempts s)) s) k.

(** An awaited call whose answer does not matter. *)
Definition io (q : request) (k : coroutine) (h : handler) : coroutine := Await (WIo q) (λ _, k) h.

(** [await self.send(...)] *)
Definition send (o : effect) (k : coroutine) (h : handler) : coroutine := Emit o (io QSend k h).

(** [if b: p] *)
Definition when (b : bool) (p : coroutine → coroutine) (k : coroutine) : coroutine :=
  if b then p k else k.

Fixpoint cancel_all (ts : list nat) (k : coroutine) : coroutine :=
  match ts with [] => k | t :: ts => Cancel t (cancel_all ts k) end.

(** [try .. except Exception: d]: a cancellation passes. *)
Definition on_exception (d : handler) (h : handler) : handler :=
  λ e, match e with CancelledError => h CancelledError | _ => d e end.

Definition add_set (x : str) (l : list str) : list str := if in_strs x l then l else l ++ [x].

(** [f"turn-{n:04d}"] *)
Definition turn_name (n : Z) : str :=
  let d := str_of_Z n in lit "turn-" ++ replicate (4 - length d) 48 ++ d.

(** [rms_pcm16(pcm) >= threshold], squared. *)
Fixpoint samples (pcm : list Z) : list Z :=
  match pcm with
  | lo :: hi :: pcm => let v := lo + 256 * hi in (if v <? 32768 then v else v - 65536) :: samples pcm
  | _ => []
  end.
Definition energy (pcm : list Z) : Z := foldr (λ v acc, v * v + acc) 0 (samples pcm).
Definition loud (threshold : Z) (pcm : list Z) : bool :=
  let n := Z.of_nat (length (samples pcm)) in
  if threshold <=? 0 then true
  else (0 <? n) && (threshold * threshold * n <=? energy pcm).

(** *** Echo of the recogniser's context: is_asr_context_echo of latency_lab/providers.py *)

(** [[a-z0-9]] of a pattern that ignores case. *)
Definition asr_char (c : Z) : bool :=
  ((97 <=? c) && (c <=? 122)) || ((65 <=? c) && (c <=? 90)) || ((48 <=? c) && (c <=? 57))
  || existsb (Z.eqb c) [304; 305; 383; 8490].
Definition asr_words (s : str) : list str := map py_lower (words_by (λ c, negb (asr_char c)) [] s).

(** One row of the table of common spans. *)
Fixpoint span_row (word : str) (diagonal : nat) (previous : list nat) (hint : list str) : list nat :=
  match hint, previous with
  | h :: hint, p :: previous =>
      (if word =s h then S diagonal else O) :: span_row word p previous hint
  | _, _ => []
  end.
Fixpoint longest_span (words : list str) (previous : list nat) (longest : nat) (hint : list str) : nat :=
  match words with
  | [] => longest
  | w :: words =>
      let current := span_row w O previous hint in
      longest_span words current (foldr Nat.max longest current) hint
  end.

Definition is_asr_context_echo (transcript context : str) : bool :=
  let words := asr_words transcript in
  let hint := asr_words context in
  let n := length words in
  if (n <? 4)%nat || bool_decide (hint = []) then false
  else if (n <=? 5)%nat && bool_decide (words = take n hint) then true
  else (8 <=? n)%nat && (4 * n <=? 5 * longest_span words (replicate (length hint) O) O hint)%nat.

(** ** The methods *)

Section turns.
Context (config : turn_config) (word : Z → bool) (casefold : str → str).

Definition requests_knowledge (answer : str) : bool := requests_knowledge_lookup word answer.

Definition _transition (target : pstate) (k : coroutine) : coroutine :=
  Get (λ s, Put (set_state target s) (Emit (Transition (state s) target) k)).

Definition _clear_speech_candidate : pipeline → pipeline :=
  λ s, set_speech_ms 0 (set_preconfirm_partial None (set_candidate_turn_id None
    (set_speech_candidate_active false s))).

(** [closed_turns.add(turn)] and what goes with it. *)
Definition close_turn (turn : str) (k : coroutine) : coroutine :=
  modify (λ s, set_last_closed_turn_id (Some turn) (set_closed_turns (add_set turn (closed_turns s)) s))
    (Emit (TurnClose turn) k).
Definition close_turn_of (turn : option str) (k : coroutine) : coroutine :=
  match turn with Some t => close_turn t k | None => k end.

(** *** Audio out *)

Definition _send_audio (a : nat) (sample_rate : Z) (chunk : list Z) (k : coroutine) (h : handler)
    : coroutine :=
  Get (λ s, with_attempt a (λ x,
    if cancelled x || negb (speech_on s) then k else
    update a (λ x, set_audio_pending_playout true (set_audio_sent true x))
    (send (Chunk a sample_rate chunk)
      (when (engagement_enabled config) (Emit (AudioSent (Z.of_nat (length chunk)) sample_rate)) k) h))).

Definition _commit_attempt_text (a : nat) (k : coroutine) (h : handler) : coroutine :=
  Get (λ s, with_attempt a (λ x,
    let text := py_strip (answer x) in
    let turn := at_turn x in
    if negb (speech_on s) || (engagement_enabled config && bool_decide (text = [])) then
      Emit (MemoryListening turn (negb (speech_on s))) (Emit (MemoryFinish turn false) k)
    else if response_committed x then k
    else
      update a (set_response_committed true)
      (Emit (MemoryUser turn (match final_text s with [] => hypothesis x | t => t end) false)
      (Emit (MemoryAnswer turn text (reasoning_content x))
      (Emit (Commit a text turn)
      (send (Say (lit "final_assistant_answer") text) k h)))))).

(** The end of [_release_held]. *)
Definition release_done (a : nat) (k : coroutine) (h : handler) : coroutine :=
  update a (set_held_audio [])
  (with_attempt a (λ x,
    if audio_complete x then _commit_attempt_text a (send TtsEnd k h) h else k)).

(** The chunks from number [i] on; the list is read again after each chunk sent. *)
Fixpoint release_chunks (a i : nat) (rest : list (Z * list Z)) (k : coroutine) (h : handler) : coroutine :=
  match rest with
  | [] => release_done a k h
  | (sample_rate, chunk) :: rest =>
      Get (λ s, with_attempt a (λ x,
        if cancelled x || negb (speech_on s) then release_chunks a (S i) rest k h else
        update a (λ x, set_audio_pending_playout true (set_audio_sent true x))
        (Emit (Chunk a sample_rate chunk)
        (Again (WIo QSend) (LRelease a i (Z.of_nat (length chunk)) sample_rate) (λ _, k) h))))
  end.

Definition _release_held (a : nat) (k : coroutine) (h : handler) : coroutine :=
  Get (λ s, if negb (speech_on s) then update a (set_held_audio []) k else
  with_attempt a (λ x,
    when (engagement_enabled config && negb (bool_decide (answer x = [])) && negb (audio_complete x))
      (λ k, send (Say (lit "partial_assistant_answer") (answer x)) k h)
    (with_attempt a (λ x, release_chunks a 0 (held_audio x) k h)))).

Definition queue_ready (q : nat) (s : pipeline) : bool :=
  match queues s !! q with Some (_ :: _) => true | _ => false end.

Definition enqueue (q : nat) (items : list (option str)) (s : pipeline) : pipeline :=
  set_queues (alter (λ l, l ++ items) q (queues s)) s.

Definition lock_free (s : pipeline) : bool := negb (speech_lock s).

(** [_synthesize_phrases]: the phrases of queue [q], under the speech lock. *)
Definition _synthesize_phrases (a : nat) (phase : str) (q : nat) (k : coroutine) (h : handler) : coroutine :=
  Await (WUntil lock_free) (λ _,
    modify (set_speech_lock true)
    (Again (WUntil (queue_ready q)) (LPhrases a phase q)
      (λ _, modify (set_speech_lock false) k)
      (λ e, modify (set_speech_lock false) (h e)))) h.

Definition next_phrase (a : nat) (phase : str) (q : nat) (k : cont) (h : handler) : coroutine :=
  Again (WUntil (queue_ready q)) (LPhrases a phase q) k h.
Definition next_chunk (a : nat) (phase : str) (q : nat) (rate : Z) (k : cont) (h : handler) : coroutine :=
  Again (WIo QChunk) (LChunks a phase q rate) k h.

Definition phrase_to_speak (phase phrase : str) (x : Attempt) : str :=
  if negb (engagement_enabled config) && (phase =s lit "prompt_first") && requests_knowledge phrase
  then acknowledgement x else phrase.

(** One round of [_synthesize_phrases_locked], with the phrase taken from the queue. *)
Definition synthesize_phrase (a : nat) (phase : str) (q : nat) (k : cont) (h : handler) : coroutine :=
  Get (λ s,
    match queues s !! q with
    | Some (item :: rest) =>
        Put (set_queues (<[q := rest]> (queues s)) s)
        (with_attempt a (λ x,
          match item with
          | None => k VUnit
          | Some phrase =>
              if cancelled x || negb (speech_on s) then k VUnit else
              Emit (TtsRequest a (phrase_to_speak phase phrase x))
              (Await (WIo QTts) (λ v,
                match v with
                | VRate rate => next_chunk a phase q rate k h
                | _ => h TypeError
                end) h)
          end))
    | _ => h OtherError
    end).

(** One round of its inner loop. *)
Definition synthesize_chunk (a : nat) (phase : str) (q : nat) (rate : Z) (v : reply) (k : cont) (h : handler)
    : coroutine :=
  match v with
  | VChunk chunk =>
      with_attempt a (λ x,
        if cancelled x then k VUnit
        else if bool_decide (chunk = []) then next_chunk a phase q rate k h
        else if authorized x then _send_audio a rate chunk (next_chunk a phase q rate k h) h
        else update a (λ x, set_held_audio (held_audio x ++ [(rate, chunk)]) x)
               (next_chunk a phase q rate k h))
  | _ => next_phrase a phase q k h
  end.

Definition _speak_text (a : nat) (text phase : str) (k : coroutine) (h : handler) : coroutine :=
  let clean := py_strip text in
  Get (λ s, with_attempt a (λ x,
    if bool_decide (clean = []) || cancelled x || negb (speech_on s) then k else
    let full := py_strip (py_strip (answer x) ++ lit " " ++ clean) in
    update a (set_answer full)
    (when (negb (engagement_enabled config) || authorized x)
      (λ k, send (Say (lit "partial_assistant_answer") full) k h)
    (Get (λ s, Put (add_queue [Some clean; None] s)
      (_synthesize_phrases a phase (next_queue s) k h)))))).

(** *** Interruption *)

(** [if task and task is not current_task: task.cancel(); await gather(task)] *)
Definition stop_task (me : nat) (t : option nat) (k : coroutine) (h : handler) : coroutine :=
  match t with
  | Some t => if (t =? me)%nat then k else Cancel t (Await (WAll [t]) (λ _, k) h)
  | None => k
  end.

(** From the end of the attempt's tasks on. *)
Definition cancel_finish (a : nat) (released : bool) (k : coroutine) (h : handler) : coroutine :=
  with_attempt a (λ x,
    let text := py_strip (answer x) in
    let heard := audio_sent x && negb (bool_decide (answer x = [])) && negb (response_committed x) in
    Emit (Cancelled a)
    (when heard (Emit (AddAssistant a text (at_turn x) true))
    (when (negb (starts_with (lit "opening-") (at_turn x)))
      (λ k, when (released && heard) (Emit (MemoryAnswer (at_turn x) text (reasoning_content x)))
              (Emit (MemoryFinish (at_turn x) true) k))
    (when released (λ k, send StopTts (Emit PlaybackStopped k) h)
    (modify (set_attempt None) k))))).

(** The current attempt is told, then its tasks are stopped one after the other. *)
Definition cancel_tasks (me : nat) (k : coroutine) (h : handler) : coroutine :=
  Get (λ s,
    match attempt s with
    | None => k
    | Some a =>
        update a (set_cancelled true)
        (with_attempt a (λ x,
          cancel_all (speech_tasks x)
          (Await (WAll (speech_tasks x)) (λ _,
            with_attempt a (λ x,
              stop_task me (at_task x)
                (with_attempt a (λ y, stop_task me (knowledge_task y) (cancel_finish a (authorized x) k h) h))
                h)) h)))
    end).

Definition cancel_current (me : nat) (k : coroutine) (h : handler) : coroutine :=
  when (engagement_enabled config) (Emit Invalidate) (cancel_tasks me k h).

Definition _cancel_attempt (k : coroutine) (h : handler) : coroutine :=
  Self (λ me, Get (λ s,
    match final_response_task s with
    | Some t =>
        if (t =? me)%nat then cancel_current me k h
        else Cancel t (Await (WAll [t]) (λ _,
               modify (set_final_response_task None) (cancel_current me k h)) h)
    | None => cancel_current me k h
    end)).

(** *** Generation *)

Definition event_set (a : nat) (s : pipeline) : bool :=
  match attempts s !! a with Some x => authorization_event x | None => false end.

(** [if not attempt.authorized: await attempt.authorization_event.wait()] *)
Definition until_authorized (a : nat) (k : coroutine) (h : handler) : coroutine :=
  with_attempt a (λ x, if authorized x then k else Await (WUntil (event_set a)) (λ _, k) h).

Definition discard_answer (x : Attempt) : Attempt := set_held_audio [] (set_answer [] x).

(** The arguments of a gate change, when they are as its schema says. *)
Definition gate_arguments (args : dict) : option (bool * str) :=
  match dget (lit "enabled") args, dget (lit "response") args with
  | Some (JBool b), Some (JStr r) =>
      if forallb (λ key, in_strs key [lit "enabled"; lit "response"]) (dkeys args)
         && (slen r <=? 2000) && (b || bool_decide (r = []))
      then Some (b, r) else None
  | _, _ => None
  end.

Definition _apply_speech_control (a : nat) (k : coroutine) (h : handler) : coroutine :=
  Get (λ s, with_attempt a (λ x,
    match speech_control x with
    | None => k
    | Some call =>
        if speech_control_applied x || negb (authorized x) || cancelled x
           || negb (bool_decide (attempt s = Some a))
           || negb (bool_decide (turn_id s = Some (at_turn x))) || engagement_closed s then k else
        update a (set_speech_control_applied true)
        (match gate_arguments (call_arguments call) with
         | None => update a discard_answer k
         | Some (enabled, response) =>
             Emit (Gate enabled)
             (modify (set_speech_on enabled)
             (update a discard_answer
             (Emit (MemoryTool (at_turn x) call [(lit "speech_enabled", JBool enabled)])
             (if enabled then
                if bool_decide (response = []) then k
                else _speak_text a response (lit "speech_gate_resume") k h
              else
                with_attempt a (λ y,
                  cancel_all (speech_tasks y)
                  (Await (WAll (speech_tasks y)) (λ _,
                    update a (set_speech_tasks [])
                    (send StopTts
                      (Emit PlaybackStopped (Emit (MemoryListening (at_turn x) true) k)) h)) h))))))
         end)
    end)).

(** [_stream_llm_and_tts], which returns the tool calls of the stream. *)
Definition next_event (a : nat) (phase : str) (t : tokenizer) (calls : list tool_call) (q task : nat) (stopped : bool)
    (k : cont) (h : handler) : coroutine :=
  Again (WIo QLlm) (LStream a phase t calls q task stopped) k h.

Definition _stream_llm_and_tts (a : nat) (phase : str) (k : list tool_call → coroutine) (h : handler)
    : coroutine :=
  Get (λ s,
    let q := next_queue s in
    Put (add_queue [] s)
    (Spawn (_synthesize_phrases a phase q Done Throw) (λ task,
      next_event a phase tokenizer_init [] q task false
        (λ v, k (match v with VCalls calls => calls | _ => [] end))
        (λ e, Cancel task (Await (WAll [task]) (λ _, h e) h))))).

(** After the last event: the rest of the text, and the speech to wait for or to leave running;
    [stopped] is [tts_task.cancelled()]. *)
Definition stream_end (a : nat) (phase : str) (t : tokenizer) (calls : list tool_call) (q task : nat) (stopped : bool)
    (k : cont) (h : handler) : coroutine :=
  modify (enqueue q (map Some (fst (finish t)) ++ [None]))
  (with_attempt a (λ x,
    if engagement_enabled config
       && (negb (bool_decide (calls = []))
           || ((phase =s lit "prompt_first") && requests_knowledge (answer x)))
    then update a (λ x, set_speech_tasks (speech_tasks x ++ [task]) x) (k (VCalls calls))
    else if stopped then k (VCalls calls)
    else Await (WTask task) (λ _, k (VCalls calls)) h)).

(** One event of the stream. *)
Definition stream_event (a : nat) (phase : str) (t : tokenizer) (calls : list tool_call) (q task : nat) (stopped : bool)
    (v : reply) (k : cont) (h : handler) : coroutine :=
  Get (λ s, with_attempt a (λ x,
    match v with
    | VReasoning r => update a (set_reasoning_content r) (next_event a phase t calls q task stopped k h)
    | VCall c =>
        if cancelled x then h CancelledError
        else if engagement_enabled config && (call_name c =s lit "set_speech_enabled") then
          if (phase =s lit "prompt_first") && bool_decide (speech_control x = None) then
            update a (set_speech_control (Some c))
            (if authorized x && bool_decide (dget (lit "enabled") (call_arguments c) = Some (JBool false))
             then _apply_speech_control a
                    (Cancel task (Await (WAll [task]) (λ _, next_event a phase t calls q task true k h) h)) h
             else next_event a phase t calls q task stopped k h)
          else next_event a phase t calls q task stopped k h
        else next_event a phase t (calls ++ [c]) q task stopped k h
    | VToken token =>
        if cancelled x then h CancelledError
        else if negb (speech_on s) then next_event a phase t calls q task stopped k h
        else
          let full := answer x ++ token in
          update a (set_answer full)
          (when (negb (engagement_enabled config) || authorized x)
            (λ k, send (Say (lit "partial_assistant_answer") full) k h)
          (match push t token with
           | Some (phrases, t') =>
               modify (enqueue q (map Some phrases)) (next_event a phase t' calls q task stopped k h)
           | None => h OtherError
           end))
    | _ =>
        stream_end a phase t calls q task stopped k h
    end)).

Definition _generate_natural_action_response (a : nat) (phase : str) (k : coroutine) (h : handler)
    : coroutine :=
  update a (set_answer [])
  (_stream_llm_and_tts a phase (λ _, k) (on_exception (λ _, k) h)).

(** An application text: in the words of the model for a French agent, literal otherwise. *)
Definition say_result (a : nat) (text phase : str) (k : coroutine) (h : handler) : coroutine :=
  if french config then _generate_natural_action_response a phase k h
  else _speak_text a text phase k h.

Definition _finish_speech (a : nat) (k : coroutine) (h : handler) : coroutine :=
  with_attempt a (λ x,
    if bool_decide (speech_tasks x = []) then k
    else Await (WGather (speech_tasks x)) (λ _, update a (set_speech_tasks []) k) h).

Definition _run_knowledge_lookup (a : nat) (call : tool_call) (k : coroutine) (h : handler) : coroutine :=
  Await (WIo QKnowledge) (λ v,
    match v with
    | VResult body _ =>
        with_attempt a (λ x,
          Emit (MemoryTool (at_turn x) call body)
          (update a (set_answer [])
          (_stream_llm_and_tts a (lit "knowledge_followup") (λ _, k) h)))
    | _ => h TypeError
    end) h.

(** [_run_banking_tools], as far as it concerns this machine. *)
Definition next_bank (a : nat) (k : cont) (h : handler) : coroutine := Again (WIo QBank) (LBank a) k h.

Definition bank_round (a : nat) (v : reply) (k : cont) (h : handler) : coroutine :=
  with_attempt a (λ x,
    if cancelled x || negb (authorized x) then k VUnit else
    match v with
    | VText text => _speak_text a text (lit "tool_acknowledged") (next_bank a k h) h
    | VAsk call prompt =>
        pend call prompt
          (_speak_text a prompt (lit "bank_preview_confirmation") (k VUnit) h)
    | _ => k VUnit
    end).

Definition transfer_text : str := lit "All right, I'll connect you now.".
Definition transfer_failure_text : str :=
  lit "I'm sorry, I couldn't connect you just now. I'm still here to help, or you can try the customer care number.".
Definition farewell_text : str := lit "Thank you for sharing that with me. Take care.".
Definition cannot_prepare_text : str :=
  lit "I can't prepare that request right now. Please try again in a moment.".

(** The first tool call of a generation, once the turn is committed. *)
Definition dispatch_tool (a : nat) (call : tool_call) (k : coroutine) (h : handler) : coroutine :=
  let name := call_name call in
  if name =s lit "knowledge_lookup" then _run_knowledge_lookup a call k h
  else if name =s lit "transfer_to_aicc" then
    update a (λ x, set_transfer_reason_summary
        (slice_to 240 (py_str (jor (call_arguments call).[lit "reason_summary"]
                                   (JStr (lit "Caller requested a colleague.")))))
      (set_transfer_requested true (discard_answer x)))
    (say_result a transfer_text (lit "transfer_hold") k h)
  else if in_strs name BANK_TOOLS then next_bank a (λ _, k) h
  else if name =s lit "end_call" then
    with_attempt a (λ x,
      if negb (authorized x) then update a (λ x, set_answer [] (set_tool_calls [] x)) k else
      update a (set_end_call_requested true)
      (modify (set_call_ending true)
      (Emit (EndCallAuthorized a)
      (if bool_decide (py_strip (answer x) = []) && negb (cancelled x)
       then _speak_text a farewell_text (lit "end_call_goodbye_fallback") k h else k))))
  else
    Await (WIo QPrompt) (λ v,
      match v with
      | VText [] =>
          update a discard_answer
            (say_result a cannot_prepare_text (lit "tool_confirmation_unavailable") k h)
      | VText prompt =>
          pend call prompt
          (io QSend (update a discard_answer (_speak_text a prompt (lit "tool_confirmation") k h)) h)
      | _ => h TypeError
      end) h.

(** The model asked for knowledge in words; [leave] is the [return] of a cancelled attempt. *)
Definition knowledge_branch (a : nat) (k leave : coroutine) (h : handler) : coroutine :=
  let followup :=
    update a (set_answer [])
    (_stream_llm_and_tts a (lit "knowledge_followup") (λ calls,
      update a (set_tool_calls calls)
      (if bool_decide (calls = []) then k else next_bank a (λ _, k) h)) h) in
  with_attempt a (λ x,
    when (negb (engagement_enabled config) || authorized x)
      (λ k, send (Say (lit "partial_assistant_answer")
                    (if engagement_enabled config then initial_answer x else acknowledgement x)) k h)
    (until_authorized a
      (with_attempt a (λ x,
        if cancelled x then leave
        else if negb (knowledge_available config) then followup
        else if engagement_enabled config then
          Get (λ s, Await (WIo QKnowledge) (λ v,
            match v with
            | VResult body _ =>
                Emit (MemoryTool (at_turn x)
                  (mkCall (lit "knowledge") (lit "knowledge_lookup")
                    [(lit "query", JStr (match final_text s with [] => hypothesis x | t => t end))]) body)
                followup
            | _ => h TypeError
            end) h)
        else
          Spawn (io QKnowledge Done Throw) (λ t,
            update a (set_knowledge_task (Some t)) (Await (WTask t) (λ _, followup) h)))) h)).

(** Never leave a committed turn without words. *)
Definition empty_fallback (a : nat) (k : coroutine) (h : handler) : coroutine :=
  Get (λ s, with_attempt a (λ x,
    if empty_response_fallback_enabled config && authorized x && negb (french config) && speech_on s
       && bool_decide (speech_control x = None) && bool_decide (tool_calls x = [])
       && bool_decide (py_strip (answer x) = []) && bool_decide (pending_action s = None)
    then _speak_text a (empty_response_fallback_text config) (lit "empty_generation_fallback")
           (update a (λ x, set_initial_answer (py_strip (answer x)) x) k) h
    else k)).

(** The transfer after the committed answer; [finally] clears [handoff_in_progress]. *)
Definition run_transfer (a : nat) (k : coroutine) (h : handler) : coroutine :=
  let leave := modify (set_handoff_in_progress false) in
  let h' : handler := λ e, leave (h e) in
  let report := 
    _finish_speech a
      (with_attempt a (λ x,
        let failure := if french config then py_strip (answer x) else transfer_failure_text in
        Emit (AddAssistant a failure (at_turn x ++ lit "-transfer-failed") false)
        (send (Say (lit "final_assistant_answer") failure) (send TtsEnd (leave k) h') h'))) h' in
  modify (set_handoff_in_progress true)
  (with_attempt a (λ x,
    Emit (TransferToAicc (transfer_reason_summary x))
    (Await (WIo QTransfer) (λ v,
      let connected := match v with VConnected b => b | _ => false end in
      modify (set_handoff_active connected)
      (if connected then leave k
       else if french config then
         _generate_natural_action_response a (lit "transfer_failure") report h'
       else
         update a (set_answer [])
           (_speak_text a transfer_failure_text (lit "transfer_failure") report h'))) h'))).

(** The end of a generation that was not interrupted. *)
Definition complete (a : nat) (k : coroutine) (h : handler) : coroutine :=
  _finish_speech a
    (update a (set_audio_complete true)
    (with_attempt a (λ x,
      if cancelled x || negb (authorized x) then k else
      _commit_attempt_text a
        (send TtsEnd
          (with_attempt a (λ x,
            if transfer_requested x then run_transfer a k h
            else if end_call_requested x then send EndCall k h
            else k)) h) h))) h.

Definition unavailable_text : str :=
  lit "I'm sorry, my response service is temporarily unavailable. Please try that again in a moment.".

(** The caller is told; [report] is what a failure of this ends in. *)
Definition degraded_response (a : nat) (k report : coroutine) (h : handler) : coroutine :=
  let h' := on_exception (λ _, report) h in
  update a discard_answer
  (_speak_text a unavailable_text (lit "llm_unavailable_fallback")
    (update a (set_audio_complete true)
    (_commit_attempt_text a (send TtsEnd k h') h')) h').

(** [except Exception] of [_generate]; [HttpError] and [TimeoutError] are the failures that
    it takes for a temporary outage of the model. *)
Definition outage (e : pyexc) : bool := match e with HttpError | TimeoutError => true | _ => false end.

Definition generation_error (a : nat) (k : coroutine) (h : handler) : handler :=
  on_exception (λ e,
    let report := send (Say (lit "lab_status") (lit "Pipeline error")) k h in
    with_attempt a (λ x,
      if authorized x && outage e && negb (cancelled x) && negb (french config)
      then degraded_response a k report h else report)) h.

(** What follows the stream of [prompt_first]. *)
Definition generate_after (a : nat) (k : coroutine) (h : handler) : coroutine :=
  Get (λ s,
  when (negb (speech_on s)) (update a (λ x, set_tool_calls [] (discard_answer x)))
  (update a (λ x, set_initial_answer (py_strip (answer x)) x)
  (Get (λ s, with_attempt a (λ x,
    let rest := empty_fallback a (complete a k h) h in
    match tool_calls x with
    | call :: _ =>
        until_authorized a
          (with_attempt a (λ x, if cancelled x then k else dispatch_tool a call rest h)) h
    | [] =>
        if speech_on s && bool_decide (speech_control x = None)
           && bool_decide (pending_action s = None) && requests_knowledge (initial_answer x)
        then knowledge_branch a rest k h
        else rest
    end))))).

Definition _generate (a : nat) (k : coroutine) (h : handler) : coroutine :=
  let h' := generation_error a k h in
  _stream_llm_and_tts a (lit "prompt_first") (λ calls,
    update a (set_tool_calls calls)
    (with_attempt a (λ x,
      match speech_control x with
      | None => generate_after a k h'
      | Some _ =>
          until_authorized a
            (_apply_speech_control a (update a (set_tool_calls []) (generate_after a k h')) h') h'
      end))) h'.

(** *** A pending action *)

Definition rejected_text : str := lit "No problem. I won't carry out that action.".
Definition not_confirmed_text : str :=
  lit "I couldn't confirm that request. Please ask me again in a moment.".
Definition abandoned_text : str :=
  lit "I won't go ahead with that one — just tell me if you'd like to try it again.".

Definition execution_acknowledgement (name : str) : str :=
  if in_strs name BANK_TOOLS then lit "Okay, I'll submit the confirmed request."
  else if name =s lit "create_ticket" then lit "Okay, one moment while I create that ticket."
  else lit "Okay, one moment while I send that email.".

Definition drop_pending (k : coroutine) : coroutine := modify (set_pending_action None) k.

(** The confirmed action: acknowledged, executed, and its result spoken. *)
Definition execute_pending (a : nat) (p : pending) (k : coroutine) (h : handler) : coroutine :=
  let call := pd_call p in
  drop_pending
  (when (negb (engagement_enabled config))
    (λ k, say_result a (execution_acknowledgement (call_name call))
            (lit "tool_execution_acknowledgement") k h)
  (Emit (Execute a (pd_id p) call)
  (Await (WIo QTool) (λ v,
    match v with
    | VResult body message =>
        with_attempt a (λ x,
          Emit (MemoryTool (at_turn x) call body)
          (say_result a message (lit "tool_execution_feedback") k h))
    | _ => h TypeError
    end) h))).

(** No clear reply: asked once more, at most twice, or dropped. *)
Definition unclear_pending (a : nat) (p : pending) (k : coroutine) (h : handler) : coroutine :=
  let name := call_name (pd_call p) in
  if in_strs name [lit "create_ticket"; lit "send_email"] then
    Await (WIo QPrompt) (λ v,
      match v with
      | VText [] =>
          drop_pending (say_result a not_confirmed_text (lit "tool_confirmation_unavailable") k h)
      | VText prompt =>
          pend (pd_call p) prompt
            (_speak_text a prompt (lit "tool_confirmation_clarification") k h)
      | _ => h TypeError
      end) h
  else if reasks p <? 2 then
    modify (λ s, match pending_action s with
                 | Some q => if (pd_id q =? pd_id p)%nat
                             then set_pending_action (Some (mkPending (pd_id p) (pd_call p)
                                    (confirmation_prompt p) (reasks p + 1))) s
                             else s
                 | None => s
                 end)
      (_speak_text a (confirmation_prompt p) (lit "tool_confirmation_repeated") k h)
  else
    drop_pending
    (when (starts_with (lit "wema_") name) (Emit DropPrepared)
    (say_result a abandoned_text (lit "tool_confirmation_abandoned") k h)).

Definition is_pending (p : pending) (s : pipeline) : bool :=
  match pending_action s with Some q => (pd_id q =? pd_id p)%nat | None => false end.

(** The answer to a confirmation has been spoken. *)
Definition finish_action (a : nat) (k : coroutine) (h : handler) : coroutine :=
  _finish_speech a
    (update a (set_audio_complete true)
    (with_attempt a (λ x,
      if cancelled x || negb (authorized x) then k
      else _commit_attempt_text a (send TtsEnd k h) h))) h.

(** A pending [knowledge_lookup] does not arise: [dispatch_tool] runs one at once. *)
Definition _handle_pending_action (a : nat) (k : coroutine) (h : handler) : coroutine :=
  let h' := on_exception (λ _, send (Say (lit "lab_status") (lit "Pipeline error")) k h) h in
  let finish_action := finish_action a k h' in
  Get (λ s,
    match pending_action s with
    | None => k
    | Some p =>
        until_authorized a
          (with_attempt a (λ x,
            if cancelled x then k else
            Get (λ s,
            Emit (Asked a (pd_id p) (match final_text s with [] => hypothesis x | t => t end)
                    (pd_call p) (confirmation_prompt p))
            (Await (WIo QDecision) (λ v,
              match v with
              | VText decision =>
                  Get (λ s, with_attempt a (λ x,
                    match pending_action s with
                    | Some q =>
                        if cancelled x || negb (pd_id q =? pd_id p)%nat then k else
                        Emit (Decision a (pd_id p) decision)
                        (update a (set_answer [])
                        (if decision =s lit "revised" then
                           drop_pending (Emit DropPrepared
                             (update a (set_held_audio []) (_generate a k h')))
                         else if decision =s lit "rejected" then
                           drop_pending (Emit DropPrepared
                             (say_result a rejected_text (lit "tool_confirmation_rejected") finish_action h'))
                         else if decision =s lit "unclear" then unclear_pending a q finish_action h'
                         else execute_pending a q finish_action h'))
                    | None => k
                    end))
              | _ => h' TypeError
              end) h')))) h'
    end).

(** *** The caller's turn *)

Definition _start_attempt (text : str) (is_speculative is_authorized : bool) (k : coroutine) (h : handler)
    : coroutine :=
  let start :=
    Get (λ s,
      let a := next_attempt s in
      let turn := default (turn_name (turn_number s)) (turn_id s) in
      let x := mkAttempt a text is_speculative is_authorized None false [] [] false false is_authorized
                 [] (spoken_knowledge_acknowledgement (turn_number s)) None [] None false false false
                 [] [] turn false false [] in
      Put (add_attempt x s)
      (when is_authorized
        (Emit (MemoryUser turn (match final_text s with [] => text | t => t end) (negb (speech_on s))))
      (modify (set_attempt (Some a))
      (Emit (Started a is_speculative is_authorized text)
      (Get (λ s,
        let task :=
          if negb (bool_decide (pending_action s = None))
             && (negb (engagement_enabled config) || speech_on s)
          then _handle_pending_action a Done Throw else _generate a Done Throw in
        Spawn task (λ t, update a (set_at_task (Some t)) k))))))) in
  Get (λ s, if bool_decide (attempt s = None) then start else _cancel_attempt start h).

(** [SequenceMatcher(None, a, b).ratio() >= 0.92] *)
Definition similar (a b : str) : bool := ratio_geb (ratio a b) (92, 100).

(** Does the final transcript confirm what an attempt was started on?  Banking arguments are
    never authorised by an approximate match. *)
Definition transcript_matches (hyp final : str) : bool :=
  if bank_records config then casefold (py_strip hyp) =s casefold (py_strip final)
  else (normalize hyp =s normalize final) || similar (normalize hyp) (normalize final).

Definition _respond_to_final (text : str) (k : coroutine) (h : handler) : coroutine :=
  let fresh := _start_attempt text false true (_transition Releasing k) h in
  Get (λ s,
    match attempt s with
    | None => fresh
    | Some a =>
        with_attempt a (λ x,
          let valid := transcript_matches (hypothesis x) text in
          Emit (Validated a valid (hypothesis x) text)
          (if valid then
             update a (λ x, set_authorization_event true (set_authorized true x))
             (_transition Releasing
               (with_attempt a (λ x,
                  match speech_control x with Some _ => k | None => _release_held a k h end)))
           else _cancel_attempt fresh h))
    end).

(** [_reply_grace_seconds], in milliseconds. *)
Definition _reply_grace_ms : Z :=
  if negb (livekit config) || negb (engagement_enabled config) || negb (reply_grace_agent config) then 0
  else Z.min (Z.max (reply_grace_ms config) 0) 1500.

Definition _respond_after_reply_grace (text : str) (turn : option str) (k : coroutine) (h : handler)
    : coroutine :=
  if _reply_grace_ms =? 0 then _respond_to_final text k h else
  let proceed :=
    Get (λ s, if bool_decide (turn_id s = turn) && bool_decide (state s = Releasing)
              then _respond_to_final text k h else k) in
  io QSleep
    (Get (λ s, if speech_candidate_active s && bool_decide (turn_id s = turn)
               then io QSleep proceed h else proceed)) h.

(** [if task: task.cancel()] *)
Definition cancel_opt (t : option nat) (k : coroutine) : coroutine :=
  match t with Some t => Cancel t k | None => k end.

Definition echoes_context (text : str) : bool :=
  negb (bool_decide (text = [])) && is_asr_context_echo text (stt_context config).

Definition on_final (text : str) (publish_transcript : bool) (k : coroutine) (h : handler) : coroutine :=
  if echoes_context text then k else
  Get (λ s,
    if call_ending s then k else
    match turn_id s with
    | None => k
    | Some turn =>
        if negb (bool_decide (state s = AwaitingFinal)) then k
        else if negb (bool_decide (final_text s = [])) then k
        else
          cancel_opt (final_timeout_task s)
          (modify (λ s, set_final_text text (set_final_timeout_task None s))
          (Emit (CallerFinal text)
          (Emit (MemoryUser turn text (negb (speech_on s)))
          (Emit (AddUser text turn)
          (Emit (Final turn text)
          (when publish_transcript (λ k, send (Say (lit "final_user_request") text) k h)
          (Get (λ s,
            cancel_opt (stability_task s)
            (modify (set_stability_task None)
            (if engagement_enabled config then
               Get (λ s,
                 let launch :=
                   _transition Releasing
                     (Get (λ s,
                       Spawn (_respond_after_reply_grace text (turn_id s) Done Throw) (λ t,
                         modify (set_final_response_task (Some t)) k))) in
                 match final_response_task s with
                 | Some t => Cancel t (Await (WAll [t]) (λ _, launch) h)
                 | None => launch
                 end)
             else _respond_to_final text k h)))))))))) 
    end).

(** [except asyncio.CancelledError: return] *)
Definition unless_cancelled : handler := λ e, match e with CancelledError => Done | _ => Throw e end.

(** The task of [_stable_after_delay]. *)
Definition _stable_after_delay (text : str) : coroutine :=
  io QSleep
    (Get (λ s,
      if negb (text =s last_partial s) || negb (in_states (state s) [Speaking; Speculating]) then Done
      else if engagement_enabled config && negb (speech_on s) then Done
      else _start_attempt text true false (_transition Speculating Done) unless_cancelled))
    unless_cancelled.

Definition on_partial (text raw : str) (k : coroutine) (h : handler) : coroutine :=
  if echoes_context text then k else
  Get (λ s,
    if call_ending s then k else
    match turn_id s with
    | None => if speech_candidate_active s then modify (set_preconfirm_partial (Some (text, raw))) k else k
    | Some turn =>
        if bool_decide (state s = AwaitingFinal) then k
        else if negb (in_states (state s) [Speaking; Speculating]) then k
        else if in_strs turn (closed_turns s) then k
        else
          let changed := negb (text =s last_partial s) in
          let schedule :=
            Get (λ s, cancel_opt (stability_task s)
              (Spawn (_stable_after_delay text) (λ t, modify (set_stability_task (Some t)) k))) in
          modify (set_last_partial text)
          (send (Say (lit "partial_user_request") text)
            (if negb changed || (slen (normalize text) <? stable_min_chars config) then k else
             Get (λ s,
               match attempt s with
               | Some a =>
                   with_attempt a (λ x,
                     if normalize (hypothesis x) =s normalize text then schedule
                     else _cancel_attempt schedule h)
               | None => schedule
               end)) h)
    end).

(** The task of [_final_timeout]. *)
Definition _final_timeout (expected : option str) : coroutine :=
  io QSleep
    (Get (λ s,
      if negb (bool_decide (turn_id s = expected)) || negb (bool_decide (state s = AwaitingFinal)) then Done
      else
        _cancel_attempt
          (_transition RecoveringStt
            (Get (λ s,
              let timed_out := turn_id s in
              let rest :=
                _transition Idle
                  (close_turn_of timed_out
                    (modify (λ s, set_final_timeout_task None (set_turn_id None s)) Done)) in
              Emit SttRecover (io QStt rest (on_exception (λ _, rest) unless_cancelled)))))
          unless_cancelled))
    unless_cancelled.

Definition on_stt_final_unavailable (k : coroutine) (h : handler) : coroutine :=
  Get (λ s,
    if negb (bool_decide (state s = AwaitingFinal)) then k else
    let failed := turn_id s in
    cancel_opt (final_timeout_task s)
    (modify (set_final_timeout_task None)
    (_transition RecoveringStt
    (_cancel_attempt
      (let rest :=
         close_turn_of failed
           (modify (λ s, _clear_speech_candidate (set_turn_pcm16 [] (set_final_text []
                           (set_last_partial [] (set_turn_id None s)))))
             (_transition Idle (send (Say (lit "lab_status") (lit "listening")) k h))) in
       Emit SttRecover (io QStt rest (on_exception (λ _, rest) h))) h)))).

(** *** Voice activity *)

Definition _speech_started (k : coroutine) (h : handler) : coroutine :=
  Get (λ s,
    if call_ending s then modify _clear_speech_candidate k else
    let confirmed := default (turn_name (turn_number s + 1)) (candidate_turn_id s) in
    let buffered := preconfirm_partial s in
    let started :=
      modify (λ s, set_closed_turns (List.filter (λ t, negb (t =s confirmed)) (closed_turns s))
                     (set_silence_candidate false (set_final_text [] (set_last_partial []
                       (set_turn_id (Some confirmed) (set_turn_number (turn_number s + 1) s))))))
      (Emit (SpeechStart confirmed)
      (modify _clear_speech_candidate
      (_transition Speaking
        (match buffered with Some (text, raw) => on_partial text raw k h | None => k end)))) in
    Emit CallerStarted
    (if in_states (state s) [Playing; Releasing] then
       _cancel_attempt (close_turn_of (turn_id s) started) h
     else started)).

Definition _speech_ended (k : coroutine) (h : handler) : coroutine :=
  Get (λ s,
    if negb (in_states (state s) [Speaking; Speculating]) then k else
    _transition AwaitingFinal
    (Get (λ s,
      let committed := turn_pcm16 s in
      Emit (Utterance committed)
      (modify (λ s, set_turn_pcm16 [] (set_silence_candidate false (set_silence_ms 0 (set_speech_ms 0 s))))
      (Emit (SttCommit committed)
      (io QStt
        (Get (λ s, cancel_opt (final_timeout_task s)
          (Get (λ s, Spawn (_final_timeout (turn_id s)) (λ t,
            modify (set_final_timeout_task (Some t)) k))))) h)))))).

Definition audio_voiced (pcm : list Z) (k : coroutine) (h : handler) : coroutine :=
  Get (λ s,
    if in_states (state s) [Idle; Playing; Releasing] then
      when (negb (speech_candidate_active s))
        (λ k, when (engagement_enabled config) (Emit Invalidate)
          (modify (λ s, set_speech_ms 0 (set_candidate_turn_id (Some (turn_name (turn_number s + 1)))
                          (set_speech_candidate_active true (set_turn_pcm16 [] s)))) k))
      (modify (λ s, set_speech_ms (speech_ms s + Z.of_nat (length pcm)) (set_turn_pcm16 (turn_pcm16 s ++ pcm) s))
      (Get (λ s, if 32 * min_speech_ms config <=? speech_ms s then _speech_started k h else k)))
    else
      modify (λ s, set_silence_ms 0 (set_speech_ms (speech_ms s + Z.of_nat (length pcm))
                     (set_silence_candidate false (set_turn_pcm16 (turn_pcm16 s ++ pcm) s)))) k).

Definition audio_unvoiced (pcm : list Z) (k : coroutine) (h : handler) : coroutine :=
  Get (λ s,
    if speech_candidate_active s && in_states (state s) [Idle; Playing; Releasing] then
      modify (λ s, _clear_speech_candidate (set_turn_pcm16 [] s))
        (when (sbpn config) (λ k, Emit SttRecover (io QStt k h)) k)
    else if in_states (state s) [Speaking; Speculating] then
      modify (λ s, set_silence_ms (silence_ms s + Z.of_nat (length pcm))
                     (set_silence_candidate true (set_turn_pcm16 (turn_pcm16 s ++ pcm) s)))
        (Get (λ s, if 32 * end_silence_ms config <=? silence_ms s then _speech_ended k h else k))
    else if bool_decide (state s = Idle) then modify (set_speech_ms 0) k
    else k).

Definition audio (pcm : list Z) (k : coroutine) (h : handler) : coroutine :=
  Get (λ s,
    if handoff_active s || handoff_in_progress s then k else
    Emit (Ingest pcm)
    (if bool_decide (state s = RecoveringStt) then k else
     let speaking := loud (speech_rms config) pcm in
     when (negb (sbpn config) || speaking || speech_candidate_active s
           || in_states (state s) [Speaking; Speculating])
       (λ k, Emit (SttAppend pcm) (io QStt k h))
     (if speaking then audio_voiced pcm k h else audio_unvoiced pcm k h))).

(** *** Text, playback and the ends of a call *)

Definition text (message : str) (k : coroutine) (h : handler) : coroutine :=
  let message := py_strip message in
  Get (λ s,
    if handoff_active s || handoff_in_progress s then k
    else if bool_decide (message = []) then k
    else
      when (engagement_enabled config) (Emit Invalidate)
      (_cancel_attempt
        (Get (λ s, cancel_opt (stability_task s) (cancel_opt (final_timeout_task s)
          (modify (λ s,
            let s := _clear_speech_candidate s in
            let n := turn_number s + 1 in
            set_silence_ms 0 (set_speech_ms 0 (set_last_partial [] (set_final_text []
              (set_turn_id (Some (turn_name n)) (set_turn_number n s))))))
          (_transition AwaitingFinal (on_final message false k h)))))) h)).

(** Nothing is left to play out. *)
Definition played_out (k : coroutine) : coroutine :=
  Get (λ s, match attempt s with
            | Some a => update a (set_audio_pending_playout false) (Emit PlaybackStopped k)
            | None => Emit PlaybackStopped k
            end).

(** The turn is over once its audio has been played. *)
Definition turn_completed (k : coroutine) : coroutine :=
  let over := _transition Idle (modify (λ s, set_attempt None (set_turn_id None s)) k) in
  Get (λ s, match turn_id s with
            | Some turn => Emit (MemoryFinish turn false) (close_turn turn over)
            | None => over
            end).

Definition client_event (kind : str) (k : coroutine) : coroutine :=
  if kind =s lit "tts_start" then _transition Playing k
  else if kind =s lit "tts_stop" then
    played_out
      (Get (λ s, match attempt s with
        | Some a =>
            with_attempt a (λ x,
              if engagement_enabled config && negb (audio_complete x) && negb (cancelled x)
              then _transition Releasing k else turn_completed k)
        | None => turn_completed k
        end))
  else if kind =s lit "tts_segment_stop" then
    played_out
      (Get (λ s, match attempt s with
        | Some a => with_attempt a (λ x, if cancelled x then k else _transition Releasing k)
        | None => k
        end))
  else if kind =s lit "clear_history" then Emit MemoryClear k
  else k.

(** An attempt that the application speaks: authorised, of no caller turn. *)
Definition application_attempt (a : nat) (turn : str) (task : option nat) : Attempt :=
  mkAttempt a [] false true task false [] [] false false true [] [] None [] None false false false
    [] [] turn false false [].

Definition opening_turn : str := lit "opening-0000".

(** [finally] of [speak_opening]. *)
Definition opening_finally (k : coroutine) : coroutine :=
  Get (λ s,
    if bool_decide (turn_id s = Some opening_turn) then
      Emit (MemoryFinish opening_turn false)
      (close_turn opening_turn
      (_transition Idle (modify (λ s, set_attempt None (set_turn_id None s)) k)))
    else k).

Definition opening_failed (k : coroutine) (h : handler) : handler :=
  on_exception (λ _, send StopTts (opening_finally k) (λ e, opening_finally (h e)))
    (λ e, opening_finally (h e)).

Definition speak_opening (greeting : str) (k : coroutine) (h : handler) : coroutine :=
  let greeting := py_strip greeting in
  let h' := opening_failed k h in
  Self (λ me, Get (λ s,
    if bool_decide (greeting = []) || negb (bool_decide (state s = Idle))
       || negb (bool_decide (turn_id s = None)) then k else
    let a := next_attempt s in
    Put (set_attempt (Some a) (set_turn_id (Some opening_turn)
          (add_attempt (application_attempt a opening_turn (Some me)) s)))
    (Emit (Application a)
    (_transition Generating
    (say_result a greeting (lit "opening_greeting")
      (with_attempt a (λ x,
        let spoken := py_strip (answer x) in
        Emit (AddAssistant a spoken opening_turn false)
        (update a (set_audio_complete true)
        (send (Say (lit "final_assistant_answer") spoken)
          (with_attempt a (λ x,
            Emit (MemoryAnswer opening_turn (py_strip (answer x)) [])
            (send TtsEnd (opening_finally k) h'))) h')))) h'))))).

Definition announce (message : str) (k : coroutine) (h : handler) : coroutine :=
  let clean := py_strip message in
  if bool_decide (clean = []) then k else
  Get (λ s,
    let a := next_attempt s in
    Put (add_attempt (application_attempt a (default (turn_name (turn_number s)) (turn_id s)) None) s)
    (Emit (Application a) (_speak_text a clean (lit "passkey_outcome") k h))).

(** [close], with the closing of the other components as awaited calls. *)
Definition close (k : coroutine) (h : handler) : coroutine :=
  modify (λ s, mkPipeline (state s) (call_ending s) (handoff_active s) (handoff_in_progress s) (turn_id s)
      (turn_number s) (speech_ms s) (silence_ms s) (last_partial s) (final_text s) (attempt s)
      (attempts s) (next_attempt s) (stability_task s) (final_response_task s)
      (final_timeout_task s) (closed_turns s) (last_closed_turn_id s) (silence_candidate s)
      (speech_candidate_active s) (candidate_turn_id s) (preconfirm_partial s) (turn_pcm16 s)
      (pending_action s) (next_pending s) (speech_lock s) (queues s) (next_queue s) (speech_on s) true)
  (io QStt
    (Get (λ s, cancel_opt (stability_task s) (cancel_opt (final_timeout_task s)
      (match attempt s with
       | Some a => update a (set_authorized false) (_cancel_attempt (io QStt k h) h)
       | None => _cancel_attempt (io QStt k h) h
       end)))) h).

(** ** The machine *)

(** The calls from outside: the microphone, the recogniser, the data channel, the player, the
    worker. *)
Inductive call : Type :=
| CAudio (pcm : list Z)
| CPartial (message raw : str)
| CFinal (message : str)
| CFinalUnavailable
| CText (message : str)
| CClient (kind : str)
| COpening (greeting : str)
| CAnnounce (message : str)
| CClose.

Definition body (c : call) : coroutine :=
  match c with
  | CAudio pcm => audio pcm Done Throw
  | CPartial t raw => on_partial t raw Done Throw
  | CFinal t => on_final t true Done Throw
  | CFinalUnavailable => on_stt_final_unavailable Done Throw
  | CText t => text t Done Throw
  | CClient kind => client_event kind Done
  | COpening t => speak_opening t Done Throw
  | CAnnounce t => announce t Done Throw
  | CClose => close Done Throw
  end.

(** The bodies of the loops. *)
Definition resume (l : loop_label) (a : exn reply) (k : cont) (h : handler) : coroutine :=
  match a with
  | Raise e => h e
  | Ok v =>
      match l with
      | LStream a phase t calls q task stopped => stream_event a phase t calls q task stopped v k h
      | LPhrases a phase q => synthesize_phrase a phase q k h
      | LChunks a phase q rate => synthesize_chunk a phase q rate v k h
      | LRelease a i bytes rate =>
          when (engagement_enabled config) (Emit (AudioSent bytes rate))
            (with_attempt a (λ x, release_chunks a (S i) (drop (S i) (held_audio x)) (k VUnit) h))
      | LBank a => bank_round a v k h
      end
  end.

Definition pipeline_init : pipeline :=
  mkPipeline Idle false false false None 0 0 0 [] [] None ∅ 0 None None None [] None false false
    None None [] None 0 false ∅ 0 true false.

Definition turn_step := step VUnit resume body accepts.
End turns.
