(* ===== verification/TurnRuns.v ===== *)
(** * Runs of the turn machine

    Schedules of Turns.v with concrete answers: an ordinary exchange, a confirmed action, and
    the interleavings in which the pipeline does what it does not mean to. *)
From stdpp Require Import base list gmap strings.
From Stdlib Require Import ZArith Lia.
From S2P Require Import Prelude Pystr Json Banking Agentic DirectoryLocations Phrases Coroutines Turns.

(** A configuration without engagement, and one millisecond of voice and of silence. *)
Definition example_config : turn_config :=
  mkTurnConfig false true false false false false 1 1 100 3 (lit "The caller banks with Wema")
    false 0 false [] false.
Definition voice : list Z := mjoin (replicate 16 [0; 4]).
Definition silence : list Z := replicate 32 0.

Definition example_step := turn_step example_config is_digit py_lower.
Definition example_run (es : list (@event reply call)) := run example_step (loop_init pipeline_init) es.

(** Task [t] goes on with an empty answer, or with [v]. *)
Definition ok (t : nat) : @event reply call := Step t (Ok VUnit).
Definition on (t : nat) (v : reply) : @event reply call := Step t (Ok v).

Definition outputs (es : list (@event reply call)) : option (list effect) := snd <$> example_run es.

(** The effects of a kind, in their order. *)
Definition shown (keep : effect → bool) (es : list (@event reply call)) : option (list effect) :=
  List.filter keep <$> outputs es.

Definition final_state (es : list (@event reply call)) : option (pstate * bool * option nat * list nat) :=
  (λ c : loop * list effect,
    (state (shared c.1), call_ending (shared c.1), attempt (shared c.1), elements (dom (tasks c.1))))
    <$> example_run es.

Definition is_chunk (o : effect) : bool := match o with Chunk _ _ _ => true | _ => false end.
Definition is_commit (o : effect) : bool := match o with Commit _ _ _ => true | _ => false end.
Definition is_turn (o : effect) : bool :=
  match o with Final _ _ | SpeechStart _ => true | _ => false end.
Definition is_end (o : effect) : bool :=
  match o with EndCall | EndCallAuthorized _ | Cancelled _ => true | _ => false end.
Definition is_interrupted (o : effect) : bool :=
  match o with AddAssistant _ _ _ b => b | _ => false end.
Definition is_recorded (o : effect) : bool :=
  match o with Commit _ _ _ | AddAssistant _ _ _ _ | Cancelled _ => true | _ => false end.
Definition is_action (o : effect) : bool :=
  match o with Decision _ _ _ | Execute _ _ _ => true | _ => false end.

(** The caller begins to speak; an answer is prepared on the partial transcript and one phrase
    of it synthesised, two chunks of which are held back.  Task 3 generates, task 4 speaks. *)
Definition speculation : list (@event reply call) :=
  [Call (CAudio voice); ok 0; Call (CPartial (lit "hello there") []); ok 1; ok 2; ok 2; ok 3; ok 4;
   on 3 (VToken (lit "Hi. ")); ok 3; ok 4; on 4 (VRate 24000); on 4 (VChunk [1; 1]); on 4 (VChunk [2; 2])].

(** Silence follows, and the final transcript confirms what was prepared. *)
Definition confirmed_speculation : list (@event reply call) :=
  speculation ++ [Call (CAudio silence); ok 5; ok 5; ok 6; Call (CFinal (lit "Hello there.")); ok 7; ok 7; ok 7;
    on 4 VEnd; on 3 VEnd; ok 4; ok 3; ok 3; ok 3].

Example speculation_held : shown is_chunk speculation = Some [].
Proof. by vm_compute. Qed.

Example speculation_released :
  shown (λ o, is_chunk o || is_commit o) confirmed_speculation =
    Some [Chunk 0 24000 [1; 1]; Chunk 0 24000 [2; 2]; Commit 0 (lit "Hi.") (lit "turn-0001")].
Proof. by vm_compute. Qed.

(** A chunk that arrives while held ones are being released is sent before the rest of them:
    [authorized] is set first, and from then on the synthesis sends directly. *)
Example released_out_of_order :
  shown is_chunk (speculation ++ [Call (CAudio silence); ok 5; ok 5; ok 6; Call (CFinal (lit "Hello there."));
    ok 7; on 4 (VChunk [3; 3]); ok 7; ok 7]) =
  Some [Chunk 0 24000 [1; 1]; Chunk 0 24000 [3; 3]; Chunk 0 24000 [2; 2]].
Proof. by vm_compute. Qed.

(** The turn ends while a stable partial waits for its predecessor to be cancelled: the late
    [_transition("speculating")] overwrites [awaiting_final], and the final transcript that
    was asked for is ignored. *)
Definition overwritten : list (@event reply call) :=
  speculation ++ [Call (CPartial (lit "Hello there!") []); ok 5; ok 6; ok 6; Call (CAudio silence); ok 7; ok 7;
    ok 3; ok 4; ok 3; ok 6; Call (CFinal (lit "Hello there."))].

Example final_lost :
  shown is_turn overwritten = Some [SpeechStart (lit "turn-0001")] ∧
  (λ r, r.1.1.1) <$> final_state overwritten = Some Speculating.
Proof. by vm_compute. Qed.

(** The model ends the call; its farewell has been spoken and is playing out. *)
Definition farewell : list (@event reply call) :=
  [Call (CAudio voice); ok 0; Call (CAudio silence); ok 1; ok 1; ok 2; Call (CFinal (lit "bye now")); ok 3;
   ok 4; ok 5; on 4 (VToken (lit "Goodbye. ")); ok 4; ok 5; on 5 (VRate 24000); on 5 (VChunk [1; 2]); ok 5;
   on 5 VEnd; on 4 (VCall (mkCall [] (lit "end_call") [])); on 4 VEnd; ok 5; ok 4; ok 4].

Example call_ends :
  shown is_end (farewell ++ [ok 4]) = Some [EndCallAuthorized 0; EndCall].
Proof. by vm_compute. Qed.

(** A chat message during the farewell cancels the attempt that would have ended the call, and
    is then ignored because the call is ending: the call stays up and no longer listens. *)
Definition farewell_interrupted : list (@event reply call) :=
  removelast farewell ++ [Call (CText (lit "thanks")); ok 4; ok 6; ok 6; ok 2].

Example end_call_lost :
  shown is_end farewell_interrupted = Some [EndCallAuthorized 0; Cancelled 0] ∧
  final_state farewell_interrupted = Some (AwaitingFinal, true, None, []).
Proof. by vm_compute. Qed.

(** A chat message that repeats the recogniser's context is suppressed as an echo after the
    turn was opened: without a timeout the machine waits for a transcript for ever, and the
    caller's speech goes unheard. *)
Definition echoed_text : list (@event reply call) :=
  [Call (CText (lit "The caller banks with Wema")); Call (CAudio voice); ok 1; Call (CAudio silence); ok 2].

Example echoed_text_blocks :
  shown is_turn echoed_text = Some [] ∧ final_state echoed_text = Some (AwaitingFinal, false, None, []).
Proof. by vm_compute. Qed.

(** The caller interrupts the opening: what had been sent of it is recorded. *)
Definition barge_in : list (@event reply call) :=
  [Call (COpening (lit "Welcome")); ok 0; ok 0; on 0 (VRate 24000); on 0 (VChunk [1; 1]);
   Call (CClient (lit "tts_start")); Call (CAudio voice); ok 2; ok 0; ok 2; ok 2].

Example interrupted_opening :
  shown (λ o, is_turn o || is_interrupted o) barge_in =
    Some [AddAssistant 0 (lit "Welcome") (lit "opening-0000") true; SpeechStart (lit "turn-0001")].
Proof. by vm_compute. Qed.

(** A chat message arrives while the final transcript waits for the wrong speculation to be
    cancelled: both cancel it.  The first goes on to start attempt 1; the second then lets go of
    that attempt without cancelling it, and starts attempt 2: the caller hears both answers. *)
Definition answered_twice : list (@event reply call) :=
  speculation ++ [Call (CAudio silence); ok 5; ok 5; ok 6; Call (CFinal (lit "Something else entirely")); ok 7;
    Call (CText (lit "Never mind, thanks")); ok 3; ok 4; ok 3; ok 7; ok 8;
    ok 9; ok 11; on 9 (VToken (lit "First. ")); ok 9; ok 11; on 11 (VRate 24000); on 11 (VChunk [1; 1]); ok 11;
    on 11 VEnd; on 9 VEnd; ok 11; ok 9; ok 9; ok 9;
    ok 10; ok 12; on 10 (VToken (lit "Second. ")); ok 10; ok 12; on 12 (VRate 24000); on 12 (VChunk [2; 2]); ok 12;
    on 12 VEnd; on 10 VEnd; ok 12; ok 10].

Example superseded_answer_heard :
  shown (λ o, is_chunk o || is_commit o || is_end o) answered_twice =
    Some [Cancelled 0; Cancelled 0;
          Chunk 1 24000 [1; 1]; Commit 1 (lit "First.") (lit "turn-0001");
          Chunk 2 24000 [2; 2]; Commit 2 (lit "Second.") (lit "turn-0002")].
Proof. by vm_compute. Qed.

(** A ticket is asked for, confirmed in the next turn, and created. *)
Definition ticket : tool_call := mkCall (lit "c1") (lit "create_ticket") [].
Definition ticket_created : list (@event reply call) :=
  [Call (CText (lit "open a ticket")); ok 1; ok 2; on 1 (VCall ticket); on 1 VEnd; ok 2; ok 1;
   on 1 (VText (lit "Shall I open it?")); ok 1; ok 1; ok 1; on 1 (VRate 24000); on 1 (VChunk [1; 1]); ok 1;
   on 1 VEnd; ok 1; ok 1; ok 1; Call (CClient (lit "tts_stop"));
   Call (CText (lit "yes please")); ok 5; on 5 (VText (lit "confirmed")); ok 5; ok 5; on 5 (VRate 24000);
   on 5 VEnd; ok 5].

Example ticket_confirmed :
  shown is_action ticket_created = Some [Decision 1 0 (lit "confirmed"); Execute 1 0 ticket].
Proof. by vm_compute. Qed.

(** The same, but the caller speaks before any of the prompt was sent: the action is pending all
    the same, and a "yes" to whatever the caller has heard executes it. *)
Definition unheard_prompt : list (@event reply call) :=
  take 9 ticket_created ++
  [Call (CText (lit "yes please")); ok 1; ok 3; ok 3; ok 4; on 4 (VText (lit "confirmed")); ok 4; ok 4;
   on 4 (VRate 24000); on 4 VEnd; ok 4].

Example unheard_prompt_confirmed :
  shown (λ o, is_action o || is_chunk o) unheard_prompt = Some [Decision 1 0 (lit "confirmed"); Execute 1 0 ticket].
Proof. by vm_compute. Qed.

(** A chat message interrupts while the held chunks of a complete answer are being released:
    the interrupted answer is recorded, and then the release goes on to commit it as well. *)
Definition interrupted_release : list (@event reply call) :=
  speculation ++ [on 4 VEnd; on 3 VEnd; ok 4; ok 3; Call (CAudio silence); ok 5; ok 5; ok 6;
    Call (CFinal (lit "Hello there.")); ok 7; Call (CText (lit "wait")); ok 8; ok 7; ok 7].

Example recorded_twice :
  shown is_recorded interrupted_release =
    Some [Cancelled 0; AddAssistant 0 (lit "Hi.") (lit "turn-0001") true; Commit 0 (lit "Hi.") (lit "turn-0001")].
Proof. by vm_compute. Qed.
