(* ===== verification/TurnSafety.v ===== *)
(** * What the turn machine never does

    The methods of Turns.v are verified in the logic of Coroutines.v: [okay] holds of the
    shared state whenever a task suspends, [legal] of every effect given the effects before
    it, and both hold on every schedule, whatever the recogniser, the model, the synthesiser,
    the tools and the transport answer, and wherever any of them fails. *)
From stdpp Require Import base list gmap strings.
From Stdlib Require Import ZArith Lia.
From S2P Require Import Prelude Pystr Json Banking Agentic DirectoryLocations Phrases Coroutines Turns TurnRuns.

Section safety.
Context (config : turn_config) (word : Z → bool) (casefold : str → str).

(** ** What the effects mean *)

(** Some of attempt [a] has been sent to the caller. *)
Definition heard (a : nat) (l : list effect) : Prop := ∃ rate chunk, Chunk a rate chunk ∈ l.

(** Attempt [a] may be heard: the application speaks it, or it was started on a committed
    final transcript, or its hypothesis was confirmed by one. *)
Definition granted (a : nat) (l : list effect) : Prop :=
  Application a ∈ l ∨ (∃ text, Started a false true text ∈ l) ∨
  (∃ hyp final, Validated a true hyp final ∈ l).

(** The speech gate after the effects [l]: as it was last set. *)
Definition gate (l : list effect) : bool :=
  foldl (λ g o, (match o with Gate b => b | _ => g end)) true l.

Definition confirmed : str := lit "confirmed".

(** [final] is a transcript that the recogniser committed, and attempt [a] was started. *)
Definition is_final (final : str) (l : list effect) : Prop := ∃ turn, Final turn final ∈ l.
Definition started (a : nat) (text : str) (l : list effect) : Prop := ∃ spec auth, Started a spec auth text ∈ l.

(** Nothing is known of attempt [a]. *)
Definition unborn (a : nat) (l : list effect) : Prop := (Application a ∉ l) ∧ ∀ text, ¬ started a text l.

(** What the caller's confirmation is judged by: a committed transcript, or the words that the
    attempt was started on. *)
Definition said (a : nat) (evidence : str) (l : list effect) : Prop := is_final evidence l ∨ started a evidence l.

Definition legal (l : list effect) (o : effect) : Prop :=
  match o with
  | Chunk a _ _ => granted a l ∧ (Cancelled a ∉ l) ∧ gate l = true
  | Commit a _ _ => granted a l ∧ ∀ t u, Commit a t u ∉ l
  | Application a => unborn a l
  | Started a spec auth text => unborn a l ∧ (auth = true → spec = false ∧ ∃ turn, Final turn text ∈ l)
  | Validated a true hyp final =>
      transcript_matches config casefold hyp final = true ∧ ∃ turn, Final turn final ∈ l
  | Final _ _ => ∀ a, EndCallAuthorized a ∉ l
  | AddAssistant a _ _ true => heard a l ∧ ∀ t u, Commit a t u ∉ l
  | Pended p _ _ => ∀ c t, Pended p c t ∉ l
  | Asked a p evidence c t => Pended p c t ∈ l ∧ (Application a ∈ l ∨ said a evidence l)
  | Decision a p d =>
      granted a l ∧ (∃ text, started a text l) ∧ (∃ ev c t, Asked a p ev c t ∈ l) ∧
      (d = confirmed → ∀ b, Decision b p confirmed ∉ l)
  | Execute a p c => Decision a p confirmed ∈ l ∧ ∃ t, Pended p c t ∈ l
  | EndCallAuthorized a => granted a l
  | _ => True
  end.

(** Effects of which nothing is asked and which change none of the meanings above. *)
Definition quiet (o : effect) : bool :=
  match o with
  | Chunk _ _ _ | Commit _ _ _ | Started _ _ _ _ | Validated _ true _ _ | Cancelled _ | Final _ _
  | AddAssistant _ _ _ true | Pended _ _ _ | Asked _ _ _ _ _ | Decision _ _ _ | Execute _ _ _
  | Application _ | EndCallAuthorized _ | Gate _ => false
  | _ => true
  end.

(** ** The invariant *)

Record okay (at_ : gmap nat Attempt) (n : nat) (ending on : bool) (p : option pending) (np : nat)
    (ft : str) (l : list effect) : Prop := mkOkay {
  ok_authorized a x : at_ !! a = Some x → authorized x = true → authorization_event x = true;
  ok_granted a x : at_ !! a = Some x → authorization_event x = true → granted a l;
  ok_cancelled a : Cancelled a ∈ l → ∃ x, at_ !! a = Some x ∧ cancelled x = true;
  ok_committed a t u : Commit a t u ∈ l → ∃ x, at_ !! a = Some x ∧ response_committed x = true;
  ok_sent a x : at_ !! a = Some x → audio_sent x = true → ∃ r c, Chunk a r c ∈ l;
  ok_fresh a : (n ≤ a)%nat → at_ !! a = None;
  ok_ending a : EndCallAuthorized a ∈ l → ending = true;
  ok_gate : on = gate l;
  ok_pending q : p = Some q → (pd_id q < np)%nat ∧ ∀ a, Decision a (pd_id q) confirmed ∉ l;
  ok_decided a q d : Decision a q d ∈ l → (q < np)%nat;
  ok_pended q : p = Some q → Pended (pd_id q) (pd_call q) (confirmation_prompt q) ∈ l;
  ok_numbered q c t : Pended q c t ∈ l → (q < np)%nat;
  ok_final : ft = [] ∨ is_final ft l;
  ok_origin a x : at_ !! a = Some x → Application a ∈ l ∨ started a (hypothesis x) l;
  ok_born a : (n ≤ a)%nat → unborn a l;
}.

Definition I (s : pipeline) (l : list effect) : Prop :=
  okay (attempts s) (next_attempt s) (call_ending s) (speech_on s) (pending_action s) (next_pending s)
    (final_text s) l.

(** What every write respects: effects are only added, and a cancelled attempt stays so. *)
Definition keeps_cancelled (m m' : gmap nat Attempt) : Prop :=
  ∀ a x, m !! a = Some x → cancelled x = true → ∃ x', m' !! a = Some x' ∧ cancelled x' = true.
Definition R (x y : pipeline * list effect) : Prop :=
  x.2 `prefix_of` y.2 ∧ keeps_cancelled (attempts x.1) (attempts y.1).

(** What a loop knows. *)
Definition inv (lb : loop_label) (x : pipeline * list effect) : Prop :=
  match lb with
  | LRelease a _ _ _ => granted a x.2
  | _ => True
  end.

(** The tasks are not told apart: what holds of task 0 holds of all. *)
Abbreviation WP := (wp accepts I (λ _, R) (λ _, R) legal (λ _ _, True) 0%nat inv 0%nat).
Abbreviation LATER P := (later I (λ _, R) 0%nat P).

#[local] Instance R_pre : PreOrder R.
Proof.
  split.
  - intros [s l]. split; [done|]. intros a x Hx Hc. eauto.
  - intros [s l] [s' l'] [s'' l''] [H1 H2] [H3 H4]. split; [by etrans|].
    intros a x Hx Hc. destruct (H2 _ _ Hx Hc) as (x' & Hx' & Hc'). eauto.
Qed.

Lemma elem_prefix (o : effect) l l' : o ∈ l → l `prefix_of` l' → o ∈ l'.
Proof. intros Ho [k ->]. apply elem_of_app. by left. Qed.

Lemma granted_mono a l l' : granted a l → l `prefix_of` l' → granted a l'.
Proof.
  intros [H|[[t H]|(y & f & H)]] Hp; eapply elem_prefix in H; try done; [by left|right; left|right; right]; eauto.
Qed.

Lemma is_final_mono t l l' : is_final t l → l `prefix_of` l' → is_final t l'.
Proof. intros [turn H] Hp. exists turn. by eapply elem_prefix. Qed.

Lemma started_mono a t l l' : started a t l → l `prefix_of` l' → started a t l'.
Proof. intros (sp & au & H) Hp. exists sp, au. by eapply elem_prefix. Qed.

Lemma R_state s l s' : attempts s' = attempts s → R (s, l) (s', l).
Proof. intros Ha. split; [done|]. simpl. rewrite Ha. intros a x ??. eauto. Qed.

Lemma R_effect s l o : R (s, l) (s, l ++ [o]).
Proof. split; [by apply prefix_app_r|]. intros a x ??. eauto. Qed.

Lemma R_granted a x y : R x y → granted a x.2 → granted a y.2.
Proof. intros [Hp _] Hg. by eapply granted_mono. Qed.

(** *** Preservation of the invariant *)

Lemma quiet_legal l o : quiet o = true → legal l o.
Proof.
  destruct o; simpl; repeat case_match; done.
Qed.

Lemma elem_snoc_ne (o o' : effect) l : o ∈ l ++ [o'] → o ≠ o' → o ∈ l.
Proof. intros [H|H]%elem_of_app Hne; [done|]. by apply list_elem_of_singleton in H. Qed.

Lemma gate_snoc l o : gate (l ++ [o]) = match o with Gate b => b | _ => gate l end.
Proof. unfold gate. by rewrite foldl_app. Qed.

(** What an effect must find in the state. *)
Definition backed (at_ : gmap nat Attempt) (n : nat) (ending : bool) (p : option pending) (np : nat) (o : effect) : Prop :=
  match o with
  | Application a | Started a _ _ _ => (a < n)%nat
  | Pended q _ _ => (q < np)%nat
  | Commit a _ _ => ∃ x, at_ !! a = Some x ∧ response_committed x = true
  | Cancelled a => ∃ x, at_ !! a = Some x ∧ cancelled x = true
  | Decision _ q d => (q < np)%nat ∧ (d = confirmed → ∀ q', p = Some q' → pd_id q' ≠ q)
  | EndCallAuthorized _ => ending = true
  | _ => True
  end.

Lemma okay_effect at_ n e on p np ft l o :
  backed at_ n e p np o → okay at_ n e on p np ft l →
  okay at_ n e (match o with Gate b => b | _ => on end) p np ft (l ++ [o]).
Proof.
  intros Ho H. assert (l `prefix_of` l ++ [o]) as Hp by by apply prefix_app_r.
  assert (∀ o', o' ∈ l ++ [o] → o' ∈ l ∨ o' = o) as Hel.
  { intros o' [Hin|Hin]%elem_of_app; [by left|]. apply list_elem_of_singleton in Hin. by right. }
  split; [apply H|..].
  - intros a x Hx Hv. eapply granted_mono; [by eapply ok_granted|done].
  - intros a [Ha|<-]%Hel; [by eapply ok_cancelled|done].
  - intros a t u [Ha|<-]%Hel; [by eapply ok_committed|done].
  - intros a x Hx Hs. destruct (ok_sent _ _ _ _ _ _ _ _ H a x) as (r & c & Hc); [done|done|].
    exists r, c. by eapply elem_prefix.
  - apply H.
  - intros a [Ha|<-]%Hel; [by eapply ok_ending|done].
  - rewrite gate_snoc, (ok_gate _ _ _ _ _ _ _ _ H). by destruct o.
  - intros q Hq. destruct (ok_pending _ _ _ _ _ _ _ _ H q Hq) as [Hlt Hno]. split; [done|].
    intros a [Ha|<-]%Hel; [by eapply Hno|]. by apply (proj2 Ho eq_refl q Hq).
  - intros a q d [Ha|<-]%Hel; [by eapply ok_decided|]. apply Ho.
  - intros q Hq. eapply elem_prefix; [by eapply ok_pended|done].
  - intros q c t [Ha|<-]%Hel; [by eapply ok_numbered|done].
  - destruct (ok_final _ _ _ _ _ _ _ _ H) as [Hf|Hf]; [by left|right]. by eapply is_final_mono.
  - intros a x Hx. destruct (ok_origin _ _ _ _ _ _ _ _ H a x Hx) as [Ha|Ha]; [left|right].
    + by eapply elem_prefix.
    + by eapply started_mono.
  - intros a Hn. destruct (ok_born _ _ _ _ _ _ _ _ H a Hn) as [Ha Hs]. split.
    + intros [Hin|Hin]%Hel; [done|]. subst o. simpl in Ho. lia.
    + intros text (sp & au & [Hin|Hin]%Hel); [by eapply Hs; eexists _, _|]. subst o. simpl in Ho. lia.
Qed.

(** An effect that says nothing new about cancellation, commitment, the end of the call, the
    gate or decisions. *)
Definition plain (o : effect) : bool :=
  match o with
  | Commit _ _ _ | Cancelled _ | Decision _ _ _ | EndCallAuthorized _ | Gate _ | Application _
  | Started _ _ _ _ | Pended _ _ _ => false
  | _ => true
  end.

Lemma okay_plain at_ n e on p np ft l o :
  plain o = true → okay at_ n e on p np ft l → okay at_ n e on p np ft (l ++ [o]).
Proof.
  intros Ho H. assert (backed at_ n e p np o) as Hb by by destruct o.
  pose proof (okay_effect _ _ _ _ _ _ _ _ o Hb H). by destruct o.
Qed.

(** The transcript of a turn is forgotten. *)
Lemma okay_no_final at_ n e on p np ft l : okay at_ n e on p np ft l → okay at_ n e on p np [] l.
Proof. intros []. split; try done. by left. Qed.

Lemma quiet_plain o : quiet o = true → plain o = true.
Proof. by destruct o. Qed.

(** What the invariant says of one attempt. *)
Definition view (x : Attempt) : str * bool * bool * bool * bool * bool :=
  (hypothesis x, authorized x, authorization_event x, cancelled x, response_committed x, audio_sent x).

Lemma keeps_alter f a m :
  (∀ x, cancelled x = true → cancelled (f x) = true) → keeps_cancelled m (alter f a m).
Proof.
  intros Hf b x Hx Hc. rewrite lookup_alter. case_decide; [|by exists x].
  subst. rewrite Hx. simpl. eauto.
Qed.

Lemma okay_alter (f : Attempt → Attempt) a at_ n e on p np ft l :
  okay at_ n e on p np ft l →
  (∀ x, at_ !! a = Some x →
     (authorized (f x) = true → authorization_event (f x) = true) ∧
     (authorization_event (f x) = true → granted a l) ∧
     (cancelled x = true → cancelled (f x) = true) ∧
     (response_committed x = true → response_committed (f x) = true) ∧
     (audio_sent (f x) = true → ∃ r c, Chunk a r c ∈ l) ∧ hypothesis (f x) = hypothesis x) →
  okay (alter f a at_) n e on p np ft l.
Proof.
  intros H Hf.
  assert (∀ b y, alter f a at_ !! b = Some y →
    (b = a ∧ ∃ x, at_ !! a = Some x ∧ y = f x) ∨ (b ≠ a ∧ at_ !! b = Some y)) as Hcase.
  { intros b y. rewrite lookup_alter. case_decide as Hb; [|by right]. subst.
    destruct (at_ !! b) as [x|] eqn:Hx; simpl; [|done]. intros [= <-]. left. eauto. }
  split.
  - intros b y [[-> (x & Hx & ->)]|[_ Hb]]%Hcase; [by apply (Hf x Hx)|by eapply ok_authorized].
  - intros b y [[-> (x & Hx & ->)]|[_ Hb]]%Hcase; [by apply (Hf x Hx)|by eapply ok_granted].
  - intros b (x & Hx & Hc)%(ok_cancelled _ _ _ _ _ _ _ _ H). rewrite lookup_alter. case_decide; [|by exists x].
    subst. rewrite Hx. exists (f x). split; [done|]. by apply (Hf x Hx).
  - intros b t u (x & Hx & Hc)%(ok_committed _ _ _ _ _ _ _ _ H). rewrite lookup_alter. case_decide; [|by exists x].
    subst. rewrite Hx. exists (f x). split; [done|]. by apply (Hf x Hx).
  - intros b y [[-> (x & Hx & ->)]|[_ Hb]]%Hcase; [by apply (Hf x Hx)|].
    intros Hs. by apply (ok_sent _ _ _ _ _ _ _ _ H b y).
  - intros b Hb. rewrite lookup_alter. case_decide; subst; by rewrite (ok_fresh _ _ _ _ _ _ _ _ H b Hb).
  - apply H.
  - apply H.
  - apply H.
  - apply H.
  - apply H.
  - apply H.
  - apply H.
  - intros b y [[-> (x & Hx & ->)]|[_ Hb]]%Hcase; [|by eapply ok_origin].
    destruct (Hf x Hx) as (_ & _ & _ & _ & _ & ->). by eapply ok_origin.
  - apply H.
Qed.

Lemma okay_view (f : Attempt → Attempt) a at_ n e on p np ft l :
  (∀ x, view (f x) = view x) → okay at_ n e on p np ft l → okay (alter f a at_) n e on p np ft l.
Proof.
  intros Hf H. apply okay_alter; [done|]. intros x Hx. specialize (Hf x). unfold view in Hf.
  injection Hf as -> -> -> -> -> ->. split; [by eapply ok_authorized|]. split; [by eapply ok_granted|].
  split; [done|]. split; [done|]. split; [|done]. intros Hs. by apply (ok_sent _ _ _ _ _ _ _ _ H a x).
Qed.

(** *** Rules for the blocks *)

(** *** Automation *)

(** [R] along the hypotheses. *)
Ltac follow :=
  match goal with
  | |- R ?x ?x => reflexivity
  | H : R ?x ?y |- R ?x ?y => exact H
  | H : R ?y ?z |- R ?x ?z => transitivity y; [follow|exact H]
  end.

(** A continuation that is known to be correct from an earlier point. *)
Ltac known :=
  match goal with
  | H : LATER ?P ?x |- LATER ?P ?y => apply (later_mono I (λ _, R) 0%nat P x y H); follow
  | H : ∀ v, LATER (WP (?k v)) ?x |- LATER (WP (?k ?w)) ?y => apply (later_mono I (λ _, R) 0%nat _ x y (H w)); follow
  | H : LATER (WP ?k) ?x |- WP ?k ?s ?l => apply H; [follow|assumption]
  | H : ∀ v, LATER (WP (?k v)) ?x |- WP (?k ?w) ?s ?l => apply (H w); [follow|assumption]
  end.

Lemma wp_get (f : pipeline → coroutine) s l : WP (f s) s l → WP (Get f) s l.
Proof. done. Qed.

Lemma wp_emit o (k : coroutine) s l :
  quiet o = true → I s l → LATER (WP k) (s, l) → WP (Emit o k) s l.
Proof.
  intros Ho Hi Hk. pose proof (R_effect s l o) as Hr. split; [by apply quiet_legal|]. split; [done|].
  apply Hk; [done|]. by apply okay_plain; [apply quiet_plain|].
Qed.

Lemma wp_await w (k : cont) (h : handler) s l :
  I s l → (∀ v, LATER (WP (k v)) (s, l)) → (∀ e, LATER (WP (h e)) (s, l)) → WP (Await w k h) s l.
Proof. intros Hi Hk Hh. split; [done|]. intros s' l' Hr Hi'. split; [intros _ v _; by apply Hk|intros e; by apply Hh]. Qed.

Lemma wp_again w lb (k : cont) (h : handler) s l :
  I s l → inv lb (s, l) → (∀ v, LATER (WP (k v)) (s, l)) → (∀ e, LATER (WP (h e)) (s, l)) →
  WP (Again w lb k h) s l.
Proof. intros Hi Hl Hk Hh. split; [done|]. split; [done|]. intros s' l' Hr Hi'. split; [intros v; by apply Hk|intros e; by apply Hh]. Qed.

Lemma wp_io q (k : coroutine) (h : handler) s l :
  I s l → LATER (WP k) (s, l) → (∀ e, LATER (WP (h e)) (s, l)) → WP (io q k h) s l.
Proof. intros. by apply wp_await. Qed.

Lemma wp_send o (k : coroutine) (h : handler) s l :
  quiet o = true → I s l → LATER (WP k) (s, l) → (∀ e, LATER (WP (h e)) (s, l)) → WP (send o k h) s l.
Proof.
  intros Ho Hi Hk Hh. apply wp_emit; [done|done|]. intros s' l' Hr Hi'.
  apply wp_io; [done|known|]. intros e. known.
Qed.

Lemma wp_spawn (q : coroutine) (k : nat → coroutine) s l :
  LATER (WP q) (s, l) → (∀ t, WP (k t) s l) → WP (Spawn q k) s l.
Proof.
  intros Hq Hk. split; [|done]. intros n _ s' l' Hr Hi. apply (wp_uniform _ _ _ _ _ _ _ _ 0%nat n); [done..|].
  by apply Hq.
Qed.

(** A write that the invariant does not see. *)
Lemma wp_modify (f : pipeline → pipeline) (k : coroutine) s l :
  I (f s) l → attempts (f s) = attempts s → LATER (WP k) (s, l) → WP (modify f k) s l.
Proof.
  intros Hi Ha Hk. assert (R (s, l) (f s, l)) as Hr by by apply R_state. split; [done|]. by apply Hk.
Qed.

Lemma wp_put s' (k : coroutine) s l :
  I s' l → attempts s' = attempts s → LATER (WP k) (s, l) → WP (Put s' k) s l.
Proof.
  intros Hi Ha Hk. assert (R (s, l) (s', l)) as Hr by by apply R_state. split; [done|]. by apply Hk.
Qed.

(** A write to an attempt, by what it does to the attempt's view. *)
Lemma wp_update_gen a (f : Attempt → Attempt) (k : coroutine) s l :
  I s l →
  (∀ x, attempts s !! a = Some x →
     (authorized (f x) = true → authorization_event (f x) = true) ∧
     (authorization_event (f x) = true → granted a l) ∧
     (cancelled x = true → cancelled (f x) = true) ∧
     (response_committed x = true → response_committed (f x) = true) ∧
     (audio_sent (f x) = true → ∃ r c, Chunk a r c ∈ l) ∧ hypothesis (f x) = hypothesis x) →
  LATER (WP k) (s, l) → WP (update a f k) s l.
Proof.
  intros Hi Hf Hk. assert (R (s, l) (set_attempts (alter f a (attempts s)) s, l)) as Hr.
  { split; [done|]. intros b x Hx Hc. simpl in *. rewrite lookup_alter. case_decide; [|by exists x].
    subst. rewrite Hx. exists (f x). split; [done|]. by apply (Hf x Hx). }
  split; [done|]. apply Hk; [done|]. by apply okay_alter.
Qed.

Lemma wp_update a (f : Attempt → Attempt) (k : coroutine) s l :
  (∀ x, view (f x) = view x) → I s l → LATER (WP k) (s, l) → WP (update a f k) s l.
Proof.
  intros Hf Hi Hk. apply wp_update_gen; [done| |done]. intros x Hx.
  specialize (Hf x). unfold view in Hf. injection Hf as -> -> -> -> -> ->.
  split; [by eapply ok_authorized|]. split; [by eapply ok_granted|]. split; [done|]. split; [done|].
  split; [|done]. intros Hs. by apply (ok_sent _ _ _ _ _ _ _ _ Hi a x).
Qed.

Lemma wp_with_attempt a (f : Attempt → coroutine) s l :
  I s l → (∀ x, attempts s !! a = Some x → WP (f x) s l) → WP (with_attempt a f) s l.
Proof.
  intros Hi Hf. unfold with_attempt. apply wp_get. destruct (attempts s !! a) as [x|] eqn:Hx; [by apply Hf|done].
Qed.

Lemma wp_cancel t (k : coroutine) s l : WP k s l → WP (Cancel t k) s l.
Proof. done. Qed.

Lemma wp_cancel_all ts (k : coroutine) s l : WP k s l → WP (cancel_all ts k) s l.
Proof. intros Hk. by induction ts. Qed.

Lemma wp_cancel_opt t (k : coroutine) s l : WP k s l → WP (cancel_opt t k) s l.
Proof. by destruct t. Qed.

Lemma wp_transition p (k : coroutine) s l : I s l → LATER (WP k) (s, l) → WP (_transition p k) s l.
Proof.
  intros Hi Hk. assert (R (s, l) (set_state p s, l)) as Hr by by apply R_state.
  unfold _transition. apply wp_get. split; [done|].
  apply wp_emit; [done|done|]. known.
Qed.


(** Attempt [a] may be heard at a point, and from then on. *)
Definition may (a : nat) (x : pipeline * list effect) : Prop := granted a x.2.

Lemma R_may a x y : R x y → may a x → may a y.
Proof. apply R_granted. Qed.

Lemma I_may a x s l : I s l → attempts s !! a = Some x → authorized x = true → may a (s, l).
Proof.
  intros Hi Hx Ha. eapply (ok_granted _ _ _ _ _ _ _ _ Hi a x Hx).
  by eapply (ok_authorized _ _ _ _ _ _ _ _ Hi a x Hx).
Qed.

(** Knowledge of the effects so far. *)
Lemma R_elem o x y : R x y → o ∈ x.2 → o ∈ y.2.
Proof. intros [Hp _] Ho. by eapply elem_prefix. Qed.

(** An attempt stays one that was started. *)
Definition begun (a : nat) (x : pipeline * list effect) : Prop := ∃ text, started a text x.2.

Lemma R_begun a x y : R x y → begun a x → begun a y.
Proof. intros [Hp _] [text Ht]. exists text. by eapply started_mono. Qed.

(** The final transcript is known from its record on. *)
Definition finalised (text : str) (x : pipeline * list effect) : Prop := ∃ turn, Final turn text ∈ x.2.

Lemma R_finalised text x y : R x y → finalised text x → finalised text y.
Proof. intros Hr [turn Ht]. exists turn. by eapply R_elem. Qed.

(** Booleans of the code as facts. *)
Ltac facts :=
  repeat match goal with
  | H : _ || _ = false |- _ => apply orb_false_elim in H as [? ?]
  | H : _ && _ = true |- _ => apply andb_prop in H as [? ?]
  | H : negb _ = false |- _ => apply negb_false_iff in H
  | H : negb _ = true |- _ => apply negb_true_iff in H
  end.

Ltac grant :=
  match goal with
  | H : may ?a ?x |- may ?a ?y => apply (R_may a x y); [follow|exact H]
  | Hi : I ?s ?l, Hx : attempts ?s !! ?a = Some ?x |- may ?a (?s, ?l) =>
      apply (I_may a x s l Hi Hx); facts; assumption
  end.

Ltac same_I :=
  match goal with H : I _ ?l |- I _ ?l => first [exact H | exact (okay_no_final _ _ _ _ _ _ _ _ H)] end.

(** The lemmas of the methods, as they are proved. *)
Ltac wp_method := fail.

Ltac go1 :=
  lazymatch goal with
  | |- I _ _ => same_I
  | H : begun ?a ?x |- begun ?a ?y => apply (R_begun a x y); [follow|exact H]
  | |- may _ _ => grant
  | H : finalised ?t ?x |- finalised ?t ?y => apply (R_finalised t x y); [follow|exact H]
  | |- ∀ _, _ => intro
  | |- LATER _ _ => first [known | intros ? ? ? ?]
  | |- WP Done ?s ?l => change (I s l)
  | |- WP (Throw _) ?s ?l => change (I s l)
  | |- WP (Get _) _ _ => apply wp_get; cbv beta zeta
  | |- WP (Self _) _ _ => intros ? _; cbv beta
  | |- WP (Emit _ _) _ _ => apply wp_emit; [reflexivity|same_I|]
  | |- WP (send _ _ _) _ _ => apply wp_send; [reflexivity|same_I| |]
  | |- WP (io _ _ _) _ _ => apply wp_io; [same_I| |]
  | |- WP (Await _ _ _) _ _ => apply wp_await; [same_I| |]
  | |- WP (Again _ _ _ _) _ _ => apply wp_again; [same_I|try exact Logic.I|..]
  | |- WP (Spawn _ _) _ _ => apply wp_spawn
  | |- WP (Cancel _ _) _ _ => apply wp_cancel
  | |- WP (Put _ _) _ _ => apply wp_put; [same_I|reflexivity|]
  | |- WP (modify _ _) _ _ => first [apply wp_modify; [same_I|reflexivity|] | wp_method]
  | |- WP (update _ _ _) _ _ => apply wp_update; [reflexivity|same_I|]
  | |- WP (with_attempt _ _) _ _ => apply wp_with_attempt; [same_I|intros ? ?]
  | |- WP (when _ _ _) _ _ => unfold when
  | |- WP (cancel_all _ _) _ _ => apply wp_cancel_all
  | |- WP (cancel_opt _ _) _ _ => apply wp_cancel_opt
  | |- WP (_transition _ _) _ _ => apply wp_transition; [same_I|]
  | |- WP (match ?x with _ => _ end) _ _ => destruct x eqn:?
  | |- WP ((λ _, _) _) _ _ => cbv beta
  | |- WP _ _ _ => first [known | wp_method]
  end.
Ltac go := repeat go1.

(** *** Audio out *)

(** What both ways of sending a chunk do. *)
Lemma wp_chunk a x rate chunk (k : coroutine) s l :
  I s l → may a (s, l) → attempts s !! a = Some x → cancelled x = false → speech_on s = true →
  LATER (WP k) (s, l) →
  WP (update a (λ x, set_audio_pending_playout true (set_audio_sent true x)) (Emit (Chunk a rate chunk) k)) s l.
Proof.
  intros Hi Hm Hx Hc Hs Hk. set (f := λ x, set_audio_pending_playout true (set_audio_sent true x)).
  assert (R (s, l) (set_attempts (alter f a (attempts s)) s, l)) as Hr.
  { split; [done|]. by apply keeps_alter. }
  split; [done|]. split.
  { split; [done|]. split; [|by rewrite <-(ok_gate _ _ _ _ _ _ _ _ Hi)].
    intros (y & Hy & Hcy)%(ok_cancelled _ _ _ _ _ _ _ _ Hi). congruence. }
  pose proof (R_effect (set_attempts (alter f a (attempts s)) s) l (Chunk a rate chunk)) as Hr'.
  split; [done|]. apply Hk; [by etrans|].
  apply okay_alter; [by apply okay_plain|]. intros y Hy. assert (y = x) as -> by congruence.
  split; [exact (ok_authorized _ _ _ _ _ _ _ _ Hi a x Hx)|]. split.
  { intros He. eapply granted_mono; [exact Hm|by apply prefix_app_r]. }
  split; [done|]. split; [done|]. split; [|done]. intros _. exists rate, chunk. apply elem_of_app. right. by left.
Qed.

Lemma wp_send_audio a rate chunk k h s l :
  I s l → may a (s, l) → LATER (WP k) (s, l) → (∀ e, LATER (WP (h e)) (s, l)) →
  WP (_send_audio config a rate chunk k h) s l.
Proof.
  intros Hi Hm Hk Hh. unfold _send_audio. apply wp_get, wp_with_attempt; [done|]. intros x Hx.
  destruct (cancelled x || negb (speech_on s)) eqn:Hc; [go|]. facts.
  apply (wp_chunk a x); [done..|]. go.
Qed.

Lemma wp_commit a k h s l :
  I s l → may a (s, l) → LATER (WP k) (s, l) → (∀ e, LATER (WP (h e)) (s, l)) →
  WP (_commit_attempt_text config a k h) s l.
Proof.
  intros Hi Hm Hk Hh. unfold _commit_attempt_text. apply wp_get, wp_with_attempt; [done|]. intros x Hx.
  cbv zeta. destruct (negb (speech_on s) || _) eqn:Hs; [go|]. destruct (response_committed x) eqn:Hc; [go|].
  assert (∀ t u, Commit a t u ∉ l) as Hno.
  { intros t u (y & Hy & Hcy)%(ok_committed _ _ _ _ _ _ _ _ Hi). congruence. }
  set (s' := set_attempts (alter (set_response_committed true) a (attempts s)) s).
  assert (R (s, l) (s', l)) as Hr by (split; [done|]; by apply keeps_alter).
  assert (I s' l) as Hi'.
  { apply okay_alter; [done|]. intros y Hy. assert (y = x) as -> by congruence.
    split; [exact (ok_authorized _ _ _ _ _ _ _ _ Hi a x Hx)|]. split; [intros _; exact Hm|].
    split; [done|]. split; [done|]. split; [|done]. exact (ok_sent _ _ _ _ _ _ _ _ Hi a x Hx). }
  split; [done|]. split; [done|]. split; [apply R_effect|]. split; [done|]. split; [apply R_effect|].
  split; [|split; [apply R_effect|]].
  { split; [eapply granted_mono; [exact Hm|]; rewrite <-app_assoc; by apply prefix_app_r|].
    intros t u. rewrite !elem_of_app, !list_elem_of_singleton. intros [[?|?]|?]; [by eapply Hno|done|done]. }
  match goal with |- WP _ _ ?l' => assert (I s' l') as Hi''; [|assert (R (s, l) (s', l')) as Hr'] end.
  { apply (okay_effect _ _ _ _ _ _ _ _ (Commit _ _ _)); [|by do 2 (apply okay_plain; [done|])].
    exists (set_response_committed true x). split; [|done]. simpl. by rewrite lookup_alter_eq, Hx. }
  { split; [|by apply keeps_alter]. simpl. rewrite <-!app_assoc. by apply prefix_app_r. }
  go.
Qed.

Ltac wp_methods1 :=
  first [apply wp_send_audio | apply wp_commit].
Ltac wp_method ::= wp_methods1.

Lemma wp_release_done a k h s l :
  I s l → may a (s, l) → LATER (WP k) (s, l) → (∀ e, LATER (WP (h e)) (s, l)) →
  WP (release_done config a k h) s l.
Proof. intros. unfold release_done. go. Qed.

Lemma wp_release_chunks a i rest k h s l :
  I s l → may a (s, l) → LATER (WP k) (s, l) → (∀ e, LATER (WP (h e)) (s, l)) →
  WP (release_chunks config a i rest k h) s l.
Proof.
  intros Hi Hm Hk Hh. revert i. induction rest as [|[rate chunk] rest IH]; intros i; cbn [release_chunks].
  - by apply wp_release_done.
  - apply wp_get, wp_with_attempt; [done|]. intros x Hx.
    destruct (cancelled x || negb (speech_on s)) eqn:Hc; [apply IH|]. facts.
    apply (wp_chunk a x); [done..|]. intros s' l' Hr Hi'. apply wp_again; [done| | |]; [|go|go].
    by apply (R_may a (s, l) (s', l')).
Qed.

Ltac wp_methods2 :=
  first [apply wp_release_done | apply wp_release_chunks | wp_methods1].
Ltac wp_method ::= wp_methods2.

Lemma wp_release_held a k h s l :
  I s l → may a (s, l) → LATER (WP k) (s, l) → (∀ e, LATER (WP (h e)) (s, l)) →
  WP (_release_held config a k h) s l.
Proof. intros. unfold _release_held. go. Qed.

Lemma wp_synthesize_phrases a phase q k h s l :
  I s l → LATER (WP k) (s, l) → (∀ e, LATER (WP (h e)) (s, l)) →
  WP (_synthesize_phrases a phase q k h) s l.
Proof. intros. unfold _synthesize_phrases. go. Qed.

Lemma wp_next_phrase a phase q k h s l :
  I s l → (∀ v, LATER (WP (k v)) (s, l)) → (∀ e, LATER (WP (h e)) (s, l)) →
  WP (next_phrase a phase q k h) s l.
Proof. intros. unfold next_phrase. go. Qed.

Lemma wp_next_chunk a phase q rate k h s l :
  I s l → (∀ v, LATER (WP (k v)) (s, l)) → (∀ e, LATER (WP (h e)) (s, l)) →
  WP (next_chunk a phase q rate k h) s l.
Proof. intros. unfold next_chunk. go. Qed.

Ltac wp_methods3 :=
  first [apply wp_release_held | apply wp_synthesize_phrases | apply wp_next_phrase | apply
        wp_next_chunk | wp_methods2].
Ltac wp_method ::= wp_methods3.

Lemma wp_synthesize_phrase a phase q k h s l :
  I s l → (∀ v, LATER (WP (k v)) (s, l)) → (∀ e, LATER (WP (h e)) (s, l)) →
  WP (synthesize_phrase config word a phase q k h) s l.
Proof.
  intros Hi Hk Hh. unfold synthesize_phrase. apply wp_get.
  destruct (queues s !! q) as [[|item rest]|] eqn:Hq; [go| |go].
  apply wp_put; [done|done|]. go.
Qed.

Lemma wp_synthesize_chunk a phase q rate v k h s l :
  I s l → (∀ v, LATER (WP (k v)) (s, l)) → (∀ e, LATER (WP (h e)) (s, l)) →
  WP (synthesize_chunk config a phase q rate v k h) s l.
Proof. intros. unfold synthesize_chunk. go. Qed.

Lemma wp_speak_text a text phase k h s l :
  I s l → LATER (WP k) (s, l) → (∀ e, LATER (WP (h e)) (s, l)) →
  WP (_speak_text config a text phase k h) s l.
Proof. intros. unfold _speak_text. cbv zeta. go. Qed.

Ltac wp_methods4 :=
  first [apply wp_speak_text | wp_methods3].
Ltac wp_method ::= wp_methods4.

(** *** Interruption *)

Lemma wp_stop_task me t k h s l :
  I s l → LATER (WP k) (s, l) → (∀ e, LATER (WP (h e)) (s, l)) → WP (stop_task me t k h) s l.
Proof. intros. unfold stop_task. go. Qed.

(** That an attempt is cancelled is never taken back. *)
Definition is_cancelled (a : nat) (x : pipeline * list effect) : Prop :=
  ∃ y, attempts x.1 !! a = Some y ∧ cancelled y = true.

Lemma R_cancelled a x y : R x y → is_cancelled a x → is_cancelled a y.
Proof. intros [_ Hc] (z & Hz & Hcz). by apply (Hc a z). Qed.

Lemma wp_cancel_finish a released k h s l :
  I s l → is_cancelled a (s, l) → LATER (WP k) (s, l) → (∀ e, LATER (WP (h e)) (s, l)) →
  WP (cancel_finish a released k h) s l.
Proof.
  intros Hi (y & Hy & Hcy) Hk Hh. unfold cancel_finish. apply wp_with_attempt; [done|]. intros x Hx.
  simpl in Hy. assert (y = x) as -> by congruence. cbv zeta.
  split; [done|]. split; [apply R_effect|].
  assert (I s (l ++ [Cancelled a])) as Hi' by (apply (okay_effect _ _ _ _ _ _ _ _ (Cancelled a)); [by exists x|done]).
  pose proof (R_effect s l (Cancelled a)) as Hr.
  destruct (audio_sent x) eqn:Hs; cbn [andb]; [|go].
  destruct (ok_sent _ _ _ _ _ _ _ _ Hi a x Hx Hs) as (r & c & Hrc).
  destruct (negb (bool_decide (answer x = [])) && negb (response_committed x)) eqn:Hnew; [|go].
  unfold when at 1. split.
  { split; [by exists r, c; apply elem_of_app; left|]. intros t u.
    intros (z & Hz & Hcz)%(ok_committed _ _ _ _ _ _ _ _ Hi'). facts. congruence. }
  pose proof (R_effect s (l ++ [Cancelled a]) (AddAssistant a (py_strip (answer x)) (at_turn x) true)) as Hr'.
  split; [done|].
  assert (I s ((l ++ [Cancelled a]) ++ [AddAssistant a (py_strip (answer x)) (at_turn x) true])) as Hi''
    by by apply okay_plain.
  go.
Qed.

Lemma wp_cancel_tasks me k h s1 l1 :
  I s1 l1 → LATER (WP k) (s1, l1) → (∀ e, LATER (WP (h e)) (s1, l1)) → WP (cancel_tasks me k h) s1 l1.
Proof.
  intros Hi1 Hk Hh. unfold cancel_tasks. apply wp_get. destruct (attempt s1) as [a|]; [|go].
  set (s2 := set_attempts (alter (set_cancelled true) a (attempts s1)) s1).
  assert (R (s1, l1) (s2, l1)) as Hr2 by (split; [done|]; by apply keeps_alter).
  split; [done|].
  assert (I s2 l1) as Hi2.
  { apply okay_alter; [done|]. intros x Hx. split; [exact (ok_authorized _ _ _ _ _ _ _ _ Hi1 a x Hx)|].
    split; [exact (ok_granted _ _ _ _ _ _ _ _ Hi1 a x Hx)|]. split; [done|]. split; [done|].
    split; [|done]. exact (ok_sent _ _ _ _ _ _ _ _ Hi1 a x Hx). }
  apply wp_with_attempt; [done|]. intros x Hx.
  assert (is_cancelled a (s2, l1)) as Hc.
  { simpl in Hx. rewrite lookup_alter_eq in Hx. destruct (attempts s1 !! a) as [z|] eqn:Hz; simplify_eq/=.
    exists (set_cancelled true z). split; [|done]. simpl. by rewrite lookup_alter_eq, Hz. }
  apply wp_cancel_all, wp_await; [done| |go]. intros _ s3 l3 Hr3 Hi3.
  apply wp_with_attempt; [done|]. intros y Hy.
  apply wp_stop_task; [done| |go]. intros s4 l4 Hr4 Hi4.
  apply wp_with_attempt; [done|]. intros z Hz.
  apply wp_stop_task; [done| |go]. intros s5 l5 Hr5 Hi5.
  apply wp_cancel_finish; [done| |go|go].
  apply (R_cancelled a (s2, l1)); [follow|done].
Qed.

Lemma wp_cancel_current me k h s l :
  I s l → LATER (WP k) (s, l) → (∀ e, LATER (WP (h e)) (s, l)) →
  WP (cancel_current config me k h) s l.
Proof.
  intros. unfold cancel_current, when. case_match; [|by apply wp_cancel_tasks].
  apply wp_emit; [done|done|]. intros s' l' Hr Hi. apply wp_cancel_tasks; [done|go|go].
Qed.

Lemma wp_cancel_attempt k h s l :
  I s l → LATER (WP k) (s, l) → (∀ e, LATER (WP (h e)) (s, l)) →
  WP (_cancel_attempt config k h) s l.
Proof.
  intros. unfold _cancel_attempt. intros me _. apply wp_get.
  destruct (final_response_task s) as [t|]; [|by apply wp_cancel_current].
  destruct (t =? me)%nat; [by apply wp_cancel_current|]. apply wp_cancel, wp_await; [done| |go].
  intros _ s' l' Hr Hi. apply wp_modify; [done|done|]. intros s'' l'' Hr' Hi'.
  apply wp_cancel_current; [done|known|go].
Qed.

Ltac wp_methods5 :=
  first [apply wp_stop_task | apply wp_cancel_attempt | wp_methods4].
Ltac wp_method ::= wp_methods5.

(** *** Generation *)

Lemma wp_until_authorized a k h s l :
  I s l → (∀ s' l', R (s, l) (s', l') → I s' l' → may a (s', l') → WP k s' l') →
  (∀ e, LATER (WP (h e)) (s, l)) →
  WP (until_authorized a k h) s l.
Proof.
  intros Hi Hk Hh. unfold until_authorized. apply wp_with_attempt; [done|]. intros x Hx.
  destruct (authorized x) eqn:Ha.
  - apply Hk; [done|done|]. by eapply I_may.
  - split; [done|]. intros s' l' Hr Hi'. split; [|intros e; go]. intros Hev _ _. apply Hk; [done|done|].
    unfold event_set in Hev. destruct (attempts s' !! a) as [y|] eqn:Hy; [|done].
    by apply (ok_granted _ _ _ _ _ _ _ _ Hi' a y).
Qed.

Lemma wp_apply_speech_control a k h s l :
  I s l → LATER (WP k) (s, l) → (∀ e, LATER (WP (h e)) (s, l)) →
  WP (_apply_speech_control config a k h) s l.
Proof.
  intros Hi Hk Hh. unfold _apply_speech_control. apply wp_get, wp_with_attempt; [done|]. intros x Hx.
  destruct (speech_control x) as [call|]; [|go]. destruct (_ || engagement_closed s); [go|].
  apply wp_update; [done|done|]. intros s1 l1 Hr1 Hi1.
  destruct (gate_arguments (call_arguments call)) as [[enabled response]|]; [|go].
  split; [done|]. split; [apply R_effect|].
  assert (R (s1, l1) (set_speech_on enabled s1, l1 ++ [Gate enabled])) as Hr2.
  { split; [by apply prefix_app_r|]. intros b y ??. eauto. }
  split; [by apply R_state|].
  assert (I (set_speech_on enabled s1) (l1 ++ [Gate enabled])) as Hi2
    by by apply (okay_effect _ _ _ (speech_on s1) _ _ _ _ (Gate enabled)).
  go.
Qed.

Ltac wp_methods6 :=
  first [apply wp_until_authorized | apply wp_apply_speech_control | wp_methods5].
Ltac wp_method ::= wp_methods6.

Lemma wp_next_event a phase t calls q task stopped k h s l :
  I s l → (∀ v, LATER (WP (k v)) (s, l)) → (∀ e, LATER (WP (h e)) (s, l)) →
  WP (next_event a phase t calls q task stopped k h) s l.
Proof. intros. unfold next_event. go. Qed.

Lemma wp_stream a phase k h s l :
  I s l → (∀ calls, LATER (WP (k calls)) (s, l)) → (∀ e, LATER (WP (h e)) (s, l)) →
  WP (_stream_llm_and_tts a phase k h) s l.
Proof.
  intros Hi Hk Hh. unfold _stream_llm_and_tts. apply wp_get. cbv zeta.
  apply wp_put; [done|done|]. intros s' l' Hr Hi'. apply wp_spawn; [go|]. intros task.
  apply wp_next_event; [done| |]; [intros v|intros e]; go.
Qed.

Lemma wp_stream_end a phase t calls q task stopped k h s l :
  I s l → (∀ v, LATER (WP (k v)) (s, l)) → (∀ e, LATER (WP (h e)) (s, l)) →
  WP (stream_end config word a phase t calls q task stopped k h) s l.
Proof. intros. unfold stream_end. go. Qed.

Ltac wp_methods7 :=
  first [apply wp_next_event | apply wp_stream | apply wp_stream_end | wp_methods6].
Ltac wp_method ::= wp_methods7.

Lemma wp_stream_event a phase t calls q task stopped v k h s l :
  I s l → (∀ v, LATER (WP (k v)) (s, l)) → (∀ e, LATER (WP (h e)) (s, l)) →
  WP (stream_event config word a phase t calls q task stopped v k h) s l.
Proof. intros. unfold stream_event. go. Qed.

Lemma on_exception_later d h x :
  (∀ e, LATER (WP (d e)) x) → (∀ e, LATER (WP (h e)) x) → ∀ e, LATER (WP (on_exception d h e)) x.
Proof. intros Hd Hh []; [apply Hd..|apply Hh|apply Hd|apply Hd]. Qed.

Lemma wp_natural a phase k h s l :
  I s l → LATER (WP k) (s, l) → (∀ e, LATER (WP (h e)) (s, l)) →
  WP (_generate_natural_action_response a phase k h) s l.
Proof.
  intros. unfold _generate_natural_action_response. apply wp_update; [done|done|]. intros s' l' Hr Hi.
  apply wp_stream; [done|go|]. apply on_exception_later; go.
Qed.

Lemma wp_say_result a text phase k h s l :
  I s l → LATER (WP k) (s, l) → (∀ e, LATER (WP (h e)) (s, l)) →
  WP (say_result config a text phase k h) s l.
Proof. intros. unfold say_result. case_match; [by apply wp_natural|by apply wp_speak_text]. Qed.

Lemma wp_finish_speech a k h s l :
  I s l → LATER (WP k) (s, l) → (∀ e, LATER (WP (h e)) (s, l)) → WP (_finish_speech a k h) s l.
Proof. intros. unfold _finish_speech. go. Qed.

Lemma wp_knowledge_lookup a call k h s l :
  I s l → LATER (WP k) (s, l) → (∀ e, LATER (WP (h e)) (s, l)) → WP (_run_knowledge_lookup a call k h) s l.
Proof. intros. unfold _run_knowledge_lookup. go. Qed.

Lemma wp_next_bank a k h s l :
  I s l → (∀ v, LATER (WP (k v)) (s, l)) → (∀ e, LATER (WP (h e)) (s, l)) → WP (next_bank a k h) s l.
Proof. intros. unfold next_bank. go. Qed.

(** A new pending action is not confirmed. *)
Lemma wp_pend call prompt k s l :
  I s l → LATER (WP k) (s, l) → WP (pend call prompt k) s l.
Proof.
  intros Hi Hk. set (n := next_pending s). set (s' := add_pending call prompt s). set (o := Pended n call prompt).
  assert (R (s, l) (s', l)) as Hr by by apply R_state. pose proof (R_effect s' l o) as Hr'.
  unfold pend. apply wp_get. split; [done|]. split; [|split; [done|]].
  { intros c t Hin. pose proof (ok_numbered _ _ _ _ _ _ _ _ Hi _ _ _ Hin). unfold n in *. lia. }
  apply Hk; [by etrans|].
  assert (okay (attempts s) (next_attempt s) (call_ending s) (speech_on s) (pending_action s) (S n)
            (final_text s) l) as Hi'.
  { destruct Hi. split; try done.
    - intros q Hq. destruct (ok_pending0 q Hq). split; [unfold n; lia|done].
    - intros a q d Ha%ok_decided0. unfold n. lia.
    - intros q c t Ha%ok_numbered0. unfold n. lia. }
  assert (∀ a, Decision a n confirmed ∉ l ++ [o]) as Hno.
  { intros a Ha%elem_snoc_ne; [|done]. pose proof (ok_decided _ _ _ _ _ _ _ _ Hi _ _ _ Ha). unfold n in *. lia. }
  apply (okay_effect _ _ _ _ _ _ _ _ o) in Hi'; [|simpl; lia]. destruct Hi'. split; try done.
  - intros q [= <-]. split; [simpl; lia|exact Hno].
  - intros q [= <-]. apply elem_of_app. right. by left.
Qed.

Lemma wp_drop_pending k s l : I s l → LATER (WP k) (s, l) → WP (drop_pending k) s l.
Proof.
  intros Hi Hk. assert (R (s, l) (set_pending_action None s, l)) as Hr by by apply R_state.
  split; [done|]. apply Hk; [done|]. destruct Hi. by split.
Qed.

Ltac wp_methods8 :=
  first [apply wp_pend | apply wp_drop_pending | apply wp_natural | apply wp_say_result |
        apply wp_finish_speech | apply wp_knowledge_lookup | apply wp_next_bank | wp_methods7].
Ltac wp_method ::= wp_methods8.

Lemma wp_bank_round a v k h s l :
  I s l → (∀ v, LATER (WP (k v)) (s, l)) → (∀ e, LATER (WP (h e)) (s, l)) →
  WP (bank_round config a v k h) s l.
Proof.
  intros Hi Hk Hh. unfold bank_round. apply wp_with_attempt; [done|]. intros x Hx.
  destruct (cancelled x || _); [go|]. destruct v; go.
Qed.


(** The end of the call is authorised by an attempt that may be heard. *)
Lemma wp_end_call a k s l :
  I s l → may a (s, l) → LATER (WP k) (s, l) →
  WP (modify (set_call_ending true) (Emit (EndCallAuthorized a) k)) s l.
Proof.
  intros Hi Hm Hk. pose proof (R_state s l (set_call_ending true s) eq_refl) as Hr. split; [done|].
  pose proof (R_effect (set_call_ending true s) l (EndCallAuthorized a)) as Hr'.
  split; [done|]. split; [done|]. apply Hk; [by etrans|].
  apply (okay_effect _ _ _ _ _ _ _ _ (EndCallAuthorized a)); [done|].
  destruct Hi. by split.
Qed.

Lemma wp_dispatch_tool a call k h s l :
  I s l → LATER (WP k) (s, l) → (∀ e, LATER (WP (h e)) (s, l)) →
  WP (dispatch_tool config a call k h) s l.
Proof.
  intros Hi Hk Hh. unfold dispatch_tool. cbv zeta.
  destruct (call_name call =s lit "knowledge_lookup"); [go|].
  destruct (call_name call =s lit "transfer_to_aicc"); [go|].
  destruct (in_strs (call_name call) BANK_TOOLS); [go|].
  destruct (call_name call =s lit "end_call"); [|go].
  apply wp_with_attempt; [done|]. intros x Hx.
  destruct (negb (authorized x)) eqn:Ha; [go|].
  assert (may a (s, l)) as Hm by grant.
  apply wp_update; [done|done|]. intros s' l' Hr Hi'. apply wp_end_call; [done|grant|]. go.
Qed.

Lemma wp_knowledge_branch a k leave h s l :
  I s l → LATER (WP k) (s, l) → LATER (WP leave) (s, l) → (∀ e, LATER (WP (h e)) (s, l)) →
  WP (knowledge_branch config a k leave h) s l.
Proof.
  intros Hi Hk Hl Hh. unfold knowledge_branch. cbv zeta.
  match goal with |- context [if negb (knowledge_available config) then ?f else _] => set (followup := f) end.
  assert (LATER (WP followup) (s, l)) as Hf by (unfold followup; go).
  clearbody followup. go.
Qed.

Lemma wp_empty_fallback a k h s l :
  I s l → LATER (WP k) (s, l) → (∀ e, LATER (WP (h e)) (s, l)) → WP (empty_fallback config a k h) s l.
Proof. intros. unfold empty_fallback. go. Qed.

Lemma wp_run_transfer a k h s l :
  I s l → LATER (WP k) (s, l) → (∀ e, LATER (WP (h e)) (s, l)) → WP (run_transfer config a k h) s l.
Proof.
  intros Hi Hk Hh. unfold run_transfer. cbv zeta.
  set (h' := λ e : pyexc, modify (set_handoff_in_progress false) (h e)).
  assert (∀ e, LATER (WP (h' e)) (s, l)) as Hh' by (intros e; unfold h'; go).
  clearbody h'.
  match goal with |- context [_finish_speech a ?f h'] => set (report := _finish_speech a f h') end.
  assert (LATER (WP report) (s, l)) as Hrep by (unfold report; go).
  clearbody report. go.
Qed.

Ltac wp_methods9 :=
  first [apply wp_dispatch_tool | apply wp_knowledge_branch | apply wp_empty_fallback | apply
        wp_run_transfer | wp_methods8].
Ltac wp_method ::= wp_methods9.

Lemma wp_complete a k h s l :
  I s l → LATER (WP k) (s, l) → (∀ e, LATER (WP (h e)) (s, l)) → WP (complete config a k h) s l.
Proof. intros. unfold complete. go. Qed.

Lemma wp_degraded a k report h s l :
  I s l → may a (s, l) → LATER (WP k) (s, l) → LATER (WP report) (s, l) → (∀ e, LATER (WP (h e)) (s, l)) →
  WP (degraded_response config a k report h) s l.
Proof.
  intros Hi Hm Hk Hrep Hh. unfold degraded_response. cbv zeta.
  assert (∀ e, LATER (WP (on_exception (λ _, report) h e)) (s, l)) as Hh'
    by (apply on_exception_later; [intros _; known|done]).
  generalize dependent (on_exception (λ _, report) h). intros h' Hh'. go.
Qed.

Lemma wp_generation_error a k h s l :
  I s l → LATER (WP k) (s, l) → (∀ e, LATER (WP (h e)) (s, l)) →
  ∀ e, LATER (WP (generation_error config a k h e)) (s, l).
Proof.
  intros Hi Hk Hh. apply on_exception_later; [|done]. intros e s' l' Hr Hi'. cbv zeta.
  set (report := send _ k h). assert (LATER (WP report) (s, l)) as Hrep by (unfold report; go).
  clearbody report. apply wp_with_attempt; [done|]. intros x Hx.
  destruct (authorized x && outage e && _ && _) eqn:Ha; [|known]. facts.
  apply wp_degraded; [done|by eapply I_may|known|known|go].
Qed.

Lemma wp_generate_after a k h s l :
  I s l → LATER (WP k) (s, l) → (∀ e, LATER (WP (h e)) (s, l)) →
  WP (generate_after config word a k h) s l.
Proof.
  intros Hi Hk Hh. unfold generate_after. cbv zeta.
  set (rest := empty_fallback config a (complete config a k h) h).
  assert (LATER (WP rest) (s, l)) as Hrest.
  { unfold rest. intros s' l' Hr Hi'. apply wp_empty_fallback; [done| |go].
    intros s2 l2 Hr2 Hi2. apply wp_complete; [done|go|go]. }
  clearbody rest. go.
Qed.

Lemma wp_generate a k h s l :
  I s l → LATER (WP k) (s, l) → (∀ e, LATER (WP (h e)) (s, l)) → WP (_generate config word a k h) s l.
Proof.
  intros Hi Hk Hh. unfold _generate. cbv zeta.
  set (h' := generation_error config a k h).
  assert (∀ e, LATER (WP (h' e)) (s, l)) as Hh'.
  { by apply wp_generation_error. }
  clearbody h'. apply wp_stream; [done| |done]. intros calls s1 l1 Hr1 Hi1.
  apply wp_update; [done|done|]. intros s2 l2 Hr2 Hi2. apply wp_with_attempt; [done|]. intros x Hx.
  assert (LATER (WP (generate_after config word a k h')) (s2, l2)) as Ha.
  { intros s3 l3 Hr3 Hi3. apply wp_generate_after; [done|go|go]. }
  generalize dependent (generate_after config word a k h'). intros after Ha. go.
Qed.

(** *** A pending action *)

Ltac wp_methods10 :=
  first [apply wp_complete | apply wp_generate_after | apply wp_generate | wp_methods9].
Ltac wp_method ::= wp_methods10.

(** An executed action was confirmed; the invariant only holds again once it is not pending. *)
Lemma wp_execute_pending a p k h s l :
  I (set_pending_action None s) l → Decision a (pd_id p) confirmed ∈ l →
  Pended (pd_id p) (pd_call p) (confirmation_prompt p) ∈ l →
  LATER (WP k) (s, l) → (∀ e, LATER (WP (h e)) (s, l)) →
  WP (execute_pending config a p k h) s l.
Proof.
  intros Hi Hd Hp Hk Hh. unfold execute_pending. cbv zeta.
  match goal with |- context [Emit (Execute a (pd_id p) ?c) ?r] => set (rest := Emit (Execute a (pd_id p) c) r) end.
  set (s0 := set_pending_action None s). assert (R (s, l) (s0, l)) as Hr0 by by apply R_state.
  assert (LATER (WP rest) (s0, l)) as Hrest.
  { intros s' l' Hr Hi'. split.
    { split; [exact (R_elem _ (s0, l) (s', l') Hr Hd)|]. exists (confirmation_prompt p).
      exact (R_elem _ (s0, l) (s', l') Hr Hp). }
    pose proof (R_effect s' l' (Execute a (pd_id p) (pd_call p))) as Hr'. split; [done|].
    assert (I s' (l' ++ [Execute a (pd_id p) (pd_call p)])) as Hi'' by by apply okay_plain. go. }
  clearbody rest. split; [done|]. fold s0 in Hi |- *. clearbody s0. go.
Qed.

(** What changes only the pending action, and not which it is. *)
Lemma wp_unclear_pending a q k h s l :
  I s l → pending_action s = Some q → LATER (WP k) (s, l) → (∀ e, LATER (WP (h e)) (s, l)) →
  WP (unclear_pending config a q k h) s l.
Proof.
  intros Hi Hq Hk Hh. unfold unclear_pending. cbv zeta.
  destruct (in_strs _ _); [go|]. destruct (reasks q <? 2); [|go].
  set (f := λ s : pipeline, _). assert (R (s, l) (f s, l)) as Hr.
  { apply R_state. unfold f. rewrite Hq. by case_match. }
  split; [done|]. assert (I (f s) l) as Hi'.
  { unfold f. rewrite Hq, Nat.eqb_refl. destruct Hi. split; try done.
    - intros q' [= <-]. by apply (ok_pending0 q).
    - intros q' [= <-]. by apply (ok_pended0 q). }
  go.
Qed.

Lemma wp_finish_action a k h s l :
  I s l → LATER (WP k) (s, l) → (∀ e, LATER (WP (h e)) (s, l)) → WP (finish_action config a k h) s l.
Proof. intros. unfold finish_action. go. Qed.

(** What the classifier of a confirmation is given. *)
Lemma evidence_said a x s l :
  I s l → attempts s !! a = Some x →
  Application a ∈ l ∨ said a (match final_text s with [] => hypothesis x | t => t end) l.
Proof.
  intros Hi Hx. destruct (final_text s) as [|c t] eqn:Ht.
  - destruct (ok_origin _ _ _ _ _ _ _ _ Hi a x Hx); [by left|right; by right].
  - right; left. rewrite <-Ht. destruct (ok_final _ _ _ _ _ _ _ _ Hi) as [Hn|Hf]; [|done].
    by rewrite Ht in Hn.
Qed.

(** From the decision on; [p] is still the pending action. *)
Lemma wp_decided a p decision (k fin : coroutine) h s l :
  let after q :=
    if decision =s lit "revised" then
      drop_pending (Emit DropPrepared (update a (set_held_audio []) (_generate config word a k h)))
    else if decision =s lit "rejected" then
      drop_pending (Emit DropPrepared (say_result config a rejected_text (lit "tool_confirmation_rejected") fin h))
    else if decision =s lit "unclear" then unclear_pending config a q fin h
    else execute_pending config a q fin h in
  I s l → may a (s, l) → begun a (s, l) → (∃ ev c t, Asked a (pd_id p) ev c t ∈ l) →
  pending_action s = Some p → in_strs decision labels_of_decision = true →
  LATER (WP k) (s, l) → LATER (WP fin) (s, l) → (∀ e, LATER (WP (h e)) (s, l)) →
  WP (Emit (Decision a (pd_id p) decision) (update a (set_answer []) (after p))) s l.
Proof.
  intros after Hi Hm Hb Hask Hq Hv Hk Hf Hh. destruct (ok_pending _ _ _ _ _ _ _ _ Hi p Hq) as [Hlt Hno].
  pose proof (ok_pended _ _ _ _ _ _ _ _ Hi p Hq) as Hp.
  set (l3 := l ++ [Decision a (pd_id p) decision]).
  assert (R (s, l) (s, l3)) as Hr3 by apply R_effect. split; [|split; [done|]].
  { split; [exact Hm|]. split; [exact Hb|]. split; [exact Hask|]. intros _ b. apply Hno. }
  set (s4 := set_attempts (alter (set_answer []) a (attempts s)) s).
  assert (R (s, l3) (s4, l3)) as Hr4 by (split; [done|]; by apply keeps_alter). split; [done|].
  assert (pending_action s4 = Some p) as Hq4 by done.
  assert (I (set_pending_action None s4) l3) as Hdrop.
  { apply okay_view; [done|]. apply (okay_effect _ _ _ _ _ _ _ _ (Decision a (pd_id p) decision)).
    - simpl. split; [lia|done].
    - destruct Hi. by split. }
  assert (decision ≠ confirmed → I s4 l3) as Hkeep.
  { intros Hd. apply okay_view; [done|]. apply (okay_effect _ _ _ _ _ _ _ _ (Decision a (pd_id p) decision)); [|done].
    simpl. split; [lia|done]. }
  assert (∀ d, lit d ≠ confirmed → (decision =s lit d) = true → I s4 l3) as Hkeep'.
  { intros d Hd Heq%str_eqb_true. apply Hkeep. by rewrite Heq. }
  assert (Decision a (pd_id p) decision ∈ l3) as Hin by (apply elem_of_app; right; by left).
  assert (Pended (pd_id p) (pd_call p) (confirmation_prompt p) ∈ l3) as Hp3 by (apply elem_of_app; by left).
  match goal with |- WP ?p _ _ => change (WP p s4 l3) end. unfold after. clearbody s4 l3.
  destruct (decision =s lit "revised") eqn:E1; [|destruct (decision =s lit "rejected") eqn:E2;
    [|destruct (decision =s lit "unclear") eqn:E3]].
  - assert (I s4 l3) by by apply (Hkeep' "revised"%string). go.
  - assert (I s4 l3) by by apply (Hkeep' "rejected"%string). go.
  - assert (I s4 l3) by by apply (Hkeep' "unclear"%string).
    apply wp_unclear_pending; [done|done|go|go].
  - assert (decision = confirmed) as ->.
    { apply in_strs_true in Hv. apply str_eqb_false in E1, E2, E3.
      repeat (apply elem_of_cons in Hv as [->|Hv]; [done|]). by apply not_elem_of_nil in Hv. }
    apply wp_execute_pending; [done|done|done|go|go].
Qed.

Lemma wp_handle_pending a k h s l :
  I s l → begun a (s, l) → LATER (WP k) (s, l) → (∀ e, LATER (WP (h e)) (s, l)) →
  WP (_handle_pending_action config word a k h) s l.
Proof.
  intros Hi Hb Hk Hh. unfold _handle_pending_action. cbv zeta.
  set (h' := on_exception _ h). assert (∀ e, LATER (WP (h' e)) (s, l)) as Hh' by (apply on_exception_later; go).
  clearbody h'. match goal with |- context [say_result config a rejected_text _ ?f h'] => set (fin := f) end.
  assert (LATER (WP fin) (s, l)) as Hf.
  { intros s' l' ??. apply wp_finish_action; [done|known|intros e; known]. }
  clearbody fin.
  apply wp_get. destruct (pending_action s) as [p|] eqn:Hp; [|go].
  pose proof (ok_pended _ _ _ _ _ _ _ _ Hi p Hp) as Hpended.
  apply wp_until_authorized; [done| |go]. intros s1 l1 Hr1 Hi1 Hm1.
  apply wp_with_attempt; [done|]. intros x Hx. destruct (cancelled x); [go|]. apply wp_get.
  set (ev := match final_text s1 with [] => hypothesis x | t => t end). set (o := Asked a (pd_id p) ev _ _).
  assert (R (s1, l1) (s1, l1 ++ [o])) as Hr1' by apply R_effect. split; [|split; [done|]].
  { split; [exact (R_elem _ (s, l) (s1, l1) Hr1 Hpended)|by apply evidence_said]. }
  split; [by apply okay_plain|].
  intros s2 l2 Hr2 Hi2. split; [|intros e; go]. intros _ v Hv.
  destruct v as [| | | | | | |decision| | | |]; try done.
  apply wp_get, wp_with_attempt; [done|]. intros y Hy.
  destruct (pending_action s2) as [q|] eqn:Hq; [|go].
  destruct (cancelled y || negb (pd_id q =? pd_id p)%nat) eqn:Hc; [go|]. facts.
  match goal with H : (_ =? _)%nat = true |- _ => apply Nat.eqb_eq in H; rename H into Hqp end.
  rewrite <-Hqp. apply wp_decided; [done|grant|go1| |done|exact Hv|go|go|go].
  exists ev, (pd_call p), (confirmation_prompt p). rewrite Hqp. apply (R_elem _ (s1, l1 ++ [o]) (s2, l2) Hr2).
  apply elem_of_app. right. by left.
Qed.

(** *** The caller's turn *)

Ltac wp_methods11 := first [apply wp_handle_pending | wp_methods10].
Ltac wp_method ::= wp_methods11.

(** A new attempt, with the effect that tells where it comes from. *)
Definition birth (n : nat) (x : Attempt) (o : effect) : Prop :=
  o = Application n ∨ ∃ sp au, o = Started n sp au (hypothesis x).

Lemma okay_add x o at_ n e on p np ft l :
  okay at_ n e on p np ft l → birth n x o → (authorized x = true → authorization_event x = true) →
  (authorization_event x = true → granted n (l ++ [o])) → audio_sent x = false →
  okay (<[n := x]> at_) (S n) e on p np ft (l ++ [o]).
Proof.
  intros H Ho Ha Hg Hs. assert (at_ !! n = None) as Hnone by by eapply ok_fresh.
  assert (okay at_ (S n) e on p np ft l) as Hn.
  { destruct H. split; try done; intros a Hle; [apply ok_fresh0|apply ok_born0]; lia. }
  apply (okay_effect _ _ _ _ _ _ _ _ o) in Hn; [|by destruct Ho as [->|(sp & au & ->)]; simpl; lia].
  replace (match o with Gate b => b | _ => on end) with on in Hn by by destruct Ho as [->|(sp & au & ->)].
  destruct Hn. split; try done.
  - intros b y [[<- <-]|[_ Hb]]%lookup_insert_Some; eauto.
  - intros b y [[<- <-]|[_ Hb]]%lookup_insert_Some; eauto.
  - intros b (y & Hy & Hc)%ok_cancelled0. exists y. by rewrite lookup_insert_ne by congruence.
  - intros b t u (y & Hy & Hc)%ok_committed0. exists y. by rewrite lookup_insert_ne by congruence.
  - intros b y [[<- <-]|[_ Hb]]%lookup_insert_Some; [congruence|eauto].
  - intros b Hb. rewrite lookup_insert_ne by lia. apply ok_fresh0. lia.
  - intros b y [[<- <-]|[_ Hb]]%lookup_insert_Some; [|by apply ok_origin0].
    destruct Ho as [->|(sp & au & ->)]; [left|right; exists sp, au]; apply elem_of_app; right; by left.
Qed.

(** A started attempt may be heard at once only for a committed final transcript. *)
Lemma wp_start_attempt text spec auth k h s l :
  I s l → (auth = true → spec = false ∧ ∃ turn, Final turn text ∈ l) →
  LATER (WP k) (s, l) → (∀ e, LATER (WP (h e)) (s, l)) →
  WP (_start_attempt config word text spec auth k h) s l.
Proof.
  intros Hi Hf Hk Hh. unfold _start_attempt. cbv zeta.
  match goal with |- context [_cancel_attempt config ?p h] => set (start := p) end.
  assert (LATER (WP start) (s, l)) as Hs; [|clearbody start; go].
  intros s1 l1 Hr1 Hi1. unfold start. apply wp_get.
  set (a := next_attempt s1). set (x := mkAttempt a _ _ _ _ _ _ _ _ _ _ _ _ _ _ _ _ _ _ _ _ _ _ _ _).
  assert (R (s1, l1) (add_attempt x s1, l1)) as Hr2.
  { split; [done|]. intros b y Hy Hc. simpl in *. exists y. rewrite lookup_insert_ne; [done|].
    intros <-. by rewrite (ok_fresh _ _ _ _ _ _ _ _ Hi1) in Hy. }
  split; [done|]. set (s2 := set_attempt (Some a) (add_attempt x s1)).
  assert (R (s1, l1) (s2, l1)) as Hr3 by exact Hr2.
  assert (∀ (k' : coroutine) l2, l1 `prefix_of` l2 → I s1 l2 →
    (∀ s' l', R (s, l) (s', l') → I s' l' → begun a (s', l') → WP k' s' l') →
    WP (modify (set_attempt (Some a)) (Emit (Started a spec auth text) k')) (add_attempt x s1) l2) as Hgo.
  { intros k' l2 Hp Hi2 Hk'. split; [by apply R_state|]. change (WP (Emit (Started a spec auth text) k') s2 l2).
    assert (R (s1, l1) (s2, l2)) as Hr4 by (split; [done|]; apply Hr2).
    split; [|split; [apply R_effect|]].
    { split; [by apply (ok_born _ _ _ _ _ _ _ _ Hi2)|]. intros Ha. destruct (Hf Ha) as (-> & turn & Ht). split; [done|]. exists turn.
      apply (R_elem _ (s, l) (s2, l2)); [follow|done]. }
    pose proof (R_effect s2 l2 (Started a spec auth text)) as Hr5.
    apply Hk'; [follow| |exists text, spec, auth; apply elem_of_app; right; by left].
    apply okay_add; [done|right; by exists spec, auth|done| |done].
    simpl. intros ->. destruct (Hf eq_refl) as (-> & _). right; left. exists text.
    apply elem_of_app. right. by left. }
  match goal with |- context [Emit (Started _ _ _ _) ?k'] => set (rest := k') end.
  assert (∀ s' l', R (s, l) (s', l') → I s' l' → begun a (s', l') → WP rest s' l') as Hrest
    by (intros s' l' ? ? ?; unfold rest; go).
  clearbody rest. unfold when. destruct auth; [|by apply Hgo]. split; [done|]. split; [apply R_effect|].
  apply Hgo; [by apply prefix_app_r|by apply okay_plain|done].
Qed.

Lemma wp_start_final text k h s l :
  I s l → finalised text (s, l) → LATER (WP k) (s, l) → (∀ e, LATER (WP (h e)) (s, l)) →
  WP (_start_attempt config word text false true k h) s l.
Proof. intros Hi Hf Hk Hh. by apply wp_start_attempt. Qed.

Lemma wp_start_speculative text k h s l :
  I s l → LATER (WP k) (s, l) → (∀ e, LATER (WP (h e)) (s, l)) →
  WP (_start_attempt config word text true false k h) s l.
Proof. intros Hi Hk Hh. by apply wp_start_attempt. Qed.

(** A prepared answer is released only for a transcript that matches its hypothesis. *)
Lemma wp_respond_to_final text k h s l :
  I s l → finalised text (s, l) → LATER (WP k) (s, l) → (∀ e, LATER (WP (h e)) (s, l)) →
  WP (_respond_to_final config word casefold text k h) s l.
Proof.
  intros Hi Hf Hk Hh. unfold _respond_to_final. cbv zeta.
  set (fresh := _start_attempt _ _ _ _ _ _ _).
  assert (LATER (WP fresh) (s, l)) as Hfresh.
  { intros s' l' Hr Hi'. apply wp_start_final; [done|by apply (R_finalised _ (s, l))|go|go]. }
  clearbody fresh. apply wp_get. destruct (attempt s) as [a|]; [|go].
  apply wp_with_attempt; [done|]. intros x Hx.
  destruct (transcript_matches config casefold (hypothesis x) text) eqn:Hm; [|go].
  split; [by split|]. pose proof (R_effect s l (Validated a true (hypothesis x) text)) as Hr.
  split; [done|].
  assert (I s (l ++ [Validated a true (hypothesis x) text])) as Hi' by by apply okay_plain.
  assert (may a (s, l ++ [Validated a true (hypothesis x) text])) as Hmay.
  { right; right. exists (hypothesis x), text. apply elem_of_app. right. by left. }
  apply wp_update_gen; [done| |].
  { intros y Hy. split; [done|]. split; [intros _; exact Hmay|]. split; [done|]. split; [done|].
    split; [|done]. exact (ok_sent _ _ _ _ _ _ _ _ Hi' a y Hy). }
  intros s2 l2 Hr2 Hi2. apply wp_transition; [done|]. intros s3 l3 Hr3 Hi3.
  apply wp_with_attempt; [done|]. intros y Hy. destruct (speech_control y); [go|].
  apply wp_release_held; [done|grant|go|go].
Qed.

Lemma wp_respond_after text turn k h s l :
  I s l → finalised text (s, l) → LATER (WP k) (s, l) → (∀ e, LATER (WP (h e)) (s, l)) →
  WP (_respond_after_reply_grace config word casefold text turn k h) s l.
Proof.
  intros Hi Hf Hk Hh. unfold _respond_after_reply_grace. cbv zeta.
  assert (LATER (WP (_respond_to_final config word casefold text k h)) (s, l)) as Hres.
  { intros s' l' Hr Hi'. apply wp_respond_to_final; [done|by apply (R_finalised _ (s, l))|go|go]. }
  generalize dependent (_respond_to_final config word casefold text k h). intros res Hres. go.
Qed.

Ltac wp_methods12 :=
  first [apply wp_start_final | apply wp_start_speculative | apply wp_respond_to_final | apply wp_respond_after
        | wp_methods11].
Ltac wp_method ::= wp_methods12.

Lemma unless_cancelled_later x : ∀ e, LATER (WP (unless_cancelled e)) x.
Proof. intros [] s l Hr Hi; exact Hi. Qed.

Lemma wp_on_final text publish k h s l :
  I s l → LATER (WP k) (s, l) → (∀ e, LATER (WP (h e)) (s, l)) →
  WP (on_final config word casefold text publish k h) s l.
Proof.
  intros Hi Hk Hh. unfold on_final. cbv zeta. case_match; [go|]. apply wp_get.
  destruct (call_ending s) eqn:Hend; [go|]. destruct (turn_id s) as [turn|]; [|go].
  destruct (negb (bool_decide (state s = AwaitingFinal))); [go|].
  destruct (negb (bool_decide (final_text s = []))); [go|].
  apply wp_cancel_opt. set (f := λ s : pipeline, _).
  assert (R (s, l) (f s, l)) as Hr by by apply R_state. split; [done|].
  set (s' := f s) in *.
  split; [done|]. split; [apply R_effect|]. split; [done|]. split; [apply R_effect|].
  split; [done|]. split; [apply R_effect|]. set (l' := ((l ++ _) ++ _) ++ _).
  assert (I s l') as Hi' by by do 3 (apply okay_plain; [done|]).
  assert (R (s, l) (s', l')) as Hr2.
  { etrans; [exact Hr|]. split; [unfold l'; rewrite <-!app_assoc; by apply prefix_app_r|]. intros b y ??. eauto. }
  clearbody l'. pose proof (R_effect s' l' (Final turn text)) as Hr3.
  split; [|split; [done|]].
  { intros a Ha. by rewrite (ok_ending _ _ _ _ _ _ _ _ Hi' a Ha) in Hend. }
  assert (finalised text (s', l' ++ [Final turn text])) as Hf.
  { exists turn. apply elem_of_app. right. by left. }
  assert (I s' (l' ++ [Final turn text])) as Hi3.
  { apply (okay_plain _ _ _ _ _ _ _ _ (Final turn text)) in Hi'; [|done]. destruct Hi'. split; try done. by right. }
  clearbody s'. generalize dependent (l' ++ [Final turn text]). clear Hi' Hi Hend. intros l4 Hr3 Hf Hi4.
  assert (R (s, l) (s', l4)) as Hr4 by (etrans; [exact Hr2|exact Hr3]).
  go.
Qed.

Lemma wp_stable_after_delay text s l : I s l → WP (_stable_after_delay config word text) s l.
Proof.
  intros Hi. unfold _stable_after_delay.
  pose proof (unless_cancelled_later (s, l)) as Hh. generalize dependent unless_cancelled. intros h Hh. go.
Qed.

Lemma wp_close_turn turn k s l : I s l → LATER (WP k) (s, l) → WP (close_turn turn k) s l.
Proof. intros. unfold close_turn. go. Qed.

Lemma wp_close_turn_of turn k s l : I s l → LATER (WP k) (s, l) → WP (close_turn_of turn k) s l.
Proof. intros. destruct turn; simpl; [by apply wp_close_turn|go]. Qed.

Ltac wp_methods13 :=
  first [apply wp_on_final | apply wp_stable_after_delay | apply wp_close_turn | apply wp_close_turn_of
        | wp_methods12].
Ltac wp_method ::= wp_methods13.

Lemma wp_on_partial text raw k h s l :
  I s l → LATER (WP k) (s, l) → (∀ e, LATER (WP (h e)) (s, l)) → WP (on_partial config word text raw k h) s l.
Proof. intros. unfold on_partial. cbv zeta. go. Qed.

Lemma wp_final_timeout expected s l : I s l → WP (_final_timeout config expected) s l.
Proof.
  intros Hi. unfold _final_timeout. cbv zeta.
  assert (∀ rest, LATER (WP rest) (s, l) → ∀ e, LATER (WP (on_exception (λ _, rest) unless_cancelled e)) (s, l)) as Hoe.
  { intros rest Hr. apply on_exception_later; [done|apply unless_cancelled_later]. }
  pose proof (unless_cancelled_later (s, l)) as Hh.
  apply wp_io; [done| |done]. intros s1 l1 Hr1 Hi1. apply wp_get. case_match; [go|].
  apply wp_cancel_attempt; [done| |go]. intros s2 l2 Hr2 Hi2. apply wp_transition; [done|].
  intros s3 l3 Hr3 Hi3. apply wp_get. apply wp_emit; [done|done|]. intros s4 l4 Hr4 Hi4.
  match goal with |- context [io QStt ?r _] => set (rest := r) end.
  assert (LATER (WP rest) (s4, l4)) as Hrest by (unfold rest; go). clearbody rest.
  apply wp_io; [done|done|]. apply on_exception_later; [done|apply unless_cancelled_later].
Qed.

Lemma wp_final_unavailable k h s l :
  I s l → LATER (WP k) (s, l) → (∀ e, LATER (WP (h e)) (s, l)) → WP (on_stt_final_unavailable config k h) s l.
Proof.
  intros Hi Hk Hh. unfold on_stt_final_unavailable. cbv zeta. apply wp_get. case_match; [go|].
  match goal with |- context [io QStt ?r _] => set (rest := r) end.
  assert (LATER (WP rest) (s, l)) as Hrest by (unfold rest; go). clearbody rest.
  assert (∀ e, LATER (WP (on_exception (λ _, rest) h e)) (s, l)) as Hh' by (apply on_exception_later; [done|done]).
  generalize dependent (on_exception (λ _, rest) h). intros h' Hh'. go.
Qed.

Ltac wp_methods14 :=
  first [apply wp_on_partial | apply wp_final_timeout | apply wp_final_unavailable | wp_methods13].
Ltac wp_method ::= wp_methods14.

(** *** Voice activity and the ends of a call *)

Lemma wp_speech_started k h s l :
  I s l → LATER (WP k) (s, l) → (∀ e, LATER (WP (h e)) (s, l)) → WP (_speech_started config word k h) s l.
Proof. intros. unfold _speech_started. cbv zeta. go. Qed.

Lemma wp_speech_ended k h s l :
  I s l → LATER (WP k) (s, l) → (∀ e, LATER (WP (h e)) (s, l)) → WP (_speech_ended config k h) s l.
Proof. intros. unfold _speech_ended. cbv zeta. go. Qed.

Ltac wp_methods15 := first [apply wp_speech_started | apply wp_speech_ended | wp_methods14].
Ltac wp_method ::= wp_methods15.

Lemma wp_audio pcm k h s l :
  I s l → LATER (WP k) (s, l) → (∀ e, LATER (WP (h e)) (s, l)) → WP (audio config word pcm k h) s l.
Proof. intros. unfold audio, audio_voiced, audio_unvoiced. cbv zeta. go. Qed.

Lemma wp_text message k h s l :
  I s l → LATER (WP k) (s, l) → (∀ e, LATER (WP (h e)) (s, l)) → WP (text config word casefold message k h) s l.
Proof. intros. unfold text. cbv zeta. go. Qed.

Lemma wp_client_event kind k s l : I s l → LATER (WP k) (s, l) → WP (client_event config kind k) s l.
Proof. intros. unfold client_event, played_out, turn_completed. cbv zeta. go. Qed.

Lemma wp_close k h s l :
  I s l → LATER (WP k) (s, l) → (∀ e, LATER (WP (h e)) (s, l)) → WP (close config k h) s l.
Proof.
  intros Hi Hk Hh. unfold close. apply wp_modify; [same_I|done|]. intros s1 l1 Hr1 Hi1.
  apply wp_io; [done| |go]. intros s2 l2 Hr2 Hi2. apply wp_get, wp_cancel_opt, wp_cancel_opt.
  destruct (attempt s2) as [a|]; [|go]. apply wp_update_gen; [done| |go].
  intros x Hx. split; [done|]. split; [exact (ok_granted _ _ _ _ _ _ _ _ Hi2 a x Hx)|]. split; [done|].
  split; [done|]. split; [|done]. exact (ok_sent _ _ _ _ _ _ _ _ Hi2 a x Hx).
Qed.

(** An attempt of the application may be heard. *)
Lemma wp_application turn task (k : coroutine) s s' l :
  I s l → R (s, l) (s', l) →
  (attempts s', next_attempt s', call_ending s', speech_on s', pending_action s', next_pending s',
   final_text s') =
    (<[next_attempt s := application_attempt (next_attempt s) turn task]> (attempts s), S (next_attempt s),
     call_ending s, speech_on s, pending_action s, next_pending s, final_text s) →
  (∀ s'' l', R (s, l) (s'', l') → I s'' l' → may (next_attempt s) (s'', l') → WP k s'' l') →
  WP (Emit (Application (next_attempt s)) k) s' l.
Proof.
  intros Hi Hr Hs Hk. split; [by apply (ok_born _ _ _ _ _ _ _ _ Hi)|]. pose proof (R_effect s' l (Application (next_attempt s))) as Hr'.
  assert (may (next_attempt s) (s', l ++ [Application (next_attempt s)])) as Hm.
  { left. apply elem_of_app. right. by left. }
  split; [done|]. apply Hk; [by etrans| |done]. unfold I. injection Hs as -> -> -> -> -> -> ->.
  apply okay_add; [done|by left|done| |done]. intros _. exact Hm.
Qed.

Lemma R_add x s l : I s l → R (s, l) (add_attempt x s, l).
Proof.
  intros Hi. split; [done|]. intros b y Hy Hc. simpl in *. exists y. rewrite lookup_insert_ne; [done|].
  intros <-. by rewrite (ok_fresh _ _ _ _ _ _ _ _ Hi) in Hy.
Qed.

Lemma wp_announce message k h s l :
  I s l → LATER (WP k) (s, l) → (∀ e, LATER (WP (h e)) (s, l)) → WP (announce config message k h) s l.
Proof.
  intros Hi Hk Hh. unfold announce. cbv zeta. case_match; [go|]. apply wp_get.
  split; [by apply R_add|]. eapply wp_application; [done|by apply R_add|done|].
  intros s' l' Hr Hi' Hm. go.
Qed.

Lemma wp_opening_finally k s l : I s l → LATER (WP k) (s, l) → WP (opening_finally k) s l.
Proof. intros. unfold opening_finally. go. Qed.

Lemma opening_failed_later k h s l :
  LATER (WP k) (s, l) → (∀ e, LATER (WP (h e)) (s, l)) → ∀ e, LATER (WP (opening_failed k h e)) (s, l).
Proof.
  intros Hk Hh. apply on_exception_later; [intros _|intros e].
  - intros s1 l1 Hr1 Hi1. apply wp_send; [done|done| |intros e]; intros s2 l2 Hr2 Hi2;
      apply wp_opening_finally; (done || known).
  - intros s1 l1 Hr1 Hi1. apply wp_opening_finally; [done|known].
Qed.

Lemma wp_speak_opening greeting k h s l :
  I s l → LATER (WP k) (s, l) → (∀ e, LATER (WP (h e)) (s, l)) → WP (speak_opening config greeting k h) s l.
Proof.
  intros Hi Hk Hh. unfold speak_opening. cbv zeta. intros me _. apply wp_get.
  destruct (_ || _ || _); [go|].
  assert (∀ e, LATER (WP (opening_failed k h e)) (s, l)) as Hh' by by apply opening_failed_later.
  assert (LATER (WP (opening_finally k)) (s, l)) as Hf.
  { intros s1 l1 Hr1 Hi1. apply wp_opening_finally; [done|known]. }
  generalize dependent (opening_failed k h). intros h' Hh'.
  generalize dependent (opening_finally k). intros k' Hk'.
  split; [by apply R_add|]. eapply wp_application; [done|by apply R_add|done|].
  intros s1 l1 Hr1 Hi1 _. go.
Qed.

(** ** The machine *)

Lemma wp_body c s l : I s l → WP (body config word casefold c) s l.
Proof.
  intros Hi. assert (∀ s l, LATER (WP Done) (s, l)) as Hd by (intros ? ? ? ? ? Hi'; exact Hi').
  assert (∀ s l e, LATER (WP (Throw e)) (s, l)) as Ht by (intros ? ? ? ? ? ? Hi'; exact Hi').
  destruct c; simpl; [apply wp_audio|apply wp_on_partial|apply wp_on_final|apply wp_final_unavailable
    |apply wp_text|apply wp_client_event|apply wp_speak_opening|apply wp_announce|apply wp_close]; auto.
Qed.

#[local] Instance turn_laws :
  Laws (resume config word) accepts I (λ _, R) (λ _, R) legal (λ _ _, True) 0%nat inv.
Proof.
  split.
  - intros _. exact R_pre.
  - done.
  - intros t [] x y Hx Hr; try done. by eapply R_may.
  - intros t lb a k h s l Hi Hl Ht. apply (wp_uniform _ _ _ _ _ _ _ _ 0%nat t); [done..|].
    assert (LATER (λ s' l', (∀ v, WP (k v) s' l') ∧ ∀ e, WP (h e) s' l') (s, l)) as Hlater.
    { intros s' l' Hr Hi'. destruct (Ht s' l' Hr Hi') as [Hk Hh].
      split; [intros v|intros e]; apply (wp_uniform _ _ _ _ _ _ _ _ t 0%nat); done. }
    assert (∀ v, LATER (WP (k v)) (s, l)) as Hk by (intros v s' l' Hr Hi'; by apply (Hlater s' l')).
    assert (∀ e, LATER (WP (h e)) (s, l)) as Hh by (intros e s' l' Hr Hi'; by apply (Hlater s' l')).
    destruct a as [v|e]; [|simpl; known].
    destruct lb; simpl in *; [by apply wp_stream_event|by apply wp_synthesize_phrase
      |by apply wp_synthesize_chunk| |by apply wp_bank_round].
    assert (may a (s, l)) as Hm by exact Hl. unfold when. case_match; go.
Qed.

Lemma I_init : I pipeline_init [].
Proof.
  split; try done; try (intros; simpl in *; set_solver).
  intros a _. split; [set_solver|]. intros text (sp & au & H). set_solver.
Qed.

(** Every schedule, every answer: the invariant holds and each effect was legal. *)
Lemma turn_lawful es c o :
  run (turn_step config word casefold) (loop_init pipeline_init) es = Some (c, o) →
  I (shared c) o ∧ lawful legal o.
Proof.
  apply (adequacy VUnit (resume config word) (body config word casefold) accepts I (λ _, R) (λ _, R) legal
           (λ _ _, True) 0%nat inv); try done.
  - intros call n s l Hi. apply (wp_uniform _ _ _ _ _ _ _ _ 0%nat n); [done..|]. by apply wp_body.
  - apply I_init.
Qed.

(** What a legal effect found holds of everything before it. *)
Lemma lawful_elem l o : lawful legal l → o ∈ l → ∃ l1 l2, l = l1 ++ o :: l2 ∧ legal l1 o.
Proof. intros Hl (l1 & l2 & ->)%list_elem_of_split. exists l1, l2. split; [done|]. by eapply Hl. Qed.

Lemma lawful_prefix l1 l2 : lawful legal (l1 ++ l2) → lawful legal l1.
Proof. intros Hl k o k' ->. apply (Hl k o (k' ++ l2)). by rewrite <-app_assoc. Qed.

(** Attempt [a] answers a transcript that the recogniser committed. *)
Definition answers (a : nat) (l : list effect) : Prop :=
  ∃ turn final, Final turn final ∈ l ∧
    (Started a false true final ∈ l ∨
     ∃ hyp, Validated a true hyp final ∈ l ∧ transcript_matches config casefold hyp final = true).

(** By what right attempt [a] is heard after the effects [l]: it is the application's own, or
    it answers a transcript that the recogniser committed. *)
Definition authorised_by (a : nat) (l : list effect) : Prop := Application a ∈ l ∨ answers a l.

Lemma granted_authorised a l : lawful legal l → granted a l → authorised_by a l.
Proof.
  intros Hl [H|[[text H]|(hyp & final & H)]]; [by left|right..].
  - destruct (lawful_elem _ _ Hl H) as (l1 & l2 & -> & Hleg). destruct Hleg as [_ Hleg].
    destruct (Hleg eq_refl) as (_ & turn & Ht).
    exists turn, text. split; [apply elem_of_app; by left|]. by left.
  - destruct (lawful_elem _ _ Hl H) as (l1 & l2 & -> & Hm & turn & Ht).
    exists turn, final. split; [apply elem_of_app; by left|]. right. by exists hyp.
Qed.

(** What the application speaks was never started on the caller's words. *)
Lemma started_not_application a text l : lawful legal l → started a text l → Application a ∉ l.
Proof.
  intros Hl (sp & au & Hs) Ha. destruct (lawful_elem _ _ Hl Hs) as (l1 & l2 & -> & [[Hn _] _]).
  apply elem_of_app in Ha as [Ha|Ha]; [done|]. apply elem_of_cons in Ha as [Ha|Ha]; [done|].
  apply list_elem_of_split in Ha as (m1 & m2 & ->).
  assert (l1 ++ Started a sp au text :: m1 ++ Application a :: m2
    = (l1 ++ Started a sp au text :: m1) ++ Application a :: m2) as Heq by by rewrite <-app_assoc.
  destruct (Hl _ _ _ Heq) as [_ Hno]. apply (Hno text). exists sp, au. apply elem_of_app. right. by left.
Qed.

(** A pending action is one call, with one prompt. *)
Lemma pended_unique p c t c' t' l :
  lawful legal l → Pended p c t ∈ l → Pended p c' t' ∈ l → c' = c ∧ t' = t.
Proof.
  intros Hl H1 H2. destruct (lawful_elem _ _ Hl H1) as (l1 & l2 & -> & Hno).
  apply elem_of_app in H2 as [H2|H2]; [by apply Hno in H2|].
  apply elem_of_cons in H2 as [H2|H2]; [by injection H2 as <- <-|].
  apply list_elem_of_split in H2 as (m1 & m2 & ->).
  assert (l1 ++ Pended p c t :: m1 ++ Pended p c' t' :: m2
    = (l1 ++ Pended p c t :: m1) ++ Pended p c' t' :: m2) as Heq by by rewrite <-app_assoc.
  exfalso. apply (Hl _ _ _ Heq c t). apply elem_of_app. right. by left.
Qed.

(** ** Theorems *)

(** C1: Whatever the schedule, a chunk of audio reaches the caller only for an attempt that
    answers a committed final transcript (started on it, or prepared on a hypothesis that it
    matched) or that the application itself speaks; never after the attempt was cancelled, and
    never while the speech gate is closed. *)
Theorem heard_only_when_authorised es c l1 a rate chunk l2 :
  run (turn_step config word casefold) (loop_init pipeline_init) es
    = Some (c, l1 ++ Chunk a rate chunk :: l2) →
  authorised_by a l1 ∧ (Cancelled a ∉ l1) ∧ gate l1 = true.
Proof.
  intros [_ Hl]%turn_lawful. destruct (Hl _ _ _ eq_refl) as (Hg & Hc & Hgate).
  split; [|done]. apply granted_authorised; [by eapply lawful_prefix|done].
Qed.

(** C8: An attempt's answer is committed to the record at most once, and only when the attempt
    was authorised; after that no interrupted copy of it is recorded. *)
Theorem committed_once es c l1 a answer turn l2 :
  run (turn_step config word casefold) (loop_init pipeline_init) es
    = Some (c, l1 ++ Commit a answer turn :: l2) →
  authorised_by a l1 ∧ (∀ t u, Commit a t u ∉ l1 ++ l2) ∧ ∀ t u, AddAssistant a t u true ∉ l2.
Proof.
  intros [_ Hl]%turn_lawful. destruct (Hl _ _ _ eq_refl) as (Hg & Hno).
  assert (Commit a answer turn ∈ l1 ++ [Commit a answer turn]) as Hin by (apply elem_of_app; right; by left).
  assert (∀ k1 o k2, l2 = k1 ++ o :: k2 → ∃ l, Commit a answer turn ∈ l ∧ legal l o) as Hlater.
  { intros k1 o k2 ->. exists ((l1 ++ [Commit a answer turn]) ++ k1). split; [by apply elem_of_app; left|].
    apply (Hl _ _ k2). by rewrite <-!app_assoc. }
  split; [apply granted_authorised; [by eapply lawful_prefix|done]|]. split.
  - intros t u [H|(k1 & k2 & H)%list_elem_of_split]%elem_of_app; [by eapply Hno|].
    destruct (Hlater _ _ _ H) as (l & Hc & _ & Hno'). by apply (Hno' answer turn).
  - intros t u (k1 & k2 & H)%list_elem_of_split.
    destruct (Hlater _ _ _ H) as (l & Hc & _ & Hno'). by apply (Hno' answer turn).
Qed.

(** C2: A tool action is executed only when a reply of the caller to its own confirmation
    prompt was classified as a confirmation: the classifier was given this call, the prompt
    that was made for it, and what the caller said, a transcript that the recogniser committed
    or the words that the answering attempt was started on; that attempt answers a committed
    transcript, and is not the application's; and no pending action is confirmed twice.  (That
    the caller heard the prompt is not so: [unheard_prompt_confirmed].) *)
Theorem executed_only_if_confirmed es c l1 a p call l2 :
  run (turn_step config word casefold) (loop_init pipeline_init) es
    = Some (c, l1 ++ Execute a p call :: l2) →
  ∃ k1 k2 evidence prompt, l1 = k1 ++ Decision a p confirmed :: k2 ∧
    Pended p call prompt ∈ k1 ∧ Asked a p evidence call prompt ∈ k1 ∧ said a evidence k1 ∧
    answers a k1 ∧ (Application a ∉ k1) ∧
    ∀ b, Decision b p confirmed ∉ k1 ++ k2 ++ Execute a p call :: l2.
Proof.
  intros [_ Hl]%turn_lawful. destruct (Hl _ _ _ eq_refl) as [Hd (t & Hp)].
  apply list_elem_of_split in Hd as (k1 & k2 & ->).
  pose proof (lawful_prefix _ _ Hl) as Hl1. rewrite <-app_assoc in Hl. simpl in Hl.
  destruct (Hl _ _ _ eq_refl) as (Hg & [text Hs] & (ev & call' & prompt & Hask) & Hno).
  pose proof (lawful_prefix _ _ Hl) as Hk.
  destruct (lawful_elem _ _ Hk Hask) as (m1 & m2 & Em & Hp' & Hsaid).
  assert (Pended p call' prompt ∈ k1) as Hpk by (rewrite Em; by apply elem_of_app; left).
  destruct (pended_unique p call t call' prompt _ Hl1 Hp) as [-> ->]; [by apply elem_of_app; left|].
  pose proof (started_not_application _ _ _ Hk Hs) as Happ.
  exists k1, k2, ev, t. split; [done|]. split; [done|]. split; [done|]. split; [|split; [|split; [done|]]].
  - destruct Hsaid as [Ha|[Hf|Hst]].
    + destruct Happ. rewrite Em. by apply elem_of_app; left.
    + left. rewrite Em. eapply is_final_mono; [done|]. by apply prefix_app_r.
    + right. rewrite Em. eapply started_mono; [done|]. by apply prefix_app_r.
  - by destruct (granted_authorised _ _ Hk Hg).
  - intros b [Hin|Hin]%elem_of_app; [by eapply Hno|].
    apply list_elem_of_split in Hin as (n1 & n2 & Hm). rewrite Hm in Hl.
    assert (k1 ++ Decision a p confirmed :: n1 ++ Decision b p confirmed :: n2
      = (k1 ++ Decision a p confirmed :: n1) ++ Decision b p confirmed :: n2) as Heq by by rewrite <-app_assoc.
    destruct (Hl _ _ _ Heq) as (_ & _ & _ & Hno'). apply (Hno' eq_refl a). apply elem_of_app. right. by left.
Qed.

(** C9: Once a turn has authorised the end of the call, no later transcript is accepted as a
    caller's turn, and only an authorised attempt can have done so. *)
Theorem no_turn_after_end_call es c l1 a l2 :
  run (turn_step config word casefold) (loop_init pipeline_init) es
    = Some (c, l1 ++ EndCallAuthorized a :: l2) →
  authorised_by a l1 ∧ call_ending (shared c) = true ∧ ∀ turn final, Final turn final ∉ l2.
Proof.
  intros [Hi Hl]%turn_lawful. pose proof (Hl _ _ _ eq_refl) as Hg.
  split; [apply granted_authorised; [by eapply lawful_prefix|done]|]. split.
  { eapply (ok_ending _ _ _ _ _ _ _ _ Hi a). apply elem_of_app. right. by left. }
  intros turn final (k1 & k2 & ->)%list_elem_of_split.
  assert (l1 ++ EndCallAuthorized a :: k1 ++ Final turn final :: k2
    = (l1 ++ EndCallAuthorized a :: k1) ++ Final turn final :: k2) as Heq by by rewrite <-app_assoc.
  apply (Hl _ _ _ Heq a). apply elem_of_app. right. by left.
Qed.

(** C18: An interrupted answer is recorded for the caller's history only if some of it had been
    sent to the caller. *)
Theorem interrupted_answer_was_heard es c l1 a answer turn l2 :
  run (turn_step config word casefold) (loop_init pipeline_init) es
    = Some (c, l1 ++ AddAssistant a answer turn true :: l2) →
  heard a l1.
Proof. intros [_ Hl]%turn_lawful. by destruct (Hl _ _ _ eq_refl). Qed.

(** With bank tools configured, a prepared answer is released only for the very words it was
    prepared on. *)
Lemma bank_transcript_exact hyp final :
  bank_records config = true → transcript_matches config casefold hyp final = true →
  casefold (py_strip hyp) = casefold (py_strip final).
Proof. unfold transcript_matches. intros ->. apply str_eqb_true. Qed.
End safety.

(** ** The theorems on the runs of TurnRuns.v *)

(** The run of [es] has effect [o] at place [n] of its effects. *)
Lemma emits es n o :
  (outputs es ≫= λ l, l !! n) = Some o →
  ∃ c l1 l2, run (turn_step example_config is_digit py_lower) (loop_init pipeline_init) es = Some (c, l1 ++ o :: l2).
Proof.
  unfold outputs, example_run, example_step. destruct (run _ _ _) as [[c l]|]; [|done]. simpl.
  intros Hn. exists c, (take n l), (drop (S n) l). by rewrite take_drop_middle.
Qed.

Lemma chunk_emitted :
  ∃ c l1 l2, run (turn_step example_config is_digit py_lower) (loop_init pipeline_init) confirmed_speculation
    = Some (c, l1 ++ Chunk 0 24000 [1; 1] :: l2).
Proof. apply (emits _ 22). vm_compute. reflexivity. Qed.

Lemma commit_emitted :
  ∃ c l1 l2, run (turn_step example_config is_digit py_lower) (loop_init pipeline_init) confirmed_speculation
    = Some (c, l1 ++ Commit 0 (lit "Hi.") (lit "turn-0001") :: l2).
Proof. apply (emits _ 26). vm_compute. reflexivity. Qed.

Lemma execution_emitted :
  ∃ c l1 l2, run (turn_step example_config is_digit py_lower) (loop_init pipeline_init) ticket_created
    = Some (c, l1 ++ Execute 1 0 ticket :: l2).
Proof. apply (emits _ 33). vm_compute. reflexivity. Qed.

Lemma end_call_emitted :
  ∃ c l1 l2, run (turn_step example_config is_digit py_lower) (loop_init pipeline_init) farewell
    = Some (c, l1 ++ EndCallAuthorized 0 :: l2).
Proof. apply (emits _ 21). vm_compute. reflexivity. Qed.

Lemma interruption_emitted :
  ∃ c l1 l2, run (turn_step example_config is_digit py_lower) (loop_init pipeline_init) barge_in
    = Some (c, l1 ++ AddAssistant 0 (lit "Welcome") (lit "opening-0000") true :: l2).
Proof. apply (emits _ 13). vm_compute. reflexivity. Qed.

Lemma heard_only_when_authorised_witness :
  ∃ c l1 l2, run (turn_step example_config is_digit py_lower) (loop_init pipeline_init) confirmed_speculation
      = Some (c, l1 ++ Chunk 0 24000 [1; 1] :: l2) ∧
    authorised_by example_config py_lower 0 l1 ∧ (Cancelled 0 ∉ l1) ∧ gate l1 = true.
Proof.
  destruct chunk_emitted as (c & l1 & l2 & H). exists c, l1, l2. split; [exact H|].
  eapply heard_only_when_authorised. exact H.
Defined.

Lemma committed_once_witness :
  ∃ c l1 l2, run (turn_step example_config is_digit py_lower) (loop_init pipeline_init) confirmed_speculation
      = Some (c, l1 ++ Commit 0 (lit "Hi.") (lit "turn-0001") :: l2) ∧
    authorised_by example_config py_lower 0 l1 ∧ (∀ t u, Commit 0 t u ∉ l1 ++ l2) ∧
    ∀ t u, AddAssistant 0 t u true ∉ l2.
Proof.
  destruct commit_emitted as (c & l1 & l2 & H). exists c, l1, l2. split; [exact H|].
  eapply committed_once. exact H.
Defined.

Lemma executed_only_if_confirmed_witness :
  ∃ c l1 l2, run (turn_step example_config is_digit py_lower) (loop_init pipeline_init) ticket_created
      = Some (c, l1 ++ Execute 1 0 ticket :: l2) ∧
    ∃ k1 k2 evidence prompt, l1 = k1 ++ Decision 1 0 confirmed :: k2 ∧
      Pended 0 ticket prompt ∈ k1 ∧ Asked 1 0 evidence ticket prompt ∈ k1 ∧ said 1 evidence k1 ∧
      answers example_config py_lower 1 k1 ∧ (Application 1 ∉ k1) ∧
      ∀ b, Decision b 0 confirmed ∉ k1 ++ k2 ++ Execute 1 0 ticket :: l2.
Proof.
  destruct execution_emitted as (c & l1 & l2 & H). exists c, l1, l2. split; [exact H|].
  eapply executed_only_if_confirmed. exact H.
Defined.

Lemma no_turn_after_end_call_witness :
  ∃ c l1 l2, run (turn_step example_config is_digit py_lower) (loop_init pipeline_init) farewell
      = Some (c, l1 ++ EndCallAuthorized 0 :: l2) ∧
    authorised_by example_config py_lower 0 l1 ∧ call_ending (shared c) = true ∧
    ∀ turn final, Final turn final ∉ l2.
Proof.
  destruct end_call_emitted as (c & l1 & l2 & H). exists c, l1, l2. split; [exact H|].
  eapply no_turn_after_end_call. exact H.
Defined.

Lemma interrupted_answer_was_heard_witness :
  ∃ c l1 l2, run (turn_step example_config is_digit py_lower) (loop_init pipeline_init) barge_in
      = Some (c, l1 ++ AddAssistant 0 (lit "Welcome") (lit "opening-0000") true :: l2) ∧
    heard 0 l1.
Proof.
  destruct interruption_emitted as (c & l1 & l2 & H). exists c, l1, l2. split; [exact H|].
  eapply interrupted_answer_was_heard. exact H.
Defined.
