(* ===== verification/SpokenText.v ===== *)
(** * What of a model's answer is spoken: SpokenTextFilter of latency_lab/llm_output.py

    The answer streams in pieces; text inside the model's internal tags (reasoning, textual
    tool calls) is withheld, and so is the beginning of what may become such a tag.  The
    regular expression of a tag is written out; [push] runs with fuel, and [push_spec] shows
    that the length of the buffer is enough of it. *)
From stdpp Require Import base list sets strings.
From Stdlib Require Import ZArith Lia.
From S2P Require Import Prelude Pystr.

(** [_NAMES] *)
Definition names : list str :=
  map lit ["think"; "thinking"; "reasoning"; "tool_call"; "function"; "parameter"]%string.

(** [_PREFIXES] *)
Definition prefixes : list str :=
  names ≫= λ name, [60 :: name; 60 :: 47 :: name].

(** ** The pattern [_TAG]

    [same_letter c l]: character [c] of the text matches letter [l] of a name when case is
    ignored; four letters outside ASCII have an ASCII letter as their other case. *)
Definition same_letter (c l : Z) : bool :=
  (c =? l)
  || ((97 <=? l) && (l <=? 122) && (c =? l - 32))
  || ((l =? 105) && ((c =? 304) || (c =? 305)))
  || ((l =? 115) && (c =? 383))
  || ((l =? 107) && (c =? 8490)).

(** The rest of [s] after [name]. *)
Fixpoint after_name (name s : str) : option str :=
  match name, s with
  | [], _ => Some s
  | l :: name, c :: s => if same_letter c l then after_name name s else None
  | _ :: _, [] => None
  end.

(** [=\s/] *)
Definition tag_break (c : Z) : bool := (c =? 61) || (c =? 47) || is_space c.

(** [[^<>]*>]: the text up to the bracket, and the number of characters with it. *)
Fixpoint tag_attributes (s : str) : option (str * nat) :=
  match s with
  | [] => None
  | c :: s =>
      if c =? 62 then Some ([], 1%nat)
      else if c =? 60 then None
      else match tag_attributes s with Some (t, n) => Some (c :: t, S n) | None => None end
  end.

(** The attributes, if any, and the closing bracket. *)
Definition tag_end (s : str) : option (str * nat) :=
  match s with
  | c :: _ => if (c =? 62) || tag_break c then tag_attributes s else None
  | [] => None
  end.

Record tag := mkTag {
  closing : bool; (** [match.group(1)] *)
  tag_name : str; (** [match.group(2).lower()] *)
  selfclosing : bool; (** [match.group().endswith("/>")] *)
  tag_length : nat;
}.

(** One alternative of the names. *)
Definition tag_of (is_closing : bool) (opened : nat) (s name : str) : option tag :=
  match after_name name s with
  | Some rest =>
      match tag_end rest with
      | Some (attributes, n) =>
          Some (mkTag is_closing (py_lower (take (length name) s))
                  (match List.rev attributes with c :: _ => c =? 47 | [] => false end)
                  (opened + length name + n))
      | None => None
      end
  | None => None
  end.

(** [_TAG.match(s)] *)
Definition match_tag (s : str) : option tag :=
  match s with
  | c :: s' =>
      if negb (c =? 60) then None else
      match s' with
      | c' :: s'' =>
          if c' =? 47 then first_some (tag_of true 2 s'') names else first_some (tag_of false 1 s') names
      | [] => None
      end
  | [] => None
  end.

(** ** SpokenTextFilter *)

Record text_filter := mkFilter { buffer : str; hidden : list str }.

Definition filter_init : text_filter := mkFilter [] [].

(** [" =/>\t\r\n"] *)
Definition tag_follower (c : Z) : bool := existsb (Z.eqb c) [32; 61; 47; 62; 9; 13; 10].

(** [text.startswith(prefix) and text[len(prefix):len(prefix) + 1] in ..] *)
Definition continues (prefix text : str) : bool :=
  starts_with prefix text &&
  match drop (length prefix) text with [] => true | c :: _ => tag_follower c end.

Definition _possible_tag (b : str) : bool :=
  let text := py_lower b in
  existsb (λ prefix, starts_with text prefix || continues prefix text) prefixes.

(** The hidden tags that are left when [name] closes: those opened before the last one of
    that name. *)
Fixpoint close_tag (name : str) (l : list str) : list str :=
  match l with
  | [] => []
  | n :: l => if in_strs name l then n :: close_tag name l else if n =s name then [] else n :: l
  end.

Definition hide (t : tag) (l : list str) : list str :=
  if closing t then (if in_strs (tag_name t) l then close_tag (tag_name t) l else l)
  else if negb (selfclosing t) then l ++ [tag_name t] else l.

Definition audible (l : list str) (text : str) : str := if bool_decide (l = []) then text else [].

(** [b[:start], b[start:]] for the first ["<"]. *)
Fixpoint before_bracket (b : str) : str * str :=
  match b with
  | [] => ([], [])
  | c :: b' => if c =? 60 then ([], b) else let (s, r) := before_bracket b' in (c :: s, r)
  end.

(** One turn of the loop of [push]: what it appends to [output], the filter, and whether the
    loop goes on. *)
Definition push_step (f : text_filter) : str * text_filter * bool :=
  let h := hidden f in
  let (start, b) := before_bracket (buffer f) in
  let out := audible h start in
  match b with
  | [] => (out, mkFilter [] h, false)
  | _ =>
      match match_tag b with
      | Some t => (out, mkFilter (drop (tag_length t) b) (hide t h), true)
      | None =>
          if _possible_tag b then (out, mkFilter b h, false)
          else (out ++ audible h [60], mkFilter (drop 1 b) h, true)
      end
  end.

(** [None]: the fuel ran out. *)
Fixpoint push_loop (fuel : nat) (f : text_filter) : option (str * text_filter) :=
  match fuel with
  | O => None
  | S fuel =>
      match buffer f with
      | [] => Some ([], f)
      | _ =>
          match push_step f with
          | (out, f', true) =>
              match push_loop fuel f' with
              | Some (out', f'') => Some (out ++ out', f'')
              | None => None
              end
          | (out, f', false) => Some (out, f')
          end
      end
  end.

Definition push (f : text_filter) (text : str) : option (str * text_filter) :=
  let b := buffer f ++ text in
  push_loop (S (length b)) (mkFilter b (hidden f)).

(** The pieces of an answer, one after the other. *)
Fixpoint pushes (f : text_filter) (texts : list str) : option (str * text_filter) :=
  match texts with
  | [] => Some ([], f)
  | t :: texts =>
      match push f t with
      | Some (out, f') =>
          match pushes f' texts with
          | Some (out', f'') => Some (out ++ out', f'')
          | None => None
          end
      | None => None
      end
  end.

Example spoken_around_thoughts :
  pushes filter_init [lit "Sure. <thi"; lit "nk>the caller wants"; lit " 3 < 4</thin"; lit "k> Your balance < 5."]
  = Some (lit "Sure.  Your balance < 5.", filter_init).
Proof. by vm_compute. Qed.

Example nested_thoughts :
  fst <$> push filter_init (lit "a<THINK><tool_call x=1>b<parameter/>c</think >d</tool_call>e") = Some (lit "ade").
Proof. by vm_compute. Qed.

(** ** Character by character

    The loop does what this machine does to the buffer; unlike [push_step] the machine's
    step does not change when more text arrives. *)
Definition step1 (f : text_filter) : option (str * text_filter) :=
  let h := hidden f in
  match buffer f with
  | [] => None
  | c :: b' =>
      if c =? 60 then
        match match_tag (c :: b') with
        | Some t => Some ([], mkFilter (drop (tag_length t) (c :: b')) (hide t h))
        | None => if _possible_tag (c :: b') then None else Some (audible h [c], mkFilter b' h)
        end
      else Some (audible h [c], mkFilter b' h)
  end.

Inductive steps : text_filter → str → text_filter → Prop :=
| steps_refl f : steps f [] f
| steps_cons f out f1 out' f2 : step1 f = Some (out, f1) → steps f1 out' f2 → steps f (out ++ out') f2.

Lemma steps_trans f out f1 out' f2 : steps f out f1 → steps f1 out' f2 → steps f (out ++ out') f2.
Proof.
  induction 1 as [|f o g o' g' Hs _ IH]; intros H; [done|]. rewrite <-app_assoc.
  eapply steps_cons; [done|]. by apply IH.
Qed.

Lemma steps_det f out f1 out' f2 :
  steps f out f1 → step1 f1 = None → steps f out' f2 → step1 f2 = None → out = out' ∧ f1 = f2.
Proof.
  intros H. revert out' f2. induction H as [f|f o g o' g' Hs H IH]; intros out' f2 Hn H2 Hn2.
  - destruct H2; [done|]. congruence.
  - destruct H2 as [|f o2 g2 o2' g2' Hs2 H2]; [congruence|].
    rewrite Hs in Hs2. simplify_eq. by destruct (IH _ _ Hn H2 Hn2) as [-> ->].
Qed.

Lemma audible_app h a b : audible h (a ++ b) = audible h a ++ audible h b.
Proof. unfold audible. by case_bool_decide. Qed.
Lemma audible_nil h : audible h [] = [].
Proof. unfold audible. by case_bool_decide. Qed.

Lemma before_bracket_spec b :
  let (s, r) := before_bracket b in
  b = s ++ r ∧ Forall (λ c, c ≠ 60) s ∧ match r with [] => True | c :: _ => c = 60 end.
Proof.
  induction b as [|c b IH]; simpl; [done|]. destruct (c =? 60) eqn:E.
  - apply Z.eqb_eq in E. done.
  - apply Z.eqb_neq in E. destruct (before_bracket b) as [s r]. destruct IH as (-> & Hs & Hr).
    split_and!; [done|by constructor|done].
Qed.

Lemma steps_plain s b h : Forall (λ c, c ≠ 60) s → steps (mkFilter (s ++ b) h) (audible h s) (mkFilter b h).
Proof.
  induction 1 as [|c s Hc _ IH]; [rewrite audible_nil; constructor|].
  change (c :: s) with ([c] ++ s). rewrite audible_app. eapply steps_cons; [|done]. unfold step1. simpl.
  by rewrite (proj2 (Z.eqb_neq _ _) Hc).
Qed.

Lemma match_tag_length b t : match_tag b = Some t → (0 < tag_length t)%nat.
Proof.
  assert (∀ cl n s nm t', tag_of cl (S n) s nm = Some t' → (0 < tag_length t')%nat) as H.
  { intros cl n s nm t'. unfold tag_of. destruct (after_name nm s) as [r|]; [|done].
    destruct (tag_end r) as [[x m]|]; [|done]. intros [= <-]. simpl. lia. }
  unfold match_tag. intros Hm. repeat case_match; try done;
    apply first_some_Some in Hm as (nm & _ & Hm); by apply H in Hm.
Qed.

(** One turn of the loop, in steps. *)
Lemma push_step_steps f :
  match push_step f with
  | (out, f', true) => steps f out f' ∧ (length (buffer f') < length (buffer f))%nat
  | (out, f', false) => steps f out f' ∧ step1 f' = None
  end.
Proof.
  destruct f as [b h]. unfold push_step. simpl. pose proof (before_bracket_spec b) as Hb.
  destruct (before_bracket b) as [s r]. destruct Hb as (-> & Hs & Hr).
  pose proof (steps_plain s r h Hs) as Hp. destruct r as [|c r]; [done|]. subst c.
  destruct (match_tag (60 :: r)) as [t|] eqn:Ht.
  - cbn [buffer]. split.
    + rewrite <-(app_nil_r (audible h s)). eapply steps_trans; [exact Hp|].
      rewrite <-(app_nil_r []). eapply steps_cons; [|constructor]. unfold step1. cbn [buffer hidden].
      by rewrite Ht.
    + apply match_tag_length in Ht. rewrite length_drop, length_app. cbn [length]. lia.
  - destruct (_possible_tag (60 :: r)) eqn:Hpos.
    + split; [done|]. unfold step1. cbn [buffer]. by rewrite Ht, Hpos.
    + split; [|cbn [buffer]; rewrite length_drop, length_app; cbn [length]; lia]. eapply steps_trans; [exact Hp|].
      rewrite <-(app_nil_r (audible h [60])). eapply steps_cons; [|constructor]. unfold step1.
      cbn [buffer hidden]. by rewrite Ht, Hpos.
Qed.

Lemma push_loop_steps fuel f :
  (length (buffer f) < fuel)%nat → ∃ out f', push_loop fuel f = Some (out, f') ∧ steps f out f' ∧ step1 f' = None.
Proof.
  revert f. induction fuel as [|fuel IH]; intros f Hf; [lia|]. cbn [push_loop].
  destruct (buffer f) as [|c b] eqn:Hb.
  { exists [], f. split_and!; [done|constructor|]. unfold step1. by rewrite Hb. }
  pose proof (push_step_steps f) as H. destruct (push_step f) as [[out f1] []].
  - destruct H as [Hs Hl]. destruct (IH f1) as (out' & f' & -> & Hs' & Hn).
    { rewrite Hb in Hl. simpl in *. lia. }
    exists (out ++ out'), f'. split_and!; [done| |done]. by eapply steps_trans.
  - destruct H as [Hs Hn]. by exists out, f1.
Qed.

Lemma push_steps f t :
  ∃ out f', push f t = Some (out, f') ∧ steps (mkFilter (buffer f ++ t) (hidden f)) out f' ∧ step1 f' = None.
Proof. apply push_loop_steps. simpl. lia. Qed.

(** ** More text does not change a step

    [plain_char] leaves out the blanks that [\s] knows and [_possible_tag] does not, and the
    four letters outside ASCII. *)
Definition plain_char (c : Z) : bool :=
  (negb (is_space c) || existsb (Z.eqb c) [32; 9; 13; 10]) && negb (existsb (Z.eqb c) [304; 305; 383; 8490]).

Lemma tag_attributes_app s s' r : tag_attributes s = Some r → tag_attributes (s ++ s') = Some r.
Proof.
  revert r. induction s as [|c s IH]; intros r; simpl; [done|].
  destruct (c =? 62); [done|]. destruct (c =? 60); [done|].
  destruct (tag_attributes s) as [[t n]|]; [|done]. intros [= <-]. by rewrite (IH _ eq_refl).
Qed.

Lemma tag_attributes_ge s t n : tag_attributes s = Some (t, n) → (n ≤ length s)%nat.
Proof.
  revert t n. induction s as [|c s IH]; intros t n; simpl; [done|].
  destruct (c =? 62); [intros [= <- <-]; lia|]. destruct (c =? 60); [done|].
  destruct (tag_attributes s) as [[t' n']|]; [|done]. intros [= <- <-]. specialize (IH _ _ eq_refl). lia.
Qed.

Lemma tag_end_app s s' r : tag_end s = Some r → tag_end (s ++ s') = Some r.
Proof.
  destruct s as [|c s]; [done|]. unfold tag_end. cbn [app]. case_match; [|done].
  apply (tag_attributes_app (c :: s)).
Qed.

Lemma after_name_app nm s s' r : after_name nm s = Some r → after_name nm (s ++ s') = Some (r ++ s').
Proof.
  revert s. induction nm as [|l nm IH]; intros s; simpl; [by intros [= ->]|].
  destruct s as [|c s]; [done|]. simpl. case_match; [|done]. apply IH.
Qed.

Lemma after_name_length nm s r : after_name nm s = Some r → length s = (length nm + length r)%nat.
Proof.
  revert s. induction nm as [|l nm IH]; intros s; simpl; [by intros [= ->]|].
  destruct s as [|c s]; [done|]. simpl. case_match; [|done]. intros Hs%IH. lia.
Qed.

Lemma match_tag_le b t : match_tag b = Some t → (tag_length t ≤ length b)%nat.
Proof.
  assert (∀ cl n s t', first_some (tag_of cl n s) names = Some t' → (tag_length t' ≤ n + length s)%nat) as H.
  { intros cl n s t' (nm & _ & Ht)%first_some_Some. revert Ht. unfold tag_of.
    destruct (after_name nm s) as [r|] eqn:E; [|done]. destruct (tag_end r) as [[x m]|] eqn:E2; [|done].
    intros [= <-]. simpl. apply after_name_length in E. unfold tag_end in E2.
    destruct r as [|c r]; [done|]. case_match; [|done]. apply tag_attributes_ge in E2. lia. }
  unfold match_tag. intros Hm. repeat case_match; try done; apply H in Hm; simpl in *; lia.
Qed.

Lemma tag_of_app cl n s s' nm t : tag_of cl n s nm = Some t → tag_of cl n (s ++ s') nm = Some t.
Proof.
  unfold tag_of. destruct (after_name nm s) as [r|] eqn:E; [|done].
  rewrite (after_name_app _ _ s' _ E). destruct (tag_end r) as [[x m]|] eqn:E2; [|done].
  rewrite (tag_end_app _ s' _ E2). intros [= <-]. rewrite take_app_le; [done|].
  apply after_name_length in E. lia.
Qed.

(** The letters of the names. *)
Definition name_letters : list Z := 95 :: map Z.of_nat (seq 97 26).

Lemma names_letters nm l : nm ∈ names → l ∈ nm → l ∈ name_letters.
Proof.
  intros Hn Hl.
  assert (forallb (λ nm, forallb (λ l, existsb (Z.eqb l) name_letters) nm) names = true) as H by by vm_compute.
  rewrite forallb_forall in H. specialize (H nm (proj1 (list_elem_of_In _ _) Hn)). rewrite forallb_forall in H.
  specialize (H l (proj1 (list_elem_of_In _ _) Hl)). apply existsb_exists in H as (x & Hx & Heq).
  apply Z.eqb_eq in Heq as <-. by apply list_elem_of_In.
Qed.

(** What ends a name is none of its letters. *)
Lemma tag_end_head c s l : is_Some (tag_end (c :: s)) → l ∈ name_letters → same_letter c l = false.
Proof.
  intros [r Hr] Hl. unfold tag_end in Hr. destruct ((c =? 62) || tag_break c) eqn:E; [|done].
  assert (c ∈ 62 :: 61 :: 47 :: whitespace) as Hc.
  { unfold tag_break, is_space in E. rewrite !orb_true_iff, !Z.eqb_eq, existsb_exists in E.
    destruct E as [->|[[->| ->]|(x & Hx & ->%Z.eqb_eq)]]; [by left|by right; left|by do 2 right; left|].
    apply list_elem_of_In in Hx. by do 3 right. }
  assert (forallb (λ c, forallb (λ l, negb (same_letter c l)) name_letters) (62 :: 61 :: 47 :: whitespace) = true)
    as H by by vm_compute.
  rewrite forallb_forall in H. specialize (H c (proj1 (list_elem_of_In _ _) Hc)). rewrite forallb_forall in H.
  specialize (H l (proj1 (list_elem_of_In _ _) Hl)). by apply negb_true_iff in H.
Qed.

Lemma same_letter_inj c l l' :
  l ∈ name_letters → l' ∈ name_letters → same_letter c l = true → same_letter c l' = true → l = l'.
Proof.
  assert (∀ l, l ∈ name_letters → l = 95 ∨ 97 ≤ l ≤ 122) as Hr.
  { intros x [->|(n & -> & Hn)%list_elem_of_fmap]%elem_of_cons; [by left|]. apply elem_of_seq in Hn. lia. }
  intros Hl%Hr Hl'%Hr. unfold same_letter. rewrite !orb_true_iff, !andb_true_iff, !orb_true_iff, !Z.eqb_eq, !Z.leb_le.
  lia.
Qed.

(** At most one of the names is at the head of the text. *)
Lemma one_name nm nm' s r r' :
  nm ∈ names → nm' ∈ names → after_name nm s = Some r → is_Some (tag_end r) →
  after_name nm' s = Some r' → is_Some (tag_end r') → nm = nm'.
Proof.
  intros Hn Hn'. pose proof (λ l, names_letters nm l Hn) as Hl. pose proof (λ l, names_letters nm' l Hn') as Hl'.
  clear Hn Hn'. revert nm' Hl' s. induction nm as [|l nm IH]; intros nm' Hl' s.
  - destruct nm' as [|l' nm']; [done|]. simpl. intros [= <-] He H1 He'.
    destruct s as [|c s]; [done|]. simpl in H1. rewrite (tag_end_head c s l') in H1; [done|done|].
    apply Hl'. by left.
  - destruct s as [|c s]; [done|]. simpl. destruct (same_letter c l) eqn:E; [|done].
    destruct nm' as [|l' nm']; simpl.
    + intros H1 He [= <-] He'. rewrite (tag_end_head c s l) in E; [done|done|]. apply Hl. by left.
    + intros H1 He. destruct (same_letter c l') eqn:E'; [|done]. intros H1' He'.
      assert (l = l') as <- by (apply (same_letter_inj c); [apply Hl; by left|apply Hl'; by left|done..]).
      f_equal. eapply (IH (λ x Hx, Hl x (list_elem_of_further _ _ _ Hx)) nm'
        (λ x Hx, Hl' x (list_elem_of_further _ _ _ Hx)) s); eassumption.
Qed.

Lemma tag_of_Some cl n s nm t :
  tag_of cl n s nm = Some t → ∃ r, after_name nm s = Some r ∧ is_Some (tag_end r).
Proof. unfold tag_of. destruct (after_name nm s) as [r|]; [|done]. destruct (tag_end r) eqn:E; [|done]. eauto. Qed.

Lemma first_tag_app cl n s s' t :
  first_some (tag_of cl n s) names = Some t → first_some (tag_of cl n (s ++ s')) names = Some t.
Proof.
  intros H. destruct (first_some_Some _ _ _ H) as (nm & Hn & Ht).
  apply (tag_of_app _ _ _ s') in Ht as Ht'. destruct (first_some (tag_of cl n (s ++ s')) names) as [t'|] eqn:E.
  - destruct (first_some_Some _ _ _ E) as (nm' & Hn' & Ht2).
    destruct (tag_of_Some _ _ _ _ _ Ht') as (r & Hr & He). destruct (tag_of_Some _ _ _ _ _ Ht2) as (r' & Hr' & He').
    rewrite (one_name nm nm' (s ++ s') r r') in Ht' by done. congruence.
  - rewrite first_some_None in E. by rewrite E in Ht'.
Qed.

Lemma match_tag_app b b' t : match_tag b = Some t → match_tag (b ++ b') = Some t.
Proof.
  destruct b as [|c [|c' b]]; [done| |]; unfold match_tag; cbn [app]; case_match; try done.
  case_match; [apply first_tag_app|apply (first_tag_app _ _ (c' :: b))].
Qed.

Lemma prefix_app_cases {A} (p s t : list A) : p `prefix_of` s ++ t → p `prefix_of` s ∨ s `prefix_of` p.
Proof. intros H. eapply prefix_weak_total; [exact H|]. by exists t. Qed.

Lemma lower_name l c : l ∈ name_letters → plain_char c = true → same_letter c l = true → lower_char c = [l].
Proof.
  intros Hl Hp Hs.
  assert (forallb (λ l, bool_decide (lower_char l = [l]) && ((l =? 95) || bool_decide (lower_char (l - 32) = [l])))
    name_letters = true) as H by by vm_compute.
  rewrite forallb_forall in H. specialize (H l (proj1 (list_elem_of_In _ _) Hl)).
  unfold plain_char in Hp. rewrite andb_true_iff, negb_true_iff in Hp. destruct Hp as [_ Hx].
  simpl in Hx. rewrite !orb_false_iff in Hx.
  rewrite andb_true_iff, orb_true_iff, !bool_decide_eq_true, Z.eqb_eq in H.
  unfold same_letter in Hs.
  rewrite !orb_true_iff, !andb_true_iff, !orb_true_iff, !Z.eqb_eq, !Z.leb_le in Hs.
  rewrite !Z.eqb_neq in Hx.
  destruct H as [H1 H2], Hs as [[[[->|Hs]|Hs]|Hs]|Hs]; [done| |lia..].
  destruct Hs as [[Ha Hb] ->]. destruct H2 as [->|H2]; [lia|done].
Qed.

Lemma lower_after nm s r :
  nm ∈ names → forallb plain_char s = true → after_name nm s = Some r → py_lower s = nm ++ py_lower r.
Proof.
  intros Hn. pose proof (λ l, names_letters nm l Hn) as Hl. clear Hn. revert s.
  induction nm as [|l nm IH]; intros s Hp; simpl; [by intros [= ->]|].
  destruct s as [|c s]; [done|]. simpl in Hp. rewrite andb_true_iff in Hp. destruct Hp as [Hc Hp].
  destruct (same_letter c l) eqn:E; [|done]. intros H.
  change (py_lower (c :: s)) with (lower_char c ++ py_lower s).
  rewrite (lower_name l c) by (done || (apply Hl; by left)). simpl. f_equal. apply IH; [|done..].
  intros x Hx. apply Hl. by right.
Qed.

(** The character that ends a name is one that [_possible_tag] knows. *)
Lemma tag_end_follower s :
  forallb plain_char s = true → is_Some (tag_end s) → ∃ c s', py_lower s = c :: s' ∧ tag_follower c = true.
Proof.
  destruct s as [|c s]; intros Hp [r Hr]; [done|]. simpl in Hp, Hr. rewrite andb_true_iff in Hp.
  destruct Hp as [Hp _]. destruct ((c =? 62) || tag_break c) eqn:E; [|done].
  exists c, (py_lower s). assert (c ∈ [62; 61; 47; 32; 9; 13; 10]) as Hc.
  { unfold tag_break in E. rewrite !orb_true_iff, !Z.eqb_eq in E. unfold plain_char in Hp.
    rewrite andb_true_iff, orb_true_iff, negb_true_iff in Hp. destruct Hp as [Hp _].
    destruct E as [->|[[->| ->]|E]]; [set_solver..|]. destruct Hp as [Hp|Hp]; [congruence|].
    apply existsb_exists in Hp as (x & Hx & ->%Z.eqb_eq). apply list_elem_of_In in Hx. set_solver. }
  change (py_lower (c :: s)) with (lower_char c ++ py_lower s).
  assert (forallb (λ c, bool_decide (lower_char c = [c]) && tag_follower c) [62; 61; 47; 32; 9; 13; 10] = true) as H
    by by vm_compute.
  rewrite forallb_forall in H. specialize (H c (proj1 (list_elem_of_In _ _) Hc)).
  rewrite andb_true_iff, bool_decide_eq_true in H. destruct H as [-> Hf]. done.
Qed.

Lemma match_tag_prefix b t :
  forallb plain_char b = true → match_tag b = Some t → ∃ p, p ∈ prefixes ∧ continues p (py_lower b) = true.
Proof.
  assert (∀ pre s cl n, forallb plain_char s = true → first_some (tag_of cl n s) names = Some t →
    (∀ nm, nm ∈ names → (pre ++ nm) ∈ prefixes) →
    ∃ p, p ∈ prefixes ∧ continues p (pre ++ py_lower s) = true) as H.
  { intros pre s cl n Hp Hf Hpre. apply first_some_Some in Hf as (nm & Hn & Ht).
    apply tag_of_Some in Ht as (r & Hr & He). exists (pre ++ nm). split; [by apply Hpre|].
    rewrite (lower_after nm s r Hn Hp Hr).
    assert (forallb plain_char r = true) as Hpr.
    { clear -Hp Hr. revert s Hp Hr. induction nm as [|l nm IH]; intros s Hp; simpl; [by intros [= <-]|].
      destruct s as [|c s]; [done|]. simpl in Hp. rewrite andb_true_iff in Hp. case_match; [|done].
      apply IH. apply Hp. }
    destruct (tag_end_follower r Hpr He) as (c & s' & -> & Hc). unfold continues.
    rewrite app_assoc, starts_with_app. simpl. by rewrite drop_app_length. }
  assert (∀ nm, nm ∈ names → (60 :: nm) ∈ prefixes ∧ (60 :: 47 :: nm) ∈ prefixes) as Hpre.
  { intros nm Hn. unfold prefixes. split; apply list_elem_of_bind; exists nm; (split; [|done]); set_solver. }
  destruct b as [|c [|c' b]]; unfold match_tag; [done|by case_match|]. simpl. rewrite !andb_true_iff.
  intros (_ & Hc' & Hb). destruct (c =? 60) eqn:Ec; [|done]. apply Z.eqb_eq in Ec as ->. simpl.
  destruct (c' =? 47) eqn:E; intros Hm.
  - apply Z.eqb_eq in E as ->. apply (H [60; 47] b true 2%nat); [done|done|]. intros nm Hn. by apply Hpre.
  - apply (H [60] (c' :: b) false 1%nat); [|done|].
    + simpl. by rewrite Hc', Hb.
    + intros nm Hn. by apply Hpre.
Qed.

Lemma possible_app b b' : _possible_tag (b ++ b') = true → _possible_tag b = true.
Proof.
  unfold _possible_tag. rewrite !existsb_exists, py_lower_app.
  intros (p & Hin & H). exists p. split; [done|]. rewrite orb_true_iff in *.
  destruct H as [H|H].
  - left. rewrite starts_with_true in *. by eapply prefix_app_l.
  - unfold continues in *. rewrite andb_true_iff, !starts_with_true in *. destruct H as [Hp H].
    destruct (prefix_app_cases _ _ _ Hp) as [[k Hk]|Hs]; [|by left].
    destruct k as [|c k]; [left; exists []; by rewrite Hk, !app_nil_r|].
    right. split; [by eexists|]. rewrite Hk in *. rewrite <-app_assoc, drop_app_length in H.
    by rewrite drop_app_length.
Qed.

Lemma step1_app f out f' more :
  forallb plain_char (buffer f ++ more) = true → step1 f = Some (out, f') →
  step1 (mkFilter (buffer f ++ more) (hidden f)) = Some (out, mkFilter (buffer f' ++ more) (hidden f')).
Proof.
  destruct f as [[|c b] h]; unfold step1; cbn [buffer hidden]; [done|]. intros Hp.
  change ((c :: b) ++ more) with (c :: b ++ more) in *.
  destruct (c =? 60) eqn:E; rewrite ?E; [|by intros [= <- <-]]. apply Z.eqb_eq in E as ->.
  destruct (match_tag (60 :: b)) as [t|] eqn:Ht.
  - apply (match_tag_app _ more) in Ht as Ht'. change ((60 :: b) ++ more) with (60 :: b ++ more) in Ht'.
    rewrite Ht'. intros [= <- <-]. cbn [buffer hidden]. do 3 f_equal. change (60 :: b ++ more) with ((60 :: b) ++ more).
    rewrite drop_app_le; [done|]. by apply match_tag_le.
  - destruct (_possible_tag (60 :: b)) eqn:Hpos; [done|]. intros [= <- <-].
    assert (_possible_tag (60 :: b ++ more) = false) as Hpos'.
    { apply not_true_iff_false. intros H. by rewrite (possible_app (60 :: b) more H) in Hpos. }
    destruct (match_tag (60 :: b ++ more)) as [t|] eqn:Ht'.
    + apply match_tag_prefix in Ht' as (p & Hin & Hc); [|done]. exfalso. apply not_true_iff_false in Hpos'.
      apply Hpos'. unfold _possible_tag. apply existsb_exists. exists p.
      split; [by apply list_elem_of_In|]. by rewrite Hc, orb_true_r.
    + by rewrite Hpos'.
Qed.

Lemma step1_plain f out f' :
  forallb plain_char (buffer f) = true → step1 f = Some (out, f') → forallb plain_char (buffer f') = true.
Proof.
  assert (∀ n b, forallb plain_char b = true → forallb plain_char (drop n b) = true) as Hd.
  { intros n b H. rewrite <-(take_drop n b), forallb_app, andb_true_iff in H. apply H. }
  destruct f as [[|c b] h]; unfold step1; cbn [buffer hidden]; [done|]. intros Hp.
  assert (forallb plain_char b = true) as Hb by (apply andb_true_iff in Hp; apply Hp).
  repeat case_match; intros [= <- <-]; cbn [buffer]; auto.
Qed.

Lemma steps_app f out f' more :
  steps f out f' → forallb plain_char (buffer f ++ more) = true →
  steps (mkFilter (buffer f ++ more) (hidden f)) out (mkFilter (buffer f' ++ more) (hidden f')).
Proof.
  induction 1 as [f|f o g o' g' Hs _ IH]; intros Hp; [constructor|].
  eapply steps_cons; [by apply step1_app|]. apply IH. rewrite forallb_app, andb_true_iff in *.
  destruct Hp. split; [|done]. by eapply step1_plain.
Qed.

Lemma settled_push f : step1 f = None → push f [] = Some ([], f).
Proof.
  intros Hn. destruct (push_steps f []) as (out & f' & -> & Hs & Hn').
  rewrite app_nil_r in Hs. destruct f as [b h]. simpl in Hs.
  destruct (steps_det _ _ _ _ _ Hs Hn' (steps_refl _) Hn) as [-> ->]. done.
Qed.

Lemma pushes_push f texts :
  step1 f = None → forallb plain_char (buffer f ++ mjoin texts) = true →
  pushes f texts = push f (mjoin texts).
Proof.
  revert f. induction texts as [|t texts IH]; intros f Hn Hp; [symmetry; by apply settled_push|].
  simpl. destruct (push_steps f t) as (o1 & f1 & -> & Hs1 & Hn1).
  change (mjoin (t :: texts)) with (t ++ mjoin texts) in *. rewrite app_assoc in Hp.
  pose proof (steps_app _ _ _ (mjoin texts) Hs1 Hp) as Hs. cbn [buffer hidden] in Hs.
  assert (forallb plain_char (buffer f1 ++ mjoin texts) = true) as Hp1.
  { clear -Hs1 Hp. rewrite forallb_app, andb_true_iff in *. destruct Hp as [Hp Hm]. split; [|done].
    remember (mkFilter _ _) as g eqn:Hg. assert (forallb plain_char (buffer g) = true) as Hg' by by subst.
    clear Hg Hp. induction Hs1; [done|]. apply IHHs1. by eapply step1_plain. }
  rewrite (IH f1 Hn1 Hp1).
  destruct (push_steps f1 (mjoin texts)) as (o2 & f2 & -> & Hs2 & Hn2).
  destruct (push_steps f (t ++ mjoin texts)) as (o & f' & -> & Hs' & Hn').
  rewrite app_assoc in Hs'. pose proof (steps_trans _ _ _ _ _ Hs Hs2) as Hall.
  by destruct (steps_det _ _ _ _ _ Hall Hn2 Hs' Hn') as [-> ->].
Qed.

(** ** Theorems *)

(** However the answer is cut into pieces, the same text is spoken and the same is held
    back; and the loop ends on every piece. *)
Theorem pieces_irrelevant texts :
  forallb plain_char (mjoin texts) = true →
  pushes filter_init texts = push filter_init (mjoin texts) ∧ is_Some (push filter_init (mjoin texts)).
Proof.
  intros Hp. split; [by apply pushes_push|]. destruct (push_steps filter_init (mjoin texts)) as (o & f & -> & _). done.
Qed.

Lemma pieces_irrelevant_witness :
  let texts := [lit "Sure. <thi"; lit "nk>the caller wants"; lit " 3 < 4</thin"; lit "k> Your balance < 5."] in
  pushes filter_init texts = push filter_init (mjoin texts) ∧ is_Some (push filter_init (mjoin texts)).
Proof. apply pieces_irrelevant. vm_compute. reflexivity. Defined.

(** ** What is to be heard

    Declaratively, without the scanner: a text is read as characters and internal tags, and
    those that no open tag encloses are heard. *)

(** [<name attributes>] or [</name attributes>], in any case; a self-closing one ends with a
    slash. *)
Definition internal_tag (s : str) (t : tag) : Prop :=
  ∃ w attributes,
    s = 60 :: (if closing t then [47] else []) ++ w ++ attributes ++ [62] ∧
    py_lower w = tag_name t ∧
    tag_name t ∈ map lit ["think"; "thinking"; "reasoning"; "tool_call"; "function"; "parameter"]%string ∧
    (60 ∉ attributes) ∧ (62 ∉ attributes) ∧
    match attributes with [] => True | c :: _ => tag_break c = true end ∧
    selfclosing t = match List.rev attributes with c :: _ => c =? 47 | [] => false end ∧
    tag_length t = length s.

Definition no_tag_at (b : str) : Prop := ∀ s t, s `prefix_of` b → ¬ internal_tag s t.

(** Text that is kept back: it begins like a tag. *)
Definition may_become (b : str) : Prop :=
  no_tag_at b ∧ ∃ p, p ∈ prefixes ∧ (py_lower b `prefix_of` p ∨ p `prefix_of` py_lower b).

Inductive piece : Type := Char (c : Z) | Tag (t : tag).

Inductive reads : str → list piece → str → Prop :=
| reads_end : reads [] [] []
| reads_held b : may_become b → reads b [] b
| reads_tag s t b ps held : internal_tag s t → reads b ps held → reads (s ++ b) (Tag t :: ps) held
| reads_char c b ps held : no_tag_at (c :: b) → reads b ps held → reads (c :: b) (Char c :: ps) held.

(** [hears open ps out open']: the open tags, the innermost last, before and after. *)
Inductive hears : list str → list piece → str → list str → Prop :=
| hears_end h : hears h [] [] h
| hears_heard c ps out h : hears [] ps out h → hears [] (Char c :: ps) (c :: out) h
| hears_hidden h c ps out h' : h ≠ [] → hears h ps out h' → hears h (Char c :: ps) out h'
| hears_open h t ps out h' :
    closing t = false → selfclosing t = false → hears (h ++ [tag_name t]) ps out h' → hears h (Tag t :: ps) out h'
| hears_self h t ps out h' :
    closing t = false → selfclosing t = true → hears h ps out h' → hears h (Tag t :: ps) out h'
| hears_close h k t ps out h' :
    closing t = true → tag_name t ∉ k → hears h ps out h' → hears (h ++ tag_name t :: k) (Tag t :: ps) out h'
| hears_stray h t ps out h' :
    closing t = true → tag_name t ∉ h → hears h ps out h' → hears h (Tag t :: ps) out h'.

(** *** The pattern finds the tags *)

Lemma tag_attributes_spec s a n :
  tag_attributes s = Some (a, n) ↔ ∃ r, s = a ++ 62 :: r ∧ (60 ∉ a) ∧ (62 ∉ a) ∧ n = S (length a).
Proof.
  revert a n. induction s as [|c s IH]; intros a n; simpl.
  { split; [done|]. intros (r & H & _). by destruct a. }
  destruct (c =? 62) eqn:E; [apply Z.eqb_eq in E as ->|apply Z.eqb_neq in E].
  { split; [intros [= <- <-]; exists s; split_and!; [done|apply not_elem_of_nil..|done]|].
    intros (r & H & _ & Hn & ->). destruct a as [|d a]; [done|]. injection H as <- _. by destruct Hn; left. }
  destruct (c =? 60) eqn:E0; [apply Z.eqb_eq in E0 as ->|apply Z.eqb_neq in E0].
  { split; [done|]. intros (r & H & Hn & _). destruct a as [|d a]; [done|]. injection H as <- _. by destruct Hn; left. }
  destruct (tag_attributes s) as [[a' n']|] eqn:Ea.
  - destruct (proj1 (IH a' n') eq_refl) as (r & -> & H1 & H2 & ->). split.
    + intros [= <- <-]. exists r. split; [done|]. rewrite !not_elem_of_cons. by repeat split; auto.
    + intros (r' & H & H3 & H4 & ->). destruct a as [|d a]; [by injection H|]. injection H as <- H.
      rewrite not_elem_of_cons in H3, H4. assert (Some (a', S (length a')) = Some (a, S (length a))) as [= <-]; [|done].
      apply IH. exists r'. by repeat split; [|apply H3|apply H4].
  - split; [done|]. intros (r & H & H3 & H4 & ->). destruct a as [|d a]; [by injection H|]. injection H as <- H.
    rewrite not_elem_of_cons in H3, H4. assert (None = Some (a, S (length a))) as [=].
    apply IH. exists r. by repeat split; [|apply H3|apply H4].
Qed.

Lemma after_name_split nm s r :
  after_name nm s = Some r → ∃ w, s = w ++ r ∧ length w = length nm.
Proof.
  revert s. induction nm as [|l nm IH]; intros s; simpl; [intros [= ->]; by exists []|].
  destruct s as [|c s]; [done|]. case_match; [|done]. intros (w & -> & Hw)%IH. exists (c :: w). simpl. by rewrite Hw.
Qed.

Lemma tag_of_sound cl n s nm t :
  nm ∈ names → forallb plain_char s = true → tag_of cl n s nm = Some t →
  closing t = cl ∧ ∃ w attributes, py_lower w = tag_name t ∧ tag_name t = nm ∧
    w ++ attributes ++ [62] `prefix_of` s ∧ (60 ∉ attributes) ∧ (62 ∉ attributes) ∧
    match attributes with [] => True | c :: _ => tag_break c = true end ∧
    selfclosing t = match List.rev attributes with c :: _ => c =? 47 | [] => false end ∧
    tag_length t = (n + length (w ++ attributes ++ [62%Z]))%nat.
Proof.
  intros Hn Hp. unfold tag_of. destruct (after_name nm s) as [r|] eqn:E; [|done].
  destruct (tag_end r) as [[a m]|] eqn:Ee; [|done]. intros [= <-]. cbn [closing tag_name selfclosing tag_length].
  split; [done|]. destruct (after_name_split _ _ _ E) as (w & -> & Hw). apply lower_after in E; [|done..].
  rewrite py_lower_app in E. apply app_inv_tail in E.
  unfold tag_end in Ee. destruct r as [|c r]; [done|]. destruct ((c =? 62) || tag_break c) eqn:Ec; [|done].
  apply tag_attributes_spec in Ee as (r' & Hr & H1 & H2 & ->). exists w, a. rewrite <-Hw, take_app_length.
  split_and!; [done|done| |done|done| |done|].
  - exists r'. by rewrite Hr, <-!app_assoc.
  - destruct a as [|d a]; [done|]. injection Hr as -> _. apply orb_true_iff in Ec as [->%Z.eqb_eq|]; [|done].
    by destruct H2; left.
  - rewrite !length_app. simpl. lia.
Qed.

Lemma match_tag_sound b t :
  forallb plain_char b = true → match_tag b = Some t →
  internal_tag (take (tag_length t) b) t.
Proof.
  assert (∀ (cl : bool) (pre s : str), pre = (if cl then [47] else []) →
    forallb plain_char s = true → first_some (tag_of cl (S (length pre)) s) names = Some t →
    internal_tag (take (tag_length t) (60 :: pre ++ s)) t) as H.
  { intros cl pre s Hpre Hp (nm & Hn & Ht)%first_some_Some. apply tag_of_sound in Ht; [|done..].
    destruct Ht as (Hcl & w & a & Hw & Hnm & [r ->] & H1 & H2 & H3 & H4 & Hlen). rewrite Hlen.
    assert (take (S (length pre) + length (w ++ a ++ [62%Z])) (60 :: pre ++ (w ++ a ++ [62]) ++ r)
      = 60 :: pre ++ w ++ a ++ [62]) as ->.
    { change (60 :: pre ++ ?x) with ((60 :: pre) ++ x). rewrite (app_assoc (60 :: pre) _ r).
      apply take_app_length'. by rewrite (length_app (60 :: pre)). }
    exists w, a. rewrite Hcl, <-Hpre. split_and!; [done|done|by rewrite Hnm|done..|].
    rewrite Hlen. cbn [length]. by rewrite (length_app pre). }
  destruct b as [|c [|c' b]]; unfold match_tag; [done|by case_match|]. simpl. rewrite !andb_true_iff.
  intros (_ & Hc' & Hb). destruct (c =? 60) eqn:Ec; [|done]. apply Z.eqb_eq in Ec as ->. simpl.
  destruct (c' =? 47) eqn:E; intros Hm.
  - apply Z.eqb_eq in E as ->. by apply (H true [47] b).
  - apply (H false [] (c' :: b)); [done| |done]. simpl. by rewrite Hc', Hb.
Qed.

(** Of the plain characters only a letter and its capital become the letter. *)
Lemma lower_back c l : plain_char c = true → l ∈ name_letters → lower_char c = [l] → same_letter c l = true.
Proof.
  intros Hp Hl. unfold lower_char.
  assert ((c =? 304) = false) as ->.
  { unfold plain_char in Hp. apply andb_prop in Hp as [_ Hp]. apply negb_true_iff in Hp. simpl in Hp.
    by apply orb_false_iff in Hp as [Hp _]. }
  destruct (List.find _ lower_ranges) as [[[[lo hi] st] d]|] eqn:Hf.
  2: { intros [= ->]. unfold same_letter. by rewrite Z.eqb_refl. }
  intros [= <-]. apply find_elem_of in Hf as [Hin Hc].
  assert (forallb (λ '(lo, hi, st, d), forallb (λ c, negb ((c - lo) mod st =? 0) || negb (plain_char c) ||
    negb (existsb (Z.eqb (c + d)) name_letters) || same_letter c (c + d)) (seqZ lo (hi - lo + 1))) lower_ranges = true)
    as Ht by (vm_compute; reflexivity).
  rewrite forallb_elem_of in Ht. specialize (Ht _ Hin). cbn beta iota in Ht. rewrite forallb_elem_of in Ht.
  rewrite !andb_true_iff in Hc. destruct Hc as [[Hlo%Z.leb_le Hhi%Z.leb_le] Hst].
  specialize (Ht c ltac:(apply elem_of_seqZ; lia)). rewrite Hst, Hp in Ht.
  assert (existsb (Z.eqb (c + d)) name_letters = true) as He; [|by rewrite He in Ht].
  apply existsb_exists. exists (c + d). split; [by apply list_elem_of_In|apply Z.eqb_refl].
Qed.

Lemma after_lower w nm r :
  (∀ l, l ∈ nm → l ∈ name_letters) → forallb plain_char w = true → py_lower w = nm →
  after_name nm (w ++ r) = Some r ∧ length w = length nm.
Proof.
  revert nm. induction w as [|c w IH]; intros nm Hl Hp; [by intros <-|].
  simpl in Hp. apply andb_prop in Hp as [Hc Hp]. change (py_lower (c :: w)) with (lower_char c ++ py_lower w).
  assert (∃ l, lower_char c = [l]) as [l El].
  { unfold lower_char. destruct (c =? 304) eqn:E; [apply Z.eqb_eq in E as ->; by vm_compute in Hc|].
    destruct (List.find _ _) as [[[[? ?] ?] ?]|]; eauto. }
  rewrite El. intros <-. cbn [app after_name].
  rewrite (lower_back c l Hc) by (done || (apply Hl; by left)).
  destruct (IH (py_lower w)) as [H1 H2]; [intros x Hx; apply Hl; by right|done..|].
  split; [done|]. cbn [length app]. by rewrite H2.
Qed.

Lemma tag_of_complete cl n s t w attributes :
  forallb plain_char w = true → py_lower w = tag_name t → tag_name t ∈ names →
  s = w ++ attributes ++ [62] → (60 ∉ attributes) → (62 ∉ attributes) →
  match attributes with [] => True | c :: _ => tag_break c = true end →
  tag_of cl n s (tag_name t) =
  Some (mkTag cl (tag_name t) (match List.rev attributes with c :: _ => c =? 47 | [] => false end)
          (n + length w + S (length attributes))).
Proof.
  intros Hp Hw Hn -> H1 H2 H3. unfold tag_of.
  destruct (after_lower w (tag_name t) (attributes ++ [62])) as [-> Hlen]; [|done..|].
  { intros l. by apply names_letters. }
  assert (tag_end (attributes ++ [62]) = Some (attributes, S (length attributes))) as ->.
  { assert (tag_attributes (attributes ++ [62]) = Some (attributes, S (length attributes))) as Ha
      by (apply tag_attributes_spec; by exists []).
    unfold tag_end. destruct attributes as [|c a]; [done|]. cbn [app] in *. by rewrite H3, orb_true_r. }
  by rewrite <-Hlen, take_app_length, Hw.
Qed.

Lemma match_tag_complete s t :
  forallb plain_char s = true → internal_tag s t → match_tag s = Some t.
Proof.
  intros Hp (w & a & Hs & Hw & Hn & H1 & H2 & H3 & H4 & H5). change (tag_name t ∈ names) in Hn.
  assert (forallb plain_char w = true) as Hpw.
  { subst s. cbn [forallb] in Hp. rewrite !forallb_app, !andb_true_iff in Hp. apply Hp. }
  set (pre := if closing t then [47] else [] : str) in *.
  assert (first_some (tag_of (closing t) (S (length pre)) (w ++ a ++ [62])) names = Some t) as Hf.
  { pose proof (tag_of_complete (closing t) (S (length pre)) _ t w a Hpw Hw Hn eq_refl H1 H2 H3) as Ht.
    rewrite <-H4 in Ht. destruct (first_some _ names) as [t'|] eqn:E.
    - destruct (first_some_Some _ _ _ E) as (nm & Hn' & Ht').
      destruct (tag_of_Some _ _ _ _ _ Ht) as (r & Hr & He). destruct (tag_of_Some _ _ _ _ _ Ht') as (r' & Hr' & He').
      rewrite <-(one_name (tag_name t) nm _ r r') in Ht' by done. rewrite Ht in Ht'. injection Ht' as <-. f_equal.
      destruct t as [cl nm' sc len]. cbn [closing tag_name selfclosing tag_length] in *. subst. f_equal.
      cbn [length]. rewrite !length_app. simpl. lia.
    - rewrite first_some_None in E. by rewrite E in Ht. }
  subst s. unfold match_tag. clear H4 H5 Hp. subst pre. destruct (closing t); [exact Hf|]. cbn [app length] in *.
  destruct (w ++ a ++ [62]) as [|c b] eqn:Eb; [by destruct w, a|].
  assert ((c =? 47) = false) as E; [|by rewrite E].
  apply Z.eqb_neq. intros ->. destruct w as [|d w].
  - cbn in Hw. rewrite <-Hw in Hn. revert Hn. by vm_compute; intros H; repeat (apply elem_of_cons in H as [H|H]; [done|]); apply not_elem_of_nil in H.
  - injection Eb as -> _. destruct (after_lower (47 :: w) (tag_name t) []) as [Ha _]; [|done..|].
    { intros l. by apply names_letters. }
    destruct (tag_name t) as [|l nm] eqn:En; [by destruct (lower_char 47)|]. cbn [app after_name] in Ha.
    assert (l ∈ name_letters) as Hl by (apply (names_letters (l :: nm)); [done|by left]).
    assert (forallb (λ l, negb (same_letter 47 l)) name_letters = true) as Hc by (vm_compute; reflexivity).
    rewrite forallb_elem_of in Hc. specialize (Hc l Hl). apply negb_true_iff in Hc. by rewrite Hc in Ha.
Qed.

(** *** The machine reads the text *)

Lemma close_tag_spec name l :
  in_strs name l = true → ∃ k, l = close_tag name l ++ name :: k ∧ name ∉ k.
Proof.
  induction l as [|n l IH]; [done|]. cbn [close_tag]. intros H. destruct (in_strs name l) eqn:E.
  - destruct (IH eq_refl) as (k & Hk & Hn). exists k. split; [|done]. cbn [app]. by rewrite <-Hk.
  - apply in_strs_false in E. apply in_strs_true in H. destruct (n =s name) eqn:En.
    + apply str_eqb_true in En as ->. by exists l.
    + apply str_eqb_false in En. apply elem_of_cons in H as [H|H]; [by subst|done].
Qed.

Lemma hears_tag t h ps out h' : hears (hide t h) ps out h' → hears h (Tag t :: ps) out h'.
Proof.
  unfold hide. destruct (closing t) eqn:Ec.
  - destruct (in_strs (tag_name t) h) eqn:E; intros H.
    + destruct (close_tag_spec _ _ E) as (k & Hk & Hn). rewrite Hk. by apply hears_close.
    + apply in_strs_false in E. by apply hears_stray.
  - destruct (selfclosing t) eqn:Es; intros H; [by apply hears_self|by apply hears_open].
Qed.

Lemma steps_hears f out f' :
  steps f out f' → forallb plain_char (buffer f) = true → step1 f' = None →
  ∃ ps, reads (buffer f) ps (buffer f') ∧ hears (hidden f) ps out (hidden f').
Proof.
  assert (∀ b, forallb plain_char b = true → match_tag b = None → no_tag_at b) as Hno.
  { intros b Hp Hm s t [r ->] Ht. rewrite forallb_app in Hp. apply andb_prop in Hp as [Hp _].
    apply (match_tag_complete s t Hp), (match_tag_app _ r) in Ht. congruence. }
  induction 1 as [[b h]|[b h] o g o' g' Hs _ IH]; intros Hp Hn; cbn [buffer hidden] in *.
  - exists []. split; [|constructor]. unfold step1 in Hn. cbn [buffer hidden] in Hn.
    destruct b as [|c b]; [constructor|]. destruct (c =? 60); [|done].
    destruct (match_tag (c :: b)) as [t|] eqn:Ht; [done|]. destruct (_possible_tag (c :: b)) eqn:Hpos; [|done].
    apply reads_held. split; [by apply Hno|]. unfold _possible_tag in Hpos.
    apply existsb_elem_of in Hpos as (p & Hin & H). exists p. split; [done|].
    apply orb_true_iff in H as [H|[H _]%andb_prop]; [left|right]; by apply starts_with_true in H.
  - pose proof (step1_plain (mkFilter b h) _ _ Hp Hs) as Hpg. destruct (IH Hpg Hn) as (ps & Hr & Hh).
    unfold step1 in Hs. cbn [buffer hidden] in Hs. destruct b as [|c b]; [done|].
    assert (∀ g, g = mkFilter b h → reads (buffer g) ps (buffer g') → hears (hidden g) ps o' (hidden g') →
      no_tag_at (c :: b) → ∃ ps, reads (c :: b) ps (buffer g') ∧ hears h ps (audible h [c] ++ o') (hidden g')) as Hchar.
    { intros ? -> Hr' Hh' Hnt. exists (Char c :: ps). split; [by apply reads_char|].
      unfold audible. case_bool_decide as Hh0; cbn [app]; [subst h; by apply hears_heard|by apply hears_hidden]. }
    destruct (c =? 60) eqn:E.
    + destruct (match_tag (c :: b)) as [t|] eqn:Ht.
      * injection Hs as <- <-. cbn [buffer hidden] in *. exists (Tag t :: ps). split; [|by apply hears_tag].
        rewrite <-(take_drop (tag_length t) (c :: b)). apply reads_tag; [by apply match_tag_sound|done].
      * destruct (_possible_tag _); [done|]. injection Hs as <- <-. apply (Hchar _ eq_refl); auto.
    + injection Hs as <- <-. apply (Hchar _ eq_refl); [done..|]. intros s t [r Hr'] (w & a & -> & _).
      injection Hr' as -> _. done.
Qed.

(** C21: Of a whole answer, in whatever pieces it arrives, the caller hears exactly the characters that
    no internal tag (reasoning, textual tool call) encloses, in their order, and nothing of a
    tag: tags in any case, with attributes, self-closing or nested, where a closing tag ends the last
    open one of its name and all within it.  What is kept back at the end begins like a tag.
    (For [plain_char]s: the pattern and the test for a possible tag differ on the other
    blanks, see [vertical_tab_spoken], and on four letters.) *)
Theorem hidden_text_unspoken texts :
  forallb plain_char (mjoin texts) = true →
  ∃ ps held out open, reads (mjoin texts) ps held ∧ hears [] ps out open ∧
    pushes filter_init texts = Some (out, mkFilter held open).
Proof.
  intros Hp. rewrite pushes_push by done. destruct (push_steps filter_init (mjoin texts)) as (o & [held h] & -> & Hs & Hn).
  destruct (steps_hears _ _ _ Hs Hp Hn) as (ps & Hr & Hh). by exists ps, held, o, h.
Qed.

Lemma hidden_text_unspoken_witness :
  let texts := [lit "Hi. <Thi"; lit "nk a=1>what <tool_call>now?</t"; lit "hink> 2 < 3 <functions> How can I help?"] in
  ∃ ps held out open, reads (mjoin texts) ps held ∧ hears [] ps out open ∧
    pushes filter_init texts = Some (out, mkFilter held open).
Proof. apply hidden_text_unspoken. vm_compute. reflexivity. Defined.

Example hidden_text_run :
  pushes filter_init [lit "Hi. <Thi"; lit "nk a=1>what <tool_call>now?</t"; lit "hink> 2 < 3 <functions> How can I help?"]
  = Some (lit "Hi.  2 < 3 <functions> How can I help?", filter_init).
Proof. by vm_compute. Qed.

(** A tag whose name is followed by a vertical tab is an internal tag when it arrives whole,
    and is spoken when it arrives in pieces. *)
Example vertical_tab_spoken :
  fst <$> pushes filter_init [[60] ++ lit "think" ++ [11] ++ lit ">x"] = Some [] ∧
  fst <$> pushes filter_init [[60] ++ lit "think" ++ [11]; lit ">x"] = Some ([60] ++ lit "think" ++ [11] ++ lit ">x").
Proof. by vm_compute. Qed.

(** Text that might still have become a tag when the answer ends is not spoken: there is no
    last call that would release it. *)
Example held_text_lost : pushes filter_init [lit "2 </"] = Some (lit "2 ", mkFilter (lit "</") []).
Proof. by vm_compute. Qed.

(** A tag that another bracket breaks is kept back with all that follows it. *)
Example broken_tag_silences :
  pushes filter_init [lit "Press <function < 3> or say it. "; lit "I can help."]
  = Some (lit "Press ", mkFilter (lit "<function < 3> or say it. I can help.") []).
Proof. by vm_compute. Qed.
