(* ===== verification/LlmStream.v ===== *)
(** * The language model's stream: RLLMClient of latency_lab/providers.py

    [stream] posts a request, reads the server-sent events of the response as bytes, yields
    the text that is to be spoken (SpokenText.v), assembles the tool calls from their
    fragments and yields them at the end; a request that failed before any text, or that
    brought nothing, is repeated a bounded number of times.  The generator is a machine
    (Prelude.v) whose events are the answers to its [await]s; its consumer takes everything
    that is yielded.  Trace records are not modelled. *)
From stdpp Require Import base list strings.
From Stdlib Require Import ZArith Lia Sorting.
From S2P Require Import Prelude Pystr Json JsonText Bytes Url ActionTools SpokenText.

(** ** The request *)

Definition is_system (m : dict) : bool := jeq_str m.[lit "role"] (lit "system").

(** [str(message.get("content") or "")] *)
Definition content_text (m : dict) : str := str_or_empty m.[lit "content"].

Definition _normalize_messages (messages : list dict) : list dict :=
  if negb (existsb is_system (drop 1 messages)) then messages
  else
    let parts := map content_text (List.filter is_system messages) in
    let rest := List.filter (λ m, negb (is_system m)) messages in
    let merged := py_join (lit "

") (List.filter (λ p, negb (p =s [])) parts) in
    if merged =s [] then rest
    else [(lit "role", JStr (lit "system")); (lit "content", JStr merged)] :: rest.

Record llm_config := mkLlmConfig {
  llm_model : str;
  llm_base_url : str;
  llm_provider : str;
  llm_enable_thinking : bool;
  llm_reasoning_effort : str;
  llm_empty_retries : Z;
}.

(** [urlsplit(url).hostname or ""], in lower case; a zone is not. *)
Definition hostname (netloc : str) : str :=
  let hostinfo := match userinfo netloc with Some u => drop (S (length u)) netloc | None => netloc end in
  let host := match cut_at (Z.eqb 91) hostinfo with
              | (_, Some bracketed) => fst (cut_at (Z.eqb 93) bracketed)
              | _ => fst (cut_at (Z.eqb 58) hostinfo)
              end in
  match cut_at (Z.eqb 37) host with
  | (name, Some zone) => py_lower name ++ 37 :: zone
  | (name, None) => py_lower name
  end.

Section request.
Context (netloc_ok : str → bool).

Definition request_payload (config : llm_config) (messages : list dict) (tools : list json) (tool_choice : str)
    (max_tokens : Z) (temperature : json) : exn dict :=
  let thinking := JBool (llm_enable_thinking config) in
  let payload : dict :=
    [(lit "model", JStr (llm_model config));
     (lit "messages", JArr (map JObj (_normalize_messages messages)));
     (lit "stream", JBool true);
     (lit "stream_options", JObj [(lit "include_usage", JBool true)]);
     (lit "temperature", temperature);
     (lit "max_tokens", JInt max_tokens);
     (lit "chat_template_kwargs", JObj [(lit "enable_thinking", thinking); (lit "thinking", thinking)])] in
  do! url := urlsplit netloc_ok (llm_base_url config) in
  let provider_host := py_lower (hostname (url_netloc url)) in
  let payload :=
    if (llm_provider config =s lit "deepseek") || (provider_host =s lit "api.deepseek.com") then
      let payload := dpop (lit "temperature") (dpop (lit "chat_template_kwargs") payload) in
      let payload := dset (lit "thinking")
        (JObj [(lit "type", JStr (if llm_enable_thinking config then lit "enabled" else lit "disabled"))]) payload in
      dset (lit "reasoning_effort")
        (JStr (if llm_enable_thinking config then llm_reasoning_effort config else lit "none")) payload
    else payload in
  let payload :=
    if provider_host =s lit "api.groq.com" then dpop (lit "chat_template_kwargs") payload else payload in
  Ok (if bool_decide (tools = []) then payload
      else dset (lit "tool_choice") (JStr tool_choice) (dset (lit "tools") (JArr tools) payload)).
End request.

(** ** The incremental decoder of UTF-8

    How many bytes of a character are missing, its value so far, and the range of the next. *)
Record decoder := mkDecoder { missing : nat; value : Z; low : Z; high : Z }.

Definition decoder_init : decoder := mkDecoder 0 0 128 191.

(** One byte: the character that it completes, if any; [None] is a [UnicodeDecodeError]. *)
Definition decode_byte (d : decoder) (b : Z) : option (str * decoder) :=
  match missing d with
  | O =>
      if b <? 128 then Some ([b], decoder_init)
      else if b <? 194 then None
      else if b <? 224 then Some ([], mkDecoder 1 (b - 192) 128 191)
      else if b <? 240 then
        Some ([], mkDecoder 2 (b - 224) (if b =? 224 then 160 else 128) (if b =? 237 then 159 else 191))
      else if b <? 245 then
        Some ([], mkDecoder 3 (b - 240) (if b =? 240 then 144 else 128) (if b =? 244 then 143 else 191))
      else None
  | S n =>
      if (low d <=? b) && (b <=? high d) then
        let v := value d * 64 + (b - 128) in
        match n with
        | O => Some ([v], decoder_init)
        | _ => Some ([], mkDecoder n v 128 191)
        end
      else None
  end.

(** [decoder.decode(bytes)] *)
Fixpoint decode (d : decoder) (bytes : list Z) : option (str * decoder) :=
  match bytes with
  | [] => Some ([], d)
  | b :: bytes =>
      match decode_byte d b with
      | Some (s, d') =>
          match decode d' bytes with Some (t, d'') => Some (s ++ t, d'') | None => None end
      | None => None
      end
  end.

(** ** One server-sent item *)

(** An element of [pending_calls], under its index. *)
Record pending_call := mkPending { pc_id : str; pc_name : str; pc_arguments : str }.

Definition call_init : pending_call := mkPending [] [] [].

Fixpoint call_at (i : Z) (calls : list (Z * pending_call)) : option pending_call :=
  match calls with
  | [] => None
  | (j, c) :: calls => if j =? i then Some c else call_at i calls
  end.

(** [current = pending_calls.setdefault(i, ..)] and the updates of [current]. *)
Fixpoint call_update (i : Z) (f : pending_call → pending_call) (calls : list (Z * pending_call)) :=
  match calls with
  | [] => [(i, f call_init)]
  | (j, c) :: calls => if j =? i then (j, f c) :: calls else (j, c) :: call_update i f calls
  end.

(** A fragment: its index, its identifier (empty: none), and what it adds to the name and the
    arguments. *)
Record fragment := mkFragment { fr_index : Z; fr_id : str; fr_name : str; fr_arguments : str }.

Definition parse_fragment (v : json) : exn fragment :=
  match v with
  | JObj d =>
      do! index := py_int (jor d.[lit "index"] (JInt 0)) in
      match jor d.[lit "function"] (JObj []) with
      | JObj f => Ok (mkFragment index (str_or_empty d.[lit "id"]) (str_or_empty f.[lit "name"])
                        (str_or_empty f.[lit "arguments"]))
      | _ => Raise AttributeError
      end
  | _ => Raise AttributeError
  end.

Definition extend (fr : fragment) (c : pending_call) : pending_call :=
  mkPending (match fr_id fr with [] => pc_id c | i => i end) (pc_name c ++ fr_name fr)
    (pc_arguments c ++ fr_arguments fr).

Definition add_fragment (calls : list (Z * pending_call)) (fr : fragment) : list (Z * pending_call) :=
  call_update (fr_index fr) (extend fr) calls.

Fixpoint parse_all {A} (f : json → exn A) (l : list json) : exn (list A) :=
  match l with
  | [] => Ok []
  | v :: l => do! x := f v in do! xs := parse_all f l in Ok (x :: xs)
  end.

(** What one response has brought so far. *)
Record reading := mkReading {
  rd_decoder : decoder;
  rd_buffered : str;
  rd_spoken : text_filter;
  rd_calls : list (Z * pending_call);
  rd_reasoning : str;
  rd_assistant : str;
  rd_produced : bool; (** [produced_this_request] *)
}.

Definition reading_init : reading := mkReading decoder_init [] filter_init [] [] [] false.

(** What the generator does that is seen from outside. *)
Inductive output : Type :=
| Posted (** a request *)
| Observed (usage : json) (** [self.usage.llm_usage] *)
| Spoken (text : str) (** [yield text] *)
| Called (id name : str) (arguments : dict) (reasoning : str) (assistant : option str)
    (** [yield ActionToolCall(..)] *)
| Reasoned (text : str) (** [sink(reasoning_content)] *)
| Failed (e : pyexc). (** the exception leaves the generator *)

(** [choice.get(..)] of every choice: each must be an object. *)
Definition check_choices (item : dict) : exn (list json) :=
  do! choices := py_iter (jor item.[lit "choices"] (JArr [])) in
  if forallb is_dict choices then Ok choices else Raise AttributeError.

Definition usage_of (item : dict) : list output :=
  match item.[lit "usage"] with JNull => [] | u => [Observed u] end.

(** [item["choices"][0].get("delta", {})], with its text, reasoning and fragments. *)
Definition parse_delta (choices : list json) : exn (str * str * list fragment) :=
  match choices with
  | JObj choice :: _ =>
      match default (JObj []) (dget (lit "delta") choice) with
      | JObj delta =>
          do! vs := py_iter (jor delta.[lit "tool_calls"] (JArr [])) in
          do! fragments := parse_all parse_fragment vs in
          Ok (str_or_empty delta.[lit "content"], str_or_empty delta.[lit "reasoning_content"], fragments)
      | _ => Raise AttributeError
      end
  | _ => Raise AttributeError
  end.

(** What is done before an exception stays done: the outputs, and the new state or the
    exception. *)
Abbreviation outcome := (list output * exn reading)%type (only parsing).

(** Text to speak: through the filter, which may keep it. *)
Definition speak (text : str) (r : reading) : outcome :=
  match push (rd_spoken r) text with
  | Some (out, f) =>
      (match out with [] => [] | _ => [Spoken out] end,
       Ok (mkReading (rd_decoder r) (rd_buffered r) f (rd_calls r) (rd_reasoning r) (rd_assistant r)
             (rd_produced r || negb (bool_decide (out = [])))))
  | None => ([], Raise OtherError)
  end.

(** An item that was parsed.  (None of it raises [KeyError] or [IndexError], which the source
    would skip: the choices are a list of objects, and not empty, when the first is taken.) *)
Definition take_item (item : dict) (r : reading) : outcome :=
  match check_choices item with
  | Raise e => ([], Raise e)
  | Ok [] => (usage_of item, Ok r)
  | Ok choices =>
      match parse_delta choices with
      | Raise e => (usage_of item, Raise e)
      | Ok (delta, reasoning, fragments) =>
          let r' := mkReading (rd_decoder r) (rd_buffered r) (rd_spoken r)
                      (foldl add_fragment (rd_calls r) fragments)
                      (rd_reasoning r ++ reasoning) (rd_assistant r ++ delta) (rd_produced r) in
          match delta with
          | [] => (usage_of item, Ok r')
          | _ => let (o, res) := speak delta r' in (usage_of item ++ o, res)
          end
      end
  end.

(** One line of the body; [None] is the [break] at the last one. *)
Definition take_line (line : str) (r : reading) : option outcome :=
  if negb (starts_with (lit "data:") line) then Some ([], Ok r)
  else
    let data := py_strip (drop 5 line) in
    if data =s lit "[DONE]" then None
    else
      Some (match loads data with
            | Ok (JObj item) => take_item item r
            | Ok _ => ([], Raise AttributeError)
            | Raise _ => ([], Ok r)
            end).

(** ** Reading the body *)

(** How reading goes on after some bytes. *)
Inductive progress : Type := More (r : reading) | Done (r : reading) | Broken (e : pyexc).

Fixpoint take_lines (lines : list str) (r : reading) : list output * progress :=
  match lines with
  | [] => ([], More r)
  | line :: lines =>
      match take_line line r with
      | None => ([], Done r)
      | Some (o, Raise e) => (o, Broken e)
      | Some (o, Ok r') => let (o', p) := take_lines lines r' in (o ++ o', p)
      end
  end.

(** [buffered.split("\n")], and its last element taken off. *)
Definition split_lines (buffered : str) : list str * str :=
  let lines := py_split_char 10 buffered in (removelast lines, List.last lines []).

Definition set_input (d : decoder) (buffered : str) (r : reading) : reading :=
  mkReading d buffered (rd_spoken r) (rd_calls r) (rd_reasoning r) (rd_assistant r) (rd_produced r).

Definition feed (r : reading) (bytes : list Z) : list output * progress :=
  match decode (rd_decoder r) bytes with
  | None => ([], Broken OtherError)
  | Some (text, d) =>
      let (lines, rest) := split_lines (rd_buffered r ++ text) in
      take_lines lines (set_input d rest r)
  end.

(** The chunks of a body, until one ends it. *)
Fixpoint feeds (r : reading) (chunks : list (list Z)) : list output * progress :=
  match chunks with
  | [] => ([], More r)
  | c :: chunks =>
      match feed r c with
      | (o, More r') => let (o', p) := feeds r' chunks in (o ++ o', p)
      | res => res
      end
  end.

(** ** The generator *)

Inductive failure : Type :=
| ConnectionFailed (** [aiohttp.ClientConnectionError] *)
| TimedOut (** [asyncio.TimeoutError] *)
| OtherFailure (e : pyexc).

Inductive phase : Type :=
| Posting (** [session.post(..)] *)
| Draining (** [response.read()] of a status that is retried *)
| Sleeping (** before the next request *)
| Reading (r : reading)
| Finished.

Record stream := mkStream {
  request_index : nat;
  empty_retries_used : Z;
  emitted_output : bool;
  last_reading : reading; (** of the present request: its calls and reasoning *)
  at_ : phase;
}.

Inductive event : Type :=
| Response (status : Z)
| PostFailed (f : failure)
| Drained
| DrainFailed (f : failure)
| Slept
| Bytes (bytes : list Z)
| EndOfBody
| ReadTimedOut (** no output before the deadline, or a timeout of the transport *)
| ReadFailed (f : failure)
| Closed. (** the consumer closes or cancels the generator *)

(** [len(_retry_delays_seconds)] *)
Definition retries : nat := 3.
Definition retryable (status : Z) : bool := existsb (Z.eqb status) [502; 503; 504].

Section generator.
Context (config : llm_config).

Definition max_empty_retries : Z := Z.max 0 (llm_empty_retries config).
Definition max_attempts : nat := retries + 1 + Z.to_nat max_empty_retries.

Definition deepseek : bool := llm_provider config =s lit "deepseek".

(** [sorted(pending_calls)] *)
Fixpoint insert_call (x : Z * pending_call) (l : list (Z * pending_call)) : list (Z * pending_call) :=
  match l with
  | [] => [x]
  | y :: l => if x.1 <=? y.1 then x :: y :: l else y :: insert_call x l
  end.
Definition sorted_calls (l : list (Z * pending_call)) : list (Z * pending_call) := foldr insert_call [] l.

Definition emit_call (r : reading) (x : Z * pending_call) : list output :=
  let (i, c) := x in
  if bool_decide (pc_name c = []) then []
  else [Called (match pc_id c with [] => lit "tool-call-" ++ str_of_Z i | id => id end) (pc_name c)
          (parse_tool_arguments (pc_arguments c))
          (if deepseek then rd_reasoning r else [])
          (if deepseek && negb (bool_decide (rd_assistant r = [])) then Some (rd_assistant r) else None)].

(** After the loop over the requests. *)
Definition finish (s : stream) : stream * list output :=
  (mkStream (request_index s) (empty_retries_used s) (emitted_output s) (last_reading s) Finished,
   sorted_calls (rd_calls (last_reading s)) ≫= emit_call (last_reading s)).

Definition at_phase (p : phase) (s : stream) : stream :=
  mkStream (request_index s) (empty_retries_used s) (emitted_output s) (last_reading s) p.

(** The next turn of the loop, if there is one. *)
Definition next_request (s : stream) : stream * list output :=
  if (S (request_index s) <? max_attempts)%nat
  then (mkStream (S (request_index s)) (empty_retries_used s) (emitted_output s) reading_init Posting, [Posted])
  else finish s.

(** The exceptions of a request: [except (ClientConnectionError, TimeoutError)], and the others. *)
Definition failed (f : failure) (s : stream) : stream * list output :=
  match f with
  | OtherFailure e => (at_phase Finished s, [Failed e])
  | _ =>
      if emitted_output s || (retries <=? request_index s)%nat
      then (at_phase Finished s, [Failed (match f with TimedOut => TimeoutError | _ => HttpError end)])
      else (at_phase Sleeping s, [])
  end.

Definition has_name (x : Z * pending_call) : bool := negb (bool_decide (pc_name x.2 = [])).

(** The body has been read, or reading was given up. *)
Definition body_over (s : stream) : stream * list output :=
  let r := last_reading s in
  let got_tool_calls := existsb has_name (rd_calls r) in
  let sink :=
    if negb (bool_decide (rd_reasoning r = [])) && rd_produced r && negb got_tool_calls
    then [Reasoned (rd_reasoning r)] else [] in
  if negb (rd_produced r) && negb got_tool_calls && (empty_retries_used s <? max_empty_retries)
  then (mkStream (request_index s) (empty_retries_used s + 1) (emitted_output s) r Sleeping, sink)
  else let (s', o) := finish s in (s', sink ++ o).

(** Some bytes have been read. *)
Definition bytes_read (r : reading) (bytes : list Z) (s : stream) : stream * list output :=
  let (o, p) := feed r bytes in
  let emitted := emitted_output s || existsb (λ x, match x with Spoken _ => true | _ => false end) o in
  let after r p := mkStream (request_index s) (empty_retries_used s) emitted r p in
  match p with
  | More r' => (after r' (Reading r'), o)
  | Done r' => let (s', o') := body_over (after r' (Reading r')) in (s', o ++ o')
  | Broken e => (after r Finished, o ++ [Failed e])
  end.

Definition stream_step (s : stream) (e : event) : option (stream * list output) :=
  match e, at_ s with
  | Closed, Finished => None
  | Closed, _ => Some (at_phase Finished s, [])
  | Response status, Posting =>
      Some (if retryable status && (request_index s <? retries)%nat then (at_phase Draining s, [])
            else if 400 <=? status then (at_phase Finished s, [Failed HttpError])
            else (at_phase (Reading reading_init) s, []))
  | PostFailed f, Posting => Some (failed f s)
  | Drained, Draining => Some (at_phase Sleeping s, [])
  | DrainFailed f, Draining => Some (failed f s)
  | Slept, Sleeping => Some (next_request s)
  | Bytes bytes, Reading r => Some (bytes_read r bytes s)
  | (EndOfBody | ReadTimedOut), Reading _ => Some (body_over s)
  | ReadFailed f, Reading _ =>
      Some (match f with TimedOut => body_over s | _ => failed f s end)
  | _, _ => None
  end.

(** The first request is posted when the generator is first asked. *)
Definition stream_init : stream := mkStream 0 0 false reading_init Posting.
End generator.

(** ** Lemmas *)

(** *** Chunks *)

Lemma decode_app d a b :
  decode d (a ++ b) =
  match decode d a with
  | Some (s, d') => match decode d' b with Some (t, d'') => Some (s ++ t, d'') | None => None end
  | None => None
  end.
Proof.
  revert d. induction a as [|x a IH]; intros d; simpl.
  - by destruct (decode d b) as [[t d']|].
  - destruct (decode_byte d x) as [[s d']|]; [|done]. rewrite IH.
    destruct (decode d' a) as [[t d'']|]; [|done]. destruct (decode d'' b) as [[u d3]|]; [|done].
    by rewrite app_assoc.
Qed.

Lemma take_lines_app l1 l2 r :
  take_lines (l1 ++ l2) r =
  match take_lines l1 r with
  | (o, More r') => let (o', p) := take_lines l2 r' in (o ++ o', p)
  | res => res
  end.
Proof.
  revert r. induction l1 as [|x l1 IH]; intros r; simpl; [by destruct (take_lines l2 r)|].
  destruct (take_line x r) as [[o [r'|e]]|]; [|done..]. rewrite IH.
  destruct (take_lines l1 r') as [o1 [r1|r1|e]]; [|done..].
  destruct (take_lines l2 r1) as [o2 p]. by rewrite app_assoc.
Qed.

Definition map_progress (f : reading → reading) (p : progress) : progress :=
  match p with More r => More (f r) | Done r => Done (f r) | Broken e => Broken e end.

Definition map_exn (f : reading → reading) (x : exn reading) : exn reading :=
  match x with Ok r => Ok (f r) | Raise e => Raise e end.

(** The decoder and the buffer do not matter to a line. *)
Lemma take_line_input line d b r :
  take_line line (set_input d b r) =
  match take_line line r with Some (o, x) => Some (o, map_exn (set_input d b) x) | None => None end.
Proof.
  unfold take_line. destruct (negb _); [done|]. case_match; [done|]. destruct (loads _) as [v|e]; [|done].
  destruct v; try done. unfold take_item. destruct (check_choices kvs) as [[|c cs]|e]; [done| |done].
  destruct (parse_delta (c :: cs)) as [[[delta reasoning] frs]|e]; [|done]. destruct delta as [|x delta]; [done|].
  unfold speak. simpl. destruct (push (rd_spoken r) (x :: delta)) as [[out f]|]; done.
Qed.

Lemma take_lines_input lines d b r :
  take_lines lines (set_input d b r) =
  let (o, p) := take_lines lines r in (o, map_progress (set_input d b) p).
Proof.
  revert r. induction lines as [|x lines IH]; intros r; simpl; [done|]. rewrite take_line_input.
  destruct (take_line x r) as [[o [r'|e]]|]; [|done..]. simpl. rewrite IH. by destruct (take_lines lines r').
Qed.

Lemma set_input_twice d b d' b' r : set_input d b (set_input d' b' r) = set_input d b r.
Proof. done. Qed.

(** Splitting goes on where it stopped. *)
Lemma split_lines_app x y :
  split_lines (x ++ y) =
  let (l1, r1) := split_lines x in let (l2, r2) := split_lines (r1 ++ y) in (l1 ++ l2, r2).
Proof.
  unfold split_lines, py_split_char. rewrite (split_char_app 10 x y []) by constructor.
  pose proof (split_char_from_last 10 [] (List.last (split_char_from 10 [] x) [] ++ y)) as Hn.
  destruct (split_char_from 10 [] (_ ++ y)) as [|z zs _] using rev_ind; [done|].
  by rewrite app_assoc, !removelast_last, !last_last.
Qed.

Definition same_progress (p q : progress) : Prop :=
  map_progress (set_input decoder_init []) p = map_progress (set_input decoder_init []) q ∧
  ∀ r, p = More r → p = q.

Lemma take_line_keeps line r o r' :
  take_line line r = Some (o, Ok r') → set_input (rd_decoder r) (rd_buffered r) r' = r'.
Proof.
  intros H. pose proof (take_line_input line (rd_decoder r) (rd_buffered r) r) as Hi.
  replace (set_input (rd_decoder r) (rd_buffered r) r) with r in Hi by by destruct r.
  rewrite H in Hi. simpl in Hi. congruence.
Qed.

Lemma take_lines_keeps lines r o r' :
  take_lines lines r = (o, More r') → rd_decoder r' = rd_decoder r ∧ rd_buffered r' = rd_buffered r.
Proof.
  intros H. pose proof (take_lines_input lines (rd_decoder r) (rd_buffered r) r) as Hi.
  replace (set_input (rd_decoder r) (rd_buffered r) r) with r in Hi by by destruct r.
  rewrite H in Hi. simpl in Hi. injection Hi as ->. done.
Qed.

Lemma feed_app r a b :
  is_Some (decode (rd_decoder r) (a ++ b)) →
  match feed r a with
  | (o, More r') => feed r (a ++ b) = (o ++ fst (feed r' b), snd (feed r' b))
  | (o, p) => (feed r (a ++ b)).1 = o ∧ same_progress (feed r (a ++ b)).2 p
  end.
Proof.
  unfold feed. rewrite decode_app. destruct (decode (rd_decoder r) a) as [[s d]|]; [|by intros [? ?]].
  destruct (decode d b) as [[t d']|] eqn:Ht; [|by intros [? ?]]. intros _.
  rewrite app_assoc, (split_lines_app (rd_buffered r ++ s) t). destruct (split_lines (rd_buffered r ++ s)) as [l1 r1].
  destruct (split_lines (r1 ++ t)) as [l2 r2] eqn:Hl2. cbv beta iota. rewrite take_lines_input, take_lines_app, !take_lines_input.
  destruct (take_lines l1 r) as [o [r'|r'|e]] eqn:H1; simpl; [|split; [done|split; [done|congruence]]..].
  rewrite Ht. simpl. injection Hl2 as -> ->. change (set_input d' r2 (set_input d r1 r')) with (set_input d' r2 r').
  by destruct (take_lines l2 (set_input d' r2 r')).
Qed.


Lemma same_progress_refl p : same_progress p p.
Proof. done. Qed.

(** Nothing read means nothing new; [rd_buffered] is what follows the last line break. *)
Definition settled (r : reading) : Prop := 10 ∉ rd_buffered r.

Lemma split_lines_settled b : 10 ∉ b → split_lines b = ([], b).
Proof.
  intros Hb. unfold split_lines, py_split_char. rewrite <-(app_nil_r b) at 1 2.
  rewrite split_char_word by (apply Forall_forall; intros x Hx ->; done). simpl.
  by rewrite app_nil_r, List.rev_involutive.
Qed.

Lemma split_lines_rest b : 10 ∉ (split_lines b).2.
Proof.
  unfold split_lines, py_split_char. simpl. cut (∀ cur, 10 ∉ cur → 10 ∉ List.last (split_char_from 10 cur b) []).
  { intros H. apply H, not_elem_of_nil. }
  induction b as [|x b IH]; intros cur Hc; simpl.
  - by rewrite list_elem_of_In, <-in_rev, <-list_elem_of_In.
  - destruct (x =? 10) eqn:E.
    + specialize (IH [] (not_elem_of_nil _)). pose proof (split_char_from_last 10 [] b) as Hn.
      by destruct (split_char_from 10 [] b).
    + apply IH. apply Z.eqb_neq in E. intros [Heq|Hin]%elem_of_cons; [congruence|done].
Qed.

Lemma feed_settled r bytes o r' : feed r bytes = (o, More r') → settled r'.
Proof.
  unfold feed. destruct (decode _ _) as [[s d]|]; [|done].
  pose proof (split_lines_rest (rd_buffered r ++ s)) as Hr. destruct (split_lines _) as [l b].
  intros H. apply take_lines_keeps in H as [_ H]. unfold settled. by rewrite H.
Qed.

Lemma feed_nil r : settled r → feed r [] = ([], More r).
Proof. intros Hs. unfold feed. cbn [decode]. rewrite app_nil_r, split_lines_settled by done. by destruct r. Qed.

(** *** Fragments *)

Lemma call_at_update i j f calls :
  call_at i (call_update j f calls) =
  if decide (i = j) then Some (f (default call_init (call_at i calls))) else call_at i calls.
Proof.
  induction calls as [|[k c] calls IH]; simpl.
  - destruct (j =? i) eqn:E; [apply Z.eqb_eq in E as ->; by rewrite decide_True|].
    apply Z.eqb_neq in E. by rewrite decide_False.
  - destruct (k =? j) eqn:E; simpl.
    + apply Z.eqb_eq in E as ->. destruct (j =? i) eqn:E.
      * apply Z.eqb_eq in E as ->. by rewrite decide_True.
      * apply Z.eqb_neq in E. by rewrite decide_False.
    + destruct (k =? i) eqn:E'; [|exact IH]. apply Z.eqb_eq in E' as ->. apply Z.eqb_neq in E.
      by rewrite decide_False.
Qed.

Lemma call_at_fold i frs calls :
  call_at i (foldl add_fragment calls frs) =
  let mine := List.filter (λ fr, fr_index fr =? i) frs in
  match mine with
  | [] => call_at i calls
  | _ => Some (foldl (λ c fr, extend fr c) (default call_init (call_at i calls)) mine)
  end.
Proof.
  revert calls. induction frs as [|fr frs IH]; intros calls; [done|]. cbn [foldl List.filter]. rewrite IH. clear IH.
  unfold add_fragment. rewrite call_at_update. destruct (fr_index fr =? i) eqn:E.
  - apply Z.eqb_eq in E as <-. rewrite decide_True by done. by destruct (List.filter _ frs).
  - apply Z.eqb_neq in E. by rewrite decide_False by congruence.
Qed.

(** *** What the outputs are *)

Definition is_posted (o : output) : bool := match o with Posted => true | _ => false end.
Definition is_spoken (o : output) : bool := match o with Spoken _ => true | _ => false end.
Definition is_called (o : output) : bool := match o with Called _ _ _ _ _ => true | _ => false end.
Definition from_body (o : output) : bool := match o with Observed _ | Spoken _ => true | _ => false end.

Lemma speak_spec text r :
  let (o, x) := speak text r in
  forallb from_body o = true ∧ ∀ r', x = Ok r' → rd_produced r' = rd_produced r || existsb is_spoken o.
Proof.
  unfold speak. destruct (push _ _) as [[out f]|]; [|done]. split; [by destruct out|].
  intros r' [= <-]. simpl. by destruct out.
Qed.

Lemma take_item_spec item r :
  let (o, x) := take_item item r in
  forallb from_body o = true ∧ ∀ r', x = Ok r' → rd_produced r' = rd_produced r || existsb is_spoken o.
Proof.
  assert (forallb from_body (usage_of item) = true ∧ existsb is_spoken (usage_of item) = false) as [Hu Hu'].
  { unfold usage_of. by case_match. }
  unfold take_item. destruct (check_choices item) as [[|c cs]|e]; [|clear Hu' |done].
  { split; [done|]. intros r' [= <-]. by rewrite Hu', orb_false_r. }
  destruct (parse_delta (c :: cs)) as [[[delta reasoning] frs]|e]; [|done].
  assert (existsb is_spoken (usage_of item) = false) as Hu' by (unfold usage_of; by case_match).
  destruct delta as [|x delta].
  { split; [done|]. intros r' [= <-]. by rewrite Hu', orb_false_r. }
  pose proof (speak_spec (x :: delta) (mkReading (rd_decoder r) (rd_buffered r) (rd_spoken r)
    (foldl add_fragment (rd_calls r) frs) (rd_reasoning r ++ reasoning) (rd_assistant r ++ x :: delta)
    (rd_produced r))) as H.
  destruct (speak _ _) as [o res]. destruct H as [Ho Hr]. rewrite forallb_app, Hu, Ho. split; [done|].
  intros r' Heq. by rewrite (Hr r' Heq), existsb_app, Hu'.
Qed.

Lemma take_line_spec line r o x :
  take_line line r = Some (o, x) →
  forallb from_body o = true ∧ ∀ r', x = Ok r' → rd_produced r' = rd_produced r || existsb is_spoken o.
Proof.
  unfold take_line. destruct (negb _).
  { intros [= <- <-]. split; [done|]. intros r' [= <-]. by rewrite orb_false_r. }
  case_match; [done|]. destruct (loads _) as [v|e].
  - destruct v; try (by intros [= <- <-]). pose proof (take_item_spec kvs r) as Hi.
    destruct (take_item kvs r). by intros [= <- <-].
  - intros [= <- <-]. split; [done|]. intros r' [= <-]. by rewrite orb_false_r.
Qed.

Lemma take_lines_spec lines r :
  let (o, p) := take_lines lines r in
  forallb from_body o = true ∧
  ∀ r', p = More r' ∨ p = Done r' → rd_produced r' = rd_produced r || existsb is_spoken o.
Proof.
  revert r. induction lines as [|line lines IH]; intros r; simpl.
  { split; [done|]. intros r' [[= <-]|[=]]. by rewrite orb_false_r. }
  destruct (take_line line r) as [[o [r1|e]]|] eqn:E.
  - apply take_line_spec in E as [Ho Hr]. specialize (IH r1). destruct (take_lines lines r1) as [o' p].
    destruct IH as [Ho' Hr']. rewrite forallb_app, Ho, Ho'. split; [done|]. intros r' H.
    rewrite (Hr' r' H), (Hr r1 eq_refl), existsb_app. by rewrite orb_assoc.
  - apply take_line_spec in E as [Ho _]. split; [done|]. by intros r' [?|?].
  - split; [done|]. intros r' [[=]|[= <-]]. by rewrite orb_false_r.
Qed.

Lemma feed_spec r bytes :
  let (o, p) := feed r bytes in
  forallb from_body o = true ∧
  ∀ r', p = More r' ∨ p = Done r' → rd_produced r' = rd_produced r || existsb is_spoken o.
Proof.
  unfold feed. destruct (decode _ _) as [[s d]|]; [|split; [done|by intros ? [?|?]]].
  destruct (split_lines _) as [l b]. exact (take_lines_spec l (set_input d b r)).
Qed.

(** ** The generator's invariant *)
Section stream_facts.
Context (config : llm_config).

(** A request is only ever repeated before anything was yielded. *)
Definition ordered (o : list output) : Prop :=
  ∀ l1 l2, o = l1 ++ Posted :: l2 → existsb is_spoken l1 = false ∧ existsb is_called l1 = false.

Definition shape (s : stream) : Prop :=
  match at_ s with
  | Reading r => r = last_reading s ∧ rd_produced r = emitted_output s
  | Posting => emitted_output s = false ∧ last_reading s = reading_init
  | Finished => True
  | _ => emitted_output s = false
  end.

Record okay (s : stream) (o : list output) : Prop := mkOkay {
  ok_count : count is_posted o = request_index s;
  ok_index : (request_index s < max_attempts config)%nat;
  ok_emitted : emitted_output s = existsb is_spoken o;
  ok_called : at_ s ≠ Finished → existsb is_called o = false;
  ok_shape : shape s;
  ok_ordered : ordered o;
}.

Lemma ordered_app o o' : ordered o → existsb is_posted o' = false → ordered (o ++ o').
Proof.
  intros Ho Hn l1 l2 H. apply app_eq_inv in H as [(k & -> & H)|(k & -> & ->)].
  - destruct k as [|x k]; simpl in H.
    + destruct o' as [|y o']; [done|]. injection H as <- <-. done.
    + injection H as <- ->. by apply (Ho l1 k).
  - rewrite existsb_app in Hn. simpl in Hn. by rewrite orb_true_r in Hn.
Qed.

Lemma ordered_posted o :
  ordered o → existsb is_spoken o = false → existsb is_called o = false → ordered (o ++ [Posted]).
Proof.
  intros Ho Hs Hc l1 l2. destruct l2 as [|y l2 _] using rev_ind.
  - by intros [-> _]%app_inj_tail.
  - rewrite app_comm_cons, app_assoc. intros [-> _]%app_inj_tail. by apply (Ho l1 l2).
Qed.

Lemma count_none {A} (f : A → bool) l : existsb f l = false → count f l = O.
Proof.
  unfold count. induction l as [|x l IH]; simpl; [done|]. rewrite orb_false_iff. intros [-> Hl]. auto.
Qed.

(** Going on without a request. *)
Lemma okay_next s o s' o' :
  okay s o → request_index s' = request_index s → existsb is_posted o' = false →
  emitted_output s' = emitted_output s || existsb is_spoken o' →
  (at_ s' ≠ Finished → at_ s ≠ Finished ∧ existsb is_called o' = false) → shape s' → okay s' (o ++ o').
Proof.
  intros [Hc Hi He Hcl Hsh Ho] Heq Hp Hem Hca Hs'. split.
  - rewrite count_app, (count_none _ o') by done. lia.
  - lia.
  - by rewrite Hem, He, existsb_app.
  - intros Hf. apply Hca in Hf as [Hf Hn]. by rewrite existsb_app, Hn, Hcl.
  - done.
  - by apply ordered_app.
Qed.

Lemma finish_outputs s :
  existsb is_posted (finish config s).2 = false ∧ existsb is_spoken (finish config s).2 = false.
Proof.
  unfold finish. simpl. generalize (sorted_calls (rd_calls (last_reading s))). intros l.
  induction l as [|[i c] l [IH1 IH2]]; csimpl; [done|]. rewrite !existsb_app, IH1, IH2.
  unfold emit_call. by case_bool_decide.
Qed.

Lemma okay_finish s o : okay s o → let (s', o') := finish config s in okay s' (o ++ o').
Proof.
  intros H. destruct (finish_outputs s) as [Hp Hs]. destruct (finish config s) as [s' o'] eqn:E.
  unfold finish in E. injection E as <- Ho'. apply okay_next with s; try done. simpl in *. by rewrite Hs, orb_false_r.
Qed.

Lemma okay_failed f s o : okay s o → at_ s ≠ Finished → let (s', o') := failed f s in okay s' (o ++ o').
Proof.
  intros H Hn. assert (∀ e, okay (at_phase Finished s) (o ++ [Failed e])) as Hf.
  { intros e. apply okay_next with s; simpl; rewrite ?orb_false_r; done. }
  assert (emitted_output s = false → okay (at_phase Sleeping s) (o ++ [])) as Hs.
  { intros He. apply okay_next with s; simpl; rewrite ?orb_false_r; done. }
  unfold failed. destruct f; [| |apply Hf];
    (destruct (emitted_output s); cbn [orb]; [apply Hf|destruct (retries <=? _)%nat; [apply Hf|by apply Hs]]).
Qed.

Lemma okay_body_over s o :
  okay s o → at_ s = Reading (last_reading s) → let (s', o') := body_over config s in okay s' (o ++ o').
Proof.
  intros H Hat. unfold body_over. set (sink := if negb (bool_decide (rd_reasoning _ = [])) && _ && _ then _ else _).
  assert (existsb is_posted sink = false ∧ existsb is_spoken sink = false ∧ existsb is_called sink = false)
    as (Hp & Hs & Hc) by (unfold sink; by case_match).
  clearbody sink. pose proof (ok_shape _ _ H) as Hsh. unfold shape in Hsh. rewrite Hat in Hsh. destruct Hsh as [_ Hsh].
  assert (okay s (o ++ sink)) as H'.
  { apply okay_next with s; [done|done|done| |by rewrite Hat|unfold shape; by rewrite Hat].
    by rewrite Hs, orb_false_r. }
  destruct (negb (rd_produced (last_reading s)) && _ && _) eqn:E.
  - rewrite !andb_true_iff, negb_true_iff in E. destruct E as [[Hpr _] _]. rewrite <-(app_nil_r sink), app_assoc.
    apply okay_next with s; simpl; [done|done|done|by rewrite orb_false_r|by rewrite Hat|].
    unfold shape. simpl. congruence.
  - pose proof (okay_finish _ _ H') as Hf. destruct (finish config s) as [s' o']. by rewrite app_assoc.
Qed.

Lemma okay_next_request s o :
  okay s o → at_ s = Sleeping → let (s', o') := next_request config s in okay s' (o ++ o').
Proof.
  intros H Hat. unfold next_request. destruct (S (request_index s) <? max_attempts config)%nat eqn:E.
  2: { by apply okay_finish. }
  pose proof (ok_shape _ _ H) as Hsh. unfold shape in Hsh. rewrite Hat in Hsh. apply Nat.ltb_lt in E.
  destruct H as [Hc Hi He Hcl _ Ho]. rewrite Hat in Hcl. rewrite He in Hsh. split; simpl.
  - rewrite count_app, Hc. change (count is_posted [Posted]) with 1%nat. lia.
  - done.
  - rewrite existsb_app, He. simpl. by rewrite orb_false_r.
  - intros _. rewrite existsb_app, Hcl by done. done.
  - unfold shape. simpl. by rewrite He.
  - apply ordered_posted; [done|done|by apply Hcl].
Qed.

Lemma body_no_calls o : forallb from_body o = true → existsb is_posted o = false ∧ existsb is_called o = false.
Proof.
  induction o as [|x o IH]; simpl; [done|]. rewrite andb_true_iff. intros [Hx [-> ->]%IH]. by destruct x.
Qed.

Lemma okay_bytes_read r bytes s o :
  okay s o → at_ s = Reading r → let (s', o') := bytes_read config r bytes s in okay s' (o ++ o').
Proof.
  intros H Hat. unfold bytes_read. pose proof (feed_spec r bytes) as Hf.
  destruct (feed r bytes) as [o1 p]. destruct Hf as [Hb Hr]. apply body_no_calls in Hb as [Hp Hc].
  pose proof (ok_shape _ _ H) as Hsh. unfold shape in Hsh. rewrite Hat in Hsh. destruct Hsh as [_ Hsh].
  change (λ x : output, match x with Spoken _ => true | _ => false end) with is_spoken.
  set (after := λ (r : reading) (p : phase),
    mkStream (request_index s) (empty_retries_used s) (emitted_output s || existsb is_spoken o1) r p). assert (∀ r', p = More r' ∨ p = Done r' → okay (after r' (Reading r')) (o ++ o1)) as Ha.
  { intros r' Hp'. apply okay_next with s; simpl; [done|done|done|done|by rewrite Hat|].
    unfold shape. simpl. by rewrite (Hr r' Hp'), Hsh. }
  destruct p as [r'|r'|e].
  - apply Ha. by left.
  - pose proof (okay_body_over _ _ (Ha r' (or_intror eq_refl)) eq_refl) as Hb.
    destruct (body_over config (after r' (Reading r'))) as [s' o']. by rewrite app_assoc.
  - apply okay_next with s; simpl; [done|done| | |done|done].
    + by rewrite existsb_app, Hp.
    + by rewrite existsb_app, orb_false_r.
Qed.

Lemma stream_okay es s o : run (stream_step config) stream_init es = Some (s, o) → okay s o.
Proof.
  revert es s o. apply run_inv.
  - split; simpl; [done|unfold max_attempts, retries; lia|done|done|done|]. by intros [|? ?] ? ?.
  - intros s o e s' o' H Hs. unfold stream_step in Hs. pose proof (ok_shape _ _ H) as Hsh. unfold shape in Hsh.
    destruct e; destruct (at_ s) eqn:Hat; try done; injection Hs as Hs.
    + destruct Hsh as [He Hl]. repeat case_match; simplify_eq;
        (apply okay_next with s; simpl; rewrite ?orb_false_r; [done..|by rewrite Hat|done]).
    + pose proof (okay_failed f _ _ H) as Hf. rewrite Hs in Hf. apply Hf. congruence.
    + simplify_eq. by apply okay_next with s; simpl; rewrite ?orb_false_r, ?Hat.
    + pose proof (okay_failed f _ _ H) as Hf. rewrite Hs in Hf. apply Hf. congruence.
    + pose proof (okay_next_request _ _ H Hat) as Hf. by rewrite Hs in Hf.
    + pose proof (okay_bytes_read _ bytes _ _ H Hat) as Hf. by rewrite Hs in Hf.
    + pose proof (okay_body_over _ _ H) as Hf. rewrite Hs in Hf. apply Hf. destruct Hsh; congruence.
    + pose proof (okay_body_over _ _ H) as Hf. rewrite Hs in Hf. apply Hf. destruct Hsh; congruence.
    + destruct f; [pose proof (okay_failed ConnectionFailed _ _ H) as Hf
        |pose proof (okay_body_over _ _ H) as Hf|pose proof (okay_failed (OtherFailure e) _ _ H) as Hf];
        rewrite Hs in Hf; apply Hf; try congruence; destruct Hsh; congruence.
    + simplify_eq. by apply okay_next with s; simpl; rewrite ?orb_false_r, ?Hat.
    + simplify_eq. by apply okay_next with s; simpl; rewrite ?orb_false_r, ?Hat.
    + simplify_eq. by apply okay_next with s; simpl; rewrite ?orb_false_r, ?Hat.
    + simplify_eq. by apply okay_next with s; simpl; rewrite ?orb_false_r, ?Hat.
Qed.

(** *** Why a request is repeated *)

Inductive cause : Type := AfterFailure | AfterEmpty.
Definition for_failure (c : cause) : bool := match c with AfterFailure => true | AfterEmpty => false end.
Definition for_empty (c : cause) : bool := negb (for_failure c).

(** A step by which the generator comes to wait for its next request, and what it had seen. *)
Definition repeat_of (e : event) (s' : stream) : list cause :=
  match at_ s', e with
  | Sleeping, (PostFailed _ | Drained | DrainFailed _ | ReadFailed ConnectionFailed) => [AfterFailure]
  | Sleeping, _ => [AfterEmpty]
  | _, _ => []
  end.

Fixpoint repeats (s : stream) (es : list event) : list cause :=
  match es with
  | [] => []
  | e :: es =>
      match stream_step config s e with None => [] | Some (s', _) => repeat_of e s' ++ repeats s' es end
  end.

Lemma repeats_snoc s0 es e s o s' o' :
  run (stream_step config) s0 es = Some (s, o) → stream_step config s e = Some (s', o') →
  repeats s0 (es ++ [e]) = repeats s0 es ++ repeat_of e s'.
Proof.
  revert s0 o. induction es as [|e0 es IH]; intros s0 o; simpl.
  - intros [= -> _] ->. by rewrite app_nil_r.
  - rewrite run_cons. destruct (stream_step config s0 e0) as [[s1 o1]|]; [|done].
    destruct (run _ s1 es) as [[s2 o2]|] eqn:E; [|done]. intros [= -> _] Hs.
    by rewrite (IH _ _ E Hs), app_assoc.
Qed.

Definition asleep (s : stream) : nat := match at_ s with Sleeping => 1 | _ => 0 end.

(** The decisions, the requests and the generator's own counters. *)
Record budget (cs : list cause) (s : stream) : Prop := mkBudget {
  bu_failures : (count for_failure cs ≤ retries)%nat;
  bu_empty : Z.of_nat (count for_empty cs) = empty_retries_used s;
  bu_limit : empty_retries_used s ≤ max_empty_retries config;
  bu_sum : length cs = (count for_failure cs + count for_empty cs)%nat;
  bu_index : (request_index s ≤ length cs)%nat;
  bu_waiting : at_ s ≠ Finished → length cs = (request_index s + asleep s)%nat;
  bu_draining : at_ s = Draining → (request_index s < retries)%nat;
}.

(** A step that decides nothing; one that repeats for a failure, and for an empty answer. *)
Lemma budget_keep cs s s' :
  budget cs s → request_index s' = request_index s → empty_retries_used s' = empty_retries_used s →
  (at_ s' ≠ Finished → at_ s ≠ Finished ∧ asleep s' = asleep s) →
  (at_ s' = Draining → (request_index s < retries)%nat) → budget (cs ++ []) s'.
Proof.
  intros [H1 H2 H3 H4 H5 H6 H7] Hi He Hf Hd. rewrite app_nil_r. split; rewrite ?Hi, ?He; auto.
  intros [Hn Ha]%Hf. rewrite Ha. by apply H6.
Qed.

Lemma budget_failure cs s s' :
  budget cs s → at_ s ≠ Finished → asleep s = O → (request_index s < retries)%nat →
  request_index s' = request_index s → empty_retries_used s' = empty_retries_used s → at_ s' = Sleeping →
  budget (cs ++ [AfterFailure]) s'.
Proof.
  intros [H1 H2 H3 H4 H5 H6 H7] Hn Ha Hlt Hi He Hs. specialize (H6 Hn).
  split; rewrite ?count_app, ?length_app, ?Hi, ?He; unfold count in *; simpl; unfold asleep; rewrite ?Hs; try lia; done.
Qed.

Lemma budget_empty cs s s' :
  budget cs s → at_ s ≠ Finished → asleep s = O → empty_retries_used s < max_empty_retries config →
  request_index s' = request_index s → empty_retries_used s' = empty_retries_used s + 1 → at_ s' = Sleeping →
  budget (cs ++ [AfterEmpty]) s'.
Proof.
  intros [H1 H2 H3 H4 H5 H6 H7] Hn Ha Hlt Hi He Hs. specialize (H6 Hn).
  split; rewrite ?count_app, ?length_app, ?Hi, ?He; unfold count in *; simpl; unfold asleep; rewrite ?Hs; try lia; done.
Qed.

Lemma finish_budget e cs s :
  budget cs s → budget (cs ++ repeat_of e (finish config s).1) (finish config s).1.
Proof. intros H. by apply (budget_keep _ s). Qed.

Lemma failed_budget f e cs s :
  budget cs s → at_ s ≠ Finished → asleep s = O →
  (∀ s', at_ s' = Sleeping → repeat_of e s' = [AfterFailure]) →
  budget (cs ++ repeat_of e (failed f s).1) (failed f s).1.
Proof.
  intros H Hn Ha He. unfold failed. destruct f; [| |by apply (budget_keep _ s)];
    (destruct (emitted_output s || _) eqn:E; [by apply (budget_keep _ s)|]);
    (apply orb_false_iff in E as [_ E%Nat.leb_gt]; cbn [fst]; rewrite He by done; by apply (budget_failure _ s)).
Qed.

Lemma body_over_budget e cs s r :
  budget cs s → at_ s = Reading r →
  (∀ s', at_ s' = Sleeping → repeat_of e s' = [AfterEmpty]) →
  budget (cs ++ repeat_of e (body_over config s).1) (body_over config s).1.
Proof.
  intros H Hat He. unfold body_over. cbv zeta. case_match eqn:E; [|by apply (budget_keep _ s)].
  apply andb_prop in E as [_ E%Z.ltb_lt]. cbn [fst]. rewrite He by done.
  apply (budget_empty _ s); try done; [by rewrite Hat|unfold asleep; by rewrite Hat].
Qed.

Lemma next_request_budget cs s :
  budget cs s → at_ s = Sleeping →
  budget (cs ++ repeat_of Slept (next_request config s).1) (next_request config s).1.
Proof.
  intros H Hat. unfold next_request. destruct (_ <? _)%nat; [|by apply finish_budget].
  destruct H as [H1 H2 H3 H4 H5 H6 _]. rewrite Hat in H6. unfold asleep in H6. rewrite Hat in H6.
  specialize (H6 ltac:(done)). rewrite app_nil_r. split; simpl; auto; try done; intros; unfold asleep; simpl; lia.
Qed.

Lemma bytes_read_budget cs s r bytes :
  budget cs s → at_ s = Reading r →
  budget (cs ++ repeat_of (Bytes bytes) (bytes_read config r bytes s).1) (bytes_read config r bytes s).1.
Proof.
  intros H Hat. unfold bytes_read. destruct (feed r bytes) as [o p]. set (emitted := _ || _).
  assert (∀ r', budget cs (mkStream (request_index s) (empty_retries_used s) emitted r' (Reading r'))) as Ha.
  { intros r'. rewrite <-(app_nil_r cs). apply (budget_keep _ s); try done. intros _.
    unfold asleep. by rewrite Hat. }
  destruct p as [r'|r'|e].
  - unfold repeat_of. cbn [fst at_]. rewrite app_nil_r. apply Ha.
  - assert (∀ s', at_ s' = Sleeping → repeat_of (Bytes bytes) s' = [AfterEmpty]) as He
      by (intros s' E; unfold repeat_of; by rewrite E).
    pose proof (body_over_budget (Bytes bytes) cs _ r' (Ha r') eq_refl He) as Hb.
    destruct (body_over config _) as [s' o']. exact Hb.
  - by apply (budget_keep _ s).
Qed.

Lemma stream_step_budget cs s e s' o :
  budget cs s → stream_step config s e = Some (s', o) → budget (cs ++ repeat_of e s') s'.
Proof.
  intros H Hs. unfold stream_step in Hs.
  assert (∀ s', at_ s' = Sleeping → repeat_of e s' = match e with
    PostFailed _ | Drained | DrainFailed _ | ReadFailed ConnectionFailed => [AfterFailure] | _ => [AfterEmpty] end) as He.
  { intros s1 E. unfold repeat_of. rewrite E. by destruct e; try done; destruct f. }
  assert (∀ x, Some x = Some (s', o) → s' = x.1) as Hx by (intros x; by intros [= ->]).
  assert (asleep s = match at_ s with Sleeping => 1 | _ => 0 end)%nat as Hsl by done.
  destruct e; destruct (at_ s) eqn:Hat; try done; apply Hx in Hs as ->; clear Hx.
  - destruct (retryable status && _) eqn:E; [apply andb_prop in E as [_ E%Nat.ltb_lt]|destruct (400 <=? status)];
      (apply (budget_keep _ s); try done; by rewrite Hat).
  - apply failed_budget; [done|congruence|done|done].
  - rewrite He by done. apply (budget_failure _ s); [done|congruence|done|by apply H|done..].
  - apply failed_budget; [done|congruence|done|done].
  - by apply next_request_budget.
  - by apply bytes_read_budget.
  - by eapply body_over_budget.
  - by eapply body_over_budget.
  - destruct f as [| |e]; [|by eapply body_over_budget|].
    + apply failed_budget; [done|congruence|done|done].
    + by apply (budget_keep _ s).
  - by apply (budget_keep _ s).
  - by apply (budget_keep _ s).
  - by apply (budget_keep _ s).
  - by apply (budget_keep _ s).
Qed.

Lemma stream_budgeted es s o :
  run (stream_step config) stream_init es = Some (s, o) → budget (repeats stream_init es) s.
Proof.
  intros Hrun.
  refine (proj1 (run_hist_inv (stream_step config)
    (λ es s o, budget (repeats stream_init es) s ∧ run (stream_step config) stream_init es = Some (s, o))
    stream_init _ _ es s o Hrun)).
  - split; [|done]. split; simpl; try done; unfold count, retries, max_empty_retries; simpl; lia.
  - intros es0 s0 o0 e s1 o1 [Hb Hr] Hs. split; [|by eapply run_snoc].
    rewrite (repeats_snoc _ _ _ _ _ _ _ Hr Hs). by eapply stream_step_budget.
Qed.

(** ** Theorems *)

(** C20: The generator decides at most three times to repeat its request for a failure, and at most as
    often as is configured for an empty answer; every request after the first follows such a
    decision, and none comes after it has yielded text or a call. *)
Theorem requests_bounded es s o :
  run (stream_step config) stream_init es = Some (s, o) →
  (count for_failure (repeats stream_init es) ≤ 3)%nat ∧
  Z.of_nat (count for_empty (repeats stream_init es)) ≤ Z.max 0 (llm_empty_retries config) ∧
  (count is_posted o ≤ length (repeats stream_init es))%nat ∧ ordered o.
Proof.
  intros H. pose proof (stream_budgeted es s o H) as [H1 H2 H3 H4 H5 _]. apply stream_okay in H as [Hc Hi _ _ _ Ho].
  unfold max_empty_retries in H3. rewrite Hc. split; [done|]. split; [lia|]. split; [lia|done].
Qed.
End stream_facts.

(** C19: Network chunks do not matter: a body that is read in any pieces gives the same output,
    and ends, breaks or goes on in the same way as when it is read at once. *)
Theorem chunks_irrelevant r chunks :
  settled r → is_Some (decode (rd_decoder r) (mjoin chunks)) →
  (feeds r chunks).1 = (feed r (mjoin chunks)).1 ∧ same_progress (feed r (mjoin chunks)).2 (feeds r chunks).2.
Proof.
  revert r. induction chunks as [|c chunks IH]; intros r Hs Hd.
  { change (mjoin []) with (@nil Z). rewrite feed_nil by done. split; [done|apply same_progress_refl]. }
  change (mjoin (c :: chunks)) with (c ++ mjoin chunks) in *. pose proof (feed_app _ _ _ Hd) as H. cbn [feeds].
  destruct (feed r c) as [o [r'|r'|e]] eqn:Hf; [|by destruct H as [-> H]..]. rewrite H. simpl.
  destruct (IH r') as [IH1 IH2].
  - by eapply feed_settled.
  - revert Hf Hd. unfold feed. rewrite decode_app. destruct (decode (rd_decoder r) c) as [[t d]|]; [|done].
    destruct (split_lines _) as [l b]. intros Hf. apply take_lines_keeps in Hf as [-> _]. simpl.
    by destruct (decode d _) as [[? ?]|]; [|intros [? ?]].
  - destruct (feeds r' chunks) as [o' p]. simpl in *. by rewrite IH1.
Qed.

(** A call of a tool is what its fragments say: the fragments of its index, in their order,
    make its name and its arguments, and the last identifier given is its own. *)
Theorem calls_assembled frs i :
  call_at i (foldl add_fragment [] frs) =
  let mine := List.filter (λ fr, fr_index fr =? i) frs in
  match mine with
  | [] => None
  | _ => Some (mkPending (List.last (List.filter (λ x, negb (bool_decide (x = []))) (map fr_id mine)) [])
                 (mjoin (map fr_name mine)) (mjoin (map fr_arguments mine)))
  end.
Proof.
  rewrite call_at_fold. cbv zeta. destruct (List.filter _ frs) as [|fr mine]; [done|]. f_equal.
  generalize (fr :: mine) as l. clear fr mine. intros l. induction l as [|fr l IH] using rev_ind; [done|].
  rewrite foldl_snoc, IH, !map_app, List.filter_app, !join_app. unfold extend. simpl. rewrite !app_nil_r. f_equal.
  destruct (fr_id fr); simpl; [by rewrite app_nil_r|by rewrite last_last].
Qed.

Lemma not_system_filter messages :
  List.filter (λ m, negb (is_system m)) (List.filter (λ m, negb (is_system m)) messages)
  = List.filter (λ m, negb (is_system m)) messages.
Proof. induction messages as [|m l IH]; [done|]. simpl. destruct (is_system m) eqn:E; simpl; [|rewrite E; simpl]; congruence. Qed.

Lemma no_system messages : existsb is_system (List.filter (λ m, negb (is_system m)) messages) = false.
Proof. induction messages as [|m l IH]; [done|]. simpl. destruct (is_system m) eqn:E; simpl; rewrite ?E; done. Qed.

Lemma py_join_has sep x l : x ∈ l → ∃ a b, py_join sep l = a ++ x ++ b.
Proof.
  induction l as [|y l IH]; [by intros H%not_elem_of_nil|]. intros [->|H]%elem_of_cons.
  - destruct l as [|z l]; [exists [], []; simpl; by rewrite app_nil_r|]. by eexists [], _.
  - destruct (IH H) as (a & b & Heq). destruct l as [|z l]; [by apply not_elem_of_nil in H|].
    exists (y ++ sep ++ a), b. change (py_join sep (y :: z :: l)) with (y ++ sep ++ py_join sep (z :: l)).
    by rewrite Heq, <-!app_assoc.
Qed.

(** The provider gets no system message but at the head, every other message in its order,
    and the text of every system message. *)
Theorem messages_normalized messages :
  let sent := _normalize_messages messages in
  existsb is_system (drop 1 sent) = false ∧
  List.filter (λ m, negb (is_system m)) sent = List.filter (λ m, negb (is_system m)) messages ∧
  ∀ m, m ∈ messages → is_system m = true → content_text m ≠ [] →
    ∃ head rest, sent = head :: rest ∧ contains (content_text m) (content_text head) = true.
Proof.
  unfold _normalize_messages. destruct (existsb is_system (drop 1 messages)) eqn:E; simpl.
  2: { split; [done|]. split; [done|]. intros m Hm Hs Hc. destruct messages as [|h messages].
       { by apply not_elem_of_nil in Hm. }
       exists h, messages. split; [done|]. apply elem_of_cons in Hm as [->|Hm].
       - apply contains_true. exists [], []. by rewrite app_nil_r.
       - simpl in E. rewrite drop_0 in E. apply not_true_iff_false in E. destruct E. apply existsb_exists.
         exists m. split; [by apply list_elem_of_In|done]. }
  clear E. set (parts := List.filter _ (map _ _)). set (merged := py_join _ parts).
  assert (∀ m, m ∈ messages → is_system m = true → content_text m ≠ [] → contains (content_text m) merged = true) as Hin.
  { intros m Hm Hs Hc. apply contains_true. apply py_join_has. apply list_elem_of_In, filter_In.
    split; [|by apply negb_true_iff, str_eqb_false].
    apply in_map, filter_In. split; [by apply list_elem_of_In|done]. }
  destruct (merged =s []) eqn:Em.
  - apply str_eqb_true in Em. split; [|split; [apply not_system_filter|]].
    + apply not_true_iff_false. intros (m & Hm & Hs)%existsb_exists.
      pose proof (no_system messages) as H. apply not_true_iff_false in H. apply H, existsb_exists. exists m.
      split; [|done]. rewrite <-(take_drop 1 (List.filter _ _)). apply in_or_app. by right.
    + intros m Hm Hs Hc. specialize (Hin m Hm Hs Hc). rewrite Em in Hin. by destruct (content_text m).
  - simpl. rewrite drop_0. split; [apply no_system|]. split; [apply not_system_filter|].
    intros m Hm Hs Hc. eexists _, _. split; [done|]. specialize (Hin m Hm Hs Hc).
    assert (content_text [(lit "role", JStr (lit "system")); (lit "content", JStr merged)] = merged) as ->; [|done].
    unfold content_text. simpl. unfold str_or_empty. simpl. apply str_eqb_false in Em. by destruct merged.
Qed.

(** ** Runs *)

(** A line of the body, with apostrophes for double quotes. *)
Definition sse (s : String.string) : list Z := utf8_encode (jtext s) ++ [10].

Definition example_llm : llm_config :=
  mkLlmConfig (lit "qwen") (lit "http://llm.example/v1") (lit "qwen") false [] 1.

Definition outputs (es : list event) : option (list output) :=
  snd <$> run (stream_step example_llm) stream_init es.

(** The first answer is empty, the second speaks, with one character cut in two, and calls. *)
Definition greeting : list Z :=
  sse "data: {'choices':[{'delta':{'content':'Grüße! '}}]}" ++
  sse "data: {'choices':[{'delta':{'tool_calls':[{'index':0,'id':'c1','function':{'name':'end_call','arguments':'{'}}]}}]}" ++
  sse "data: {'choices':[{'delta':{'tool_calls':[{'index':0,'function':{'arguments':'}'}}]}}],'usage':null}" ++
  sse "data: [DONE]".

Definition example_stream : list event :=
  [Response 200; EndOfBody; Slept; Response 200; Bytes (take 43 greeting); Bytes (drop 43 greeting)].

Example stream_run :
  outputs example_stream = Some [Posted; Spoken (lit "Grüße! "); Called (lit "c1") (lit "end_call") [] [] None].
Proof. by vm_compute. Qed.

(** The deadline for the first output does not count the fragments of a call: one that is still
    arriving when it passes is yielded with the arguments it has, which are none when their
    text is incomplete. *)
Example call_cut_short :
  outputs [Response 200;
    Bytes (sse "data: {'choices':[{'delta':{'tool_calls':[{'index':0,'id':'c1','function':{'name':'create_ticket','arguments':'{\'title\':'}}]}}]}");
    ReadTimedOut]
  = Some [Called (lit "c1") (lit "create_ticket") [] [] None].
Proof. by vm_compute. Qed.

(** A timeout of the transport in the middle of an answer ends it as if it were complete. *)
Example answer_cut_short :
  outputs [Response 200; Bytes (sse "data: {'choices':[{'delta':{'content':'Your balance is'}}]}"); ReadTimedOut]
  = Some [Spoken (lit "Your balance is")].
Proof. by vm_compute. Qed.

Lemma example_ran es o :
  outputs es = Some o → ∃ s, run (stream_step example_llm) stream_init es = Some (s, o).
Proof. unfold outputs. destruct (run _ _ _) as [[s l]|]; [|done]. intros [= <-]. by exists s. Qed.

Lemma example_stream_ran :
  ∃ s o, run (stream_step example_llm) stream_init example_stream = Some (s, o).
Proof. destruct (example_ran example_stream _ stream_run) as [s H]. eauto. Qed.

Lemma requests_bounded_witness :
  ∃ s o, run (stream_step example_llm) stream_init example_stream = Some (s, o) ∧
    (count for_failure (repeats example_llm stream_init example_stream) ≤ 3)%nat ∧
    Z.of_nat (count for_empty (repeats example_llm stream_init example_stream)) ≤ Z.max 0 (llm_empty_retries example_llm) ∧
    (count is_posted o ≤ length (repeats example_llm stream_init example_stream))%nat ∧ ordered o.
Proof.
  destruct example_stream_ran as (s & o & H). exists s, o. split; [exact H|].
  exact (requests_bounded example_llm example_stream s o H).
Defined.

Lemma chunks_irrelevant_witness :
  let chunks := [take 43 greeting; drop 43 greeting] in
  (feeds reading_init chunks).1 = (feed reading_init (mjoin chunks)).1 ∧
  same_progress (feed reading_init (mjoin chunks)).2 (feeds reading_init chunks).2.
Proof.
  apply (chunks_irrelevant reading_init [take 43 greeting; drop 43 greeting]).
  - apply not_elem_of_nil.
  - vm_compute. eexists. reflexivity.
Defined.

Example deepseek_payload :
  exn_map (map fst)
    (request_payload (λ _, true) (mkLlmConfig [] (lit "https://API.deepseek.com:443/v1") (lit "qwen") true (lit "high") 0)
       [] [JNull] (lit "auto") 180 (JFloat (lit "0.35")))
  = Ok (map lit ["model"; "messages"; "stream"; "stream_options"; "max_tokens"; "thinking"; "reasoning_effort";
                 "tools"; "tool_choice"]%string).
Proof. by vm_compute. Qed.
