(* ===== verification/CallBootstrap.v ===== *)
(** * The signed bootstrap of a call: latency_lab/session_identity.py

    A call may use tools only with a token that the dashboard's server signed for it; the
    worker takes each once.  HMAC-SHA256 is a parameter, and so is [float()], whose values are
    whole numbers of a unit of time ([second] of them make a second): every finite binary64
    number is one for a unit small enough.  The claims are read as UTF-8 ([json.loads] would
    also recognise UTF-16 and UTF-32). *)
From stdpp Require Import base list strings sorting.
From Stdlib Require Import ZArith Lia.
From S2P Require Import Prelude Pystr Json JsonText Bytes.

(** [_used]: when the token of a nonce expires. *)
Abbreviation nonces := (list (str * Z)) (only parsing).

Section bootstrap.
(** [hmac.digest(key, message, "sha256")]; [float(v)], [None] for an infinite value and for
    no number; a second. *)
Context (digest : list Z → list Z → list Z) (py_float : json → exn (option Z)) (second : Z).

(** [base64.urlsafe_b64decode(value + "=" * (-len(value) % 4))] *)
Definition _decode (value : str) : exn (list Z) :=
  match urlsafe_b64decode (value ++ repeat 61 (Z.to_nat (- slen value mod 4))) with
  | Some bytes => Ok bytes
  | None => Raise (ValueError (lit "Incorrect padding"))
  end.

(** [s.encode()], and [s.encode("ascii")]; a [UnicodeError] is a [ValueError]. *)
Definition encode (s : str) : exn (list Z) :=
  if forallb scalar s then Ok (utf8_encode s) else Raise (ValueError (lit "surrogates not allowed")).
Definition encode_ascii (s : str) : exn (list Z) :=
  if forallb (λ c, c <? 128) s then Ok s else Raise (ValueError (lit "ordinal not in range(128)")).

Definition loads_bytes (bytes : list Z) : exn json :=
  match utf8_strict bytes with
  | Some s => loads s
  | None => Raise (ValueError (lit "invalid start byte"))
  end.

Definition nonempty_text (v : json) : bool :=
  match v with JStr s => negb (bool_decide (py_strip s = [])) | _ => false end.

Definition scope_names : list str := map lit ["business_id"; "config_agent_id"; "end_user_id"]%string.

Definition refused : pyexc := ValueError (lit "Invalid or expired call bootstrap. Start a new call.").

(** [encoded, signature = token.split(".")] *)
Definition token_parts (token : str) : exn (str * str) :=
  match py_split_char 46 token with
  | [encoded; signature] => Ok (encoded, signature)
  | _ => Raise (ValueError (lit "not enough values to unpack"))
  end.

(** The claims of a token, if it is signed. *)
Definition signed_claims (token service_token : str) : exn json :=
  do! parts := token_parts token in
  let (encoded, signature) := parts in
  do! service := encode service_token in
  let key := digest service (lit "odion-rvc-session-v1") in
  do! message := encode_ascii encoded in
  do! given := _decode signature in
  if negb (bool_decide (digest key message = given)) then Raise (ValueError (lit "Invalid signature."))
  else do! bytes := _decode encoded in loads_bytes bytes.

(** Claims that are in force at [now], with their nonce and expiry. *)
Definition valid_claims (claims : json) (now : Z) : exn (dict * str * Z) :=
  match claims with
  | JObj d =>
      do! exp := jindex (lit "exp") d in
      do! expiry := py_float exp in
      do! nonce := jindex (lit "nonce") d in
      do! aud := jindex (lit "aud") d in
      if negb (jeq_str aud (lit "odion-rvc-tools")) then Raise (ValueError (lit "Expired call bootstrap.")) else
      match expiry with
      | Some e =>
          if negb ((now <? e) && (e <=? now + 180 * second)) then Raise (ValueError (lit "Expired call bootstrap.")) else
          match nonce with
          | JStr n =>
              if negb ((16 <=? slen n) && (slen n <=? 128)) then Raise (ValueError (lit "Invalid nonce.")) else
              if negb (forallb (λ name, nonempty_text d.[name]) scope_names)
              then Raise (ValueError (lit "Missing call scope.")) else Ok (d, n, e)
          | _ => Raise (ValueError (lit "Invalid nonce."))
          end
      | None => Raise (ValueError (lit "Expired call bootstrap."))
      end
  | _ => Raise TypeError
  end.

(** [except (KeyError, TypeError, UnicodeError, ValueError)] *)
Definition as_refused {A} (m : exn A) : exn A :=
  exn_catch m (λ e, match e with KeyError _ | TypeError | ValueError _ => Raise refused | _ => Raise e end).

Definition drop_expired (now : Z) (used : nonces) : nonces := List.filter (λ x, negb (x.2 <=? now)) used.

(** The nonces afterwards, and the claims or the exception. *)
Definition verify_session_token (token service_token : str) (now : Z) (used : nonces) : nonces * exn dict :=
  if bool_decide (service_token = []) || (16384 <? slen token)
  then (used, Raise (ValueError (lit "Invalid call bootstrap."))) else
  match as_refused (do! claims := signed_claims token service_token in valid_claims claims now) with
  | Raise e => (used, Raise e)
  | Ok (d, nonce, expiry) =>
      let used := drop_expired now used in
      match dget nonce used with
      | Some _ => (used, Raise refused)
      | None => (dset nonce expiry used, Ok d)
      end
  end.

(** [resolve_dispatch] of latency_lab/livekit_worker.py. *)
Definition resolve_dispatch (metadata room_name service_token : str) (now : Z) (used : nonces)
    : nonces * exn dict :=
  match loads (match metadata with [] => lit "{}" | m => m end) with
  | Ok (JObj payload) =>
      let (used, result) := verify_session_token (str_or_empty payload.[lit "session_token"]) service_token now used in
      (used,
       do! identity := result in
       if negb (py_eq identity.[lit "room_name"] (JStr room_name))
          || negb (truthy identity.[lit "participant_identity"])
       then Raise (ValueError (lit "Call bootstrap does not match this room and caller."))
       else Ok identity)
  | Ok _ => (used, Raise AttributeError)
  | Raise e => (used, Raise e)
  end.

(** The dispatches of one process, which share its [_used], each with its time, and what became
    of them.  A worker that runs its jobs in processes of their own has as many [_used]. *)
Fixpoint dispatches (service_token : str) (used : nonces) (calls : list (str * Z))
    : list (str * Z * exn dict) :=
  match calls with
  | [] => []
  | (token, now) :: calls =>
      let (used, result) := verify_session_token token service_token now used in
      (token, now, result) :: dispatches service_token used calls
  end.

(** ** Lemmas *)

Lemma as_refused_Ok {A} (m : exn A) a : as_refused m = Ok a → m = Ok a.
Proof. unfold as_refused, exn_catch. destruct m as [x|[]]; done. Qed.

(** Claims in force, in full. *)
Definition in_force (d : dict) (nonce : str) (expiry now : Z) : Prop :=
  dget (lit "nonce") d = Some (JStr nonce) ∧
  (∃ v, dget (lit "exp") d = Some v ∧ py_float v = Ok (Some expiry)) ∧
  now < expiry ≤ now + 180 * second ∧ 16 ≤ slen nonce ≤ 128 ∧
  dget (lit "aud") d = Some (JStr (lit "odion-rvc-tools")) ∧
  ∀ name, name ∈ scope_names → ∃ s, d.[name] = JStr s ∧ py_strip s ≠ [].

Lemma valid_claims_spec claims now d nonce expiry :
  valid_claims claims now = Ok (d, nonce, expiry) → claims = JObj d ∧ in_force d nonce expiry now.
Proof.
  unfold valid_claims. destruct claims as [| | | | | |kvs]; try done.
  intros (exp & He & (ex & Hf & (n & Hn & (aud & Ha & H)%exn_bind_Ok)%exn_bind_Ok)%exn_bind_Ok)%exn_bind_Ok.
  destruct (jeq_str aud _) eqn:Haud; [|done]. destruct ex as [e|]; [|done]. cbn [negb] in H.
  destruct ((now <? e) && _) eqn:Et; [|done]. destruct n as [| | | |n| |]; try done. cbn [negb] in H.
  destruct ((16 <=? slen n) && _) eqn:El; [|done]. destruct (forallb _ scope_names) eqn:Es; [|done].
  injection H as <- <- <-. split; [done|]. revert He Hn Ha. unfold jindex.
  destruct (dget (lit "exp") kvs) as [v|] eqn:E1; [|done]. destruct (dget (lit "nonce") kvs) eqn:E2; [|done].
  destruct (dget (lit "aud") kvs) as [v'|] eqn:E3; [|done]. intros [= ->] [= ->] [= ->].
  rewrite andb_true_iff, Z.ltb_lt, Z.leb_le in Et. rewrite andb_true_iff, !Z.leb_le in El.
  split; [exact E2|]. split; [by exists exp|]. split; [lia|]. split; [lia|]. split.
  - rewrite E3. unfold jeq_str in Haud. destruct aud; try done. apply str_eqb_true in Haud. by rewrite Haud.
  - intros name Hin. rewrite forallb_forall in Es. specialize (Es name (proj1 (list_elem_of_In _ _) Hin)).
    unfold nonempty_text in Es. destruct kvs.[name] as [| | | |s| |]; try done. exists s. split; [done|].
    by apply negb_true_iff, bool_decide_eq_false in Es.
Qed.

Lemma verify_spec token service_token now used used' d :
  verify_session_token token service_token now used = (used', Ok d) →
  ∃ nonce expiry, signed_claims token service_token = Ok (JObj d) ∧ in_force d nonce expiry now ∧
    dget nonce (drop_expired now used) = None ∧ used' = dset nonce expiry (drop_expired now used).
Proof.
  unfold verify_session_token. case_match; [done|]. destruct (as_refused _) as [[[d' n] e]|x] eqn:E; [|done].
  apply as_refused_Ok, exn_bind_Ok in E as (claims & Hs & Hv). apply valid_claims_spec in Hv as [-> Hv].
  destruct (dget n _) eqn:En; [done|]. intros [= <- <-]. by exists n, e.
Qed.

(** What a refusal leaves. *)
Lemma verify_refused token service_token now used used' e :
  verify_session_token token service_token now used = (used', Raise e) →
  used' = used ∨ used' = drop_expired now used.
Proof.
  unfold verify_session_token. repeat case_match; intros [= <- <-]; auto.
Qed.

Lemma drop_expired_keeps nonce e now used :
  dget nonce used = Some e → now < e → dget nonce (drop_expired now used) = Some e.
Proof.
  intros H Hlt. induction used as [|[k v] used IH]; [done|]. simpl in *.
  destruct (nonce =s k) eqn:Ek.
  - injection H as ->. rewrite (proj2 (Z.leb_gt _ _) Hlt). simpl. by rewrite Ek.
  - destruct (v <=? now); simpl; [|rewrite Ek]; by apply IH.
Qed.

Lemma dispatches_times service_token used calls t n r :
  (t, n, r) ∈ dispatches service_token used calls → (t, n) ∈ calls.
Proof.
  revert used. induction calls as [|[t' n'] calls IH]; intros used; simpl; [by intros H%not_elem_of_nil|].
  destruct (verify_session_token _ _ _ _) as [used' r']. intros [[= -> -> ->]|H]%elem_of_cons; [by left|].
  right. by eapply IH.
Qed.

(** Every accepted token with the nonce of one that was accepted before comes after that one's
    expiry. *)
Lemma nonce_blocked service_token used calls nonce e token now d e' :
  dget nonce used = Some e → StronglySorted Z.le (map snd calls) →
  (token, now, Ok d) ∈ dispatches service_token used calls → in_force d nonce e' now → e ≤ now.
Proof.
  intros Hu Hsort. revert used Hu. induction calls as [|[t n] calls IH]; intros used Hu; simpl;
    [by intros H%not_elem_of_nil|].
  simpl in Hsort. apply StronglySorted_inv in Hsort as [Hsort Hle].
  destruct (verify_session_token t service_token n used) as [used' r] eqn:E. intros Hin Hf.
  destruct (decide (e ≤ n)) as [Hen|Hen].
  { apply elem_of_cons in Hin as [[= -> -> _]|Hin]; [done|]. apply dispatches_times in Hin.
    rewrite Forall_forall in Hle. etrans; [exact Hen|]. apply Hle, list_elem_of_In. apply in_map_iff.
    exists (token, now). split; [done|by apply list_elem_of_In]. }
  assert (n < e) as Hlt by lia. pose proof (drop_expired_keeps nonce e n used Hu Hlt) as Hk.
  destruct r as [d0|x].
  - apply verify_spec in E as (nonce0 & e0 & _ & Hf0 & Hnone & ->).
    assert (nonce ≠ nonce0) as Hne by congruence. apply elem_of_cons in Hin as [[= -> -> ->]|Hin].
    + destruct Hf as [H1 _], Hf0 as [H2 _]. congruence.
    + apply (IH Hsort (dset nonce0 e0 (drop_expired n used))); [|done|done]. by rewrite dget_dset_ne.
  - apply elem_of_cons in Hin as [[=]|Hin]. apply verify_refused in E as [->| ->];
      [exact (IH Hsort used Hu Hin Hf)|exact (IH Hsort _ Hk Hin Hf)].
Qed.

Lemma dispatches_app service_token used calls l1 l2 :
  dispatches service_token used calls = l1 ++ l2 →
  ∃ used' c1 c2, calls = c1 ++ c2 ∧ dispatches service_token used' c2 = l2.
Proof.
  revert used l1. induction calls as [|[t n] calls IH]; intros used l1; simpl.
  - intros H. symmetry in H. apply app_nil in H as [-> ->]. by exists used, [], [].
  - destruct (verify_session_token t service_token n used) as [used' r] eqn:E. destruct l1 as [|x l1]; simpl.
    + intros <-. exists used, [], ((t, n) :: calls). split; [done|]. simpl. by rewrite E.
    + intros [= _ H]. destruct (IH _ _ H) as (u & c1 & c2 & -> & <-). by exists u, ((t, n) :: c1), c2.
Qed.

(** ** Theorems *)

(** Within one process whose clock does not go back a bootstrap is taken once: two dispatches that it
    accepts never have the same claims, and one that brings the nonce of another comes after
    the other has expired. *)
Theorem bootstrap_single_use service_token calls l1 t1 n1 d1 l2 t2 n2 d2 l3 nonce e1 e2 :
  StronglySorted Z.le (map snd calls) →
  dispatches service_token [] calls = l1 ++ (t1, n1, Ok d1) :: l2 ++ (t2, n2, Ok d2) :: l3 →
  in_force d1 nonce e1 n1 → in_force d2 nonce e2 n2 → e1 ≤ n2 ∧ d1 ≠ d2.
Proof.
  intros Hsort H H1 H2. apply dispatches_app in H as (used & c1 & c2 & -> & H).
  rewrite map_app in Hsort. assert (StronglySorted Z.le (map snd c2)) as Hsort2.
  { clear -Hsort. induction (map snd c1); [done|]. apply StronglySorted_inv in Hsort as [Hs _]. auto. }
  destruct c2 as [|[t n] c2]; [done|]. simpl in H.
  destruct (verify_session_token t service_token n used) as [used' r] eqn:E. injection H as -> -> -> H.
  apply verify_spec in E as (nonce' & e' & _ & Hf & _ & ->). simpl in Hsort2.
  apply StronglySorted_inv in Hsort2 as [Hsort2 _].
  assert (nonce' = nonce ∧ e' = e1) as [-> ->].
  { destruct Hf as (Hn & (v & Hv & Hfv) & _), H1 as (Hn' & (v' & Hv' & Hfv') & _). split; congruence. }
  assert (e1 ≤ n2) as Hle.
  { eapply (nonce_blocked service_token _ c2 nonce e1 t2 n2 d2 e2); [by apply dget_dset_eq|done| |done].
    rewrite H. apply elem_of_app. right. by left. }
  split; [done|]. intros ->. destruct H1 as (_ & (v & Hv & Hfv) & _), H2 as (_ & (v' & Hv' & Hfv') & Ht & _).
  assert (e1 = e2) as -> by congruence. lia.
Qed.

(** C35: A dispatch is accepted only with a token whose signature is that of the service, whose
    claims are in force and name a business, an agent and a caller, and which was issued for
    this room. *)
Theorem dispatch_authentic metadata room_name service_token now used used' d :
  resolve_dispatch metadata room_name service_token now used = (used', Ok d) →
  ∃ token encoded signature message service nonce expiry,
    token_parts token = Ok (encoded, signature) ∧ encode_ascii encoded = Ok message ∧
    encode service_token = Ok service ∧ service_token ≠ [] ∧
    _decode signature = Ok (digest (digest service (lit "odion-rvc-session-v1")) message) ∧
    (do! bytes := _decode encoded in loads_bytes bytes) = Ok (JObj d) ∧ in_force d nonce expiry now ∧
    d.[lit "room_name"] = JStr room_name ∧ dget nonce used' = Some expiry.
Proof.
  unfold resolve_dispatch. destruct (loads _) as [[| | | | | |payload]|]; try done.
  set (token := str_or_empty _). destruct (verify_session_token token service_token now used) as [u r] eqn:E.
  destruct r as [identity|]; [|by intros [= _ H]]. simpl. destruct (py_eq identity.[lit "room_name"] (JStr room_name)) eqn:Er;
    [|done]. destruct (truthy _); [|done]. intros [= <- <-].
  assert (service_token ≠ []) as Hne.
  { unfold verify_session_token in E. case_bool_decide; [done|]. done. }
  apply verify_spec in E as (nonce & expiry & Hs & Hf & _ & ->). unfold signed_claims in Hs.
  apply exn_bind_Ok in Hs as ([encoded signature] & Hp & (service & Hse & (message & Hm & (given & Hg & Hs)%exn_bind_Ok)%exn_bind_Ok)%exn_bind_Ok).
  case_bool_decide; [|done]. subst given. exists token, encoded, signature, message, service, nonce, expiry.
  split_and!; try done; [|by apply dget_dset_eq].
  destruct (identity.[lit "room_name"]) as [| | | |s| |]; simpl in Er; try done. by apply str_eqb_true in Er as ->.
Qed.
End bootstrap.

(** ** Runs

    With a digest that only counts, and integers for expiries. *)
Definition example_digest (key message : list Z) : list Z := [Z.of_nat (length message) mod 256].
Definition example_float (v : json) : exn (option Z) :=
  match v with JInt n => Ok (Some n) | _ => Raise TypeError end.

(** The same nonce twice: with expiry 150, and with expiry 300. *)
Definition first_token : str :=
  lit "eyJleHAiOjE1MCwibm9uY2UiOiJub25jZS1ub25jZS0wMDAxIiwiYXVkIjoib2Rpb24tcnZjLXRvb2xzIiwiYnVz" ++
  lit "aW5lc3NfaWQiOiJiMSIsImNvbmZpZ19hZ2VudF9pZCI6ImExIiwiZW5kX3VzZXJfaWQiOiJ1MSIsInJvb21fbmFt" ++
  lit "ZSI6InIxIiwicGFydGljaXBhbnRfaWRlbnRpdHkiOiJwMSJ9.4A".
Definition second_token : str :=
  lit "eyJleHAiOjMwMCwibm9uY2UiOiJub25jZS1ub25jZS0wMDAxIiwiYXVkIjoib2Rpb24tcnZjLXRvb2xzIiwiYnVz" ++
  lit "aW5lc3NfaWQiOiJiMSIsImNvbmZpZ19hZ2VudF9pZCI6ImExIiwiZW5kX3VzZXJfaWQiOiJ1MSIsInJvb21fbmFt" ++
  lit "ZSI6InIxIiwicGFydGljaXBhbnRfaWRlbnRpdHkiOiJwMSJ9.4A".

Definition example_calls : list (str * Z) :=
  [(first_token, 50); (first_token, 60); (second_token, 140); (second_token, 200)].

Definition example_claims (expiry : Z) : dict :=
  [(lit "exp", JInt expiry); (lit "nonce", JStr (lit "nonce-nonce-0001"));
   (lit "aud", JStr (lit "odion-rvc-tools")); (lit "business_id", JStr (lit "b1"));
   (lit "config_agent_id", JStr (lit "a1")); (lit "end_user_id", JStr (lit "u1"));
   (lit "room_name", JStr (lit "r1")); (lit "participant_identity", JStr (lit "p1"))].

Lemma example_dispatches :
  dispatches example_digest example_float 1 (lit "secret") [] example_calls =
  [] ++ (first_token, 50, Ok (example_claims 150)) ::
    [(first_token, 60, Raise refused); (second_token, 140, Raise refused)] ++
    (second_token, 200, Ok (example_claims 300)) :: [].
Proof. by vm_compute. Qed.

(** Another process, whose [_used] is empty, takes the same token while it is in force. *)
Example other_process_takes_again :
  map snd (dispatches example_digest example_float 1 (lit "secret") [] [(first_token, 50)]) = [Ok (example_claims 150)] ∧
  map snd (dispatches example_digest example_float 1 (lit "secret") [] [(first_token, 60)]) = [Ok (example_claims 150)].
Proof. by vm_compute. Qed.

Lemma example_in_force expiry now :
  now < expiry ≤ now + 180 → in_force example_float 1 (example_claims expiry) (lit "nonce-nonce-0001") expiry now.
Proof.
  intros H. split; [done|]. split; [by exists (JInt expiry)|]. split; [lia|]. split; [by vm_compute|]. split; [done|].
  intros name Hn. unfold scope_names in Hn. simpl in Hn.
  repeat (apply elem_of_cons in Hn as [->|Hn]; [eexists; split; [reflexivity|done]|]). by apply not_elem_of_nil in Hn.
Qed.

Lemma bootstrap_single_use_witness : 150 ≤ 200 ∧ example_claims 150 ≠ example_claims 300.
Proof.
  apply (bootstrap_single_use example_digest example_float 1 (lit "secret") example_calls [] first_token 50
    (example_claims 150) [(first_token, 60, Raise refused); (second_token, 140, Raise refused)] second_token 200
    (example_claims 300) [] (lit "nonce-nonce-0001") 150 300).
  - repeat constructor; done.
  - exact example_dispatches.
  - apply example_in_force. lia.
  - apply example_in_force. lia.
Defined.

Definition example_metadata : str := lit "{" ++ [34] ++ lit "session_token" ++ [34; 58; 34] ++ first_token ++ [34] ++ lit "}".

Lemma example_resolved :
  resolve_dispatch example_digest example_float 1 example_metadata (lit "r1") (lit "secret") 50 [] =
    ([(lit "nonce-nonce-0001", 150)], Ok (example_claims 150)).
Proof. by vm_compute. Qed.

Lemma dispatch_authentic_witness :
  ∃ token encoded signature message service nonce expiry,
    token_parts token = Ok (encoded, signature) ∧ encode_ascii encoded = Ok message ∧
    encode (lit "secret") = Ok service ∧ (lit "secret") ≠ [] ∧
    _decode signature = Ok (example_digest (example_digest service (lit "odion-rvc-session-v1")) message) ∧
    (do! bytes := _decode encoded in loads_bytes bytes) = Ok (JObj (example_claims 150)) ∧
    in_force example_float 1 (example_claims 150) nonce expiry 50 ∧
    (example_claims 150).[lit "room_name"] = JStr (lit "r1") ∧
    dget nonce [(lit "nonce-nonce-0001", 150)] = Some expiry.
Proof.
  exact (dispatch_authentic example_digest example_float 1 example_metadata (lit "r1") (lit "secret") 50 []
    [(lit "nonce-nonce-0001", 150)] (example_claims 150) example_resolved).
Defined.

Example wrong_room_refused :
  (resolve_dispatch example_digest example_float 1 example_metadata (lit "r2") (lit "secret") 50 []).2 =
    Raise (ValueError (lit "Call bootstrap does not match this room and caller.")).
Proof. by vm_compute. Qed.
