(* ===== verification/LabConfig.v ===== *)
(** * Configuration: latency_lab/config.py

    The settings of a call come from the environment, from the session's overrides and from
    the agent; the functions that combine them are here, with the settings that they read or
    write.  Settings that are only read from the environment and handed on are left out.  A
    float is the text of its [repr]. *)
From stdpp Require Import base list sets strings.
From Stdlib Require Import ZArith Lia.
From S2P Require Import Prelude Pystr Json.

(** ** Settings *)

(** Addresses and tokens of the platform's services. *)
Record service_settings := mkServices {
  agent_config_api_base_url : str;
  agent_config_service_token : str;
  agent_client_id : str;
  knowledge_service_base_url : str;
  knowledge_service_token : str;
  conversation_service_base_url : str;
  conversation_service_token : str;
  billing_service_base_url : str;
  billing_service_token : str;
}.

Record LabConfig := mkLabConfig {
  services : service_settings;
  speech_language_override : str;
  engagement_enabled : bool;
  inactivity_pilot_agent_ids : list str;
  inactivity_pilot_enabled : bool;
  engagement_tool_seconds : str;
  engagement_idle_seconds : str;
  engagement_max_idle_updates : Z;
  opening_greeting_enabled : bool;
  stt_ws_url : str;
  stt_batch_url : str;
  stt_context : str;
  stt_model : str;
  llm_base_url : str;
  llm_model : str;
  llm_api_key : str;
  llm_provider : str;
  llm_reasoning_effort : str;
  llm_enable_thinking : bool;
  tts_url : str;
  tts_model : str;
  tts_voice : str;
  tts_language : str;
  tts_seed : str;
  hausa_twb_voices_enabled : bool;
  tts_initial_codec_chunk_frames : Z;
}.

(** ** The environment *)

Section environment.
(** [repr(float(s))], if [s] is the text of a float. *)
Context (float_repr : str → option str).

Definition _float (env : environ) (name default_ : str) : str :=
  match float_repr (getenv env name default_) with Some r => r | None => default_ end.

Definition _token (env : environ) (primary fallback : str) : str := getenv env primary (getenv env fallback []).

Definition _url (env : environ) (primary fallback : str) : str := py_rstrip_char 47 (_token env primary fallback).

Definition _bool (env : environ) (name : str) (default_ : bool) : bool :=
  match env name with
  | None => default_
  | Some value => in_strs (py_lower (py_strip value)) [lit "1"; lit "true"; lit "yes"; lit "on"]
  end.

Definition _ids (env : environ) (name : str) : list str :=
  List.filter (λ v, negb (v =s [])) (map py_strip (py_split_char 44 (getenv env name []))).

Definition int_setting (env : environ) (name default_ : str) : exn Z := py_int (JFloat (_float env name default_)).

(** The keys of the dashboard's file. *)
Definition _PLATFORM_ENV_KEYS : list str :=
  map lit ["AGENT_CONFIG_API_BASE_URL"; "AGENT_CONFIG_SERVICE_BASE_URL"; "AGENT_CONFIG_SERVICE_TOKEN";
    "AGENT_CLIENT_ID"; "CONVERSATION_API_BASE_URL"; "CONVERSATION_SERVICE_BASE_URL"; "CONVERSATION_SERVICE_TOKEN";
    "KNOWLEDGE_SERVICE_BASE_URL"; "KNOWLEDGE_SERVICE_TOKEN"]%string.

(** The environment afterwards; [values] is what the file says, if it could be read. *)
Definition load_platform_env (values : option environ) (env : environ) : environ := λ k,
  match values with
  | None => env k
  | Some values =>
      let value := py_strip (default [] (values k)) in
      if in_strs k _PLATFORM_ENV_KEYS && negb (value =s []) && (py_strip (default [] (env k)) =s [])
      then Some value else env k
  end.

(** The services as [lab_config_from_environ] reads them: the client's name keeps the value
    that the class had when it was loaded, in the environment [env0] of that time. *)
Definition read_services (env0 env : environ) : service_settings :=
  mkServices
    (_url env (lit "AGENT_CONFIG_API_BASE_URL") (lit "AGENT_CONFIG_SERVICE_BASE_URL"))
    (_token env (lit "AGENT_CONFIG_SERVICE_TOKEN") (lit "CONVERSATION_SERVICE_TOKEN"))
    (getenv env0 (lit "AGENT_CLIENT_ID") (lit "sales-girl-voice-agent"))
    (py_rstrip_char 47 (getenv env (lit "KNOWLEDGE_SERVICE_BASE_URL") []))
    (_token env (lit "KNOWLEDGE_SERVICE_TOKEN") (lit "CONVERSATION_SERVICE_TOKEN"))
    (_url env (lit "CONVERSATION_SERVICE_BASE_URL") (lit "CONVERSATION_API_BASE_URL"))
    (_token env (lit "CONVERSATION_SERVICE_TOKEN") (lit "AGENT_CONFIG_SERVICE_TOKEN"))
    (_url env (lit "BILLING_SERVICE_BASE_URL") (lit "BILLING_API_BASE_URL"))
    (_token env (lit "BILLING_SERVICE_TOKEN") (lit "CONVERSATION_SERVICE_TOKEN")).

(** [provider], [llm_base_url], [llm_model], [llm_api_key], [llm_enable_thinking] and
    [reasoning_effort] of [lab_config_from_environ]. *)
Record llm_settings := mkLlm {
  ls_provider : str;
  ls_base_url : str;
  ls_model : str;
  ls_api_key : str;
  ls_thinking : bool;
  ls_effort : str;
}.

Definition EFFORTS : list str := [lit "low"; lit "high"; lit "max"].

Definition read_llm (env : environ) : exn llm_settings :=
  let provider := py_lower (py_strip (getenv env (lit "RVC_LAB_LLM_PROVIDER") (lit "qwen"))) in
  if negb (in_strs provider [lit "qwen"; lit "deepseek"])
  then Raise (ValueError (lit "Unsupported RVC_LAB_LLM_PROVIDER: " ++ provider))
  else if provider =s lit "deepseek" then
    let key := py_strip (getenv env (lit "RVC_LAB_DEEPSEEK_API_KEY") []) in
    let effort := py_lower (py_strip (getenv env (lit "RVC_LAB_DEEPSEEK_REASONING_EFFORT") (lit "high"))) in
    if key =s [] then Raise (ValueError (lit "RVC_LAB_DEEPSEEK_API_KEY is required when DeepSeek is selected"))
    else if negb (in_strs effort EFFORTS)
    then Raise (ValueError (lit "RVC_LAB_DEEPSEEK_REASONING_EFFORT must be low, high, or max"))
    else Ok (mkLlm provider
      (py_rstrip_char 47 (getenv env (lit "RVC_LAB_DEEPSEEK_BASE_URL") (lit "https://api.deepseek.com")))
      (py_strip (getenv env (lit "RVC_LAB_DEEPSEEK_MODEL") (lit "deepseek-flash"))) key
      (_bool env (lit "RVC_LAB_DEEPSEEK_THINKING") false) effort)
  else Ok (mkLlm provider
    (py_rstrip_char 47 (getenv env (lit "RVC_LAB_LLM_BASE_URL") (lit "http://102.88.137.124:8080/qwen38/v1")))
    (getenv env (lit "RVC_LAB_LLM_MODEL") (lit "qwen3.8-27b"))
    (getenv env (lit "RVC_LAB_LLM_API_KEY") (lit "local-npu"))
    (_bool env (lit "RVC_LAB_LLM_ENABLE_THINKING") false)
    (py_lower (py_strip (getenv env (lit "RVC_LAB_LLM_REASONING_EFFORT") (lit "high"))))).

Definition lab_config_from_environ (env0 env : environ) : exn LabConfig :=
  do! updates := int_setting env0 (lit "RVC_LAB_ENGAGEMENT_MAX_IDLE_UPDATES") (lit "1") in
  do! frames := int_setting env0 (lit "RVC_LAB_TTS_INITIAL_CODEC_CHUNK_FRAMES") (lit "16") in
  do! llm := read_llm env in
  Ok (mkLabConfig (read_services env0 env) []
    (_bool env0 (lit "RVC_LAB_ENGAGEMENT_ENABLED") false)
    (_ids env0 (lit "RVC_LAB_INACTIVITY_PILOT_AGENT_IDS")) false
    (_float env0 (lit "RVC_LAB_ENGAGEMENT_TOOL_SECONDS") (lit "8.0"))
    (_float env0 (lit "RVC_LAB_ENGAGEMENT_IDLE_SECONDS") (lit "18.0")) updates
    (_bool env0 (lit "RVC_LAB_OPENING_GREETING_ENABLED") true)
    (getenv env0 (lit "RVC_LAB_STT_WS_URL") (lit "ws://102.88.137.124:8080/asr-rt/v1/realtime"))
    (getenv env0 (lit "RVC_LAB_STT_BATCH_URL") (lit "http://102.88.137.124:8080/asr-rt/v1/audio/transcriptions"))
    (py_strip (getenv env0 (lit "RVC_LAB_STT_CONTEXT") []))
    (getenv env0 (lit "RVC_LAB_STT_MODEL") (lit "Qwen3-ASR"))
    (ls_base_url llm) (ls_model llm) (ls_api_key llm) (ls_provider llm) (ls_effort llm) (ls_thinking llm)
    (getenv env0 (lit "RVC_LAB_TTS_URL") (lit "http://102.88.137.124:8080/tts/v1/audio/speech"))
    (getenv env0 (lit "RVC_LAB_TTS_MODEL") (lit "Qwen3-TTS"))
    (getenv env0 (lit "RVC_LAB_TTS_VOICE") (lit "helen-mavino-0030"))
    (getenv env0 (lit "RVC_LAB_TTS_LANGUAGE") (lit "English"))
    (getenv env0 (lit "RVC_LAB_TTS_SEED") [])
    (_bool env (lit "RVC_LAB_ENABLE_HAUSA_TWB_VOICES") false) frames).
End environment.

(** ** Addresses *)

(** [s[: -len(suffix)]] if it ends so. *)
Definition without_suffix (suffix s : str) : option str :=
  if ends_with suffix s then Some (take (length s - length suffix) s) else None.

Definition normalize_llm_base_url (value : str) : str :=
  let url := py_rstrip_char 47 (py_strip value) in
  default url (without_suffix (lit "/chat/completions") url).

Definition normalize_stt_ws_url (value : str) : str :=
  let url := py_strip value in
  let url := if starts_with (lit "http://") url then lit "ws://" ++ drop 7 url
             else if starts_with (lit "https://") url then lit "wss://" ++ drop 8 url
             else url in
  let trimmed := py_rstrip_char 47 url in
  if ends_with (lit "/v1") trimmed || ends_with (lit "/asr-rt/v1") trimmed
     || ends_with (lit "/whisper-rt/v1") trimmed
  then trimmed ++ lit "/realtime" else url.

(** [s.replace(old, new)], for a nonempty [old]: [skip] characters of a match are left. *)
Fixpoint replace_from (old new : str) (skip : nat) (s : str) : str :=
  match s with
  | [] => []
  | c :: s' =>
      match skip with
      | S skip => replace_from old new skip s'
      | O => if starts_with old s then new ++ replace_from old new (pred (length old)) s'
             else c :: replace_from old new 0 s'
      end
  end.
Definition py_replace (old new s : str) : str := replace_from old new 0 s.

(** With the model and the address, those of the configuration where they are empty. *)
Definition uses_realtime_stt_final (config : option LabConfig) (model ws_url : str) : bool :=
  let of_config f := match config with Some c => f c | None => [] end in
  let resolved_model := py_lower (if model =s [] then of_config stt_model else model) in
  let resolved_url := py_lower (if ws_url =s [] then of_config stt_ws_url else ws_url) in
  contains (lit "whisper") resolved_model || contains (lit "whisper-rt") resolved_url.

Definition derive_stt_batch_url (ws_url : str) : str :=
  if uses_realtime_stt_final None [] ws_url then []
  else
    let http_url := py_rstrip_char 47
      (py_replace (lit "wss://") (lit "https://") (py_replace (lit "ws://") (lit "http://") ws_url)) in
    default http_url (without_suffix (lit "/realtime") http_url) ++ lit "/audio/transcriptions".

Definition normalize_tts_language (value : json) : str :=
  let normalized := py_lower (str_strip value) in
  if in_strs normalized (map lit ["fr"; "fra"; "fre"; "french"; "français"; "francais"]%string) then lit "French"
  else if in_strs normalized (map lit ["en"; "eng"; "english"]%string) then lit "English"
  else if in_strs normalized (map lit ["yo"; "yor"; "yoruba"; "yorùbá"]%string) then lit "Yoruba"
  else if in_strs normalized (map lit ["ha"; "hau"; "hausa"]%string) then lit "Hausa"
  else match str_strip value with [] => lit "English" | v => v end.

(** ** Overrides *)

(** The new value, unless it is empty. *)
Definition given (value old : str) : str := if value =s [] then old else value.

Definition all_digits (s : str) : bool := negb (s =s []) && forallb is_digit s.

Definition apply_runtime_overrides (c : LabConfig) (overrides language : json) : exn LabConfig :=
  let payload := dict_or_empty overrides in
  let text k := str_strip payload.[lit k] in
  let engagement := payload.[lit "engagement_enabled"] in
  let voice := str_strip (jor payload.[lit "tts_voice_id"] payload.[lit "tts_voice"]) in
  let thinking := py_lower (text "llm_disable_thinking") in
  let authoritative := llm_provider c =s lit "deepseek" in
  let ws_url := normalize_stt_ws_url (text "stt_base_url") in
  let tts_frames := text "tts_initial_codec_chunk_frames" in
  do! frames := (if all_digits tts_frames then py_int (JStr tts_frames) else Ok (tts_initial_codec_chunk_frames c)) in
  Ok (mkLabConfig (services c)
    (if truthy payload.[lit "tts_language_hint"] then py_str payload.[lit "tts_language_hint"]
     else speech_language_override c)
    (if is_false engagement || jeq_str engagement (lit "false") then false else engagement_enabled c)
    (inactivity_pilot_agent_ids c) (inactivity_pilot_enabled c)
    (engagement_tool_seconds c) (engagement_idle_seconds c) (engagement_max_idle_updates c)
    (opening_greeting_enabled c)
    (if text "stt_base_url" =s [] then stt_ws_url c else ws_url)
    (if uses_realtime_stt_final (Some c) (text "stt_model") (text "stt_base_url") then []
     else if text "stt_base_url" =s [] then stt_batch_url c else derive_stt_batch_url ws_url)
    (given (text "stt_context") (stt_context c))
    (given (text "stt_model") (stt_model c))
    (if authoritative || (text "llm_base_url" =s []) then llm_base_url c else normalize_llm_base_url (text "llm_base_url"))
    (if authoritative then llm_model c else given (text "llm_model") (llm_model c))
    (if authoritative then llm_api_key c else given (text "llm_api_key") (llm_api_key c))
    (llm_provider c) (llm_reasoning_effort c)
    (if authoritative then llm_enable_thinking c
     else if in_strs thinking (map lit ["true"; "1"; "yes"; "on"]%string) then false
     else if in_strs thinking (map lit ["false"; "0"; "no"; "off"]%string) then true
     else llm_enable_thinking c)
    (given (text "tts_base_url") (tts_url c))
    (given (text "tts_model") (tts_model c))
    (given voice (tts_voice c))
    (if truthy language then normalize_tts_language language else tts_language c)
    (given (text "tts_seed") (tts_seed c)) (hausa_twb_voices_enabled c) frames).

(** ** The agent's voice and the inactivity pilot *)

Definition _AGENT_VOICE_ALLOWLIST_DEFAULT : str :=
  lit "helen-mavino-0030,wema-en-ng-female,wema-en-ng-male,wema-en-us-female,wema-en-us-male,wema-en-ng-female-short,wema-en-ng-male-short,wema-en-us-female-short,wema-en-us-male-short,access-ghana-cindy".

Definition agent_voice_allowlist (env : environ) : list str :=
  List.filter (λ v, negb (v =s []))
    (map (λ v, py_lower (py_strip v))
       (py_split_char 44 (getenv env (lit "RVC_LAB_AGENT_VOICES") _AGENT_VOICE_ALLOWLIST_DEFAULT))).

Definition set_voice (voice : str) (c : LabConfig) : LabConfig :=
  mkLabConfig (services c) (speech_language_override c) (engagement_enabled c) (inactivity_pilot_agent_ids c)
    (inactivity_pilot_enabled c) (engagement_tool_seconds c) (engagement_idle_seconds c)
    (engagement_max_idle_updates c) (opening_greeting_enabled c) (stt_ws_url c) (stt_batch_url c) (stt_context c)
    (stt_model c) (llm_base_url c) (llm_model c) (llm_api_key c) (llm_provider c) (llm_reasoning_effort c)
    (llm_enable_thinking c) (tts_url c) (tts_model c) voice (tts_language c) (tts_seed c)
    (hausa_twb_voices_enabled c) (tts_initial_codec_chunk_frames c).

Definition session_voice (overrides : json) : str :=
  let payload := dict_or_empty overrides in
  str_strip (jor payload.[lit "tts_voice_id"] payload.[lit "tts_voice"]).

Definition apply_agent_configured_voice (env : environ) (c : LabConfig) (tts_voice_id : str) (overrides : json)
    : LabConfig :=
  if negb (session_voice overrides =s []) then c
  else
    let configured := py_strip tts_voice_id in
    if (configured =s []) || negb (in_strs (py_lower configured) (agent_voice_allowlist env)) then c
    else set_voice configured c.

Definition set_pilot (c : LabConfig) : LabConfig :=
  mkLabConfig (services c) (speech_language_override c) true (inactivity_pilot_agent_ids c) true
    (lit "10.0") (lit "10.0") 1 (opening_greeting_enabled c) (stt_ws_url c) (stt_batch_url c) (stt_context c)
    (stt_model c) (llm_base_url c) (llm_model c) (llm_api_key c) (llm_provider c) (llm_reasoning_effort c)
    (llm_enable_thinking c) (tts_url c) (tts_model c) (tts_voice c) (tts_language c) (tts_seed c)
    (hausa_twb_voices_enabled c) (tts_initial_codec_chunk_frames c).

Definition for_inactivity_pilot (c : LabConfig) (agent_id : str) (is_browser is_sip : bool) : LabConfig :=
  let selected := in_strs (lit "*") (inactivity_pilot_agent_ids c)
                  || in_strs agent_id (inactivity_pilot_agent_ids c) in
  if negb (is_browser || is_sip) || negb selected then c else set_pilot c.

(** ** Properties *)

(** An occurrence of [w] does not span a character that [w] has not. *)
Lemma contains_around w a c b : c ∉ w → contains w (a ++ c :: b) = true → contains w a = true ∨ contains w b = true.
Proof.
  intros Hc (p & q & E)%contains_true. rewrite !contains_true.
  apply app_eq_inv in E as [(k & -> & E)|(k & -> & E)].
  - left. apply app_eq_inv in E as [(k' & -> & E)|(k' & -> & E)].
    + destruct k' as [|z k']; [exists p, []; by rewrite !app_nil_r|].
      injection E as <- _. destruct Hc. rewrite elem_of_app. right. by left.
    + by exists p, k'.
  - right. destruct k as [|x k]; simpl in E.
    + destruct w as [|y w]; simpl in E; [by exists [], b|]. injection E as <- _. destruct Hc. by left.
    + injection E as _ ->. by exists k, q.
Qed.

Lemma contains_lower_infix w p s q : contains w (py_lower s) = true → contains w (py_lower (p ++ s ++ q)) = true.
Proof.
  rewrite !contains_true, !py_lower_app. intros (a & b & ->).
  exists (py_lower p ++ a), (b ++ py_lower q). by rewrite <-!app_assoc.
Qed.

(** A new scheme in front of a tail of [s] brings no occurrence that [s] has not. *)
Lemma contains_scheme w scheme n s :
  (47 ∉ w) → contains w (py_lower scheme) = false →
  contains w (py_lower ((scheme ++ [47]) ++ drop n s)) = true → contains w (py_lower s) = true.
Proof.
  intros Hw Hp H. rewrite !py_lower_app, <-app_assoc in H. apply contains_around in H as [H|H]; [congruence| |done].
  rewrite <-(take_drop n s), <-(app_nil_r (drop n s)). by apply contains_lower_infix.
Qed.

(** Normalising an address brings no occurrence of a word without slashes. *)
Lemma normalized_keeps w url :
  (47 ∉ w) → contains w (py_lower (lit "ws:/")) = false → contains w (py_lower (lit "wss:/")) = false →
  contains w (lit "realtime") = false →
  contains w (py_lower (normalize_stt_ws_url url)) = true → contains w (py_lower url) = true.
Proof.
  intros Hw H1 H2 H3. unfold normalize_stt_ws_url.
  set (stripped := py_strip url). set (u := if starts_with (lit "http://") stripped then _ else _).
  assert (contains w (py_lower u) = true → contains w (py_lower url) = true) as Hu.
  { intros H. destruct (strip_by_infix is_space url) as (a & b & ->). apply contains_lower_infix.
    fold (py_strip url). fold stripped. revert H. unfold u.
    destruct (starts_with (lit "http://") stripped); [by apply (contains_scheme w (lit "ws:/"))|].
    destruct (starts_with (lit "https://") stripped); [by apply (contains_scheme w (lit "wss:/"))|done]. }
  destruct (_ || _); [|done]. rewrite py_lower_app.
  assert (py_lower (lit "/realtime") = 47 :: lit "realtime") as -> by by vm_compute.
  intros [H|H]%contains_around; [|by rewrite H in H3|done].
  apply Hu. destruct (rstrip_prefix (Z.eqb 47) u) as (k & E & _). rewrite E. fold (py_rstrip_char 47 u).
  by apply (contains_lower_infix w []).
Qed.

(** C34: What a session's overrides can reach.  They change neither the platform's services nor
    the provider, they can switch the engagement off but not on, they leave the provider's
    address, model, key and thinking alone when the operator selected DeepSeek, and a call
    that ends up with a recogniser of the realtime kind has no batch address. *)
Theorem overrides_bounded c overrides language c' :
  apply_runtime_overrides c overrides language = Ok c' →
  services c' = services c ∧ llm_provider c' = llm_provider c ∧
  inactivity_pilot_enabled c' = inactivity_pilot_enabled c ∧
  (engagement_enabled c' = true → engagement_enabled c = true) ∧
  (llm_provider c = lit "deepseek" →
   llm_base_url c' = llm_base_url c ∧ llm_model c' = llm_model c ∧ llm_api_key c' = llm_api_key c
   ∧ llm_enable_thinking c' = llm_enable_thinking c) ∧
  (uses_realtime_stt_final (Some c') [] [] = true → stt_batch_url c' = []).
Proof.
  unfold apply_runtime_overrides. rewrite exn_bind_Ok. intros (frames & _ & [= <-]). cbn.
  split_and!; try done.
  - by destruct (_ || _).
  - intros ->. by rewrite str_eqb_refl.
  - unfold uses_realtime_stt_final, given. cbn [stt_model stt_ws_url]. rewrite str_eqb_refl. intros H.
    match goal with |- (if ?b then _ else _) = _ => assert (b = true) as ->; [|done] end.
    apply orb_true_iff in H as [H|H]; apply orb_true_iff; [by left|right].
    revert H. destruct (_ =s _); [done|].
    apply normalized_keeps; vm_compute; try done. set_solver.
Qed.

Definition example_services : service_settings := mkServices [] [] [] [] [] [] [] [] [].
Definition example_lab_config : LabConfig :=
  mkLabConfig example_services [] true [lit "agent-1"] false (lit "8.0") (lit "18.0") 1 true
    (lit "ws://stt/asr-rt/v1/realtime") (lit "http://stt/asr-rt/v1/audio/transcriptions") [] (lit "Qwen3-ASR")
    (lit "https://api.deepseek.com") (lit "deepseek-flash") (lit "key") (lit "deepseek") (lit "high") false
    (lit "http://tts") (lit "Qwen3-TTS") (lit "helen-mavino-0030") (lit "English") [] false 16.
Definition example_overrides : json :=
  JObj [(lit "engagement_enabled", JBool false); (lit "llm_base_url", JStr (lit "http://elsewhere"));
        (lit "stt_base_url", JStr (lit "https://host/whisper-rt/v1/")); (lit "tts_voice", JStr (lit " helen "))].

Example overrides_applied :
  (λ c, (engagement_enabled c, llm_base_url c, (stt_ws_url c, stt_batch_url c), tts_voice c, tts_language c))
    <$> match apply_runtime_overrides example_lab_config example_overrides (JStr (lit "fr")) with
        | Ok c => Some c | Raise _ => None end
  = Some (false, lit "https://api.deepseek.com", (lit "wss://host/whisper-rt/v1/realtime", []), lit "helen", lit "French").
Proof. by vm_compute. Qed.

Lemma overrides_bounded_witness :
  ∃ c', apply_runtime_overrides example_lab_config example_overrides (JStr (lit "fr")) = Ok c'
    ∧ llm_api_key c' = lit "key" ∧ stt_batch_url c' = [] ∧ services c' = example_services.
Proof.
  eexists. split; [vm_compute; reflexivity|].
  edestruct (overrides_bounded example_lab_config example_overrides (JStr (lit "fr"))) as (Hs & _ & _ & _ & Hd & Hb);
    [vm_compute; reflexivity|].
  split; [by apply Hd|]. split; [apply Hb; by vm_compute|exact Hs].
Defined.

(** Digits that are no decimals pass [isdigit] and are refused by [int]: such an override ends
    the call. *)
Lemma superscript_frames :
  apply_runtime_overrides example_lab_config
    (JObj [(lit "tts_initial_codec_chunk_frames", JStr [178])]) (JStr (lit "en"))
  = Raise (ValueError (lit "invalid literal for int()")).
Proof. by vm_compute. Qed.

(** The voice of a call: the session's choice, else the agent's, if it is an enrolled one, else
    the operator's. *)
Lemma configured_voice env c voice overrides :
  let c' := apply_agent_configured_voice env c voice overrides in
  (session_voice overrides ≠ [] → c' = c) ∧
  (tts_voice c' = tts_voice c ∨
   tts_voice c' = py_strip voice ∧ py_lower (py_strip voice) ∈ agent_voice_allowlist env).
Proof.
  simpl. unfold apply_agent_configured_voice. split.
  - intros H. apply str_eqb_false in H. by rewrite H.
  - destruct (negb _); [by left|]. destruct (py_strip voice =s []); [by left|]. cbn [orb].
    destruct (in_strs _ _) eqn:E; [right|by left]. split; [done|]. by apply in_strs_true.
Qed.

(** The pilot needs the operator to have listed the agent. *)
Lemma pilot_selected c agent browser sip :
  let c' := for_inactivity_pilot c agent browser sip in
  c' = c ∨ c' = set_pilot c ∧ (browser = true ∨ sip = true) ∧
    (lit "*" ∈ inactivity_pilot_agent_ids c ∨ agent ∈ inactivity_pilot_agent_ids c).
Proof.
  simpl. unfold for_inactivity_pilot. destruct (browser || sip) eqn:E; [|by left]. cbn [negb orb].
  destruct (in_strs _ _ || _) eqn:E2; [right|by left]. split; [done|]. apply orb_true_iff in E, E2.
  by rewrite !in_strs_true in E2.
Qed.

(** DeepSeek is never used without a key or with an effort it does not know. *)
Lemma deepseek_complete env l :
  read_llm env = Ok l → ls_provider l = lit "deepseek" → ls_api_key l ≠ [] ∧ ls_effort l ∈ EFFORTS.
Proof.
  unfold read_llm. destruct (negb _); [done|]. destruct (_ =s lit "deepseek") eqn:E.
  - destruct (_ =s []) eqn:Ek; [done|]. destruct (negb (in_strs _ EFFORTS)) eqn:Ee; [done|].
    intros [= <-] _. cbn. apply str_eqb_false in Ek. apply negb_false_iff, in_strs_true in Ee. done.
  - intros [= <-] Hd. cbn in Hd. by rewrite Hd, str_eqb_refl in E.
Qed.

(** [AGENT_CLIENT_ID] of the dashboard's file is put into the environment and never read: the
    configuration built afterwards keeps the name of the time its class was loaded. *)
Lemma client_id_of_file_ignored env0 values :
  agent_client_id (read_services env0 (load_platform_env (Some values) env0))
  = getenv env0 (lit "AGENT_CLIENT_ID") (lit "sales-girl-voice-agent").
Proof. done. Qed.
