(* ===== verification/Worker.v ===== *)
(** * The life of a call: entrypoint of latency_lab/livekit_worker.py

    A job takes a call from its dispatch to the room's end: it finds out who calls and for
    whom, reserves what the call needs, loads the agent, starts the pipeline, feeds it the
    caller's audio and messages, and cleans up whatever happened.  It is a coroutine on the
    loop of Coroutines.v (its task 0), with the tasks it starts and the callbacks of the room and of the
    pipeline as calls from outside; any task may be cancelled at any time ([CCancel]).  What
    the LiveKit SDK answers, the clock and the noise filter's output are answers from outside.
    The passkey demonstration, the trace, the final report and the inside of the audio
    transport are left out. *)
From stdpp Require Import base list gmap strings.
From Stdlib Require Import ZArith Lia.
From S2P Require Import Prelude Pystr Json JsonText SipRouting SipBootstrap RoomNames Agentic Passkey CallBootstrap.
From S2P Require Import LabConfig Outbound Coroutines.

(** ** State *)

(** What the transport and the pipeline were made with. *)
Record call_parts := mkParts {
  sip_call : bool;
  identity : dict;
  agent_context : AgentRuntimeContext;
  passkey_flow : bool; (** [pipeline.passkey is not None] *)
}.

(** The variables of [entrypoint] that more than one task, or the cleanup, uses. *)
Record job := mkJob {
  capacity_reservation_id : str;
  capacity_heartbeat_stop : bool;
  capacity_heartbeat_task : option nat;
  disconnected : bool;
  ready : bool;
  input_lock : option nat; (** the task that holds it *)
  outbound_claim : dict;
  outbound_call_ref : str;
  failure_reason : str;
  job_tasks : list nat; (** [tasks] *)
  source : bool;
  stream : bool;
  participant : option str; (** whose [participant_disconnected] is listened for *)
  transport : option call_parts;
  pipeline : option call_parts;
  text_handler : bool;
  data_handler : bool;
  handoff_active : bool;
}.

Definition job_init : job :=
  mkJob [] false None false false None [] [] [] [] false false None None None false false false.

Inductive effect : Type :=
| Connect | Disconnect
| AskHeaders | AskRoute (url number : str)
| AskAgent (r : http_request)
| Capacity (action id : str) (p : service_post)
| ClaimOutbound (p : service_post)
| Claimed (claim : dict) (** [outbound_claim] is set *)
| RefuseOutbound (ref : str) (p : service_post) (** [finish_call] of [claim_for_route] *)
| FinishOutbound (ref status : str) (p : service_post)
| Serving (who : str) (** the room's callbacks are registered for this participant *)
| PipelineMade (config : LabConfig) (parts : call_parts)
| PipelineStart | PipelineClose
(** Task [t] calls the pipeline, and is back from it. *)
| PipelineText (t : nat) (sender text : str) | PipelineAudio (t : nat) (pcm : list Z) | InputOver (t : nat)
| Greet
| PasskeyPacket (who : str) | PlaybackAck (who : str)
| MarkTransfer (reason : str) (result : dict)
| CreateSip (r : sip_request) | RemoveParticipant (room who : str)
| DeleteRoom
(** What the services answered to the claims, and that a dialled number was answered. *)
| CapacityAnswer (id : str) (answer : exn (Z * exn json))
| ClaimAnswer (answer : exn (Z * exn json))
| SipAnswer (r : sip_request) (participant_identity sip_call_id : str).

Inductive wrequest : Type :=
| QUnit (** a call of the SDK or of the pipeline of which only the end matters *)
| QParticipant | QHeaders | QHttp | QSip | QClose
| QTimer (** the interval of the heartbeat *)
| QFrame | QText.

Inductive wreply : Type :=
| RUnit
| RParticipant (p : sip_participant)
| RHeaders (result : json)
| RHttp (code : Z) (body : exn json)
| RSip (participant_identity sip_call_id : str)
| RClosed (conversation_id : json)
| RFrame (pcm : list Z) | REnd (tail : list Z) (** through the noise filter *)
| RText (chunk : option str).

Definition waccepts (q : wrequest) (a : exn wreply) : bool :=
  match a with
  | Raise _ => true
  | Ok v =>
      match q, v with
      | (QUnit | QTimer), RUnit | QParticipant, RParticipant _ | QHeaders, RHeaders _ | QHttp, RHttp _ _
      | QSip, RSip _ _ | QClose, RClosed _ | QFrame, (RFrame _ | REnd _) | QText, RText _ => true
      | _, _ => false
      end
  end.

Inductive wloop : Type :=
| LLease (** [maintain_capacity_lease] *)
| LAudio (** [receive_audio] *)
| LText (sender text : str). (** the chunks of [receive_text] *)

Abbreviation wco := (@co job effect wrequest wreply wloop) (only parsing).
Abbreviation wcont := (wreply → @co job effect wrequest wreply wloop) (only parsing).
Abbreviation whandler := (pyexc → @co job effect wrequest wreply wloop) (only parsing).

(** ** Updates *)

Definition set_reservation (id : str) (j : job) : job :=
  mkJob id (capacity_heartbeat_stop j) (capacity_heartbeat_task j) (disconnected j)
    (ready j) (input_lock j) (outbound_claim j) (outbound_call_ref j) (failure_reason j) (job_tasks j) (source j)
    (stream j) (participant j) (transport j) (pipeline j) (text_handler j) (data_handler j) (handoff_active j).
Definition set_stop (j : job) : job :=
  mkJob (capacity_reservation_id j) true (capacity_heartbeat_task j) (disconnected j)
    (ready j) (input_lock j) (outbound_claim j) (outbound_call_ref j) (failure_reason j) (job_tasks j) (source j)
    (stream j) (participant j) (transport j) (pipeline j) (text_handler j) (data_handler j) (handoff_active j).
Definition set_heartbeat (t : nat) (j : job) : job :=
  mkJob (capacity_reservation_id j) (capacity_heartbeat_stop j) (Some t) (disconnected j)
    (ready j) (input_lock j) (outbound_claim j) (outbound_call_ref j) (failure_reason j) (job_tasks j) (source j)
    (stream j) (participant j) (transport j) (pipeline j) (text_handler j) (data_handler j) (handoff_active j).
Definition set_disconnected (j : job) : job :=
  mkJob (capacity_reservation_id j) (capacity_heartbeat_stop j) (capacity_heartbeat_task j) true
    (ready j) (input_lock j) (outbound_claim j) (outbound_call_ref j) (failure_reason j) (job_tasks j) (source j)
    (stream j) (participant j) (transport j) (pipeline j) (text_handler j) (data_handler j) (handoff_active j).
Definition set_ready (j : job) : job :=
  mkJob (capacity_reservation_id j) (capacity_heartbeat_stop j) (capacity_heartbeat_task j) (disconnected j)
    true (input_lock j) (outbound_claim j) (outbound_call_ref j) (failure_reason j) (job_tasks j) (source j)
    (stream j) (participant j) (transport j) (pipeline j) (text_handler j) (data_handler j) (handoff_active j).
Definition set_lock (b : option nat) (j : job) : job :=
  mkJob (capacity_reservation_id j) (capacity_heartbeat_stop j) (capacity_heartbeat_task j) (disconnected j)
    (ready j) b (outbound_claim j) (outbound_call_ref j) (failure_reason j) (job_tasks j) (source j)
    (stream j) (participant j) (transport j) (pipeline j) (text_handler j) (data_handler j) (handoff_active j).
Definition set_claim (claim : dict) (ref : str) (j : job) : job :=
  mkJob (capacity_reservation_id j) (capacity_heartbeat_stop j) (capacity_heartbeat_task j) (disconnected j)
    (ready j) (input_lock j) claim ref (failure_reason j) (job_tasks j) (source j)
    (stream j) (participant j) (transport j) (pipeline j) (text_handler j) (data_handler j) (handoff_active j).
Definition set_failure (reason : str) (j : job) : job :=
  mkJob (capacity_reservation_id j) (capacity_heartbeat_stop j) (capacity_heartbeat_task j) (disconnected j)
    (ready j) (input_lock j) (outbound_claim j) (outbound_call_ref j) reason (job_tasks j) (source j)
    (stream j) (participant j) (transport j) (pipeline j) (text_handler j) (data_handler j) (handoff_active j).
Definition add_task (t : nat) (j : job) : job :=
  mkJob (capacity_reservation_id j) (capacity_heartbeat_stop j) (capacity_heartbeat_task j) (disconnected j)
    (ready j) (input_lock j) (outbound_claim j) (outbound_call_ref j) (failure_reason j) (job_tasks j ++ [t]) (source j)
    (stream j) (participant j) (transport j) (pipeline j) (text_handler j) (data_handler j) (handoff_active j).
Definition set_source (j : job) : job :=
  mkJob (capacity_reservation_id j) (capacity_heartbeat_stop j) (capacity_heartbeat_task j) (disconnected j)
    (ready j) (input_lock j) (outbound_claim j) (outbound_call_ref j) (failure_reason j) (job_tasks j) true
    (stream j) (participant j) (transport j) (pipeline j) (text_handler j) (data_handler j) (handoff_active j).
Definition set_stream (j : job) : job :=
  mkJob (capacity_reservation_id j) (capacity_heartbeat_stop j) (capacity_heartbeat_task j) (disconnected j)
    (ready j) (input_lock j) (outbound_claim j) (outbound_call_ref j) (failure_reason j) (job_tasks j) (source j)
    true (participant j) (transport j) (pipeline j) (text_handler j) (data_handler j) (handoff_active j).
Definition set_participant (who : option str) (j : job) : job :=
  mkJob (capacity_reservation_id j) (capacity_heartbeat_stop j) (capacity_heartbeat_task j) (disconnected j)
    (ready j) (input_lock j) (outbound_claim j) (outbound_call_ref j) (failure_reason j) (job_tasks j) (source j)
    (stream j) who (transport j) (pipeline j) (text_handler j) (data_handler j) (handoff_active j).
Definition set_transport (p : call_parts) (j : job) : job :=
  mkJob (capacity_reservation_id j) (capacity_heartbeat_stop j) (capacity_heartbeat_task j) (disconnected j)
    (ready j) (input_lock j) (outbound_claim j) (outbound_call_ref j) (failure_reason j) (job_tasks j) (source j)
    (stream j) (participant j) (Some p) (pipeline j) (text_handler j) (data_handler j) (handoff_active j).
Definition set_pipeline (p : call_parts) (j : job) : job :=
  mkJob (capacity_reservation_id j) (capacity_heartbeat_stop j) (capacity_heartbeat_task j) (disconnected j)
    (ready j) (input_lock j) (outbound_claim j) (outbound_call_ref j) (failure_reason j) (job_tasks j) (source j)
    (stream j) (participant j) (transport j) (Some p) (text_handler j) (data_handler j) (handoff_active j).
Definition set_handlers (text data : bool) (j : job) : job :=
  mkJob (capacity_reservation_id j) (capacity_heartbeat_stop j) (capacity_heartbeat_task j) (disconnected j)
    (ready j) (input_lock j) (outbound_claim j) (outbound_call_ref j) (failure_reason j) (job_tasks j) (source j)
    (stream j) (participant j) (transport j) (pipeline j) text data (handoff_active j).
Definition set_handoff (b : bool) (j : job) : job :=
  mkJob (capacity_reservation_id j) (capacity_heartbeat_stop j) (capacity_heartbeat_task j) (disconnected j)
    (ready j) (input_lock j) (outbound_claim j) (outbound_call_ref j) (failure_reason j) (job_tasks j) (source j)
    (stream j) (participant j) (transport j) (pipeline j) (text_handler j) (data_handler j) b.

(** ** Blocks *)

Definition modify (f : job → job) (k : wco) : wco := Get (λ j, Put (f j) k).
Definition io (q : wrequest) (k : wco) (h : whandler) : wco := Await (WIo q) (λ _, k) h.
Definition send (o : effect) (k : wco) (h : whandler) : wco := Emit o (io QUnit k h).
Definition when (b : bool) (p : wco → wco) (k : wco) : wco := if b then p k else k.
Definition lift {A} (m : exn A) (k : A → wco) (h : whandler) : wco :=
  match m with Ok a => k a | Raise e => h e end.

(** [except Exception: log]; a cancellation goes on. *)
Definition logged (k : wco) (h : whandler) : whandler :=
  λ e, match e with CancelledError => h e | _ => k end.

Definition http_of (a : wreply) : exn (Z * exn json) :=
  match a with RHttp code body => Ok (code, body) | _ => Raise OtherError end.

(** A request whose answer [read] understands. *)
Definition http (o : effect) {A} (read : exn (Z * exn json) → exn A) (k : A → wco) (h : whandler) : wco :=
  Emit o (Await (WIo QHttp) (λ a, lift (read (http_of a)) k h) (λ e, lift (read (Raise e)) k h)).

(** The same, with a note of the answer. *)
Definition noted_http (o : effect) (note : exn (Z * exn json) → effect) {A} (read : exn (Z * exn json) → exn A)
    (k : A → wco) (h : whandler) : wco :=
  let go a := Emit (note a) (lift (read a) k h) in
  Emit o (Await (WIo QHttp) (λ a, go (http_of a)) (λ e, go (Raise e))).

Fixpoint cancel_all (ts : list nat) (k : wco) : wco :=
  match ts with [] => k | t :: ts => Cancel t (cancel_all ts k) end.

Section worker.
(** The environment at import and the dashboard's file; HMAC, [float()] and the unit of time as
    in CallBootstrap.v and LabConfig.v; the constants of agent_config_api. *)
Context (env0 : environ) (dashboard_file : option environ) (digest : list Z → list Z → list Z)
  (py_float : json → exn (option Z)) (second : Z) (float_text : str → bool) (float_repr : str → option str)
  (BASE_URL SERVICE_TOKEN : str)
  (** The job: its metadata and room, the time and the nonces used before. *)
  (metadata room_name : str) (now : Z) (used : list (str * Z))
  (** [str(exc)]; the class name of an exception and the SIP status in its metadata. *)
  (describe : pyexc → str) (sip_error : pyexc → str * str)
  (** What the constructor of the pipeline does with a configuration and an agent. *)
  (construct : LabConfig → AgentRuntimeContext → exn unit).

(** After [load_platform_env]. *)
Definition env : environ := load_platform_env dashboard_file env0.

(** [PARTICIPANT_KIND_SIP] of the LiveKit SDK. *)
Definition SIP_KIND : Z := 3.

(** ** Services *)

Definition capacity_call (action id : str) (k : dict → wco) (h : whandler) : wco :=
  match capacity_post env float_text id action room_name with
  | Raise e => h e
  | Ok p => http (Capacity action id p) capacity_answer k h
  end.

(** The claim, whose answer is noted. *)
Definition claim_capacity (id : str) (k : wco) (h : whandler) : wco :=
  match capacity_post env float_text id (lit "claim") room_name with
  | Raise e => h e
  | Ok p => noted_http (Capacity (lit "claim") id p) (CapacityAnswer id) capacity_answer (λ _, k) h
  end.

Definition finish_outbound (record : service_post → effect) (ref status : str) (reason conversation : json)
    (k : wco) (h : whandler) : wco :=
  match finish_call env float_text ref status reason conversation with
  | Raise e => h e
  | Ok None => k
  | Ok (Some p) => http (record p) finish_answer (λ _, k) h
  end.

Definition sip_remote_headers (k : list (str * str) → wco) (h : whandler) : wco :=
  Emit AskHeaders (Await (WIo QHeaders)
    (λ a, k match a with RHeaders result => read_headers result | _ => [] end) (logged (k []) h)).

Definition dashboard_route (number : str) (k : dict → wco) (h : whandler) : wco :=
  match number with
  | [] => k []
  | _ =>
      match Outbound.resolve_sip_route env BASE_URL SERVICE_TOKEN number with
      | None => k [(lit "status", JStr (lit "disabled"))]
      | Some (url, n, _) => http (AskRoute url n) sip_route_answer k h
      end
  end.

Definition claim_for_route (recipient_phone : str) (identity : dict) (k : dict → wco) (h : whandler) : wco :=
  match claim_call_by_recipient env float_text (str_or_empty identity.[lit "business_id"]) recipient_phone room_name with
  | Raise e => h e
  | Ok p => noted_http (ClaimOutbound p) ClaimAnswer claim_answer (λ claim,
      if claim_mismatch claim identity then
        let ref := str_or_empty claim.[lit "call_ref"] in
        finish_outbound (RefuseOutbound ref) ref (lit "failed")
          (JStr (lit "SIP To route did not match prepared agent.")) JNull
          (h (RuntimeError (lit "Prepared call agent does not match the SIP To route."))) h
      else k claim) h
  end.

(** The agent of a call; the request is made if the call has a scope and the service is
    configured. *)
Definition load_agent (config : LabConfig) (identity : dict) (k : AgentRuntimeContext → wco) (h : whandler) : wco :=
  let s := services config in
  let load get := load_agent_runtime_context (agent_config_api_base_url s) (agent_config_service_token s)
                    (agent_client_id s) room_name (Some (session_routing_context (JObj identity))) get in
  let body a := match http_of a with Ok (code, Ok v) => Ok (code, v) | Ok (_, Raise e) => Raise e | Raise e => Raise e end in
  match (load (λ _, Raise OtherError)).1 with
  | None => lift (load (λ _, Raise OtherError)).2 k h
  | Some r => Emit (AskAgent r) (Await (WIo QHttp) (λ a, lift (load (λ _, body a)).2 k h)
                                   (λ e, lift (load (λ _, Raise e)).2 k h))
  end.

(** ** The caller *)

(** Who called, from the headers, the attributes and the dashboard's routes. *)
Definition identify (route : dict) (p : sip_participant) (k : list (str * str) → dict → wco) (h : whandler) : wco :=
  sip_remote_headers (λ headers,
    let number := worker_called_number headers (sp_attributes p) in
    dashboard_route number (λ found,
      lift (participant_identity route p room_name SIP_KIND number (dynamic_did_route found))
        (λ id, k headers id) h) h) h.

(** The capacity set aside for the call, claimed. *)
Definition reserve (headers : list (str * str)) (id : dict) (k : wco) (h : whandler) : wco :=
  lift (reservation_id_from_sip_headers env headers (JStr (str_or_empty id.[lit "business_id"])))
    (λ reservation,
      modify (set_reservation reservation)
        (when (negb (reservation =s [])) (λ k, claim_capacity reservation k h) k)) h.

(** The prepared call of an outbound route, claimed; its recipient is the caller. *)
Definition claim_outbound (id : dict) (k : dict → wco) (h : whandler) : wco :=
  let recipient := str_strip id.[lit "caller_number"] in
  if truthy id.[lit "outbound_required"] then
    if recipient =s []
    then h (RuntimeError (lit "The SIP To route requires the customer's phone number on the INVITE."))
    else claim_for_route recipient id (λ claim,
           let phone := JStr (str_or_empty claim.[lit "recipient_phone"]) in
           modify (set_claim claim (str_or_empty claim.[lit "call_ref"])) (Emit (Claimed claim)
             (k (dset (lit "caller_phone") phone (dset (lit "end_user_id") phone id))))) h
  else k id.

Definition admit_sip (route : dict) (k : str → dict → wco) (h : whandler) : wco :=
  Await (WIo QParticipant) (λ a,
    match a with
    | RParticipant p =>
        identify route p (λ headers id, reserve headers id (claim_outbound id (k (sp_identity p)) h) h) h
    | _ => h OtherError
    end) h.

Definition admit_web (id : dict) (k : str → dict → wco) (h : whandler) : wco :=
  Await (WIo QParticipant) (λ a,
    match a with RParticipant p => k (sp_identity p) id | _ => h OtherError end) h.

(** ** Tasks and callbacks *)

(** [await asyncio.wait_for(capacity_heartbeat_stop.wait(), timeout=interval)], and so on. *)
Definition next_lease : wco := Again (WIo QTimer) LLease (λ _, Done) Throw.

Definition lease_round (a : exn wreply) : wco :=
  match a with
  | Ok _ => Get (λ j, if capacity_heartbeat_stop j then Done else next_lease)
  | Raise TimeoutError =>
      let again := Get (λ j, if capacity_heartbeat_stop j then Done else next_lease) in
      Get (λ j, capacity_call (lit "heartbeat") (capacity_reservation_id j) (λ _, again) (logged again Throw))
  | Raise e => Throw e
  end.

(** The interval is read first; a bad setting ends the task. *)
Definition maintain_capacity_lease : wco :=
  if float_text (getenv env (lit "MOMO_CALL_CAPACITY_HEARTBEAT_INTERVAL_SECONDS") (lit "45"))
  then Get (λ j, if capacity_heartbeat_stop j then Done else next_lease)
  else Throw (ValueError (lit "could not convert string to float")).

Definition release_capacity_slot (k : wco) (h : whandler) : wco :=
  Get (λ j,
    match capacity_reservation_id j with
    | [] => k
    | id => Put (set_stop (set_reservation [] j))
              (capacity_call (lit "release") id (λ _, k) (logged k h))
    end).

Definition unlocked (j : job) : bool := bool_decide (input_lock j = None).

(** [async with input_lock: await ..] *)
Definition with_input_lock (o : nat → effect) (k : wco) (h : whandler) : wco :=
  Self (λ t, Await (WUntil unlocked) (λ _,
    let unlock k := Emit (InputOver t) (modify (set_lock None) k) in
    modify (set_lock (Some t)) (send (o t) (unlock k) (λ e, unlock (h e)))) h).

Definition next_frame (k : wcont) (h : whandler) : wco := Again (WIo QFrame) LAudio k h.

(** The noise filter works under the lock, which is then free at once if it leaves nothing. *)
Definition audio_round (a : wreply) (k : wcont) (h : whandler) : wco :=
  match a with
  | RFrame [] => Await (WUntil unlocked) (λ _, next_frame k h) h
  | RFrame pcm => with_input_lock (λ t, PipelineAudio t pcm) (next_frame k h) h
  | REnd [] => k RUnit
  | REnd tail => with_input_lock (λ t, PipelineAudio t tail) (k RUnit) h
  | _ => h OtherError
  end.

Definition next_chunk (sender text : str) (k : wcont) (h : whandler) : wco :=
  Again (WIo QText) (LText sender text) k h.

Definition text_round (sender text : str) (a : wreply) (k : wcont) (h : whandler) : wco :=
  match a with
  | RText (Some chunk) =>
      let text := text ++ chunk in
      if 4096 <? slen text then k RUnit else next_chunk sender text k h
  | RText None =>
      if py_strip text =s [] then k RUnit
      else Await (WUntil ready) (λ _, with_input_lock (λ t, PipelineText t sender text) (k RUnit) h) h
  | _ => h OtherError
  end.

Definition receive_text (who sender : str) : wco :=
  if sender =s who then next_chunk sender [] (λ _, Done) Throw else Done.

(** [transfer_config] *)
Definition transfer_config (id : dict) (k : str) : json :=
  let own key := if truthy id.[lit key] then id.[lit key] else JStr (getenv env k []) in
  if k =s lit "AICC_TRANSFER_TARGET_NUMBER" then own "transfer_target_number"
  else if k =s lit "AICC_TRANSFER_FROM_NUMBER" then own "transfer_from_number"
  else JStr (getenv env k []).

Definition bridge_call (id : dict) (session_id : str) (caller_phone : json) (k : dict → wco) (h : whandler) : wco :=
  match bridge_request (transfer_config id) room_name session_id caller_phone with
  | inl result => k result
  | inr r =>
      Emit (CreateSip r) (Await (WIo QSip)
        (λ a, match a with
              | RSip who call_id => Emit (SipAnswer r who call_id) (k (bridge_connected r who call_id))
              | _ => h OtherError
              end)
        (λ e, let after := match e with
                           | CancelledError => h e
                           | _ => k (bridge_broken (sip_error e).1 (sip_error e).2)
                           end in
              send (RemoveParticipant room_name (sip_leg r)) after (logged after h)))
  end.

Definition transfer_enabled (c : AgentRuntimeContext) : bool :=
  existsb (λ t : dict, jeq_str t.[lit "name"] (lit "transfer_to_aicc")
                       && jeq_str t.[lit "url"] (lit "builtin://transfer_to_aicc")) (rt_tools c).

Definition transfer_handler (c : call_parts) (message : dict) (session_id : str) (k : wco) (h : whandler) : wco :=
  if negb (transfer_enabled (agent_context c)) then k
  else
    let reason := take 240 (py_str (jor message.[lit "reason_summary"] (JStr (lit "Caller requested a colleague.")))) in
    let id := identity c in
    let caller := if sip_call c && truthy id.[lit "sip_caller_verified"]
                  then default (JStr []) (dget (lit "caller_phone") id) else JStr [] in
    send (MarkTransfer reason [(lit "status", JStr (lit "connecting"))])
      (bridge_call id session_id caller (λ result,
         send (MarkTransfer reason result)
           (let connected := jeq_str result.[lit "status"] (lit "connected") in
            modify (set_handoff connected)
              (if connected then release_capacity_slot k h else k)) h) h) h.

Definition end_call_handler (k : wco) (h : whandler) : wco :=
  send DeleteRoom (modify set_disconnected k) h.

(** A task whose end the job awaits. *)
Definition spawn_task (p : wco) (k : nat → wco) : wco :=
  Spawn p (λ t, modify (add_task t) (k t)).

Inductive wcall : Type :=
| CParticipantLeft (who : str)
| CTextStream (sender : str)
| CData (topic : str) (sender : option str) (payload : exn json)
| CEndCall (** the pipeline's [end_call] message *)
| CTransfer (message : dict) (session_id : str) (** its [transfer_to_aicc] message *)
| CCancel (t : nat).

Definition PASSKEY_FLOW_TOPIC : str := lit "attentive.fido2.v1".

(** [on_data_received]; [payload] is the packet read as JSON. *)
Definition on_data_received (topic : str) (sender : option str) (payload : exn json) (j : job) : wco :=
  match sender, participant j with
  | Some s, Some who =>
      if negb (s =s who) then Done
      else if (topic =s PASSKEY_FLOW_TOPIC)
              && match pipeline j with Some c => passkey_flow c | None => false end
      then spawn_task (send (PasskeyPacket who) Done Throw) (λ _, Done)
      else if topic =s lit "rvc_latency_ack" then
        match payload with
        | Ok _ => Emit (PlaybackAck who) Done
        | Raise (ValueError _) => Done
        | Raise e => Throw e
        end
      else Done
  | _, _ => Done
  end.

(** ** The job *)

(** [finally]: what follows it is [after]. *)
Definition finish_claim (conversation : json) (k : wco) : wco :=
  Get (λ j,
    match outbound_claim j with
    | [] => k
    | _ =>
        let reason := failure_reason j in
        let status := lit (if reason =s [] then "completed" else "failed") in
        finish_outbound (FinishOutbound (outbound_call_ref j) status) (outbound_call_ref j) status
          (if reason =s [] then JNull else JStr reason) conversation k (logged k Throw)
    end).

Definition close_call (k : json → wco) : wco :=
  modify (λ j, set_handlers (text_handler j) false j) (Get (λ j,
    when (stream j) (λ k, io QUnit k Throw)
      (modify (set_participant None)
        (modify (set_handlers false false)
          match pipeline j with
          | None => k JNull
          | Some c =>
              when (passkey_flow c) (λ k, io QUnit k Throw)
                (Emit PipelineClose (Await (WIo QClose)
                   (λ a, k match a with RClosed id => id | _ => JNull end) Throw))
          end)))).

Definition release_at_end (k : wco) : wco :=
  Get (λ j,
    match capacity_reservation_id j with
    | [] => k
    | id => capacity_call (lit "release") id (λ _, k) (logged k Throw)
    end).

Definition leave_room (after : wco) : wco :=
  Get (λ j,
    when (bool_decide (is_Some (transport j))) (λ k, io QUnit k Throw)
      (when (source j) (λ k, io QUnit k Throw)
         (send Disconnect after Throw))).

Definition cleanup (after : wco) : wco :=
  modify set_stop (Get (λ j,
    let rest := release_at_end (Get (λ j,
      cancel_all (job_tasks j) (Await (WAll (job_tasks j)) (λ _,
        close_call (λ conversation, finish_claim conversation (leave_room after))) Throw))) in
    match capacity_heartbeat_task j with
    | None => rest
    | Some t => Cancel t (Await (WAll [t]) (λ _, rest) Throw)
    end)).

(** [except asyncio.CancelledError: raise] and [except Exception], with [finally]. *)
Definition failed : whandler := λ e,
  match e with
  | CancelledError => cleanup (Throw e)
  | _ => modify (set_failure (take 255 (describe e))) (cleanup Done)
  end.

Definition for_call (config : LabConfig) (sip : bool) (id : dict) (c : AgentRuntimeContext) : LabConfig :=
  let config := apply_agent_configured_voice env config (tts_voice_id c) id.[lit "runtime_overrides"] in
  for_inactivity_pilot config (rt_agent_id c)
    (negb sip && (jeq_str id.[lit "identity_type"] (lit "web") || starts_with (lit "rvc-livekit-") room_name)) sip.

(** From the start of the pipeline to the end of the call. *)
Definition listening (config : LabConfig) : wco :=
  modify set_ready (io QUnit
    (modify set_stream
      (spawn_task (next_frame (λ _, Done) Throw) (λ input,
        spawn_task (Await (WUntil disconnected) (λ _, Done) Throw) (λ stop,
          (when (opening_greeting_enabled config)
             (λ k, spawn_task (send Greet Done Throw) (λ _, k))
             (Await (WAny [input; stop]) (λ _, cleanup Done) failed)))))) failed).

Definition make_pipeline (config : LabConfig) (parts : call_parts) : wco :=
  lift (construct config (agent_context parts)) (λ _,
    modify (set_pipeline parts)
      (Emit (PipelineMade config parts)
        (io QUnit
           (modify (set_handlers true true) (send PipelineStart (listening config) failed)) failed))) failed.

Definition publish (config : LabConfig) (parts : call_parts) : wco :=
  modify set_source (io QUnit (modify (set_transport parts) (make_pipeline config parts)) failed).

(** From the moment the agent is known. *)
Definition run_call (config : LabConfig) (parts : call_parts) : wco :=
  Get (λ j,
    match capacity_reservation_id j with
    | [] => publish config parts
    | _ => Spawn maintain_capacity_lease (λ t, modify (set_heartbeat t) (publish config parts))
    end).

Definition serve (config : LabConfig) (sip : bool) (who : str) (id : dict) : wco :=
  modify (set_participant (Some who)) (Emit (Serving who)
    (load_agent config id (λ c,
       if negb (loaded c)
       then failed (RuntimeError (lit "Configured agent could not be loaded; refusing an unconfigured call."))
       else Get (λ j,
         lift match outbound_claim j with [] => Ok c | claim => apply_outbound_context c claim end
           (λ c, run_call (for_call config sip id c)
                   (mkParts sip id c (negb sip && Passkey.enabled env id))) failed)) failed)).

(** The dispatch: a SIP route, or the identity of a signed bootstrap. *)
Definition dispatched (config : LabConfig) : exn (option dict * dict) :=
  do! route := resolve_route env metadata room_name in
  match route with
  | Some r => Ok (Some r, [])
  | None =>
      do! id := (resolve_dispatch digest py_float second metadata room_name
                   (agent_config_service_token (services config)) now used).2 in
      Ok (None, id)
  end.

Definition entrypoint : wco :=
  match lab_config_from_environ float_repr env0 env with
  | Raise e => Throw e
  | Ok config =>
      lift (dispatched config) (λ '(route, id),
        lift (apply_runtime_overrides config id.[lit "runtime_overrides"]
                (default (JStr (lit "en")) (dget (lit "language") id))) (λ config,
          send Connect
            match route with
            | Some r => admit_sip r (serve config true) failed
            | None => admit_web id (serve config false) failed
            end failed) failed) failed
  end.

Definition wbody (c : wcall) : wco :=
  match c with
  | CParticipantLeft who =>
      Get (λ j, if bool_decide (participant j = Some who) then Put (set_disconnected j) Done else Done)
  | CTextStream sender =>
      Get (λ j,
        match text_handler j, participant j with
        | true, Some who => spawn_task (receive_text who sender) (λ _, Done)
        | _, _ => Done
        end)
  | CData topic sender payload =>
      Get (λ j, if data_handler j then on_data_received topic sender payload j else Done)
  | CEndCall => Get (λ j, if bool_decide (is_Some (pipeline j)) then end_call_handler Done Throw else Done)
  | CTransfer message session =>
      Get (λ j,
        match pipeline j with
        | Some c => transfer_handler c message session Done Throw
        | None => Done
        end)
  | CCancel t => Cancel t Done
  end.

Definition wresume (l : wloop) (a : exn wreply) (k : wcont) (h : whandler) : wco :=
  match l with
  | LLease => lease_round a
  | LAudio => match a with Raise e => h e | Ok v => audio_round v k h end
  | LText sender text => match a with Raise e => h e | Ok v => text_round sender text v k h end
  end.

Definition worker_step := step RUnit wresume wbody waccepts.

(** The dispatch of the job starts task 0. *)
Definition worker_init := loop_start job_init entrypoint.
End worker.
