(* ===== verification/WorkerRuns.v ===== *)
(** * Runs of a call's job

    A concrete environment, caller and agent on which the job of Worker.v is run from its
    dispatch to its end; what some schedules lead to is shown by evaluation, and WorkerSafety.v
    takes the instances of its theorems from here. *)
From stdpp Require Import base list gmap strings.
From Stdlib Require Import ZArith Lia.
From S2P Require Import Prelude Pystr Json JsonText SipRouting SipBootstrap RoomNames Agentic Passkey CallBootstrap.
From S2P Require Import LabConfig Outbound Coroutines Worker.

(** A prepared call on a SIP route, by an agent that may transfer, for a business with a
    limited capacity. *)
Definition texts (l : list (String.string * String.string)) : dict := map (λ kv, (lit kv.1, JStr (lit kv.2))) l.

Definition example_sip_route : json :=
  JObj [(lit "trunk_ids", JArr [JStr (lit "trunk")]); (lit "room_prefix", JStr (lit "aicc-"));
        (lit "business_id", JStr (lit "b1")); (lit "config_agent_id", JStr (lit "a1"));
        (lit "did_routes", JObj [(lit "0301051", JObj [(lit "outbound_required", JBool true)])])].

Definition example_env : environ := λ k, dget k
  ((lit "RVC_AICC_SIP_ROUTE", dumps example_sip_route)
   :: map (λ kv, (lit kv.1, lit kv.2))
     [("AGENT_CONFIG_API_BASE_URL", "http://agents"); ("CONVERSATION_SERVICE_BASE_URL", "http://conv");
      ("CONVERSATION_SERVICE_TOKEN", "t"); ("MOMO_CALL_CAPACITY_BUSINESS_ID", "b1");
      ("AICC_OUTBOUND_TRUNK_ID", "out"); ("AICC_TRANSFER_TARGET_NUMBER", "0700");
      ("AICC_TRANSFER_FROM_NUMBER", "0800")]%string).

Definition example_metadata : str :=
  dumps (JObj (texts [("entry_surface", "aicc_inbound"); ("sip_trunk_id", "trunk")]%string)).

Definition example_caller : sip_participant :=
  mkSip 3 (lit "sip_1") (texts [("sip.trunkID", "trunk"); ("sip.phoneNumber", "+2348030000001");
    ("sip.h.to", "0301051")]%string).

Definition example_headers : json :=
  JObj [(lit "headers", JObj (texts [("X-Odion-Capacity-Reservation", "r1")]%string))].

Definition example_claim : dict :=
  texts [("call_ref", "c1"); ("business_id", "b1"); ("agent_id", "a1"); ("recipient_phone", "+2348030000001")]%string.

Definition example_runtime : json :=
  JObj [(lit "name", JStr (lit "Ada")); (lit "outbound_enabled", JBool true);
        (lit "tools", JArr [JObj (texts [("name", "transfer_to_aicc"); ("url", "builtin://transfer_to_aicc")]%string)])].

(** A time-out has no message. *)
Definition example_describe (e : pyexc) : str := match e with TimeoutError => [] | _ => lit "failed" end.

Definition example_step := worker_step example_env None (λ _, true) (lit "aicc-1") (λ _, ([], [])).
Definition example_init : loop :=
  worker_init example_env None (λ k _, k) (λ _, Ok (Some 0)) 1 (λ _, true) (λ _, Some []) [] [] example_metadata
    (lit "aicc-1") 0 [] example_describe (λ _ _, Ok tt).

Definition outputs (es : list (@event wreply wcall)) : option (list effect) := snd <$> run example_step example_init es.

Definition shown (keep : effect → bool) (es : list (@event wreply wcall)) : option (list effect) :=
  List.filter keep <$> outputs es.

Definition result (es : list (@event wreply wcall)) : option (option (exn unit)) :=
  (λ r, results r.1 !! 0%nat) <$> run example_step example_init es.

Definition steps (t : nat) (l : list wreply) : list (@event wreply wcall) := map (λ v, Step t (Ok v)) l.
Definition done_200 : wreply := RHttp 200 (Ok (JObj [])).

(** To the claim; to the start of the pipeline; the caller writes and speaks; a transfer; the
    caller leaves and the job ends. *)
Definition example_claiming : list (@event wreply wcall) :=
  steps 0 [RUnit; RUnit; RParticipant example_caller; RHeaders example_headers; done_200; done_200;
           RHttp 200 (Ok (JObj example_claim))].
Definition example_entry : list (@event wreply wcall) :=
  example_claiming ++ steps 0 [RHttp 200 (Ok example_runtime); RUnit; RUnit; RUnit; RUnit].
Definition example_talk : list (@event wreply wcall) :=
  steps 1 [RUnit] ++ steps 2 [RUnit] ++ steps 3 [RUnit] ++ steps 4 [RUnit; RUnit]
  ++ [Call (CTextStream (lit "sip_1"))] ++ steps 6 [RUnit; RText (Some (lit "hi")); RText None]
  ++ steps 2 [RFrame [1]] ++ steps 6 [RUnit] ++ steps 2 [RUnit; RUnit].
Definition example_transfer : list (@event wreply wcall) :=
  Call (CTransfer [] (lit "s1")) :: steps 7 [RUnit; RSip (lit "agent") (lit "call1"); RUnit; done_200].
Definition example_leave : list (@event wreply wcall) :=
  Call (CParticipantLeft (lit "sip_1")) :: steps 3 [RUnit] ++ steps 0 [RUnit] ++ steps 1 [RUnit]
  ++ steps 0 [RUnit] ++ steps 2 [RUnit].
Definition example_end : list (@event wreply wcall) :=
  steps 0 [RUnit; RUnit; RClosed (JStr (lit "conv1")); done_200; RUnit; RUnit; RUnit].

Definition example_call : list (@event wreply wcall) :=
  example_entry ++ example_talk ++ example_transfer ++ example_leave ++ example_end.

Definition is_service (o : effect) : bool :=
  match o with Capacity _ _ _ | FinishOutbound _ _ _ | PipelineClose | Disconnect => true | _ => false end.

Definition services_of (l : list effect) : list String.string :=
  map (λ o, match o with
            | Capacity a _ _ => if a =s lit "claim" then "claim" else if a =s lit "release" then "release" else "heartbeat"
            | FinishOutbound _ s _ => if s =s lit "completed" then "completed" else "failed"
            | PipelineClose => "close"
            | _ => "leave"
            end) (List.filter is_service l).

(** A whole call. *)
Example whole_call :
  services_of <$> outputs example_call = Some ["claim"; "release"; "close"; "completed"; "leave"]%string ∧
  result example_call = Some (Some (Ok tt)).
Proof. by vm_compute. Qed.

(** The agent cannot be loaded: the call is refused, and what it took is given back. *)
Example unloaded_agent_refused :
  services_of <$> outputs (example_claiming ++ Step 0 (Raise HttpError) :: steps 0 [done_200; done_200; RUnit]) = Some ["claim"; "release"; "failed"; "leave"]%string.
Proof. by vm_compute. Qed.

(** [failure_reason] is the message of the exception, and empty for one without a message: a
    time-out while the pipeline starts is reported as a completed call. *)
Definition timed_out : list (@event wreply wcall) :=
  example_claiming ++ steps 0 [RHttp 200 (Ok example_runtime); RUnit; RUnit]
  ++ [Step 0 (Raise TimeoutError)] ++ steps 1 [RUnit] ++ steps 0 [RUnit; done_200; RClosed JNull].

Example time_out_reported_completed :
  services_of <$> outputs timed_out = Some ["claim"; "release"; "close"; "completed"]%string.
Proof. by vm_compute. Qed.

(** The cleanup does not take the reservation before it releases it, and a transfer is not
    among the tasks that it stops: a transfer that connects meanwhile releases it again. *)
Definition released_twice : list (@event wreply wcall) :=
  example_entry ++ steps 1 [RUnit] ++ steps 3 [RUnit]
  ++ Call (CTransfer [] (lit "s1")) :: steps 5 [RUnit; RSip (lit "agent") (lit "call1")]
  ++ Call (CParticipantLeft (lit "sip_1")) :: steps 3 [RUnit] ++ steps 0 [RUnit] ++ steps 1 [RUnit] ++ steps 0 [RUnit]
  ++ steps 5 [RUnit].

Example reservation_released_twice :
  services_of <$> outputs released_twice = Some ["claim"; "release"; "release"]%string.
Proof. by vm_compute. Qed.

(** If the pipeline cannot be closed, the rest of the cleanup is skipped: the prepared call
    stays claimed, and the room is not left. *)
Definition unclosed : list (@event wreply wcall) :=
  example_entry ++ example_talk ++ example_transfer ++ example_leave
  ++ steps 0 [RUnit; RUnit] ++ [Step 0 (Raise OtherError)].

Example close_failure_skips_rest :
  services_of <$> outputs unclosed = Some ["claim"; "release"; "close"]%string ∧
  result unclosed = Some (Some (Raise OtherError)).
Proof. by vm_compute. Qed.
