(* ===== verification/WorkerSafety.v ===== *)
(** * What a call's job guarantees

    The invariant of Worker.v, kept by every schedule, and the theorems read off it: what was
    reserved is given back and what was claimed is reported before the job leaves the room,
    once; the pipeline is only made for an admitted caller and a loaded agent, and is served
    one input at a time from that caller; a transfer dials the configured number. *)
From stdpp Require Import base list sets gmap strings.
From Stdlib Require Import ZArith Lia.
From S2P Require Import Prelude Pystr Json JsonText SipRouting SipBootstrap RoomNames Agentic Passkey CallBootstrap.
From S2P Require Import LabConfig Outbound Coroutines Worker WorkerRuns.

Section safety.
Context (env0 : environ) (dashboard_file : option environ) (digest : list Z → list Z → list Z)
  (py_float : json → exn (option Z)) (second : Z) (float_text : str → bool) (float_repr : str → option str)
  (BASE_URL SERVICE_TOKEN : str) (metadata room_name : str) (now : Z) (used : list (str * Z))
  (describe : pyexc → str) (sip_error : pyexc → str * str)
  (construct : LabConfig → AgentRuntimeContext → exn unit).

Abbreviation ENV := (env env0 dashboard_file).
Abbreviation post_for action id := (capacity_post ENV float_text id (lit action) room_name).

(** ** What is asked of each effect *)

Definition claimed_capacity (id : str) (l : list effect) : Prop := ∃ p, Capacity (lit "claim") id p ∈ l.
(** A service accepted a request, and gave this dictionary; a body that cannot be read is an empty
    one. *)
Definition answered (answer : exn (Z * exn json)) (d : dict) : Prop :=
  ∃ code body, answer = Ok (code, body) ∧ code < 400 ∧
    (body = Ok (JObj d) ∨ d = [] ∧ ∃ why, body = Raise (ValueError why)).

(** The service accepted the claim. *)
Definition granted_capacity (id : str) (l : list effect) : Prop :=
  claimed_capacity id l ∧ ∃ answer body, CapacityAnswer id answer ∈ l ∧ answered answer body.
Definition released (id : str) (l : list effect) : Prop := ∃ p, Capacity (lit "release") id p ∈ l.

Definition claim_ref (claim : dict) : str := str_or_empty claim.[lit "call_ref"].

(** The service gave this prepared call to the job. *)
Definition given_claim (claim : dict) (l : list effect) : Prop :=
  ∃ answer, ClaimAnswer answer ∈ l ∧ answered answer claim.

(** The reference under which an effect reports the end of a prepared call. *)
Definition reports (o : effect) : option str :=
  match o with FinishOutbound ref _ _ | RefuseOutbound ref _ => Some ref | _ => None end.

(** The pipeline's input under way. *)
Definition busy (l : list effect) : option nat :=
  foldl (λ b o, match o with
                | PipelineText t _ _ | PipelineAudio t _ => Some t
                | InputOver _ => None
                | _ => b
                end) None l.

(** The claims that can be reported: their reference has a place in an address. *)
Definition reportable (claim : dict) : Prop := claim ≠ [] ∧ is_Some (match quote (claim_ref claim) with Ok q => Some q | _ => None end).

Definition all_released (l : list effect) : Prop := ∀ id, id ≠ [] → claimed_capacity id l → released id l.
Definition all_reported (l : list effect) : Prop :=
  ∀ claim, Claimed claim ∈ l → reportable claim → ∃ status p, FinishOutbound (claim_ref claim) status p ∈ l.
Definition all_closed (l : list effect) : Prop := ∀ config parts, PipelineMade config parts ∈ l → PipelineClose ∈ l.

Definition settled (l : list effect) : Prop := all_released l ∧ all_reported l ∧ all_closed l.

Definition admitted (parts : call_parts) (l : list effect) : Prop :=
  loaded (agent_context parts) = true ∧
  (∃ who, Serving who ∈ l) ∧
  (∀ claim, Claimed claim ∈ l → claim ≠ [] → outbound_enabled (agent_context parts) = true) ∧
  (sip_call parts = true → truthy (identity parts).[lit "outbound_required"] = true → ∃ claim, Claimed claim ∈ l) ∧
  (sip_call parts = true →
   is_enabled_for_business ENV (JStr (str_or_empty (identity parts).[lit "business_id"])) = true →
   ∃ id, id ≠ [] ∧ granted_capacity id l).

Definition target_of (parts : call_parts) : str :=
  py_strip (py_str (transfer_config env0 dashboard_file (identity parts) (lit "AICC_TRANSFER_TARGET_NUMBER"))).

Definition legal (l : list effect) (o : effect) : Prop :=
  match o with
  | Capacity action id _ =>
      if action =s lit "claim" then id ≠ []
      else if action =s lit "release" then id ≠ [] ∧ claimed_capacity id l
      else id = [] ∨ claimed_capacity id l
  | FinishOutbound ref _ _ =>
      (∃ claim, Claimed claim ∈ l ∧ claim ≠ [] ∧ ref = claim_ref claim) ∧ ∀ o, o ∈ l → reports o = None
  | RefuseOutbound ref _ =>
      (∃ claim, given_claim claim l ∧ ref = claim_ref claim) ∧ ∀ o, o ∈ l → reports o = None
  | Claimed claim => given_claim claim l
  | PipelineMade _ parts => admitted parts l
  | PipelineStart => (∃ config parts, PipelineMade config parts ∈ l)
  | PipelineText _ who text =>
      PipelineStart ∈ l ∧ Serving who ∈ l ∧ slen text ≤ 4096 ∧ py_strip text ≠ [] ∧ busy l = None
  | PipelineAudio _ pcm => PipelineStart ∈ l ∧ pcm ≠ [] ∧ busy l = None
  | InputOver t => busy l = Some t
  | CreateSip r =>
      ∃ config parts, PipelineMade config parts ∈ l ∧ transfer_enabled (agent_context parts) = true
        ∧ sip_call_to r = target_of parts ∧ sip_call_to r ≠ [] ∧ sip_room r = room_name
  | MarkTransfer _ result =>
      (jeq_str result.[lit "status"] (lit "connected") = true →
       ∃ r who id, SipAnswer r who id ∈ l ∧ result = bridge_connected r who id) ∧
      (∀ name code, result = bridge_broken name code →
       ∃ r, CreateSip r ∈ l ∧ RemoveParticipant room_name (sip_leg r) ∈ l)
  | SipAnswer r _ _ => CreateSip r ∈ l
  | Disconnect => settled l
  | _ => True
  end.

Lemma accepted_answered what code body d : accepted what code body = Ok d → answered (Ok (code, body)) d.
Proof.
  unfold accepted, body_or_empty. intros H. exists code, body. split; [done|].
  destruct body as [v|e]; [|destruct e; try done]; simpl in H.
  - destruct (400 <=? code) eqn:E; [by destruct (jget _ v)|]. apply Z.leb_gt in E.
    destruct v; try (by destruct (jget _ _)). injection H as ->. by split; [|left].
  - destruct (400 <=? code) eqn:E; [done|]. apply Z.leb_gt in E. injection H as <-.
    split; [done|]. right. split; [done|]. by eexists.
Qed.

Lemma claim_answered a claim : claim_answer a = Ok claim → answered a claim.
Proof. destruct a as [[code body]|e]; [apply accepted_answered|done]. Qed.

Lemma capacity_answered a d : capacity_answer a = Ok d → answered a d.
Proof. destruct a as [[code body]|e]; [apply accepted_answered|by destruct e]. Qed.

(** ** The invariant *)

(** A reservation that is held has been claimed, unless it cannot be asked for at all. *)
Record I (s : job) (l : list effect) : Prop := {
  i_busy t : busy l = Some t → input_lock s = Some t;
  i_held id p : Capacity (lit "claim") id p ∈ l → capacity_reservation_id s = id ∨ released id l;
  i_asked : capacity_reservation_id s ≠ [] →
    claimed_capacity (capacity_reservation_id s) l ∨
    ∃ e, post_for "claim" (capacity_reservation_id s) = Raise e;
  i_posted action id p : Capacity action id p ∈ l → ∃ p', post_for "claim" id = Ok p';
  i_ready : ready s = true → PipelineStart ∈ l;
  i_pipeline parts : pipeline s = Some parts → ∃ config, PipelineMade config parts ∈ l;
  i_participant who : participant s = Some who → Serving who ∈ l;
}.

(** The effects of task 0. *)
Definition of_job (o : effect) : bool :=
  match o with
  | PipelineText _ _ _ | PipelineAudio _ _ | InputOver _ | Greet | PasskeyPacket _ | PlaybackAck _
  | MarkTransfer _ _ | CreateSip _ | RemoveParticipant _ _ | DeleteRoom | SipAnswer _ _ _ => false
  | Capacity action _ _ => action =s lit "claim"
  | _ => true
  end.

(** The variables that only task 0 writes. *)
Definition view (s : job) :=
  (capacity_heartbeat_task s, ready s, (outbound_claim s, outbound_call_ref s, failure_reason s), source s, stream s,
   participant s, transport s, pipeline s).

(** What the others do while task [t] waits: effects are only added; they leave the lock alone
    if [t] holds it; and they leave the job's own variables and effects to the job. *)
Definition R (t : nat) (x y : job * list effect) : Prop :=
  x.2 `prefix_of` y.2 ∧
  (input_lock x.1 = Some t → input_lock y.1 = Some t ∧ busy y.2 = busy x.2) ∧
  (t = 0%nat → view y.1 = view x.1 ∧ List.filter of_job y.2 = List.filter of_job x.2).

Definition G (t : nat) (x y : job * list effect) : Prop := ∀ u, t ≠ u → R u x y.

Definition inv (lb : wloop) (x : job * list effect) : Prop :=
  match lb with
  | LLease => True
  | LAudio => PipelineStart ∈ x.2
  | LText sender text => Serving sender ∈ x.2 ∧ slen text ≤ 4096
  end.

Abbreviation WP t := (wp waccepts I R G legal eq 1%nat inv t).
Abbreviation LATER t P := (later I R t P).

#[local] Instance R_pre t : PreOrder (R t).
Proof.
  split.
  - intros [s l]. split; [done|]. by split.
  - intros [s1 l1] [s2 l2] [s3 l3] (H1 & H2 & H3) (H4 & H5 & H6). simpl in *. split; [by etrans|]. split.
    + simpl. intros Hl. destruct (H2 Hl) as [Hl2 <-]. by apply H5.
    + simpl. intros Ht. destruct (H3 Ht) as [<- <-]. by apply H6.
Qed.

Lemma elem_later (o : effect) t x y : o ∈ x.2 → R t x y → o ∈ y.2.
Proof. intros Ho [[k ->] _]. apply elem_of_app. by left. Qed.

Lemma busy_snoc l o :
  busy (l ++ [o]) = match o with
                    | PipelineText t _ _ | PipelineAudio t _ => Some t
                    | InputOver _ => None
                    | _ => busy l
                    end.
Proof. unfold busy. by rewrite foldl_app. Qed.

(** ** Steps of the tasks *)

(** A write that leaves the lock alone, of the job's own variables only if it is the job's. *)
Lemma G_put t s l s' : input_lock s' = input_lock s → (t = 0%nat ∨ view s' = view s) → G t (s, l) (s', l).
Proof.
  intros Hl Ht u Hne. split; [done|]. simpl. rewrite Hl. split; [done|].
  intros ->. destruct Ht as [->|Hv]; [done|]. by split.
Qed.

Definition is_input (o : effect) : bool :=
  match o with PipelineText _ _ _ | PipelineAudio _ _ | InputOver _ => true | _ => false end.

Lemma G_emit t s l o :
  is_input o = false ∨ input_lock s = Some t → (t = 0%nat ∨ of_job o = false) → G t (s, l) (s, l ++ [o]).
Proof.
  intros Hi Ht u Hne. split; [by apply prefix_app_r|]. simpl. split.
  - intros Hl. split; [done|]. rewrite busy_snoc. destruct Hi as [Hi|Hi]; [by destruct o|congruence].
  - intros ->. split; [done|]. rewrite List.filter_app. simpl. destruct Ht as [-> | ->]; [done|]. by rewrite app_nil_r.
Qed.

(** Effects that the invariant does not speak of. *)
Definition plain (o : effect) : bool :=
  match o with
  | Capacity action _ _ => (action =s lit "release") || (action =s lit "heartbeat")
  | PipelineText _ _ _ | PipelineAudio _ _ | InputOver _ => false
  | _ => true
  end.

Lemma effect_snoc_ne (o o' : effect) l : o ∈ l ++ [o'] → o ≠ o' → o ∈ l.
Proof. intros [H|H]%elem_of_app Hne; [done|]. by apply list_elem_of_singleton in H. Qed.

Lemma elem_snoc (o o' : effect) l : o ∈ l → o ∈ l ++ [o'].
Proof. intros H. apply elem_of_app. by left. Qed.

Lemma released_snoc id l o : released id l → released id (l ++ [o]).
Proof. intros [p H]. exists p. by apply elem_snoc. Qed.

Lemma claimed_snoc id l o : claimed_capacity id l → claimed_capacity id (l ++ [o]).
Proof. intros [p H]. exists p. by apply elem_snoc. Qed.

Lemma I_emit s l o :
  plain o = true → (∀ action id p, o = Capacity action id p → ∃ p', post_for "claim" id = Ok p') →
  I s l → I s (l ++ [o]).
Proof.
  intros Ho Hp [Hb Hh Ha Hc Hr Hm Hs]. split.
  - intros t. rewrite busy_snoc. intros Ht. apply Hb. by destruct o.
  - intros id p Hin. apply effect_snoc_ne in Hin; [|intros <-; done].
    destruct (Hh id p Hin) as [?|?]; [by left|right; by apply released_snoc].
  - intros Hne. destruct (Ha Hne) as [?|?]; [left; by apply claimed_snoc|by right].
  - intros action id p [Hin|Hin]%elem_of_app; [by eapply Hc|]. apply list_elem_of_singleton in Hin. by eapply Hp.
  - intros. by apply elem_snoc, Hr.
  - intros parts Hparts. destruct (Hm parts Hparts) as [c Hin]. exists c. by apply elem_snoc.
  - intros who Hwho. by apply elem_snoc, Hs.
Qed.

(** A write that changes nothing the invariant speaks of. *)
Lemma I_put s s' l :
  (input_lock s', capacity_reservation_id s', ready s', pipeline s', participant s')
  = (input_lock s, capacity_reservation_id s, ready s, pipeline s, participant s) → I s l → I s' l.
Proof. intros [= E1 E2 E3 E4 E5] [Hb Hh Ha Hc Hr Hm Hs]. split; rewrite ?E1, ?E2, ?E3, ?E4, ?E5; done. Qed.

(** *** Rules *)

Lemma job_wp_get t (f : job → wco) s l : WP t (f s) s l → WP t (Get f) s l.
Proof. done. Qed.

Lemma job_wp_put t s' (k : wco) s l :
  input_lock s' = input_lock s → (t = 0%nat ∨ view s' = view s) → WP t k s' l → WP t (Put s' k) s l.
Proof. intros Hl Hv Hk. split; [by apply G_put|done]. Qed.

Lemma job_wp_emit t o (k : wco) s l :
  legal l o → is_input o = false → (t = 0%nat ∨ of_job o = false) → WP t k s (l ++ [o]) → WP t (Emit o k) s l.
Proof. intros Hl Hi Ht Hk. split; [done|]. split; [|done]. apply G_emit; [by left|done]. Qed.

(** An answer from outside, or its exception. *)
Lemma job_wp_await t q (k : wcont) (h : whandler) s l :
  I s l → (∀ v s' l', waccepts q (Ok v) = true → R t (s, l) (s', l') → I s' l' → WP t (k v) s' l') →
  (∀ e s' l', R t (s, l) (s', l') → I s' l' → WP t (h e) s' l') →
  WP t (Await (WIo q) k h) s l.
Proof.
  intros Hi Hk Hh. split; [done|]. intros s' l' Hr Hi'. split; [|intros e; by apply Hh].
  intros _ v Hv. by apply Hk.
Qed.

Lemma job_wp_io t q (k : wco) (h : whandler) s l :
  I s l → (∀ s' l', R t (s, l) (s', l') → I s' l' → WP t k s' l') →
  (∀ e s' l', R t (s, l) (s', l') → I s' l' → WP t (h e) s' l') → WP t (io q k h) s l.
Proof. intros Hi Hk Hh. apply job_wp_await; [done| |done]. intros v s' l' _. apply Hk. Qed.

Lemma wp_http t o {A} (read : exn (Z * exn json) → exn A) (k : A → wco) (h : whandler) s l :
  legal l o → is_input o = false → (t = 0%nat ∨ of_job o = false) → I s (l ++ [o]) →
  (∀ a s' l', R t (s, l ++ [o]) (s', l') → I s' l' → WP t (k a) s' l') →
  (∀ e s' l', R t (s, l ++ [o]) (s', l') → I s' l' → WP t (h e) s' l') →
  WP t (http o read k h) s l.
Proof.
  intros Hl Hin Ht Hi Hk Hh. apply job_wp_emit; [done..|]. apply job_wp_await; [done| |].
  - intros v s' l' _ Hr Hi'. unfold lift. destruct (read _); auto.
  - intros e s' l' Hr Hi'. unfold lift. destruct (read _); auto.
Qed.

(** ** The tasks besides the job *)

Lemma post_agrees a b id :
  (∀ e, post_for a id = Raise e → ∃ e', post_for b id = Raise e') ∧
  (∀ p, post_for a id = Ok p → ∃ p', post_for b id = Ok p').
Proof.
  unfold capacity_post, capacity_settings, _settings. destruct (float_text _); simpl; [|naive_solver].
  destruct (_ || _); simpl; [naive_solver|]. destruct (quote id); simpl; naive_solver.
Qed.

Lemma claim_post a id p : post_for a id = Ok p → ∃ p', post_for "claim" id = Ok p'.
Proof. apply post_agrees. Qed.

Lemma no_claim_post a id e : post_for a id = Raise e → ∃ e', post_for "claim" id = Raise e'.
Proof. apply post_agrees. Qed.

Lemma I_capacity a id p s l :
  lit a = lit "release" ∨ lit a = lit "heartbeat" → post_for a id = Ok p → I s l → I s (l ++ [Capacity (lit a) id p]).
Proof.
  intros Ha Hp. apply I_emit.
  - simpl. rewrite orb_true_iff, !str_eqb_true. exact Ha.
  - intros action id' p' [= <- <- <-]. by eapply claim_post.
Qed.

(** A slot that is given up: the release is posted at once. *)
Lemma I_slot id p s l :
  capacity_reservation_id s = id → id ≠ [] → post_for "release" id = Ok p → I s l →
  I (set_stop (set_reservation [] s)) (l ++ [Capacity (lit "release") id p]).
Proof.
  intros Hid Hne Hp Hi. pose proof (I_capacity "release" id p s l (or_introl eq_refl) Hp Hi) as [Hb Hh Ha Hc Hr Hm Hs].
  split; try done. intros id' p' Hin. right. destruct (Hh id' p' Hin) as [Heq|]; [|done].
  exists p. apply elem_of_app. right. rewrite <-Heq, Hid. by left.
Qed.

Lemma I_slot_unposted id e s l :
  capacity_reservation_id s = id → post_for "release" id = Raise e → I s l → I (set_stop (set_reservation [] s)) l.
Proof.
  intros Hid Hp [Hb Hh Ha Hc Hr Hm Hs]. split; try done. intros id' p' Hin.
  destruct (Hh id' p' Hin) as [Heq|]; [|by right]. exfalso.
  apply no_claim_post in Hp as [e' He]. apply Hc in Hin as [p'' Hp'']. congruence.
Qed.

Lemma asked_claim a s l id p :
  I s l → capacity_reservation_id s = id → id ≠ [] → post_for a id = Ok p → claimed_capacity id l.
Proof.
  intros Hi Hid Hne Hp. destruct (i_asked _ _ Hi) as [H|[e He]]; [congruence|congruence|].
  apply claim_post in Hp as [p' Hp']. congruence.
Qed.

Lemma wp_slot t k h s l :
  t ≠ 0%nat → I s l → (∀ s' l', R t (s, l) (s', l') → I s' l' → WP t k s' l') →
  (∀ e s' l', R t (s, l) (s', l') → I s' l' → WP t (h e) s' l') →
  WP t (release_capacity_slot env0 dashboard_file float_text room_name k h) s l.
Proof.
  intros Ht Hi Hk Hh. unfold release_capacity_slot. apply job_wp_get.
  destruct (capacity_reservation_id s) as [|c id] eqn:Hid; [by apply Hk|].
  assert (∀ o, of_job o = false → is_input o = false →
    R t (s, l) (set_stop (set_reservation [] s), l ++ [o])) as Hr.
  { intros o Ho Hin. split; [by apply prefix_app_r|]. split; [|done]. intros Hl. split; [done|].
    simpl. rewrite busy_snoc. by destruct o. }
  apply job_wp_put; [done|by right|]. unfold capacity_call.
  destruct (post_for "release" (c :: id)) as [p|e] eqn:Hp.
  - assert (legal l (Capacity (lit "release") (c :: id) p)) as Hl.
    { simpl. split; [done|]. by eapply asked_claim. }
    apply wp_http; [done..|by right|by apply I_slot| |].
    + intros _ s' l' Hr'. apply Hk. etrans; [|done]. by apply Hr.
    + intros e s' l' Hr' Hi'. assert (R t (s, l) (s', l')) by (etrans; [|done]; by apply Hr).
      unfold logged. destruct e; auto.
  - assert (R t (s, l) (set_stop (set_reservation [] s), l)) as Hr' by done.
    assert (I (set_stop (set_reservation [] s)) l) by by eapply I_slot_unposted.
    unfold logged. destruct e; auto.
Qed.

Lemma wp_next_lease t s l : I s l → WP t next_lease s l.
Proof. intros Hi. split; [done|]. split; [done|]. intros s' l' _ Hi'. by split. Qed.

Lemma wp_lease_round t a s l :
  I s l → WP t (lease_round env0 dashboard_file float_text room_name a) s l.
Proof.
  intros Hi. unfold lease_round.
  set (again := Get (λ j, if capacity_heartbeat_stop j then Done else next_lease)).
  assert (∀ s l, I s l → WP t again s l) as Hagain.
  { intros s' l' Hi'. apply job_wp_get. destruct (capacity_heartbeat_stop s'); [done|by apply wp_next_lease]. }
  assert (∀ e s l, I s l → WP t (logged again Throw e) s l) as Hlog by (intros [] ???; by auto).
  destruct a as [v|[]]; try done; [by apply Hagain|]. apply job_wp_get. unfold capacity_call.
  destruct (post_for "heartbeat" (capacity_reservation_id s)) as [p|e] eqn:Hp; [|by apply Hlog].
  apply wp_http; [|done|by right|apply I_capacity; auto|auto|auto].
  simpl. destruct (capacity_reservation_id s) as [|c id] eqn:Hid; [by left|right]. by eapply asked_claim.
Qed.

Lemma wp_lease t s l :
  I s l → WP t (maintain_capacity_lease env0 dashboard_file float_text) s l.
Proof.
  intros Hi. unfold maintain_capacity_lease. destruct (float_text _); [|done].
  apply job_wp_get. destruct (capacity_heartbeat_stop s); [done|by apply wp_next_lease].
Qed.

(** *** The caller's input *)

(** As [R t], for a task that does not hold the lock at the start. *)
Definition passed (t : nat) (x y : job * list effect) : Prop :=
  x.2 `prefix_of` y.2 ∧ (t = 0%nat → view y.1 = view x.1 ∧ List.filter of_job y.2 = List.filter of_job x.2).

Lemma R_passed t x y : R t x y → passed t x y.
Proof. by intros (H1 & _ & H3). Qed.

Lemma passed_R t x y : input_lock x.1 ≠ Some t → passed t x y → R t x y.
Proof. intros Hl (H1 & H3). by split; [|split]. Qed.

Lemma passed_trans t x y z : passed t x y → passed t y z → passed t x z.
Proof.
  intros [H1 H2] [H3 H4]. split; [by etrans|]. intros Ht. destruct (H2 Ht) as [<- <-]. by apply H4.
Qed.

Lemma passed_lock t b s l o : of_job o = false → passed t (s, l) (set_lock b s, l ++ [o]).
Proof.
  intros Ho. split; [by apply prefix_app_r|]. intros _. split; [done|]. simpl. rewrite List.filter_app. simpl.
  by rewrite Ho, app_nil_r.
Qed.

(** The lock, and the input under way that goes with it. *)
Lemma I_lock b s l o :
  of_job o = false → (∀ action id p, o ≠ Capacity action id p) → busy (l ++ [o]) = b → I s l → I (set_lock b s) (l ++ [o]).
Proof.
  intros Ho Hcap Hb [_ Hh Ha Hc Hr Hm Hs]. split.
  - intros t. rewrite Hb. done.
  - intros id p Hin. apply effect_snoc_ne in Hin; [|by intros E; eapply Hcap].
    destruct (Hh id p Hin); [by left|right; by apply released_snoc].
  - intros Hne. destruct (Ha Hne); [left; by apply claimed_snoc|by right].
  - intros action id p Hin. apply effect_snoc_ne in Hin; [by eapply Hc|by intros E; eapply Hcap].
  - intros H. by apply elem_snoc, Hr.
  - intros parts Hp. destruct (Hm parts Hp) as [c Hin]. exists c. by apply elem_snoc.
  - intros who Hw. by apply elem_snoc, Hs.
Qed.

Lemma G_lock t b s l : input_lock s = None ∨ input_lock s = Some t → G t (s, l) (set_lock b s, l).
Proof. intros Hl u Hne. split; [done|]. split; [simpl; destruct Hl; congruence|]. by intros ->. Qed.

Lemma wp_with_input_lock t o (k : wco) (h : whandler) s l :
  (∀ u, of_job (o u) = false) → (∀ u l', busy (l' ++ [o u]) = Some u) →
  (∀ s' l', R t (s, l) (s', l') → I s' l' → busy l' = None → legal l' (o t)) → I s l →
  (∀ s' l', R t (s, l) (s', l') → I s' l' → WP t k s' l') →
  (∀ e s' l', R t (s, l) (s', l') → I s' l' → WP t (h e) s' l') →
  WP t (with_input_lock o k h) s l.
Proof.
  intros Hjob Hbusy Hlegal Hi Hk Hh u <-. split; [done|].
  assert (∀ action id p, o t ≠ Capacity action id p) as Hcap.
  { intros action id p E. specialize (Hbusy t []). by rewrite E in Hbusy. }
  intros s1 l1 Hr1 Hi1. split; [|intros e; by apply Hh].
  intros Hfree%bool_decide_eq_true _ _. apply job_wp_get.
  assert (input_lock s ≠ Some t) as Hnot.
  { destruct Hr1 as (_ & Hl & _). simpl in Hl. intros E. destruct (Hl E). congruence. }
  assert (busy l1 = None) as Hb.
  { destruct (busy l1) as [w|] eqn:E; [|done]. apply (i_busy _ _ Hi1) in E. congruence. }
  split; [by apply G_lock; left|]. split; [by apply (Hlegal s1 l1)|].
  split; [apply G_emit; [by right|by right]|].
  assert (passed t (s, l) (set_lock (Some t) s1, l1 ++ [o t])) as Hp1.
  { eapply passed_trans; [by apply R_passed|by apply passed_lock]. }
  assert (∀ k, (∀ s' l', R t (s, l) (s', l') → I s' l' → WP t k s' l') →
    ∀ s' l', R t (set_lock (Some t) s1, l1 ++ [o t]) (s', l') → I s' l' →
    WP t (Emit (InputOver t) (modify (set_lock None) k)) s' l') as Hunlock.
  { intros k' Hk' s' l' Hr Hi'. pose proof Hr as (_ & Hl & _). simpl in Hl.
    destruct (Hl eq_refl) as [Hl1 Hl2]. rewrite Hbusy in Hl2. split; [exact Hl2|].
    split; [apply G_emit; [by right|by right]|]. apply job_wp_get. split; [by apply G_lock; right|].
    apply Hk'; [|apply I_lock; [done|done|by rewrite busy_snoc|done]]. apply passed_R; [done|].
    eapply passed_trans; [exact Hp1|]. eapply passed_trans; [by apply R_passed|by apply passed_lock]. }
  apply job_wp_io; [by apply I_lock|apply Hunlock, Hk|intros e; apply (Hunlock (h e)), Hh].
Qed.

Lemma prefix_elem (o : effect) l l' : o ∈ l → l `prefix_of` l' → o ∈ l'.
Proof. intros Ho [k ->]. apply elem_of_app. by left. Qed.

Section loops.
(** What follows a loop, from where it began. *)
Context (t : nat) (k : wcont) (h : whandler) (s : job) (l : list effect).
Context (Hk : ∀ v s' l', R t (s, l) (s', l') → I s' l' → WP t (k v) s' l')
  (Hh : ∀ e s' l', R t (s, l) (s', l') → I s' l' → WP t (h e) s' l').

Lemma wp_next_frame s1 l1 :
  R t (s, l) (s1, l1) → I s1 l1 → PipelineStart ∈ l1 → WP t (next_frame k h) s1 l1.
Proof.
  intros Hr Hi Hp. split; [done|]. split; [done|]. intros s' l' Hr' Hi'.
  split; intros; [apply Hk|apply Hh]; [by etrans|done|by etrans|done].
Qed.

Lemma wp_feed_audio pcm (k' : wco) :
  pcm ≠ [] → I s l → PipelineStart ∈ l → (∀ s' l', R t (s, l) (s', l') → I s' l' → WP t k' s' l') →
  WP t (with_input_lock (λ t, PipelineAudio t pcm) k' h) s l.
Proof.
  intros Hpcm Hi Hp Hk'. apply wp_with_input_lock; try done.
  - intros u l'. by rewrite busy_snoc.
  - intros s' l' Hr _ Hb. split; [|done]. by apply (elem_later _ t (s, l) (s', l')).
Qed.

Lemma wp_audio_round v : I s l → PipelineStart ∈ l → WP t (audio_round v k h) s l.
Proof.
  intros Hi Hp. assert (∀ s1 l1, R t (s, l) (s1, l1) → I s1 l1 → WP t (next_frame k h) s1 l1) as Hnext.
  { intros s1 l1 Hr Hi1. apply wp_next_frame; [done..|]. by apply (elem_later _ t (s, l) (s1, l1)). }
  destruct v as [| | | | | |[|c pcm]|[|c tail]|]; cbn [audio_round]; try by apply Hh.
  - split; [done|]. intros s1 l1 Hr Hi1. split; [intros _ _ _; by apply Hnext|intros e; by apply Hh].
  - by apply wp_feed_audio.
  - by apply Hk.
  - apply wp_feed_audio; [done..|]. by apply Hk.
Qed.

Lemma job_wp_next_chunk who text : I s l → Serving who ∈ l → slen text ≤ 4096 → WP t (next_chunk who text k h) s l.
Proof. intros Hi Hp Hlen. split; [done|]. split; [done|]. intros s' l' Hr Hi'. split; intros; by auto. Qed.

Lemma wp_text_round who text v :
  I s l → Serving who ∈ l → slen text ≤ 4096 → WP t (text_round who text v k h) s l.
Proof.
  intros Hi Hp Hlen. destruct v as [| | | | | | | |[chunk|]]; cbn [text_round]; cbv zeta; try by apply Hh.
  - destruct (4096 <? slen (text ++ chunk)) eqn:E; reflect_bool; [by apply Hk|]. by apply job_wp_next_chunk.
  - destruct (py_strip text =s []) eqn:E; [by apply Hk|]. apply str_eqb_false in E.
    split; [done|]. intros s1 l1 Hr1 Hi1. split; [|intros e; by apply Hh].
    intros Hready _ _. apply wp_with_input_lock; try done.
    + intros u l'. by rewrite busy_snoc.
    + intros s' l' Hr Hi' Hb. split; [apply (elem_later _ t (s1, l1) (s', l')); [by apply (i_ready _ _ Hi1)|done]|].
      split; [|done]. apply (elem_later _ t (s, l) (s', l')); [done|by etrans].
    + intros s' l' Hr. apply Hk. by etrans.
    + intros e s' l' Hr. apply Hh. by etrans.
Qed.
End loops.

(** *** Transfers *)

Definition says_connected (result : dict) : bool := jeq_str result.[lit "status"] (lit "connected").

Definition connecting : dict := [(lit "status", JStr (lit "connecting"))].

Lemma connecting_early : says_connected connecting = false ∧ ∀ name code, connecting ≠ bridge_broken name code.
Proof. split; [by vm_compute|]. by intros name code E%(f_equal length). Qed.

Lemma failed_early error :
  says_connected (bridge_failed error) = false ∧ ∀ name code, bridge_failed error ≠ bridge_broken name code.
Proof. split; [by vm_compute|]. by intros name code E%(f_equal length). Qed.

Lemma broken_status name code : says_connected (bridge_broken name code) = false.
Proof. by vm_compute. Qed.

Lemma connected_whole r who id name code : bridge_connected r who id ≠ bridge_broken name code.
Proof. by intros E%(f_equal length). Qed.

Lemma bridge_refused cfg room session caller result :
  bridge_request cfg room session caller = inl result → ∃ error, result = bridge_failed error.
Proof.
  unfold bridge_request. destruct (_ && _); [intros [= <-]; eauto|].
  match goal with |- (if ?b then _ else _) = _ → _ => destruct b; [intros [= <-]; eauto|done] end.
Qed.

Lemma job_wp_send t o (k : wco) (h : whandler) s l :
  plain o = true → of_job o = false → (∀ action id p, o ≠ Capacity action id p) → legal l o → I s l →
  (∀ s' l', l ++ [o] `prefix_of` l' → I s' l' → WP t k s' l') →
  (∀ e s' l', l ++ [o] `prefix_of` l' → I s' l' → WP t (h e) s' l') → WP t (send o k h) s l.
Proof.
  intros Hp Ho Hc Hl Hi Hk Hh. apply job_wp_emit; [done|by destruct o|by right|].
  assert (I s (l ++ [o])) as Hi' by (apply I_emit; [done| |done]; intros ??? E; by apply Hc in E).
  apply job_wp_io; [done| |]; [intros s' l' [Hr _]|intros e s' l' [Hr _]]; auto.
Qed.

Lemma wp_transfer t c message session k h s l :
  t ≠ 0%nat → I s l → (∃ config, PipelineMade config c ∈ l) →
  (∀ s' l', I s' l' → WP t k s' l') → (∀ e s' l', I s' l' → WP t (h e) s' l') →
  WP t (transfer_handler env0 dashboard_file float_text room_name sip_error c message session k h) s l.
Proof.
  intros Ht Hi Hmade Hk Hh. unfold transfer_handler. destruct (negb _) eqn:Hen; [by apply Hk|].
  apply negb_false_iff in Hen. cbv zeta.
  set (reason := take 240 _). set (caller := if (_ && _) then _ else _). clearbody reason caller.
  destruct connecting_early as [Hc1 Hc2]. fold connecting.
  assert (legal l (MarkTransfer reason connecting)) as Hl.
  { split; [intros H; unfold says_connected in Hc1; congruence|]. intros name code E. by apply Hc2 in E. }
  apply job_wp_send; [done|done|done|exact Hl|done| |].
  { intros s1 l1 Hp1 Hi1.
    assert (∃ config, PipelineMade config c ∈ l1) as Hmade1.
    { destruct Hmade as [config H]. exists config. eapply prefix_elem; [|done]. by apply elem_snoc. }
    assert (∀ result s2 l2, I s2 l2 →
      (says_connected result = true → ∃ r who id, SipAnswer r who id ∈ l2 ∧ result = bridge_connected r who id) →
      (∀ name code, result = bridge_broken name code →
       ∃ r, CreateSip r ∈ l2 ∧ RemoveParticipant room_name (sip_leg r) ∈ l2) →
      WP t (send (MarkTransfer reason result)
        (modify (set_handoff (jeq_str result.[lit "status"] (lit "connected")))
           (if jeq_str result.[lit "status"] (lit "connected")
            then release_capacity_slot env0 dashboard_file float_text room_name k h else k)) h) s2 l2) as Hafter.
    { intros result s2 l2 Hi2 H1 H2. apply job_wp_send; [done|done|done|by split|done| |].
      - intros s3 l3 _ Hi3. apply job_wp_get. apply job_wp_put; [done|by right|].
        assert (I (set_handoff (jeq_str result.[lit "status"] (lit "connected")) s3) l3) by by apply (I_put s3).
        destruct (jeq_str _ _) eqn:E; [|by apply Hk]. apply wp_slot; auto.
      - intros e s3 l3 _ Hi3. by apply Hh. }
    unfold bridge_call.
    destruct (bridge_request _ _ _ _) as [result|r] eqn:Hb.
    - apply bridge_refused in Hb as [error ->]. destruct (failed_early error) as [Hf1 Hf2].
      apply Hafter; [done|congruence|]. intros name code E. by apply Hf2 in E.
    - apply bridge_request_pinned in Hb as (Hto & Hne & _ & _ & Hroom & _).
      destruct Hmade1 as [config Hm]. apply job_wp_emit; [|done|by right|].
      { exists config, c. done. }
      assert (I s1 (l1 ++ [CreateSip r])) as Hi1' by by apply I_emit.
      apply job_wp_await; [done| |].
      + intros v s2 l2 Hv [Hp2 _] Hi2. destruct v as [| | | |who id| | | |]; try done.
        assert (CreateSip r ∈ l2) as Hdial by (eapply prefix_elem; [|exact Hp2]; apply elem_of_app; right; by left).
        apply job_wp_emit; [done|done|by right|].
        apply Hafter; [by apply I_emit| |].
        * intros _. exists r, who, id. split; [|done]. apply elem_of_app. right. by left.
        * intros name code E. by apply connected_whole in E.
      + intros e s2 l2 [Hp2 _] Hi2. set (after := match e with CancelledError => _ | _ => _ end).
        assert (CreateSip r ∈ l2) as Hdial by (eapply prefix_elem; [|exact Hp2]; apply elem_of_app; right; by left).
        assert (∀ s3 l3, I s3 l3 → l2 ++ [RemoveParticipant room_name (sip_leg r)] `prefix_of` l3 → WP t after s3 l3) as Ha.
        { intros s3 l3 Hi3 Hr. assert (CreateSip r ∈ l3 ∧ RemoveParticipant room_name (sip_leg r) ∈ l3).
          { split; (eapply prefix_elem; [|exact Hr]); apply elem_of_app; [by left|right; by left]. }
          unfold after. destruct e; try (by apply Hh);
            (apply Hafter; [done|rewrite broken_status; done|intros name code _; by exists r]). }
        apply job_wp_send; [done..| |].
        * intros s3 l3 Hp3 Hi3. by apply Ha.
        * intros e' s3 l3 Hp3 Hi3. assert (WP t after s3 l3) by by apply Ha.
          unfold logged. destruct e'; try done. by apply Hh. }
  intros e s' l' _ Hi'. by apply Hh.
Qed.

(** *** Callbacks *)

Lemma wp_receive_text t who sender s l :
  t ≠ 0%nat → I s l → Serving who ∈ l → WP t (receive_text who sender) s l.
Proof.
  intros Ht Hi Hw. unfold receive_text. destruct (sender =s who) eqn:E; [|done].
  apply str_eqb_true in E as ->. by apply job_wp_next_chunk.
Qed.

(** A task started, and noted in [tasks]. *)
Lemma wp_spawn_task t (p : wco) (k : nat → wco) s l :
  I s l → (∀ n s' l', n ≠ 0%nat → R n (s, l) (s', l') → I s' l' → WP n p s' l') →
  (∀ n, I (add_task n s) l → WP t (k n) (add_task n s) l) → WP t (spawn_task p k) s l.
Proof.
  intros Hi Hp Hk. split; [intros n Hn s' l' Hr Hi'; apply Hp; [lia|done..]|].
  intros n. apply job_wp_get, job_wp_put; [done|by right|]. apply Hk. by apply (I_put s).
Qed.

Lemma job_wp_body n c s l : n ≠ 0%nat → I s l →
  WP n (wbody env0 dashboard_file float_text room_name sip_error c) s l.
Proof.
  intros Hn Hi. destruct c as [who|sender|topic sender payload| |message session|t]; cbn [wbody]; apply job_wp_get || idtac.
  - destruct (bool_decide _); [|done]. apply job_wp_put; [done|by right|]. by apply (I_put s).
  - destruct (text_handler s); [|done]. destruct (participant s) as [who|] eqn:Hw; [|done].
    apply wp_spawn_task; [done| |by auto]. intros n' s' l' Hn' Hr Hi'. apply wp_receive_text; [done|done|].
    apply (elem_later _ n' (s, l) (s', l')); [by apply (i_participant _ _ Hi)|done].
  - destruct (data_handler s); [|done]. unfold on_data_received.
    destruct sender as [sender|]; [|done]. destruct (participant s) as [who|] eqn:Hw; [|done].
    destruct (negb _); [done|]. destruct (_ && _).
    + apply wp_spawn_task; [done| |by auto]. intros n' s' l' _ _ Hi'. by apply job_wp_send.
    + destruct (topic =s _); [|done]. destruct payload as [v|[]]; try done.
      apply job_wp_emit; [done|done|by right|]. by apply I_emit.
  - destruct (bool_decide _); [|done]. apply job_wp_send; try done. intros s' l' _ Hi'.
    apply job_wp_get, job_wp_put; [done|by right|]. by apply (I_put s').
  - destruct (pipeline s) as [c|] eqn:Hp; [|done]. apply wp_transfer; [done|done|by apply (i_pipeline _ _ Hi)|done|done].
  - done.
Qed.

(** ** The job *)

(** What task 0 keeps knowing: its variables and its effects are its own. *)
Lemma job_view s l s' l' : R 0 (s, l) (s', l') → view s' = view s ∧ List.filter of_job l' = List.filter of_job l.
Proof. intros (_ & _ & H). by apply H. Qed.

Lemma job_effect o s l s' l' : of_job o = true → R 0 (s, l) (s', l') → o ∈ l' → o ∈ l.
Proof.
  intros Ho Hr Hin. apply job_view in Hr as [_ E]. rewrite list_elem_of_In in Hin |- *.
  assert (In o (List.filter of_job l')) as H by by apply List.filter_In. rewrite E in H. by apply List.filter_In in H as [? _].
Qed.

(** Where the job stands whenever it may fail: nothing was reported yet, and the claim, the
    pipeline and the capacity are those of its variables. *)
Record tracked (s : job) (l : list effect) : Prop := {
  t_unreported r st p : FinishOutbound r st p ∉ l;
  t_refused r p : RefuseOutbound r p ∈ l → outbound_claim s = [];
  t_claim claim : Claimed claim ∈ l → claim ≠ [] → outbound_claim s = claim;
  t_claimed : outbound_claim s ≠ [] →
    Claimed (outbound_claim s) ∈ l ∧ outbound_call_ref s = claim_ref (outbound_claim s);
  t_settings : outbound_claim s ≠ [] → ∃ base token, outbound_settings ENV float_text = Ok (base, token)
    ∧ (base =s []) || (token =s []) = false;
  t_made config parts : PipelineMade config parts ∈ l → pipeline s = Some parts;
}.

Lemma tracked_later s l s' l' : R 0 (s, l) (s', l') → tracked s l → tracked s' l'.
Proof.
  intros Hr [H1 H0 H2 H3 H4 H5]. pose proof (job_view _ _ _ _ Hr) as [Hv _].
  injection Hv as Eh Er Ec Eref Ef Eso Est Ep Et Epi. split; rewrite ?Ec, ?Eref, ?Epi.
  - intros r st p Hin. eapply H1. by eapply job_effect in Hin.
  - intros r p Hin. eapply (H0 r p). by eapply job_effect in Hin.
  - intros claim Hin. apply H2. by eapply job_effect in Hin.
  - intros Hne. destruct (H3 Hne) as [Hin E]. split; [|done]. by apply (elem_later _ 0 (s, l) (s', l')).
  - done.
  - intros config parts Hin. eapply H5. by eapply job_effect in Hin.
Qed.

(** Effects that [tracked] does not speak of. *)
Definition untracked (o : effect) : bool :=
  match o with FinishOutbound _ _ _ | RefuseOutbound _ _ | Claimed _ | PipelineMade _ _ => false | _ => true end.

Lemma tracked_emit o s l : untracked o = true → tracked s l → tracked s (l ++ [o]).
Proof.
  intros Ho [H1 H0 H2 H3 H4 H5]. split.
  - intros r st p Hin. apply effect_snoc_ne in Hin; [by eapply H1|by intros <-].
  - intros r p Hin. apply effect_snoc_ne in Hin; [by eapply H0|by intros <-].
  - intros claim Hin. apply H2. eapply effect_snoc_ne; [done|by intros <-].
  - intros Hne. destruct (H3 Hne) as [Hin E]. split; [by apply elem_snoc|done].
  - done.
  - intros config parts Hin. eapply H5. eapply effect_snoc_ne; [done|by intros <-].
Qed.

Lemma tracked_put s s' l :
  (outbound_claim s', outbound_call_ref s', pipeline s') = (outbound_claim s, outbound_call_ref s, pipeline s) →
  tracked s l → tracked s' l.
Proof. intros [= E1 E2 E3] [H1 H0 H2 H3 H4 H5]. split; rewrite ?E1, ?E2, ?E3; done. Qed.

(** While a prepared call is held, nothing was reported. *)
Lemma nothing_reported s l : tracked s l → outbound_claim s ≠ [] → ∀ o, o ∈ l → reports o = None.
Proof.
  intros Ht Hne o Ho. destruct o; try done.
  - by apply (t_refused _ _ Ht) in Ho.
  - by apply (t_unreported _ _ Ht) in Ho.
Qed.

(** *** The cleanup *)

Lemma released_later s l s' l' : R 0 (s, l) (s', l') → all_released l → all_released l'.
Proof.
  intros Hr H id Hne [p Hin]. destruct (H id Hne) as [q Hq].
  - exists p. by eapply job_effect in Hin.
  - exists q. by apply (elem_later _ 0 (s, l) (s', l')).
Qed.

Lemma reported_later s l s' l' : R 0 (s, l) (s', l') → all_reported l → all_reported l'.
Proof.
  intros Hr H claim Hin Hq. destruct (H claim) as (st & p & Hf); [by eapply job_effect in Hin|done|].
  exists st, p. by apply (elem_later _ 0 (s, l) (s', l')).
Qed.

Lemma closed_later s l s' l' : R 0 (s, l) (s', l') → all_closed l → all_closed l'.
Proof.
  intros Hr H config parts Hin. apply (elem_later _ 0 (s, l) (s', l')); [|done]. eapply H. by eapply job_effect in Hin.
Qed.

(** Facts that the job keeps while it waits. *)
Definition kept (P : job → list effect → Prop) : Prop :=
  ∀ s l s' l', R 0 (s, l) (s', l') → P s l → P s' l'.

Lemma kept_released : kept (λ _ l, all_released l). Proof. intros s l s' l'. apply released_later. Qed.
Lemma kept_reported : kept (λ _ l, all_reported l). Proof. intros s l s' l'. apply reported_later. Qed.
Lemma kept_closed : kept (λ _ l, all_closed l). Proof. intros s l s' l'. apply closed_later. Qed.
Lemma kept_tracked : kept tracked. Proof. intros s l s' l'. apply tracked_later. Qed.
Lemma kept_and P Q : kept P → kept Q → kept (λ s l, P s l ∧ Q s l).
Proof. intros HP HQ s l s' l' Hr [H1 H2]. split; [by eapply HP|by eapply HQ]. Qed.

(** [p] is correct wherever the invariant and [P] hold. *)
Definition from (P : job → list effect → Prop) (p : wco) : Prop := ∀ s l, I s l → P s l → WP 0 p s l.

Lemma from_throw P e : from P (Throw e). Proof. by intros s l Hi _. Qed.
Lemma from_done P : from P Done. Proof. by intros s l Hi _. Qed.

Lemma from_io P q k h : kept P → from P k → (∀ e, from P (h e)) → from P (io q k h).
Proof.
  intros HP Hk Hh s l Hi H. apply job_wp_io; [done| |].
  - intros s' l' Hr Hi'. apply Hk; [done|by eapply HP].
  - intros e s' l' Hr Hi'. apply Hh; [done|by eapply HP].
Qed.

Lemma from_when P b (p : wco → wco) k : (from P k → from P (p k)) → from P k → from P (when b p k).
Proof. intros Hp Hk. destruct b; [by apply Hp|done]. Qed.

Lemma from_leave P after : kept P → (∀ s l, P s l → settled l) → (∀ s l, I s l → WP 0 after s l) → from P (leave_room after).
Proof.
  intros HP Hset Ha s l Hi H. apply job_wp_get. revert s l Hi H.
  assert (∀ a b, from P (when a (λ k, io QUnit k Throw) (when b (λ k, io QUnit k Throw) (send Disconnect after Throw)))) as Hall.
  { intros a b. assert (from P (send Disconnect after Throw)) as Hd.
    { intros s l Hi H. apply job_wp_emit; [by eapply Hset|done|by left|]. apply job_wp_io; [by apply I_emit| |done].
      intros s' l' _. apply Ha. }
    apply from_when; [intros; apply from_io; [done..|intros; apply from_throw]|].
    apply from_when; [intros; apply from_io; [done..|intros; apply from_throw]|done]. }
  intros s l. apply Hall.
Qed.

Lemma finish_raises ref status reason conversation e base token :
  outbound_settings ENV float_text = Ok (base, token) → (base =s []) || (token =s []) = false →
  finish_call ENV float_text ref status reason conversation = Raise e → ∃ e', quote ref = Raise e'.
Proof. intros Hs Hc. unfold finish_call. rewrite Hs. simpl. rewrite Hc. destruct (quote ref); naive_solver. Qed.

Lemma finish_posted ref status reason conversation base token :
  outbound_settings ENV float_text = Ok (base, token) → (base =s []) || (token =s []) = false →
  finish_call ENV float_text ref status reason conversation ≠ Ok None.
Proof. intros Hs Hc. unfold finish_call. rewrite Hs. simpl. rewrite Hc. by destruct (quote ref). Qed.

Definition finishing (s : job) (l : list effect) : Prop := tracked s l ∧ all_released l ∧ all_closed l.

Lemma kept_finishing : kept finishing.
Proof. apply kept_and; [apply kept_tracked|]. apply (kept_and _ _ kept_released kept_closed). Qed.

Definition finished (s : job) (l : list effect) : Prop := settled l.

Lemma kept_finished : kept finished.
Proof. intros s l s' l' Hr (H1 & H2 & H3). split; [|split]; [by eapply released_later|by eapply reported_later|by eapply closed_later]. Qed.

Lemma settled_finish ref status p s l :
  tracked s l → all_released l → all_closed l → outbound_claim s ≠ [] → ref = claim_ref (outbound_claim s) →
  settled (l ++ [FinishOutbound ref status p]).
Proof.
  intros Ht Hr Hc Hne ->. split; [|split].
  - intros id Hid [q Hin]. apply effect_snoc_ne in Hin; [|done]. apply released_snoc, Hr; [done|by exists q].
  - intros claim Hin [Hcl _]. apply effect_snoc_ne in Hin; [|done]. rewrite (t_claim _ _ Ht claim Hin Hcl).
    exists status, p. apply elem_of_app. right. by left.
  - intros config parts Hin. apply effect_snoc_ne in Hin; [|done]. by eapply elem_snoc, Hc.
Qed.

Lemma from_finish conversation k :
  from finished k → from finishing (finish_claim env0 dashboard_file float_text conversation k).
Proof.
  intros Hk s l Hi (Ht & Hrel & Hclo). apply job_wp_get.
  destruct (outbound_claim s) as [|kv claim] eqn:Ec.
  { apply Hk; [done|]. split; [done|]. split; [|done]. intros claim Hin [Hne _].
    rewrite <-(t_claim _ _ Ht claim Hin Hne) in Hne. congruence. }
  assert (outbound_claim s ≠ []) as Hne by congruence. clear Ec kv claim.
  destruct (t_claimed _ _ Ht Hne) as [Hin Eref]. destruct (t_settings _ _ Ht Hne) as (base & token & Hs & Hc).
  cbv zeta. unfold finish_outbound.
  match goal with |- context [finish_call _ _ ?a ?b ?c ?d] => set (status := b); destruct (finish_call ENV float_text a status c d) as [[p|]|e] eqn:Ef end.
  - assert (settled (l ++ [FinishOutbound (outbound_call_ref s) status p])) as Hset by by eapply settled_finish.
    assert (I s (l ++ [FinishOutbound (outbound_call_ref s) status p])) as Hi' by by apply I_emit.
    apply wp_http; [|done|by left|done| |].
    + split; [by exists (outbound_claim s)|]. by eapply nothing_reported.
    + intros _ s' l' Hr Hi2. apply Hk; [done|]. by apply (kept_finished _ _ _ _ Hr).
    + intros e s' l' Hr Hi2. assert (WP 0 k s' l') by (apply Hk; [done|by apply (kept_finished _ _ _ _ Hr)]).
      by destruct e.
  - by eapply finish_posted in Ef.
  - eapply finish_raises in Ef as [e' Hq]; [|done..].
    assert (WP 0 k s l); [|by destruct e]. apply Hk; [done|]. split; [done|]. split; [|done].
    intros claim Hcl [Hn [q Hq']]. rewrite <-(t_claim _ _ Ht claim Hcl Hn), <-Eref, Hq in Hq'. done.
Qed.

Definition closing (s : job) (l : list effect) : Prop := tracked s l ∧ all_released l.

Lemma kept_closing : kept closing.
Proof. apply (kept_and _ _ kept_tracked kept_released). Qed.

Lemma released_emit o l : (∀ id p, o ≠ Capacity (lit "claim") id p) → all_released l → all_released (l ++ [o]).
Proof.
  intros Ho H id Hne [p Hin]. apply effect_snoc_ne in Hin; [|intros E; by eapply Ho].
  apply released_snoc, H; [done|by exists p].
Qed.

Lemma from_close k :
  (∀ conversation, from finishing (k conversation)) → from closing (close_call k).
Proof.
  intros Hk s l Hi [Ht Hr]. apply job_wp_get, job_wp_put; [done|by left|]. apply job_wp_get.
  set (s1 := set_handlers (text_handler s) false s).
  assert (I s1 l ∧ closing s1 l) as [Hi1 H1].
  { split; [by apply (I_put s)|]. split; [|done]. by apply (tracked_put s). }
  assert (pipeline s1 = pipeline s) as Hp1 by done. rewrite Hp1. clearbody s1.
  set (tail := modify (set_participant None) _).
  assert (∀ s2 l2, I s2 l2 → closing s2 l2 → pipeline s2 = pipeline s → WP 0 tail s2 l2) as Htail.
  { intros s2 l2 Hi2 [Ht2 Hr2] Hp. unfold tail. apply job_wp_get, job_wp_put; [done|by left|]. apply job_wp_get, job_wp_put; [done|by left|].
    match goal with |- WP 0 _ ?x _ => set (s3 := x) end.
    assert (I s3 l2) as Hi3.
    { destruct Hi2 as [Hb Hh Ha Hc Hrd Hm Hs]. split; done. }
    assert (closing s3 l2) as H3 by (split; [by apply (tracked_put s2)|done]).
    assert (pipeline s3 = pipeline s) as Hp3 by done. clearbody s3. clear Hi2 Ht2 Hr2 Hp s2.
    destruct (pipeline s) as [c|] eqn:Ep.
    - assert (from closing (Emit PipelineClose (Await (WIo QClose)
        (λ a, k match a with RClosed id => id | _ => JNull end) Throw))) as Hlast.
      { intros s4 l4 Hi4 [Ht4 Hr4]. apply job_wp_emit; [done|done|by left|].
        assert (I s4 (l4 ++ [PipelineClose])) as Hi5 by by apply I_emit.
        assert (finishing s4 (l4 ++ [PipelineClose])) as H5.
        { split; [by apply tracked_emit|]. split; [by apply released_emit|].
          intros config parts _. apply elem_of_app. right. by left. }
        apply job_wp_await; [done| |done]. intros v s6 l6 _ Hr6 Hi6. apply Hk; [done|].
        by apply (kept_finishing _ _ _ _ Hr6). }
      destruct (passkey_flow c); [|by apply Hlast].
      by apply (from_io closing); [apply kept_closing|exact Hlast|intros; apply from_throw|..].
    - apply Hk; [done|]. destruct H3 as [Ht3 Hr3]. split; [done|]. split; [done|].
      intros config parts Hin. apply (t_made _ _ Ht3) in Hin. congruence. }
  destruct (stream s1); [|by apply Htail]. apply job_wp_io; [done| |done].
  intros s2 l2 Hr2 Hi2. apply Htail; [done|by apply (kept_closing _ _ _ _ Hr2)|].
  apply job_view in Hr2 as [[= _ _ _ _ _ _ _ _ _ E] _]. congruence.
Qed.


Lemma held_released s l : I s l → capacity_reservation_id s = [] → all_released l.
Proof. intros Hi E id Hne [p Hin]. destruct (i_held _ _ Hi id p Hin); [congruence|done]. Qed.

Lemma from_release k : from closing k → from tracked (release_at_end env0 dashboard_file float_text room_name k).
Proof.
  intros Hk s l Hi Ht. apply job_wp_get. destruct (capacity_reservation_id s) as [|c id] eqn:Hid.
  { apply Hk; [done|]. split; [done|by eapply held_released]. }
  unfold capacity_call. destruct (post_for "release" (c :: id)) as [p|e] eqn:Hp.
  - assert (I s (l ++ [Capacity (lit "release") (c :: id) p])) as Hi' by (apply I_capacity; auto).
    assert (closing s (l ++ [Capacity (lit "release") (c :: id) p])) as Hcl.
    { split; [by apply tracked_emit|]. intros i Hne [q Hin]. apply effect_snoc_ne in Hin; [|done].
      destruct (i_held _ _ Hi i q Hin) as [<-|]; [|by apply released_snoc].
      exists p. apply elem_of_app. right. rewrite Hid. by left. }
    apply wp_http; [|done|by left|done| |].
    + simpl. split; [done|]. by eapply asked_claim.
    + intros _ s' l' Hr Hi2. apply Hk; [done|]. by apply (kept_closing _ _ _ _ Hr).
    + intros e s' l' Hr Hi2. assert (WP 0 k s' l') by (apply Hk; [done|by apply (kept_closing _ _ _ _ Hr)]).
      by destruct e.
  - assert (WP 0 k s l); [|by destruct e]. apply Hk; [done|]. split; [done|]. intros i Hne [q Hin].
    destruct (i_held _ _ Hi i q Hin) as [<-|]; [|done]. exfalso.
    apply (i_posted _ _ Hi) in Hin as [p Hin]. apply no_claim_post in Hp as [e' Hp]. congruence.
Qed.

Lemma job_wp_cancel_all ts k s l : WP 0 k s l → WP 0 (cancel_all ts k) s l.
Proof. intros Hk. by induction ts. Qed.

Lemma from_all P ts k : kept P → from P k → from P (Await (WAll ts) (λ _, k) Throw).
Proof. intros HP Hk s l Hi H. split; [done|]. intros s' l' Hr Hi'. split; [|done]. intros _ _ _. apply Hk; [done|by eapply HP]. Qed.

Lemma from_cleanup after :
  (∀ s l, I s l → WP 0 after s l) → from tracked (cleanup env0 dashboard_file float_text room_name after).
Proof.
  intros Ha s l Hi Ht. apply job_wp_get, job_wp_put; [done|by left|]. apply job_wp_get.
  set (s1 := set_stop s). assert (I s1 l) as Hi1 by by apply (I_put s).
  assert (tracked s1 l) as Ht1 by by apply (tracked_put s). clearbody s1.
  cbv zeta. set (rest := release_at_end _ _ _ _ _).
  assert (from tracked rest) as Hrest.
  { apply from_release. intros s2 l2 Hi2 H2. apply job_wp_get, job_wp_cancel_all. revert s2 l2 Hi2 H2.
    intros s2 l2 Hi2 H2. apply (from_all closing); [apply kept_closing| |done..].
    apply from_close. intros conversation. apply from_finish. by apply from_leave; [apply kept_finished|..]. }
  destruct (capacity_heartbeat_task s1) as [t|]; [|by apply Hrest].
  by apply (from_all tracked); [apply kept_tracked|..].
Qed.

Lemma from_failed e : from tracked (failed env0 dashboard_file float_text room_name describe e).
Proof.
  destruct e; try (by apply from_cleanup);
    (intros s l Hi Ht; apply job_wp_get, job_wp_put; [done|by left|];
     apply from_cleanup; [done|by apply (I_put s)|by apply (tracked_put s)]).
Qed.

(** *** The way to the call *)

(** Effects on the way that leave the stages alone. *)
Definition quiet (o : effect) : bool :=
  match o with
  | Connect | AskHeaders | AskRoute _ _ | AskAgent _ | ClaimOutbound _ | ClaimAnswer _ | PipelineStart => true
  | _ => false
  end.

Definition steady (P : job → list effect → Prop) : Prop :=
  kept P ∧ ∀ s l o, quiet o = true → P s l → P s (l ++ [o]).

Lemma steady_and P Q : steady P → steady Q → steady (λ s l, P s l ∧ Q s l).
Proof.
  intros [HP HP'] [HQ HQ']. split; [by apply kept_and|]. intros s l o Ho [H1 H2]. split; [by apply HP'|by apply HQ'].
Qed.

Lemma steady_view (P : job → Prop) : (∀ s s', view s' = view s → P s → P s') → steady (λ s _, P s).
Proof. intros HP. split; [|done]. intros s l s' l' [Hv _]%job_view. by apply HP. Qed.

Lemma steady_grows (P : list effect → Prop) : (∀ l l', l `prefix_of` l' → P l → P l') → steady (λ _ l, P l).
Proof.
  intros HP. split.
  - intros s l s' l' [Hp _]. exact (HP _ _ Hp).
  - intros _ l o _. apply HP. by apply prefix_app_r.
Qed.

Lemma steady_elem (o : effect) : steady (λ _ l, o ∈ l).
Proof. apply (steady_grows (λ l, o ∈ l)). intros l l' Hp Ho. by eapply prefix_elem. Qed.

(** What holds of all of the job's own effects of a kind that is not [quiet]. *)
Lemma steady_all {A} (f : A → effect) (Q : A → Prop) :
  (∀ a, of_job (f a) = true) → (∀ a, quiet (f a) = false) → steady (λ _ l, ∀ a, f a ∈ l → Q a).
Proof.
  intros Hj Hq. split.
  - intros s l s' l' Hr H a Ha. apply H. by eapply job_effect in Ha.
  - intros _ l o Ho H a Ha. apply H. apply effect_snoc_ne in Ha; [done|]. intros <-. by rewrite Hq in Ho.
Qed.

Lemma steady_const (P : Prop) : steady (λ _ _, P).
Proof. split; [intros s l s' l' _ H|intros s l o _ H]; exact H. Qed.

Lemma steady_ex {A} (P : A → job → list effect → Prop) : (∀ a, steady (P a)) → steady (λ s l, ∃ a, P a s l).
Proof.
  intros HP. split.
  - intros s l s' l' Hr [a H]. exists a. by eapply (HP a).
  - intros s l o Ho [a H]. exists a. by apply (HP a).
Qed.

Lemma steady_tracked : steady tracked.
Proof. split; [apply kept_tracked|]. intros s l o Ho. apply tracked_emit. by destruct o. Qed.

Lemma granted_later id l l' : l `prefix_of` l' → granted_capacity id l → granted_capacity id l'.
Proof.
  intros Hp [[p H] (a & d & Ha & Hd)]. split; [exists p|exists a, d; split; [|done]]; by eapply prefix_elem.
Qed.

Lemma claimed_later id l l' : l `prefix_of` l' → claimed_capacity id l → claimed_capacity id l'.
Proof. intros Hp [p H]. exists p. by eapply prefix_elem. Qed.

(** A stage of the job: where it may fail at any time. *)
Record stage (P : job → list effect → Prop) : Prop := {
  stage_steady : steady P;
  stage_tracked s l : P s l → tracked s l;
}.

Abbreviation FAILED := (failed env0 dashboard_file float_text room_name describe).

Lemma stage_failed P e : stage P → from P (FAILED e).
Proof. intros HP s l Hi H. apply from_failed; [done|by apply (stage_tracked P)]. Qed.

Lemma stage_lift P {A} (m : exn A) k : stage P → (∀ a, m = Ok a → from P (k a)) → from P (lift m k FAILED).
Proof. intros HP Hk. destruct m; simpl; [by apply Hk|by apply stage_failed]. Qed.

Lemma stage_await P q k : stage P → (∀ v, from P (k v)) → from P (Await (WIo q) k FAILED).
Proof.
  intros HP Hk s l Hi H. apply job_wp_await; [done| |].
  - intros v s' l' _ Hr Hi'. apply Hk; [done|]. by eapply (stage_steady P HP).
  - intros e s' l' Hr Hi'. apply (stage_failed P); [done..|]. by eapply (stage_steady P HP).
Qed.

Lemma stage_io P q k : stage P → from P k → from P (io q k FAILED).
Proof. intros HP Hk. by apply stage_await. Qed.

Lemma quiet_facts o : quiet o = true → plain o = true ∧ is_input o = false ∧ of_job o = true ∧
  ∀ action id p, o = Capacity action id p → ∃ p', post_for "claim" id = Ok p'.
Proof. by destruct o. Qed.

Lemma stage_emit P o k : stage P → quiet o = true → (∀ s l, P s l → legal l o) → from P k → from P (Emit o k).
Proof.
  intros HP Ho Hl Hk s l Hi H. pose proof (quiet_facts o Ho) as (H1 & H2 & H3 & H4).
  apply job_wp_emit; [by eapply Hl|done|by left|]. apply Hk; [by apply I_emit|]. by apply (stage_steady P HP).
Qed.

Lemma stage_http P o {A} (read : exn (Z * exn json) → exn A) k :
  stage P → quiet o = true → (∀ l, legal l o) → (∀ a, from P (k a)) → from P (http o read k FAILED).
Proof.
  intros HP Ho Hl Hk. apply stage_emit; [done..|by auto|]. intros s l Hi H. apply job_wp_await; [done| |].
  - intros v s' l' _ Hr Hi'. apply (stage_lift P); [done|by auto|done|]. by eapply (stage_steady P HP).
  - intros e s' l' Hr Hi'. apply (stage_lift P); [done|by auto|done|]. by eapply (stage_steady P HP).
Qed.

Lemma stage_noted P o note {A} (read : exn (Z * exn json) → exn A) k :
  stage P → quiet o = true → (∀ l, legal l o) → (∀ a, quiet (note a) = true) → (∀ a l, legal l (note a)) →
  (∀ a x, read a = Ok x → from (λ s l, P s l ∧ note a ∈ l) (k x)) → from P (noted_http o note read k FAILED).
Proof.
  intros HP Ho Hl Hn Hnl Hk. unfold noted_http. cbv zeta. apply stage_emit; [done..|by auto|].
  assert (∀ a, from P (Emit (note a) (lift (read a) k FAILED))) as Hgo.
  { intros a s l Hi H. destruct (quiet_facts _ (Hn a)) as (H1 & H2 & H3 & H4).
    apply job_wp_emit; [done|done|by left|].
    assert (I s (l ++ [note a])) as Hi' by by apply I_emit.
    assert (P s (l ++ [note a])) as H' by by apply (stage_steady P HP).
    destruct (read a) as [x|e] eqn:Ea; cbn [lift]; [|by apply (stage_failed P)].
    apply (Hk a x Ea); [done|]. split; [done|]. apply elem_of_app. right. by left. }
  intros s l Hi H. apply job_wp_await; [done| |].
  - intros v s' l' _ Hr Hi'. apply Hgo; [done|]. by eapply (stage_steady P HP).
  - intros e s' l' Hr Hi'. apply Hgo; [done|]. by eapply (stage_steady P HP).
Qed.

Lemma from_mono (P Q : job → list effect → Prop) p : (∀ s l, P s l → Q s l) → from Q p → from P p.
Proof. intros HPQ Hp s l Hi H. apply Hp; [done|by apply HPQ]. Qed.

(** Before a prepared call is claimed; and before anything is. *)
Definition bare (s : job) (l : list effect) : Prop :=
  tracked s l ∧ (pipeline s = None ∧ outbound_claim s = []) ∧
  (∀ claim, Claimed claim ∈ l → False) ∧ (∀ rp : str * service_post, RefuseOutbound rp.1 rp.2 ∈ l → False).

Lemma bare_stage : stage bare.
Proof.
  split; [|by intros s l [H _]]. apply steady_and; [apply steady_tracked|]. apply steady_and; [|apply steady_and].
  - apply (steady_view (λ s, pipeline s = None ∧ outbound_claim s = [])).
    by intros s s' [= _ _ -> _ _ _ _ _ _ ->].
  - by apply (steady_all Claimed (λ _, False)).
  - by apply (steady_all (λ rp, RefuseOutbound rp.1 rp.2) (λ _, False)).
Qed.

Lemma bare_unreported s l : bare s l → ∀ o, o ∈ l → reports o = None.
Proof.
  intros (Ht & _ & _ & Hr) o Ho. destruct (reports o) as [claim|] eqn:E; [|done].
  exfalso. destruct o as [| | | | | | | |ref p|ref status p| | | | | | | | | | | | | | | | |]; try discriminate E.
  - by destruct (Hr (ref, p)).
  - by apply (t_unreported _ _ Ht) in Ho.
Qed.

Lemma bare_emit o s l :
  untracked o = true → bare s l → bare s (l ++ [o]).
Proof.
  intros Ho (Ht & Hp & Hc & Hr). split; [by apply tracked_emit|]. split; [done|]. split.
  - intros claim H. apply effect_snoc_ne in H; [by eapply Hc|by intros <-].
  - intros rp H. apply effect_snoc_ne in H; [by eapply Hr|by intros <-].
Qed.

Definition pristine (s : job) (l : list effect) : Prop :=
  bare s l ∧ ∀ ip : str * service_post, Capacity (lit "claim") ip.1 ip.2 ∈ l → False.

Lemma pristine_stage : stage pristine.
Proof.
  split; [|by intros s l [[H _] _]]. apply steady_and; [apply bare_stage|].
  by apply (steady_all (λ ip, Capacity (lit "claim") ip.1 ip.2) (λ _, False)).
Qed.

(** What a SIP caller's identity asks for before the call is served. *)
Definition capacity_due (id : dict) : Prop :=
  is_enabled_for_business ENV (JStr (str_or_empty id.[lit "business_id"])) = true.

(** The reservation is the call's, and asked for where it must be. *)
Definition reserved (id : dict) (l : list effect) : Prop := capacity_due id → ∃ i, i ≠ [] ∧ granted_capacity i l.

Definition unclaimed (id : dict) (s : job) (l : list effect) : Prop := bare s l ∧ reserved id l.

Lemma steady_reserved id : steady (λ _ l, reserved id l).
Proof.
  apply (steady_grows (reserved id)). intros l l' Hp H Hd. destruct (H Hd) as (i & Hi & Hc).
  exists i. split; [done|by eapply granted_later].
Qed.

Lemma unclaimed_stage id : stage (unclaimed id).
Proof. split; [|by intros s l [[H _] _]]. apply steady_and; [apply bare_stage|apply steady_reserved]. Qed.

(** The service gave a prepared call. *)
Definition given (id claim : dict) (s : job) (l : list effect) : Prop := unclaimed id s l ∧ given_claim claim l.

Lemma given_stage id claim : stage (given id claim).
Proof.
  split; [|by intros s l [[[H _] _] _]]. apply steady_and; [apply unclaimed_stage|].
  apply steady_ex. intros a. apply steady_and; [apply steady_elem|apply (steady_const (answered a claim))].
Qed.

(** Someone may be served. *)
Definition due (sip : bool) (id : dict) (l : list effect) : Prop :=
  sip = true →
  (truthy id.[lit "outbound_required"] = true → ∃ claim, Claimed claim ∈ l) ∧ reserved id l.

Definition called (sip : bool) (id : dict) (s : job) (l : list effect) : Prop :=
  tracked s l ∧ pipeline s = None ∧ due sip id l.

Lemma steady_due sip id : steady (λ _ l, due sip id l).
Proof.
  apply (steady_grows (due sip id)). intros l l' Hp H ->. destruct (H eq_refl) as [H1 H2]. split.
  - intros Ht. destruct (H1 Ht) as [claim Hc]. exists claim. by eapply prefix_elem.
  - intros Hd. destruct (H2 Hd) as (i & Hi & Hc). exists i. split; [done|by eapply granted_later].
Qed.

Lemma called_stage sip id : stage (called sip id).
Proof.
  split; [|by intros s l [H _]]. apply steady_and; [apply steady_tracked|].
  apply steady_and; [|apply steady_due]. apply (steady_view (λ s, pipeline s = None)). by intros s s' [= _ _ _ _ _ _ _ _ _ ->].
Qed.

(** Someone is being served. *)
Definition served (sip : bool) (id : dict) (s : job) (l : list effect) : Prop :=
  called sip id s l ∧ ∃ who, Serving who ∈ l.

Lemma served_stage sip id : stage (served sip id).
Proof.
  split; [|by intros s l [[H _] _]]. apply steady_and; [apply called_stage|].
  apply steady_ex. intros who. apply steady_elem.
Qed.

Definition connecting_call (parts : call_parts) (s : job) (l : list effect) : Prop :=
  tracked s l ∧ pipeline s = None ∧ admitted parts l.

Lemma steady_admitted parts : steady (λ _ l, admitted parts l).
Proof.
  apply steady_and; [apply (steady_const (loaded (agent_context parts) = true))|].
  apply steady_and; [apply steady_ex; intros; apply steady_elem|].
  apply steady_and.
  { by apply (steady_all Claimed (λ claim, claim ≠ [] → outbound_enabled (agent_context parts) = true)). }
  apply (steady_grows (λ l, (sip_call parts = true → truthy (identity parts).[lit "outbound_required"] = true →
    ∃ claim, Claimed claim ∈ l) ∧ (sip_call parts = true → reserved (identity parts) l))).
  intros l l' Hp [H1 H2]. split.
  - intros Hs Ht. destruct (H1 Hs Ht) as [claim Hc]. exists claim. by eapply prefix_elem.
  - intros Hs Hd. destruct (H2 Hs Hd) as (i & Hi & Hc). exists i. split; [done|by eapply granted_later].
Qed.

Lemma connecting_stage parts : stage (connecting_call parts).
Proof.
  split; [|by intros s l [H _]]. apply steady_and; [apply steady_tracked|].
  apply steady_and; [|apply steady_admitted]. apply (steady_view (λ s, pipeline s = None)). by intros s s' [= _ _ _ _ _ _ _ _ _ ->].
Qed.

Definition made (parts : call_parts) (s : job) (l : list effect) : Prop :=
  tracked s l ∧ ∃ config, PipelineMade config parts ∈ l.

Lemma made_stage parts : stage (made parts).
Proof.
  split; [|by intros s l [H _]]. apply steady_and; [apply steady_tracked|].
  apply steady_ex. intros config. apply steady_elem.
Qed.

Definition started (s : job) (l : list effect) : Prop := tracked s l ∧ PipelineStart ∈ l.

Lemma started_stage : stage started.
Proof. split; [|by intros s l [H _]]. apply steady_and; [apply steady_tracked|]. apply steady_elem. Qed.

(** A write of the job's own, of variables that the stages do not speak of. *)
Lemma stage_modify (P Q : job → list effect → Prop) f k :
  (∀ s, input_lock (f s) = input_lock s) → (∀ s l, I s l → P s l → I (f s) l ∧ Q (f s) l) →
  from Q k → from P (modify f k).
Proof.
  intros Hf Hq Hk s l Hi H. apply job_wp_get, job_wp_put; [done|by left|]. destruct (Hq s l Hi H). by apply Hk.
Qed.

Lemma from_spawn (P : job → list effect → Prop) (p : wco) k :
  (∀ t s l, P s l → P (add_task t s) l) → (∀ n s l, I s l → (∃ s0 l0, P s0 l0 ∧ l0 `prefix_of` l) → WP n p s l) →
  (∀ t, from P (k t)) → from P (spawn_task p k).
Proof.
  intros Ha Hp Hk s l Hi H. apply wp_spawn_task; [done| |].
  - intros n s' l' _ [Hr _] Hi'. apply Hp; [done|]. by exists s, l.
  - intros n Hi'. apply Hk; [done|]. by apply Ha.
Qed.

Lemma from_listening config : from started (listening env0 dashboard_file float_text room_name describe config).
Proof.
  assert (∀ t s l, started s l → started (add_task t s) l) as Hadd.
  { intros t s l [Ht Hs]. split; [by apply (tracked_put s)|done]. }
  assert (∀ ts, from started (Await (WAny ts) (λ _, cleanup env0 dashboard_file float_text room_name Done) FAILED)) as Hany.
  { intros ts s l Hi H. split; [done|]. intros s' l' Hr Hi'. apply (stage_steady _ started_stage) in Hr.
    apply Hr in H. split; [intros _ _ _; apply from_cleanup; [done|done|apply H]|].
    intros e. by apply (stage_failed started); [apply started_stage|..]. }
  apply (stage_modify _ started); [done| |].
  { intros s l Hi [Ht Hs]. split; [|by split; [apply (tracked_put s)|]].
    destruct Hi as [Hb Hh Ha Hc Hr Hm Hp]. by split. }
  apply stage_io; [apply started_stage|]. apply (stage_modify _ started); [done| |].
  { intros s l Hi [Ht Hs]. split; [by apply (I_put s)|]. by split; [apply (tracked_put s)|]. }
  apply from_spawn; [done| |intros input].
  { intros n s l Hi (s0 & l0 & [_ Hs] & Hp). by apply (wp_next_frame n _ _ s l); [..|eapply prefix_elem]. }
  apply from_spawn; [done| |intros stop].
  { intros n s l Hi _. split; [done|]. intros s' l' _ Hi'. by split. }
  destruct (opening_greeting_enabled config); [|apply Hany]. apply from_spawn; [done| |done].
  intros n s l Hi _. destruct (decide (n = 0%nat)) as [->|Hn].
  - apply job_wp_emit; [done|done|by left|]. by apply job_wp_io; [apply I_emit|..].
  - by apply job_wp_send.
Qed.

Lemma from_make_pipeline config parts :
  from (connecting_call parts)
    (make_pipeline env0 dashboard_file float_text room_name describe construct config parts).
Proof.
  apply stage_lift; [apply connecting_stage|]. intros _ _ s l Hi (Ht & Hp & Had).
  apply job_wp_get, job_wp_put; [done|by left|]. set (s1 := set_pipeline parts s).
  apply job_wp_emit; [exact Had|done|by left|]. set (l1 := l ++ [PipelineMade config parts]).
  assert (PipelineMade config parts ∈ l1) as Hin by (apply elem_of_app; right; by left).
  assert (made parts s1 l1) as Hmade.
  { split; [|by exists config]. destruct Ht as [H1 H0 H2 H3 H4 H5]. split.
    - intros r st p [H|H]%elem_of_app; [by eapply H1|by apply list_elem_of_singleton in H].
    - intros r p [H|H]%elem_of_app; [by eapply H0|by apply list_elem_of_singleton in H].
    - intros claim H. apply H2. by eapply effect_snoc_ne.
    - intros Hne. destruct (H3 Hne) as [H E]. split; [by apply elem_snoc|done].
    - done.
    - intros c p [H|H]%elem_of_app; [apply H5 in H; congruence|]. apply list_elem_of_singleton in H. by injection H as <- <-. }
  assert (I s1 l1) as Hi1.
  { assert (I s l1) as [Hb Hh Ha Hc Hr Hm Hs] by by apply I_emit. split; try done.
    intros p [= <-]. by exists config. }
  clearbody s1 l1. clear s l Hi Ht Hp Had Hin.
  assert (from (made parts) (send PipelineStart
    (listening env0 dashboard_file float_text room_name describe config) FAILED)) as Hstart.
  { intros s l Hi [Ht [c Hc]]. apply job_wp_emit; [by exists c, parts|done|by left|].
    apply (stage_io started); [apply started_stage|apply from_listening|by apply I_emit|].
    split; [by apply tracked_emit|]. apply elem_of_app. right. by left. }
  apply (stage_io (made parts)); [apply made_stage| |done..]. apply (stage_modify _ (made parts)); [done| |done].
  intros s l Hi [Ht Hc]. split; [by apply (I_put s)|]. by split; [apply (tracked_put s)|].
Qed.

Lemma from_run_call config parts :
  from (connecting_call parts)
    (run_call env0 dashboard_file float_text room_name describe construct config parts).
Proof.
  assert (∀ f, (∀ s, (input_lock (f s), capacity_reservation_id (f s), ready (f s), pipeline (f s), participant (f s))
             = (input_lock s, capacity_reservation_id s, ready s, pipeline s, participant s)) →
    (∀ s, (outbound_claim (f s), outbound_call_ref (f s), pipeline (f s)) = (outbound_claim s, outbound_call_ref s, pipeline s)) →
    ∀ k, from (connecting_call parts) k → from (connecting_call parts) (modify f k)) as Hmod.
  { intros f Hf Hf' k. apply stage_modify; [intros s; by injection (Hf s)|]. intros s l Hi (Ht & Hp & Had).
    split; [by apply (I_put s)|]. split; [by apply (tracked_put s)|]. split; [|done].
    injection (Hf' s) as _ _ E. congruence. }
  assert (from (connecting_call parts)
    (publish env0 dashboard_file float_text room_name describe construct config parts)) as Hpub.
  { apply Hmod; [done..|]. apply stage_io; [apply connecting_stage|]. apply Hmod; [done..|]. apply from_make_pipeline. }
  intros s l Hi H. apply job_wp_get. destruct (capacity_reservation_id s); [by apply Hpub|]. split.
  - intros n _ s' l' _ Hi'. by apply wp_lease.
  - intros n. by apply (Hmod (set_heartbeat n)).
Qed.

Lemma from_load_agent P config id k :
  stage P → (∀ c, from P (k c)) →
  from P (load_agent room_name config id k FAILED).
Proof.
  intros HP Hk. unfold load_agent. cbv zeta. destruct (fst _) as [r|]; [|by apply stage_lift; auto].
  apply stage_emit; [done..|]. intros s l Hi H. apply job_wp_await; [done| |].
  - intros v s' l' _ Hr Hi'. apply (stage_lift P); [done|by auto|done|]. by eapply (stage_steady P HP).
  - intros e s' l' Hr Hi'. apply (stage_lift P); [done|by auto|done|]. by eapply (stage_steady P HP).
Qed.

Lemma outbound_agent c claim c' :
  apply_outbound_context c claim = Ok c' → loaded c' = loaded c ∧ outbound_enabled c' = true.
Proof.
  unfold apply_outbound_context. destruct (outbound_enabled c) eqn:E; simpl; [|done]. by intros [= <-].
Qed.

Lemma from_serve config sip who id :
  from (called sip id) (serve env0 dashboard_file float_text room_name describe construct config sip who id).
Proof.
  intros s l Hi (Ht & Hp & Hd). apply job_wp_get, job_wp_put; [done|by left|]. apply job_wp_emit; [done|done|by left|].
  assert (from (served sip id) (load_agent room_name config id (λ c,
    if negb (loaded c)
    then FAILED (RuntimeError (lit "Configured agent could not be loaded; refusing an unconfigured call."))
    else Get (λ j,
      lift match outbound_claim j with [] => Ok c | claim => apply_outbound_context c claim end
        (λ c, run_call env0 dashboard_file float_text room_name describe construct (for_call env0 dashboard_file room_name config sip id c)
                (mkParts sip id c (negb sip && Passkey.enabled ENV id))) FAILED)) FAILED)) as Hload.
  { apply from_load_agent; [apply served_stage|]. intros c. destruct (loaded c) eqn:Hl; cbn [negb].
    2: { intros s1 l1 Hi1 H1. by apply (stage_failed (served sip id)); [apply served_stage|..]. }
    intros s1 l1 Hi1 H1. apply job_wp_get. pose proof H1 as [(Ht1 & Hp1 & Hd1) Hw1].
    assert (∀ c', loaded c' = true → (outbound_claim s1 ≠ [] → outbound_enabled c' = true) →
      connecting_call (mkParts sip id c' (negb sip && Passkey.enabled ENV id)) s1 l1) as Hcon.
    { intros c' Hl' He. split; [done|]. split; [done|]. split; [done|]. split; [done|]. split.
      - intros claim Hc Hne. apply He. by rewrite (t_claim _ _ Ht1 claim Hc Hne).
      - split; intros Hs; [by destruct (Hd1 Hs)|]. by destruct (Hd1 Hs). }
    destruct (outbound_claim s1) as [|kv claim] eqn:Ec.
    - apply from_run_call; [done|]. by apply Hcon.
    - destruct (apply_outbound_context c (kv :: claim)) as [c'|e] eqn:E; cbn [lift].
      + apply outbound_agent in E as [Hl' He]. apply from_run_call; [done|]. apply Hcon; [congruence|done].
      + by apply (stage_failed (served sip id)); [apply served_stage|..]. }
  apply Hload.
  - destruct (I_emit s l (Serving who)) as [Hb Hh Ha Hc Hr Hm Hs]; [done..|]. split; try done.
    intros w [= <-]. apply elem_of_app. right. by left.
  - assert (tracked (set_participant (Some who) s) (l ++ [Serving who])) as Ht' by
      (apply tracked_emit; [done|by apply (tracked_put s)]).
    split; [|exists who; apply elem_of_app; right; by left]. split; [done|]. split; [done|].
    intros Hs. destruct (Hd Hs) as [H1 H2]. split.
    + intros Ho. destruct (H1 Ho) as [claim Hc]. exists claim. by apply elem_snoc.
    + intros Hdue. destruct (H2 Hdue) as (i & Hne & Hc). exists i. split; [done|]. eapply granted_later; [|done]. by apply prefix_app_r.
Qed.

Abbreviation settings_known :=
  (∃ base token, outbound_settings ENV float_text = Ok (base, token) ∧ (base =s []) || (token =s []) = false).

(** The prepared call of another agent is refused, and reported at once. *)
Lemma from_refuse id claim reason e s l :
  I s l → given id claim s l →
  WP 0 (finish_outbound env0 dashboard_file float_text (RefuseOutbound (claim_ref claim)) (claim_ref claim) (lit "failed")
          reason JNull (FAILED e) FAILED) s l.
Proof.
  intros Hi Hg. pose proof Hg as [[Hb _] Hc]. unfold finish_outbound.
  destruct (finish_call _ _ _ _ _ _) as [[p|]|e']; [|by apply (stage_failed (given id claim)); [apply given_stage|..]..].
  set (o := RefuseOutbound (claim_ref claim) p).
  assert (tracked s (l ++ [o])) as Ht.
  { destruct Hb as ([H1 _ H2 H3 H4 H5] & [_ Hn] & _). split; [| | | |done|].
    - intros r st q H. by apply effect_snoc_ne in H; [apply H1 in H|].
    - done.
    - intros c H. apply H2. by eapply effect_snoc_ne.
    - by intros [].
    - intros config parts H. eapply H5. by eapply effect_snoc_ne. }
  apply wp_http; [|done|by left|by apply I_emit| |].
  - split; [by exists claim|]. by eapply bare_unreported.
  - intros _ s' l' Hr Hi'. apply from_failed; [done|]. by apply (tracked_later _ _ _ _ Hr).
  - intros e' s' l' Hr Hi'. apply from_failed; [done|]. by apply (tracked_later _ _ _ _ Hr).
Qed.

Lemma from_claim_for_route recipient id k :
  (∀ claim, settings_known → from (given id claim) (k claim)) →
  from (unclaimed id) (claim_for_route env0 dashboard_file float_text room_name recipient id k FAILED).
Proof.
  intros Hk. unfold claim_for_route, claim_call_by_recipient.
  destruct (outbound_settings ENV float_text) as [[base token]|e] eqn:Hset; cbn [exn_bind].
  2: { intros s l Hi H. by apply (stage_failed (unclaimed id)); [apply unclaimed_stage|..]. }
  destruct (_ || _) eqn:Hne.
  { intros s l Hi H. by apply (stage_failed (unclaimed id)); [apply unclaimed_stage|..]. }
  pose proof (unclaimed_stage id) as Hun.
  apply stage_noted; [done..|]. intros a claim Ea s l Hi [H Hin].
  assert (given id claim s l) as Hg by (split; [done|by exists a; split; [|apply claim_answered]]).
  destruct (claim_mismatch claim id); [|apply Hk; [by exists base, token|done|done]]. cbv zeta.
  by apply (from_refuse id).
Qed.

Lemma from_headers P k :
  stage P → (∀ headers, from P (k headers)) → from P (sip_remote_headers k FAILED).
Proof.
  intros HP Hk. apply stage_emit; [done..|]. intros s l Hi H. apply job_wp_await; [done| |].
  - intros v s' l' _ Hr Hi'. apply Hk; [done|]. by eapply (stage_steady P HP).
  - intros e s' l' Hr Hi'. apply (stage_steady P HP) in Hr. apply Hr in H.
    destruct e; try (by apply Hk). by apply (stage_failed P).
Qed.

Lemma from_dashboard_route P number k :
  stage P → (∀ found, from P (k found)) →
  from P (dashboard_route env0 dashboard_file BASE_URL SERVICE_TOKEN number k FAILED).
Proof.
  intros HP Hk. unfold dashboard_route. destruct number; [apply Hk|].
  destruct (Outbound.resolve_sip_route _ _ _ _) as [[[url n] ?]|]; [|apply Hk]. by apply stage_http.
Qed.

(** The reservation of a call, claimed at once. *)
Lemma from_reservation id r k :
  (capacity_due id → r ≠ []) → from (unclaimed id) k →
  from pristine (modify (set_reservation r)
    (when (negb (r =s [])) (λ k, claim_capacity env0 dashboard_file float_text room_name r k FAILED) k)).
Proof.
  intros Hr Hk s l Hi (Hbare & Hcap). apply job_wp_get, job_wp_put; [done|by left|].
  set (s1 := set_reservation r s).
  assert (bare s1 l) as Hb1.
  { destruct Hbare as (Ht & Hp & Hc). split; [by apply (tracked_put s)|by split]. }
  destruct (r =s []) eqn:Er; cbn [negb when].
  - apply str_eqb_true in Er. apply Hk.
    + destruct Hi as [Hb Hh Ha Hcc Hrd Hm Hs]. split; try done.
      intros id' p Hin. by destruct (Hcap (id', p)).
    + split; [done|]. intros Hdue. by apply Hr in Hdue.
  - apply str_eqb_false in Er. unfold claim_capacity. destruct (post_for "claim" r) as [p|e] eqn:Hpost.
    + set (o := Capacity (lit "claim") r p). unfold noted_http. cbv zeta.
      apply job_wp_emit; [done|done|by left|].
      assert (bare s1 (l ++ [o])) as Hbo by by apply bare_emit.
      assert (o ∈ l ++ [o]) as Hin by (apply elem_of_app; right; by left).
      assert (∀ a s' l', R 0 (s1, l ++ [o]) (s', l') → I s' l' →
        WP 0 (Emit (CapacityAnswer r a) (lift (capacity_answer a) (λ _, k) FAILED)) s' l') as Hgo.
      { intros a s' l' Hrr Hi'. apply job_wp_emit; [done|done|by left|].
        assert (I s' (l' ++ [CapacityAnswer r a])) as Hi2 by by apply I_emit.
        assert (bare s' (l' ++ [CapacityAnswer r a])) as Hb2.
        { apply bare_emit; [done|]. by eapply (stage_steady _ bare_stage). }
        destruct (capacity_answer a) as [d|e] eqn:Ea; cbn [lift]; [|by apply (stage_failed bare); [apply bare_stage|..]].
        apply Hk; [done|]. split; [done|]. intros _. exists r. split; [done|]. split.
        - exists p. apply elem_snoc. by apply (elem_later o 0 (s1, l ++ [o]) (s', l')).
        - exists a, d. split; [|by apply capacity_answered]. apply elem_of_app. right. by left. }
      apply job_wp_await; [|intros v s' l' _; apply Hgo|intros e s' l'; apply Hgo].
      destruct Hi as [Hb Hh Ha Hcc Hrd Hm Hs]. split.
      * intros t. rewrite busy_snoc. apply Hb.
      * intros id' p' [H|H]%elem_of_app; [by destruct (Hcap (id', p'))|]. left.
        apply list_elem_of_singleton in H. by injection H as <-.
      * intros _. by left; exists p.
      * intros a id' p' [H|H]%elem_of_app; [by eapply Hcc|]. apply list_elem_of_singleton in H.
        injection H as -> -> ->. by exists p.
      * intros H. by apply elem_snoc, Hrd.
      * intros parts H. destruct (Hm parts H) as [c Hc]. exists c. by apply elem_snoc.
      * intros who H. by apply elem_snoc, Hs.
    + apply from_failed; [|apply Hb1]. destruct Hi as [Hb Hh Ha Hcc Hrd Hm Hs]. split; try done.
      * intros id' q Hin. by destruct (Hcap (id', q)).
      * intros _. right. by exists e.
Qed.

(** A claim, and its recipient as the caller. *)
Lemma from_claimed id claim phone k :
  settings_known →
  from (called true (dset (lit "caller_phone") phone (dset (lit "end_user_id") phone id))) k →
  from (given id claim) (modify (set_claim claim (claim_ref claim)) (Emit (Claimed claim) k)).
Proof.
  intros Hset Hk s l Hi [[(Ht & [Hp Ho] & Hc & Hrf) Hres] Hgiven]. apply job_wp_get, job_wp_put; [done|by left|].
  set (s1 := set_claim claim (claim_ref claim) s). assert (I s1 l) as Hi1 by by apply (I_put s).
  apply job_wp_emit; [done|done|by left|]. set (l1 := l ++ [Claimed claim]).
  assert (Claimed claim ∈ l1) as Hin by (apply elem_of_app; right; by left).
  apply Hk; [by apply I_emit|]. split; [|split; [done|]].
  - destruct Ht as [H1 _ _ _ _ H5]. split.
    + intros r st p H. apply effect_snoc_ne in H; [by eapply H1|done].
    + intros r p H. apply effect_snoc_ne in H; [|done]. by destruct (Hrf (r, p)).
    + intros c [H|H]%elem_of_app Hne; [by apply Hc in H|]. apply list_elem_of_singleton in H. by injection H as ->.
    + done.
    + done.
    + intros c p H. apply effect_snoc_ne in H; [by eapply H5|done].
  - intros _. split; [intros _; by exists claim|]. unfold reserved, capacity_due.
    rewrite !dget_or_none_dset_ne by done. intros Hdue. destruct (Hres Hdue) as (i & Hne & Hcl).
    exists i. split; [done|]. eapply granted_later; [|done]. by apply prefix_app_r.
Qed.

Lemma from_admit_sip route k :
  (∀ who id, from (called true id) (k who id)) →
  from pristine (admit_sip env0 dashboard_file float_text BASE_URL SERVICE_TOKEN room_name route k FAILED).
Proof.
  intros Hk. pose proof pristine_stage as Hst. apply stage_await; [done|]. intros v.
  destruct v as [|p| | | | | | |]; try (by apply stage_failed).
  apply from_headers; [done|]. intros headers. cbv zeta. apply from_dashboard_route; [done|]. intros found.
  apply stage_lift; [done|]. intros id _. unfold reserve. apply stage_lift; [done|]. intros r Hr.
  assert (stage (unclaimed id)) as Hun by apply unclaimed_stage.
  apply (from_reservation id).
  { intros Hdue ->. unfold reservation_id_from_sip_headers in Hr. unfold capacity_due in Hdue. rewrite Hdue in Hr.
    by destruct (py_strip _). }
  unfold claim_outbound. cbv zeta. destruct (truthy id.[lit "outbound_required"]) eqn:Ho.
  - destruct (_ =s []); [by apply stage_failed|]. apply from_claim_for_route. intros claim Hset.
    by eapply from_claimed.
  - intros s l Hi [(Ht & [Hp _] & Hc) Hres]. apply Hk; [done|]. split; [done|]. split; [done|].
    intros _. by split; [intros H; congruence|].
Qed.

Lemma from_entrypoint :
  from pristine (entrypoint env0 dashboard_file digest py_float second float_text float_repr BASE_URL SERVICE_TOKEN
    metadata room_name now used describe construct).
Proof.
  pose proof pristine_stage as Hst. unfold entrypoint.
  destruct (lab_config_from_environ _ _ _) as [config|e]; [|by intros s l Hi _].
  apply stage_lift; [done|]. intros [route id] _. apply stage_lift; [done|]. intros config' _.
  apply stage_emit; [done..|]. apply stage_io; [done|]. destruct route as [r|].
  - apply from_admit_sip. intros who id'. apply from_serve.
  - apply stage_await; [done|]. intros v. destruct v as [|p| | | | | | |]; try (by apply stage_failed).
    apply (from_mono _ (called false id)); [|apply from_serve]. intros s l [(Ht & [Hp _] & _) _]. by split.
Qed.

(** ** Every schedule *)

Lemma prefix_of_R t x y : R t x y → x.2 `prefix_of` y.2.
Proof. by intros [H _]. Qed.

#[local] Instance worker_laws : Laws (wresume env0 dashboard_file float_text room_name)
  waccepts I R G legal eq 1%nat inv.
Proof.
  split.
  - apply _.
  - intros t u x y Hne HG. by apply HG.
  - intros t lb [s l] [s' l'] Hinv Hr%prefix_of_R. simpl in *.
    destruct lb; [done|by eapply prefix_elem|]. destruct Hinv. split; [by eapply prefix_elem|done].
  - intros t lb a k h s l Hi Hinv Hl.
    assert (∀ v s' l', R t (s, l) (s', l') → I s' l' → WP t (k v) s' l') as Hk by (intros v s' l' Hr Hi'; by apply Hl).
    assert (∀ e s' l', R t (s, l) (s', l') → I s' l' → WP t (h e) s' l') as Hh by (intros v s' l' Hr Hi'; by apply Hl).
    destruct lb as [| |sender text]; simpl in Hinv.
    + by apply wp_lease_round.
    + destruct a as [v|e]; [by apply wp_audio_round|by apply Hh].
    + destruct Hinv. destruct a as [v|e]; [by apply wp_text_round|by apply Hh].
Qed.

Lemma job_I_init : I job_init [].
Proof. split; try done; intros; simpl in *; set_solver. Qed.

Lemma pristine_init s l : R 0 (job_init, []) (s, l) → pristine s l.
Proof.
  intros Hr. apply (proj1 (stage_steady _ pristine_stage) _ _ _ _ Hr). repeat split; try done; simpl; intros; set_solver.
Qed.

(** Every schedule, every answer: the invariant holds and each effect was legal. *)
Lemma job_lawful es c l :
  run (worker_step env0 dashboard_file float_text room_name sip_error)
    (worker_init env0 dashboard_file digest py_float second float_text float_repr BASE_URL SERVICE_TOKEN metadata
       room_name now used describe construct) es = Some (c, l) →
  I (shared c) l ∧ lawful legal l.
Proof.
  apply (adequacy_start RUnit (wresume env0 dashboard_file float_text room_name)
    (wbody env0 dashboard_file float_text room_name sip_error) waccepts I R G legal eq 1%nat inv); try done.
  - intros call n s l' Hn Hi. apply job_wp_body; [lia|done].
  - apply job_I_init.
  - intros s l' Hr Hi. apply from_entrypoint; [done|]. by apply pristine_init.
Qed.

(** ** The end of the job *)

Definition leaving (o : effect) : bool := match o with Disconnect => true | _ => false end.

Abbreviation LEAVES := (marked leaving).

Lemma leaves_lift {A} (m : exn A) k h : (∀ a, LEAVES (k a)) → (∀ e, LEAVES (h e)) → LEAVES (lift m k h).
Proof. intros Hk Hh. destruct m; [apply Hk|apply Hh]. Qed.

Lemma leaves_http o {A} (read : exn (Z * exn json) → exn A) k h :
  (∀ a, LEAVES (k a)) → (∀ e, LEAVES (h e)) → LEAVES (http o read k h).
Proof. intros Hk Hh. right. split; intros; by apply leaves_lift. Qed.

Lemma leaves_noted_http o note {A} (read : exn (Z * exn json) → exn A) k h :
  (∀ a, LEAVES (k a)) → (∀ e, LEAVES (h e)) → LEAVES (noted_http o note read k h).
Proof. intros Hk Hh. right. split; intros; right; by apply leaves_lift. Qed.

Lemma leaves_claim_capacity id k h :
  LEAVES k → (∀ e, LEAVES (h e)) → LEAVES (claim_capacity env0 dashboard_file float_text room_name id k h).
Proof. intros Hk Hh. unfold claim_capacity. destruct (capacity_post _ _ _ _ _); [by apply leaves_noted_http|done]. Qed.

Lemma leaves_capacity action id k h :
  (∀ a, LEAVES (k a)) → (∀ e, LEAVES (h e)) → LEAVES (capacity_call env0 dashboard_file float_text room_name action id k h).
Proof. intros Hk Hh. unfold capacity_call. destruct (capacity_post _ _ _ _ _); [by apply leaves_http|done]. Qed.

Lemma leaves_finish record ref status reason conversation k h :
  LEAVES k → (∀ e, LEAVES (h e)) →
  LEAVES (finish_outbound env0 dashboard_file float_text record ref status reason conversation k h).
Proof. intros Hk Hh. unfold finish_outbound. destruct (finish_call _ _ _ _ _ _) as [[p|]|]; [by apply leaves_http|done..]. Qed.

Lemma leaves_logged k : LEAVES k → ∀ e, LEAVES (logged k Throw e).
Proof. by intros Hk []. Qed.

Lemma leaves_room after : LEAVES (leave_room after).
Proof.
  intros s. unfold when. destruct (bool_decide _), (source s); simpl; try split; intros; try split; try done; by left.
Qed.

Lemma leaves_finish_claim conversation k : LEAVES k → LEAVES (finish_claim env0 dashboard_file float_text conversation k).
Proof.
  intros Hk s. unfold finish_claim. destruct (outbound_claim s); [done|].
  apply leaves_finish; [done|by apply leaves_logged].
Qed.

Lemma leaves_close k : (∀ c, LEAVES (k c)) → LEAVES (close_call k).
Proof.
  intros Hk s s'.
  assert (LEAVES (modify (set_participant None) (modify (set_handlers false false)
    match pipeline s' with
    | None => k JNull
    | Some c => when (passkey_flow c) (λ k, io QUnit k Throw) (Emit PipelineClose (Await (WIo QClose)
                (λ a, k match a with RClosed id => id | _ => JNull end) Throw))
    end))) as Hrest.
  { intros s1 s2. destruct (pipeline s') as [c|]; [|apply Hk].
    assert (LEAVES (Emit PipelineClose (Await (WIo QClose)
      (λ a, k match a with RClosed id => id | _ => JNull end) Throw))) as Hl by (right; split; [by intros|done]).
    destruct (passkey_flow c); [by split|exact Hl]. }
  destruct (stream s'); [by split|exact Hrest].
Qed.

Lemma leaves_release k : LEAVES k → LEAVES (release_at_end env0 dashboard_file float_text room_name k).
Proof.
  intros Hk s. unfold release_at_end. destruct (capacity_reservation_id s); [done|].
  apply leaves_capacity; [done|by apply leaves_logged].
Qed.

Lemma leaves_cancel_all ts k : LEAVES k → LEAVES (cancel_all ts k).
Proof. intros Hk. by induction ts. Qed.

Lemma leaves_cleanup after : LEAVES (cleanup env0 dashboard_file float_text room_name after).
Proof.
  intros s0 s.
  assert (LEAVES (release_at_end env0 dashboard_file float_text room_name (Get (λ j,
    cancel_all (job_tasks j) (Await (WAll (job_tasks j)) (λ _,
      close_call (λ conversation, finish_claim env0 dashboard_file float_text conversation (leave_room after))) Throw))))) as H.
  { apply leaves_release. intros s1. apply leaves_cancel_all. split; [|done]. intros _.
    apply leaves_close. intros c. apply leaves_finish_claim, leaves_room. }
  destruct (capacity_heartbeat_task s); [by split|exact H].
Qed.

Lemma leaves_failed e : LEAVES (FAILED e).
Proof. destruct e; try apply leaves_cleanup; intros s; apply leaves_cleanup. Qed.

Lemma leaves_await q k : (∀ v, LEAVES (k v)) → LEAVES (Await (WIo q) k FAILED).
Proof. intros Hk. split; [done|apply leaves_failed]. Qed.

Lemma leaves_run_call config parts :
  LEAVES (run_call env0 dashboard_file float_text room_name describe construct config parts).
Proof.
  assert (LEAVES (listening env0 dashboard_file float_text room_name describe config)) as Hlisten.
  { intros s. apply leaves_await. intros _ s1 input s2 stop s3.
    assert (∀ ts, LEAVES (Await (WAny ts) (λ _, cleanup env0 dashboard_file float_text room_name Done) FAILED)) as Hany.
    { intros ts. split; [intros _; apply leaves_cleanup|apply leaves_failed]. }
    destruct (opening_greeting_enabled config); [intros t s4|]; apply (Hany [input; stop]). }
  assert (LEAVES (publish env0 dashboard_file float_text room_name describe construct config parts)) as Hpub.
  { intros s. apply leaves_await. intros _ s1. apply leaves_lift; [|apply leaves_failed]. intros _ s2. right.
    apply leaves_await. intros _ s3. right. by apply leaves_await. }
  intros s. destruct (capacity_reservation_id s); [done|]. intros t s1. exact Hpub.
Qed.

Lemma leaves_serve config sip who id :
  LEAVES (serve env0 dashboard_file float_text room_name describe construct config sip who id).
Proof.
  intros s. right. unfold load_agent. cbv zeta.
  match goal with |- LEAVES (match _ with Some r => Emit _ (Await _ (λ a, lift _ ?k _) _) | None => _ end) => set (go := k) end.
  assert (∀ c, LEAVES (go c)) as Hgo.
  { intros c. unfold go. destruct (loaded c); [|apply leaves_failed]. intros s1.
    apply leaves_lift; [|apply leaves_failed]. intros c'. apply leaves_run_call. }
  clearbody go. destruct (fst _); [right; split; intros|]; (apply leaves_lift; [done|apply leaves_failed]).
Qed.

Lemma leaves_admit_sip route k :
  (∀ who id, LEAVES (k who id)) →
  LEAVES (admit_sip env0 dashboard_file float_text BASE_URL SERVICE_TOKEN room_name route k FAILED).
Proof.
  intros Hk. apply leaves_await. intros v. destruct v as [|p| | | | | | |]; try apply leaves_failed.
  assert (∀ id, LEAVES (claim_outbound env0 dashboard_file float_text room_name id (k (sp_identity p)) FAILED)) as Hclaim.
  { intros id. unfold claim_outbound. cbv zeta. destruct (truthy _); [|apply Hk].
    destruct (_ =s _); [apply leaves_failed|]. unfold claim_for_route.
    destruct (claim_call_by_recipient _ _ _ _ _); [|apply leaves_failed].
    apply leaves_noted_http; [intros claim|apply leaves_failed]. destruct (claim_mismatch _ _).
    - apply leaves_finish; [|intros e]; apply leaves_failed.
    - intros s1. right. apply Hk. }
  assert (∀ headers id, LEAVES (reserve env0 dashboard_file float_text room_name headers id
    (claim_outbound env0 dashboard_file float_text room_name id (k (sp_identity p)) FAILED) FAILED)) as Hreserve.
  { intros headers id. apply leaves_lift; [intros r s|apply leaves_failed]. unfold when.
    destruct (negb _); [by apply leaves_claim_capacity; [|apply leaves_failed]|apply Hclaim]. }
  assert (∀ headers, LEAVES (dashboard_route env0 dashboard_file BASE_URL SERVICE_TOKEN
    (worker_called_number headers (sp_attributes p)) (λ found,
      lift (participant_identity route p room_name SIP_KIND (worker_called_number headers (sp_attributes p))
              (dynamic_did_route found)) (λ id, reserve env0 dashboard_file float_text room_name headers id
    (claim_outbound env0 dashboard_file float_text room_name id (k (sp_identity p)) FAILED) FAILED) FAILED) FAILED)) as Hroute.
  { intros headers.
    assert (∀ found, LEAVES (lift (participant_identity route p room_name SIP_KIND (worker_called_number headers (sp_attributes p))
              (dynamic_did_route found)) (λ id, reserve env0 dashboard_file float_text room_name headers id
    (claim_outbound env0 dashboard_file float_text room_name id (k (sp_identity p)) FAILED) FAILED) FAILED)) as Hfound.
    { intros found. apply leaves_lift; [done|apply leaves_failed]. }
    unfold dashboard_route. destruct (worker_called_number _ _); [apply Hfound|].
    destruct (Outbound.resolve_sip_route _ _ _ _) as [[[url n] ?]|]; [|apply Hfound].
    apply leaves_http; [done|apply leaves_failed]. }
  right. split; [intros v; apply Hroute|]. intros e. destruct e; try apply Hroute. apply leaves_failed.
Qed.

Lemma entrypoint_leaves :
  LEAVES (entrypoint env0 dashboard_file digest py_float second float_text float_repr BASE_URL SERVICE_TOKEN
    metadata room_name now used describe construct).
Proof.
  unfold entrypoint. destruct (lab_config_from_environ _ _ _) as [config|e]; [|done].
  apply leaves_lift; [intros [route id]|apply leaves_failed]. apply leaves_lift; [intros config'|apply leaves_failed].
  right. apply leaves_await. intros _. destruct route as [r|].
  - apply leaves_admit_sip. intros who id'. apply leaves_serve.
  - apply leaves_await. intros v. destruct v; try apply leaves_failed. apply leaves_serve.
Qed.

(** ** The theorems *)

(** A schedule of the job, with all answers, and the effects it has. *)
Abbreviation runs es c l :=
  (run (worker_step env0 dashboard_file float_text room_name sip_error)
    (worker_init env0 dashboard_file digest py_float second float_text float_repr BASE_URL SERVICE_TOKEN metadata
       room_name now used describe construct) es = Some (c, l)).

Lemma effect_legal es c l1 o l2 : runs es c (l1 ++ o :: l2) → legal l1 o.
Proof. intros [_ Hl]%job_lawful. by apply (Hl l1 o l2). Qed.

(** C6: When the job leaves the room, every reservation that it claimed has been released, every
    prepared call that it claimed has been reported, and a pipeline that it made has been
    closed; and it does not return before it has left the room. *)
Theorem job_leaves_settled es c l :
  runs es c l →
  (∀ l1 l2, l = l1 ++ Disconnect :: l2 → settled l1) ∧
  (results c !! 0%nat = Some (Ok tt) → Disconnect ∈ l).
Proof.
  intros Hrun. split.
  - intros l1 l2 ->. by apply (effect_legal _ _ _ Disconnect l2 Hrun).
  - intros Hend. destruct (returned_given _ _ _ _ leaving _ _ _ _ _ entrypoint_leaves Hrun Hend) as ([] & Hin & Hm); try done.
Qed.

(** A prepared call that the job holds is one that the service gave it. *)
Lemma claimed_given es c l1 l2 claim : runs es c (l1 ++ l2) → Claimed claim ∈ l1 → given_claim claim l1.
Proof.
  intros Hrun Hin. apply list_elem_of_split in Hin as (k1 & k2 & ->). rewrite <-app_assoc in Hrun.
  apply effect_legal in Hrun as (a & Ha & Hr). exists a. split; [|done]. apply elem_of_app. by left.
Qed.

(** C7: The pipeline is only made for a caller who is being served, with an agent that was loaded
    and, for a prepared call, is enabled for outbound calls; a SIP call of an outbound route
    holds a prepared call, which the service gave to this job, and for one of the business with
    a limited capacity a reservation was claimed and the service accepted the claim. *)
Theorem pipeline_only_when_admitted es c l1 config parts l2 :
  runs es c (l1 ++ PipelineMade config parts :: l2) →
  admitted parts l1 ∧ ∀ claim, Claimed claim ∈ l1 → given_claim claim l1.
Proof. intros H. split; [by apply effect_legal in H|]. intros claim. by apply (claimed_given _ _ _ _ _ H). Qed.

(** What a legal report found. *)
Lemma report_legal l o ref :
  reports o = Some ref → legal l o →
  (match o with
   | FinishOutbound _ _ _ => ∃ claim, Claimed claim ∈ l ∧ claim ≠ [] ∧ ref = claim_ref claim
   | _ => ∃ claim, given_claim claim l ∧ ref = claim_ref claim
   end) ∧ ∀ o', o' ∈ l → reports o' = None.
Proof. destruct o; try done; intros [= <-]; done. Qed.

(** C32: The end of a prepared call is reported at most once, be it that the call is refused because it
    was prepared for another agent or that it took place; only for a call that the service
    gave to this job, and under its reference. *)
Theorem outbound_reported_once es c l1 o ref l2 :
  runs es c (l1 ++ o :: l2) → reports o = Some ref →
  (∃ claim, given_claim claim l1 ∧ ref = claim_ref claim) ∧ ∀ o', o' ∈ l1 ++ l2 → reports o' = None.
Proof.
  intros Hrun Ho. pose proof (effect_legal _ _ _ _ _ Hrun) as Hl. apply (report_legal _ _ ref) in Hl as [Hc H1]; [|done].
  split.
  - destruct o; try done. destruct Hc as (claim & Hin & _ & ->). exists claim. split; [|done].
    by apply (claimed_given _ _ _ _ _ Hrun).
  - intros o' [Hin|Hin]%elem_of_app; [by apply H1|]. destruct (reports o') as [ref'|] eqn:Ho'; [|done].
    apply list_elem_of_split in Hin as (k1 & k2 & ->).
    assert (runs es c ((l1 ++ o :: k1) ++ o' :: k2)) as Hrun' by by rewrite <-app_assoc.
    apply effect_legal, (report_legal _ _ ref') in Hrun' as [_ H2]; [|done].
    rewrite (H2 o) in Ho; [done|]. apply elem_of_app. right. by left.
Qed.

(** A reservation is released or renewed only if it was claimed. *)
Theorem capacity_calls_justified es c l1 action id p l2 :
  runs es c (l1 ++ Capacity action id p :: l2) →
  (action = lit "claim" → id ≠ []) ∧ (action = lit "release" → id ≠ [] ∧ claimed_capacity id l1) ∧
  (action = lit "heartbeat" → id = [] ∨ claimed_capacity id l1).
Proof. intros H%effect_legal. split; [|split]; intros ->; exact H. Qed.

(** C11: A transfer is made only in a call whose agent has the tool, only to the number that is
    configured and from the call's own room; what is reported is what was done: success only
    for a number that was dialled and answered, with that leg and number, and a broken one
    only after its leg was removed. *)
Theorem transfer_pinned es c l1 o l2 :
  runs es c (l1 ++ o :: l2) →
  match o with
  | CreateSip r =>
      ∃ config parts, PipelineMade config parts ∈ l1 ∧ transfer_enabled (agent_context parts) = true
        ∧ sip_call_to r = target_of parts ∧ sip_call_to r ≠ [] ∧ sip_room r = room_name
  | MarkTransfer _ result =>
      (jeq_str result.[lit "status"] (lit "connected") = true →
       ∃ r who id, CreateSip r ∈ l1 ∧ SipAnswer r who id ∈ l1 ∧ result = bridge_connected r who id) ∧
      (∀ name code, result = bridge_broken name code →
       ∃ r, CreateSip r ∈ l1 ∧ RemoveParticipant room_name (sip_leg r) ∈ l1)
  | _ => True
  end.
Proof.
  intros Hrun. pose proof (effect_legal _ _ _ _ _ Hrun) as H. destruct o; try done. destruct H as [H1 H2]. split; [|done].
  intros (r & who & id & Hin & ->)%H1. exists r, who, id. split; [|done].
  apply list_elem_of_split in Hin as (k1 & k2 & ->). rewrite <-app_assoc in Hrun.
  apply effect_legal in Hrun. apply elem_of_app. by left.
Qed.

(** C10: The caller's inputs reach the pipeline after it was started, one at a time, and text only
    of a sender who is the served caller, never blank nor longer than 4096 characters. *)
Theorem inputs_serialised es c l1 o l2 :
  runs es c (l1 ++ o :: l2) →
  match o with
  | PipelineText _ sender text =>
      PipelineStart ∈ l1 ∧ Serving sender ∈ l1 ∧ slen text ≤ 4096 ∧ py_strip text ≠ [] ∧ busy l1 = None
  | PipelineAudio _ pcm => PipelineStart ∈ l1 ∧ pcm ≠ [] ∧ busy l1 = None
  | InputOver t => busy l1 = Some t
  | _ => True
  end.
Proof. intros H%effect_legal. by destruct o. Qed.
End safety.

(** ** Instances *)

Lemma shown_result es o r :
  outputs es = Some o → result es = Some r →
  ∃ c, run example_step example_init es = Some (c, o) ∧ results c !! 0%nat = r.
Proof. unfold outputs, result. destruct (run _ _ _) as [[c l]|]; [|done]. intros [= ->] [= <-]. by exists c. Qed.

(** An effect of a run that passes a test. *)
Lemma found es (test : effect → bool) :
  (existsb test <$> outputs es) = Some true →
  ∃ c l1 o l2, run example_step example_init es = Some (c, l1 ++ o :: l2) ∧ test o = true.
Proof.
  unfold outputs. destruct (run _ _ _) as [[c l]|]; [|done]. simpl. intros [= (o & Hin & Ht)%existsb_exists].
  apply list_elem_of_In, list_elem_of_split in Hin as (l1 & l2 & ->). by exists c, l1, o, l2.
Qed.

Lemma job_leaves_settled_witness :
  ∃ c l, run example_step example_init example_call = Some (c, l) ∧
    (∀ l1 l2, l = l1 ++ Disconnect :: l2 → settled l1) ∧ Disconnect ∈ l.
Proof.
  destruct (outputs example_call) as [l|] eqn:El; [|exfalso; revert El; vm_compute; discriminate].
  assert (result example_call = Some (Some (Ok tt))) as Hr by (vm_compute; reflexivity).
  destruct (shown_result _ _ _ El Hr) as (c & Hrun & Hend). exists c, l. split; [exact Hrun|].
  edestruct job_leaves_settled as [H1 H2]; [exact Hrun|]. split; [exact H1|exact (H2 Hend)].
Defined.

Lemma pipeline_only_when_admitted_witness :
  ∃ c l1 config parts l2, run example_step example_init example_entry = Some (c, l1 ++ PipelineMade config parts :: l2) ∧
    admitted example_env None parts l1 ∧ ∀ claim, Claimed claim ∈ l1 → given_claim claim l1.
Proof.
  destruct (found example_entry (λ o, match o with PipelineMade _ _ => true | _ => false end))
    as (c & l1 & o & l2 & Hrun & Ho); [vm_compute; reflexivity|].
  destruct o; try discriminate Ho. eexists c, l1, _, _, l2. split; [exact Hrun|].
  eapply pipeline_only_when_admitted. exact Hrun.
Defined.

Lemma outbound_reported_once_witness :
  ∃ c l1 o ref l2, run example_step example_init example_call = Some (c, l1 ++ o :: l2) ∧ reports o = Some ref ∧
    (∃ claim, given_claim claim l1 ∧ ref = claim_ref claim) ∧ ∀ o', o' ∈ l1 ++ l2 → reports o' = None.
Proof.
  destruct (found example_call (λ o, match o with FinishOutbound _ _ _ => true | _ => false end))
    as (c & l1 & o & l2 & Hrun & Ho); [vm_compute; reflexivity|].
  destruct o; try discriminate Ho. eexists c, l1, _, _, l2. split; [exact Hrun|]. split; [reflexivity|].
  eapply outbound_reported_once; [exact Hrun|reflexivity].
Defined.

Lemma capacity_calls_justified_witness :
  ∃ c l1 id p l2, run example_step example_init example_call = Some (c, l1 ++ Capacity (lit "release") id p :: l2) ∧
    id ≠ [] ∧ claimed_capacity id l1.
Proof.
  destruct (found example_call (λ o, match o with Capacity a _ _ => a =s lit "release" | _ => false end))
    as (c & l1 & o & l2 & Hrun & Ho); [vm_compute; reflexivity|].
  destruct o as [| | | | |action id p| | | | | | | | | | | | | | | | | | | | |]; try discriminate Ho.
  apply str_eqb_true in Ho as ->. exists c, l1, id, p, l2. split; [exact Hrun|].
  edestruct capacity_calls_justified as (_ & H & _); [exact Hrun|]. by apply H.
Defined.

Lemma transfer_pinned_witness :
  ∃ c l1 r l2, run example_step example_init example_call = Some (c, l1 ++ CreateSip r :: l2) ∧
    ∃ config parts, PipelineMade config parts ∈ l1 ∧ transfer_enabled (agent_context parts) = true
      ∧ sip_call_to r = target_of example_env None parts ∧ sip_call_to r ≠ [] ∧ sip_room r = lit "aicc-1".
Proof.
  destruct (found example_call (λ o, match o with CreateSip _ => true | _ => false end))
    as (c & l1 & o & l2 & Hrun & Ho); [vm_compute; reflexivity|].
  destruct o as [| | | | | | | | | | | | | | | | | | | | |r| | | | |]; try discriminate Ho. exists c, l1, r, l2. split; [exact Hrun|].
  apply (transfer_pinned _ _ _ _ _ _ _ _ _ _ _ _ _ _ _ _ _ _ _ (CreateSip r) _ Hrun).
Defined.

Lemma inputs_serialised_witness :
  ∃ c l1 t who text l2, run example_step example_init example_call = Some (c, l1 ++ PipelineText t who text :: l2) ∧
    PipelineStart ∈ l1 ∧ Serving who ∈ l1 ∧ slen text ≤ 4096 ∧ py_strip text ≠ [] ∧ busy l1 = None.
Proof.
  destruct (found example_call (λ o, match o with PipelineText _ _ _ => true | _ => false end))
    as (c & l1 & o & l2 & Hrun & Ho); [vm_compute; reflexivity|].
  destruct o as [| | | | | | | | | | | | | |t who text| | | | | | | | | | | |]; try discriminate Ho.
  exists c, l1, t, who, text, l2. split; [exact Hrun|].
  exact (inputs_serialised _ _ _ _ _ _ _ _ _ _ _ _ _ _ _ _ _ _ _ (PipelineText t who text) _ Hrun).
Defined.
