(* ===== verification/OpsApi.v ===== *)
(** * The operations service: agent/ops_api.py

    Every tool of the telephony agent is a coroutine that makes requests one after the other
    and answers with a dictionary.  A coroutine is the tree [call] of what it asks; [perform]
    runs it with the answers of the services.  The observations and the log are left out. *)
From stdpp Require Import base list sets strings.
From Stdlib Require Import ZArith Lia.
From S2P Require Import Prelude Pystr Json Url.

(** ** Requests *)

Record http_request := mkHttp {
  method : str;
  url : str;
  json_body : option dict;
  query : dict;
  headers : list (str * str);
}.

(** The request of a leg to the call centre, by the LiveKit API. *)
Record sip_dial := mkDial {
  sip_trunk_id : str;
  sip_call_to : str;
  sip_number : str;
  dial_room : str;
  participant_identity : str;
  participant_metadata : dict;
}.

Record trunk := mkTrunk { trunk_id : json; trunk_name : json }.

Inductive request : Type :=
| Http (r : http_request)
| ListTrunks
| Dial (r : sip_dial).

(** A transport failure is [HttpError], a time-out of the client [TimeoutError]; the body is
    read as JSON. *)
Inductive reply : Type :=
| HttpReply (code : Z) (body : exn json)
| Trunks (items : list trunk)
| Dialled (participant_identity participant_id sip_call_id : json).

Inductive call : Type :=
| Return (output : dict)
| Fail (e : pyexc)
| Send (r : request) (k : exn reply → call).

(** The requests made and the outcome; [answer n] is the answer to request [n]. *)
Fixpoint perform (answer : nat → exn reply) (n : nat) (c : call) : list request * exn dict :=
  match c with
  | Return d => ([], Ok d)
  | Fail e => ([], Raise e)
  | Send r k => let '(rs, out) := perform answer (S n) (k (answer n)) in (r :: rs, out)
  end.

(** [await c], and what follows. *)
Fixpoint then_call (c : call) (k : dict → call) : call :=
  match c with
  | Return d => k d
  | Fail e => Fail e
  | Send r j => Send r (λ a, then_call (j a) k)
  end.

Definition trying {A} (m : exn A) (k : A → call) : call := match m with Ok a => k a | Raise e => Fail e end.

(** [s or None] *)
Definition or_none (s : str) : json := match s with [] => JNull | _ => JStr s end.

Definition failed (message : str) : dict := [(lit "status", JStr (lit "failed")); (lit "message", JStr message)].

(** ** urllib.parse.urlparse and geturl, of an address with an authority *)

Definition is_nil {A} (l : list A) : bool := match l with [] => true | _ => false end.

(** The part from the first [c] on, without [c]; nothing is written back if it is empty. *)
Definition optional (c : Z) (part : option str) : str :=
  match part with Some (_ :: _ as s) => c :: s | _ => [] end.

(** Empty parameters after a [;] in the last segment are dropped. *)
Definition without_empty_params (path : str) : str :=
  let '(last, before) := cut_at (Z.eqb 47) (List.rev path) in
  match cut_at (Z.eqb 59) (List.rev last) with
  | (segment, Some []) => match before with Some b => List.rev b ++ [47] ++ segment | None => segment end
  | _ => path
  end.

Section urls.
Context (netloc_ok : str → bool).

Definition geturl (resolved : str) (u : split_url) : str :=
  let after := drop (2 + length (url_netloc u)) (snd (split_scheme (clean_url resolved))) in
  let '(before, fragment) := cut_at (Z.eqb 35) after in
  let '(path, query) := cut_at (Z.eqb 63) before in
  url_scheme u ++ lit "://" ++ url_netloc u ++ without_empty_params path
  ++ optional 63 query ++ optional 35 fragment.

Definition _normalize_http_url (value : json) : exn str :=
  let resolved := str_strip value in
  if resolved =s [] then Ok []
  else
    do! parsed := urlsplit netloc_ok resolved in
    Ok (if negb (in_strs (url_scheme parsed) [lit "http"; lit "https"]) || is_nil (url_netloc parsed) then []
        else py_rstrip_char 47 (geturl resolved parsed)).

(** ** Settings *)

(** The environment when the module was loaded, and when a tool is called; [float()] of a
    value of JSON, as one. *)
Context (env0 env : environ) (py_float : json → exn json).

Definition OPS_SERVICE_BASE_URL : str :=
  py_rstrip_char 47 (getenv env0 (lit "OPS_SERVICE_BASE_URL") (lit "http://sales-girl-demo-crm-service:8096")).
Definition HOTEL_OPS_SERVICE_BASE_URL : str := py_rstrip_char 47 (getenv env0 (lit "HOTEL_OPS_SERVICE_BASE_URL") []).
Definition FIDELITY_OPS_SERVICE_BASE_URL : str :=
  py_rstrip_char 47 (getenv env0 (lit "FIDELITY_OPS_SERVICE_BASE_URL") (lit "http://sales-girl-fidelity-ops-service:8095")).
Definition OPS_SERVICE_TOKEN : str := getenv env0 (lit "OPS_SERVICE_TOKEN") (lit "local-internal-service-token").
Definition KNOWLEDGE_SERVICE_BASE_URL : str := py_rstrip_char 47 (getenv env0 (lit "KNOWLEDGE_SERVICE_BASE_URL") []).
Definition KNOWLEDGE_SERVICE_TOKEN : str :=
  getenv env0 (lit "KNOWLEDGE_SERVICE_TOKEN") (getenv env0 (lit "CONVERSATION_SERVICE_TOKEN") OPS_SERVICE_TOKEN).
Definition AGENT_CLIENT_ID : str := getenv env0 (lit "AGENT_CLIENT_ID") (lit "sales-girl-internal").
Definition AGENT_NAME : str := getenv env0 (lit "AGENT_NAME") (lit "sales-girl-agent-en").
Definition OPS_SHARED_OWNER_EMAIL : str := py_lower (py_strip (getenv env0 (lit "OPS_SHARED_OWNER_EMAIL") [])).
Definition AICC_OUTBOUND_TRUNK_NAME : str :=
  py_strip (getenv env0 (lit "AICC_OUTBOUND_TRUNK_NAME") (lit "Huawei AICC Outbound Test")).
Definition AICC_OUTBOUND_TRUNK_ID : str := py_strip (getenv env0 (lit "AICC_OUTBOUND_TRUNK_ID") []).
Definition AICC_TEST_ACCESS_CODE : str := py_strip (getenv env0 (lit "AICC_TEST_ACCESS_CODE") (lit "02014114559")).
(** [str(os.getenv(name) or AICC_TEST_ACCESS_CODE).strip()] *)
Definition aicc_number (name : str) : str :=
  py_strip (match getenv env0 name [] with [] => AICC_TEST_ACCESS_CODE | v => v end).
Definition AICC_TRANSFER_TARGET_NUMBER : str := aicc_number (lit "AICC_TRANSFER_TARGET_NUMBER").
Definition AICC_TRANSFER_FROM_NUMBER : str := aicc_number (lit "AICC_TRANSFER_FROM_NUMBER").

(** A value in quotes, as some files have it, without them. *)
Definition unquoted (raw : str) : str :=
  match raw, List.rev raw with
  | a :: (_ :: _ as r), b :: _ =>
      if (a =? b) && ((a =? 34) || (a =? 39)) then py_strip (take (length r - 1) r) else raw
  | _, _ => raw
  end.

Definition _read_conversation_api_base_url : exn str :=
  _normalize_http_url (JStr (unquoted (py_strip (getenv env (lit "CONVERSATION_API_BASE_URL") [])))).

Definition _read_conversation_service_token : str :=
  py_strip (match getenv env (lit "CONVERSATION_SERVICE_TOKEN") [] with
            | [] => match getenv env (lit "OPS_SERVICE_TOKEN") [] with
                    | [] => lit "local-internal-service-token"
                    | v => v
                    end
            | v => v
            end).

(** ** Scope *)

(** [metadata or {}] is the dictionary [md] throughout. *)
Definition _business_use_case (md : dict) : str := py_lower (str_strip md.[lit "business_use_case"]).

Definition BOOKED : list str := [lit "hotel"; lit "restaurant"; lit "fashion"].
Definition GENERAL : list str := [lit "custom"; lit "generic"; lit "other"].

Definition _uses_internal_business_ops (md : dict) : bool := in_strs (_business_use_case md) (BOOKED ++ GENERAL).

Definition _ops_base_url (md : dict) : str :=
  let use_case := _business_use_case md in
  if in_strs use_case BOOKED then HOTEL_OPS_SERVICE_BASE_URL
  else if in_strs use_case GENERAL then OPS_SERVICE_BASE_URL
  else if (use_case =s lit "fidelity") && negb (is_nil FIDELITY_OPS_SERVICE_BASE_URL)
  then FIDELITY_OPS_SERVICE_BASE_URL
  else OPS_SERVICE_BASE_URL.

Definition _internal_ticket_http_base_url (md : dict) : exn str :=
  do! hotel := _normalize_http_url (JStr (getenv env (lit "HOTEL_OPS_SERVICE_BASE_URL") [])) in
  Ok (match hotel with [] => _ops_base_url md | _ => hotel end).

Definition _resolve_customer_identifier (customer_identifier : json) (md : dict) : str :=
  match str_strip customer_identifier with
  | [] => str_strip md.[lit "end_user_id"]
  | explicit => explicit
  end.

Definition _PLACEHOLDER_CUSTOMER_NAMES : list str :=
  map lit ["guest"; "guests"; "anonymous"; "caller"; "user"; "visitor"; "me"; "customer"]%string.

Definition _is_placeholder_customer_name (name : json) : bool :=
  let n := py_lower (str_strip name) in is_nil n || in_strs n _PLACEHOLDER_CUSTOMER_NAMES.

Definition is_email (s : str) : bool := negb (is_nil s) && has_char 64 s.

Definition _ticket_customer_name_and_contact (customer_identifier : json) (md : dict) : json * json :=
  let raw_name := str_strip md.[lit "end_user_name"] in
  let phone := str_strip md.[lit "caller_phone_e164"] in
  let resolved := py_strip (_resolve_customer_identifier customer_identifier md) in
  let contact := match phone with [] => resolved | _ => phone end in
  let name :=
    if _is_placeholder_customer_name (or_none raw_name) then
      if negb (is_nil resolved) then resolved else if is_email contact then contact else raw_name
    else raw_name in
  (or_none (if is_nil name && is_email contact then contact else name), or_none contact).

(** ** Headers *)

(** [str(md.get(k) or d)] *)
Definition header (md : dict) (k : String.string) (d : str) : str := py_str (jor md.[lit k] (JStr d)).

Definition session_headers (md : dict) : list (str * str) :=
  [(lit "X-Client-ID", header md "client_id" AGENT_CLIENT_ID);
   (lit "X-Agent-ID", header md "agent_id" AGENT_NAME);
   (lit "X-Conversation-ID", header md "conversation_id" []);
   (lit "X-Session-ID", header md "session_id" []);
   (lit "X-End-User-ID", header md "end_user_id" [])].

Definition business_of (md : dict) : str := str_strip md.[lit "business_id"].

Definition TOKEN : str := lit "X-Service-Token".
Definition BUSINESS : str := lit "X-Business-ID".

Definition _conversation_ticket_headers (md : dict) : list (str * str) :=
  [(lit "Content-Type", lit "application/json"); (TOKEN, _read_conversation_service_token);
   (lit "X-Service-Name", AGENT_CLIENT_ID); (BUSINESS, business_of md)] ++ session_headers md.

Definition _service_headers (md : dict) : list (str * str) :=
  let internal := _uses_internal_business_ops md in
  let scope := if internal then business_of md
               else match OPS_SHARED_OWNER_EMAIL with [] => business_of md | owner => owner end in
  [(TOKEN, OPS_SERVICE_TOKEN); (lit "X-Service-Name", AGENT_CLIENT_ID); (BUSINESS, scope)] ++ session_headers md
  ++ (if negb (is_nil OPS_SHARED_OWNER_EMAIL) && negb internal
      then [(lit "X-Workspace-Owner-Email", OPS_SHARED_OWNER_EMAIL)] else []).

Definition _knowledge_headers (md : dict) : list (str * str) :=
  [(lit "Content-Type", lit "application/json"); (TOKEN, KNOWLEDGE_SERVICE_TOKEN);
   (lit "X-Service-Name", AGENT_CLIENT_ID); (BUSINESS, business_of md);
   (lit "X-Agent-ID", header md "agent_id" AGENT_NAME)].

(** Of the requests to a live endpoint: no token. *)
Definition live_headers (md : dict) : list (str * str) :=
  [(lit "Content-Type", lit "application/json"); (BUSINESS, header md "business_id" []);
   (lit "X-Conversation-ID", header md "conversation_id" []); (lit "X-Session-ID", header md "session_id" []);
   (lit "X-End-User-ID", header md "end_user_id" []); (lit "X-Client-ID", header md "client_id" AGENT_CLIENT_ID);
   (lit "X-Agent-ID", header md "agent_id" AGENT_NAME)].

(** A request has a business if the header is not blank. *)
Definition scoped (hs : list (str * str)) : bool := negb (is_nil (py_strip (default [] (dget BUSINESS hs)))).

(** ** Answers *)

(** The status and the body, [None] if it is no JSON; or the output for a transport failure. *)
Definition answered (timed_out unavailable : str) (a : exn reply) (k : Z → option json → call) : call :=
  match a with
  | Raise TimeoutError => Return (failed timed_out)
  | Raise HttpError => Return (failed unavailable)
  | Raise e => Fail e
  | Ok (HttpReply code (Ok v)) => k code (Some v)
  | Ok (HttpReply code (Raise (ValueError _))) => k code None
  | Ok (HttpReply _ (Raise e)) => Fail e
  | Ok _ => Fail OtherError
  end.

Definition refused (code : Z) (detail : str) : dict := failed detail ++ [(lit "http_status", JInt code)].

Definition success (d : dict) : dict := dset (lit "status") (JStr (lit "success")) d.
Definition items (l : list json) : dict := [(lit "status", JStr (lit "success")); (lit "items", JArr l)].

Definition REQUEST_FAILED : json := JStr (lit "Request failed.").

Definition detail_of (payload : option json) : str :=
  match payload with Some (JObj d) => py_str (jor d.[lit "detail"] REQUEST_FAILED) | _ => py_str REQUEST_FAILED end.

Definition _request_json (path : str) (body md : dict) (base_url : str) : call :=
  let base := match py_strip base_url with [] => _ops_base_url md | override => override end in
  if is_nil (py_strip base) then Return (failed (lit "Hotel ops backend is not configured."))
  else
    let hs := _service_headers md in
    if negb (scoped hs) then Return (failed (lit "Missing business scope for ops request."))
    else
      Send (Http (mkHttp (lit "POST") (base ++ path) (Some body) [] hs)) (λ a,
        answered (lit "Ops backend request timed out.") (lit "Ops backend is unavailable.") a (λ code payload,
          if 400 <=? code then Return (refused code (detail_of payload))
          else match payload with
               | Some (JObj d) => Return (success d)
               | Some (JArr l) => Return (items l)
               | _ => Return (failed (lit "Invalid response from ops backend."))
               end)).

Definition _request_conversation_service_json (path : str) (body md : dict) : call :=
  trying _read_conversation_api_base_url (λ base,
    if is_nil base then Return (failed (lit "Conversation service is not configured for tickets."))
    else
      let hs := _conversation_ticket_headers md in
      if negb (scoped hs) then Return (failed (lit "Missing business scope for ticket request."))
      else
        Send (Http (mkHttp (lit "POST") (base ++ path) (Some body) [] hs)) (λ a,
          answered (lit "Conversation service ticket request timed out.")
            (lit "Conversation service is unavailable.") a (λ code payload,
            if 400 <=? code then Return (refused code (detail_of payload))
            else match payload with
                 | Some (JObj d) => Return (success d)
                 | _ => Return (failed (lit "Invalid response from conversation service."))
                 end))).

(** ** search_business_knowledge *)

Definition knowledge_match (m : dict) : exn json :=
  do! score := py_float (jor m.[lit "score"] (JFloat (lit "0.0"))) in
  Ok (JObj [(lit "source_name", JStr (py_str (jor m.[lit "source_name"] (JStr (lit "Knowledge")))));
            (lit "source_type", JStr (py_str (jor m.[lit "source_type"] (JStr (lit "text")))));
            (lit "score", score); (lit "text", JStr (take 1500 (str_strip m.[lit "text"])))]).

Fixpoint normalized_matches (l : list json) : exn (list json) :=
  match l with
  | [] => Ok []
  | JObj m :: l => do! x := knowledge_match m in do! rest := normalized_matches l in Ok (x :: rest)
  | _ :: l => normalized_matches l
  end.

Definition knowledge_output (top_k code : Z) (payload : option json) : call :=
  let d := match payload with Some (JObj d) => d | _ => [] end in
  if 400 <=? code
  then Return (failed (py_str (jor d.[lit "detail"] (JStr (lit "Knowledge lookup failed.")))))
  else match d.[lit "matches"] with
       | JArr (_ :: _ as l) =>
           trying (normalized_matches (take (Z.to_nat top_k) l)) (λ ms,
             Return [(lit "status", JStr (lit "success")); (lit "matches", JArr ms)])
       | _ => Return [(lit "status", JStr (lit "success")); (lit "matches", JArr []);
                      (lit "message", JStr (lit "No matching business knowledge was found."))]
       end.

Definition search_business_knowledge (query top_k : json) (md : dict) : call :=
  let base := py_strip KNOWLEDGE_SERVICE_BASE_URL in
  if is_nil base then Return (failed (lit "Business knowledge lookup is not configured."))
  else
    let hs := _knowledge_headers md in
    if negb (scoped hs) then Return (failed (lit "Missing business scope for knowledge lookup."))
    else
      trying (do! ids := py_iter (jor md.[lit "knowledge_base_ids"] (JArr [])) in
              do! n := py_int (jor top_k (JInt 4)) in Ok (ids, Z.max 1 (Z.min n 6))) (λ '(ids, n),
        let known := List.filter (λ i, negb (is_nil i)) (map (λ i, py_strip (py_str i)) ids) in
        Send (Http (mkHttp (lit "POST") (base ++ lit "/v1/knowledge/search")
          (Some [(lit "query", JStr (str_strip query)); (lit "top_k", JInt n);
           (lit "knowledge_base_ids", JArr (map JStr known))]) [] hs)) (λ a,
          answered (lit "Knowledge lookup timed out.") (lit "Knowledge lookup is unavailable.") a
            (knowledge_output n))).

(** ** The tools of accounts *)

(** A request for the customer, with the arguments that the tool adds. *)
Definition customer_request (path : String.string) (customer_identifier : json) (args : dict) (md : dict) : call :=
  _request_json (lit path)
    ((lit "customer_identifier", JStr (_resolve_customer_identifier customer_identifier md)) :: args) md [].

Definition conversation_of (md : dict) : str * json := (lit "conversation_id", JStr (str_or_empty md.[lit "conversation_id"])).

Definition lookup_customer_account (who : json) (md : dict) : call :=
  customer_request "/v1/tools/customer-account/lookup" who [] md.
Definition get_tariff_profile (who : json) (md : dict) : call :=
  customer_request "/v1/tools/tariff-profile" who [] md.
Definition get_payment_summary (who : json) (md : dict) : call :=
  customer_request "/v1/tools/payments/summary" who [] md.
Definition get_vending_history (who : json) (md : dict) : call :=
  customer_request "/v1/tools/vending/history" who [] md.
Definition get_account_overview (who : json) (md : dict) : call :=
  customer_request "/v1/tools/account/overview" who [] md.
Definition get_recent_transactions (who limit : json) (md : dict) : call :=
  customer_request "/v1/tools/transactions/recent" who [(lit "limit", limit)] md.
Definition check_transaction_status (who transaction_reference amount_naira : json) (md : dict) : call :=
  customer_request "/v1/tools/transactions/status" who
    [(lit "transaction_reference", transaction_reference); (lit "amount_naira", amount_naira)] md.
Definition block_card (who last4 reason : json) (md : dict) : call :=
  customer_request "/v1/tools/cards/block" who [(lit "last4", last4); (lit "reason", reason)] md.
Definition unblock_card (who last4 reason : json) (md : dict) : call :=
  customer_request "/v1/tools/cards/unblock" who [(lit "last4", last4); (lit "reason", reason)] md.
Definition reverse_failed_transaction (who transaction_reference reason : json) (md : dict) : call :=
  customer_request "/v1/tools/transactions/reverse" who
    [(lit "transaction_reference", transaction_reference); (lit "reason", reason)] md.
Definition report_outage (who summary priority : json) (md : dict) : call :=
  customer_request "/v1/tools/outages/report" who
    [(lit "summary", summary); (lit "priority", priority); conversation_of md] md.
Definition create_meter_request (who summary priority : json) (md : dict) : call :=
  customer_request "/v1/tools/meter-requests/create" who
    [(lit "summary", summary); (lit "priority", priority); conversation_of md] md.
Definition apply_billing_adjustment (who amount reason : json) (md : dict) : call :=
  customer_request "/v1/tools/billing/apply-adjustment" who
    [(lit "amount", amount); (lit "reason", reason); conversation_of md] md.
Definition refresh_meter_token_state (who reason : json) (md : dict) : call :=
  customer_request "/v1/tools/metering/refresh-token-state" who [(lit "reason", reason); conversation_of md] md.
Definition update_customer_record (who email phone service_address : json) (md : dict) : call :=
  customer_request "/v1/tools/customers/update-record" who
    [(lit "email", email); (lit "phone", phone); (lit "service_address", service_address); conversation_of md] md.
Definition create_payment_plan (who plan_name installment_count monthly_amount reason : json) (md : dict) : call :=
  customer_request "/v1/tools/payments/create-plan" who
    [(lit "plan_name", plan_name); (lit "installment_count", installment_count);
     (lit "monthly_amount", monthly_amount); (lit "reason", reason); conversation_of md] md.

(** ** Tickets *)

(** [body["case_reference"] = case_reference] if there is one. *)
Definition with_case (case_reference : json) (args : dict) : dict :=
  if truthy case_reference then args ++ [(lit "case_reference", case_reference)] else args.

Definition case_request (path : String.string) (who title description priority case_reference : json) (md : dict) : call :=
  customer_request path who (with_case case_reference
    [(lit "title", title); (lit "description", description); (lit "priority", priority); conversation_of md]) md.

Definition create_complaint_ticket := case_request "/v1/tools/tickets/create".
Definition escalate_issue := case_request "/v1/tools/create-escalation-ticket".

Definition own_key (md : dict) (k : String.string) : dict :=
  match str_strip md.[lit k] with [] => [] | v => [(lit k, JStr v)] end.

Definition dashboard_body (who title description priority : json) (md : dict) : dict :=
  let '(name, contact) := _ticket_customer_name_and_contact who md in
  [(lit "customer_name", name); (lit "customer_contact", contact); (lit "title", title);
   (lit "description", description); (lit "priority", priority); (lit "status", JStr (lit "open"))]
  ++ own_key md "conversation_id" ++ own_key md "agent_id".

Definition create_ticket (who title description issue_type priority requires_human case_reference : json) (md : dict) : call :=
  let dashboard := dashboard_body who title description priority md in
  trying _read_conversation_api_base_url (λ base,
    if negb (is_nil base) then _request_conversation_service_json (lit "/v1/tickets") dashboard md
    else if _uses_internal_business_ops md then
      trying (_internal_ticket_http_base_url md) (λ ticket_base,
        _request_json (lit "/v1/tickets") dashboard md ticket_base)
    else
      customer_request "/v1/tools/tickets/create" who (with_case case_reference
        [(lit "title", title); (lit "description", description); (lit "issue_type", issue_type);
         (lit "priority", priority); (lit "requires_human", requires_human); conversation_of md]) md).

(** ** Transfer *)

(** The configured trunk, or the only one. *)
Definition _resolve_aicc_outbound_trunk (items : list trunk) : option trunk :=
  let having (field : trunk → json) (wanted : str) :=
    match wanted with [] => None | _ => find (λ t, str_strip (field t) =s wanted) items end in
  match having trunk_id AICC_OUTBOUND_TRUNK_ID with
  | Some t => Some t
  | None => match having trunk_name AICC_OUTBOUND_TRUNK_NAME with
            | Some t => Some t
            | None => match items with [t] => Some t | _ => None end
            end
  end.

Definition or_else (s d : str) : str := match s with [] => d | _ => s end.

Definition dial_request (reason_summary : json) (md : dict) (t : trunk) : sip_dial :=
  let target := py_strip AICC_TRANSFER_TARGET_NUMBER in
  let session := or_else (str_strip md.[lit "session_id"]) (lit "session") in
  let turn := or_else (str_strip md.[lit "turn_index"]) (lit "0") in
  mkDial (str_strip (trunk_id t)) target (or_else (py_strip AICC_TRANSFER_FROM_NUMBER) target)
    (str_strip md.[lit "room_name"]) (lit "aicc_bridge_" ++ session ++ lit "_" ++ turn)
    ([(lit "direction", JStr (lit "outbound")); (lit "target_number", JStr target); (lit "owner", JStr (lit "voice_agent"))]
     ++ (if truthy reason_summary
         then [(lit "reason_summary", JStr (take 240 (py_strip (py_str reason_summary))))] else [])).

Definition dialled (r : sip_dial) (t : trunk) (who participant_id sip_call_id : json) : dict :=
  [(lit "status", JStr (lit "success")); (lit "message", JStr (lit "AICC transfer has started."));
   (lit "room_name", JStr (dial_room r)); (lit "target_number", JStr (sip_call_to r));
   (lit "participant_identity", JStr (py_strip (py_str (jor who (JStr (participant_identity r))))));
   (lit "participant_id", JStr (str_strip participant_id)); (lit "sip_call_id", JStr (str_strip sip_call_id));
   (lit "outbound_trunk_name", JStr (str_strip (trunk_name t))); (lit "outbound_trunk_id", JStr (str_strip (trunk_id t)))].

Definition transfer_to_aicc (reason_summary : json) (md : dict) : call :=
  if is_nil (str_strip md.[lit "room_name"])
  then Return (failed (lit "This call is missing room context, so I cannot transfer it yet."))
  else if is_nil (py_strip AICC_TRANSFER_TARGET_NUMBER)
  then Return (failed (lit "The AICC transfer destination is not configured yet."))
  else
    Send ListTrunks (λ a,
      match a with
      | Raise e => Fail e
      | Ok (Trunks items) =>
          let unconfigured := Return (failed (lit "The AICC outbound SIP trunk is not configured yet.")) in
          match _resolve_aicc_outbound_trunk items with
          | None => unconfigured
          | Some t =>
              if is_nil (str_strip (trunk_id t)) then unconfigured
              else
                let r := dial_request reason_summary md t in
                Send (Dial r) (λ a,
                  match a with
                  | Raise e => Fail e
                  | Ok (Dialled who participant_id sip_call_id) =>
                      Return (dialled r t who participant_id sip_call_id)
                  | Ok _ => Fail OtherError
                  end)
          end
      | Ok _ => Fail OtherError
      end).

(** ** Bookings and orders *)

(** [x or str(md.get(k) or "").strip() or None] *)
Definition or_own (x : json) (md : dict) (k : String.string) : json := jor x (or_none (str_strip md.[lit k])).

Definition only_dict (v : json) : json := match v with JObj _ => v | _ => JNull end.

Definition booking_ids (md : dict) : dict :=
  [(lit "conversation_id", or_none (str_strip md.[lit "conversation_id"])); (lit "agent_id", or_none (str_strip md.[lit "agent_id"]))].

Definition create_booking (who guest_name room_type check_in_date check_out_date guest_count special_requests
    price_snapshot : json) (md : dict) : call :=
  if _business_use_case md =s lit "hotel" then
    _request_json (lit "/v1/bookings")
      ([(lit "customer_name", or_own guest_name md "end_user_name");
        (lit "customer_contact", or_none (str_strip md.[lit "caller_phone_e164"]));
        (lit "room_type", room_type); (lit "stay_start", check_in_date); (lit "stay_end", check_out_date);
        (lit "guest_count", guest_count); (lit "price_snapshot", only_dict price_snapshot);
        (lit "status", JStr (lit "pending")); (lit "notes", special_requests)] ++ booking_ids md) md []
  else
    customer_request "/v1/tools/bookings/create" who
      [(lit "guest_name", guest_name); (lit "room_type", room_type); (lit "check_in_date", check_in_date);
       (lit "check_out_date", check_out_date); (lit "guest_count", guest_count);
       (lit "special_requests", special_requests); (lit "price_snapshot", price_snapshot); conversation_of md] md.

Section order.
(** The arguments of [create_order]. *)
Context (who item_name quantity customer_name notes price_snapshot : json) (md : dict).

(** The body of the order for one item; none without a name. *)
Definition order_body (order_item : dict) : exn (option (str * dict)) :=
  let name := py_strip (py_str (jor order_item.[lit "item_name"] item_name)) in
  do! n := py_int (jor (jor order_item.[lit "quantity"] quantity) (JInt 1)) in
  let price := jor order_item.[lit "price_snapshot"] price_snapshot in
  Ok (if is_nil name then None
      else if in_strs (_business_use_case md) [lit "restaurant"; lit "fashion"] then
        Some (lit "/v1/orders",
          [(lit "customer_name", or_own customer_name md "end_user_name");
           (lit "customer_contact", jor (or_none (str_strip md.[lit "caller_phone_e164"]))
                                        (or_none (str_strip md.[lit "end_user_id"])));
           (lit "item_name", JStr name); (lit "quantity", JInt n); (lit "price_snapshot", only_dict price);
           (lit "status", JStr (lit "pending")); (lit "notes", notes)] ++ booking_ids md)
      else
        Some (lit "/v1/tools/orders/create",
          [(lit "customer_identifier", JStr (_resolve_customer_identifier who md)); (lit "item_name", JStr name);
           (lit "quantity", JInt n); (lit "customer_name", customer_name); (lit "notes", notes);
           (lit "price_snapshot", price); conversation_of md])).

Definition is_failed (r : dict) : bool := jeq_str r.[lit "status"] (lit "failed").

(** The first failure, else the first result. *)
Definition order_result (results : list dict) : dict :=
  match find is_failed results, results with
  | Some r, _ => r
  | None, r :: _ => r
  | None, [] => failed (lit "No valid items to order.")
  end.

(** One request per item, in order. *)
Fixpoint place_orders (order_items : list dict) (results : list dict) : call :=
  match order_items with
  | [] => Return (order_result results)
  | item :: order_items =>
      trying (order_body item) (λ body,
        match body with
        | None => place_orders order_items results
        | Some (path, body) =>
            then_call (_request_json path body md []) (λ res, place_orders order_items (results ++ [res]))
        end)
  end.

Definition create_order (order_items : list dict) : call :=
  place_orders match order_items with
               | [] => [[(lit "item_name", item_name); (lit "quantity", quantity)]]
               | _ => order_items
               end [].
End order.

(** ** Live data *)

(** [_fetch_live_catalog]; [fetch_room_availability] is written the same way. *)
Definition _fetch_live_catalog (endpoint_url : json) (body md : dict)
    (unavailable timed_out service_unavailable invalid : str) : call :=
  trying (_normalize_http_url (jor endpoint_url md.[lit "live_data_endpoint"])) (λ endpoint,
    if is_nil endpoint then Return (failed unavailable)
    else
      Send (Http (mkHttp (lit "POST") endpoint (Some body) [] (live_headers md))) (λ a,
        answered timed_out service_unavailable a (λ code payload,
          if 400 <=? code then
            Return (refused code
              match payload with
              | Some (JObj d) => py_str (jor (jor d.[lit "detail"] d.[lit "message"]) REQUEST_FAILED)
              | _ => py_str REQUEST_FAILED
              end)
          else match payload with
               | Some (JObj d) => Return (if dhas (lit "status") d then d else success d)
               | Some (JArr l) => Return (items l)
               | _ => Return (failed invalid)
               end))).

Definition fetch_room_availability (endpoint_url room_type check_in_date check_out_date guest_count : json) (md : dict) : call :=
  _fetch_live_catalog endpoint_url
    [(lit "room_type", room_type); (lit "check_in_date", check_in_date); (lit "check_out_date", check_out_date);
     (lit "guest_count", guest_count)] md
    (lit "Current room availability cannot be checked right now.")
    (lit "I couldn't check the current room availability in time.")
    (lit "I can't check the current room availability right now.")
    (lit "Invalid response from room availability service.").

Definition fetch_menu_availability (endpoint_url item_name party_size : json) (md : dict) : call :=
  _fetch_live_catalog endpoint_url [(lit "item_name", item_name); (lit "party_size", party_size)] md
    (lit "The current menu and prices cannot be checked right now.")
    (lit "I couldn't check the current menu in time.") (lit "I can't check the current menu right now.")
    (lit "I couldn't read the current menu details properly.").

Definition fetch_product_availability (endpoint_url product_name size color : json) (md : dict) : call :=
  _fetch_live_catalog endpoint_url [(lit "product_name", product_name); (lit "size", size); (lit "color", color)] md
    (lit "Current product availability and prices cannot be checked right now.")
    (lit "I couldn't check the current product availability in time.")
    (lit "I can't check current product availability right now.")
    (lit "I couldn't read the current product details properly.").

(** ** Mail *)

Definition email_output (to_email subject : json) (result : dict) : dict :=
  if is_failed result then result
  else if truthy result.[lit "mocked"] || negb (truthy result.[lit "sent"]) then
    failed (py_str (jor result.[lit "message"] (JStr (lit "Email delivery is not configured right now."))))
    ++ [(lit "to", jor result.[lit "to"] to_email); (lit "subject", jor result.[lit "subject"] subject);
        (lit "mocked", JBool (truthy result.[lit "mocked"]))]
  else result.

Definition send_email (to_email subject body_text : json) (md : dict) : call :=
  then_call (_request_json (lit "/v1/tools/send-email")
               [(lit "to_email", to_email); (lit "subject", subject); (lit "body", body_text)] md [])
    (λ result, Return (email_output to_email subject result)).

#[local] Opaque HOTEL_OPS_SERVICE_BASE_URL OPS_SERVICE_BASE_URL FIDELITY_OPS_SERVICE_BASE_URL KNOWLEDGE_SERVICE_BASE_URL
  OPS_SERVICE_TOKEN KNOWLEDGE_SERVICE_TOKEN _read_conversation_service_token AGENT_CLIENT_ID AGENT_NAME
  OPS_SHARED_OWNER_EMAIL AICC_TRANSFER_TARGET_NUMBER AICC_TRANSFER_FROM_NUMBER lit.

(** ** The tools *)

Inductive tool (md : dict) : call → Prop :=
| t_knowledge q k : tool md (search_business_knowledge q k md)
| t_lookup w : tool md (lookup_customer_account w md)
| t_tariff w : tool md (get_tariff_profile w md)
| t_payments w : tool md (get_payment_summary w md)
| t_vending w : tool md (get_vending_history w md)
| t_overview w : tool md (get_account_overview w md)
| t_recent w l : tool md (get_recent_transactions w l md)
| t_status w t a : tool md (check_transaction_status w t a md)
| t_block w l r : tool md (block_card w l r md)
| t_unblock w l r : tool md (unblock_card w l r md)
| t_reverse w t r : tool md (reverse_failed_transaction w t r md)
| t_ticket w t d i p h c : tool md (create_ticket w t d i p h c md)
| t_transfer r : tool md (transfer_to_aicc r md)
| t_booking w g r i o n s p : tool md (create_booking w g r i o n s p md)
| t_order w n q c t p l : tool md (create_order w n q c t p md l)
| t_room e r i o n : tool md (fetch_room_availability e r i o n md)
| t_menu e i n : tool md (fetch_menu_availability e i n md)
| t_product e p s c : tool md (fetch_product_availability e p s c md)
| t_complaint w t d p c : tool md (create_complaint_ticket w t d p c md)
| t_outage w s p : tool md (report_outage w s p md)
| t_meter w s p : tool md (create_meter_request w s p md)
| t_billing w a r : tool md (apply_billing_adjustment w a r md)
| t_refresh w r : tool md (refresh_meter_token_state w r md)
| t_update w e p a : tool md (update_customer_record w e p a md)
| t_plan w n i m r : tool md (create_payment_plan w n i m r md)
| t_escalate w t d p c : tool md (escalate_issue w t d p c md)
| t_mail e s b : tool md (send_email e s b md).

(** ** What is sent *)

(** Of all requests that can be made. *)
Fixpoint every (P : request → Prop) (c : call) : Prop :=
  match c with
  | Return _ | Fail _ => True
  | Send r k => P r ∧ ∀ a, every P (k a)
  end.

Lemma every_perform P answer n c rs out : every P c → perform answer n c = (rs, out) → Forall P rs.
Proof.
  revert n rs out. induction c as [d|e|r k IH]; intros n rs out H Hp; simpl in Hp; simplify_eq; [constructor..|].
  destruct H as [Hr Hk]. destruct (perform answer (S n) (k (answer n))) as [rs' out'] eqn:E. simplify_eq.
  constructor; [done|]. by eapply IH.
Qed.

Lemma every_trying {A} P (m : exn A) k : (∀ a, m = Ok a → every P (k a)) → every P (trying m k).
Proof. intros H. destruct m; simpl; [by apply H|done]. Qed.

Lemma every_then P c k : every P c → (∀ d, every P (k d)) → every P (then_call c k).
Proof.
  intros H Hk. induction c as [d|e|r j IH]; simpl in *; [done..|]. destruct H as [Hr Hj].
  split; [done|]. intros a. by apply IH.
Qed.

(** The answer of a service leads to an output, or to a further step. *)
Lemma every_answered P t u a k : (∀ code v, every P (k code v)) → every P (answered t u a k).
Proof. intros Hk. unfold answered. repeat case_match; simpl; auto. Qed.

(** The addresses that the operator configured. *)
Definition service (base : str) : Prop :=
  (∃ b, b ∈ [HOTEL_OPS_SERVICE_BASE_URL; OPS_SERVICE_BASE_URL; FIDELITY_OPS_SERVICE_BASE_URL; KNOWLEDGE_SERVICE_BASE_URL]
     ∧ (base = b ∨ base = py_strip b)) ∨
  _read_conversation_api_base_url = Ok base ∨
  (∃ b, _normalize_http_url (JStr (getenv env (lit "HOTEL_OPS_SERVICE_BASE_URL") [])) = Ok b ∧ base = py_strip b).

(** A request has no token, or goes to a configured service and names a business. *)
Definition contained (r : request) : Prop :=
  match r with
  | Http h =>
      dget TOKEN (headers h) = None ∨
      (scoped (headers h) = true ∧ ∃ base path, service base ∧ starts_with (lit "/v1/") path = true ∧ url h = base ++ path)
  | _ => True
  end.

Lemma ops_base_known md :
  _ops_base_url md ∈ [HOTEL_OPS_SERVICE_BASE_URL; OPS_SERVICE_BASE_URL; FIDELITY_OPS_SERVICE_BASE_URL; KNOWLEDGE_SERVICE_BASE_URL].
Proof.
  rewrite !elem_of_cons. unfold _ops_base_url. cbv zeta.
  generalize HOTEL_OPS_SERVICE_BASE_URL, OPS_SERVICE_BASE_URL, FIDELITY_OPS_SERVICE_BASE_URL. intros h o f.
  case (in_strs (_business_use_case md) BOOKED); [auto|]. case (in_strs (_business_use_case md) GENERAL); [auto|].
  case (_ && _); auto.
Qed.

Lemma ops_base_service md : service (_ops_base_url md) ∧ service (py_strip (_ops_base_url md)).
Proof. pose proof (ops_base_known md). split; left; eauto. Qed.

Lemma request_contained path body md base_url :
  starts_with (lit "/v1/") path = true → (py_strip base_url = [] ∨ service (py_strip base_url)) →
  every contained (_request_json path body md base_url).
Proof.
  intros Hpath Hb. unfold _request_json. cbv zeta.
  assert (service match py_strip base_url with [] => _ops_base_url md | override => override end) as Hs.
  { destruct (py_strip base_url); [apply ops_base_service|]. by destruct Hb. }
  destruct (is_nil _); [done|]. destruct (scoped _) eqn:Hsc; cbn [negb]; [|done].
  split.
  - right. split; [done|]. eauto.
  - intros a. apply every_answered. intros code v. by repeat case_match.
Qed.

Lemma customer_contained path who args md :
  starts_with (lit "/v1/") (lit path) = true → every contained (customer_request path who args md).
Proof. intros H. apply request_contained; [done|by left]. Qed.

Lemma conversation_contained body md : every contained (_request_conversation_service_json (lit "/v1/tickets") body md).
Proof.
  unfold _request_conversation_service_json. apply every_trying. intros base Hb. destruct (is_nil base); [done|].
  cbv zeta. destruct (scoped _) eqn:Hsc; cbn [negb]; [|done]. split.
  - right. split; [done|]. exists base, (lit "/v1/tickets"). split; [by right; left|]. split; [by vm_compute|done].
  - intros a. apply every_answered. intros code v. by repeat case_match.
Qed.

Lemma live_contained endpoint body md u t s i : every contained (_fetch_live_catalog endpoint body md u t s i).
Proof.
  unfold _fetch_live_catalog. apply every_trying. intros e _. destruct (is_nil e); [done|]. split; [by left|].
  intros a. apply every_answered. intros code v. by repeat case_match.
Qed.

Lemma ticket_base_service md b : _internal_ticket_http_base_url md = Ok b → service (py_strip b).
Proof.
  unfold _internal_ticket_http_base_url. intros (hotel & Hh & E)%exn_bind_Ok. injection E as <-.
  destruct hotel; [apply ops_base_service|]. right. right. eauto.
Qed.

Lemma orders_contained who name quantity customer notes price md l results :
  every contained (place_orders who name quantity customer notes price md l results).
Proof.
  revert results. induction l as [|item l IH]; intros results; simpl; [done|].
  apply every_trying. intros [[path body]|] Hb; [|apply IH]. apply every_then; [|intros; apply IH].
  apply request_contained; [|by left]. unfold order_body in Hb. apply exn_bind_Ok in Hb as (n & _ & Hb).
  injection Hb as Hb. destruct (is_nil _); [done|]. destruct (in_strs _ _); injection Hb as <- _; by vm_compute.
Qed.

Lemma tool_contained md c : tool md c → every contained c.
Proof.
  intros []; try (by apply customer_contained); try (by apply live_contained).
  - unfold search_business_knowledge. cbv zeta. destruct (is_nil _); [done|].
    destruct (scoped _) eqn:Hsc; cbn [negb]; [|done]. apply every_trying. intros [ids n] _. split.
    + right. split; [done|]. eexists _, _. split; [|split; [|reflexivity]]; [|by vm_compute].
      left. exists KNOWLEDGE_SERVICE_BASE_URL. split; [rewrite !elem_of_cons; auto|by right].
    + intros a. apply every_answered. intros code v. unfold knowledge_output. cbv zeta. destruct (_ <=? _); [done|].
      repeat case_match; try done. by apply every_trying.
  - unfold create_ticket. cbv zeta. apply every_trying. intros base _. destruct (negb _); [apply conversation_contained|].
    destruct (_uses_internal_business_ops md); [|by apply customer_contained].
    apply every_trying. intros b Hb. apply request_contained; [by vm_compute|]. right. by eapply ticket_base_service.
  - unfold transfer_to_aicc. destruct (is_nil _); [done|]. destruct (is_nil _); [done|]. split; [done|].
    intros [[]|]; try done. cbv zeta. destruct (_resolve_aicc_outbound_trunk items0); [|done]. destruct (is_nil _); [done|].
    split; [done|]. by intros [[]|].
  - unfold create_booking. destruct (_ =s _); [|by apply customer_contained].
    apply request_contained; [by vm_compute|by left].
  - apply orders_contained.
  - unfold send_email. apply every_then; [|done]. apply request_contained; [by vm_compute|by left].
Qed.

(** C25: Whatever a tool is asked for, by the model or by the session, its requests carry a
    service token only to an address that the operator configured, below [/v1/], and then name
    a business; the requests to a live endpoint, which the model may choose, carry none. *)
Theorem tokens_contained md c answer rs out :
  tool md c → perform answer 0 c = (rs, out) → Forall contained rs.
Proof. intros Ht. apply every_perform. by eapply tool_contained. Qed.

(** ** What is reported *)

(** The service answered, and not with an error. *)
Definition accepted (a : exn reply) : bool := match a with Ok (HttpReply code _) => code <? 400 | _ => false end.

(** Wherever it ends from here, a failure is reported. *)
Fixpoint doomed (c : call) : Prop :=
  match c with Return d => is_failed d = true | Fail _ => True | Send _ k => ∀ a, doomed (k a) end.

(** After an answer that no service accepted, a failure is reported. *)
Fixpoint honest (c : call) : Prop :=
  match c with
  | Return _ | Fail _ => True
  | Send r k => (∀ a, honest (k a)) ∧ match r with Http _ => ∀ a, accepted a = false → doomed (k a) | _ => True end
  end.

Lemma doomed_perform answer n c rs d : doomed c → perform answer n c = (rs, Ok d) → is_failed d = true.
Proof.
  revert n rs. induction c as [d'|e|r k IH]; intros n rs Hd Hp; simpl in *; simplify_eq; [done|].
  destruct (perform answer (S n) (k (answer n))) as [rs' out] eqn:E. simplify_eq. by eapply IH.
Qed.

Lemma honest_perform answer n c rs d :
  honest c → perform answer n c = (rs, Ok d) → is_failed d = false →
  ∀ i h, rs !! i = Some (Http h) → accepted (answer (n + i)%nat) = true.
Proof.
  revert n rs. induction c as [d'|e|r k IH]; intros n rs Hh Hp Hd i h Hi; simpl in *; simplify_eq.
  destruct (perform answer (S n) (k (answer n))) as [rs' out] eqn:E. simplify_eq. destruct Hh as [Hk Hr].
  destruct i as [|i]; simpl in Hi.
  - simplify_eq. rewrite Nat.add_0_r.
    destruct (accepted (answer n)) eqn:Ha; [done|]. apply Hr in Ha.
    pose proof (doomed_perform _ _ _ _ _ Ha E). congruence.
  - rewrite Nat.add_succ_r, <-Nat.add_succ_l. by eapply IH.
Qed.

Lemma honest_trying {A} (m : exn A) k : (∀ a, m = Ok a → honest (k a)) → honest (trying m k).
Proof. intros H. destruct m; simpl; [by apply H|done]. Qed.

Lemma doomed_trying {A} (m : exn A) k : (∀ a, m = Ok a → doomed (k a)) → doomed (trying m k).
Proof. intros H. destruct m; simpl; [by apply H|done]. Qed.

Lemma doomed_then c k : doomed c → (∀ d, is_failed d = true → doomed (k d)) → doomed (then_call c k).
Proof. intros H Hk. induction c as [d|e|r j IH]; simpl in *; [by apply Hk|done|]. intros a. by apply IH. Qed.

Lemma honest_then c k :
  honest c → (∀ d, honest (k d)) → (∀ d, is_failed d = true → doomed (k d)) → honest (then_call c k).
Proof.
  intros H Hk Hd. induction c as [d|e|r j IH]; simpl in *; [by apply Hk|done|]. destruct H as [Hj Hr]. split.
  - intros a. by apply IH.
  - destruct r; try done. intros a Ha. apply doomed_then; [by apply Hr|done].
Qed.

Lemma failed_is_failed m : is_failed (failed m) = true.
Proof. unfold is_failed, failed. by vm_compute. Qed.

Lemma refused_is_failed code m : is_failed (refused code m) = true.
Proof. by vm_compute. Qed.

Lemma honest_answered t u a k : (∀ code v, honest (k code v)) → honest (answered t u a k).
Proof. intros Hk. unfold answered. repeat case_match; simpl; auto. Qed.

Lemma doomed_answered t u a k :
  accepted a = false → (∀ code v, 400 ≤ code → doomed (k code v)) → doomed (answered t u a k).
Proof.
  intros Ha Hk. unfold answered. destruct a as [[code [v|e]| |]|e]; simpl in *; try done.
  - apply Hk. lia.
  - destruct e; try done. apply Hk. lia.
  - destruct e; try done; apply failed_is_failed.
Qed.

(** A request whose answer is read this way. *)
Lemma honest_send h t u k :
  (∀ code v, honest (k code v)) → (∀ code v, 400 ≤ code → doomed (k code v)) →
  honest (Send (Http h) (λ a, answered t u a k)).
Proof. intros H1 H2. split; [intros a; by apply honest_answered|]. intros a Ha. by apply doomed_answered. Qed.

Lemma request_honest path body md base_url : honest (_request_json path body md base_url).
Proof.
  unfold _request_json. cbv zeta. destruct (is_nil _); [done|]. destruct (negb _); [done|]. apply honest_send.
  - intros code v. by repeat case_match.
  - intros code v Hc. destruct (400 <=? code) eqn:E; [apply refused_is_failed|lia].
Qed.

Lemma live_honest endpoint body md u t s i : honest (_fetch_live_catalog endpoint body md u t s i).
Proof.
  unfold _fetch_live_catalog. apply honest_trying. intros e _. destruct (is_nil e); [done|]. apply honest_send.
  - intros code v. by repeat case_match.
  - intros code v Hc. destruct (400 <=? code) eqn:E; [apply refused_is_failed|lia].
Qed.

Lemma order_result_failed results : existsb is_failed results = true → is_failed (order_result results) = true.
Proof.
  intros H. unfold order_result. destruct (find is_failed results) as [r|] eqn:E.
  - by apply find_some in E as [_ ?].
  - exfalso. apply existsb_exists in H as (r & Hin & Hr). eapply find_none in E; [|done]. congruence.
Qed.

Section orders.
Context (who name quantity customer notes price : json) (md : dict).

Lemma orders_doomed l results :
  existsb is_failed results = true → doomed (place_orders who name quantity customer notes price md l results).
Proof.
  revert results. induction l as [|item l IH]; intros results Hf; simpl; [by apply order_result_failed|].
  apply doomed_trying. intros [[path body]|] _; [|by apply IH].
  assert (∀ c, doomed (then_call c (λ res, place_orders who name quantity customer notes price md l (results ++ [res])))) as H.
  { induction c as [d|e|r j IHc]; simpl; [|done|done]. apply IH. rewrite existsb_app, Hf. done. }
  apply H.
Qed.

Lemma orders_honest l results : honest (place_orders who name quantity customer notes price md l results).
Proof.
  revert results. induction l as [|item l IH]; intros results; simpl; [done|].
  apply honest_trying. intros [[path body]|] _; [|apply IH]. apply honest_then; [apply request_honest|intros; apply IH|].
  intros d Hd. apply orders_doomed. rewrite existsb_app. simpl. by rewrite Hd, orb_true_r.
Qed.
End orders.

Lemma tool_honest md c : tool md c → honest c.
Proof.
  intros []; try (by apply request_honest); try (by apply live_honest).
  - unfold search_business_knowledge. cbv zeta. destruct (is_nil _); [done|]. destruct (negb _); [done|].
    apply honest_trying. intros [ids n] _. apply honest_send; intros code v; unfold knowledge_output; cbv zeta.
    + destruct (_ <=? _); [done|]. repeat case_match; try done. by apply honest_trying.
    + intros Hc. destruct (400 <=? code) eqn:E; [apply failed_is_failed|lia].
  - unfold create_ticket. cbv zeta. apply honest_trying. intros base _. destruct (negb _).
    + unfold _request_conversation_service_json. apply honest_trying. intros b _. destruct (is_nil b); [done|].
      cbv zeta. destruct (negb _); [done|]. apply honest_send.
      * intros code v. by repeat case_match.
      * intros code v Hc. destruct (400 <=? code) eqn:E; [apply refused_is_failed|lia].
    + destruct (_uses_internal_business_ops md); [|by apply request_honest].
      apply honest_trying. intros b _. apply request_honest.
  - unfold transfer_to_aicc. destruct (is_nil _); [done|]. destruct (is_nil _); [done|]. split; [|done].
    intros [[]|]; try done. cbv zeta. destruct (_resolve_aicc_outbound_trunk _); [|done]. destruct (is_nil _); [done|].
    split; [|done]. by intros [[]|].
  - unfold create_booking. destruct (_ =s _); apply request_honest.
  - apply orders_honest.
  - unfold send_email. apply honest_then; [apply request_honest|done|]. intros d Hd. simpl. unfold email_output. by rewrite Hd.
Qed.

(** C26: A tool reports anything but a failure only if every request it made was answered without
    an error: a time-out, an unreachable service or a status of 400 and above is never passed
    over, whichever of several requests it meets. *)
Theorem reported_success_accepted md c answer rs d :
  tool md c → perform answer 0 c = (rs, Ok d) → is_failed d = false →
  ∀ i h, rs !! i = Some (Http h) → accepted (answer i) = true.
Proof. intros Ht Hp Hd. by apply (honest_perform answer 0 c rs d); [eapply tool_honest|..]. Qed.
End urls.

(** ** Instances *)

Definition example_env0 : environ := λ k,
  if k =s lit "HOTEL_OPS_SERVICE_BASE_URL" then Some (lit "http://hotel:8091/") else None.

Definition example_float (v : json) : exn json := Ok v.

Definition example_md : dict :=
  [(lit "business_id", JStr (lit "b1")); (lit "business_use_case", JStr (lit "Restaurant"))].

Definition dish (name : String.string) (quantity : json) : dict :=
  [(lit "item_name", JStr (lit name)); (lit "quantity", quantity)].

Definition example_order (l : list dict) : call :=
  create_order example_env0 JNull (JStr []) (JInt 1) JNull JNull JNull example_md l.

Definition accepts_first (n : nat) : exn reply :=
  match n with
  | O => Ok (HttpReply 201 (Ok (JObj [(lit "id", JStr (lit "o1"))])))
  | S _ => Ok (HttpReply 500 (Ok JNull))
  end.

(** The first dish is ordered, the second refused: two requests, and the tool reports that the
    order failed. *)
Example partial_order_fails :
  let '(rs, out) := perform accepts_first 0 (example_order [dish "jollof" (JInt 2); dish "suya" JNull]) in
  length rs = 2%nat ∧ out = Ok (refused 500 (lit "Request failed.")).
Proof. by vm_compute. Qed.

(** A quantity in words is an exception, after the first dish was ordered. *)
Example quantity_in_words :
  let '(rs, out) := perform accepts_first 0 (example_order [dish "jollof" (JInt 2); dish "suya" (JStr (lit "two"))]) in
  length rs = 1%nat ∧ out = Raise (ValueError (lit "invalid literal for int()")).
Proof. by vm_compute. Qed.

(** The status of an accepted answer is overwritten: one that reports a failure is a success. *)
Example reported_failure_overwritten :
  perform (λ _, Ok (HttpReply 200 (Ok (JObj [(lit "status", JStr (lit "failed"))])))) 0
    (get_tariff_profile example_env0 (JStr (lit "ada@x")) example_md) =
  ([Http (mkHttp (lit "POST") (lit "http://hotel:8091/v1/tools/tariff-profile")
      (Some [(lit "customer_identifier", JStr (lit "ada@x"))]) [] (_service_headers example_env0 example_md))],
   Ok [(lit "status", JStr (lit "success"))]).
Proof. by vm_compute. Qed.

Lemma tokens_contained_witness :
  ∃ rs out, perform accepts_first 0 (example_order [dish "jollof" (JInt 2)]) = (rs, out) ∧ length rs = 1%nat ∧
    Forall (contained (λ _, true) example_env0 (λ _, None)) rs.
Proof.
  destruct (perform accepts_first 0 (example_order [dish "jollof" (JInt 2)])) as [rs out] eqn:E.
  exists rs, out. split; [reflexivity|]. split.
  - assert (length (perform accepts_first 0 (example_order [dish "jollof" (JInt 2)])).1 = 1%nat) as H by (vm_compute; reflexivity).
    by rewrite E in H.
  - eapply tokens_contained; [|exact E]. apply (t_order _ _ _ example_float).
Defined.

Lemma reported_success_accepted_witness :
  ∃ rs d, perform accepts_first 0 (example_order [dish "jollof" (JInt 2)]) = (rs, Ok d) ∧ is_failed d = false ∧
    ∀ i h, rs !! i = Some (Http h) → accepted (accepts_first i) = true.
Proof.
  assert (match (perform accepts_first 0 (example_order [dish "jollof" (JInt 2)])).2 with
          | Ok d => is_failed d | Raise _ => true end = false) as Hd by (vm_compute; reflexivity).
  destruct (perform accepts_first 0 (example_order [dish "jollof" (JInt 2)])) as [rs [d|e]] eqn:E; [|discriminate Hd].
  exists rs, d. split; [reflexivity|]. split; [exact Hd|].
  eapply reported_success_accepted; [|exact E|exact Hd].
  apply (t_order (λ _, true) _ (λ _, None) example_float).
Defined.
