(* ===== verification/VoiceOutput.v ===== *)
(** * What the telephony agent says: agent/salon_agent.py, llm_node

    The model's stream passes through [llm_node] before it is spoken: a tool call that the
    model wrote as text is held back and, for a tool of the turn, made a call; every other
    text loses the markup that is only for the eye. *)
From stdpp Require Import base list strings.
From Stdlib Require Import ZArith Lia.
From S2P Require Import Prelude Pystr Json JsonText Url.

(** ** sanitize_voice_output_text *)

Definition is_blank (c : Z) : bool := (c =? 32) || (c =? 9).

(** [_MARKDOWN_LINK_PATTERN] after its bracket: the label, and the length of the match. *)
Definition link_at (s : str) : option (str * nat) :=
  match cut_at (Z.eqb 93) s with
  | ((_ :: _) as label, Some (40 :: r)) =>
      match cut_at (Z.eqb 41) r with
      | ((_ :: _) as address, Some _) => Some (label, length label + length address + 3)%nat
      | _ => None
      end
  | _ => None
  end.

(** [re.sub(link, label)]; the first [skip] characters belong to a match. *)
Fixpoint unlink (skip : nat) (s : str) : str :=
  match s with
  | [] => []
  | c :: s =>
      match skip with
      | S skip => unlink skip s
      | O =>
          if c =? 91 then
            match link_at s with
            | Some (label, n) => label ++ unlink n s
            | None => c :: unlink 0 s
            end
          else c :: unlink 0 s
      end
  end.

(** The ranges of [_EMOJI_PATTERN]. *)
Definition is_emoji (c : Z) : bool :=
  ((127462 <=? c) && (c <=? 127487)) || ((127744 <=? c) && (c <=? 129791))
  || ((9728 <=? c) && (c <=? 9983)) || ((9984 <=? c) && (c <=? 10175)) || (c =? 65039) || (c =? 8205).

Definition is_bullet (c : Z) : bool := (c =? 45) || (c =? 43) || (c =? 8226).

(** The leading characters that [p] holds of. *)
Fixpoint count_while (p : Z → bool) (s : str) : nat :=
  match s with c :: s => if p c then S (count_while p s) else O | [] => O end.

(** The length of a heading, a bullet or a number at the start of a line; 0 if there is none. *)
Definition line_mark (s : str) : nat :=
  let b := count_while is_blank s in
  let rest := drop b s in
  let blanks_after n := count_while is_blank (drop n rest) in
  let mark n := match blanks_after n with O => O | m => (b + n + m)%nat end in
  match rest with
  | [] => O
  | c :: _ =>
      if c =? 35 then let n := Nat.min 6 (count_while (Z.eqb 35) rest) in (b + n + blanks_after n)%nat
      else if is_bullet c then mark 1%nat
      else
        let d := count_while is_decimal rest in
        match d, drop d rest with
        | S _, p :: _ => if (p =? 46) || (p =? 41) then mark (S d) else O
        | _, _ => O
        end
  end.

(** [start]: is this the start of a line? *)
Fixpoint unmark (skip : nat) (start : bool) (s : str) : str :=
  match s with
  | [] => []
  | c :: r =>
      match skip with
      | S skip => unmark skip false r
      | O =>
          match (if start then line_mark s else O) with
          | S n => unmark n false r
          | O => c :: unmark 0 (c =? 10) r
          end
      end
  end.

Definition is_markup (c : Z) : bool := (c =? 42) || (c =? 96) || (c =? 35).

(** [re.sub(r"[ \t]{2,}", " ", s)] *)
Fixpoint squeeze (s : str) : str :=
  match s with
  | [] => []
  | c :: r =>
      if is_blank c then
        match r with
        | d :: _ => if is_blank d then match squeeze r with [] => [32] | _ :: q => 32 :: q end else c :: squeeze r
        | [] => [c]
        end
      else c :: squeeze r
  end.

Definition is_stop (c : Z) : bool := existsb (Z.eqb c) (lit ",.;:!?").

(** [re.sub(r"[ \t]+([,.;:!?])", r"\1", s)]: the blanks before a stop. *)
Fixpoint close_up (s : str) : str :=
  match s with
  | [] => []
  | c :: r =>
      if is_blank c && match drop (count_while is_blank r) r with d :: _ => is_stop d | [] => false end
      then close_up r else c :: close_up r
  end.

Definition sanitize_voice_output_text (text : str) : str :=
  let sanitized := unlink 0 text in
  let sanitized := List.filter (λ c, negb (is_emoji c)) sanitized in
  let sanitized := unmark 0 true sanitized in
  let sanitized := List.filter (λ c, negb (is_markup c)) sanitized in
  let sanitized := map (λ c, if (c =? 8226) || (c =? 124) then 32 else c) sanitized in
  close_up (squeeze sanitized).

(** ** Chunks of the model's stream *)

Record tool_call := mkCall { call_name : str; call_arguments : str }.

Record choice_delta := mkDelta { content : option str; tool_calls : list tool_call }.

Record chat_chunk := mkChunk {
  chunk_id : str;
  delta : option choice_delta;
  usage : option json;
}.

Inductive chunk : Type := CText (s : str) | CChat (c : chat_chunk).

Definition _text_from_llm_chunk (c : chunk) : str :=
  match c with
  | CText s => s
  | CChat c => match delta c with Some d => default [] (content d) | None => [] end
  end.

Definition _sanitize_voice_output_chunk (c : chunk) : chunk :=
  match c with
  | CText s => CText (sanitize_voice_output_text s)
  | CChat k =>
      match delta k with
      | Some d =>
          match content d with
          | Some s =>
              CChat (mkChunk (chunk_id k) (Some (mkDelta (Some (sanitize_voice_output_text s)) (tool_calls d))) (usage k))
          | None => c
          end
      | None => c
      end
  end.

(** ** Tool calls written as text *)

Definition _TEXTUAL_FUNCTION_MARKER : str := lit "<function>".

(** [str.lstrip().lower()] *)
Definition lowered (text : str) : str := py_lower (lstrip_by is_space text).

Definition _is_possible_textual_function_prefix (text : str) : bool :=
  let candidate := lowered text in
  starts_with candidate _TEXTUAL_FUNCTION_MARKER || starts_with _TEXTUAL_FUNCTION_MARKER candidate.

(** Where case is ignored, four more characters are letters. *)
Definition name_start (c : Z) : bool := is_alpha c || (c =? 95) || existsb (Z.eqb c) [304; 305; 383; 8490].
Definition name_char (c : Z) : bool := name_start c || ((48 <=? c) && (c <=? 57)).

(** [re.IGNORECASE] lets the dotless and the dotted i stand for the letter of the tag. *)
Definition same_letter (p c : Z) : bool :=
  (c =? p) || ((97 <=? p) && (p <=? 122) && (c =? p - 32)) || ((p =? 105) && ((c =? 304) || (c =? 305))).

Fixpoint after_tag (tag s : str) : option str :=
  match tag, s with
  | [], _ => Some s
  | p :: tag, c :: s => if same_letter p c then after_tag tag s else None
  | _, [] => None
  end.

(** [_TEXTUAL_FUNCTION_CALL_PATTERN.fullmatch]: the name, and the text from the first brace to
    the last one. *)
Definition match_textual_call (text : str) : option (str * str) :=
  match after_tag (lit "<function>") (strip_by is_space text) with
  | None => None
  | Some r =>
      match after_tag (List.rev (lit "</function>")) (List.rev r) with
      | None => None
      | Some r' =>
          let body := strip_by is_space (List.rev r') in
          let n := count_while name_char body in
          let arguments := lstrip_by is_space (drop n body) in
          match body, arguments with
          | c :: _, 123 :: _ =>
              if name_start c && (2 <=? slen arguments) && (last_n 1 arguments =s [125])
              then Some (take n body, arguments) else None
          | _, _ => None
          end
      end
  end.

(** [json.dumps(v, ensure_ascii=False, separators=(",", ":"))] *)
Fixpoint dumps_tight (v : json) : str :=
  match v with
  | JArr l => lit "[" ++ py_join (lit ",") (map dumps_tight l) ++ lit "]"
  | JObj kvs => lit "{" ++ py_join (lit ",") (map (λ kv, json_quote kv.1 ++ lit ":" ++ dumps_tight kv.2) kvs) ++ lit "}"
  | v => dumps v
  end.

Definition parse_textual_function_call (text : str) (allowed_tool_names : list str) : option (str * str) :=
  match match_textual_call text with
  | None => None
  | Some (name, raw) =>
      let name := py_strip name in
      if negb (in_strs name allowed_tool_names) then None
      else match loads raw with
           | Ok (JObj d) => Some (name, dumps_tight (JObj d))
           | _ => None
           end
  end.

(** ** llm_node *)

Record probe := mkProbe {
  pending : list chunk;
  buffered_text : str;
  probing : bool;
  last_chunk_id : str;
}.

Definition probe_init : probe := mkProbe [] [] true [].

Definition id_of (c : chunk) : str := match c with CChat c => chunk_id c | CText _ => [] end.

(** A call that the model made as such. *)
Definition is_structured (c : chunk) : bool :=
  match c with
  | CChat k => match delta k with Some (mkDelta _ (_ :: _)) => true | _ => false end
  | CText _ => false
  end.

(** One turn of the loop, and what it yields. *)
Definition probe_step (p : probe) (c : chunk) : probe * list chunk :=
  let last := match id_of c with [] => last_chunk_id p | i => i end in
  if is_structured c then (mkProbe [] (buffered_text p) false last, [c])
  else if negb (probing p) then (mkProbe (pending p) (buffered_text p) false last, [_sanitize_voice_output_chunk c])
  else
    let held := pending p ++ [c] in
    let text := buffered_text p ++ _text_from_llm_chunk c in
    if _is_possible_textual_function_prefix text then (mkProbe held text true last, [])
    else (mkProbe [] text false last, map _sanitize_voice_output_chunk held).

Fixpoint probe_all (p : probe) (cs : list chunk) : probe * list chunk :=
  match cs with
  | [] => (p, [])
  | c :: cs => let '(p, out) := probe_step p c in let '(p, rest) := probe_all p cs in (p, out ++ rest)
  end.

Definition apology (language : str) : str :=
  if py_lower language =s lit "fr"
  then lit "Je suis désolée, je n’ai pas pu terminer cette action. Pourriez-vous réessayer ?"
  else lit "I'm sorry, I couldn't complete that action. Could you try again?".

Definition usage_only (c : chunk) : option chunk :=
  match c with
  | CChat k => match usage k with Some u => Some (CChat (mkChunk (chunk_id k) None (Some u))) | None => None end
  | CText _ => None
  end.

(** After the loop; [fresh_id] is the name of a chunk without one. *)
Definition probe_end (names : list str) (language fresh_id : str) (p : probe) : list chunk :=
  if negb (probing p) then []
  else
    match parse_textual_function_call (buffered_text p) names with
    | Some (name, arguments) =>
        CChat (mkChunk (match last_chunk_id p with [] => fresh_id | i => i end)
          (Some (mkDelta None [mkCall name arguments])) None) :: omap usage_only (pending p)
    | None =>
        if starts_with _TEXTUAL_FUNCTION_MARKER (lowered (buffered_text p)) then [CText (apology language)]
        else map _sanitize_voice_output_chunk (pending p)
    end.

(** [tools] are the names of the turn's tools. *)
Definition llm_node (tools : list str) (language fresh_id : str) (cs : list chunk) : list chunk :=
  let '(p, out) := probe_all probe_init cs in
  out ++ probe_end (List.filter (λ n, negb (n =s [])) tools) language fresh_id p.

(** ** What is said is clean *)

(** No two adjacent characters that [bad] holds of. *)
Fixpoint no_pair (bad : Z → Z → bool) (s : str) : bool :=
  match s with
  | [] => true
  | c :: r => match r with d :: _ => negb (bad c d) | [] => true end && no_pair bad r
  end.

Definition two_blanks (c d : Z) : bool := is_blank c && is_blank d.
Definition blank_stop (c d : Z) : bool := is_blank c && is_stop d.

Lemma unmark_elem c skip start s : c ∈ unmark skip start s → c ∈ s.
Proof.
  revert skip start. induction s as [|d r IH]; intros skip start; simpl; [done|].
  destruct skip; [|intros H; right; by eapply IH].
  destruct (if start then line_mark (d :: r) else O); [|intros H; right; by eapply IH].
  intros [->|H]%elem_of_cons; [by left|right; by eapply IH].
Qed.

Lemma squeeze_head s :
  match squeeze s with
  | [] => s = []
  | c :: _ => ∃ d r, s = d :: r ∧ is_blank c = is_blank d ∧ (is_blank c = false → c = d)
  end.
Proof.
  destruct s as [|c [|d r]]; simpl; [done| |].
  - destruct (is_blank c) eqn:E; exists c, []; by rewrite E.
  - destruct (is_blank c) eqn:E; [|exists c, (d :: r); by rewrite E].
    destruct (is_blank d) eqn:Ed; [|exists c, (d :: r); by rewrite E].
    destruct (match r with [] => _ | _ => _ end) as [|x q]; exists c, (d :: r); by rewrite E.
Qed.

Lemma squeeze_elem c s : c ∈ squeeze s → c ∈ s ∨ c = 32.
Proof.
  induction s as [|d r IH]; simpl; [by intros ?%not_elem_of_nil|].
  assert (∀ x, c ∈ x :: squeeze r → x = d → c ∈ d :: r ∨ c = 32) as Hkeep.
  { intros x [->|H]%elem_of_cons ->; [left; by left|]. destruct (IH H); [left; by right|by right]. }
  destruct (is_blank d); [|intros H; by eapply Hkeep]. destruct r as [|e r]; [intros H; by left|].
  destruct (is_blank e); [|intros H; by eapply Hkeep].
  destruct (squeeze (e :: r)) as [|x q] eqn:E; [intros H%list_elem_of_singleton; by right|].
  intros [->|H]%elem_of_cons; [by right|]. destruct IH as [|]; [by right|left; by right|by right].
Qed.

Lemma squeeze_no_blanks s : no_pair two_blanks (squeeze s) = true.
Proof.
  induction s as [|c r IH]; simpl; [done|].
  assert (∀ x, (∀ d r', r = d :: r' → two_blanks x d = false) → no_pair two_blanks (x :: squeeze r) = true) as Hcons.
  { intros x Hx. simpl. rewrite IH, andb_true_r. pose proof (squeeze_head r) as Hh.
    destruct (squeeze r) as [|y q]; [done|]. destruct Hh as (d & r' & -> & Hb & _).
    specialize (Hx d r' eq_refl). unfold two_blanks in *. by rewrite Hb, Hx. }
  destruct (is_blank c) eqn:Ec; [|apply Hcons; intros d r' _; unfold two_blanks; by rewrite Ec].
  destruct r as [|d r']; [done|]. destruct (is_blank d) eqn:Ed.
  - pose proof (squeeze_head (d :: r')) as Hh. destruct (squeeze (d :: r')) as [|y q] eqn:Eq; [done|].
    destruct Hh as (d' & r'' & [= <- <-] & Hb & _). rewrite Ed in Hb. simpl in IH |- *.
    apply andb_prop in IH as [Hy Hq]. rewrite Hq, andb_true_r. destruct q as [|z q]; [done|].
    unfold two_blanks in *. by rewrite Hb in Hy.
  - apply Hcons. intros d' r'' [= <- <-]. unfold two_blanks. by rewrite Ed, andb_false_r.
Qed.

Lemma close_up_elem c s : c ∈ close_up s → c ∈ s.
Proof.
  induction s as [|d r IH]; simpl; [done|]. destruct (_ && _); [intros H; right; by apply IH|].
  intros [->|H]%elem_of_cons; [by left|right; by apply IH].
Qed.

Lemma close_up_spaced s :
  no_pair two_blanks s = true → no_pair (λ c d, two_blanks c d || blank_stop c d) (close_up s) = true.
Proof.
  induction s as [|c r IH]; intros Hs; simpl; [done|]. simpl in Hs. apply andb_prop in Hs as [Hc Hr].
  specialize (IH Hr). destruct (is_blank c) eqn:Ec; simpl.
  - destruct r as [|d r']; [done|]. unfold two_blanks in Hc. rewrite Ec in Hc. simpl in Hc. apply negb_true_iff in Hc.
    cbn [count_while]. rewrite Hc. cbn [drop]. destruct (is_stop d) eqn:Ed; [done|].
    simpl. simpl in IH. rewrite Hc in IH |- *. simpl in IH |- *. rewrite IH. unfold two_blanks, blank_stop.
    by rewrite Hc, Ed, !andb_false_r.
  - rewrite IH, andb_true_r. destruct (close_up r); [done|]. unfold two_blanks, blank_stop. by rewrite Ec.
Qed.

Lemma no_pair_or f g s : no_pair (λ c d, f c d || g c d) s = true → no_pair f s = true ∧ no_pair g s = true.
Proof.
  induction s as [|c r IH]; simpl; [done|]. intros [Hc Hr]%andb_prop. destruct (IH Hr) as [-> ->].
  rewrite !andb_true_r. destruct r; [done|]. by apply negb_true_iff, orb_false_iff in Hc as [-> ->].
Qed.

(** The spoken text has none of the marks of emphasis, code, headings, bullets and tables and
    no emoji, no two blanks next to each other and none before a stop. *)
Theorem spoken_text_clean text :
  let s := sanitize_voice_output_text text in
  (∀ c, c ∈ s → is_markup c = false ∧ is_emoji c = false ∧ c ≠ 8226 ∧ c ≠ 124) ∧
  no_pair two_blanks s = true ∧ no_pair blank_stop s = true.
Proof.
  cbv zeta. unfold sanitize_voice_output_text. split.
  - intros c Hc%close_up_elem%squeeze_elem. destruct Hc as [Hc| ->]; [|by vm_compute].
    apply list_elem_of_fmap in Hc as (d & -> & Hd). rewrite list_elem_of_In, filter_In, <-list_elem_of_In in Hd.
    destruct Hd as [Hd Hm%negb_true_iff]. apply unmark_elem in Hd.
    rewrite list_elem_of_In, filter_In in Hd. destruct Hd as [_ He%negb_true_iff].
    destruct ((d =? 8226) || (d =? 124)) eqn:E; [by vm_compute|].
    apply orb_false_iff in E as [E1%Z.eqb_neq E2%Z.eqb_neq]. done.
  - apply (no_pair_or two_blanks blank_stop), close_up_spaced, squeeze_no_blanks.
Qed.

(** ** Reading the whole answer at once *)

(** What [llm_node] does, of the whole answer: no matter how the text came in pieces. *)
Definition pass (c : chunk) : chunk := if is_structured c then c else _sanitize_voice_output_chunk c.

Definition text_of (cs : list chunk) : str := concat (map _text_from_llm_chunk cs).

Definition last_id (cs : list chunk) : str :=
  fold_left (λ l c, match id_of c with [] => l | i => i end) cs [].

Fixpoint before_call (cs : list chunk) : list chunk * list chunk :=
  match cs with
  | [] => ([], [])
  | c :: r => if is_structured c then ([], cs) else let '(pre, rest) := before_call r in (c :: pre, rest)
  end.

Definition whole_answer (tools : list str) (language fresh_id : str) (cs : list chunk) : list chunk :=
  let '(pre, rest) := before_call cs in
  match rest with
  | _ :: _ => (if _is_possible_textual_function_prefix (text_of pre) then [] else map pass pre) ++ map pass rest
  | [] =>
      if starts_with _TEXTUAL_FUNCTION_MARKER (lowered (text_of pre)) then
        match parse_textual_function_call (text_of pre) (List.filter (λ n, negb (n =s [])) tools) with
        | Some (name, arguments) =>
            CChat (mkChunk (match last_id pre with [] => fresh_id | i => i end)
              (Some (mkDelta None [mkCall name arguments])) None) :: omap usage_only pre
        | None => [CText (apology language)]
        end
      else map pass pre
  end.

Lemma lstrip_app p (a b : str) : lstrip_by p a ≠ [] → lstrip_by p (a ++ b) = lstrip_by p a ++ b.
Proof. induction a as [|c a IH]; simpl; [done|]. by destruct (p c). Qed.

(** What cannot become a call, cannot whatever follows. *)
Lemma impossible_app a b :
  _is_possible_textual_function_prefix a = false →
  _is_possible_textual_function_prefix (a ++ b) = false.
Proof.
  unfold _is_possible_textual_function_prefix, lowered. intros [H1 H2]%orb_false_iff.
  assert (lstrip_by is_space a ≠ []) as Hne by (intros E; rewrite E in H1; discriminate).
  rewrite lstrip_app by done. unfold py_lower in *. rewrite bind_app.
  rewrite <-not_true_iff_false, starts_with_true in H1, H2.
  apply orb_false_iff. rewrite <-!not_true_iff_false, !starts_with_true. split; intros H.
  - apply H1. etrans; [|exact H]. by eexists.
  - destruct (prefix_weak_total _ _ _ H (ex_intro _ _ eq_refl : (lstrip_by is_space a ≫= lower_char) `prefix_of` _)); auto.
Qed.

Lemma text_of_app a b : text_of (a ++ b) = text_of a ++ text_of b.
Proof. unfold text_of. by rewrite map_app, concat_app. Qed.

Lemma last_id_app a c : last_id (a ++ [c]) = match id_of c with [] => last_id a | i => i end.
Proof. unfold last_id. by rewrite fold_left_app. Qed.

Lemma probe_all_app p a b :
  probe_all p (a ++ b) = let '(p1, o1) := probe_all p a in let '(p2, o2) := probe_all p1 b in (p2, o1 ++ o2).
Proof.
  revert p. induction a as [|c a IH]; intros p; simpl; [by destruct (probe_all p b)|].
  destruct (probe_step p c) as [p' o]. rewrite IH. destruct (probe_all p' a) as [p1 o1].
  destruct (probe_all p1 b). by rewrite app_assoc.
Qed.

Lemma probe_open p cs :
  probing p = false → probing (probe_all p cs).1 = false ∧ (probe_all p cs).2 = map pass cs.
Proof.
  revert p. induction cs as [|c cs IH]; intros p Hp; simpl; [done|].
  destruct (probe_step p c) as [p' o] eqn:E.
  assert (probing p' = false ∧ o = [pass c]) as [Hp' ->].
  { unfold probe_step, pass in *. rewrite Hp in E. destruct (is_structured c); by injection E as <- <-. }
  destruct (IH _ Hp') as [IH1 IH2]. destruct (probe_all p' cs). simpl in *. by rewrite IH1, IH2.
Qed.

Definition held (pre : list chunk) : probe := mkProbe pre (text_of pre) true (last_id pre).

Lemma probe_held pre cs :
  Forall (λ c, is_structured c = false) (pre ++ cs) →
  _is_possible_textual_function_prefix (text_of pre) = true →
  let '(p, out) := probe_all (held pre) cs in
  if _is_possible_textual_function_prefix (text_of (pre ++ cs)) then p = held (pre ++ cs) ∧ out = []
  else probing p = false ∧ out = map pass (pre ++ cs).
Proof.
  revert pre. induction cs as [|c cs IH]; intros pre Hs Hp; simpl; [rewrite app_nil_r; by rewrite Hp|].
  assert (is_structured c = false) as Hc by (apply Forall_app in Hs as [_ Hs]; by inversion Hs).
  replace (pre ++ c :: cs) with ((pre ++ [c]) ++ cs) in * by (by rewrite <-app_assoc).
  unfold probe_step. rewrite Hc. simpl.
  replace (text_of pre ++ _text_from_llm_chunk c) with (text_of (pre ++ [c]))
    by (rewrite text_of_app; unfold text_of; simpl; by rewrite app_nil_r).
  destruct (_is_possible_textual_function_prefix (text_of (pre ++ [c]))) eqn:E.
  - specialize (IH (pre ++ [c]) Hs E). unfold held in IH at 1. rewrite last_id_app in IH.
    by destruct (probe_all _ cs).
  - rewrite (text_of_app (pre ++ [c])), impossible_app by done.
    set (q := mkProbe [] _ false _). destruct (probe_open q cs eq_refl) as [H1 H2]. destruct (probe_all q cs) as [p o].
    simpl in *. split; [done|]. rewrite (map_app _ (pre ++ [c])), H2. f_equal.
    apply map_ext_Forall. apply Forall_app in Hs as [Hs _]. eapply Forall_impl; [exact Hs|]. unfold pass. by intros ? ->.
Qed.

Lemma before_call_spec cs :
  let '(pre, rest) := before_call cs in
  cs = pre ++ rest ∧ Forall (λ c, is_structured c = false) pre ∧
  match rest with [] => True | c :: _ => is_structured c = true end.
Proof.
  induction cs as [|c r IH]; simpl; [done|]. destruct (is_structured c) eqn:E; [done|].
  destruct (before_call r) as [pre rest]. destruct IH as (-> & ? & ?). split; [done|]. split; [by constructor|done].
Qed.

(** A tag takes as many characters as it has. *)
Lemma after_tag_length tag s r : after_tag tag s = Some r → length s = (length tag + length r)%nat.
Proof.
  revert s. induction tag as [|p tag IH]; intros s; simpl; [by intros [= ->]|].
  destruct s as [|c s]; [done|]. destruct (same_letter p c); [|done]. intros H%IH. simpl. lia.
Qed.

Lemma lower_length s : (length s ≤ length (py_lower s))%nat.
Proof.
  unfold py_lower. induction s as [|c s IH]; [done|]. rewrite bind_cons, length_app. simpl.
  assert (0 < length (lower_char c))%nat; [|lia]. unfold lower_char. destruct (c =? 304); [simpl; lia|].
  destruct (List.find (A := Z * Z * Z * Z) _ _) as [[[[? ?] ?] ?]|]; simpl; lia.
Qed.

(** A start of the marker is not a call. *)
Lemma short_no_call text names :
  (length (lowered text) ≤ 10)%nat → parse_textual_function_call text names = None.
Proof.
  intros Hl. pose proof (lower_length (lstrip_by is_space text)) as H. unfold lowered in Hl.
  destruct (rstrip_prefix is_space (lstrip_by is_space text)) as (k & Hk & _).
  assert (length (lstrip_by is_space text) = length (strip_by is_space text) + length k)%nat as Hn
    by (rewrite Hk at 1; apply length_app).
  unfold parse_textual_function_call, match_textual_call.
  destruct (after_tag (lit "<function>") _) as [r|] eqn:E1; [|done].
  destruct (after_tag (List.rev _) _) as [r'|] eqn:E2; [|done].
  apply after_tag_length in E1, E2. rewrite length_rev in E2. simpl in E1, E2. lia.
Qed.

(** C27: The agent decides as if it read the whole answer before it spoke, however the model cuts it
    into chunks: an answer that begins with the marker is never voiced but is one call of a tool
    of the turn, or an apology; text that a call of its own follows is voiced only if it could
    not be such a marker; everything else is voiced in order, without its markup. *)
Theorem llm_node_whole tools language fresh_id cs :
  llm_node tools language fresh_id cs = whole_answer tools language fresh_id cs.
Proof.
  unfold llm_node, whole_answer. pose proof (before_call_spec cs) as H.
  destruct (before_call cs) as [pre rest]. destruct H as (-> & Hpre & Hrest).
  rewrite probe_all_app. change probe_init with (held []).
  pose proof (probe_held [] pre Hpre eq_refl) as H. rewrite app_nil_l in H.
  destruct (probe_all (held []) pre) as [p o]. destruct rest as [|c rest].
  - cbn [probe_all]. rewrite app_nil_r. destruct (_is_possible_textual_function_prefix (text_of pre)) eqn:E.
    + destruct H as [-> ->]. unfold probe_end, held. cbn [probing buffered_text pending last_chunk_id negb app].
      destruct (starts_with _TEXTUAL_FUNCTION_MARKER _) eqn:Em; [done|]. rewrite short_no_call.
      { apply map_ext_Forall. eapply Forall_impl; [exact Hpre|]. unfold pass. by intros ? ->. }
      unfold _is_possible_textual_function_prefix in E. rewrite Em, orb_false_r in E.
      apply starts_with_true, prefix_length in E. exact E.
    + destruct H as [Hp ->]. unfold probe_end. rewrite Hp, app_nil_r.
      by apply orb_false_iff in E as [_ ->].
  - simpl. unfold probe_step. rewrite Hrest. unfold pass at 2. rewrite Hrest.
    set (q := mkProbe [] _ false _). destruct (probe_open q rest eq_refl) as [H1 H2].
    destruct (probe_all q rest) as [p' o']. simpl in *. unfold probe_end. rewrite H1, H2. simpl. rewrite app_nil_r.
    f_equal. destruct (_is_possible_textual_function_prefix (text_of pre)); by destruct H.
Qed.

(** ** Examples *)

Definition say (s : String.string) : chunk := CText (lit s).

(** A call that the model wrote as text, in pieces. *)
Example textual_call :
  llm_node [lit "create_ticket"] (lit "en") (lit "id")
    (map say ["  <func"; "tion>create_ticket {"; " } </FUNCTION>"])%string =
  [CChat (mkChunk (lit "id") (Some (mkDelta None [mkCall (lit "create_ticket") (lit "{}")])) None)].
Proof. by vm_compute. Qed.

Example foreign_call :
  llm_node [lit "create_ticket"] (lit "FR") (lit "id") [say "<function>block_card{}</function>"] =
  [CText (apology (lit "fr"))].
Proof. by vm_compute. Qed.

(** The markup is taken out of each chunk by itself: a link that comes in two is voiced. *)
Example split_link_voiced :
  map sanitize_voice_output_text [lit "See [our menu](https://x.ng/m)."] = [lit "See our menu."] ∧
  llm_node [] [] [] (map say ["See [our menu]"; "(https://x.ng/m)."])%string =
    map say ["See [our menu]"; "(https://x.ng/m)."]%string.
Proof. by vm_compute. Qed.

(** And a chunk is taken for a line: a number that begins one, in the middle of a sentence, is
    taken for a list's. *)
Example chunk_number_lost :
  llm_node [] [] [] (map say ["Your order is number "; "12. Thank you."])%string =
    map say ["Your order is number "; "Thank you."]%string.
Proof. by vm_compute. Qed.

(** What comes in one chunk with a structured call is voiced as it is. *)
Example call_text_unsanitised :
  let c := CChat (mkChunk (lit "a") (Some (mkDelta (Some (lit "**Done**")) [mkCall (lit "f") (lit "{}")])) None) in
  llm_node [] [] [] [c] = [c].
Proof. by vm_compute. Qed.
