(* ===== verification/ConversationApi.v ===== *)
(** * The conversation service: agent/conversation_service_api.py

    Every operation is one request, with the trees of OpsApi.v; a transport failure is the
    caller's. *)
From stdpp Require Import base list strings.
From Stdlib Require Import ZArith Lia.
From S2P Require Import Prelude Pystr Json Url CallIdentity OpsApi.

Section conversation_api.
(** The environment when the module was loaded. *)
Context (env0 : environ).

Definition BASE_URL : str := py_rstrip_char 47 (getenv env0 (lit "CONVERSATION_API_BASE_URL") []).
Definition SERVICE_TOKEN : str := getenv env0 (lit "CONVERSATION_SERVICE_TOKEN") [].
Definition BUSINESS_ID : str := getenv env0 (lit "CONVERSATION_BUSINESS_ID") [].

Definition _normalize_business_id (value : str) : str :=
  match py_strip value with
  | [] => []
  | raw => default [] (parse_uuid raw)
  end.

(** [_normalize_business_id(business_id) or _normalize_business_id(BUSINESS_ID)] *)
Definition business_scope (business_id : str) : str :=
  match _normalize_business_id business_id with [] => _normalize_business_id BUSINESS_ID | b => b end.

Definition is_enabled (business_id : str) : bool :=
  negb (is_nil BASE_URL) && negb (is_nil SERVICE_TOKEN) && negb (is_nil (business_scope business_id)).

Definition _headers (business_id : str) : list (str * str) :=
  [(lit "Content-Type", lit "application/json"); (TOKEN, SERVICE_TOKEN);
   (lit "X-Service-Name", lit "sales-girl-voice-agent"); (BUSINESS, business_scope business_id)].

(** [headers.update] with the values that are not blank. *)
Definition with_headers (extra : list (str * json)) (hs : list (str * str)) : list (str * str) :=
  fold_left (λ hs '(k, v), if is_nil (str_strip v) then hs else dset k (py_str v) hs) extra hs.

Definition read_answer (code : Z) (payload : json) : dict :=
  if 400 <=? code then
    [(lit "status", JStr (lit "failed")); (lit "http_status", JInt code);
     (lit "detail", match payload with JObj d => d.[lit "detail"] | _ => JStr (lit "request failed") end)]
  else match payload with
       | JObj d => dset (lit "status") (jor d.[lit "status"] (JStr (lit "success"))) d
       | _ => [(lit "status", JStr (lit "failed")); (lit "detail", JStr (lit "invalid payload"))]
       end.

Definition disabled : dict := [(lit "status", JStr (lit "disabled"))].

Definition service_request (method path : str) (body : option dict) (params : dict) (business_id : str)
    (extra : list (str * json)) : call :=
  if negb (is_enabled business_id) then Return disabled
  else
    Send (Http (mkHttp method (BASE_URL ++ path) body params (with_headers extra (_headers business_id)))) (λ a,
      match a with
      | Ok (HttpReply code (Ok payload)) => Return (read_answer code payload)
      | Ok (HttpReply code (Raise (ValueError _))) => Return (read_answer code (JObj []))
      | Ok (HttpReply _ (Raise e)) | Raise e => Fail e
      | Ok _ => Fail OtherError
      end).

Definition post (path : str) (body : dict) (business_id : str) : call :=
  service_request (lit "POST") path (Some body) [] business_id [].

(** ** The operations *)

Definition resolve_conversation (agent_id external_id external_name channel : json) (business_id : str) : call :=
  post (lit "/v1/conversations/resolve")
    [(lit "agent_id", agent_id); (lit "external_id", external_id);
     (lit "external_name", if truthy external_name then or_none (str_strip external_name) else JNull);
     (lit "channel", channel)] business_id.

Definition fetch_context (conversation_id : str) (limit session_id : json) (business_id : str) : call :=
  let session := str_strip session_id in
  service_request (lit "GET") (lit "/v1/conversations/" ++ conversation_id ++ lit "/context") None
    ((lit "limit", limit) :: if is_nil session then [] else [(lit "session_id", JStr session)]) business_id [].

Definition append_message (conversation_id : str) (role content session_id idempotency_key metadata : json)
    (business_id : str) : call :=
  post (lit "/v1/conversations/" ++ conversation_id ++ lit "/messages")
    [(lit "role", role); (lit "content", content); (lit "session_id", session_id);
     (lit "idempotency_key", idempotency_key); (lit "metadata", metadata)] business_id.

Definition start_session (conversation_id client_session_id channel : json) (business_id : str) : call :=
  post (lit "/v1/conversations/sessions/start")
    [(lit "conversation_id", conversation_id); (lit "channel", channel);
     (lit "client_session_id", client_session_id)] business_id.

Definition end_session (session_id duration_seconds : json) (business_id : str) : call :=
  trying (py_int duration_seconds) (λ n,
    post (lit "/v1/conversations/sessions/end")
      [(lit "session_id", session_id); (lit "duration_seconds", JInt (Z.max 0 n))] business_id).

Definition create_session_event (session_id : str) (event_type role title body payload : json) (business_id : str) : call :=
  post (lit "/v1/conversations/sessions/" ++ session_id ++ lit "/events")
    [(lit "event_type", event_type); (lit "role", role); (lit "title", title); (lit "body", body);
     (lit "payload", payload)] business_id.

Definition update_session_recording (session_id : str) (recording_status recording_url recording_duration_seconds : json)
    (business_id : str) : call :=
  post (lit "/v1/conversations/sessions/" ++ session_id ++ lit "/recording")
    [(lit "recording_status", recording_status); (lit "recording_url", recording_url);
     (lit "recording_duration_seconds", recording_duration_seconds)] business_id.

Definition update_session_analysis (session_id : str) (analysis_status summary primary_intent intent_confidence
    sentiment resolution_status : json) (business_id : str) : call :=
  post (lit "/v1/conversations/sessions/" ++ session_id ++ lit "/analysis")
    [(lit "analysis_status", analysis_status); (lit "summary", summary); (lit "primary_intent", primary_intent);
     (lit "intent_confidence", intent_confidence); (lit "sentiment", sentiment);
     (lit "resolution_status", resolution_status)] business_id.

(** What the service keeps of a caller's request. *)
Record caller_record := mkRecord {
  theme : json; sub_theme : json; request_summary : json; treatment : json; treatment_comment : json;
  record_status : json; consular_registration_number : json; order_date : json; order_number : json;
  transferred_to_human : json;
}.

Definition record_body (r : caller_record) : dict :=
  [(lit "theme", theme r); (lit "sub_theme", sub_theme r); (lit "request_summary", request_summary r);
   (lit "treatment", treatment r); (lit "treatment_comment", treatment_comment r); (lit "status", record_status r);
   (lit "consular_registration_number", consular_registration_number r); (lit "order_date", order_date r);
   (lit "order_number", order_number r); (lit "transferred_to_human", transferred_to_human r)].

Definition create_caller_record (first_name last_name phone_number email : json) (r : caller_record)
    (session_ref agent_id conversation_ref end_user_ref : json) (business_id : str) : call :=
  service_request (lit "POST") (lit "/v1/tools/caller-records")
    (Some ([(lit "first_name", first_name); (lit "last_name", last_name); (lit "phone_number", phone_number);
            (lit "email", email)] ++ record_body r)) [] business_id
    [(lit "X-Agent-Id", agent_id); (lit "X-Conversation-Id", conversation_ref); (lit "X-Session-Id", session_ref);
     (lit "X-End-User-Id", end_user_ref)].

Definition finalize_caller_record (session_ref : json) (r : caller_record) (business_id : str) : call :=
  post (lit "/v1/tools/caller-records/finalize") ((lit "session_ref", session_ref) :: record_body r) business_id.

Inductive operation (b : str) : call → Prop :=
| o_resolve a i n ch : operation b (resolve_conversation a i n ch b)
| o_context i l s : operation b (fetch_context i l s b)
| o_message i r t s k md : operation b (append_message i r t s k md b)
| o_start i s ch : operation b (start_session i s ch b)
| o_end s n z : py_int n = Ok z → operation b (end_session s n b)
| o_event s e r t bd p : operation b (create_session_event s e r t bd p b)
| o_recording s st u n : operation b (update_session_recording s st u n b)
| o_analysis s st sm i c se r : operation b (update_session_analysis s st sm i c se r b)
| o_record f l ph e r s a c u : operation b (create_caller_record f l ph e r s a c u b)
| o_finalize s r : operation b (finalize_caller_record s r b).

(** ** What is sent *)

(** A business as the service knows it. *)
Definition canonical (b : str) : Prop := ∃ n, 0 ≤ n < 2 ^ 128 ∧ b = uuid_text n.

Lemma normalized_canonical v : _normalize_business_id v ≠ [] → canonical (_normalize_business_id v).
Proof.
  unfold _normalize_business_id. destruct (py_strip v) as [|c r]; [done|]. unfold parse_uuid.
  destruct (slen _ =? 32); [|done]. destruct (int16 _) as [n|]; [|done].
  destruct ((0 <=? n) && (n <? 2 ^ 128)) eqn:E; [|done]. intros _. exists n. split; [lia|done].
Qed.

Lemma scope_canonical b : business_scope b ≠ [] → canonical (business_scope b).
Proof.
  unfold business_scope. pose proof (normalized_canonical b) as H.
  destruct (_normalize_business_id b); [apply normalized_canonical|auto].
Qed.

Lemma with_headers_get k extra hs :
  Forall (λ e, e.1 ≠ k) extra → dget k (with_headers extra hs) = dget k hs.
Proof.
  unfold with_headers. revert hs. induction extra as [|[k' v] extra IH]; intros hs Hk; simpl; [done|].
  inversion Hk as [|? ? H1 H2]; subst. rewrite IH by done. destruct (is_nil _); [done|].
  apply dget_dset_ne. simpl in H1. congruence.
Qed.

(** The answer of a request to the service: nothing is sent, or one request of its business. *)
Definition settles (b : str) (answer : nat → exn reply) (rs : list request) (out : exn dict) : Prop :=
  if is_enabled b then
    ∃ h path, rs = [Http h] ∧ url h = BASE_URL ++ lit "/v1/" ++ path
      ∧ dget TOKEN (headers h) = Some SERVICE_TOKEN
      ∧ (∃ business, dget BUSINESS (headers h) = Some business ∧ canonical business)
      ∧ (∀ d, out = Ok d → jeq_str d.[lit "status"] (lit "failed") = false → accepted (answer O) = true)
  else rs = [] ∧ out = Ok disabled.

Lemma request_settles method path body params b extra answer rs out :
  starts_with (lit "/v1/") path = true →
  Forall (λ e, e.1 ≠ TOKEN) extra → Forall (λ e, e.1 ≠ BUSINESS) extra →
  perform answer 0 (service_request method path body params b extra) = (rs, out) →
  settles b answer rs out.
Proof.
  intros [rest ->]%starts_with_true Ht Hb. unfold service_request, settles. destruct (is_enabled b) eqn:E; cbn [negb];
    [|by intros [= <- <-]].
  cbn [perform]. intros Hp. destruct (perform answer 1 _) as [rs' out'] eqn:Hr. injection Hp as <- <-.
  assert (rs' = [] ∧ (∀ d, out' = Ok d → jeq_str d.[lit "status"] (lit "failed") = false → accepted (answer O) = true))
    as [-> Hout].
  { assert (∀ code payload, perform answer 1 (Return (read_answer code payload)) = (rs', out') →
      rs' = [] ∧ (∀ d, out' = Ok d → jeq_str d.[lit "status"] (lit "failed") = false → (code <? 400) = true)) as Hread.
    { intros code payload [= <- <-]. split; [done|]. intros d [= <-] Hd. unfold read_answer in Hd.
      destruct (400 <=? code) eqn:Hc; [discriminate Hd|]. lia. }
    destruct (answer O) as [[code [payload|e]| |]|e]; try (injection Hr as <- <-; by split).
    - by apply Hread in Hr.
    - destruct e; try (injection Hr as <- <-; by split). by apply Hread in Hr. }
  eexists _, rest. split; [reflexivity|]. split; [done|]. cbn [headers]. split; [by rewrite with_headers_get|].
  split; [|exact Hout]. exists (business_scope b). split; [by rewrite with_headers_get|].
  apply scope_canonical. unfold is_enabled in E. apply andb_prop in E as [_ E]. by intros H; rewrite H in E.
Qed.

(** Every operation of the conversation service sends at most one request, and none while the
    service is not configured for a business; the request goes to the configured service below
    [/v1/], with its token and a business that is a canonical UUID, and anything but a failure
    is reported only if the service accepted it. *)
Theorem service_calls_scoped b c answer rs out :
  operation b c → perform answer 0 c = (rs, out) → settles b answer rs out.
Proof.
  intros Ho. destruct Ho as [| | | |s n z Hz| | | | |]; try (apply request_settles; by vm_compute).
  - unfold end_session, trying. rewrite Hz. apply request_settles; by vm_compute.
  - apply request_settles; [by vm_compute|..]; repeat (constructor; [by vm_compute|]); by constructor.
Qed.
End conversation_api.

(** ** Instances *)

Definition example_env : environ := λ k,
  if k =s lit "CONVERSATION_API_BASE_URL" then Some (lit "https://conv.ng/")
  else if k =s lit "CONVERSATION_SERVICE_TOKEN" then Some (lit "t") else None.

Definition example_business : str := lit "12345678-1234-5678-1234-567812345678".

Definition example_event (business_id : str) : call :=
  create_session_event example_env (lit "s1") (JStr (lit "tool_call")) JNull JNull JNull JNull business_id.

(** A call without a business that the service knows is not sent; the caller is told so by a
    status that is no failure. *)
Example unknown_business_disabled :
  perform (λ _, Raise HttpError) 0 (example_event (lit "acme")) = ([], Ok disabled).
Proof. by vm_compute. Qed.

Lemma service_calls_scoped_witness :
  ∃ rs out, perform (λ _, Ok (HttpReply 201 (Ok (JObj [])))) 0 (example_event example_business) = (rs, out)
    ∧ length rs = 1%nat ∧ settles example_env example_business (λ _, Ok (HttpReply 201 (Ok (JObj [])))) rs out.
Proof.
  assert (length (perform (λ _, Ok (HttpReply 201 (Ok (JObj [])))) 0 (example_event example_business)).1 = 1%nat)
    as Hl by (vm_compute; reflexivity).
  destruct (perform _ 0 (example_event example_business)) as [rs out] eqn:E. exists rs, out.
  split; [reflexivity|]. split; [exact Hl|]. apply (service_calls_scoped example_env example_business (example_event example_business)); [apply o_event|exact E].
Defined.
