(* ===== verification/SalonAgent.v ===== *)
(** * The tools of the telephony agent: agent/salon_agent.py

    Each tool of [SalonAgent] looks at the session, makes the arguments regular and hands them
    to the operation of OpsApi.v of the same name.  Only [create_ticket] writes to the
    session: [recorded] is what it leaves there. *)
From stdpp Require Import base list sets strings.
From Stdlib Require Import ZArith Lia.
From S2P Require Import Prelude Pystr Json Url ToolSchema OpsApi ConversationApi.

(** ** The tools of a configured agent *)

Definition ALWAYS_ENABLED_RUNTIME_TOOLS : list str := [lit "search_business_knowledge"].

(** The names that are not blank, stripped. *)
Definition names_of (l : list json) : list str :=
  List.filter (λ n, negb (is_nil n)) (map str_strip l).

(** [tools] are the names that the tools give themselves. *)
Definition _runtime_tool_name (name : json) : str := str_strip name.

Definition select_enabled_runtime_tools (tools enabled_tool_names : list json) : list json :=
  let enabled := names_of enabled_tool_names ++ ALWAYS_ENABLED_RUNTIME_TOOLS in
  List.filter (λ t, in_strs (_runtime_tool_name t) enabled) tools.

(** ** The session *)

(** What a tool sees of its run: its own data, the session's, and the name of the room. *)
Record run_context := mkCtx {
  userdata : json;
  session_data : json;
  ctx_room : str;
}.

Definition dict_of (v : json) : dict := match v with JObj d => d | _ => [] end.

Definition _session_userdata (ctx : run_context) : dict := dict_of (session_data ctx).

(** [int(d.get(k, default))] *)
Definition int_get (k : String.string) (default_ : Z) (d : dict) : exn Z :=
  match dget (lit k) d with Some v => py_int v | None => Ok default_ end.

Definition text_of (d : dict) (k : String.string) : str * json := (lit k, JStr (str_or_empty d.[lit k])).

Definition _is_tool_enabled (ctx : run_context) (tool_name : str) : bool :=
  let name := py_strip tool_name in
  in_strs name ALWAYS_ENABLED_RUNTIME_TOOLS ||
  match session_data ctx with
  | JObj d => match d.[lit "enabled_tool_names"] with JArr l => in_strs name (names_of l) | _ => true end
  | _ => true
  end.

(** An [int] that is no text, no number: 1. *)
Definition at_least_one (v : json) : exn json :=
  match py_int (jor v (JInt 1)) with
  | Ok n => Ok (JInt (Z.max 1 n))
  | Raise (ValueError _ | TypeError) => Ok (JInt 1)
  | Raise e => Raise e
  end.

Definition clean (args : dict) (k : String.string) : json := or_none (str_strip args.[lit k]).

(** ** A ticket that the session has *)

Definition _recent_ticket_reuse_result (ud : dict) (title customer_identifier : json) : exn (option dict) :=
  match ud.[lit "last_create_ticket_result"] with
  | JObj last_result =>
      do! last_turn := int_get "last_create_ticket_success_turn" (-999) ud in
      do! current_turn := int_get "turn_index" 0 ud in
      let requested := py_lower (str_strip title) in
      Ok (if (1 <? current_turn - last_turn) || is_nil requested
             || negb (requested =s py_lower (str_strip last_result.[lit "title"])) then None
          else
            let hinted := if truthy customer_identifier
                          then dset (lit "customer_identifier_hint") customer_identifier last_result else last_result in
            Some (dset (lit "message") (JStr (lit "A recent ticket already exists for this conversation."))
                   (dset (lit "reused_existing_ticket") (JBool true) (success hinted))))
  | _ => Ok None
  end.

(** What the session keeps of a ticket that was asked for. *)
Definition recorded (ud : dict) (result : dict) : exn dict :=
  if is_failed result then Ok ud
  else
    do! turn := int_get "turn_index" 0 ud in
    Ok (dset (lit "last_create_ticket_result") (JObj result)
         (dset (lit "last_create_ticket_success_turn") (JInt turn) ud)).

(** [try: await c] with what follows, where an exception is only logged. *)
Fixpoint logging (c : call) (k : call) : call :=
  match c with
  | Return _ => k
  | Fail CancelledError => Fail CancelledError
  | Fail _ => k
  | Send r j => Send r (λ a, logging (j a) k)
  end.

Section agent.
(** As in OpsApi.v. *)
Context (netloc_ok : str → bool) (env0 env : environ) (py_float : json → exn json).
Context (ctx : run_context).

Definition _tool_metadata : exn dict :=
  let ud := match userdata ctx with JObj d => d | _ => dict_of (session_data ctx) end in
  let room_name := match str_strip ud.[lit "room_name"] with [] => py_strip (ctx_room ctx) | r => r end in
  let conversation_id := py_str (jor ud.[lit "conversation_id"] (JStr room_name)) in
  let session_id := py_str (jor ud.[lit "session_id"] (JStr conversation_id)) in
  do! bases := py_iter (jor ud.[lit "knowledge_base_ids"] (JArr [])) in
  do! enabled := py_iter (jor ud.[lit "enabled_tool_names"] (JArr [])) in
  do! turn := int_get "turn_index" 0 ud in
  do! event := int_get "timeline_event_index" 0 ud in
  Ok [(lit "client_id", JStr (AGENT_CLIENT_ID env0));
      (lit "agent_id", JStr (py_str (jor (jor ud.[lit "agent_config_id"] ud.[lit "agent_id"]) (JStr (AGENT_NAME env0)))));
      text_of ud "business_id"; text_of ud "business_use_case"; (lit "knowledge_base_ids", JArr bases);
      text_of ud "live_data_endpoint"; (lit "conversation_id", JStr conversation_id);
      (lit "session_id", JStr session_id); text_of ud "end_user_id"; (lit "enabled_tool_names", JArr enabled);
      (lit "turn_index", JInt turn); text_of ud "last_user_transcript"; text_of ud "last_assistant_message";
      (lit "timeline_event_index", JInt event); (lit "room_name", JStr room_name)].

(** [metadata=_tool_metadata(ctx)] *)
Definition with_metadata (k : dict → call) : call := trying _tool_metadata k.

(** Where the agent does not have the tool. *)
Definition gated (tool_name message : String.string) (c : call) : call :=
  if _is_tool_enabled ctx (lit tool_name) then c else Return (failed (lit message)).

(** ** The tools *)

Definition search_business_knowledge (raw_arguments : json) : call :=
  let args := dict_of raw_arguments in
  let query := str_strip args.[lit "query"] in
  if is_nil query then Return (failed (lit "Please provide what you want me to look up."))
  else
    trying (normalize_top_k args.[lit "top_k"] 4 6) (λ top_k,
      with_metadata (OpsApi.search_business_knowledge env0 py_float (JStr query) (JInt top_k))).

Definition lookup_customer_account (who : json) : call := with_metadata (OpsApi.lookup_customer_account env0 who).
Definition get_tariff_profile (who : json) : call := with_metadata (OpsApi.get_tariff_profile env0 who).
Definition get_payment_summary (who : json) : call := with_metadata (OpsApi.get_payment_summary env0 who).
Definition get_vending_history (who : json) : call := with_metadata (OpsApi.get_vending_history env0 who).

Definition create_complaint_ticket (title description who priority case_reference : json) : call :=
  with_metadata (OpsApi.create_complaint_ticket env0 who title description priority case_reference).

(** The call, and whether its result is recorded. *)
Definition create_ticket (title description issue_type who priority requires_human case_reference : json) : call * bool :=
  if negb (_is_tool_enabled ctx (lit "create_ticket"))
  then (Return (failed (lit "I can't create a support ticket from this agent right now.")), false)
  else match _recent_ticket_reuse_result (_session_userdata ctx) title who with
       | Raise e => (Fail e, false)
       | Ok (Some reused) => (Return reused, false)
       | Ok None =>
           (with_metadata (OpsApi.create_ticket netloc_ok env0 env who title description issue_type priority
              requires_human case_reference), true)
       end.

(** The note of a transfer in the history of the session. *)
Definition handoff_event (session_id reason_summary : str) (result : dict) (business_id : str) : call :=
  create_session_event env0 session_id (JStr (lit "aicc_handoff")) (JStr (lit "system"))
    (JStr (lit "Transferred to human")) (or_none reason_summary)
    (JObj [(lit "handoff_kind", JStr (lit "human_handoff")); (lit "reason_summary", or_none reason_summary);
           (lit "transfer_mode", JStr (lit "sip_bridge")); (lit "target", result.[lit "target_number"]);
           (lit "tool_result", JObj [(lit "status", JStr (lit "success"))])]) business_id.

Definition transfer_to_aicc (raw_arguments : json) : call :=
  gated "transfer_to_aicc" "I can't transfer this call to a human agent from this agent right now."
    (let reason_summary := str_strip (dict_of raw_arguments).[lit "reason_summary"] in
     with_metadata (λ md,
       then_call (OpsApi.transfer_to_aicc env0 (JStr reason_summary) md) (λ result,
         if jeq_str result.[lit "status"] (lit "success") then
           let session_id := str_strip (_session_userdata ctx).[lit "session_tracker_id"] in
           let business_id := str_strip md.[lit "business_id"] in
           if negb (is_nil session_id) && is_enabled env0 business_id
           then logging (handoff_event session_id reason_summary result business_id) (Return result)
           else Return result
         else Return result))).

Definition create_booking (raw_arguments : json) : call :=
  gated "create_booking" "I can't create a booking from this agent right now."
    (let args := dict_of raw_arguments in
     let room_type := str_strip args.[lit "room_type"] in
     let check_in_date := str_strip args.[lit "check_in_date"] in
     let check_out_date := str_strip args.[lit "check_out_date"] in
     if is_nil room_type || is_nil check_in_date || is_nil check_out_date
     then Return (failed (lit "I need the room type, check-in date, and check-out date before I can create the booking."))
     else
       trying (at_least_one args.[lit "guest_count"]) (λ guest_count,
         with_metadata (OpsApi.create_booking env0 (clean args "customer_identifier") (clean args "guest_name")
           (JStr room_type) (JStr check_in_date) (JStr check_out_date) guest_count (clean args "special_requests")
           (normalize_price_snapshot args.[lit "price_snapshot"])))).

Definition create_order (raw_arguments : json) : call :=
  gated "create_order" "I can't create an order from this agent right now."
    (let args := dict_of raw_arguments in
     trying (at_least_one args.[lit "quantity"]) (λ quantity,
       with_metadata (λ md,
         OpsApi.create_order env0 (clean args "customer_identifier") (JStr (str_strip args.[lit "item_name"])) quantity
           (clean args "customer_name") (clean args "notes") (normalize_price_snapshot args.[lit "price_snapshot"]) md
           (default [] (normalize_order_items args.[lit "items"]))))).

Definition fetch_room_availability (endpoint_url room_type check_in_date check_out_date guest_count : json) : call :=
  gated "fetch_room_availability" "I can't check current room availability from this agent right now."
    (with_metadata (OpsApi.fetch_room_availability netloc_ok env0 endpoint_url room_type check_in_date check_out_date guest_count)).

Definition fetch_menu_availability (endpoint_url item_name party_size : json) : call :=
  gated "fetch_menu_availability" "I can't check the current menu or prices from this agent right now."
    (with_metadata (OpsApi.fetch_menu_availability netloc_ok env0 endpoint_url item_name party_size)).

Definition fetch_product_availability (endpoint_url product_name size color : json) : call :=
  gated "fetch_product_availability" "I can't check current product availability from this agent right now."
    (with_metadata (OpsApi.fetch_product_availability netloc_ok env0 endpoint_url product_name size color)).

Definition report_outage (summary who priority : json) : call :=
  with_metadata (OpsApi.report_outage env0 who summary priority).
Definition create_meter_request (summary who priority : json) : call :=
  with_metadata (OpsApi.create_meter_request env0 who summary priority).
Definition apply_billing_adjustment (amount reason who : json) : call :=
  with_metadata (OpsApi.apply_billing_adjustment env0 who amount reason).
Definition refresh_meter_token_state (reason who : json) : call :=
  with_metadata (OpsApi.refresh_meter_token_state env0 who reason).
Definition update_customer_record (who email phone service_address : json) : call :=
  with_metadata (OpsApi.update_customer_record env0 who email phone service_address).
Definition create_payment_plan (plan_name installment_count monthly_amount reason who : json) : call :=
  with_metadata (OpsApi.create_payment_plan env0 who plan_name installment_count monthly_amount reason).
Definition escalate_issue (title description who priority case_reference : json) : call :=
  with_metadata (OpsApi.escalate_issue env0 who title description priority case_reference).
Definition get_account_overview (who : json) : call := with_metadata (OpsApi.get_account_overview env0 who).
Definition get_recent_transactions (who limit : json) : call := with_metadata (OpsApi.get_recent_transactions env0 who limit).
Definition check_transaction_status (transaction_reference amount_naira who : json) : call :=
  with_metadata (OpsApi.check_transaction_status env0 who transaction_reference amount_naira).
Definition block_card (reason last4 who : json) : call := with_metadata (OpsApi.block_card env0 who last4 reason).
Definition unblock_card (reason last4 who : json) : call := with_metadata (OpsApi.unblock_card env0 who last4 reason).
Definition send_email (to_email subject body_text : json) : call :=
  gated "send_email" "I can't send an email from this agent right now."
    (with_metadata (OpsApi.send_email env0 to_email subject body_text)).
Definition reverse_failed_transaction (transaction_reference reason who : json) : call :=
  with_metadata (OpsApi.reverse_failed_transaction env0 who transaction_reference reason).

(** Every tool, by the name that the model calls it. *)
Inductive agent_tool : String.string → call → Prop :=
| a_knowledge r : agent_tool "search_business_knowledge" (search_business_knowledge r)
| a_lookup w : agent_tool "lookup_customer_account" (lookup_customer_account w)
| a_tariff w : agent_tool "get_tariff_profile" (get_tariff_profile w)
| a_payments w : agent_tool "get_payment_summary" (get_payment_summary w)
| a_vending w : agent_tool "get_vending_history" (get_vending_history w)
| a_complaint t d w p c : agent_tool "create_complaint_ticket" (create_complaint_ticket t d w p c)
| a_ticket t d i w p h c : agent_tool "create_ticket" (create_ticket t d i w p h c).1
| a_transfer r : agent_tool "transfer_to_aicc" (transfer_to_aicc r)
| a_booking r : agent_tool "create_booking" (create_booking r)
| a_order r : agent_tool "create_order" (create_order r)
| a_room e r i o n : agent_tool "fetch_room_availability" (fetch_room_availability e r i o n)
| a_menu e i n : agent_tool "fetch_menu_availability" (fetch_menu_availability e i n)
| a_product e p s c : agent_tool "fetch_product_availability" (fetch_product_availability e p s c)
| a_outage s w p : agent_tool "report_outage" (report_outage s w p)
| a_meter s w p : agent_tool "create_meter_request" (create_meter_request s w p)
| a_billing a r w : agent_tool "apply_billing_adjustment" (apply_billing_adjustment a r w)
| a_refresh r w : agent_tool "refresh_meter_token_state" (refresh_meter_token_state r w)
| a_update w e p a : agent_tool "update_customer_record" (update_customer_record w e p a)
| a_plan n i m r w : agent_tool "create_payment_plan" (create_payment_plan n i m r w)
| a_escalate t d w p c : agent_tool "escalate_issue" (escalate_issue t d w p c)
| a_overview w : agent_tool "get_account_overview" (get_account_overview w)
| a_recent w l : agent_tool "get_recent_transactions" (get_recent_transactions w l)
| a_status t a w : agent_tool "check_transaction_status" (check_transaction_status t a w)
| a_block r l w : agent_tool "block_card" (block_card r l w)
| a_unblock r l w : agent_tool "unblock_card" (unblock_card r l w)
| a_mail e s b : agent_tool "send_email" (send_email e s b)
| a_reverse t r w : agent_tool "reverse_failed_transaction" (reverse_failed_transaction t r w).

(** The tools that look whether the agent has them. *)
Definition guarded_tools : list String.string :=
  ["create_ticket"; "transfer_to_aicc"; "create_booking"; "create_order"; "fetch_room_availability";
   "fetch_menu_availability"; "fetch_product_availability"; "send_email"]%string.

(** A guarded tool that the session's list of enabled tools does not name is not enabled. *)
Lemma unlisted_disabled name d l :
  name ∈ guarded_tools → session_data ctx = JObj d → d.[lit "enabled_tool_names"] = JArr l →
  (∀ item, item ∈ l → str_strip item ≠ lit name) → _is_tool_enabled ctx (lit name) = false.
Proof.
  intros Hn Hd Hl Hno. unfold _is_tool_enabled. cbv zeta. rewrite Hd, Hl.
  assert (forallb (λ n, (py_strip (lit n) =s lit n) && negb (in_strs (lit n) ALWAYS_ENABLED_RUNTIME_TOOLS)) guarded_tools = true)
    as Hg by (vm_compute; reflexivity).
  rewrite forallb_elem_of in Hg. apply Hg, andb_prop in Hn as [Hs%str_eqb_true Ha%negb_true_iff].
  rewrite Hs, Ha. apply in_strs_false. unfold names_of. intros Hin.
  apply list_elem_of_In, filter_In in Hin as [Hin _]. apply list_elem_of_In, list_elem_of_fmap in Hin as (item & Heq & Hin).
  by apply (Hno item).
Qed.

(** C29: A guarded tool (tickets, transfers, bookings, orders, availability, mail) that the list of enabled tools
    of the session does not name, be the list empty or not, sends nothing and reports a failure, whatever it
    is asked. *)
Theorem disabled_tool_silent name c answer d l :
  agent_tool name c → name ∈ guarded_tools →
  session_data ctx = JObj d → d.[lit "enabled_tool_names"] = JArr l → (∀ item, item ∈ l → str_strip item ≠ lit name) →
  ∃ message, perform answer 0 c = ([], Ok (failed message)).
Proof.
  intros Ht Hn Hs Hl Hno. pose proof (unlisted_disabled name d l Hn Hs Hl Hno) as Hd.
  assert (∀ m k, gated name m k = Return (failed (lit m))) as Hg by (intros; unfold gated; by rewrite Hd).
  apply (bool_decide_eq_true_2 (name ∈ guarded_tools)) in Hn. destruct Ht; try (vm_compute in Hn; discriminate Hn); clear Hn;
    try (eexists; unfold transfer_to_aicc, create_booking, create_order, fetch_room_availability,
           fetch_menu_availability, fetch_product_availability, send_email; rewrite Hg; reflexivity).
  eexists. unfold create_ticket. rewrite Hd. reflexivity.
Qed.

(** ** What is sent *)

Create HintDb tools discriminated.
#[local] Hint Constants Opaque : tools.
#[local] Hint Constructors tool : tools.

(** As OpsApi.v has it, or a note for the conversation service. *)
Definition agent_contained (r : request) : Prop :=
  contained netloc_ok env0 env r ∨
  ∃ h path b, r = Http h ∧ url h = BASE_URL env0 ++ path ∧ starts_with (lit "/v1/") path = true ∧
    dget BUSINESS (headers h) = Some b ∧ canonical b.

Lemma every_weaken (P Q : request → Prop) c : (∀ r, P r → Q r) → every P c → every Q c.
Proof. intros H. induction c as [| |r k IH]; simpl; [done|done|]. intros [? Hk]. split; [auto|]. intros a. apply IH, Hk. Qed.

Lemma operation_contained md c : tool netloc_ok env0 env py_float md c → every agent_contained c.
Proof. intros Ht. eapply every_weaken; [|by eapply tool_contained]. by left. Qed.

Lemma metadata_contained (k : dict → call) :
  (∀ md, tool netloc_ok env0 env py_float md (k md)) → every agent_contained (with_metadata k).
Proof. intros H. apply every_trying. intros md _. eapply operation_contained, H. Qed.

Lemma every_logging P c k : every P c → every P k → every P (logging c k).
Proof.
  intros Hc Hk. induction c as [d|e|r j IH]; simpl; [done|by destruct e|].
  destruct Hc as [? Hj]. split; [done|]. intros a. apply IH, Hj.
Qed.

Lemma event_contained s r d b : every agent_contained (handoff_event s r d b).
Proof.
  unfold handoff_event, create_session_event, post, service_request. destruct (is_enabled env0 b) eqn:E; [|done].
  cbn [negb every]. split.
  - right. eexists _, (lit "/v1/conversations/sessions/" ++ s ++ lit "/events"), _. split; [reflexivity|].
    split; [reflexivity|]. split; [by vm_compute|]. split; [reflexivity|].
    apply scope_canonical. unfold is_enabled in E. apply andb_prop in E as [_ E]. by intros H; rewrite H in E.
  - intros [[code [payload|[]]| |]|]; done.
Qed.

Lemma gated_contained t m c : every agent_contained c → every agent_contained (gated t m c).
Proof. unfold gated. by destruct (_is_tool_enabled _ _). Qed.

Lemma transfer_contained r : every agent_contained (transfer_to_aicc r).
Proof.
  apply gated_contained, every_trying. intros md _. apply every_then.
  - eapply operation_contained. auto with tools nocore.
  - intros d. cbv beta zeta. destruct (jeq_str _ _); [|done]. destruct (_ && _); [|done]. by apply every_logging; [apply event_contained|].
Qed.

Ltac agent_call :=
  unfold lookup_customer_account, get_tariff_profile, get_payment_summary, get_vending_history, create_complaint_ticket,
    create_booking, create_order, fetch_room_availability, fetch_menu_availability, fetch_product_availability,
    report_outage, create_meter_request, apply_billing_adjustment, refresh_meter_token_state, update_customer_record,
    create_payment_plan, escalate_issue, get_account_overview, get_recent_transactions, check_transaction_status,
    block_card, unblock_card, send_email, reverse_failed_transaction; cbv zeta;
  lazymatch goal with
  | |- every _ (gated _ _ _) => apply gated_contained; agent_call
  | |- every _ (with_metadata _) => apply metadata_contained; intros ?; auto with tools nocore
  | |- _ => idtac
  end.

(** Composed with OpsApi.v: no tool of the agent lets the model send a token elsewhere than to
    the operator's services, or without the business of the session. *)
Theorem agent_requests_contained name c answer rs out :
  agent_tool name c → perform answer 0 c = (rs, out) → Forall agent_contained rs.
Proof.
  intros Ht. apply every_perform.
  destruct Ht; agent_call.
  - unfold search_business_knowledge. destruct (is_nil _); [done|]. apply every_trying. intros k _. agent_call.
  - unfold create_ticket. destruct (negb _); [done|].
    destruct (_recent_ticket_reuse_result _ _ _) as [[]|]; [done| |done]. cbn [fst]. agent_call.
  - apply transfer_contained.
  - destruct (_ || _); [done|]. apply every_trying. intros k _. agent_call.
  - apply every_trying. intros k _. agent_call.
Qed.

(** ** Bookings *)

Definition has_text (body : dict) (k : String.string) : Prop := ∃ s, dget (lit k) body = Some (JStr s) ∧ s ≠ [].

Definition complete_booking (r : request) : Prop :=
  ∃ h body, r = Http h ∧ json_body h = Some body ∧ has_text body "room_type" ∧
    ((has_text body "stay_start" ∧ has_text body "stay_end") ∨
     (has_text body "check_in_date" ∧ has_text body "check_out_date")) ∧
    ∃ n, dget (lit "guest_count") body = Some (JInt n) ∧ 1 ≤ n.

Lemma request_every (P : request → Prop) path body md base_url :
  (∀ h, json_body h = Some body → P (Http h)) → every P (_request_json env0 path body md base_url).
Proof.
  intros H. unfold _request_json. destruct (is_nil _); [done|]. destruct (negb _); [done|]. split; [by apply H|].
  intros a. apply every_answered. intros code v. destruct (400 <=? code); [done|]. by destruct v as [[]|].
Qed.

Lemma at_least_one_spec v j : at_least_one v = Ok j → ∃ n, j = JInt n ∧ 1 ≤ n.
Proof.
  unfold at_least_one. destruct (py_int _) as [n|[]]; intros [= <-]; eexists; split; try reflexivity; lia.
Qed.

(** A booking that is sent names a room and both dates, for at least one guest, however the
    model wrote the arguments. *)
Theorem booking_complete raw_arguments answer rs out :
  perform answer 0 (create_booking raw_arguments) = (rs, out) → Forall complete_booking rs.
Proof.
  apply every_perform. unfold create_booking, gated. destruct (_is_tool_enabled _ _); [|done]. cbv zeta.
  destruct (str_strip _) as [|a1 l1]; [done|]. destruct (str_strip _) as [|a2 l2]; [done|].
  destruct (str_strip _) as [|a3 l3]; [done|]. cbn [is_nil orb]. apply every_trying. intros g (n & -> & Hn)%at_least_one_spec.
  apply every_trying. intros md _. unfold OpsApi.create_booking, customer_request.
  destruct (_ =s _); apply request_every; intros h Hh; exists h; eexists; (split; [reflexivity|]); (split; [exact Hh|]);
    (split; [by eexists|]); (split; [|by eexists]); [left|right]; split; by eexists.
Qed.
End agent.

(** ** Tickets of a session *)

Record ticket_args := mkTicket {
  t_title : json; t_description : json; t_issue_type : json; t_who : json; t_priority : json;
  t_requires_human : json; t_case_reference : json;
}.

Section tickets.
Context (netloc_ok : str → bool) (env0 env : environ) (room : str).
(** The answers of the services, by the number of the request. *)
Context (answer : nat → exn reply).

Definition ask_ticket (ud : dict) (a : ticket_args) : call * bool :=
  create_ticket netloc_ok env0 env (mkCtx (JObj ud) (JObj ud) room) (t_title a) (t_description a) (t_issue_type a)
    (t_who a) (t_priority a) (t_requires_human a) (t_case_reference a).

(** One call of the tool after [n] requests: what it sends, and the session after it. *)
Definition ask_once (n : nat) (ud : dict) (a : ticket_args) : list request * dict :=
  let '(c, fresh) := ask_ticket ud a in
  let '(rs, out) := perform answer n c in
  (rs, match fresh, out with
       | true, Ok result => match recorded ud result with Ok ud => ud | Raise _ => ud end
       | _, _ => ud
       end).

(** The model calls the tool again and again, in one turn. *)
Fixpoint ask_all (n : nat) (ud : dict) (l : list ticket_args) : list request * dict :=
  match l with
  | [] => ([], ud)
  | a :: l =>
      let '(rs, ud) := ask_once n ud a in
      let '(rest, ud) := ask_all (n + length rs) ud l in (rs ++ rest, ud)
  end.

Definition titled (key : str) (title : json) : Prop := py_lower (str_strip title) = key.

(** The session has the ticket of this title, of turn [t] or the one before. *)
Definition has_ticket (key : str) (ud : dict) : Prop :=
  ∃ r last t, ud.[lit "last_create_ticket_result"] = JObj r ∧ titled key r.[lit "title"] ∧
    int_get "last_create_ticket_success_turn" (-999) ud = Ok last ∧ int_get "turn_index" 0 ud = Ok t ∧ t - last ≤ 1.

Lemma reuse_found key ud title who :
  key ≠ [] → titled key title → has_ticket key ud →
  ∃ d, _recent_ticket_reuse_result ud title who = Ok (Some d).
Proof.
  intros Hk Ht (r & last & t & Hr & Hrt & Hl & Hc & Hd). unfold _recent_ticket_reuse_result.
  rewrite Hr, Hl, Hc. simpl. unfold titled in *. rewrite Ht, Hrt, str_eqb_refl.
  assert ((1 <? t - last) = false) as -> by lia. destruct key; [done|]. simpl. by eexists.
Qed.

Lemma ask_reused key n ud a :
  key ≠ [] → titled key (t_title a) → has_ticket key ud → ask_once n ud a = ([], ud).
Proof.
  intros Hk Ht Hh. unfold ask_once, ask_ticket, create_ticket. destruct (negb _); [done|].
  unfold _session_userdata. cbn [session_data dict_of].
  by destruct (reuse_found key ud (t_title a) (t_who a) Hk Ht Hh) as [d ->].
Qed.

Lemma ask_all_reused key n ud l :
  key ≠ [] → Forall (λ a, titled key (t_title a)) l → has_ticket key ud → ask_all n ud l = ([], ud).
Proof.
  intros Hk Hl Hh. revert n. induction Hl as [|a l Ha Hl IH]; intros n; simpl; [done|].
  rewrite (ask_reused key) by done. by rewrite IH.
Qed.

(** The service made a ticket. *)
Definition ticket_made (a : exn reply) : bool := match a with Ok (HttpReply code (Ok (JObj _))) => code <? 400 | _ => false end.

(** What is made of an answer: a failure, or the ticket. *)
Definition asked (a : exn reply) (c : call) : Prop :=
  match c with
  | Return d =>
      match a with Ok (HttpReply code (Ok (JObj o))) => is_failed d = true ∨ d = success o | _ => True end
      ∧ (is_failed d = true → ticket_made a = false)
  | Fail _ => ticket_made a = false
  | Send _ _ => False
  end.

(** One request at most. *)
Definition asks_once (c : call) : Prop :=
  match c with
  | Return d => is_failed d = true
  | Fail _ => True
  | Send _ k => ∀ a, asked a (k a)
  end.

Lemma asks_trying {A} (m : exn A) k : (∀ a, m = Ok a → asks_once (k a)) → asks_once (trying m k).
Proof. intros H. destruct m; simpl; [by apply H|done]. Qed.

Lemma success_not_failed d : is_failed (success d) = false.
Proof. unfold is_failed, success. by rewrite dget_or_none_dset_eq. Qed.

(** A service answers with a ticket, or something that is no ticket. *)
Lemma answered_asked t u a (other : option json → dict) :
  asked a (answered t u a (λ code payload,
    if 400 <=? code then Return (refused code (detail_of payload))
    else match payload with Some (JObj d) => Return (success d) | v => Return (other v) end)).
Proof.
  destruct a as [[code [payload|e]| |]|e]; simpl; try done; [|by destruct e; simpl; try destruct (400 <=? code)|by destruct e].
  destruct (400 <=? code) eqn:E; simpl.
  - split; [destruct payload; auto|]. intros _. destruct payload; simpl; try done. lia.
  - destruct payload; simpl; split; auto. by rewrite success_not_failed.
Qed.

Lemma request_asks path body md base_url : asks_once (_request_json env0 path body md base_url).
Proof.
  unfold _request_json. cbv zeta. destruct (is_nil _); [done|]. destruct (negb _); [done|]. intros a.
  pose proof (answered_asked (lit "Ops backend request timed out.") (lit "Ops backend is unavailable.") a (λ payload,
    match payload with Some (JArr l) => items l | _ => failed (lit "Invalid response from ops backend.") end)) as H.
  destruct a as [[code [[]|[]]| |]|[]]; exact H.
Qed.

Lemma conversation_asks path body md : asks_once (_request_conversation_service_json netloc_ok env0 env path body md).
Proof.
  unfold _request_conversation_service_json. apply asks_trying. intros base _. destruct (is_nil _); [done|].
  cbv zeta. destruct (negb _); [done|]. intros a.
  pose proof (answered_asked (lit "Conversation service ticket request timed out.") (lit "Conversation service is unavailable.")
    a (λ _, failed (lit "Invalid response from conversation service."))) as H.
  destruct a as [[code [[]|[]]| |]|[]]; exact H.
Qed.

Lemma ticket_asks who t d i p h c md : asks_once (OpsApi.create_ticket netloc_ok env0 env who t d i p h c md).
Proof.
  unfold OpsApi.create_ticket. apply asks_trying. intros base _. destruct (negb _); [apply conversation_asks|].
  destruct (_uses_internal_business_ops md); [|apply request_asks]. apply asks_trying. intros b _. apply request_asks.
Qed.

Lemma int_get_dset_ne k k' v d z : lit k ≠ lit k' → int_get k z (dset (lit k') v d) = int_get k z d.
Proof. intros H. unfold int_get. by rewrite dget_dset_ne. Qed.

Lemma recorded_ticket key ud o t ud' :
  int_get "turn_index" 0 ud = Ok t → titled key o.[lit "title"] → recorded ud (success o) = Ok ud' → has_ticket key ud'.
Proof.
  intros Ht Ho. unfold recorded. rewrite success_not_failed, Ht. intros [= <-]. exists (success o), t, t.
  rewrite dget_or_none_dset_eq, (int_get_dset_ne "last_create_ticket_success_turn"),
    !(int_get_dset_ne "turn_index") by (apply str_eqb_false; by vm_compute).
  split; [done|]. split; [unfold titled, success, dget_or_none; by rewrite dget_dset_ne by (apply str_eqb_false; by vm_compute)|].
  split; [unfold int_get; by rewrite dget_dset_eq|]. by split; [|lia].
Qed.

Lemma recorded_turn ud d ud' t :
  int_get "turn_index" 0 ud = Ok t → recorded ud d = Ok ud' → int_get "turn_index" 0 ud' = Ok t.
Proof.
  intros Ht. unfold recorded. destruct (is_failed d); [by intros [= <-]|]. rewrite Ht. intros [= <-].
  by rewrite !int_get_dset_ne by (apply str_eqb_false; by vm_compute).
Qed.

(** One call: the session keeps nothing but a result, and the ticket that the service made. *)
Lemma ask_once_cases n ud a t rs ud' :
  int_get "turn_index" 0 ud = Ok t → ask_once n ud a = (rs, ud') →
  (ud' = ud ∨ ∃ d, recorded ud d = Ok ud') ∧
  (rs = [] ∨ length rs = 1%nat ∧ ∀ code o, answer n = Ok (HttpReply code (Ok (JObj o))) → code < 400 →
     recorded ud (success o) = Ok ud').
Proof.
  intros Ht. unfold ask_once, ask_ticket, create_ticket. destruct (negb _); [intros [= <- <-]; auto|].
  destruct (_recent_ticket_reuse_result _ _ _) as [[d|]|e]; [intros [= <- <-]; auto| |intros [= <- <-]; auto].
  unfold with_metadata. destruct (_tool_metadata _ _) as [md|e]; [|intros [= <- <-]; auto]. simpl.
  pose proof (ticket_asks (t_who a) (t_title a) (t_description a) (t_issue_type a) (t_priority a)
    (t_requires_human a) (t_case_reference a) md) as Hc.
  assert (∀ d x, match recorded ud d with Ok ud => ud | Raise _ => ud end = x → x = ud ∨ ∃ d, recorded ud d = Ok x) as Hkeep.
  { intros d x. destruct (recorded ud d) eqn:E; intros <-; [right; by eexists|by left]. }
  destruct (OpsApi.create_ticket _ _ _ _ _ _ _ _ _ _ _) as [d|e|r k]; simpl in *.
  - intros [= <- E]. split; [by eapply Hkeep|by left].
  - intros [= <- <-]. auto.
  - specialize (Hc (answer n)). destruct (k (answer n)) as [d|e|]; simpl; [| |done].
    + intros [= <- E]. split; [by eapply Hkeep|]. right. split; [done|]. intros code o Ea Hcode.
      rewrite Ea in Hc. destruct Hc as [[Hf| ->] Hno]; [apply Hno in Hf; simpl in Hf; lia|].
      clear Hkeep. unfold recorded in *. rewrite success_not_failed, Ht in *. simpl in *. by rewrite E.
    + intros [= <- <-]. split; [by left|]. right. split; [done|]. intros code o Ea Hcode. rewrite Ea in Hc. simpl in Hc. lia.
Qed.

Section same_title.
Context (key : str) (Hkey : key ≠ []).
(** A ticket that the service made has the title that was asked for. *)
Context (Hanswer : ∀ n code o, answer n = Ok (HttpReply code (Ok (JObj o))) → titled key o.[lit "title"]).

Lemma ask_once_spec n ud a t rs ud' :
  int_get "turn_index" 0 ud = Ok t → ask_once n ud a = (rs, ud') →
  int_get "turn_index" 0 ud' = Ok t ∧
  (rs = [] ∨ length rs = 1%nat ∧ (ticket_made (answer n) = true → has_ticket key ud')).
Proof.
  intros Ht [Hud Hrs]%(ask_once_cases n ud a t); [|done]. split.
  { destruct Hud as [->|[d Hd]]; [done|by eapply recorded_turn]. }
  destruct Hrs as [->|[Hl Hm]]; [by left|]. right. split; [done|]. unfold ticket_made.
  destruct (answer n) as [[code [[| | | | | |o]|]| |]|] eqn:Ea; try done. intros Hcode.
  eapply recorded_ticket; [exact Ht|by eapply Hanswer|]. apply (Hm code); [done|lia].
Qed.

(** The tool by itself, its calls one after the other and the service returning the title it was
    given: however often the model asks for a ticket of the same title in one turn, once the service made
    one nothing more is sent, and until then each call sends one request at most.  In the
    call the session also changes between them: the event of an executed tool replaces what
    the tool kept, and the same title is asked for again, see [Timeline.ticket_forgotten]. *)
Theorem ticket_made_once t l n ud rs ud' :
  int_get "turn_index" 0 ud = Ok t → Forall (λ a, titled key (t_title a)) l → ask_all n ud l = (rs, ud') →
  (length rs ≤ length l)%nat ∧ ∀ i, (S i < length rs)%nat → ticket_made (answer (n + i)) = false.
Proof.
  intros Ht Hl. revert n ud rs ud' Ht. induction Hl as [|a l Ha Hl IH]; intros n ud rs ud' Ht; simpl.
  { intros [= <- <-]. simpl. split; [lia|]. intros i Hi. lia. }
  destruct (ask_once n ud a) as [rs0 ud0] eqn:E0.
  destruct (ask_all (n + length rs0) ud0 l) as [rs1 ud1] eqn:E1. intros [= <- <-].
  apply (ask_once_spec n ud a t) in E0 as [Ht0 [->|[Hr Hmade]]]; [|rewrite Hr in *|done].
  - rewrite Nat.add_0_r in E1. apply IH in E1 as [? ?]; [|done]. simpl. split; [lia|done].
  - rewrite length_app, Hr. destruct (ticket_made (answer n)) eqn:Em.
    + rewrite (ask_all_reused key) in E1 by auto. injection E1 as <- <-. simpl. split; [lia|]. intros i Hi. lia.
    + apply IH in E1 as [Hlen Hrest]; [|done]. split; [lia|]. intros [|i] Hi; [by rewrite Nat.add_0_r|].
      rewrite <-Nat.add_succ_comm, <-Nat.add_1_r. apply Hrest. lia.
Qed.
End same_title.
End tickets.

(** ** Instances *)

Definition agent_env : environ := λ k,
  if k =s lit "HOTEL_OPS_SERVICE_BASE_URL" then Some (lit "http://hotel:8091") else None.

Definition session (enabled : list String.string) : dict :=
  [(lit "business_id", JStr (lit "b1")); (lit "business_use_case", JStr (lit "hotel"));
   (lit "conversation_id", JStr (lit "c1")); (lit "end_user_id", JStr (lit "guest-7"));
   (lit "end_user_name", JStr (lit "Ada Obi")); (lit "caller_phone_e164", JStr (lit "+2348012345678"));
   (lit "enabled_tool_names", JArr (map (λ n, JStr (lit n)) enabled)); (lit "turn_index", JInt 3)].

Definition session_ctx (enabled : list String.string) : run_context :=
  mkCtx (JObj (session enabled)) (JObj (session enabled)) [].

Definition sent (r : list request * exn dict) : list (str * option dict) :=
  omap (λ r, match r with Http h => Some (url h, json_body h) | _ => None end) r.1.

(** The tools of accounts do not look whether the agent has them. *)
Example ungated_tool_sent :
  sent (perform (λ _, Raise HttpError) 0
    (block_card agent_env (session_ctx []) (JStr (lit "lost")) JNull JNull)) =
  [(lit "http://hotel:8091/v1/tools/cards/block",
    Some [(lit "customer_identifier", JStr (lit "guest-7")); (lit "last4", JNull); (lit "reason", JStr (lit "lost"))])].
Proof. by vm_compute. Qed.

(** The metadata of a tool has neither the name nor the phone of the caller, so the ticket has
    neither. *)
Example caller_not_on_ticket :
  map (λ s, match s.2 with Some b => (b.[lit "customer_name"], b.[lit "customer_contact"]) | None => (JNull, JNull) end)
    (sent (perform (λ _, Raise HttpError) 0 (create_ticket (λ _, true) agent_env agent_env
      (session_ctx ["create_ticket"]) (JStr (lit "Leak")) (JStr (lit "Water")) JNull JNull JNull JNull JNull).1)) =
  [(JStr (lit "guest-7"), JStr (lit "guest-7"))].
Proof. by vm_compute. Qed.

Definition ticket_of (title : String.string) : ticket_args :=
  mkTicket (JStr (lit title)) (JStr (lit "d")) JNull JNull JNull JNull JNull.

Definition made (title : String.string) : exn reply :=
  Ok (HttpReply 201 (Ok (JObj [(lit "title", JStr (lit title))]))).

Definition asks (answer : nat → exn reply) (titles : list String.string) : nat :=
  length (ask_all (λ _, true) agent_env agent_env [] answer 0 (session ["create_ticket"]) (map ticket_of titles)).1.

(** The session remembers the last ticket only: of two that the model asks for in turn, each is
    made again. *)
Example alternating_titles :
  asks (λ n, if Nat.even n then made "Leak" else made "Noise") ["Leak"; "Noise"; "Leak"; "Noise"] = 4%nat.
Proof. by vm_compute. Qed.

Lemma disabled_tool_silent_witness :
  ∃ message, perform (λ _, Raise HttpError) 0 (send_email agent_env (session_ctx ["create_ticket"]) JNull JNull JNull)
    = ([], Ok (failed message)).
Proof.
  eapply (disabled_tool_silent (λ _, true) agent_env agent_env (λ v, Ok v) (session_ctx ["create_ticket"]) "send_email").
  - apply a_mail.
  - repeat (apply list_elem_of_here || apply list_elem_of_further).
  - reflexivity.
  - vm_compute. reflexivity.
  - intros item [->|[]%not_elem_of_nil]%elem_of_cons. vm_compute. discriminate.
Defined.

(** An empty list enables none of them. *)
Example nothing_enabled :
  map (λ n, _is_tool_enabled (session_ctx []) (lit n)) guarded_tools = replicate 8 false ∧
  _is_tool_enabled (session_ctx []) (lit "search_business_knowledge") = true.
Proof. by vm_compute. Qed.

Lemma agent_requests_contained_witness :
  ∃ rs out, perform (λ _, Raise HttpError) 0 (block_card agent_env (session_ctx []) (JStr (lit "lost")) JNull JNull) = (rs, out)
    ∧ length rs = 1%nat ∧ Forall (agent_contained (λ _, true) agent_env agent_env) rs.
Proof.
  set (c := block_card _ _ _ _ _).
  assert (length (perform (λ _, Raise HttpError) 0 c).1 = 1%nat) as Hl by (vm_compute; reflexivity).
  destruct (perform _ 0 c) as [rs out] eqn:E. exists rs, out. split; [reflexivity|]. split; [exact Hl|].
  eapply (agent_requests_contained (λ _, true) agent_env agent_env (λ v, Ok v) (session_ctx [])); [apply a_block|exact E].
Defined.

Definition booking_arguments : json :=
  JObj [(lit "room_type", JStr (lit "suite ")); (lit "check_in_date", JStr (lit "2026-01-02"));
        (lit "check_out_date", JStr (lit "2026-01-04")); (lit "guest_count", JStr (lit "many"))].

Lemma booking_complete_witness :
  ∃ rs out, perform (λ _, Raise HttpError) 0 (create_booking agent_env (session_ctx ["create_booking"]) booking_arguments)
      = (rs, out) ∧ length rs = 1%nat ∧ Forall complete_booking rs.
Proof.
  set (c := create_booking _ _ _).
  assert (length (perform (λ _, Raise HttpError) 0 c).1 = 1%nat) as Hl by (vm_compute; reflexivity).
  destruct (perform _ 0 c) as [rs out] eqn:E. exists rs, out. split; [reflexivity|]. split; [exact Hl|].
  eapply booking_complete. exact E.
Defined.

Lemma ticket_made_once_witness :
  ∃ rs ud, ask_all (λ _, true) agent_env agent_env [] (λ n, match n with O => Raise HttpError | S _ => made "Leak" end) 0
      (session ["create_ticket"]) (map ticket_of ["Leak"; " leak"; "LEAK"]) = (rs, ud) ∧ length rs = 2%nat ∧
    (length rs ≤ 3)%nat.
Proof.
  set (answer := λ n : nat, match n with O => _ | S _ => _ end).
  assert (length (ask_all (λ _, true) agent_env agent_env [] answer 0 (session ["create_ticket"])
    (map ticket_of ["Leak"; " leak"; "LEAK"])).1 = 2%nat) as Hl by (vm_compute; reflexivity).
  destruct (ask_all _ _ _ _ _ _ _ _) as [rs ud] eqn:E. exists rs, ud. split; [reflexivity|]. split; [exact Hl|].
  apply (ticket_made_once (λ _, true) agent_env agent_env [] answer (lit "leak")) with (t := 3) in E.
  - exact (proj1 E).
  - discriminate.
  - intros [|n] code o H; [discriminate H|]. simpl in H. injection H as <- <-. vm_compute. reflexivity.
  - vm_compute. reflexivity.
  - repeat (constructor; [vm_compute; reflexivity|]). constructor.
Defined.
