(* ===== verification/Timeline.v ===== *)
(** * The timeline of a telephony session: main.py

    What [_wire_session_timeline] does when the session hears the caller, adds an item to the
    conversation or has run tools: the session's data change at once, and what takes time is
    left to background tasks.  One of them makes the ticket that the agent claims to have
    made, if no tool did.  Metrics and observations are left out. *)
From stdpp Require Import base list strings.
From Stdlib Require Import ZArith Lia Sorted.
From S2P Require Import Prelude Pystr Json Url Participants OpsApi ConversationApi SalonAgent.

(** ** Texts *)

Definition _short_text (value : json) (limit : Z) : str :=
  let text := str_strip value in
  if slen text <=? limit then text else take (Z.to_nat (limit - 1)) text ++ [8230].

Definition _summarize_tool_output (value : json) : str :=
  match value with
  | JNull => lit "No output returned."
  | JObj _ | JArr _ => _short_text (JStr (dumps_ascii value)) 400
  | _ => _short_text value 400
  end.

Definition item_text (item : json) : str :=
  match item with JStr s => py_strip s | JObj d => str_strip d.[lit "text"] | _ => [] end.

(** The items that are objects with a text are dictionaries here. *)
Definition _text_from_content (content : json) : str :=
  match content with
  | JNull => []
  | JStr s => py_strip s
  | JArr l => py_strip (py_join (lit " ") (List.filter (λ t, negb (is_nil t)) (map item_text l)))
  | v => py_strip (py_str v)
  end.

(** ** What the agent claims *)

Definition claims (patterns : list str) (message : str) : bool :=
  existsb (λ p, contains p (py_lower (py_strip message))) patterns.

Definition CREATED : list str := map lit
  ["i have created a ticket"; "i created a ticket"; "ticket has been created"; "j'ai créé un ticket";
   "j’ai créé un ticket"; "le ticket a été créé"; "un ticket a été créé"]%string.

Definition FAILED : list str := map lit
  ["ticket creation failed"; "couldn't create the ticket"; "could not create the ticket"; "could not create a ticket";
   "unable to create the ticket"; "unable to create a ticket"; "there was an issue creating the ticket";
   "there is an issue creating the ticket"; "issue creating the ticket"; "problem creating the ticket";
   "sorry, there was an issue creating the ticket"; "n'ai pas pu créer le ticket";
   "la création du ticket a échoué"; "je suis désolé, la création du ticket a échoué";
   "je n'ai pas pu créer le ticket"; "impossible de créer le ticket";
   "un problème est survenu lors de la création du ticket"]%string.

Definition UPDATED : list str := map lit
  ["i updated the ticket"; "i have updated the ticket"; "the ticket has been updated"; "j'ai mis à jour le ticket";
   "j’ai mis à jour le ticket"; "j'ai mis a jour le ticket"; "j’ai mis a jour le ticket";
   "le ticket a été mis à jour"; "le ticket a ete mis a jour"]%string.

Definition _assistant_claims_ticket_created : str → bool := claims CREATED.
Definition _assistant_claims_ticket_failed : str → bool := claims FAILED.
Definition _assistant_claims_ticket_updated : str → bool := claims UPDATED.

(** ** The caller's last messages *)

Definition recent_of (ud : dict) : list json :=
  match ud.[lit "recent_user_messages"] with JArr l => l | _ => [] end.

Definition _append_recent_user_message (ud : dict) (content : str) : dict :=
  let recent := recent_of ud in
  dset (lit "recent_user_messages")
    (JArr match py_strip content with [] => recent | cleaned => last_n 8 (recent ++ [JStr cleaned]) end) ud.

Definition trivial_replies : list str := map lit
  ["ok"; "okay"; "no problem"; "oui"; "yes"; "d'accord"; "d’accord"; "or"; "dit"]%string.

Definition _is_non_informative_ticket_reply (text : str) : bool :=
  let normalized := py_lower (py_strip text) in
  is_nil normalized || in_strs normalized trivial_replies || (slen normalized <? 3).

Definition SUPPORT_REQUEST : str := lit "Support Request".

Definition _fallback_ticket_summary (ud : dict) : str * str :=
  let recent := map (λ item, py_strip (py_str item))
                  (List.filter (λ item, negb (_is_non_informative_ticket_reply (py_str item))) (recent_of ud)) in
  let combined := py_strip (py_join (lit " ") (last_n 4 recent)) in
  let lowered := py_lower combined in
  if contains (lit "alat") lowered then
    (lit "ALAT App Issues", or_else combined (lit "Customer reported issues while using the ALAT app."))
  else if contains (lit "passeport") lowered || contains (lit "passport") lowered then
    (lit "Passport Support Request", or_else combined (lit "Customer requested help related to a passport issue."))
  else
    let title_source := match recent with r :: _ => r | [] => SUPPORT_REQUEST end in
    let words := take 6 (py_split (List.filter (λ c, negb (c =? 34)) title_source)) in
    let title := or_else (py_strip (py_join (lit " ") words)) SUPPORT_REQUEST in
    let title := if slen title <? 2 then SUPPORT_REQUEST else title in
    (take 255 title,
     or_else combined (or_else (str_strip ud.[lit "last_user_transcript"]) (lit "Customer requested human follow-up."))).

(** ** Messages that are not kept *)

Section timeline.
(** As in OpsApi.v; [\w] for a character; the hash of a long identifier. *)
Context (netloc_ok : str → bool) (env0 env : environ) (py_float : json → exn json).
Context (is_word : Z → bool) (sha256_hex : str → str).

(** [(je|j|i)\s*$] *)
Definition pronoun_ends (s : str) : bool := in_strs (rstrip_by is_space s) [lit "je"; lit "j"; lit "i"].

(** [^(bonjour|salut|hello|hi)\W+(je|j|i)\s*$] *)
Definition greeting_cut (s : str) : bool :=
  existsb (λ g, starts_with g s &&
    match drop (length g) s with
    | c :: r => negb (is_word c) && pronoun_ends (lstrip_by (λ c, negb (is_word c)) r)
    | [] => false
    end) (map lit ["bonjour"; "salut"; "hello"; "hi"]%string).

Definition _should_skip_assistant_message_persist (ud : dict) (content : str) : bool :=
  let candidate := py_strip content in
  let lowered := py_lower candidate in
  if is_nil candidate then true
  else if (slen candidate <=? 24)
          && (in_strs lowered (map lit ["bonjour ! je"; "bonjour! je"; "bonjour ! j"; "bonjour! j"]%string)
              || greeting_cut lowered) then true
  else
    let last_saved := str_strip ud.[lit "last_persisted_assistant_content"] in
    negb (is_nil last_saved)
    && ((candidate =s last_saved) || ((slen candidate <? slen last_saved) && starts_with candidate last_saved)).

(** ** Metadata *)

(** [str(x or d)] *)
Definition str_or (x : json) (d : str) : str := py_str (jor x (JStr d)).

Definition agent_of (ud : dict) : json :=
  JStr (str_or (jor ud.[lit "agent_config_id"] ud.[lit "agent_id"]) (AGENT_NAME env0)).

Definition _tool_metadata_from_userdata (ud : dict) : exn dict :=
  let conversation_id := str_or_empty ud.[lit "conversation_id"] in
  do! bases := py_iter (jor ud.[lit "knowledge_base_ids"] (JArr [])) in
  do! enabled := py_iter (jor ud.[lit "enabled_tool_names"] (JArr [])) in
  do! turn := int_get "turn_index" 0 ud in
  do! event := int_get "timeline_event_index" 0 ud in
  Ok [(lit "client_id", JStr (str_or ud.[lit "client_id"] (lit "sales-girl-internal"))); (lit "agent_id", agent_of ud);
      text_of ud "business_id"; text_of ud "business_use_case"; (lit "knowledge_base_ids", JArr bases);
      text_of ud "live_data_endpoint"; (lit "conversation_id", JStr conversation_id);
      (lit "session_id", JStr (str_or ud.[lit "session_id"] conversation_id)); text_of ud "end_user_id";
      text_of ud "end_user_name"; text_of ud "caller_phone_e164"; (lit "enabled_tool_names", JArr enabled);
      (lit "turn_index", JInt turn); text_of ud "last_user_transcript"; text_of ud "last_assistant_message";
      (lit "timeline_event_index", JInt event)].

Definition _ops_tool_metadata_from_userdata (ud : dict) : exn dict :=
  do! bases := py_iter (jor ud.[lit "knowledge_base_ids"] (JArr [])) in
  Ok [(lit "client_id", JStr (getenv env (lit "AGENT_CLIENT_ID") (lit "sales-girl-internal"))); (lit "agent_id", agent_of ud);
      text_of ud "business_id"; text_of ud "business_use_case"; (lit "knowledge_base_ids", JArr bases);
      text_of ud "conversation_id"; text_of ud "session_id"; text_of ud "end_user_id"].

(** ** Background tasks *)

Inductive task : Type :=
| PersistMessage (event_idx : Z) (role content business_id : str)
| PersistEvent (c : call)
| ReconcileClaim (content : str)
| RefreshKnowledge (query : str).

(** A task that is started, or a message kept in the agent's own store. *)
Inductive effect : Type :=
| Spawn (t : task)
| AppendLocal (conversation_id agent_id phone role content session_id : str).

Definition _persist_session_event_async (ud : dict) (event_type role title body payload : json) : list effect :=
  let business_id := str_or_empty ud.[lit "business_id"] in
  let session := str_strip ud.[lit "session_tracker_id"] in
  if is_enabled env0 business_id && negb (is_nil session)
  then [Spawn (PersistEvent (create_session_event env0 session event_type role title body payload business_id))] else [].

(** [_persist_remote]: the request, when it runs. *)
Definition message_call (ud : dict) (event_idx : Z) (role content business_id : str) : call :=
  append_message env0 (str_or_empty ud.[lit "conversation_id"]) (JStr role) (JStr content)
    (JStr (str_or_empty ud.[lit "session_id"]))
    (JStr (_stable_id sha256_hex
      (py_str ud.[lit "session_id"] ++ lit "-" ++ str_of_Z event_idx ++ lit "-" ++ role) (lit "msg") 96))
    (JObj [(lit "agent_id", ud.[lit "agent_id"]); (lit "language", ud.[lit "language"])]) business_id.

Definition message_saved (ud : dict) (role content : str) (result : dict) : dict :=
  if (role =s lit "assistant") && negb (str_or_empty result.[lit "status"] =s lit "failed")
  then dset (lit "last_persisted_assistant_content") (JStr content) ud else ud.

(** *** _reconcile_ticket_claim_if_needed *)

Definition ASKED : list str := map lit
  ["create a ticket"; "create ticket"; "créer un billet"; "créer un ticket"; "creer un ticket"]%string.

(** The turn of a claim that no ticket stands for. *)
Definition unsettled_claim (ud : dict) (assistant_message : str) : exn (option Z) :=
  do! enabled := py_iter (jor ud.[lit "enabled_tool_names"] (JArr [])) in
  if negb (in_strs (lit "create_ticket") (names_of enabled)) then Ok None
  else
    do! current_turn := int_get "turn_index" 0 ud in
    do! successful_turn := int_get "last_create_ticket_success_turn" (-1) ud in
    let message := py_strip assistant_message in
    let asked := existsb (λ p, contains p (py_lower (py_join (lit " ") (map py_str (last_n 4 (recent_of ud)))))) ASKED in
    Ok (if successful_turn =? current_turn then None
        else if is_nil message then None
        else if (0 <=? successful_turn) && _assistant_claims_ticket_updated message then None
        else if _assistant_claims_ticket_created message || (_assistant_claims_ticket_failed message && asked)
        then Some current_turn else None).

(** The request for the ticket, if there is to be one. *)
Definition claim_call (ud : dict) (assistant_message : str) : exn (option (Z * call)) :=
  do! turn := unsettled_claim ud assistant_message in
  match turn with
  | None => Ok None
  | Some turn =>
      let '(title, description) := _fallback_ticket_summary ud in
      do! md := _tool_metadata_from_userdata ud in
      Ok (Some (turn, OpsApi.create_ticket netloc_ok env0 env JNull (JStr title) (JStr description)
                        (JStr (lit "general")) (JStr (lit "high")) (JBool true) JNull md))
  end.

(** What the session keeps of the answer, and the event it is told of. *)
Definition claim_refused (result : dict) : bool := py_lower (str_or_empty result.[lit "status"]) =s lit "failed".

Definition claim_recorded (ud : dict) (turn : Z) (result : dict) : dict :=
  if claim_refused result then ud
  else dset (lit "last_create_ticket_result") (JObj result) (dset (lit "last_create_ticket_success_turn") (JInt turn) ud).

Definition claim_event (ud : dict) (turn : Z) (result : dict) : exn (list effect) :=
  if claim_refused result then Ok []
  else
    do! event := int_get "timeline_event_index" 0 ud in
    Ok (_persist_session_event_async ud (JStr (lit "tool_call")) (JStr (lit "tool"))
          (JStr (lit "create_ticket_fallback")) (JStr (_summarize_tool_output (JObj result)))
          (JObj [(lit "tool_name", JStr (lit "create_ticket_fallback")); (lit "tool_result", JObj result);
                 (lit "event_index", JInt event); (lit "turn_index", JInt turn)])).

(** *** _refresh_dynamic_knowledge_context *)

Definition _schedule_dynamic_knowledge_refresh (ud : dict) (transcript : str) : list effect :=
  let query := py_strip transcript in
  if is_nil query || (query =s str_strip ud.[lit "last_dynamic_knowledge_query"]) then []
  else [Spawn (RefreshKnowledge query)].

(** The search, if the business has no tools of its own. *)
Definition knowledge_call (ud : dict) (transcript : str) : exn (option call) :=
  let use_case := py_lower (str_strip ud.[lit "business_use_case"]) in
  if negb (in_strs use_case [lit "generic"; lit "custom"; lit "other"]) then Ok None
  else if is_nil (py_strip transcript) || is_nil (str_strip ud.[lit "base_instructions"]) then Ok None
  else
    do! md := _ops_tool_metadata_from_userdata ud in
    Ok (Some (OpsApi.search_business_knowledge env0 py_float (JStr (py_strip transcript)) (JInt 4) md)).

Definition snippet (m : json) : option str :=
  match m with
  | JObj d =>
      match collapse_ws (str_or_empty d.[lit "text"]) with
      | [] => None
      | text => Some (lit "- " ++ py_strip (str_or d.[lit "source_name"] (lit "Knowledge")) ++ lit ": " ++ take 900 text)
      end
  | _ => None
  end.

Definition newline : str := [10].

(** The instructions with what was found, for the base instructions when the task began. *)
Definition enriched_instructions (base_instructions : str) (result : dict) : option str :=
  match result.[lit "matches"] with
  | JArr matches =>
      match omap snippet (take 3 matches) with
      | [] => None
      | snippets =>
          Some (base_instructions ++ newline ++ newline
            ++ lit "Dynamic knowledge context for the caller's latest request:" ++ newline
            ++ lit "- The following snippets were retrieved from the business knowledge base for this turn." ++ newline
            ++ lit "- Use them first when answering the caller's current question." ++ newline
            ++ lit "- If the snippets are incomplete, call search_business_knowledge again before saying you do not know."
            ++ newline ++ py_join newline snippets ++ newline)
      end
  | _ => None
  end.

(** What is left when the search was answered: the query is remembered once its snippets are in
    the instructions. *)
Definition knowledge_refreshed (base_instructions : str) (ud : dict) (query : str) (result : dict) : dict * option str :=
  match enriched_instructions base_instructions result with
  | None => (ud, None)
  | Some instructions => (dset (lit "last_dynamic_knowledge_query") (JStr query) ud, Some instructions)
  end.

(** ** The events of the session *)

Definition _next_event_idx (ud : dict) : exn (Z * dict) :=
  do! idx := int_get "timeline_event_index" 0 ud in
  Ok (idx + 1, dset (lit "timeline_event_index") (JInt (idx + 1)) ud).

Definition next_turn (ud : dict) : exn dict :=
  do! turn := int_get "turn_index" 0 ud in Ok (dset (lit "turn_index") (JInt (turn + 1)) ud).

Definition _on_user_input_transcribed (ud : dict) (transcript : json) (is_final : bool) : exn (dict * list effect) :=
  match str_strip transcript with
  | [] => Ok (ud, [])
  | text =>
      if negb is_final then Ok (ud, [])
      else
        do! ud := next_turn ud in
        let ud := dset (lit "last_user_transcript") (JStr text) ud in
        do! next := _next_event_idx ud in
        Ok (next.2, _schedule_dynamic_knowledge_refresh ud text)
  end.

(** What is done with an item that is to be kept. *)
Definition keep_item (ud : dict) (event_idx : Z) (role content : str) : dict * list effect :=
  let business_id := str_or_empty ud.[lit "business_id"] in
  if is_enabled env0 business_id then (ud, [Spawn (PersistMessage event_idx role content business_id)])
  else
    (if role =s lit "assistant" then dset (lit "last_persisted_assistant_content") (JStr content) ud else ud,
     [AppendLocal (str_or_empty ud.[lit "conversation_id"]) (str_or ud.[lit "agent_id"] (AGENT_NAME env0))
        (str_or_empty ud.[lit "end_user_id"]) role content (str_or_empty ud.[lit "session_id"])]).

Definition _on_conversation_item_added (ud : dict) (role content : json) : exn (dict * list effect) :=
  let role := py_lower (str_or_empty role) in
  match _text_from_content content with
  | [] => Ok (ud, [])
  | text =>
      do! heard :=
        (if role =s lit "assistant" then Ok (dset (lit "last_assistant_message") (JStr text) ud, [])
         else if role =s lit "user" then
           do! ud := (if jeq_str ud.[lit "last_user_transcript"] text then Ok ud else next_turn ud) in
           let ud := _append_recent_user_message (dset (lit "last_user_transcript") (JStr text) ud) text in
           Ok (ud, _schedule_dynamic_knowledge_refresh ud text)
         else Ok (ud, [])) in
      let '(ud, refresh) := heard in
      do! next := _next_event_idx ud in
      let '(idx, ud) := next in
      if (role =s lit "assistant") && _should_skip_assistant_message_persist ud text then Ok (ud, refresh)
      else
        let '(ud, kept) := if in_strs role [lit "user"; lit "assistant"] then keep_item ud idx role text else (ud, []) in
        Ok (ud, refresh ++ kept ++ (if role =s lit "assistant" then [Spawn (ReconcileClaim text)] else []))
  end.

(** One of the tools that ran: its name, arguments and result. *)
Definition tool_executed (ud : dict) (event_idx turn : Z) (c : str * json * json) : dict * list effect :=
  let '(name, arguments, result) := c in
  let tool_name := match py_strip name with [] => lit "unknown_tool" | n => n end in
  let refused := match result with JObj d => py_lower (str_or_empty d.[lit "status"]) =s lit "failed" | _ => false end in
  let ud :=
    if (tool_name =s lit "create_ticket") && negb refused
    then dset (lit "last_create_ticket_result") result (dset (lit "last_create_ticket_success_turn") (JInt turn) ud) else ud in
  (ud, _persist_session_event_async ud (JStr (lit "tool_call")) (JStr (lit "tool")) (JStr tool_name)
         (JStr (_summarize_tool_output result))
         (JObj [(lit "tool_name", JStr tool_name); (lit "tool_arguments", arguments); (lit "tool_result", result);
                (lit "last_user_transcript", ud.[lit "last_user_transcript"]); (lit "event_index", JInt event_idx);
                (lit "turn_index", JInt turn)])).

Fixpoint tools_executed (ud : dict) (event_idx turn : Z) (calls : list (str * json * json)) : dict * list effect :=
  match calls with
  | [] => (ud, [])
  | c :: calls =>
      let '(ud, effects) := tool_executed ud event_idx turn c in
      let '(ud, rest) := tools_executed ud event_idx turn calls in (ud, effects ++ rest)
  end.

Definition _on_function_tools_executed (ud : dict) (calls : list (str * json * json)) : exn (dict * list effect) :=
  match calls with
  | [] => Ok (ud, [])
  | _ =>
      do! next := _next_event_idx ud in
      let '(idx, ud) := next in
      do! turn := int_get "turn_index" 0 ud in
      Ok (tools_executed ud idx turn calls)
  end.
End timeline.

(** ** The messages of a session *)

Section session.
Context (env0 : environ) (is_word : Z → bool).

Inductive session_event : Type :=
| Heard (transcript : json) (is_final : bool)
| Added (role content : json)
| Ran (calls : list (str * json * json)).

Definition on_event (ud : dict) (e : session_event) : exn (dict * list effect) :=
  match e with
  | Heard transcript is_final => _on_user_input_transcribed ud transcript is_final
  | Added role content => _on_conversation_item_added env0 is_word ud role content
  | Ran calls => _on_function_tools_executed env0 ud calls
  end.

Fixpoint on_events (ud : dict) (es : list session_event) : exn (dict * list effect) :=
  match es with
  | [] => Ok (ud, [])
  | e :: es =>
      do! r := on_event ud e in
      do! rest := on_events r.1 es in
      Ok (rest.1, r.2 ++ rest.2)
  end.

(** The numbers under which messages are sent. *)
Definition message_indices (l : list effect) : list Z :=
  omap (λ e, match e with Spawn (PersistMessage idx _ _ _) => Some idx | _ => None end) l.

(** What the caller said, as the conversation has it. *)
Definition user_text (e : session_event) : list json :=
  match e with
  | Added role content =>
      if py_lower (str_or_empty role) =s lit "user"
      then match _text_from_content content with [] => [] | t => [JStr t] end else []
  | _ => []
  end.

Lemma next_event ud r : _next_event_idx ud = Ok r →
  ∃ k, int_get "timeline_event_index" 0 ud = Ok k ∧ r.1 = k + 1 ∧ int_get "timeline_event_index" 0 r.2 = Ok (k + 1)
    ∧ recent_of r.2 = recent_of ud.
Proof.
  unfold _next_event_idx. destruct (int_get _ _ ud) as [k|] eqn:E; [|done]. simpl. intros [= <-]. exists k. simpl.
  split; [done|]. split; [done|]. split; [unfold int_get; by rewrite dget_dset_eq|].
  unfold recent_of. by rewrite dget_or_none_dset_ne by (apply str_eqb_false; by vm_compute).
Qed.

(** What an event that has nothing to say leaves alone. *)
Definition framed (ud ud' : dict) : Prop :=
  int_get "timeline_event_index" 0 ud' = int_get "timeline_event_index" 0 ud ∧ recent_of ud' = recent_of ud.

Lemma framed_dset k v ud :
  in_strs (lit k) [lit "timeline_event_index"; lit "recent_user_messages"] = false → framed ud (dset (lit k) v ud).
Proof.
  intros H. assert (lit k ≠ lit "timeline_event_index" ∧ lit k ≠ lit "recent_user_messages") as [H1 H2].
  { split; intros E; rewrite E in H; discriminate H. }
  split; [by rewrite int_get_dset_ne by auto|]. unfold recent_of. by rewrite dget_or_none_dset_ne by auto.
Qed.

Lemma framed_trans a b c : framed a b → framed b c → framed a c.
Proof. intros [H1 H2] [H3 H4]. split; congruence. Qed.

Lemma framed_refl a : framed a a.
Proof. done. Qed.

Lemma next_turn_framed ud ud' : next_turn ud = Ok ud' → framed ud ud'.
Proof. unfold next_turn. destruct (int_get _ _ _); [|done]. intros [= <-]. by apply framed_dset. Qed.

Lemma text_stripped content : py_strip (_text_from_content content) = _text_from_content content.
Proof. destruct content; simpl; try apply py_strip_idem. done. Qed.

Lemma append_recent ud text :
  py_strip text = text → text ≠ [] →
  int_get "timeline_event_index" 0 (_append_recent_user_message ud text) = int_get "timeline_event_index" 0 ud
  ∧ recent_of (_append_recent_user_message ud text) = last_n 8 (recent_of ud ++ [JStr text]).
Proof.
  intros Ht Hne. unfold _append_recent_user_message. rewrite Ht.
  split; [by rewrite int_get_dset_ne by (apply str_eqb_false; by vm_compute)|].
  unfold recent_of at 1. rewrite dget_or_none_dset_eq. by destruct text.
Qed.

Lemma no_message_refresh ud t : message_indices (_schedule_dynamic_knowledge_refresh ud t) = [].
Proof. unfold _schedule_dynamic_knowledge_refresh. by destruct (_ || _). Qed.

Lemma indices_app a b : message_indices (a ++ b) = message_indices a ++ message_indices b.
Proof. apply omap_app. Qed.

Lemma persist_no_message ud a b c d e : message_indices (_persist_session_event_async env0 ud a b c d e) = [].
Proof. unfold _persist_session_event_async. by destruct (_ && _). Qed.

Lemma executed_framed ud idx turn calls :
  framed ud (tools_executed env0 ud idx turn calls).1 ∧ message_indices (tools_executed env0 ud idx turn calls).2 = [].
Proof.
  revert ud. induction calls as [|[[name arguments] result] calls IH]; intros ud; [done|].
  cbn [tools_executed]. destruct (tool_executed env0 ud idx turn (name, arguments, result)) as [ud1 effects] eqn:E.
  assert (framed ud ud1 ∧ message_indices effects = []) as [Hf Hi].
  { unfold tool_executed in E. injection E as <- <-. rewrite persist_no_message. split; [|done].
    destruct (_ && _); [|done]. eapply framed_trans; by apply framed_dset. }
  specialize (IH ud1). destruct (tools_executed env0 ud1 idx turn calls) as [ud2 rest]. destruct IH as [Hf2 Hi2].
  simpl in *. rewrite indices_app, Hi, Hi2. split; [by eapply framed_trans|done].
Qed.

Lemma kept_framed ud idx role text :
  framed ud (keep_item env0 ud idx role text).1 ∧
  (message_indices (keep_item env0 ud idx role text).2 = [] ∨ message_indices (keep_item env0 ud idx role text).2 = [idx]).
Proof.
  unfold keep_item. destruct (is_enabled _ _); simpl; [split; [done|by right]|]. split; [|by left].
  destruct (_ =s _); [by apply framed_dset|done].
Qed.

(** An event takes one number at most, and gives it to one message at most. *)
Definition numbered (k : Z) (ud' : dict) (l : list effect) : Prop :=
  ∃ k', int_get "timeline_event_index" 0 ud' = Ok k' ∧ k ≤ k' ∧
    (message_indices l = [] ∨ k' = k + 1 ∧ message_indices l = [k + 1]).

Lemma numbered_next ud ud' k next l :
  int_get "timeline_event_index" 0 ud = Ok k → int_get "timeline_event_index" 0 ud' = int_get "timeline_event_index" 0 ud →
  _next_event_idx ud' = Ok next → message_indices l = [] ∨ message_indices l = [next.1] →
  ∀ ud'', framed next.2 ud'' → numbered k ud'' l ∧ recent_of ud'' = recent_of ud'.
Proof.
  intros Hk He Hn Hl ud'' [Hf Hr]. apply next_event in Hn as (k1 & H1 & H2 & H3 & H4).
  assert (k1 = k) as -> by congruence. split; [|congruence]. exists (k + 1). rewrite Hf, H3, <-H2.
  split; [done|]. split; [lia|]. destruct Hl; auto.
Qed.

Lemma heard_spec ud k transcript is_final r :
  int_get "timeline_event_index" 0 ud = Ok k → _on_user_input_transcribed ud transcript is_final = Ok r →
  numbered k r.1 r.2 ∧ recent_of r.1 = recent_of ud.
Proof.
  intros Hk. unfold _on_user_input_transcribed.
  assert (numbered k ud [] ∧ recent_of ud = recent_of ud) as Hstay by (split; [exists k; split; [done|]; split; [lia|by left]|done]).
  destruct (str_strip transcript) as [|c t]; [by intros [= <-]|]. destruct (negb is_final); [by intros [= <-]|].
  destruct (next_turn ud) as [ud1|] eqn:E1; [|done]. cbn [exn_bind]. apply next_turn_framed in E1.
  destruct (_next_event_idx _) as [next|] eqn:E2; [|done]. intros [= <-]. cbn [fst snd].
  assert (framed ud (dset (lit "last_user_transcript") (JStr (c :: t)) ud1)) as [He Hr]
    by (eapply framed_trans; [exact E1|by apply framed_dset]).
  rewrite <-Hr. eapply numbered_next; [exact Hk|exact He|exact E2|left; apply no_message_refresh|apply framed_refl].
Qed.

Lemma ran_spec ud k calls r :
  int_get "timeline_event_index" 0 ud = Ok k → _on_function_tools_executed env0 ud calls = Ok r →
  numbered k r.1 r.2 ∧ recent_of r.1 = recent_of ud.
Proof.
  intros Hk. unfold _on_function_tools_executed. destruct calls as [|c calls].
  { intros [= <-]. split; [exists k; split; [done|]; split; [lia|by left]|done]. }
  destruct (_next_event_idx ud) as [[idx ud1]|] eqn:E; [|done]. cbn [exn_bind].
  destruct (int_get "turn_index" 0 ud1) as [turn|]; [|done]. cbn [exn_bind]. intros [= <-].
  destruct (executed_framed ud1 idx turn (c :: calls)) as [Hf Hi].
  eapply numbered_next; [exact Hk|reflexivity|exact E|left; exact Hi|exact Hf].
Qed.

Lemma added_spec ud k role content r :
  int_get "timeline_event_index" 0 ud = Ok k → (length (recent_of ud) ≤ 8)%nat →
  _on_conversation_item_added env0 is_word ud role content = Ok r →
  numbered k r.1 r.2 ∧ recent_of r.1 = last_n 8 (recent_of ud ++ user_text (Added role content)).
Proof.
  intros Hk Hlen. unfold _on_conversation_item_added. cbn [user_text].
  assert (recent_of ud = last_n 8 (recent_of ud ++ [])) as Hsame by (by rewrite app_nil_r, last_n_all).
  set (rl := py_lower (str_or_empty role)).
  pose proof (text_stripped content) as Hstrip. destruct (_text_from_content content) as [|c t] eqn:Et.
  { intros [= <-]. split; [exists k; split; [done|]; split; [lia|by left]|]. by destruct (_ =s _). }
  set (text := c :: t) in *.
  destruct (if rl =s lit "assistant" then _ else _) as [[ud1 refresh]|] eqn:E1; [|done]. cbn [exn_bind].
  assert (int_get "timeline_event_index" 0 ud1 = int_get "timeline_event_index" 0 ud ∧ message_indices refresh = [] ∧
    recent_of ud1 = last_n 8 (recent_of ud ++ if rl =s lit "user" then [JStr text] else [])) as (He & Hi & Hr).
  { destruct (rl =s lit "assistant") eqn:Ea.
    { injection E1 as <- <-. apply str_eqb_true in Ea. rewrite Ea. destruct (framed_dset "last_assistant_message" (JStr text) ud) as [? ?]; [done|].
      split; [done|]. split; [done|]. simpl. congruence. }
    destruct (rl =s lit "user"); [|injection E1 as <- <-; auto].
    destruct (if jeq_str _ _ then _ else _) as [ud2|] eqn:E2; [|done]. cbn [exn_bind] in E1. injection E1 as <- <-.
    assert (framed ud (dset (lit "last_user_transcript") (JStr text) ud2)) as [Hf1 Hf2].
    { eapply framed_trans; [|by apply framed_dset]. destruct (jeq_str _ _); [by injection E2 as <-|by apply next_turn_framed]. }
    destruct (append_recent (dset (lit "last_user_transcript") (JStr text) ud2) text Hstrip) as [Ha1 Ha2]; [done|].
    rewrite no_message_refresh, Ha1, Ha2, Hf1, Hf2. done. }
  destruct (_next_event_idx ud1) as [[idx ud2]|] eqn:E2; [|done]. cbn [exn_bind].
  rewrite <-Hr. destruct (_ && _).
  { intros [= <-]. eapply numbered_next; [exact Hk|exact He|exact E2|by left|apply framed_refl]. }
  destruct (if in_strs rl _ then keep_item _ _ _ _ _ else _) as [ud3 kept] eqn:E3.
  assert (framed ud2 ud3 ∧ (message_indices kept = [] ∨ message_indices kept = [idx])) as [Hf Hkept].
  { destruct (in_strs rl _); [|injection E3 as <- <-; split; [done|by left]].
    pose proof (kept_framed ud2 idx rl text) as H. by rewrite E3 in H. }
  intros [= <-]. eapply numbered_next; [exact Hk|exact He|exact E2| |exact Hf].
  cbn [fst snd]. rewrite !indices_app, Hi. destruct (rl =s lit "assistant"); simpl; rewrite app_nil_r; exact Hkept.
Qed.

Lemma on_event_spec ud k e r :
  int_get "timeline_event_index" 0 ud = Ok k → (length (recent_of ud) ≤ 8)%nat → on_event ud e = Ok r →
  numbered k r.1 r.2 ∧ recent_of r.1 = last_n 8 (recent_of ud ++ user_text e).
Proof.
  intros Hk Hlen. destruct e as [transcript f|role content|calls]; simpl; intros H.
  - rewrite app_nil_r, last_n_all by done. by eapply heard_spec.
  - by eapply added_spec.
  - rewrite app_nil_r, last_n_all by done. by eapply ran_spec.
Qed.

(** C31: Whatever the session hears, says and runs, no two of its messages go out under the same
    number, and the numbers grow with the conversation; what it remembers of the caller is the
    last eight things that the caller said. *)
Theorem session_remembers ud k es ud' l :
  int_get "timeline_event_index" 0 ud = Ok k → (length (recent_of ud) ≤ 8)%nat → on_events ud es = Ok (ud', l) →
  StronglySorted Z.lt (message_indices l) ∧ Forall (Z.lt k) (message_indices l) ∧
  recent_of ud' = last_n 8 (recent_of ud ++ (es ≫= user_text)).
Proof.
  revert ud k l. induction es as [|e es IH]; intros ud k l Hk Hlen; simpl.
  { intros [= <- <-]. rewrite app_nil_r, last_n_all by done. by repeat constructor. }
  destruct (on_event ud e) as [[ud1 l1]|] eqn:E; [|done]. cbn [exn_bind fst snd].
  destruct (on_events ud1 es) as [[ud2 l2]|] eqn:E2; [|done]. intros [= <- <-].
  apply (on_event_spec ud k) in E as [(k' & Hk' & Hle & Hi) Hr]; [|done..]. simpl in *.
  assert (length (recent_of ud1) ≤ 8)%nat as Hlen1 by (rewrite Hr; apply last_n_le).
  destruct (IH ud1 k' l2 Hk' Hlen1 E2) as (Hs & Hf & Hr2).
  rewrite indices_app, Hr2, Hr, last_n_app_trim, app_assoc. split; [|split; [|done]].
  - destruct Hi as [->|[-> ->]]; [done|]. simpl. constructor; [done|exact Hf].
  - apply Forall_app. split; [destruct Hi as [->|[-> ->]]; repeat constructor; lia|].
    eapply Forall_impl; [exact Hf|]. intros x ?. lia.
Qed.
End session.

(** ** Tickets *)

(** A ticket that is asked for has a title that is not empty and fits, and a description. *)
Theorem fallback_summary_bounds ud :
  let '(title, description) := _fallback_ticket_summary ud in
  2 ≤ slen title ≤ 255 ∧ description ≠ [].
Proof.
  unfold _fallback_ticket_summary. cbv zeta.
  assert (∀ s d : str, d ≠ [] → or_else s d ≠ []) as Hor by (by intros [] ? ?).
  destruct (contains _ _); [split; [by vm_compute|by apply Hor]|].
  destruct (_ || _); [split; [by vm_compute|by apply Hor]|].
  set (t := or_else (py_strip _) SUPPORT_REQUEST). split; [|by apply Hor, Hor].
  destruct (slen t <? 2) eqn:E; [by vm_compute|]. unfold slen in *. rewrite length_take. lia.
Qed.

Section turn.
Context (netloc_ok : str → bool) (env0 env : environ) (room : str).
(** The answers of the services, by the number of the request. *)
Context (answer : nat → exn reply).

(** A claim from the task's start to its end. *)
Definition settle_claim (n : nat) (ud : dict) (message : str) : list request * dict :=
  match claim_call netloc_ok env0 env ud message with
  | Ok (Some (turn, c)) =>
      let '(rs, out) := perform answer n c in
      (rs, match out with Ok result => claim_recorded ud turn result | Raise _ => ud end)
  | _ => ([], ud)
  end.

(** What can make a ticket in a turn. *)
Inductive ticket_step : Type := ByTool (a : ticket_args) | ByClaim (message : str).

Definition ticket_step_run (n : nat) (ud : dict) (s : ticket_step) : list request * dict :=
  match s with
  | ByTool a => ask_once netloc_ok env0 env room answer n ud a
  | ByClaim message => settle_claim n ud message
  end.

(** One schedule of a turn: the tools and claims one after the other, each to its end.  (The program
    runs a claim as a task that later ones may overtake.) *)
Fixpoint turn_run (n : nat) (ud : dict) (l : list ticket_step) : list request * dict :=
  match l with
  | [] => ([], ud)
  | s :: l =>
      let '(rs, ud) := ticket_step_run n ud s in
      let '(rest, ud) := turn_run (n + length rs) ud l in (rs ++ rest, ud)
  end.

(** A ticket was made in turn [t], which is the current one. *)
Definition settled (t : Z) (ud : dict) : Prop := int_get "last_create_ticket_success_turn" (-1) ud = Ok t.

Definition in_turn (t : Z) (ud : dict) : Prop := int_get "turn_index" 0 ud = Ok t.

Lemma settled_no_claim t n ud m : in_turn t ud → settled t ud → settle_claim n ud m = ([], ud).
Proof.
  intros Ht Hs. unfold settle_claim, claim_call, unsettled_claim. destruct (py_iter _) as [l|]; [|done]. cbn [exn_bind].
  destruct (negb _); [done|]. rewrite Ht, Hs. cbn [exn_bind]. by rewrite Z.eqb_refl.
Qed.

Lemma recorded_settled t ud d ud' :
  in_turn t ud → recorded ud d = Ok ud' → in_turn t ud' ∧ (settled t ud ∨ is_failed d = false → settled t ud').
Proof.
  intros Ht H. split; [by eapply recorded_turn|]. unfold recorded in H. destruct (is_failed d).
  { injection H as <-. by intros [?|?]. }
  rewrite Ht in H. cbn [exn_bind] in H. injection H as <-. intros _. unfold settled.
  rewrite int_get_dset_ne by (apply str_eqb_false; by vm_compute). unfold int_get. by rewrite dget_dset_eq.
Qed.

Lemma claim_recorded_settled t ud d :
  in_turn t ud → in_turn t (claim_recorded ud t d) ∧ (settled t ud ∨ claim_refused d = false → settled t (claim_recorded ud t d)).
Proof.
  intros Ht. unfold claim_recorded. destruct (claim_refused d); [split; [done|]; by intros [?|?]|].
  split; [unfold in_turn; by rewrite !int_get_dset_ne by (apply str_eqb_false; by vm_compute)|]. intros _. unfold settled.
  rewrite int_get_dset_ne by (apply str_eqb_false; by vm_compute). unfold int_get. by rewrite dget_dset_eq.
Qed.

Lemma claim_turn t ud m turn c : in_turn t ud → claim_call netloc_ok env0 env ud m = Ok (Some (turn, c)) →
  turn = t ∧ asks_once c.
Proof.
  intros Ht. unfold claim_call. destruct (unsettled_claim ud m) as [[turn'|]|] eqn:E; [|done..]. cbn [exn_bind].
  destruct (_fallback_ticket_summary ud) as [title description].
  destruct (_tool_metadata_from_userdata env0 ud) as [md|]; [|done]. cbn [exn_bind]. intros [= <- <-].
  split; [|apply ticket_asks]. unfold unsettled_claim in E. destruct (py_iter _); [|done]. cbn [exn_bind] in E.
  destruct (negb _); [done|]. rewrite Ht in E. destruct (int_get "last_create_ticket_success_turn" _ ud); [|done].
  cbn [exn_bind] in E. injection E as E. repeat (case_match; try done). congruence.
Qed.

Lemma success_settles d : claim_refused (success d) = false.
Proof. unfold claim_refused, success. by rewrite dget_or_none_dset_eq. Qed.

(** A step keeps the turn and its ticket, sends one request at most, and the ticket that the
    service made is kept. *)
Lemma step_settles t n ud s rs ud' :
  in_turn t ud → ticket_step_run n ud s = (rs, ud') →
  in_turn t ud' ∧ (settled t ud → settled t ud') ∧ (rs = [] ∨ length rs = 1%nat ∧ (ticket_made (answer n) = true → settled t ud')).
Proof.
  intros Ht. destruct s as [a|m]; simpl.
  - intros [Hud Hrs]%(ask_once_cases netloc_ok env0 env room answer n ud a t); [|done].
    assert (in_turn t ud' ∧ (settled t ud → settled t ud')) as [H1 H2].
    { destruct Hud as [->|[d Hd]]; [done|]. apply (recorded_settled t) in Hd as [? Hd]; auto. }
    split; [done|]. split; [done|]. destruct Hrs as [->|[Hl Hm]]; [by left|]. right. split; [done|].
    unfold ticket_made. destruct (answer n) as [[code [[| | | | | |o]|]| |]|] eqn:Ea; try done. intros Hc.
    specialize (Hm code o eq_refl). apply (recorded_settled t) in Hm as [_ Hm]; [|done|lia].
    apply Hm. right. apply success_not_failed.
  - unfold settle_claim. destruct (claim_call _ _ _ ud m) as [[[turn c]|]|] eqn:E; [|intros [= <- <-]; auto..].
    apply (claim_turn t) in E as [-> Hc]; [|done]. destruct c as [d|e|r k]; simpl in *.
    + intros [= <- <-]. destruct (claim_recorded_settled t ud d Ht). auto.
    + intros [= <- <-]. auto.
    + specialize (Hc (answer n)). destruct (k (answer n)) as [d|e|]; simpl; [| |done]; intros [= <- <-].
      * destruct (claim_recorded_settled t ud d Ht) as [H1 H2]. split; [done|]. split; [auto|]. right. split; [done|].
        unfold ticket_made in *. destruct (answer n) as [[code [[| | | | | |o]|]| |]|] eqn:Ea; try done. intros Hm.
        destruct Hc as [[Hf| ->] Hno]; [apply Hno in Hf; simpl in *; congruence|].
        apply H2. right. apply success_settles.
      * split; [done|]. split; [done|]. right. split; [done|]. simpl in Hc. congruence.
Qed.

Lemma turn_settles t l n ud rs ud' :
  in_turn t ud → turn_run n ud l = (rs, ud') →
  in_turn t ud' ∧ (settled t ud → settled t ud') ∧
  ∀ i, (i < length rs)%nat → ticket_made (answer (n + i)) = true → settled t ud'.
Proof.
  revert n ud rs. induction l as [|s l IH]; intros n ud rs Ht; simpl.
  { intros [= <- <-]. split; [done|]. split; [done|]. simpl. intros i Hi. lia. }
  destruct (ticket_step_run n ud s) as [rs0 ud0] eqn:E0. destruct (turn_run _ ud0 l) as [rs1 ud1] eqn:E1.
  intros [= <- <-]. apply (step_settles t) in E0 as (Ht0 & Hkeep & Hrs); [|done].
  apply IH in E1 as (Ht1 & Hkeep1 & Hmade); [|done]. split; [done|]. split; [auto|]. intros i Hi Hm.
  rewrite length_app in Hi. destruct Hrs as [->|[Hl Hrs]].
  - apply (Hmade i); simpl in *; [lia|]. by rewrite Nat.add_0_r.
  - rewrite Hl in *. destruct i as [|i]; [rewrite Nat.add_0_r in Hm; auto|].
    apply (Hmade i); [lia|]. by rewrite <-Nat.add_assoc.
Qed.

(** Where each claim is settled before the next step: once the service made a ticket for a tool or a
    claim of the turn, a claim of the agent to have made one sends nothing and leaves the
    session as it is.  Claims run in tasks of their own and can overlap, which this does not
    cover, see [claims_race]. *)
Theorem claim_after_ticket_silent t l n ud rs ud' i message :
  in_turn t ud → turn_run n ud l = (rs, ud') → (i < length rs)%nat → ticket_made (answer (n + i)) = true →
  settle_claim (n + length rs) ud' message = ([], ud').
Proof.
  intros Ht Hrun Hi Hm. apply (turn_settles t) in Hrun as (H1 & _ & H2); [|done].
  apply (settled_no_claim t); [done|by eapply H2].
Qed.
End turn.

(** ** Instances *)

Definition claim_session : dict := session ["create_ticket"].

Definition claim_run (answer : nat → exn reply) (ud : dict) (l : list ticket_step) : nat :=
  length (turn_run (λ _, true) agent_env agent_env [] answer 0 ud l).1.

Definition all_made (n : nat) : exn reply := made "Leak".

(** The agent says that there is no ticket, and one is made. *)
Example denial_makes_ticket :
  claim_run all_made claim_session [ByClaim (lit "No ticket has been created yet.")] = 1%nat.
Proof. by vm_compute. Qed.

(** Speaking of the ticket in the turn after it was made makes another one. *)
Example confirmed_again :
  claim_run all_made claim_session [ByTool (ticket_of "Leak"); ByClaim (lit "The ticket has been created.")] = 1%nat ∧
  let ud := (turn_run (λ _, true) agent_env agent_env [] all_made 0 claim_session [ByTool (ticket_of "Leak")]).2 in
  claim_run all_made (dset (lit "turn_index") (JInt 4) ud) [ByClaim (lit "As I said, the ticket has been created.")] = 1%nat.
Proof. by vm_compute. Qed.

(** Two claims whose tasks both began before either was answered: each makes a ticket. *)
Example claims_race :
  let begun := claim_call (λ _, true) agent_env agent_env claim_session in
  ∀ m, m ∈ [lit "I created a ticket for you."; lit "The ticket has been created."] →
    match begun m with Ok (Some (_, Send _ _)) => True | _ => False end.
Proof. intros begun m Hm. apply elem_of_cons in Hm as [->|Hm%list_elem_of_singleton]; [|subst m]; by vm_compute. Qed.

(** The tools' results come as text: a refusal counts as a ticket, so that the claim that
    follows makes none, *)
Definition refusal : str * json * json := (lit "create_ticket", JNull, JStr (lit "{'status': 'failed'}")).

Example refusal_counts :
  let run calls :=
    match _on_function_tools_executed agent_env claim_session calls with
    | Ok r => claim_run all_made r.1 [ByClaim (lit "I created a ticket for you.")]
    | Raise _ => O
    end in
  run [] = 1%nat ∧ run [refusal] = O.
Proof. by vm_compute. Qed.

(** and a ticket that was made is forgotten, so that the same is asked for again. *)
Example ticket_forgotten :
  let ud := (ask_all (λ _, true) agent_env agent_env [] all_made 0 claim_session [ticket_of "Leak"]).2 in
  let again ud := length (ask_all (λ _, true) agent_env agent_env [] all_made 0 ud [ticket_of "Leak"]).1 in
  again ud = O ∧
  match _on_function_tools_executed agent_env ud [(lit "create_ticket", JNull, JStr (lit "{'title': 'Leak'}"))] with
  | Ok r => again r.1 = 1%nat
  | Raise _ => False
  end.
Proof. by vm_compute. Qed.

Lemma claim_after_ticket_silent_witness :
  ∃ rs ud, turn_run (λ _, true) agent_env agent_env [] all_made 0 claim_session
      [ByTool (ticket_of "Leak")] = (rs, ud) ∧ length rs = 1%nat ∧
    settle_claim (λ _, true) agent_env agent_env all_made 1 ud (lit "I created a ticket for you.") = ([], ud).
Proof.
  assert (length (turn_run (λ _, true) agent_env agent_env [] all_made 0 claim_session [ByTool (ticket_of "Leak")]).1 = 1%nat)
    as Hl by (vm_compute; reflexivity).
  destruct (turn_run _ _ _ _ _ _ _ _) as [rs ud] eqn:E. simpl in Hl. exists rs, ud. split; [reflexivity|]. split; [exact Hl|].
  rewrite <-Hl. apply (claim_after_ticket_silent _ _ _ [] all_made 3 [ByTool (ticket_of "Leak")] 0 claim_session rs ud 0).
  - vm_compute. reflexivity.
  - exact E.
  - rewrite Hl. lia.
  - vm_compute. reflexivity.
Defined.

Definition ticket_claim : session_event := Added (JStr (lit "assistant")) (JStr (lit "I created a ticket.")).

Lemma session_remembers_witness :
  ∃ ud l, on_events agent_env (λ _, true) claim_session
      [Heard (JStr (lit "The tap leaks")) true; Added (JStr (lit "user")) (JStr (lit "The tap leaks")); ticket_claim] = Ok (ud, l)
    ∧ recent_of ud = [JStr (lit "The tap leaks")].
Proof.
  destruct (on_events agent_env (λ _, true) claim_session
    [Heard (JStr (lit "The tap leaks")) true; Added (JStr (lit "user")) (JStr (lit "The tap leaks")); ticket_claim])
    as [[ud l]|e] eqn:E; [|exfalso; vm_compute in E; discriminate E].
  exists ud, l. split; [reflexivity|].
  apply (session_remembers agent_env (λ _, true) claim_session 0) in E.
  - exact (eq_trans (proj2 (proj2 E)) eq_refl).
  - vm_compute. reflexivity.
  - vm_compute. apply Nat.le_0_l.
Defined.
