(* ===== verification/DynamicTools.v ===== *)
(** * The tools of an agent's configuration: agent/dynamic_tools.py

    Each tool record of the configuration becomes a tool of the model: its arguments are
    checked against the schema of the record, and one request goes to the address of the
    record.  The client follows redirections: which request it makes for an answer is its own
    affair and a parameter, as is the outcome of the last one. *)
From stdpp Require Import base list strings.
From Stdlib Require Import ZArith Lia.
From S2P Require Import Prelude Pystr Json Url ToolSchema OpsApi SalonAgent.

(** ** Schemas *)

Definition _active_tool_records (active_agent_config : dict) : list dict :=
  match active_agent_config.[lit "tools"] with
  | JArr l => omap (λ t, match t with JObj d => Some d | _ => None end) l
  | _ => []
  end.

(** One property of the schema of a tool that has none. *)
Definition described (name ty description : String.string) : str * json :=
  (lit name, JObj [(lit "type", JStr (lit ty)); (lit "description", JStr (lit description))]).

Definition default_schema : dict :=
  [(lit "type", JStr (lit "object"));
   (lit "properties", JObj
     [described "query" "string" "General lookup text or the specific thing the caller wants checked.";
      described "item_name" "string" "Item name to look up or order.";
      described "product_name" "string" "Product name to look up or order.";
      described "service_name" "string" "Service or offering name when the endpoint is service-based.";
      described "quantity" "integer" "How many units the caller wants.";
      described "customer_name" "string" "Customer or guest name tied to the request.";
      described "customer_identifier" "string" "Customer email, phone, or business-specific identifier if relevant.";
      described "check_in_date" "string" "Check-in or start date when the request is date-based.";
      described "check_out_date" "string" "Check-out or end date when the request is date-based.";
      described "guest_count" "integer" "Guest count when the request is for bookings or reservations.";
      described "notes" "string" "Extra details that should be sent with the request."]);
   (lit "additionalProperties", JBool true)].

Definition complete_schema (d : dict) : dict :=
  let d := if py_lower (str_strip d.[lit "type"]) =s lit "object" then d
           else dset (lit "type") (JStr (lit "object")) d in
  let d := match d.[lit "properties"] with JObj _ => d | _ => dset (lit "properties") (JObj []) d end in
  let d := if dhas (lit "additionalProperties") d then d else dset (lit "additionalProperties") (JBool true) d in
  dset (lit "required")
    (JArr match d.[lit "required"] with
          | JArr l => map JStr (List.filter (λ f, negb (is_nil f)) (map (λ f, py_strip (py_str f)) l))
          | _ => []
          end) d.

(** ** Checking arguments *)

(** [item_schema] is the schema of the elements, for a list. *)
Fixpoint _value_matches_type (value : json) : json → json → bool :=
  fix matches (expected item_schema : json) : bool :=
    match expected with
    | JArr alternatives => existsb (λ e, matches e item_schema) alternatives
    | JStr ty =>
        if ty =s lit "string" then is_str value
        else if ty =s lit "integer" then match value with JInt _ => true | _ => false end
        else if ty =s lit "number" then match value with JInt _ | JFloat _ => true | _ => false end
        else if ty =s lit "boolean" then match value with JBool _ => true | _ => false end
        else if ty =s lit "object" then is_dict value
        else if ty =s lit "array" then
          match value with
          | JArr l =>
              match item_schema with
              | JObj d => forallb (λ v, _value_matches_type v d.[lit "type"] d.[lit "items"]) l
              | _ => true
              end
          | _ => false
          end
        else if ty =s lit "null" then match value with JNull => true | _ => false end
        else true
    | _ => true
    end.

(** [raw.get(field) in ("", None)] *)
Definition absent (raw : dict) (field : str) : bool :=
  match raw.[field] with JNull | JStr [] => true | _ => false end.

Definition required_fields (schema : dict) : list str :=
  match schema.[lit "required"] with JArr l => omap (λ f, match f with JStr s => Some s | _ => None end) l | _ => [] end.

Definition properties_of (schema : dict) : dict := match schema.[lit "properties"] with JObj ps => ps | _ => [] end.

(** What is wrong with one argument. *)
Definition check_argument (schema : dict) (key : str) (value : json) : option str :=
  match (properties_of schema).[key] with
  | JNull => if is_false (default (JBool true) (dget (lit "additionalProperties") schema))
             then Some (lit "Unexpected field: " ++ key ++ lit ".") else None
  | JObj d =>
      if truthy d.[lit "type"] && negb (_value_matches_type value d.[lit "type"] d.[lit "items"])
      then Some (lit "Field '" ++ key ++ lit "' has the wrong type.")
      else match d.[lit "enum"] with
           | JArr (_ :: _ as values) =>
               if existsb (py_eq value) values then None
               else Some (lit "Field '" ++ key ++ lit "' must be one of: " ++ py_join (lit ", ") (map py_str values) ++ lit ".")
           | _ => None
           end
  | _ => None
  end.

Fixpoint check_arguments (schema raw : dict) : option str :=
  match raw with
  | [] => None
  | (key, value) :: raw =>
      match check_argument schema key value with Some e => Some e | None => check_arguments schema raw end
  end.

Definition _validate_arguments (schema : dict) (raw_arguments : json) : option str :=
  match raw_arguments with
  | JObj raw =>
      match List.filter (absent raw) (required_fields schema) with
      | [] => check_arguments schema raw
      | missing => Some (lit "Missing required fields: " ++ py_join (lit ", ") (py_sorted missing) ++ lit ".")
      end
  | _ => Some (lit "Tool arguments must be sent as a JSON object.")
  end.

(** ** Requests *)

(** [d.update(e)] *)
Definition updated (d e : list (str * str)) : list (str * str) := fold_left (λ d kv, dset kv.1 kv.2 d) e d.

Definition _metadata_headers (metadata : dict) (tool_name : str) : list (str * str) :=
  List.filter (λ kv, negb (is_nil kv.2))
    [(lit "X-Tool-Name", tool_name); (lit "X-Client-Id", str_or_empty metadata.[lit "client_id"]);
     (lit "X-Agent-Id", str_or_empty metadata.[lit "agent_id"]);
     (lit "X-Business-Id", str_or_empty metadata.[lit "business_id"]);
     (lit "X-Conversation-Id", str_or_empty metadata.[lit "conversation_id"]);
     (lit "X-Session-Id", str_or_empty metadata.[lit "session_id"]);
     (lit "X-End-User-Id", str_or_empty metadata.[lit "end_user_id"])].

Definition BODILESS : list str := [lit "GET"; lit "DELETE"; lit "HEAD"].
Definition HTTP_TOOL_ALLOWED_METHODS : list str := BODILESS ++ [lit "POST"; lit "PUT"; lit "PATCH"].

Definition _custom_headers (tool : dict) (method : str) : list (str * str) :=
  let base := (lit "Accept", lit "application/json") ::
              (if in_strs method BODILESS then [] else [(lit "Content-Type", lit "application/json")]) in
  match tool.[lit "headers"] with
  | JObj raw => updated base (omap (λ kv, match py_strip kv.1 with [] => None | name => Some (name, py_str kv.2) end) raw)
  | _ => base
  end.

(** Characters whose upper case is made of ASCII letters; others only occur in the text of an
    error. *)
Definition upper_letters (c : Z) : str :=
  if (97 <=? c) && (c <=? 122) then [c - 32]
  else if c =? 305 then lit "I" else if c =? 383 then lit "S" else if c =? 223 then lit "SS"
  else if c =? 64256 then lit "FF" else if c =? 64257 then lit "FI" else if c =? 64258 then lit "FL"
  else if c =? 64259 then lit "FFI" else if c =? 64260 then lit "FFL"
  else if (c =? 64261) || (c =? 64262) then lit "ST" else [c].

(** [str(tool.get("method") or "POST").strip().upper() or "POST"] *)
Definition method_of (tool : dict) : str :=
  or_else (py_strip (py_str (jor tool.[lit "method"] (JStr (lit "POST")))) ≫= upper_letters) (lit "POST").

Definition is_http (url : str) : bool := starts_with (lit "http://") url || starts_with (lit "https://") url.

Record http_response := mkResponse {
  status_code : Z;
  content_type : str;
  response_text : str;
  response_json : exn json;
}.

(** The client's answer: a response, no response in time, or a failure with its text. *)
Inductive outcome : Type := Response (r : http_response) | TimedOut | Unreachable (text : str) | Broken (e : pyexc).

Definition _response_payload (r : http_response) : exn json :=
  if contains (lit "application/json") (py_lower (content_type r)) then
    match response_json r with
    | Raise (ValueError _) => Ok (JStr (response_text r))
    | x => x
    end
  else Ok (JStr (response_text r)).

(** [d.setdefault(k, v)] *)
Definition set_default (k : String.string) (v : json) (d : dict) : dict := if dhas (lit k) d then d else dset (lit k) v d.

Definition _success_payload (tool_name : str) (code : Z) (payload : json) : dict :=
  match payload with
  | JObj d => set_default "http_status" (JInt code) (set_default "tool_name" (JStr tool_name)
                (set_default "status" (JStr (lit "success")) d))
  | _ => [(lit "status", JStr (lit "success")); (lit "tool_name", JStr tool_name);
          (lit "http_status", JInt code); (lit "data", payload)]
  end.

Definition _failure_payload (tool_name message : str) (http_status : option Z) (detail : json) : dict :=
  [(lit "status", JStr (lit "failed")); (lit "tool_name", JStr tool_name); (lit "message", JStr message)]
  ++ (match http_status with Some code => [(lit "http_status", JInt code)] | None => [] end)
  ++ (match detail with JNull | JStr [] => [] | _ => [(lit "detail", detail)] end).

Definition NOT_NOW : str := lit "I couldn't complete that request right now.".

(** The output for what the client answered. *)
Definition read_outcome (tool_name : str) (o : outcome) : exn dict :=
  match o with
  | TimedOut => Ok (_failure_payload tool_name NOT_NOW None (JStr (lit "Tool request timed out.")))
  | Unreachable text => Ok (_failure_payload tool_name NOT_NOW None (JStr text))
  | Broken e => Raise e
  | Response r =>
      do! payload := _response_payload r in
      Ok (if 400 <=? status_code r
          then _failure_payload tool_name NOT_NOW (Some (status_code r))
                 (match payload with JObj _ => payload | v => JStr (py_strip (py_str v)) end)
          else _success_payload tool_name (status_code r) payload)
  end.

Section dynamic.
Context (netloc_ok : str → bool) (env0 env : environ)
  (** The HTTP client: the request it makes for the [n]th answer, if that is a redirection; and
      what becomes of a request in the end. *)
  (redirection : nat → http_request → option http_request) (client_outcome : http_request → outcome).

Definition _use_strict_tool_schemas : bool :=
  py_lower (py_strip (or_else (getenv env (lit "LLM_PROVIDER") []) (lit "google"))) =s lit "groq".

Definition strictly (d : dict) : dict :=
  if _use_strict_tool_schemas then dict_of (strictify_schema_for_groq (JObj d)) else d.

Definition _normalize_schema (schema : json) : dict :=
  match schema with JObj d => strictly (complete_schema d) | _ => strictly default_schema end.

(** *** Origins *)

(** [parsed.hostname] and [parsed.port] of the host information: what follows the last [@]. *)
Definition host_info (netloc : str) : str * str :=
  let info := drop (match userinfo netloc with Some u => S (length u) | None => O end) netloc in
  match cut_at (Z.eqb 91) info with
  | (_, Some bracketed) =>
      let '(host, rest) := cut_at (Z.eqb 93) bracketed in
      (host, default [] (snd (cut_at (Z.eqb 58) (default [] rest))))
  | (_, None) => let '(host, port) := cut_at (Z.eqb 58) info in (host, default [] port)
  end.

(** In lower case, but for the zone of an address. *)
Definition hostname (host : str) : str :=
  match cut_at (Z.eqb 37) host with
  | (h, Some zone) => py_lower h ++ [37] ++ zone
  | (h, None) => py_lower h
  end.

Definition port_number (port : str) : exn (option Z) :=
  match port with
  | [] => Ok None
  | _ => if forallb (λ c, (48 <=? c) && (c <=? 57)) port then
           match int_of_str port with
           | Some n => if n <=? 65535 then Ok (Some n) else Raise (ValueError (lit "Port out of range 0-65535"))
           | None => Raise (ValueError (lit "Port could not be cast to integer value"))
           end
         else Raise (ValueError (lit "Port could not be cast to integer value"))
  end.

Definition _normalized_origin (raw_url : str) : option (str * str * Z) :=
  match urlsplit netloc_ok (py_strip raw_url) with
  | Raise _ => None
  | Ok u =>
      let scheme := py_lower (url_scheme u) in
      let '(host, port) := host_info (url_netloc u) in
      let name := py_lower (hostname host) in
      if negb (in_strs scheme [lit "http"; lit "https"]) || is_nil name then None
      else match port_number port with
           | Raise _ => None
           | Ok p => Some (scheme, name, match p with
                                         | Some n => if n =? 0 then (if scheme =s lit "https" then 443 else 80) else n
                                         | None => if scheme =s lit "https" then 443 else 80
                                         end)
           end
  end.

Definition conversation_token : str := py_strip (getenv env (lit "CONVERSATION_SERVICE_TOKEN") []).

Definition _conversation_service_auth_headers (url : str) : list (str * str) :=
  match _normalized_origin (getenv env (lit "CONVERSATION_API_BASE_URL") []) with
  | Some configured =>
      if negb (is_nil conversation_token) && bool_decide (_normalized_origin url = Some configured)
      then [(TOKEN, conversation_token); (lit "X-Service-Name", lit "sales-girl-voice-agent")] else []
  | None => []
  end.

(** *** Calls *)

(** The headers of the record, of the service if it is asked, and of the session: later ones
    count. *)
Definition tool_headers (tool metadata : dict) (url tool_name : str) : list (str * str) :=
  updated (updated (_custom_headers tool (method_of tool)) (_conversation_service_auth_headers url))
    (_metadata_headers metadata tool_name).

(** What is done before the client is called: an output without a request, or the request. *)
Definition dynamic_request (tool raw_arguments metadata : dict) : dict + http_request :=
  let tool_name := or_else (str_strip tool.[lit "name"]) (lit "dynamic_tool") in
  let method := method_of tool in
  let url := str_strip tool.[lit "url"] in
  match _validate_arguments (_normalize_schema tool.[lit "request_schema"]) (JObj raw_arguments) with
  | Some error =>
      inl (_failure_payload tool_name (lit "I couldn't complete that request with the information provided.") None (JStr error))
  | None =>
      if negb (in_strs method HTTP_TOOL_ALLOWED_METHODS)
      then inl (_failure_payload tool_name NOT_NOW None (JStr (lit "Unsupported HTTP method: " ++ method)))
      else if negb (is_http url)
      then inl (_failure_payload tool_name NOT_NOW None (JStr (lit "Tool endpoint must use http or https.")))
      else
        let headers := tool_headers tool metadata url tool_name in
        inr (if in_strs method BODILESS then mkHttp method url None raw_arguments headers
             else mkHttp method url (Some raw_arguments) [] headers)
  end.

(** [AsyncClient(follow_redirects=True).request(..)]: the request, and those that the client makes
    for the redirections that answer them; it gives up after twenty. *)
Fixpoint client_requests (fuel n : nat) (h : http_request) : list http_request :=
  h :: match fuel with
       | O => []
       | S fuel => match redirection n h with Some h' => client_requests fuel (S n) h' | None => [] end
       end.
Definition MAX_REDIRECTS : nat := 20.

(** The requests that are made, and the output. *)
Definition invoke_dynamic_http_tool (tool raw_arguments metadata : dict) : list http_request * exn dict :=
  match dynamic_request tool raw_arguments metadata with
  | inl output => ([], Ok output)
  | inr h => (client_requests MAX_REDIRECTS 0 h,
              read_outcome (or_else (str_strip tool.[lit "name"]) (lit "dynamic_tool")) (client_outcome h))
  end.

(** A tool that the model can call. *)
Record model_tool := mkTool { tool_label : str; tool_description : str; tool_parameters : dict; tool_record : dict }.

Definition dynamic_tool (excluded : list str) (tool : dict) : option model_tool :=
  let name := str_strip tool.[lit "name"] in
  let description := collapse_ws (str_or_empty tool.[lit "description"]) in
  if is_nil name || in_strs name excluded || is_nil description || negb (is_http (str_strip tool.[lit "url"])) then None
  else Some (mkTool name
    (description ++ lit " When you call this tool, send the relevant request fields as top-level JSON keys.")
    (_normalize_schema tool.[lit "request_schema"]) tool).

Definition build_dynamic_http_tools (active_agent_config : dict) (excluded_tool_names : list json) : list model_tool :=
  omap (dynamic_tool (map str_strip excluded_tool_names)) (_active_tool_records active_agent_config).

(** [_call_dynamic_http_tool] *)
Definition call_dynamic_tool (ctx : run_context) (t : model_tool) (raw_arguments : json) : list http_request * exn dict :=
  let current_name := str_strip (tool_record t).[lit "name"] in
  if negb (_is_tool_enabled ctx current_name)
  then ([], Ok (_failure_payload current_name (lit "I can't use that tool from this agent right now.") None JNull))
  else
    match _tool_metadata env0 ctx with
    | Raise e => ([], Raise e)
    | Ok metadata => invoke_dynamic_http_tool (tool_record t) (dict_of raw_arguments) metadata
    end.

(** ** What is sent *)

Lemma updated_keeps k d e : Forall (λ kv, kv.1 ≠ k) e → dget k (updated d e) = dget k d.
Proof.
  unfold updated. revert d. induction e as [|[k' v] e IH]; intros d H; simpl; [done|].
  inversion H as [|? ? H1 H2]; subst. rewrite IH by done. apply dget_dset_ne. simpl in H1. congruence.
Qed.

Lemma metadata_no_token md name : Forall (λ kv, kv.1 ≠ TOKEN) (_metadata_headers md name).
Proof.
  apply Forall_forall. intros kv H. apply list_elem_of_In, filter_In in H as [H _]. apply list_elem_of_In in H.
  revert H. rewrite !elem_of_cons. intros [->|[->|[->|[->|[->|[->|[->|H]]]]]]];
    try (intros E; vm_compute in E; discriminate E). by apply not_elem_of_nil in H.
Qed.

(** What a request that is sent was made of. *)
Lemma invoked tool raw_arguments metadata h :
  dynamic_request tool raw_arguments metadata = inr h →
  _validate_arguments (_normalize_schema tool.[lit "request_schema"]) (JObj raw_arguments) = None ∧
  in_strs (method h) HTTP_TOOL_ALLOWED_METHODS = true ∧ is_http (url h) = true ∧
  headers h = tool_headers tool metadata (url h) (or_else (str_strip tool.[lit "name"]) (lit "dynamic_tool")) ∧
  (json_body h = Some raw_arguments ∧ query h = [] ∨ json_body h = None ∧ query h = raw_arguments).
Proof.
  unfold dynamic_request. cbv zeta. destruct (_validate_arguments _ _); [done|].
  destruct (negb (in_strs _ _)) eqn:Em; [done|]. destruct (negb (is_http _)) eqn:Eh; [done|].
  apply negb_false_iff in Em, Eh. intros H. split; [done|]. destruct (in_strs _ BODILESS); injection H as <-; cbn; auto 10.
Qed.

Lemma requested_at tool raw_arguments metadata h :
  dynamic_request tool raw_arguments metadata = inr h → url h = str_strip tool.[lit "url"].
Proof.
  unfold dynamic_request. cbv zeta. destruct (_validate_arguments _ _); [done|].
  destruct (negb (in_strs _ _)); [done|]. destruct (negb (is_http _)); [done|].
  by destruct (in_strs _ BODILESS); intros [= <-].
Qed.

(** The token on the request itself. *)
Lemma first_token tool raw_arguments metadata h token :
  dynamic_request tool raw_arguments metadata = inr h → dget TOKEN (headers h) = Some token →
  dget TOKEN (_custom_headers tool (method_of tool)) = Some token ∨
  token = conversation_token ∧ is_Some (_normalized_origin (url h)) ∧
    _normalized_origin (url h) = _normalized_origin (getenv env (lit "CONVERSATION_API_BASE_URL") []).
Proof.
  intros (_ & _ & _ & -> & _)%invoked. unfold tool_headers. rewrite updated_keeps by apply metadata_no_token.
  unfold _conversation_service_auth_headers. destruct (_normalized_origin (getenv _ _ _)) as [o|]; [|by left].
  destruct (negb (is_nil conversation_token) && _) eqn:E; [|by left].
  apply andb_prop in E as [_ E%bool_decide_eq_true]. unfold updated at 1. cbn [fold_left fst snd].
  rewrite dget_dset_ne by (apply str_eqb_false; by vm_compute). rewrite dget_dset_eq. intros [= <-]. right.
  split; [done|]. rewrite E. by split; [eexists|].
Qed.

(** A client that puts no token of its own on a redirected request: the headers of such a request are
    those of the redirected one, less some. *)
Definition redirects_add_no_token : Prop :=
  ∀ n h h' token, redirection n h = Some h' → dget TOKEN (headers h') = Some token → dget TOKEN (headers h) = Some token.

Lemma client_tokens fuel n h h' token :
  redirects_add_no_token → h' ∈ client_requests fuel n h → dget TOKEN (headers h') = Some token →
  dget TOKEN (headers h) = Some token.
Proof.
  intros Hr. revert n h. induction fuel as [|fuel IH]; intros n h; cbn [client_requests].
  - by intros ->%list_elem_of_singleton.
  - intros [->|Hin]%elem_of_cons Ht; [done|]. destruct (redirection n h) as [h1|] eqn:E.
    + eapply Hr; [exact E|]. by eapply IH.
    + by apply not_elem_of_nil in Hin.
Qed.

(** The requests of one invocation: the first was made from the record, the others for it. *)
Lemma invocation tool raw_arguments metadata hs out :
  invoke_dynamic_http_tool tool raw_arguments metadata = (hs, out) →
  hs = [] ∨ ∃ h, dynamic_request tool raw_arguments metadata = inr h ∧ hs = client_requests MAX_REDIRECTS 0 h ∧ hs !! 0%nat = Some h.
Proof.
  unfold invoke_dynamic_http_tool. destruct (dynamic_request _ _ _) as [d|h]; intros [= <- _]; [by left|right; by exists h].
Qed.

(** C38: A request of a tool that the agent's configuration defines carries a service token only
    if the record itself gives it, or if it is the token of the conversation service and the
    address the tool was called at is of the configured service's origin, whatever the record and the
    model say.  Requests that the client makes for redirections are among those meant: they
    may go elsewhere with the token (see [token_redirected]), but only where an answer of the
    configured service, or of one it redirected to, sends them. *)
Theorem token_to_configured_origin tool raw_arguments metadata hs out h token :
  redirects_add_no_token →
  invoke_dynamic_http_tool tool raw_arguments metadata = (hs, out) → h ∈ hs → dget TOKEN (headers h) = Some token →
  dget TOKEN (_custom_headers tool (method_of tool)) = Some token ∨
  token = conversation_token ∧
    ∃ first, hs !! 0%nat = Some first ∧ url first = str_strip tool.[lit "url"] ∧ is_Some (_normalized_origin (url first)) ∧
      _normalized_origin (url first) = _normalized_origin (getenv env (lit "CONVERSATION_API_BASE_URL") []).
Proof.
  intros Hr Hi Hin Ht. destruct (invocation _ _ _ _ _ Hi) as [->|(first & Hd & Hhs & Hfirst)]; [by apply not_elem_of_nil in Hin|].
  subst hs. pose proof (client_tokens _ _ _ _ _ Hr Hin Ht) as Hf.
  destruct (first_token _ _ _ _ _ Hd Hf) as [H|(H1 & H2 & H3)]; [by left|right].
  split; [done|]. exists first. split; [done|]. split; [by apply requested_at in Hd|done].
Qed.

Lemma checked schema raw : check_arguments schema raw = None →
  Forall (λ kv, check_argument schema kv.1 kv.2 = None) raw.
Proof.
  induction raw as [|[k v] raw IH]; simpl; [by constructor|]. destruct (check_argument schema k v) eqn:E; [done|].
  intros H. constructor; [done|by apply IH].
Qed.

Lemma validated schema raw : _validate_arguments schema (JObj raw) = None →
  (∀ f, f ∈ required_fields schema → absent raw f = false) ∧ Forall (λ kv, check_argument schema kv.1 kv.2 = None) raw.
Proof.
  unfold _validate_arguments. destruct (List.filter _ _) as [|m l] eqn:E; [|done]. intros H%checked. split; [|done].
  intros f Hf. destruct (absent raw f) eqn:Ea; [|done].
  assert (f ∈ List.filter (absent raw) (required_fields schema)) as Hin.
  { apply list_elem_of_In, filter_In. by rewrite <-list_elem_of_In. }
  rewrite E in Hin. by apply not_elem_of_nil in Hin.
Qed.

Lemma complete_is_object d : schema_type (complete_schema d) = lit "object".
Proof.
  unfold complete_schema.
  assert (∀ k v d, lit k ≠ lit "type" → schema_type (dset (lit k) v d) = schema_type d) as Hset.
  { intros k v e Hk. unfold schema_type. by rewrite dget_or_none_dset_ne by auto. }
  rewrite Hset by (apply str_eqb_false; by vm_compute). cbv zeta.
  set (d1 := if _ =s lit "object" then d else _).
  assert (schema_type d1 = lit "object") as H1.
  { subst d1. destruct (_ =s lit "object") eqn:E; [by apply str_eqb_true in E|]. unfold schema_type. rewrite dget_or_none_dset_eq.
    by vm_compute. }
  set (d2 := match d1.[lit "properties"] with JObj _ => d1 | _ => _ end).
  assert (schema_type d2 = lit "object") as H2.
  { subst d2. destruct d1.[lit "properties"]; try done; by rewrite Hset by (apply str_eqb_false; by vm_compute). }
  destruct (dhas _ d2); [done|]. by rewrite Hset by (apply str_eqb_false; by vm_compute).
Qed.

(** A strict schema is closed. *)
Lemma strict_closed schema : _use_strict_tool_schemas = true →
  dget (lit "additionalProperties") (_normalize_schema schema) = Some (JBool false).
Proof.
  intros Hs. assert (∀ d, schema_type d = lit "object" →
    dget (lit "additionalProperties") (strictly d) = Some (JBool false)) as H.
  { intros d Hd. unfold strictly. rewrite Hs. cbn [dict_of strictify_schema_for_groq].
    assert (object_schema d = true) as -> by (unfold object_schema; by rewrite Hd, str_eqb_refl). apply dget_dset_eq. }
  assert (schema_type default_schema = lit "object") as Hdefault by by vm_compute.
  unfold _normalize_schema. destruct schema; apply H; [exact Hdefault..|apply complete_is_object].
Qed.

(** A request of a configured tool is sent only if the agent has the tool, with an allowed
    method to an address of the web, and with all the arguments that the schema requires, each
    of its type and among its values; in strict mode there are no others. *)
Theorem dynamic_call_checked ctx t raw_arguments h redirected out :
  call_dynamic_tool ctx t raw_arguments = (h :: redirected, out) →
  let schema := _normalize_schema (tool_record t).[lit "request_schema"] in
  let arguments := dict_of raw_arguments in
  _is_tool_enabled ctx (str_strip (tool_record t).[lit "name"]) = true ∧
  in_strs (method h) HTTP_TOOL_ALLOWED_METHODS = true ∧ is_http (url h) = true ∧
  (∀ f, f ∈ required_fields schema → absent arguments f = false) ∧
  Forall (λ kv, check_argument schema kv.1 kv.2 = None) arguments ∧
  (_use_strict_tool_schemas = true → ∀ k, k ∈ dkeys arguments → (properties_of schema).[k] ≠ JNull).
Proof.
  cbv zeta. unfold call_dynamic_tool. destruct (_is_tool_enabled _ _) eqn:Ee; [|done]. cbn [negb].
  destruct (_tool_metadata _ _) as [md|]; [|done].
  intros [[=]|(h' & (Hv & Hm & Hu & _ & _)%invoked & _ & [= <-])]%invocation.
  apply validated in Hv as [Hr Hc]. split; [done|]. split; [done|]. split; [done|]. split; [done|]. split; [done|].
  intros Hs k Hk Hnull. apply list_elem_of_fmap in Hk as ([k' v] & -> & Hin).
  rewrite Forall_forall in Hc. specialize (Hc _ Hin). simpl in *. unfold check_argument in Hc.
  rewrite Hnull, strict_closed in Hc by done. discriminate Hc.
Qed.
End dynamic.

(** ** Instances *)

Definition tool_env : environ := λ k,
  if k =s lit "CONVERSATION_API_BASE_URL" then Some (lit "https://conv.ng")
  else if k =s lit "CONVERSATION_SERVICE_TOKEN" then Some (lit "t0ken")
  else if k =s lit "LLM_PROVIDER" then Some (lit "groq") else None.

Definition stock_schema : json :=
  JObj [(lit "type", JStr (lit "object")); (lit "required", JArr [JStr (lit "sku")]);
        (lit "properties", JObj [(lit "sku", JObj [(lit "type", JStr (lit "string"))]);
                                 (lit "count", JObj [(lit "type", JArr [JStr (lit "integer"); JStr (lit "null")])])])].

Definition stock_tool (url : String.string) : dict :=
  [(lit "name", JStr (lit "stock")); (lit "description", JStr (lit "Stock of an item.")); (lit "url", JStr (lit url));
   (lit "method", JStr (lit "get")); (lit "request_schema", stock_schema)].

Definition stock_call (url : String.string) (arguments : dict) : dict + http_request :=
  dynamic_request (λ _, true) tool_env (stock_tool url) arguments [(lit "business_id", JStr (lit "b1"))].

Definition stock_arguments : dict := [(lit "sku", JStr (lit "a-1")); (lit "count", JNull)].

Definition token_of (r : dict + http_request) : option str := match r with inr h => dget TOKEN (headers h) | inl _ => None end.

Definition refusal_of (r : dict + http_request) : json := match r with inl d => d.[lit "detail"] | inr _ => JNull end.

Example tokens_by_origin :
  map (λ u, token_of (stock_call u stock_arguments))
    ["https://CONV.ng:443/v1/stock"; "https://conv.ng.evil/v1"; "https://conv.ng@evil/v1"; "http://conv.ng/v1"]%string =
  [Some (lit "t0ken"); None; None; None].
Proof. by vm_compute. Qed.

Example refusals :
  map refusal_of
    [stock_call "https://x.ng" []; stock_call "https://x.ng" [(lit "sku", JInt 1)];
     stock_call "https://x.ng" (stock_arguments ++ [(lit "price", JInt 0)]); stock_call "ftp://x.ng" stock_arguments] =
  map (λ m, JStr (lit m))
    ["Missing required fields: sku."; "Field 'sku' has the wrong type."; "Unexpected field: price.";
     "Tool endpoint must use http or https."]%string.
Proof. by vm_compute. Qed.

(** A client whose first answer is a redirection to another host, which the client's request follows
    with the headers it had but for [Authorization]. *)
Definition example_redirection (n : nat) (h : http_request) : option http_request :=
  match n with
  | O => Some (mkHttp (method h) (lit "https://elsewhere.ng/stock") (json_body h) (query h)
                 (List.filter (λ kv, negb (kv.1 =s lit "Authorization")) (headers h)))
  | S _ => None
  end.

Definition example_invocation : list http_request * exn dict :=
  invoke_dynamic_http_tool (λ _, true) tool_env example_redirection (λ _, Unreachable (lit "closed"))
    (stock_tool "https://conv.ng/v1/stock") stock_arguments [(lit "business_id", JStr (lit "b1"))].

(** The token goes with the redirected request to another origin. *)
Example token_redirected :
  map (λ h, (url h, dget TOKEN (headers h))) example_invocation.1 =
  [(lit "https://conv.ng/v1/stock", Some (lit "t0ken")); (lit "https://elsewhere.ng/stock", Some (lit "t0ken"))].
Proof. by vm_compute. Qed.

Lemma filtered_token (f : str * str → bool) l token :
  (∀ v, f (TOKEN, v) = true) → dget TOKEN (List.filter f l) = Some token → dget TOKEN l = Some token.
Proof.
  intros Hf. induction l as [|[k v] l IH]; [done|]. cbn [List.filter]. destruct (f (k, v)) eqn:E; cbn [dget].
  - destruct (TOKEN =s k); [done|exact IH].
  - intros H%IH. destruct (TOKEN =s k) eqn:Ek; [|done]. apply str_eqb_true in Ek as <-. by rewrite Hf in E.
Qed.

Lemma example_adds_no_token : redirects_add_no_token example_redirection.
Proof.
  intros [|n] h h' token; [|done]. intros [= <-]. apply filtered_token. intros v. by vm_compute.
Qed.

Lemma token_to_configured_origin_witness :
  ∃ h first, h ∈ example_invocation.1 ∧ dget TOKEN (headers h) = Some (lit "t0ken") ∧
    example_invocation.1 !! 0%nat = Some first ∧
    _normalized_origin (λ _, true) (url first) = Some (lit "https", lit "conv.ng", 443).
Proof.
  destruct example_invocation as [hs out] eqn:E.
  assert ((λ h, dget TOKEN (headers h)) <$> (hs !! 1%nat) = Some (Some (lit "t0ken"))) as Ht.
  { transitivity ((λ h, dget TOKEN (headers h)) <$> (example_invocation.1 !! 1%nat)); [by rewrite E|vm_compute; reflexivity]. }
  destruct (hs !! 1%nat) as [h|] eqn:Eh; [injection Ht as Ht|discriminate Ht].
  assert (h ∈ hs) as Hin by (apply list_elem_of_lookup_2 with 1%nat; exact Eh).
  destruct (token_to_configured_origin (λ _, true) tool_env example_redirection (λ _, Unreachable (lit "closed"))
    _ _ _ hs out h (lit "t0ken") example_adds_no_token E Hin Ht) as [H|(_ & first & Hf & _ & _ & H)].
  - vm_compute in H. discriminate H.
  - exists h, first. split; [exact Hin|]. split; [exact Ht|]. split; [exact Hf|]. rewrite H. vm_compute. reflexivity.
Defined.

Lemma dynamic_call_checked_witness :
  ∃ h out, call_dynamic_tool (λ _, true) tool_env tool_env (λ _ _, None) (λ _, TimedOut) (mkCtx JNull JNull (lit "room"))
      (mkTool (lit "stock") [] [] (stock_tool "https://x.ng")) (JObj stock_arguments) = ([h], out) ∧ is_http (url h) = true.
Proof.
  destruct (call_dynamic_tool (λ _, true) tool_env tool_env (λ _ _, None) (λ _, TimedOut) (mkCtx JNull JNull (lit "room"))
      (mkTool (lit "stock") [] [] (stock_tool "https://x.ng")) (JObj stock_arguments)) as [[|h [|h' hs]] out] eqn:E;
    [vm_compute in E; discriminate E| |vm_compute in E; discriminate E].
  exists h, out. split; [reflexivity|].
  exact (proj1 (proj2 (proj2 (dynamic_call_checked (λ _, true) tool_env tool_env (λ _ _, None) (λ _, TimedOut) _ _ _ h [] out E)))).
Defined.
