(* ===== verification/Recording.v ===== *)
(** * Recordings: agent/livekit_recording.py

    A call is recorded by the LiveKit Egress service, into a bucket or into a directory of the
    Egress host.  The settings come from the environment; what the service answers is the
    input of the operations, one answer for each [await]. *)
From stdpp Require Import base list strings.
From Stdlib Require Import ZArith Lia.
From S2P Require Import Prelude Pystr Json JsonText Url CallIdentity OpsApi.

(** ** Paths *)

Definition ascii_alnum (c : Z) : bool := is_alpha c || ((48 <=? c) && (c <=? 57)).

Definition path_char (c : Z) : bool := ascii_alnum c || (c =? 95) || (c =? 46) || (c =? 45).

Definition safe_part (part : str) : bool :=
  negb (in_strs part [lit "."; lit ".."]) && negb (is_nil part) && forallb path_char part.

Definition _safe_relative_path (path : str) : bool := forallb safe_part (py_split_char 47 path).

(** [posixpath.splitext(name)[1]] of a name without a slash. *)
Definition extension (name : str) : str :=
  match cut_at (Z.eqb 46) (List.rev name) with
  | (e, Some before) => if forallb (Z.eqb 46) before then [] else 46 :: List.rev e
  | (_, None) => []
  end.

(** [posixpath.join(a, b)] *)
Definition join_path (a b : str) : str :=
  if starts_with (lit "/") b then b
  else if is_nil a || ends_with (lit "/") a then a ++ b
  else a ++ [47] ++ b.

Definition LOCAL_SCHEME : str := lit "local-recording:///".

(** [parts[-2]] and [parts[-1]], of three parts and more. *)
Definition last_two (parts : list str) : option (str * str) :=
  match List.rev parts with last :: before :: _ :: _ => Some (before, last) | _ => None end.

Definition _validated_local_uri (uri : str) : option str :=
  if negb (starts_with LOCAL_SCHEME uri) then None
  else
    let path := drop (length LOCAL_SCHEME) uri in
    match last_two (py_split_char 47 path) with
    | None => None
    | Some (business, name) =>
        if negb (_safe_relative_path path) then None
        else if negb (bool_decide (parse_uuid business = Some business)) then None
        else if in_strs (extension name) [lit ".mp3"; lit ".mp4"; lit ".ogg"] then Some uri else None
    end.

(** ** Credentials *)

(** Line breaks and tabs written as escapes outside the strings of a JSON text: [in_string],
    and after a backslash in one. *)
Fixpoint strip_layout (in_string escape : bool) (raw : str) : str :=
  match raw with
  | [] => []
  | c :: r =>
      if in_string then
        c :: strip_layout (escape || negb (c =? 34)) (negb escape && (c =? 92)) r
      else if c =? 34 then c :: strip_layout true false r
      else if c =? 92 then
        match r with
        | d :: r' =>
            if d =? 116 then 32 :: strip_layout false false r'
            else if (d =? 110) || (d =? 114) then strip_layout false false r'
            else c :: strip_layout false false r
        | [] => [c]
        end
      else c :: strip_layout false false r
  end.

Definition _strip_json_layout_escapes (raw : str) : str := strip_layout false false raw.

(** The attempts at reading the credentials as JSON: done, or what is left as a path. *)
Fixpoint read_credentials (attempts : nat) (candidate : str) : str + str :=
  match attempts with
  | O => inr candidate
  | S attempts =>
      if is_nil candidate then inl []
      else match loads candidate with
           | Raise _ =>
               let normalized := _strip_json_layout_escapes candidate in
               if normalized =s candidate then inr candidate else read_credentials attempts normalized
           | Ok (JObj d) => inl (dumps_ascii (JObj d))
           | Ok (JStr s) => read_credentials attempts (py_strip s)
           | Ok _ => inr candidate
           end
  end.

(** ** What Egress knows of a recording *)

Inductive egress_status : Type := Running | Complete | Failed | Aborted | LimitReached.

Record file_info := mkFile { location : str; filename : str; file_duration : exn Z }.

Record egress_info := mkEgress {
  egress_state : egress_status;
  egress_error : str;
  file_results : list file_info;
  egress_file : option file_info;
}.

Definition _extract_completed_file (info : option egress_info) : option file_info :=
  match info with
  | Some i =>
      match egress_state i with
      | Complete =>
          find (λ f, negb (is_nil (py_strip (location f))) || negb (is_nil (py_strip (filename f))))
            (file_results i ++ match egress_file i with Some f => [f] | None => [] end)
      | _ => None
      end
  | None => None
  end.

Definition _extract_completed_location (info : option egress_info) : option str :=
  match _extract_completed_file info with
  | Some f => match py_strip (location f) with [] => None | l => Some l end
  | None => None
  end.

(** Nanoseconds, in seconds. *)
Definition _file_duration_seconds (f : file_info) (fallback : Z) : Z :=
  match file_duration f with
  | Ok ns => if 0 <? ns then ns / 1000000000 else fallback
  | Raise _ => fallback
  end.

Record start_result := mkStart {
  start_enabled : bool; egress_id : option str; start_filepath : option str; start_url : option str; start_detail : option str;
}.

Record finalize_result := mkFinalize {
  recording_status : str; recording_url : option str; recording_seconds : Z; recording_detail : option str;
}.

(** [started_at], of a year with four digits. *)
Record moment := mkMoment { year : Z; month : Z; day : Z; hour : Z; minute : Z; second : Z }.

Definition digit (n : Z) : Z := 48 + n mod 10.
Definition two (n : Z) : str := [digit (n / 10); digit n].
Definition stamp (t : moment) : str :=
  two (year t / 100) ++ two (year t) ++ two (month t) ++ two (day t) ++ lit "T" ++ two (hour t) ++ two (minute t)
  ++ two (second t) ++ lit "Z".

Section recording.
(** The environment when the module was loaded; letters and digits beyond ASCII; the text of a
    file; the integer settings of the time-outs are the client's. *)
Context (env0 : environ) (is_unicode_alnum : Z → bool) (read_file : str → exn str).

Definition setting (k d : String.string) : str := py_strip (getenv env0 (lit k) (lit d)).

Definition RECORDING_ENABLED : bool := py_lower (getenv env0 (lit "LIVEKIT_RECORDING_ENABLED") (lit "false")) =s lit "true".
Definition RECORDING_STORAGE_PROVIDER : str :=
  or_else (py_lower (setting "LIVEKIT_RECORDING_STORAGE_PROVIDER" "gcs")) (lit "gcs").
Definition RECORDING_BUCKET : str :=
  py_strip (or_else (getenv env0 (lit "LIVEKIT_RECORDING_BUCKET") []) (getenv env0 (lit "LIVEKIT_RECORDING_GCS_BUCKET") [])).
Definition RECORDING_GCP_CREDENTIALS : str := setting "LIVEKIT_RECORDING_GCP_CREDENTIALS_JSON" "".
Definition RECORDING_S3_ACCESS_KEY : str := setting "LIVEKIT_RECORDING_S3_ACCESS_KEY" "".
Definition RECORDING_S3_SECRET_KEY : str := setting "LIVEKIT_RECORDING_S3_SECRET_KEY" "".
Definition RECORDING_S3_SESSION_TOKEN : str := setting "LIVEKIT_RECORDING_S3_SESSION_TOKEN" "".
Definition RECORDING_S3_REGION : str := setting "LIVEKIT_RECORDING_S3_REGION" "af-south-1".
Definition RECORDING_S3_ENDPOINT : str := setting "LIVEKIT_RECORDING_S3_ENDPOINT" "".
Definition RECORDING_S3_FORCE_PATH_STYLE : bool :=
  py_lower (getenv env0 (lit "LIVEKIT_RECORDING_S3_FORCE_PATH_STYLE") (lit "false")) =s lit "true".
Definition RECORDING_PREFIX : str := getenv env0 (lit "LIVEKIT_RECORDING_FILE_PREFIX") (lit "livekit-recordings").
Definition RECORDING_LOCAL_DIRECTORY : str := getenv env0 (lit "LIVEKIT_RECORDING_LOCAL_DIRECTORY") [].
Definition RECORDING_FORMAT : str := or_else (py_lower (setting "LIVEKIT_RECORDING_FORMAT" "mp3")) (lit "mp3").
Definition RECORDING_PUBLIC_BASE_URL : str := py_rstrip_char 47 (setting "LIVEKIT_RECORDING_PUBLIC_BASE_URL" "").

Definition is_local : bool := RECORDING_STORAGE_PROVIDER =s lit "local".
Definition is_s3 : bool := RECORDING_STORAGE_PROVIDER =s lit "s3".

Definition _local_recording_config : exn (str * str) :=
  let directory := py_rstrip_char 47 RECORDING_LOCAL_DIRECTORY in
  let prefix := py_rstrip_char 47 RECORDING_PREFIX in
  if negb (starts_with (lit "/") directory) || negb (_safe_relative_path (drop 1 directory))
  then Raise (ValueError (lit "invalid_local_recording_directory"))
  else if negb (_safe_relative_path prefix) then Raise (ValueError (lit "invalid_local_recording_prefix"))
  else if negb (in_strs RECORDING_FORMAT [lit "mp3"; lit "mp4"; lit "ogg"])
  then Raise (ValueError (lit "invalid_local_recording_format"))
  else Ok (directory, prefix).

Definition is_recording_enabled : bool :=
  RECORDING_ENABLED &&
  (if is_local then match _local_recording_config with Ok _ => true | Raise _ => false end
   else negb (is_nil RECORDING_BUCKET) &&
        (if is_s3 then negb (is_nil RECORDING_S3_ACCESS_KEY) && negb (is_nil RECORDING_S3_SECRET_KEY)
                       && negb (is_nil RECORDING_S3_ENDPOINT)
         else negb (is_nil RECORDING_GCP_CREDENTIALS))).

Definition is_alnum (c : Z) : bool := if c <? 128 then ascii_alnum c else is_unicode_alnum c.

(** The runs of letters and digits, joined by dashes. *)
Definition _safe_slug (value fallback : str) (ascii_only : bool) : str :=
  let raw := py_strip value ≫= (λ c, if is_alnum c && (negb ascii_only || (c <? 128)) then lower_char c else [45]) in
  or_else (py_join (lit "-") (List.filter (λ p, negb (is_nil p)) (py_split_char 45 raw))) fallback.

Definition strip_slashes (s : str) : str := strip_by (Z.eqb 47) s.

Definition file_name (session_id room_name : str) (started_at : moment) (local : bool) : str :=
  stamp started_at ++ lit "-" ++ _safe_slug room_name (lit "room") local ++ lit "-"
  ++ _safe_slug session_id (lit "session") local ++ lit "." ++ RECORDING_FORMAT.

Definition _recording_path (business_id session_id room_name : str) (started_at : moment) : exn str :=
  let name := file_name session_id room_name started_at is_local in
  if is_local then
    do! config := _local_recording_config in
    match parse_uuid (py_strip business_id) with
    | None => Raise (ValueError (lit "invalid_local_recording_business_id"))
    | Some business => Ok (join_path config.1 (join_path (join_path config.2 business) name))
    end
  else
    Ok (join_path (join_path (or_else (strip_slashes RECORDING_PREFIX) (lit "livekit-recordings"))
                     (_safe_slug business_id (lit "unknown-business") false)) name).

(** [s.partition("://")] *)
Definition cut_scheme (s : str) : str * option str :=
  let i := py_find (lit "://") s in
  if i <? 0 then (s, None) else (take (Z.to_nat i) s, Some (drop (Z.to_nat i + 3) s)).

(** The address of an object of a bucket at the S3 endpoint. *)
Definition endpoint_url (endpoint bucket path : str) : str :=
  if RECORDING_S3_FORCE_PATH_STYLE then endpoint ++ lit "/" ++ bucket ++ lit "/" ++ path
  else match cut_scheme endpoint with
       | (scheme, Some ((_ :: _) as host)) => scheme ++ lit "://" ++ bucket ++ lit "." ++ host ++ lit "/" ++ path
       | _ => bucket ++ lit "." ++ endpoint ++ lit "/" ++ path
       end.

Definition _public_url_for_path (filepath : str) : exn str :=
  if is_local then
    do! config := _local_recording_config in
    if negb (starts_with (config.1 ++ lit "/") filepath) then Raise (ValueError (lit "local_recording_outside_directory"))
    else match _validated_local_uri (LOCAL_SCHEME ++ drop (length config.1 + 1) filepath) with
         | Some uri => Ok uri
         | None => Raise (ValueError (lit "invalid_local_recording_path"))
         end
  else
    let path := lstrip_by (Z.eqb 47) filepath in
    Ok (if negb (is_nil RECORDING_PUBLIC_BASE_URL) then RECORDING_PUBLIC_BASE_URL ++ lit "/" ++ path
        else if is_s3 then
          match py_rstrip_char 47 RECORDING_S3_ENDPOINT with
          | [] => lit "s3://" ++ RECORDING_BUCKET ++ lit "/" ++ path
          | endpoint => endpoint_url endpoint RECORDING_BUCKET path
          end
        else lit "https://storage.googleapis.com/" ++ RECORDING_BUCKET ++ lit "/" ++ path).

Definition _serialize_credentials : str :=
  match py_strip RECORDING_GCP_CREDENTIALS with
  | [] => []
  | raw =>
      match read_credentials 3 raw with
      | inl credentials => credentials
      | inr path => match (do! text := read_file path in loads text) with Ok v => dumps_ascii v | Raise _ => [] end
      end
  end.

(** ** Start *)

Inductive upload : Type := NoUpload | S3Upload (bucket : str) | GCPUpload (bucket credentials : str).

Record egress_request := mkEgressRequest { egress_room : str; egress_format : str; egress_path : str; egress_upload : upload }.

(** [str(exc)] of a [ValueError]. *)
Definition error_text (e : pyexc) : str := match e with ValueError m => m | _ => [] end.

(** A result at once, or the request with the address that is expected. *)
Definition start_room_recording (room_name business_id session_id : str) (started_at : moment) :
    start_result + egress_request * str :=
  let refused detail := inl (mkStart false None None None (Some detail)) in
  if negb is_recording_enabled then refused (lit "recording_disabled")
  else
    let cloud := negb (in_strs RECORDING_STORAGE_PROVIDER [lit "s3"; lit "local"]) in
    let credentials := if cloud then _serialize_credentials else [] in
    if cloud && is_nil credentials then refused (lit "invalid_gcp_credentials")
    else match (do! filepath := _recording_path business_id session_id room_name started_at in
                do! url := _public_url_for_path filepath in Ok (filepath, url)) with
         | Raise e => refused (error_text e)
         | Ok (filepath, url) =>
             inr (mkEgressRequest room_name
                    (if in_strs RECORDING_FORMAT [lit "mp3"; lit "mp4"] then RECORDING_FORMAT else lit "ogg") filepath
                    (if is_s3 then S3Upload RECORDING_BUCKET
                     else if is_local then NoUpload else GCPUpload RECORDING_BUCKET credentials), url)
         end.

(** The identifier that Egress gave, or the text of its error. *)
Definition recording_started (request : egress_request) (url : str) (answer : str + str) : start_result :=
  match answer with
  | inl id => mkStart true (match py_strip id with [] => None | i => Some i end) (Some (egress_path request)) (Some url) None
  | inr text => mkStart true None (Some (egress_path request)) (Some url) (Some text)
  end.

(** ** Stop *)

Definition truthy_opt (s : option str) : option str := match s with Some (_ :: _) => s | _ => None end.

Definition _normalize_recording_url (loc : option str) (fallback : option str) : option str :=
  if is_local || starts_with (lit "local-recording:") (default [] fallback) then
    match truthy_opt fallback with Some f => _validated_local_uri f | None => None end
  else
    let raw := py_strip (default [] loc) in
    let bucket_path n := cut_at (Z.eqb 47) (drop n raw) in
    if is_nil raw then fallback
    else
      let http := if starts_with (lit "http://") raw || starts_with (lit "https://") raw then Some raw else fallback in
      if starts_with (lit "gs://") raw then
        match bucket_path 5%nat with
        | ((_ :: _) as bucket, Some ((_ :: _) as path)) =>
            Some (lit "https://storage.googleapis.com/" ++ bucket ++ lit "/" ++ path)
        | _ => http
        end
      else if starts_with (lit "s3://") raw then
        match bucket_path 5%nat with
        | ((_ :: _) as bucket, Some ((_ :: _) as path)) =>
            if negb (is_nil RECORDING_PUBLIC_BASE_URL) then Some (RECORDING_PUBLIC_BASE_URL ++ lit "/" ++ path)
            else if negb (is_nil RECORDING_S3_ENDPOINT)
            then Some (endpoint_url (py_rstrip_char 47 RECORDING_S3_ENDPOINT) bucket path)
            else Some raw
        | _ => http
        end
      else http.

(** [request_stop_room_recording], for the answer to the request. *)
Definition request_stop_room_recording (egress_id : option str) (acknowledged : bool) : bool :=
  match truthy_opt egress_id with None => false | Some _ => acknowledged end.

(** What an [await] of the finalisation ends with: what Egress knows, nothing, an error with its
    text, or the end of the time that was allowed. *)
Inductive egress_answer : Type := Known (info : egress_info) | Unknown | Erred (text : str) | TimeUp.

(** The number that Egress gives a status, in a text. *)
Context (status_text : egress_status → str).

Definition failure_of (info : option egress_info) (seconds : Z) : option finalize_result :=
  match info with
  | Some i =>
      match egress_state i with
      | (Failed | Aborted | LimitReached) as st =>
          Some (mkFinalize (lit "failed") None seconds
                  (Some (or_else (py_strip (egress_error i)) (lit "egress_status_" ++ status_text st))))
      | _ => None
      end
  | None => None
  end.

Definition processing (seconds : Z) (detail : str) : finalize_result :=
  mkFinalize (lit "processing") None seconds (Some detail).

(** What is known so far: is that the end? *)
Definition concluded (latest : option egress_info) (expected_url : option str) (seconds : Z) : option finalize_result :=
  match failure_of latest seconds with
  | Some r => Some r
  | None =>
      match _extract_completed_file latest with
      | Some f =>
          match truthy_opt (_normalize_recording_url (Some (location f)) expected_url) with
          | Some url => Some (mkFinalize (lit "available") (Some url) (_file_duration_seconds f seconds) None)
          | None => None
          end
      | None => None
      end
  end.

(** The polling; [None] if the answers end before it does. *)
Fixpoint poll (latest : option egress_info) (expected_url : option str) (seconds : Z) (answers : list egress_answer) :
    option finalize_result :=
  match concluded latest expected_url seconds with
  | Some r => Some r
  | None =>
      match answers with
      | [] => None
      | Known info :: answers => poll (Some info) expected_url seconds answers
      | Unknown :: answers => poll None expected_url seconds answers
      | Erred text :: _ => Some (processing seconds text)
      | TimeUp :: _ => Some (processing seconds (lit "egress_completion_timeout"))
      end
  end.

(** The first answer is to the stop, where an error tells nothing. *)
Definition finalize_room_recording (egress_id expected_url : option str) (seconds : Z) (request_stop : bool)
    (answers : list egress_answer) : option finalize_result :=
  match truthy_opt egress_id with
  | None => Some (mkFinalize (lit "unavailable") None seconds (Some (lit "missing_egress_id")))
  | Some _ =>
      if request_stop then
        match answers with
        | [] => None
        | Known info :: answers => poll (Some info) expected_url seconds answers
        | (Unknown | Erred _) :: answers => poll None expected_url seconds answers
        | TimeUp :: _ => Some (processing seconds (lit "egress_completion_timeout"))
        end
      else poll None expected_url seconds answers
  end.

(** ** Local recordings stay where they belong *)

Lemma split_char_snoc c a b : Forall (λ x, x ≠ c) b → py_split_char c (a ++ c :: b) = py_split_char c a ++ [b].
Proof.
  intros Hb. unfold py_split_char. generalize (@nil Z) at 1 2. induction a as [|d a IH]; intros cur; simpl.
  - rewrite Z.eqb_refl. rewrite <-(app_nil_r b) at 1. rewrite split_char_word by done. simpl.
    by rewrite app_nil_r, List.rev_involutive.
  - destruct (d =? c); [simpl; by rewrite IH|apply IH].
Qed.

(** A name of the characters of a path. *)
Definition plain (s : str) : Prop := s ≠ [] ∧ Forall (λ c, path_char c = true) s.

Lemma path_char_no_slash c : path_char c = true → c ≠ 47.
Proof. intros H ->. discriminate H. Qed.

Lemma plain_no_slash s : plain s → Forall (λ c, c ≠ 47) s.
Proof. intros [_ H]. eapply Forall_impl; [exact H|apply path_char_no_slash]. Qed.

Lemma plain_safe s : plain s → in_strs s [lit "."; lit ".."] = false → safe_part s = true.
Proof.
  intros [Hne H] Hd. unfold safe_part. rewrite Hd. destruct s as [|c s]; [done|]. cbn [is_nil negb andb]. apply forallb_forall. intros x Hx.
  rewrite Forall_forall in H. by apply H, list_elem_of_In.
Qed.

Lemma join_plain a b : a ≠ [] → ends_with (lit "/") a = false → plain b → join_path a b = a ++ 47 :: b.
Proof.
  intros Ha He [Hb H]. unfold join_path. destruct b as [|c b]; [done|].
  assert (starts_with (lit "/") (c :: b) = false) as ->.
  { inversion H as [|? ? Hc _]; subst. apply path_char_no_slash in Hc. change (lit "/") with [47].
    cbn [starts_with]. by rewrite (proj2 (Z.eqb_neq 47 c)) by auto. }
  by destruct a; [|rewrite He].
Qed.

Lemma no_trailing a b : plain b → ends_with (lit "/") (a ++ b) = false.
Proof.
  intros [Hb H]. unfold ends_with. rewrite List.rev_app_distr. apply Forall_rev in H.
  destruct (List.rev b) as [|c r] eqn:E; [by apply (f_equal (@List.rev Z)) in E; rewrite List.rev_involutive in E|].
  inversion H as [|? ? Hc _]; subst. apply path_char_no_slash in Hc. change (lit "/") with [47].
  cbn [starts_with List.rev app]. by rewrite (proj2 (Z.eqb_neq 47 c)) by auto.
Qed.

Lemma rstrip_no_trailing s : ends_with (lit "/") (py_rstrip_char 47 s) = false.
Proof.
  unfold ends_with, py_rstrip_char, rstrip_by. rewrite List.rev_involutive.
  pose proof (lstrip_no_head (Z.eqb 47) (List.rev s)) as H. destruct (lstrip_by _ _) as [|c r]; [done|].
  change (lit "/") with [47]. cbn [starts_with List.rev app]. unfold no_head in H. by rewrite H.
Qed.

Lemma digit_plain n : path_char (digit n) = true.
Proof.
  unfold digit. pose proof (Z.mod_pos_bound n 10 ltac:(lia)). unfold path_char, ascii_alnum.
  replace ((48 <=? 48 + n mod 10) && (48 + n mod 10 <=? 57)) with true by lia. by rewrite orb_true_r.
Qed.

Lemma two_plain n : Forall (λ c, path_char c = true) (two n).
Proof. repeat constructor; apply digit_plain. Qed.

Lemma stamp_plain t : Forall (λ c, path_char c = true) (stamp t).
Proof. unfold stamp. repeat (apply Forall_app; split); try apply two_plain; by constructor. Qed.

Lemma uuid_plain n : plain (uuid_text n).
Proof.
  split; [intros H; pose proof (uuid_text_length n) as Hl; rewrite H in Hl; discriminate Hl|].
  eapply Forall_impl; [apply uuid_text_chars|]. intros c H. unfold hex_char in H. unfold path_char, ascii_alnum, is_alpha.
  destruct H as [[?|?]|?]; [|replace ((97 <=? c) && (c <=? 122)) with true by lia; by rewrite orb_true_r|by subst].
  replace ((48 <=? c) && (c <=? 57)) with true by lia. by rewrite orb_true_r.
Qed.

(** A slug of ASCII letters, digits and dashes. *)
Lemma lower_ascii c : 0 ≤ c < 128 → ascii_alnum c = true → Forall (λ x, path_char x = true) (lower_char c).
Proof.
  intros Hc Ha. assert (forallb (λ n, negb (ascii_alnum (Z.of_nat n)) || forallb path_char (lower_char (Z.of_nat n))) (seq 0 128) = true)
    as H by (vm_compute; reflexivity).
  assert (In (Z.to_nat c) (seq 0 128)) as Hin by (apply in_seq; lia).
  rewrite forallb_forall in H. specialize (H _ Hin). cbv beta in H. rewrite Z2Nat.id, Ha in H by lia. cbn [negb orb] in H.
  apply Forall_forall. intros x Hx%list_elem_of_In. by apply (proj1 (forallb_forall _ _) H).
Qed.

Lemma negative_no_alnum c : ascii_alnum c = true → 0 ≤ c.
Proof. unfold ascii_alnum, is_alpha. intros H. lia. Qed.

Lemma join_chars (P : Z → Prop) sep l : Forall P sep → Forall (Forall P) l → Forall P (py_join sep l).
Proof.
  intros Hs. induction 1 as [|x l Hx Hl IH]; simpl; [constructor|]. destruct l; [done|]. repeat (apply Forall_app; split; [done|]). done.
Qed.

Lemma split_chars (P : Z → Prop) c s : Forall P s → Forall (Forall P) (py_split_char c s).
Proof.
  unfold py_split_char. intros H. assert (Forall P (@nil Z)) as Hn by constructor. revert Hn.
  generalize (@nil Z). induction H as [|d s Hd Hs IH]; intros cur Hcur; simpl.
  - constructor; [by apply Forall_rev|constructor].
  - destruct (d =? c); [constructor; [by apply Forall_rev|by apply IH]|apply IH; by constructor].
Qed.

Lemma slug_plain v fallback : plain fallback → plain (_safe_slug v fallback true).
Proof.
  intros Hf. unfold _safe_slug. cbn [negb orb].
  assert (Forall (λ c, path_char c = true) (py_strip v ≫= (λ c, if is_alnum c && (c <? 128) then lower_char c else [45]))) as Hraw.
  { apply Forall_bind, Forall_true. intros c. unfold compose; cbv beta. destruct (is_alnum c && (c <? 128)) eqn:E; [|by repeat constructor].
    apply andb_prop in E as [Ha Hc]. unfold is_alnum in Ha. rewrite Hc in Ha. apply lower_ascii; [|done].
    apply negative_no_alnum in Ha. lia. }
  set (parts := List.filter _ _).
  assert (Forall (λ c, path_char c = true) (py_join (lit "-") parts)) as Hj.
  { apply join_chars; [by repeat constructor|]. apply Forall_forall. intros x Hx.
    apply list_elem_of_In, filter_In in Hx as [Hx _]. apply list_elem_of_In in Hx.
    revert x Hx. apply Forall_forall, split_chars, Hraw. }
  destruct (py_join (lit "-") parts) as [|c r] eqn:E; [done|]. by split.
Qed.

Lemma chars_plain s : forallb path_char s = true → Forall (λ c, path_char c = true) s.
Proof. intros H. apply Forall_forall. intros x Hx%list_elem_of_In. by apply (proj1 (forallb_forall _ _) H). Qed.

Lemma plain_app a b : plain a → Forall (λ c, path_char c = true) b → plain (a ++ b).
Proof. intros [Hn Ha] Hb. split; [by destruct a|]. by apply Forall_app. Qed.

Definition formats : list str := [lit "mp3"; lit "mp4"; lit "ogg"].

Lemma format_plain f : in_strs f formats = true → Forall (λ c, path_char c = true) f.
Proof.
  unfold in_strs. cbn [existsb formats]. rewrite !orb_true_iff, !str_eqb_true.
  intros [->|[->|[->|H]]]; [by apply chars_plain; vm_compute..|discriminate H].
Qed.

Lemma name_plain session_id room_name t :
  in_strs RECORDING_FORMAT formats = true → plain (file_name session_id room_name t true).
Proof.
  intros Hf%format_plain. unfold file_name.
  assert (plain (lit "room") ∧ plain (lit "session")) as [Hr Hs] by (split; split; try done; by apply chars_plain; vm_compute).
  destruct (slug_plain room_name _ Hr) as [_ H1]. destruct (slug_plain session_id _ Hs) as [_ H2].
  split; [unfold stamp, two; discriminate|]. repeat (apply Forall_app; split); try done; try apply two_plain; by apply chars_plain; vm_compute.
Qed.

Lemma name_no_dots session_id room_name t : in_strs (file_name session_id room_name t true) [lit "."; lit ".."] = false.
Proof.
  apply not_true_iff_false. unfold in_strs. cbn [existsb]. rewrite !orb_true_iff, !str_eqb_true.
  change (lit ".") with [46]. change (lit "..") with [46; 46]. unfold file_name, stamp, two. cbn [app].
  intros [H|[H|H]]; discriminate H.
Qed.

(** The extension of a name that goes on before its last dot. *)
Lemma extension_last base f :
  Forall (λ c, c ≠ 46) f → forallb (Z.eqb 46) base = false → extension (base ++ lit "." ++ f) = lit "." ++ f.
Proof.
  intros Hf Hb. unfold extension. change (lit ".") with [46]. rewrite !List.rev_app_distr. cbn [List.rev app].
  rewrite <-app_assoc. cbn [app].
  assert (∀ x y, Forall (λ c, c ≠ 46) x → cut_at (Z.eqb 46) (x ++ 46 :: y) = (x, Some y)) as Hcut.
  { intros x y. induction 1 as [|c x Hc Hx IH]; [done|]. cbn [app cut_at]. rewrite IH.
    by rewrite (proj2 (Z.eqb_neq 46 c)) by auto. }
  rewrite Hcut by by apply Forall_rev. rewrite List.rev_involutive.
  assert (forallb (Z.eqb 46) (List.rev base) = false) as ->; [|done].
  apply not_true_iff_false. intros H. rewrite <-not_true_iff_false in Hb. apply Hb. rewrite forallb_forall in *.
  intros x Hx. apply H. by rewrite <-in_rev.
Qed.

Lemma name_extension session_id room_name t :
  in_strs RECORDING_FORMAT formats = true →
  in_strs (extension (file_name session_id room_name t true)) [lit ".mp3"; lit ".mp4"; lit ".ogg"] = true.
Proof.
  intros Hf. unfold file_name. rewrite !app_assoc, <-(app_assoc _ (lit ".")), extension_last.
  - unfold in_strs in *. cbn [existsb formats] in Hf |- *. rewrite !orb_true_iff, !str_eqb_true in Hf.
    destruct Hf as [->|[->|[->|H]]]; [by vm_compute..|discriminate H].
  - unfold in_strs in Hf. cbn [existsb formats] in Hf. rewrite !orb_true_iff, !str_eqb_true in Hf.
    destruct Hf as [->|[->|[->|H]]]; [by repeat (constructor; [done|])..|discriminate H].
  - rewrite <-!app_assoc. unfold stamp, two, digit. cbn [app forallb].
    pose proof (Z.mod_pos_bound (year t / 100 / 10) 10 ltac:(lia)).
    by rewrite (proj2 (Z.eqb_neq 46 (48 + (year t / 100 / 10) mod 10))) by lia.
Qed.

(** What lies below the directory. *)
Definition below (prefix business name : str) : str := prefix ++ 47 :: business ++ 47 :: name.

Lemma below_parts prefix business name :
  plain business → plain name → py_split_char 47 (below prefix business name) = py_split_char 47 prefix ++ [business; name].
Proof.
  intros Hb Hn. unfold below. replace (prefix ++ 47 :: business ++ 47 :: name) with ((prefix ++ 47 :: business) ++ 47 :: name)
    by (by rewrite <-app_assoc).
  rewrite !split_char_snoc by by apply plain_no_slash. by rewrite <-app_assoc.
Qed.

Lemma below_valid prefix n session_id room_name t :
  0 ≤ n < 2 ^ 128 → in_strs RECORDING_FORMAT formats = true → _safe_relative_path prefix = true →
  let rest := below prefix (uuid_text n) (file_name session_id room_name t true) in
  _validated_local_uri (LOCAL_SCHEME ++ rest) = Some (LOCAL_SCHEME ++ rest).
Proof.
  intros Hn Hf Hp rest. unfold _validated_local_uri. rewrite starts_with_app. cbn [negb]. rewrite drop_app_length.
  pose proof (uuid_plain n) as Hu. pose proof (name_plain session_id room_name t Hf) as Hname.
  unfold rest at 1. rewrite below_parts by done. unfold last_two. rewrite List.rev_app_distr. cbn [List.rev app].
  destruct (List.rev (py_split_char 47 prefix)) as [|x l] eqn:E.
  { exfalso. apply (f_equal (@length str)) in E. rewrite List.length_rev in E.
    pose proof (split_char_from_last 47 [] prefix). unfold py_split_char in E. by destruct (split_char_from 47 [] prefix). }
  assert (_safe_relative_path rest = true) as ->.
  { unfold _safe_relative_path, rest. rewrite below_parts, forallb_app by done. rewrite andb_true_iff. split; [exact Hp|].
    cbn [forallb]. rewrite !plain_safe; try done; [apply name_no_dots|].
    apply not_true_iff_false. unfold in_strs. cbn [existsb]. rewrite !orb_true_iff, !str_eqb_true. pose proof (uuid_text_length n) as Hl.
    intros [H|[H|H]]; [rewrite H in Hl; discriminate Hl..|discriminate H]. }
  cbn [negb]. rewrite parse_uuid_text, bool_decide_true by done. cbn [negb]. by rewrite name_extension.
Qed.
Lemma local_config directory prefix : _local_recording_config = Ok (directory, prefix) →
  directory = py_rstrip_char 47 RECORDING_LOCAL_DIRECTORY ∧ prefix = py_rstrip_char 47 RECORDING_PREFIX ∧
  starts_with (lit "/") directory = true ∧ _safe_relative_path prefix = true ∧ in_strs RECORDING_FORMAT formats = true.
Proof.
  unfold _local_recording_config. cbv zeta. destruct (negb (starts_with _ _) || _) eqn:E1; [done|].
  destruct (negb (_safe_relative_path (py_rstrip_char 47 RECORDING_PREFIX))) eqn:E2; [done|]. fold formats.
  destruct (negb (in_strs _ _)) eqn:E3; [done|]. intros [= <- <-].
  apply orb_false_elim in E1 as [E1 _]. apply negb_false_iff in E1, E2, E3. by repeat split.
Qed.

(** The path of a local recording: below the configured directory and prefix, in the directory
    of the business, under a plain name; and the address that is kept for it. *)
Theorem local_path_contained business_id session_id room_name t path :
  is_local = true → _recording_path business_id session_id room_name t = Ok path →
  ∃ directory prefix n,
    let name := file_name session_id room_name t true in
    _local_recording_config = Ok (directory, prefix) ∧ path = directory ++ 47 :: below prefix (uuid_text n) name ∧
    parse_uuid (py_strip business_id) = Some (uuid_text n) ∧ safe_part name = true ∧
    _public_url_for_path path = Ok (LOCAL_SCHEME ++ below prefix (uuid_text n) name) ∧
    _validated_local_uri (LOCAL_SCHEME ++ below prefix (uuid_text n) name) =
      Some (LOCAL_SCHEME ++ below prefix (uuid_text n) name).
Proof.
  intros Hl. unfold _recording_path. rewrite Hl. destruct _local_recording_config as [[directory prefix]|] eqn:Ec; [|done].
  cbn [exn_bind fst snd]. destruct (parse_uuid (py_strip business_id)) as [business|] eqn:Eb; [|done]. intros [= <-].
  destruct (parse_uuid_Some _ _ Eb) as (n & Hn & ->). destruct (local_config _ _ Ec) as (Hd & Hp & Hs & Hsafe & Hf).
  pose proof (name_plain session_id room_name t Hf) as Hname. pose proof (uuid_plain n) as Hu.
  assert (prefix ≠ []) as Hpne by (intros ->; discriminate Hsafe).
  assert (directory ≠ []) as Hdne by (intros ->; discriminate Hs).
  assert (join_path directory (join_path (join_path prefix (uuid_text n)) (file_name session_id room_name t true))
          = directory ++ 47 :: below prefix (uuid_text n) (file_name session_id room_name t true)) as Hj.
  { rewrite (join_plain prefix) by (done || by rewrite Hp; apply rstrip_no_trailing).
    assert (ends_with (lit "/") (prefix ++ 47 :: uuid_text n) = false) as He.
    { change (47 :: uuid_text n) with ([47] ++ uuid_text n). rewrite app_assoc. by apply no_trailing. }
    rewrite (join_plain (prefix ++ 47 :: uuid_text n)) by (done || by destruct prefix).
    rewrite <-app_assoc. cbn [app]. fold (below prefix (uuid_text n) (file_name session_id room_name t true)).
    unfold join_path. assert (starts_with (lit "/") (below prefix (uuid_text n) (file_name session_id room_name t true)) = false) as ->.
    { destruct prefix as [|c prefix]; [done|]. unfold below. cbn [app]. change (lit "/") with [47]. cbn [starts_with].
      destruct (Z.eqb_spec 47 c) as [<-|Hc]; [|done]. discriminate Hsafe. }
    assert (ends_with (lit "/") directory = false) as -> by (rewrite Hd; apply rstrip_no_trailing).
    destruct directory; [done|]. by cbn [is_nil orb]. }
  rewrite Hj. exists directory, prefix, n. cbv zeta.
  pose proof (below_valid prefix n session_id room_name t Hn Hf Hsafe) as Hv. cbv zeta in Hv.
  split; [done|]. split; [done|]. split; [done|]. split; [apply plain_safe; [done|apply name_no_dots]|]. split; [|done].
  unfold _public_url_for_path. rewrite Hl, Ec. cbn [exn_bind fst snd].
  change (directory ++ 47 :: ?r) with (directory ++ ([47] ++ r)). rewrite app_assoc. change (lit "/") with [47].
  rewrite starts_with_app. cbn [negb]. replace (length directory + 1)%nat with (length (directory ++ [47])) by (by rewrite length_app).
  by rewrite drop_app_length, Hv.
Qed.

(** ** What is reported of a recording *)

Lemma normalized_local loc expected url :
  is_local = true ∨ (∃ e, expected = Some e ∧ starts_with (lit "local-recording:") e = true) →
  _normalize_recording_url loc expected = Some url → expected = Some url ∧ _validated_local_uri url = Some url.
Proof.
  intros H. unfold _normalize_recording_url.
  assert (is_local || starts_with (lit "local-recording:") (default [] expected) = true) as ->.
  { destruct H as [->|(e & -> & He)]; [done|]. change (default [] (Some e)) with e. by rewrite He, orb_true_r. }
  destruct expected as [e|]; [|done]. destruct e as [|c e]; [done|]. cbn [truthy_opt]. unfold _validated_local_uri at 1 2.
  destruct (negb (starts_with _ _)) eqn:E1; [done|]. destruct (last_two _) as [[b n]|] eqn:E2; [|done].
  destruct (negb (_safe_relative_path _)) eqn:E3; [done|]. destruct (negb (bool_decide _)) eqn:E4; [done|].
  destruct (in_strs _ _) eqn:E5; [|done]. intros [= <-]. split; [done|]. by rewrite E1, E2, E3, E4, E5.
Qed.

(** A result, and what Egress last said of the recording. *)
Definition justified (expected_url : option str) (seconds : Z) (answers : list egress_answer) (r : finalize_result) : Prop :=
  (recording_status r = lit "available" ∧
     ∃ info f url, Known info ∈ answers ∧ egress_state info = Complete ∧
       (f ∈ file_results info ∨ egress_file info = Some f) ∧ recording_url r = Some url ∧ url ≠ [] ∧
       _normalize_recording_url (Some (location f)) expected_url = Some url) ∨
  (recording_status r = lit "failed" ∧ recording_url r = None ∧
     ∃ info, Known info ∈ answers ∧ egress_state info ∈ [Failed; Aborted; LimitReached]) ∨
  (recording_status r = lit "processing" ∧ recording_url r = None ∧ ∃ a, a ∈ answers ∧ (a = TimeUp ∨ ∃ text, a = Erred text)).

Lemma justified_mono e s a l r : justified e s l r → justified e s (a :: l) r.
Proof.
  intros [(H1 & i & f & u & Hi & H)|[(H1 & H2 & i & Hi & H)|(H1 & H2 & x & Hx & H)]]; [left|right; left|right; right].
  - split; [done|]. exists i, f, u. split; [by right|done].
  - do 2 (split; [done|]). exists i. split; [by right|done].
  - do 2 (split; [done|]). exists x. split; [by right|done].
Qed.

Lemma concluded_justified info e s l r : concluded (Some info) e s = Some r → justified e s (Known info :: l) r.
Proof.
  unfold concluded, failure_of, _extract_completed_file. intros H.
  destruct (egress_state info) eqn:Es;
    try (injection H as <-; right; left; do 2 (split; [done|]); exists info; split; [by left|rewrite Es; auto using list_elem_of_here, list_elem_of_further]); [done|].
  destruct (find _ _) as [f|] eqn:Ef; [|done]. apply find_some in Ef as [Hf _].
  destruct (truthy_opt _) as [url|] eqn:Eu; [|done]. injection H as <-. left. split; [done|].
  exists info, f, url. split; [by left|]. split; [done|].
  assert (∀ o, truthy_opt o = Some url → url ≠ [] ∧ o = Some url) as Ht by (by intros [[|c u]|]; [|intros [= <-]|]).
  destruct (Ht _ Eu) as [Hne Hn]. split; [|done]. apply in_app_or in Hf as [Hf|Hf]; [left; by apply list_elem_of_In|].
  right. destruct (egress_file info); [|done]. destruct Hf as [->|[]]. done.
Qed.

Lemma poll_justified e s latest l r : poll latest e s l = Some r → justified e s (match latest with Some i => Known i :: l | None => l end) r.
Proof.
  revert latest. induction l as [|a l IH]; intros latest H; cbn [poll] in H.
  - destruct latest as [i|]; [|done]. destruct (concluded _ _ _) eqn:E; [|done]. injection H as ->. by apply concluded_justified.
  - destruct (concluded latest e s) as [r'|] eqn:E.
    { injection H as ->. destruct latest as [i|]; [|done]. by apply concluded_justified. }
    assert (justified e s (a :: l) r) as Hj.
    { destruct a as [i| |text|].
      - by apply (IH (Some i)).
      - apply justified_mono. by apply (IH None).
      - injection H as <-. right; right. do 2 (split; [done|]). exists (Erred text). split; [by left|]. right; by eexists.
      - injection H as <-. right; right. do 2 (split; [done|]). exists TimeUp. split; [by left|by left]. }
    destruct latest; [by apply justified_mono|done].
Qed.

(** A recording is reported as available only if Egress said that it is complete, with a file;
    as failed only if Egress said so; an error or the end of the time leaves it in processing.
    With a local recording the address that is reported is the expected one, of the tenant's
    form, whatever Egress says. *)
Theorem recording_reported egress_id expected_url seconds request_stop answers r :
  truthy_opt egress_id ≠ None → finalize_room_recording egress_id expected_url seconds request_stop answers = Some r →
  justified expected_url seconds answers r ∧
  (is_local = true ∨ (∃ e, expected_url = Some e ∧ starts_with (lit "local-recording:") e = true) →
   ∀ url, recording_url r = Some url → expected_url = Some url ∧ _validated_local_uri url = Some url).
Proof.
  intros He H. assert (justified expected_url seconds answers r) as Hj.
  { revert H. unfold finalize_room_recording. destruct (truthy_opt egress_id); [|done]. destruct request_stop; [|apply (poll_justified _ _ None)].
    destruct answers as [|[i| |text|] tl]; [done|..].
    - apply (poll_justified _ _ (Some i)).
    - intros H%poll_justified. by apply justified_mono.
    - intros H%poll_justified. by apply justified_mono.
    - intros [= <-]. right; right. do 2 (split; [done|]). exists TimeUp. split; [by left|by left]. }
  split; [done|]. intros Hl url Hu.
  destruct Hj as [(_ & i & f & u & _ & _ & _ & Hr & _ & Hn)|[(_ & Hr & _)|(_ & Hr & _)]]; [|by rewrite Hr in Hu..].
  rewrite Hr in Hu. injection Hu as ->. by eapply normalized_local.
Qed.

Lemma poll_ends e s l latest : TimeUp ∈ l → is_Some (poll latest e s l).
Proof.
  revert latest. induction l as [|a l IH]; intros latest H; [by apply not_elem_of_nil in H|]. cbn [poll].
  destruct (concluded latest e s); [by eexists|]. apply elem_of_cons in H as [<-|H]; [by eexists|].
  destruct a; try apply IH; try done; by eexists.
Qed.

(** The end of the time ends the finalisation. *)
Theorem finalization_ends egress_id expected_url seconds request_stop answers :
  TimeUp ∈ answers → is_Some (finalize_room_recording egress_id expected_url seconds request_stop answers).
Proof.
  intros H. unfold finalize_room_recording. destruct (truthy_opt egress_id); [|by eexists].
  destruct request_stop; [|by apply poll_ends]. destruct answers as [|a tl]; [by apply not_elem_of_nil in H|].
  apply elem_of_cons in H as [<-|H]; [by eexists|]. destruct a; try (by apply poll_ends); by eexists.
Qed.
End recording.

(** ** Instances *)

Definition local_env (directory : String.string) : environ := λ k,
  if k =s lit "LIVEKIT_RECORDING_ENABLED" then Some (lit "true")
  else if k =s lit "LIVEKIT_RECORDING_STORAGE_PROVIDER" then Some (lit " Local ")
  else if k =s lit "LIVEKIT_RECORDING_LOCAL_DIRECTORY" then Some (lit directory) else None.

Definition bank_tenant : str := lit "3F2504E0-4F89-11D3-9A0C-0305E82C3301".
Definition noon : moment := mkMoment 2026 2 3 12 0 9.

Definition example_path (directory : String.string) (room : str) : exn str :=
  _recording_path (local_env directory) (λ _, true) bank_tenant (lit "S/1") room noon.

Definition example_kept : str :=
  lit "livekit-recordings/3f2504e0-4f89-11d3-9a0c-0305e82c3301/20260203T120009Z-etc-passwd-s-1.mp3".

(** Neither a room of another shape nor a directory that leads upwards leaves the directory. *)
Example local_paths :
  (example_path "/recordings/" (lit "../../etc/passwd"), example_path "/recordings/.." (lit "r")) =
  (Ok (lit "/recordings/" ++ example_kept), Raise (ValueError (lit "invalid_local_recording_directory"))).
Proof. by vm_compute. Qed.

(** Credentials in a JSON text of a JSON text, with line breaks written as escapes. *)
Example quoted_credentials :
  read_credentials 3 (lit "{\n\t" ++ json_quote (lit "a") ++ lit ": 1\n}") =
  inl (lit "{" ++ json_quote (lit "a") ++ lit ": 1}").
Proof. by vm_compute. Qed.

Definition egress_said (st : egress_status) (files : list file_info) : egress_answer := Known (mkEgress st [] files None).

Definition example_finalized (answers : list egress_answer) : option finalize_result :=
  finalize_room_recording (local_env "/recordings") (λ st, lit "3") (Some (lit "EG_1")) (Some (LOCAL_SCHEME ++ example_kept))
    60 true answers.

Definition kept_elsewhere : file_info := mkFile (lit "https://elsewhere/x.mp3") [] (Ok 61500000000).

Example finalized :
  map (λ l, option_map (λ r, (recording_status r, recording_url r, recording_seconds r)) (example_finalized l))
    [[Unknown; egress_said Running []; egress_said Complete [kept_elsewhere]]; [Unknown; egress_said Running []; TimeUp];
     [egress_said LimitReached []]; [Unknown; egress_said Running []]] =
  [Some (lit "available", Some (LOCAL_SCHEME ++ example_kept), 61); Some (lit "processing", None, 60);
   Some (lit "failed", None, 60); None].
Proof. by vm_compute. Qed.

Lemma local_path_contained_witness :
  ∃ directory prefix n, example_path "/recordings" (lit "../r") =
    Ok (directory ++ 47 :: below prefix (uuid_text n) (file_name (local_env "/recordings") (λ _, true) (lit "S/1") (lit "../r") noon true)).
Proof.
  destruct (example_path "/recordings" (lit "../r")) as [path|e] eqn:E; [|vm_compute in E; discriminate E].
  destruct (local_path_contained (local_env "/recordings") (λ _, true) bank_tenant (lit "S/1") (lit "../r") noon path
              ltac:(vm_compute; reflexivity) E) as (d & p & n & _ & -> & _).
  exists d, p, n. reflexivity.
Defined.

Lemma recording_reported_witness :
  ∃ r url, example_finalized [Unknown; egress_said Complete [kept_elsewhere]] = Some r ∧ recording_url r = Some url ∧
    _validated_local_uri url = Some url.
Proof.
  destruct (example_finalized [Unknown; egress_said Complete [kept_elsewhere]]) as [r|] eqn:E; [|vm_compute in E; discriminate E].
  exists r, (LOCAL_SCHEME ++ example_kept). split; [reflexivity|].
  assert (recording_url r = Some (LOCAL_SCHEME ++ example_kept)) as Hu by (pose proof E as E2; vm_compute in E2; injection E2 as <-; vm_compute; reflexivity).
  split; [exact Hu|].
  assert (truthy_opt (Some (lit "EG_1")) ≠ None) as Hid by (vm_compute; discriminate).
  refine (proj2 (proj2 (recording_reported _ _ _ _ _ _ _ r Hid E) _ _ Hu)). left. vm_compute. reflexivity.
Defined.

Lemma finalization_ends_witness : is_Some (example_finalized [Unknown; egress_said Running []; TimeUp]).
Proof. apply finalization_ends. right. right. left. Defined.
